(* ===== verification/_CoqProject ===== *)
-Q . S2P
Prelude.v
RustStr.v
RustParse.v
Errors.v
Identity.v
DayEpoch.v
Bucket.v
Psbt.v
BucketLedger.v
PersistedLedger.v
Quantum.v
Constitution.v
QuorumClaim.v
AntiNonce.v
IntentConsume.v
Ledger.v
NodeTier.v
Economy.v
Gate.v
Release.v
DailyRotation.v
LabField.v
Threshold.v
Frost.v
HybridEnvelope.v
WireDkg.v
WireRoster.v
WireHub.v
AuthIdentity.v
FrostShares.v
RateLimit.v
WireDkgMesh.v
WireDkgRun.v
TrWire.v
ShareReshare.v
ReshareWire.v
FrostSign.v
Cosign.v
CosignMesh.v
TrSign.v
DkgLocal.v
HttpPeer.v
PeerTrust.v
ConfigEnv.v
Config.v
HttpRoute.v
HttpTreasury.v
HttpSettle.v
Health.v
HttpMesh.v
HttpDkg.v
HttpLegacy.v
SignerIpc.v
SignerDaemon.v
KeyIdentity.v
IdentityDaemon.v
IdentityServer.v
SeedStore.v
TeeAttestation.v
DurableFs.v
Json.v
PeerFanout.v
PeerLink.v
ReleaseStore.v
EconomyStore.v
SealedStore.v
ShareAead.v
ShareTee.v
ShareTpm.v
Lifecycle.v
Wiring.v
Admin.v
WireToy.v
KeyExamples.v
SignExamples.v
HttpExamples.v
ShareExamples.v
StoreExamples.v
DaemonExamples.v
WiringExamples.v
