(* ===== verification/Prelude.v ===== *)
(** * Kerosene vault: a verification library

    The vault is a Rust workspace. A mesh of vault nodes holds the shares of a
    group key; a bank submits settlement intents, and a node lets a signature
    happen only after its gate accepted the intent. Around this core the nodes
    keep a governance ledger, a miner economy, a release allowlist and a daily
    rotation. This library models the decision logic of [crates/vault-core]
    ([src/crates/vault-core/src/], the paths below are relative to it) and proves
    what makes it correct.

    ** Parts, and how they interact

    - Errors ([domain/error.rs]): every error value and its text. All fallible
      functions return [result DomainError], all methods on shared state are
      [cmd DomainError S], a state transformer with a result.
    - Identity ([domain/peer.rs], [domain/attestation.rs], content hashes of
      [domain/release.rs], [adapters/peer_memory.rs]): node ids, measurements,
      attestation modes. It declares [Sha256], the digest every hash uses.
    - DayEpoch ([domain/day_epoch.rs], [days_to_date] of [application/admin.rs]):
      UTC days and the two calendar conversions.
    - Bucket ([domain/bucket.rs], [domain/bitcoin_net.rs], signatures of
      [domain/intent_bind.rs]): bucket policies, profit splits, settlement intents
      and [evaluate_intent], the pure gate. Psbt ([domain/psbt_policy.rs], output
      matching of [domain/intent_bind.rs]): what a transaction must look like to be
      signed for an intent.
    - BucketLedger (the in-memory ledger of [adapters/bucket_memory.rs]): daily
      accounting, soft reservations with expiry, consumed ids. PersistedLedger (the
      durable one, same file): its methods as sequences of locked sections and file
      writes, the log and its reading at boot, and threads that interleave.
    - QuorumClaim ([QuorumAntiNonce] of [adapters/session_persist.rs] and the shape
      it shares with the intent claims): a claim at home and on the peers.
      AntiNonce ([adapters/session_persist.rs], [application/ports.rs]) and
      IntentConsume ([adapters/intent_consume.rs]) are its two uses; both stores
      are instances of [PrepareStore], the interface the claim is proved against.
    - Gate ([application/intent_ops.rs]): reserve, execute, commit, release over
      [BucketPort], the ledger's port. [BucketPortSpec] states what the port
      promises; the in-memory and the durable ledger discharge it.
    - Constitution ([domain/constitution.rs]), Quantum ([domain/quantum_state.rs],
      [application/quantum_migration.rs]): parameters with their hash, and the
      migration state machine inside them.
    - Ledger ([domain/ledger.rs], [adapters/ledger_memory.rs],
      [application/ledger_ops.rs]): the hash chain, epoch proposals and votes.
    - NodeTier ([domain/node_tier.rs]) and Economy ([domain/reward.rs],
      [adapters/economy_memory.rs], [application/economy_ops.rs]): tiers and
      seating; pools, bounties and payouts. The economy's use cases append their
      events to the governance ledger, so their state is the pair [EcoNode].
    - Release ([domain/release.rs], [adapters/release_memory.rs],
      [application/release_ops.rs]): candidates, rebuilds, cosigns, allowlist; its
      use cases read the constitution and pay governance bounties.
    - DailyRotation ([adapters/daily_rotation.rs]): votes and the day's advance.
    - LabField, Threshold ([domain/threshold.rs], [domain/dkg.rs],
      [adapters/threshold_state.rs], [application/sign.rs]): the lab field, the
      DKG, and signing sessions.
    - Frost: the frost crates as classes, [Frost] (types, rounds, codecs) with
      [FrostCodec], [FrostDkg], [FrostStorage], [FrostRefresh], and in FrostSign
      [FrostSign]; a law states documented behaviour of the crate.
    - HybridEnvelope ([adapters/hybrid_envelope.rs]); WireDkg, WireRoster, WireHub
      ([adapters/dkg_wire.rs]): a session's rounds, its roster and transcript, what
      one call does to a hub; TrWire ([adapters/dkg_tr_wire.rs]); WireDkgMesh and
      WireDkgRun: the hubs of a mesh exchanging messages, and an honest run.
    - FrostShares ([adapters/frost_dealer.rs], share persistence), ShareReshare
      ([adapters/frost_reshare.rs]) and ReshareWire ([adapters/reshare_wire.rs]):
      keysets on a [ShareStore], the reshare hook, the wire refresh.
    - Cosign, CosignMesh ([adapters/frost_wire_cosign.rs]) and TrSign
      ([adapters/frost_tr_bitcoin.rs]): both sides of a co-signature over
      [AntiNoncePort] and [TrCosignTransport], and the Bitcoin orchestrator.
    - DkgLocal ([adapters/dkg_distributed.rs], [frost_sign.rs], the dealers): the
      laboratory forms, a ceremony inside one process and its signing orchestrator.
    - AuthIdentity ([adapters/auth_*.rs]), RateLimit, HttpPeer
      ([adapters/http_peer.rs]), PeerTrust ([adapters/audit_keys.rs],
      [adapters/tls_peer_verify.rs]), ConfigEnv and Config
      ([bootstrap/config.rs]): who a caller is, and what a node starts with.
    - PeerFanout: the loops by which the claims and votes are asked of the peers,
      and the run of the mesh of QuorumClaim they amount to. PeerLink
      ([auth_mtls.rs], [tls_peer_verify.rs], the outbound half of the hubs): TLS
      configurations, clients, fan-outs, and vaults that exchange them over a
      network.
    - HttpRoute, HttpTreasury, HttpMesh, HttpLegacy ([adapters/http.rs]): the route
      table with its middleware, and the handlers over the gate and the signer, the
      peers' ledgers and key generations, and the use cases of the old routes. A
      handler is a [cmd Exit]: it ends in a reply or a panic. HttpSettle and HttpDkg
      run sequences of requests. Health ([application/health.rs], [online_probe.rs],
      [metrics.rs]): the reports.
    - DurableFs ([adapters/durable_fs.rs]): a directory and what a crash leaves of
      it. Json: values, their text and its reading. ReleaseStore, EconomyStore: the
      snapshots of the release mesh and the economy. SealedStore with ShareAead,
      ShareTee, ShareTpm ([adapters/share_*.rs]): shares sealed into files, an
      instance of [ShareStore] each; TeeAttestation ([adapters/attestation_tee]).
      Lifecycle ([application/key_lifecycle.rs], [share_migration.rs]).
    - KeyIdentity, IdentityDaemon, IdentityServer (crates [vault-identity-core] and
      [vault-identityd]), SeedStore ([adapters/identity_hybrid.rs]); SignerIpc and
      SignerDaemon (crate [vault-signer]).
    - Wiring ([bootstrap/wiring.rs]): [build] makes a node of a configuration, every
      component above with the settings it gets. Admin ([application/admin.rs],
      [adapters/admin_api.rs], [src/src/main.rs]): the reports of a built node on a
      Unix socket.
    - WireToy: externals for which the laws hold. KeyExamples, SignExamples,
      HttpExamples, ShareExamples, StoreExamples, DaemonExamples, WiringExamples: runs
      on them, the witnesses, and the findings that need concrete externals.

    A Rust struct is a Record with the same fields (a field name two records share
    gets a prefix), an enum an Inductive with its constructors, a method a
    Definition named after it (prefixed by its type when the name is shared). A
    use case's [execute] is a Definition named after the use case.

    ** What the theorems show

    - No double spend: the in-memory ledger is simulated by an abstract ledger of
      held and burned amounts, its daily caps hold, an id is claimed at most once,
      also between threads, across restarts, and in a mesh where every node runs
      the quorum claim; after an execute or commit nothing admits the id again.
    - Only valid intents: the exact acceptance condition of the pure gate and of the
      PSBT checks, and that what [GateIntent] admits meets it, miner payouts of
      an open economy going only to registered eligible operators.
    - Governance: the ledger stays a hash chain that its head determines (or
      SHA-256 collides); the epoch moves only with a quorum of distinct active
      votes; the day only forward and with a quorum of votes; the quantum state
      never goes back; two signing quorums intersect; an allowlisted binary passed
      every predicate and is the rebuild of its source.
    - Money: profit allocation, bounties and payouts conserve the sums, payouts
      are spaced by the cadence.
    - Threshold: any [t] shares of the lab DKG interpolate to the joint secret;
      sessions and nonce commitments are used once; signing fail-stops below [t]
      and succeeds from [t] on.
    - Keys: vaults that complete one ceremony hold one group key, and an honest
      ceremony completes in any order of deliveries; a session never drifts from
      what its start froze; no reshare, in process or over the wire, moves a group
      key; shares written to a store load back.
    - Signatures: a peer's nonces sign once and only the announced message; with
      every configured peer honest the wire quorum signs; a signed PSBT pays its
      intent; a session id signs once.
    - HTTP: handlers are reached by the callers they are meant for; a PSBT signed
      over HTTP is an admitted intent, and no sequence of requests pays an intent
      twice; a key generation takes its inputs from the seated vaults' certificates,
      and a fan-out that succeeds has reached every vault it is for, over a network
      that loses requests and answers; the old routes keep every ledger in order.
    - Disk: what a durable write reported as done is there after any crash, and a
      file is never half of two versions; economy and releases read back equal; a
      sealed share is given out only after a verified quote and under its own
      passphrase; the identity file is whole at every moment.
    - Daemons: the signing daemon's sessions and its framing; the identity daemon's
      endpoints are reached by authenticated callers only.
    - Start: a configuration accepted for a production ceremony has every lab
      setting off, and a node built from it talks over TLS without tokens, keeps one
      share behind no stub, and neither deals nor reshares in process. One roster
      runs through ledger, lab group, quorums and ceremonies of a node
      ([Wiring.runtime_one_roster]). The administration socket answers the configured
      token only, and no reply depends on a secret ([Admin.admin_tells_no_secret]).
    - Findings: lemmas that exhibit behaviour the comments do not intend; each
      component file ends with its own, the [*Examples] files hold those that
      need concrete externals.

    ** Conventions and bounds

    - [u64], [u32], [usize] are [N] ([Z] in LabField, Threshold and the calendar);
      saturating operations are written with [N.min], plain [+] and [*] that can
      leave the width with [wrap64]. Hypotheses such as [amount ≤ u64_max] say
      that a value is one of the type.
    - A clock reading is an argument, one per reading the code makes. The outcome
      of a file write or of a peer exchange is an argument too, so a theorem holds
      for all of them. A method that takes its lock once is one transition; in
      PersistedLedger, where the code unlocks between sections, each section is.
      A use case that calls several ports runs uninterrupted here.
      Poisoned mutexes are not modelled. A crash is a failure at a system call
      followed by [crash], which loses any part of what was not synced.
    - Strings are their UTF-8 bytes ([RustStr]); JSON texts are built by [format] with
      templates whose double quotes are written as backquotes. [HashMap] and
      [BTreeMap] are [gmap]s, a [BTreeMap] iterated through [bt_iter] in key order;
      where a [HashMap] is iterated the order is that of [map_to_list], and no
      theorem depends on it.
    - External crates are parameters: SHA-256 ([Sha256], with [Sha256Spec] for the
      shape of a digest; collisions are never assumed away, theorems name the
      texts that would clash), the bitcoin crate's address functions ([AddressLib])
      and weight, ciphers and key derivation ([SealLib], [AeadLib]), signatures
      ([Ed25519Lib], [MlDsaLib]), the SEV guest ([SnpLib]), rustls ([TlsLib]), HTTP
      requests, [Path::exists], JSON parsing ([JsonRead] and the classes of bodies).
      Toy instances serve the concrete runs.
    - Fuel: [strip_all] and [words] cut at least one byte per step and start from
      the length of their string; [blocking_loop] of HttpPeer starts from the
      configured number of attempts and a theorem shows that this suffices, as the
      loops of PeerFanout and PeerLink do; the toy JSON parser starts from the length
      of its text, [show_hex] from the bits of its number. Other loops recurse on their lists, [mod_pow] on the bits of its exponent. Runs
      are lists of calls, or [steps] of a relation; [along R c] says that a command
      moves its state along the preorder [R].

    ** Not modelled

    Inside the external crates: FROST arithmetic, secp256k1 and Taproot, the ciphers,
    TPM and TEE calls, rustls' handshakes, axum's matching and extraction, reqwest,
    serde_json, hyper. Of [crates/vault-core]: the stubs and trait declarations of
    [channel_inject.rs], [clock.rs], [sync_util.rs] and [ports.rs] (the ports are the
    interfaces here), constructors that only store their arguments, and what a build
    that fails leaves on disk outside the data directory. Of [vault-signer]: key
    generation, reshare and the Taproot signer, which call functions the frost crate
    does not have and are reached from no request. *)
From stdpp Require Export base option list numbers strings pretty gmap sorting.
From Stdlib Require Export Lia.

(* ------------------------------------------------------------------ *)
(** ** Results: Rust's [Result<T, E>] *)

Inductive result (E A : Type) : Type :=
| Ok (a : A)
| Err (e : E).
Arguments Ok {E A} a.
Arguments Err {E A} e.

#[export] Instance result_eq_dec {E A} `{EqDecision E, EqDecision A} : EqDecision (result E A).
Proof. solve_decision. Defined.

(** Rust's [?] operator is the bind of this monad. *)
#[export] Instance result_ret {E} : MRet (result E) := λ A a, Ok a.
#[export] Instance result_bind {E} : MBind (result E) := λ A B f r,
  match r with Ok a => f a | Err e => Err e end.
#[export] Instance result_fmap {E} : FMap (result E) := λ A B f r,
  match r with Ok a => Ok (f a) | Err e => Err e end.

Definition is_ok {E A} (r : result E A) : bool :=
  match r with Ok _ => true | Err _ => false end.

(** [ok_or_else]. *)
Definition ok_or {E A} (o : option A) (e : E) : result E A :=
  match o with Some a => Ok a | None => Err e end.

(** [map_err]. *)
Definition map_err {E F A} (f : E → F) (r : result E A) : result F A :=
  match r with Ok a => Ok a | Err e => Err (f e) end.

(** A chain of early returns succeeds exactly when no guard fires. *)
Lemma guard_ok {E A} (b : bool) (e : E) (r : result E A) x :
  (if b then Err e else r) = Ok x ↔ b = false ∧ r = Ok x.
Proof. destruct b; naive_solver. Qed.

Lemma guard_ok_else {E A} (b : bool) (e : E) (r : result E A) x :
  (if b then r else Err e) = Ok x ↔ b = true ∧ r = Ok x.
Proof. destruct b; naive_solver. Qed.

Lemma bind_ok {E A B} (r : result E A) (f : A → result E B) y :
  r ≫= f = Ok y ↔ ∃ x, r = Ok x ∧ f x = Ok y.
Proof. destruct r; unfold mbind, result_bind; naive_solver. Qed.

Lemma ok_or_ok {E A} (o : option A) (e : E) x : ok_or o e = Ok x ↔ o = Some x.
Proof. destruct o; naive_solver. Qed.

Lemma Ok_inj_iff {E A} (x y : A) : (Ok x : result E A) = Ok y ↔ x = y.
Proof. naive_solver. Qed.

(* ------------------------------------------------------------------ *)
(** ** Stateful commands: a body run under the component's lock.

    A mutation done before an early return stays done, as in the source. *)

Definition cmd (E S A : Type) : Type := S → S * result E A.

#[export] Instance cmd_ret {E S} : MRet (cmd E S) := λ A a s, (s, Ok a).
#[export] Instance cmd_bind {E S} : MBind (cmd E S) := λ A B f m s,
  match m s with
  | (s', Ok a) => f a s'
  | (s', Err e) => (s', Err e)
  end.

Definition get {E S} : cmd E S S := λ s, (s, Ok s).
Definition put {E S} (s : S) : cmd E S unit := λ _, (s, Ok tt).
Definition update {E S} (f : S → S) : cmd E S unit := λ s, (f s, Ok tt).
Definition fail {E S A} (e : E) : cmd E S A := λ s, (s, Err e).
(** A pure fallible computation used in a stateful body. *)
Definition lift {E S A} (r : result E A) : cmd E S A := λ s, (s, r).
(** [let _ = body;]: run it and forget a possible error. *)
Definition ignore {E S A} (m : cmd E S A) : cmd E S unit := λ s, ((m s).1, Ok tt).
(** Run a command on a part of the state. *)
Definition zoom {E S T A} (prj : S → T) (upd : T → S → S) (m : cmd E T A) : cmd E S A :=
  λ s, let '(t, r) := m (prj s) in (upd t s, r).

(** What a successful step went through. *)
Lemma cmd_bind_ok {E S A B} (c : cmd E S A) (f : A → cmd E S B) s s' y :
  (c ≫= f) s = (s', Ok y) ↔ ∃ s1 x, c s = (s1, Ok x) ∧ f x s1 = (s', Ok y).
Proof. unfold mbind, cmd_bind. destruct (c s) as [s1 [x|e]]; naive_solver. Qed.
Lemma lift_ok {E S A} (r : result E A) (s s' : S) x : lift r s = (s', Ok x) ↔ s' = s ∧ r = Ok x.
Proof. unfold lift. naive_solver. Qed.
Lemma mret_ok {E S A} (x y : A) (s s' : S) : (mret x : cmd E S A) s = (s', Ok y) ↔ s' = s ∧ x = y.
Proof. unfold mret, cmd_ret. naive_solver. Qed.

(** Unfold the monads and case on every test of the goal / of [H]. *)
Ltac unfold_monad :=
  cbv [mret mbind fmap result_ret result_bind result_fmap cmd_ret cmd_bind
       get put update fail lift ignore zoom] in *.
Ltac crush_step :=
  match goal with
  | _ => progress simplify_eq/=
  | _ => progress destruct_and?
  | _ => case_match
  end.
Ltac crush := repeat crush_step.

(** Boolean tests of [N] and of booleans, in every hypothesis and the goal, to propositions. *)
Ltac nbool :=
  rewrite ?orb_true_iff, ?orb_false_iff, ?andb_true_iff, ?andb_false_iff, ?negb_true_iff, ?negb_false_iff,
    ?N.eqb_eq, ?N.eqb_neq, ?N.ltb_lt, ?N.ltb_ge, ?N.leb_le, ?N.leb_gt,
    ?bool_decide_eq_true, ?bool_decide_eq_false in *.
Ltac nlia := nbool; lia.

(* ------------------------------------------------------------------ *)
(** ** Machine integers.

    Rust's unsigned integers are [N]; the operations that can leave the width
    are written out: saturating, or wrapping where the source uses plain [+]
    and [*] (release build; no profile of the workspace turns overflow checks on). *)

Definition u8_max : N := 255.
Definition u16_max : N := 65535.
Definition u32_max : N := 4294967295.
Definition u64_max : N := 18446744073709551615.

Definition sat_add64 (a b : N) : N := N.min (a + b) u64_max.
Definition sat_mul64 (a b : N) : N := N.min (a * b) u64_max.
Definition sat_add32 (a b : N) : N := N.min (a + b) u32_max.
(** [saturating_sub] is subtraction of naturals. *)
Definition sat_sub (a b : N) : N := a - b.
Definition wrap64 (a : N) : N := a mod 18446744073709551616.
Definition wrap8 (a : N) : N := a mod 256.
Definition wrap16 (a : N) : N := a mod 65536.

(** [usize] lengths. *)
Definition len {A} (l : list A) : N := N.of_nat (length l).

(** [div_ceil]. *)
Definition div_ceil (a b : N) : N := if (a mod b =? 0)%N then a / b else a / b + 1.

Lemma sat_add64_le a b : (sat_add64 a b ≤ u64_max)%N.
Proof. unfold sat_add64. lia. Qed.

Lemma sat_add64_exact a b : (a + b ≤ u64_max)%N → sat_add64 a b = (a + b)%N.
Proof. unfold sat_add64. lia. Qed.

Lemma sat_mul64_le a b : (sat_mul64 a b ≤ a * b)%N.
Proof. unfold sat_mul64. lia. Qed.

Lemma sat_mul64_exact a b : (a * b ≤ u64_max)%N → sat_mul64 a b = (a * b)%N.
Proof. unfold sat_mul64. lia. Qed.

Lemma wrap64_exact a : (a ≤ u64_max)%N → wrap64 a = a.
Proof. unfold wrap64, u64_max. intros. apply N.mod_small. lia. Qed.

Lemma wrap64_le a : (wrap64 a ≤ u64_max)%N.
Proof. unfold wrap64, u64_max. pose proof (N.mod_upper_bound a 18446744073709551616). lia. Qed.

Lemma len_nil {A} : len (@nil A) = 0%N.
Proof. done. Qed.

Lemma len_cons {A} (x : A) l : len (x :: l) = (1 + len l)%N.
Proof. unfold len. simpl. lia. Qed.

Lemma len_app {A} (l k : list A) : len (l ++ k) = (len l + len k)%N.
Proof. unfold len. rewrite length_app. lia. Qed.

Lemma len_fmap {A B} (f : A → B) (l : list A) : len (f <$> l) = len l.
Proof. unfold len. by rewrite length_fmap. Qed.

Create HintDb vault discriminated.
#[export] Hint Resolve sat_add64_le sat_mul64_le wrap64_le : vault.
Create Rewrite HintDb vaultr.
#[export] Hint Rewrite @len_nil @len_cons @len_app @len_fmap : vaultr.
#[export] Hint Rewrite sat_add64_exact sat_mul64_exact wrap64_exact using lia : vaultr.

(* ------------------------------------------------------------------ *)
(** ** Sums over lists *)

Definition sumN {A} (f : A → N) (l : list A) : N := foldr (λ x acc, f x + acc)%N 0%N l.

Lemma sumN_app {A} (f : A → N) l k : sumN f (l ++ k) = (sumN f l + sumN f k)%N.
Proof. induction l as [|x l IH]; simpl; lia. Qed.

#[export] Instance sumN_perm {A} (f : A → N) : Proper ((≡ₚ) ==> eq) (sumN f).
Proof. intros l k H. induction H; simpl in *; lia. Qed.

Lemma sumN_ext {A} (f g : A → N) l : (∀ x, x ∈ l → f x = g x) → sumN f l = sumN g l.
Proof.
  induction l as [|x l IH]; intros H; [done|]. simpl.
  rewrite IH by (intros; apply H; by right). rewrite (H x); [done|by left].
Qed.

Lemma sumN_le_elem {A} (f : A → N) l x : x ∈ l → (f x ≤ sumN f l)%N.
Proof. induction 1; simpl; lia. Qed.

(* ------------------------------------------------------------------ *)
(** ** [BTreeMap<String, _>]: a finite map iterated in key order *)

Definition key_le {A} (p q : string * A) : Prop := String.le p.1 q.1.
#[export] Instance key_le_dec {A} : RelDecision (@key_le A).
Proof. intros p q. unfold key_le. apply _. Defined.
#[export] Instance key_le_total {A} : Total (@key_le A).
Proof. intros p q. unfold key_le. apply total, _. Qed.
#[export] Instance key_le_trans {A} : Transitive (@key_le A).
Proof. intros p q r. unfold key_le. apply transitivity. Qed.

Definition bt_iter {A} (m : gmap string A) : list (string * A) :=
  merge_sort key_le (map_to_list m).
Definition bt_values {A} (m : gmap string A) : list A := (bt_iter m).*2.
Definition bt_keys {A} (m : gmap string A) : list string := (bt_iter m).*1.
(** [BTreeSet<String>] in iteration order. *)
Definition bs_iter (s : gset string) : list string := merge_sort String.le (elements s).

Lemma bt_iter_perm {A} (m : gmap string A) : bt_iter m ≡ₚ map_to_list m.
Proof. apply merge_sort_Permutation. Qed.

Lemma elem_of_bt_iter {A} (m : gmap string A) k v : (k, v) ∈ bt_iter m ↔ m !! k = Some v.
Proof. rewrite bt_iter_perm. apply elem_of_map_to_list. Qed.

Lemma elem_of_bt_values {A} (m : gmap string A) v : v ∈ bt_values m ↔ ∃ k, m !! k = Some v.
Proof.
  unfold bt_values. rewrite list_elem_of_fmap. split.
  - intros [[k w] [-> H]]. exists k. by apply elem_of_bt_iter.
  - intros [k H]. exists (k, v). split; [done|]. by apply elem_of_bt_iter.
Qed.

Lemma bt_iter_sorted {A} (m : gmap string A) : StronglySorted key_le (bt_iter m).
Proof. apply StronglySorted_merge_sort; apply _. Qed.

Lemma NoDup_bt_keys {A} (m : gmap string A) : NoDup (bt_keys m).
Proof. unfold bt_keys. rewrite bt_iter_perm. apply NoDup_fst_map_to_list. Qed.

Lemma bs_iter_perm s : bs_iter s ≡ₚ elements s.
Proof. apply merge_sort_Permutation. Qed.

Lemma elem_of_bs_iter s x : x ∈ bs_iter s ↔ x ∈ s.
Proof. rewrite bs_iter_perm. apply elem_of_elements. Qed.

Lemma NoDup_bs_iter s : NoDup (bs_iter s).
Proof. rewrite bs_iter_perm. apply NoDup_elements. Qed.

(* ------------------------------------------------------------------ *)
(** ** First occurrences: a set of seen keys and a list of the kept elements *)

Fixpoint dedup {A} (key : A → string) (seen : gset string) (l : list A) : list A :=
  match l with
  | [] => []
  | x :: r =>
      if bool_decide (key x ∈ seen) then dedup key seen r
      else x :: dedup key ({[key x]} ∪ seen) r
  end.

Lemma dedup_elem {A} (key : A → string) seen l x : x ∈ dedup key seen l → x ∈ l ∧ key x ∉ seen.
Proof.
  revert seen. induction l as [|y l IH]; intros seen; simpl; [set_solver|].
  case_bool_decide as Hy; [intros H%IH; set_solver|].
  intros [->|H%IH]%elem_of_cons; set_solver.
Qed.

Lemma dedup_keys {A} (key : A → string) seen l k :
  k ∈ key <$> dedup key seen l ↔ k ∈ key <$> l ∧ k ∉ seen.
Proof.
  revert seen. induction l as [|y l IH]; intros seen; simpl; [set_solver|].
  case_bool_decide as Hy; simpl; [rewrite IH|rewrite elem_of_cons, IH]; [set_solver|].
  destruct (decide (k = key y)); set_solver.
Qed.

Lemma dedup_NoDup {A} (key : A → string) seen l : NoDup (key <$> dedup key seen l).
Proof.
  revert seen. induction l as [|y l IH]; intros seen; simpl; [apply NoDup_nil_2|].
  case_bool_decide as Hy; [apply IH|]. simpl. apply NoDup_cons. split; [|apply IH].
  rewrite dedup_keys. set_solver.
Qed.

(* ------------------------------------------------------------------ *)
(** ** Reachability: reflexive transitive closure of a step relation *)

Section steps.
Context {St : Type} (step : St → St → Prop).

Inductive steps : St → St → Prop :=
| steps_refl s : steps s s
| steps_cons s t u : step s t → steps t u → steps s u.

Lemma steps_invariant (P : St → Prop) :
  (∀ s t, P s → step s t → P t) → ∀ s t, steps s t → P s → P t.
Proof. intros Hs s t H. induction H; eauto. Qed.

Lemma steps_trans s t u : steps s t → steps t u → steps s u.
Proof. intros H. induction H; intros; [done|]. eapply steps_cons; eauto. Qed.

Lemma steps_one s t : step s t → steps s t.
Proof. intros. eapply steps_cons; [done|apply steps_refl]. Qed.

(** A relation preserved by each step is preserved along a run. *)
Lemma steps_preorder (R : St → St → Prop) `{!PreOrder R} :
  (∀ s t, step s t → R s t) → ∀ s t, steps s t → R s t.
Proof. intros Hs s t H. induction H; [reflexivity|]. etrans; eauto. Qed.
End steps.

(* ------------------------------------------------------------------ *)
(** ** What every run of a command respects: a preorder between the states before and after *)

Section along.
Context {E S : Type} (R : S → S → Prop) `{!PreOrder R}.
Definition along {A} (c : cmd E S A) : Prop := ∀ s, R s (c s).1.

Lemma along_bind {A B} (c : cmd E S A) (f : A → cmd E S B) : along c → (∀ x, along (f x)) → along (c ≫= f).
Proof.
  intros Hc Hf s. unfold mbind, cmd_bind. specialize (Hc s). destruct (c s) as [s1 [x|e]]; [|done].
  etrans; [exact Hc|apply Hf].
Qed.
Lemma along_ret {A} (x : A) : along (mret x).
Proof. intros s. reflexivity. Qed.
Lemma along_get : along get.
Proof. intros s. reflexivity. Qed.
Lemma along_fail {A} e : along (A:=A) (fail e).
Proof. intros s. reflexivity. Qed.
Lemma along_lift {A} (r : result E A) : along (lift r).
Proof. intros s. reflexivity. Qed.
Lemma along_update f : (∀ s, R s (f s)) → along (update f).
Proof. intros H s. apply H. Qed.
(** A part of the state moves, and the whole with it. *)
Lemma along_zoom {T A} (R' : T → T → Prop) (prj : S → T) (upd : T → S → S) (c : cmd E T A) :
  (∀ s, R' (prj s) (c (prj s)).1) → (∀ s t, R' (prj s) t → R s (upd t s)) → along (zoom prj upd c).
Proof. intros Hc Hu s. unfold zoom. specialize (Hc s). destruct (c (prj s)) as [t r]. by apply Hu. Qed.
End along.

Create HintDb along.
#[export] Hint Resolve along_ret along_get along_fail along_lift : along.
#[export] Hint Extern 1 (PreOrder _) => typeclasses eauto : along.
#[export] Hint Extern 1 (along _ (_ ≫= _)) =>
  (notypeclasses refine (along_bind _ _ _ _ _); [typeclasses eauto| |intros ?]) : along.
#[export] Hint Extern 3 (along _ (match ?x with _ => _ end)) => destruct x : along.
Ltac go_along := auto 40 with along.
