(* ===== verification/RustStr.v ===== *)
(** * Rust strings

    [String]/[&str] values are their UTF-8 bytes (Rocq's [string]); this file
    models the standard-library functions the vault calls on them: [trim],
    ASCII case mapping, [contains], [starts_with], [chars().any(..)] tests,
    [format!], decimal and hexadecimal printing. *)
From S2P Require Import Prelude.
From Stdlib Require Ascii String.
Export Ascii.AsciiSyntax.
Delimit Scope char_scope with char.
Local Open Scope N_scope.

Abbreviation ascii := Ascii.ascii.
Abbreviation EmptyString := String.EmptyString.
Abbreviation bytes := (list Ascii.ascii).
Definition bytes_of (s : string) : bytes := String.list_ascii_of_string s.
Definition str_of (l : bytes) : string := String.string_of_list_ascii l.
Definition byte_n (a : ascii) : N := Ascii.N_of_ascii a.
Definition str_len (s : string) : N := N.of_nat (String.length s).

Lemma str_of_bytes_of s : str_of (bytes_of s) = s.
Proof. apply String.string_of_list_ascii_of_string. Qed.
Lemma bytes_of_str_of l : bytes_of (str_of l) = l.
Proof. apply String.list_ascii_of_string_of_list_ascii. Qed.

(* ------------------------------------------------------------------ *)
(** ** [str::trim]: the Unicode White_Space characters, as UTF-8 *)

Definition ws1 (a : ascii) : bool := let n := byte_n a in ((9 <=? n) && (n <=? 13)) || (n =? 32).
(** U+0085, U+00A0. *)
Definition ws2 (a b : ascii) : bool :=
  (byte_n a =? 194) && ((byte_n b =? 133) || (byte_n b =? 160)).
(** U+1680, U+2000..U+200A, U+2028, U+2029, U+202F, U+205F, U+3000. *)
Definition ws3 (a b c : ascii) : bool :=
  let '(x, y, z) := (byte_n a, byte_n b, byte_n c) in
  ((x =? 225) && (y =? 154) && (z =? 128))
  || ((x =? 226) && (y =? 128) &&
      (((128 <=? z) && (z <=? 138)) || (z =? 168) || (z =? 169) || (z =? 175)))
  || ((x =? 226) && (y =? 129) && (z =? 159))
  || ((x =? 227) && (y =? 128) && (z =? 128)).

Fixpoint drop_ws (w2 : ascii → ascii → bool) (w3 : ascii → ascii → ascii → bool) (l : bytes) : bytes :=
  match l with
  | [] => []
  | a :: r =>
      if ws1 a then drop_ws w2 w3 r else
      match r with
      | [] => l
      | b :: r' =>
          if w2 a b then drop_ws w2 w3 r' else
          match r' with
          | [] => l
          | c :: r'' => if w3 a b c then drop_ws w2 w3 r'' else l
          end
      end
  end.

Definition trim_start_b (l : bytes) : bytes := drop_ws ws2 ws3 l.
Definition trim_end_b (l : bytes) : bytes :=
  rev (drop_ws (λ b a, ws2 a b) (λ c b a, ws3 a b c) (rev l)).
Definition trim (s : string) : string := str_of (trim_end_b (trim_start_b (bytes_of s))).

(** Does the list start with a white-space character? *)
Definition starts_ws (w2 : ascii → ascii → bool) (w3 : ascii → ascii → ascii → bool) (l : bytes) : bool :=
  match l with
  | [] => false
  | a :: r => ws1 a || match r with
                       | [] => false
                       | b :: r' => w2 a b || match r' with [] => false | c :: _ => w3 a b c end
                       end
  end.

Lemma drop_ws_suffix w2 w3 l : ∃ k, l = k ++ drop_ws w2 w3 l.
Proof.
  revert l. fix IH 1. intros [|a r]; [by exists []|]. simpl.
  destruct (ws1 a). { destruct (IH r) as [k Hk]. exists (a :: k). simpl. by f_equal. }
  destruct r as [|b r']; [by exists []|]. destruct (w2 a b).
  { destruct (IH r') as [k Hk]. exists (a :: b :: k). simpl. by do 2 f_equal. }
  destruct r' as [|c r'']; [by exists []|]. destruct (w3 a b c); [|by exists []].
  destruct (IH r'') as [k Hk]. exists (a :: b :: c :: k). simpl. by do 3 f_equal.
Qed.

Lemma drop_ws_fix w2 w3 l : starts_ws w2 w3 l = false → drop_ws w2 w3 l = l.
Proof.
  destruct l as [|a r]; [done|]. simpl. destruct (ws1 a); [done|].
  destruct r as [|b r']; [done|]. simpl. destruct (w2 a b); [done|].
  destruct r' as [|c r'']; [done|]. simpl. by intros ->.
Qed.

Lemma drop_ws_starts w2 w3 l : starts_ws w2 w3 (drop_ws w2 w3 l) = false.
Proof.
  revert l. fix IH 1. intros [|a r]; [done|]. simpl.
  destruct (ws1 a) eqn:E1; [apply IH|]. destruct r as [|b r']; [simpl; by rewrite E1|].
  destruct (w2 a b) eqn:E2; [apply IH|]. destruct r' as [|c r'']; [simpl; by rewrite E1, E2|].
  destruct (w3 a b c) eqn:E3; [apply IH|]. simpl. by rewrite E1, E2, E3.
Qed.

Lemma starts_ws_prefix w2 w3 l k : starts_ws w2 w3 (l ++ k) = false → starts_ws w2 w3 l = false.
Proof.
  destruct l as [|a [|b [|c l]]]; simpl; rewrite ?orb_false_iff; tauto.
Qed.

Lemma trim_end_b_prefix l : ∃ k, l = trim_end_b l ++ k.
Proof.
  unfold trim_end_b. destruct (drop_ws_suffix (λ b a, ws2 a b) (λ c b a, ws3 a b c) (rev l)) as [k Hk].
  exists (rev k). rewrite <- rev_app_distr, <- Hk. by rewrite rev_involutive.
Qed.

Lemma trim_idem s : trim (trim s) = trim s.
Proof.
  unfold trim. rewrite bytes_of_str_of. f_equal.
  set (l := trim_start_b (bytes_of s)).
  assert (starts_ws ws2 ws3 (trim_end_b l) = false) as H1.
  { destruct (trim_end_b_prefix l) as [k Hk]. apply (starts_ws_prefix _ _ _ k).
    rewrite <- Hk. apply drop_ws_starts. }
  unfold trim_start_b at 1. rewrite drop_ws_fix by done.
  unfold trim_end_b. rewrite rev_involutive. f_equal.
  apply drop_ws_fix, drop_ws_starts.
Qed.

(* ------------------------------------------------------------------ *)
(** ** Case mapping and tests *)

Definition lower_char (a : ascii) : ascii :=
  let n := byte_n a in if (65 <=? n) && (n <=? 90) then Ascii.ascii_of_N (n + 32) else a.
Definition upper_char (a : ascii) : ascii :=
  let n := byte_n a in if (97 <=? n) && (n <=? 122) then Ascii.ascii_of_N (n - 32) else a.
Definition to_ascii_lowercase (s : string) : string := str_of (map lower_char (bytes_of s)).
Definition to_ascii_uppercase (s : string) : string := str_of (map upper_char (bytes_of s)).

Definition is_ascii_digit (a : ascii) : bool := let n := byte_n a in (48 <=? n) && (n <=? 57).
Definition is_ascii_hexdigit (a : ascii) : bool :=
  let n := byte_n a in
  is_ascii_digit a || ((65 <=? n) && (n <=? 70)) || ((97 <=? n) && (n <=? 102)).
Definition is_lower_hexdigit (a : ascii) : bool :=
  let n := byte_n a in is_ascii_digit a || ((97 <=? n) && (n <=? 102)).

(** [s.chars().any(|c| c.is_control())]: U+0000..U+001F, U+007F..U+009F. *)
Fixpoint any_control (l : bytes) : bool :=
  match l with
  | [] => false
  | a :: r =>
      let n := byte_n a in
      (n <? 32) || (n =? 127)
      || match r with
         | b :: _ => (n =? 194) && (128 <=? byte_n b) && (byte_n b <=? 159)
         | [] => false
         end
      || any_control r
  end.

Definition contains_char (c : ascii) (s : string) : bool := existsb (Ascii.eqb c) (bytes_of s).
Definition starts_with (p s : string) : bool := String.prefix p s.
(** [s.contains(pat)]. *)
Fixpoint contains_str (pat s : string) : bool :=
  String.prefix pat s || match s with EmptyString => false | String _ r => contains_str pat r end.

Lemma length_to_ascii_lowercase s : String.length (to_ascii_lowercase s) = String.length s.
Proof. unfold to_ascii_lowercase. induction s as [|a s IH]; simpl; [done|]. by f_equal. Qed.

Lemma string_length_app s t : String.length (s +:+ t) = (String.length s + String.length t)%nat.
Proof. induction s; simpl; [done|]. by f_equal. Qed.

Lemma bytes_of_app s t : bytes_of (s +:+ t) = bytes_of s ++ bytes_of t.
Proof. induction s; simpl; [done|]. by f_equal. Qed.

Lemma string_app_nil s : s +:+ "" = s.
Proof. induction s as [|a s IH]; [done|]. change (String.String a (s +:+ "") = String.String a s). by rewrite IH. Qed.

Lemma length_bytes_of s : length (bytes_of s) = String.length s.
Proof. induction s; simpl; [done|]. by f_equal. Qed.

Lemma compare_app a b x y : String.length a = String.length b →
  String.compare (a +:+ x) (b +:+ y) = match String.compare a b with Eq => String.compare x y | c => c end.
Proof.
  revert b. induction a as [|c a IH]; intros [|c' b] H; simpl in *; try discriminate; [done|].
  destruct (Ascii.compare c c'); [|done|done]. apply IH. lia.
Qed.

Lemma compare_refl s : String.compare s s = Eq.
Proof.
  induction s as [|c s IH]; simpl; [done|]. unfold Ascii.compare. by rewrite N.compare_refl.
Qed.

Lemma compare_app_same s x y : String.compare (s +:+ x) (s +:+ y) = String.compare x y.
Proof. rewrite compare_app by done. by rewrite compare_refl. Qed.

(* ------------------------------------------------------------------ *)
(** ** Printing *)

Definition hex_digit (n : N) : ascii :=
  if n <? 10 then Ascii.ascii_of_N (48 + n) else Ascii.ascii_of_N (87 + n).
(** [{b:02x}] of a byte. *)
Definition hex_byte (n : N) : string := String.String (hex_digit (n / 16)) (String.String (hex_digit (n mod 16)) EmptyString).
(** [{x:x}]. *)
Fixpoint hex_digits (fuel : nat) (n : N) (acc : string) : string :=
  match fuel with
  | O => acc
  | S k => let acc' := String.String (hex_digit (n mod 16)) acc in
           if n / 16 =? 0 then acc' else hex_digits k (n / 16) acc'
  end.
Definition show_hex (n : N) : string := hex_digits (S (N.to_nat (N.log2 n))) n "".
(** [hex::encode] as written in the source's own [bytes_to_hex]. *)
Definition hex_of_bytes (l : bytes) : string := String.concat "" (map (λ a, hex_byte (byte_n a)) l).

(** [{n}] and the zero-padded [{n:0w}]. *)
Definition show (n : N) : string := pretty n.
Definition show_bool (b : bool) : string := if b then "true" else "false".
Fixpoint zeros (k : nat) : string := match k with O => EmptyString | S k => String.String "0" (zeros k) end.
Definition show_pad (w : nat) (n : N) : string := let s := show n in zeros (w - String.length s) +:+ s.

(** Templates are written with a backquote for each double quote. *)
Fixpoint q (s : string) : string :=
  match s with
  | EmptyString => EmptyString
  | String.String a r => String.String (if Ascii.eqb a "`"%char then Ascii.ascii_of_N 34 else a) (q r)
  end.
Definition quoted (s : string) : string := q "`" +:+ s +:+ q "`".

(** [format!]: [{{] and [}}] are literal braces, [{}] takes the next argument
    (the source's inline [{name}] arguments are passed in order). *)
Fixpoint format (t : string) (args : list string) : string :=
  match t with
  | EmptyString => EmptyString
  | String.String a r =>
      match a, r with
      | "{"%char, String.String "{"%char r' => String.String a (format r' args)
      | "}"%char, String.String "}"%char r' => String.String a (format r' args)
      | "{"%char, String.String "}"%char r' =>
          match args with
          | x :: xs => x +:+ format r' xs
          | [] => format r' []
          end
      | _, _ => String.String a (format r args)
      end
  end.

(** [Vec<String>::join]. *)
Definition join (sep : string) (l : list string) : string := String.concat sep l.

(** [str::replace] of a one-byte pattern. *)
Fixpoint replace_char (c : ascii) (by_ : string) (s : string) : string :=
  match s with
  | EmptyString => EmptyString
  | String.String a r => if Ascii.eqb a c then by_ +:+ replace_char c by_ r else String.String a (replace_char c by_ r)
  end.
(** The quote escaping of the hand-written JSON texts: backslashes, then double quotes. *)
Definition escape_json (s : string) : string :=
  replace_char (Ascii.ascii_of_N 34) (q "\`") (replace_char "\"%char "\\" s).

Example format_example : format "a {} {{x}} {}" ["1"; "2"] = "a 1 {x} 2".
Proof. reflexivity. Qed.
Example show_pad_example : show_pad 4 7 = "0007".
Proof. reflexivity. Qed.
Example trim_example : trim "  ab c " = "ab c".
Proof. reflexivity. Qed.

(* ------------------------------------------------------------------ *)
(** ** Reading fields back: numbers end at a non-digit, other fields at a separator *)

Lemma string_app_assoc (a b c : string) : (a +:+ b) +:+ c = a +:+ (b +:+ c).
Proof. induction a as [|x a IH]; [done|]. change (String.String x ((a +:+ b) +:+ c) = String.String x (a +:+ (b +:+ c))). by rewrite IH. Qed.

(** A string that starts with no digit. *)
Definition no_digit_first (s : string) : bool :=
  match s with EmptyString => true | String.String a _ => negb (is_ascii_digit a) end.

Lemma digits_prefix a b x y :
  forallb is_ascii_digit (bytes_of a) = true → forallb is_ascii_digit (bytes_of b) = true →
  no_digit_first x = true → no_digit_first y = true → a +:+ x = b +:+ y → a = b ∧ x = y.
Proof.
  revert b. induction a as [|c a IH]; intros b Ha Hb Hx Hy He.
  - destruct b as [|c b]; [done|]. change ("" +:+ x) with x in He. subst x.
    simpl in *. apply andb_true_iff in Hb as [Hb _]. by rewrite Hb in Hx.
  - destruct b as [|c' b].
    + change ("" +:+ y) with y in He. subst y.
      simpl in *. apply andb_true_iff in Ha as [Ha _]. by rewrite Ha in Hy.
    + assert (c = c' ∧ a +:+ x = b +:+ y) as [-> He'] by (by injection He).
      simpl in *. apply andb_true_iff in Ha as [_ Ha]. apply andb_true_iff in Hb as [_ Hb].
      destruct (IH b Ha Hb Hx Hy He') as [-> ->]. done.
Qed.

Lemma pretty_digit n : is_ascii_digit (pretty_N_char (n mod 10)) = true.
Proof.
  pose proof (N.mod_upper_bound n 10 ltac:(lia)) as H. revert H. generalize (n mod 10). intros k Hk.
  assert (k = 0 ∨ k = 1 ∨ k = 2 ∨ k = 3 ∨ k = 4 ∨ k = 5 ∨ k = 6 ∨ k = 7 ∨ k = 8 ∨ k = 9) by lia.
  by destruct_or!; subst.
Qed.

Lemma show_digits n : forallb is_ascii_digit (bytes_of (show n)) = true.
Proof.
  unfold show, pretty, pretty_N. case_decide; [done|].
  cut (∀ s, forallb is_ascii_digit (bytes_of s) = true → forallb is_ascii_digit (bytes_of (pretty_N_go n s)) = true);
    [intros Hc; by apply Hc|]. clear.
  induction (N.lt_wf_0 n) as [n _ IH]. intros s Hs. destruct (decide (0 < n)) as [Hn|Hn].
  - rewrite pretty_N_go_step by done. apply IH; [apply N.div_lt; lia|]. simpl. by rewrite pretty_digit.
  - assert (n = 0) as -> by lia. by rewrite pretty_N_go_0.
Qed.

Lemma show_inj a b x y : no_digit_first x = true → no_digit_first y = true →
  show a +:+ x = show b +:+ y → a = b ∧ x = y.
Proof.
  intros Hx Hy He. destruct (digits_prefix _ _ _ _ (show_digits a) (show_digits b) Hx Hy He) as [Hs ->].
  split; [|done]. by apply (inj pretty) in Hs.
Qed.

(** The separator does not occur. *)
Definition no_char (c : ascii) (s : string) : Prop := contains_char c s = false.

Lemma no_char_cons c a s : no_char c (String.String a s) ↔ a ≠ c ∧ no_char c s.
Proof.
  unfold no_char, contains_char. change (bytes_of (String.String a s)) with (a :: bytes_of s). cbn [existsb].
  rewrite orb_false_iff, Ascii.eqb_neq.
  split; intros [Ha Hs]; split; [by apply not_eq_sym|done|by apply not_eq_sym|done].
Qed.

(** Fields without the separator are read off the front. *)
Lemma sep_split c a b x y : no_char c a → no_char c b →
  a +:+ String.String c x = b +:+ String.String c y → a = b ∧ x = y.
Proof.
  revert b. induction a as [|d a IH]; intros [|d' b] Ha Hb He.
  - injection He as ->. done.
  - exfalso. apply no_char_cons in Hb as [Hb _]. by injection He as <- _.
  - exfalso. apply no_char_cons in Ha as [Ha _]. by injection He as -> _.
  - apply no_char_cons in Ha as [_ Ha]. apply no_char_cons in Hb as [_ Hb].
    assert (d = d' ∧ a +:+ String.String c x = b +:+ String.String c y) as [-> He'] by (injection He; done).
    by destruct (IH b Ha Hb He') as [-> ->].
Qed.

Lemma forallb_no_char (f : ascii → bool) c s : f c = false → forallb f (bytes_of s) = true → no_char c s.
Proof.
  intros Hc. induction s as [|a s IH]; [done|]. change (bytes_of (String.String a s)) with (a :: bytes_of s).
  cbn [forallb]. intros [Ha Hs]%andb_true_iff. apply no_char_cons.
  split; [by intros ->; congruence|by apply IH].
Qed.

(** How often a character occurs; joins add one per gap. *)
Fixpoint count_char (c : ascii) (s : string) : nat :=
  match s with EmptyString => 0 | String.String a r => (if Ascii.eqb a c then 1 else 0) + count_char c r end%nat.

Lemma count_char_app c a b : count_char c (a +:+ b) = (count_char c a + count_char c b)%nat.
Proof.
  induction a as [|x a IH]; [done|].
  change (String.String x a +:+ b) with (String.String x (a +:+ b)). simpl. rewrite IH. lia.
Qed.
Lemma count_char_no c s : count_char c s = 0%nat ↔ no_char c s.
Proof.
  induction s as [|a s IH]; [done|]. rewrite no_char_cons, <- IH. simpl.
  destruct (Ascii.eqb_spec a c); split; intros; try lia; naive_solver lia.
Qed.

Lemma list_sum_cons x l : list_sum (x :: l) = (x + list_sum l)%nat.
Proof. done. Qed.

Definition sep_str (c : ascii) : string := String.String c EmptyString.
Lemma join_cons c a b l : join (sep_str c) (a :: b :: l) = a +:+ String.String c (join (sep_str c) (b :: l)).
Proof. done. Qed.

Lemma count_char_join c l : l ≠ [] →
  count_char c (join (sep_str c) l) = (list_sum (count_char c <$> l) + (length l - 1))%nat.
Proof.
  induction l as [|a [|b l] IH]; [done| |]; intros _.
  { unfold join, list_sum. cbn. lia. }
  rewrite join_cons, count_char_app. cbn [count_char]. rewrite IH by done.
  rewrite Ascii.eqb_refl. unfold list_sum. cbn. lia.
Qed.

(** Joins of equally many fields, one side without the separator. *)
Lemma join_inj c l k : length l = length k → Forall (no_char c) l →
  join (sep_str c) l = join (sep_str c) k → l = k.
Proof.
  intros Hlen Hl He. destruct (decide (l = [])) as [->|Hne]; [by destruct k|].
  assert (k ≠ []) as Hk by (destruct l, k; done).
  assert (Forall (no_char c) k) as Hkc.
  { assert (list_sum (count_char c <$> l) = 0%nat) as H0.
    { clear -Hl. induction Hl as [|a l Ha _ IH]; [done|]. apply count_char_no in Ha. rewrite fmap_cons, list_sum_cons. lia. }
    assert (list_sum (count_char c <$> k) = 0%nat) as H1.
    { pose proof (count_char_join c l Hne). pose proof (count_char_join c k Hk). rewrite He in *. lia. }
    clear -H1. induction k as [|a k IH]; [constructor|].
    rewrite fmap_cons, list_sum_cons in H1. constructor; [apply count_char_no; lia|apply IH; lia]. }
  clear Hne Hk. revert k Hlen Hkc He. induction Hl as [|a l Ha Hl IH]; intros k Hlen Hk He; destruct k as [|b k]; try done.
  apply Forall_cons in Hk as [Hb Hk]. destruct l as [|a' l], k as [|b' k]; try done.
  { unfold join in He. simpl in He. by subst. }
  rewrite !join_cons in He. apply sep_split in He as [-> He]; [|done..]. f_equal. apply IH; [by simpl in *; lia|done..].
Qed.

(** [str::split(c)]: the pieces between occurrences, at least one. *)
Fixpoint split_char (c : ascii) (s : string) : list string :=
  match s with
  | EmptyString => [EmptyString]
  | String.String a r =>
      if Ascii.eqb a c then EmptyString :: split_char c r
      else match split_char c r with
           | [] => [String.String a EmptyString]
           | x :: l => String.String a x :: l
           end
  end.
(** [iter.next().unwrap_or("")] on the pieces. *)
Definition next_or_empty (l : list string) : string := match l with x :: _ => x | [] => "" end.
(** [s[n..]]. *)
Definition drop_str (n : nat) (s : string) : string := str_of (drop n (bytes_of s)).
Example split_char_example : split_char "/"%char "a//b" = ["a"; ""; "b"].
Proof. reflexivity. Qed.
