(* ===== verification/RustParse.v ===== *)
(** * Reading strings back: UTF-8, numbers, separated lists

    [String::from_utf8], [str::parse] of the unsigned integers, and what printing
    and joining followed by parsing and splitting give. *)
From S2P Require Import Prelude RustStr.
Local Open Scope N_scope.

(* ------------------------------------------------------------------ *)
(** ** [String::from_utf8] *)

Definition in_range (lo hi : N) (a : ascii) : bool := (lo <=? byte_n a) && (byte_n a <=? hi).
Definition is_cont (a : ascii) : bool := in_range 128 191 a.
(** Well-formed UTF-8: no overlong forms, no surrogates, at most U+10FFFF. *)
Fixpoint valid_utf8 (l : bytes) : bool :=
  match l with
  | [] => true
  | a :: r =>
      if byte_n a <? 128 then valid_utf8 r
      else match r with
      | [] => false
      | b :: r2 =>
          if in_range 194 223 a then is_cont b && valid_utf8 r2
          else match r2 with
          | [] => false
          | c :: r3 =>
              if in_range 224 239 a then
                in_range (if byte_n a =? 224 then 160 else 128) (if byte_n a =? 237 then 159 else 191) b
                && is_cont c && valid_utf8 r3
              else match r3 with
              | [] => false
              | d :: r4 =>
                  in_range 240 244 a
                  && in_range (if byte_n a =? 240 then 144 else 128) (if byte_n a =? 244 then 143 else 191) b
                  && is_cont c && is_cont d && valid_utf8 r4
              end
          end
      end
  end.
Definition from_utf8 (l : bytes) : option string := if valid_utf8 l then Some (str_of l) else None.

(** Printable ASCII other than the space. *)
Definition is_plain (a : ascii) : bool := in_range 33 126 a.
Definition plain (s : string) : Prop := forallb is_plain (bytes_of s) = true.

Lemma in_range_spec lo hi a : in_range lo hi a = true ↔ lo ≤ byte_n a ≤ hi.
Proof. unfold in_range. rewrite andb_true_iff, !N.leb_le. done. Qed.

Lemma valid_utf8_plain l : forallb is_plain l = true → valid_utf8 l = true.
Proof.
  induction l as [|a l IH]; [done|]. simpl. rewrite andb_true_iff. intros [Ha Hl].
  apply in_range_spec in Ha. rewrite (proj2 (N.ltb_lt (byte_n a) 128)) by lia. by apply IH.
Qed.

Lemma from_utf8_plain s : plain s → from_utf8 (bytes_of s) = Some s.
Proof. intros Hs. unfold from_utf8. rewrite valid_utf8_plain by done. by rewrite str_of_bytes_of. Qed.

Lemma plain_impl (f : ascii → bool) s : (∀ a, f a = true → is_plain a = true) →
  forallb f (bytes_of s) = true → plain s.
Proof. intros Hf Hs. unfold plain. rewrite forallb_forall in *. auto. Qed.

Lemma digit_plain a : is_ascii_digit a = true → is_plain a = true.
Proof. unfold is_ascii_digit. cbv zeta. rewrite andb_true_iff, !N.leb_le. intros ?. apply in_range_spec. lia. Qed.
Lemma lower_hexdigit_plain a : is_lower_hexdigit a = true → is_plain a = true.
Proof.
  unfold is_lower_hexdigit. cbv zeta. rewrite orb_true_iff. intros [H|H]; [by apply digit_plain|].
  rewrite andb_true_iff, !N.leb_le in H. apply in_range_spec. lia.
Qed.

Lemma ws1_plain a : is_plain a = true → ws1 a = false.
Proof. intros H%in_range_spec. unfold ws1. cbv zeta. apply not_true_iff_false. rewrite orb_true_iff, andb_true_iff, !N.leb_le, N.eqb_eq. lia. Qed.
Lemma ws2_plain a b : is_plain a = true → ws2 a b = false.
Proof. intros H%in_range_spec. unfold ws2. apply andb_false_iff. left. apply N.eqb_neq. lia. Qed.
Lemma ws3_plain a b c : is_plain a = true → ws3 a b c = false.
Proof.
  intros H%in_range_spec. unfold ws3.
  rewrite (proj2 (N.eqb_neq (byte_n a) 225)), (proj2 (N.eqb_neq (byte_n a) 226)), (proj2 (N.eqb_neq (byte_n a) 227)) by lia.
  done.
Qed.

Lemma starts_ws_plain l : forallb is_plain l = true → starts_ws ws2 ws3 l = false ∧
  starts_ws (λ b a, ws2 a b) (λ c b a, ws3 a b c) l = false.
Proof.
  destruct l as [|a [|b [|c l]]]; simpl; rewrite ?andb_true_iff; intros H; destruct_and?;
    rewrite ?ws1_plain, ?ws2_plain, ?ws3_plain by done; done.
Qed.

(** Nothing to trim. *)
Lemma trim_plain s : plain s → trim s = s.
Proof.
  intros Hs. unfold trim, trim_start_b. rewrite drop_ws_fix by by apply starts_ws_plain.
  unfold trim_end_b. rewrite drop_ws_fix.
  - by rewrite rev_involutive, str_of_bytes_of.
  - apply starts_ws_plain. unfold plain in Hs. rewrite forallb_forall in *. intros x Hx. apply Hs. by apply in_rev.
Qed.

(* ------------------------------------------------------------------ *)
(** ** [str::parse] of an unsigned integer of the given maximum *)

Definition digit_step (acc : N) (a : ascii) : N := acc * 10 + (byte_n a - 48).
Definition parse_uint (max : N) (s : string) : option N :=
  let digits := match bytes_of s with a :: r => if Ascii.eqb a "+" then r else a :: r | [] => [] end in
  match digits with
  | [] => None
  | _ => if forallb is_ascii_digit digits then
           let v := foldl digit_step 0 digits in if v <=? max then Some v else None
         else None
  end.

Lemma digit_step_char acc n : n < 10 → digit_step acc (pretty_N_char n) = acc * 10 + n.
Proof.
  intros Hn. unfold digit_step. f_equal.
  assert (n = 0 ∨ n = 1 ∨ n = 2 ∨ n = 3 ∨ n = 4 ∨ n = 5 ∨ n = 6 ∨ n = 7 ∨ n = 8 ∨ n = 9) by lia.
  by destruct_or!; subst.
Qed.

Lemma fold_digits n s : foldl digit_step 0 (bytes_of (pretty_N_go n s)) = foldl digit_step n (bytes_of s).
Proof.
  revert s. induction (N.lt_wf_0 n) as [n _ IH]. intros s. destruct (decide (0 < n)) as [Hn|Hn].
  - rewrite pretty_N_go_step by done. rewrite IH by (apply N.div_lt; lia). simpl. f_equal.
    rewrite digit_step_char by (apply N.mod_lt; lia). rewrite (N.div_mod n 10) at 3 by lia. lia.
  - assert (n = 0) as -> by lia. by rewrite pretty_N_go_0.
Qed.

Lemma show_value n : foldl digit_step 0 (bytes_of (show n)) = n.
Proof.
  unfold show, pretty, pretty_N. case_decide as Hn; [by subst|]. by rewrite fold_digits.
Qed.

Lemma show_nonempty n : show n ≠ "".
Proof. intros H. destruct n as [|p]; [done|]. pose proof (show_value (Npos p)) as Hv. by rewrite H in Hv. Qed.

Lemma parse_show max n : n ≤ max → parse_uint max (show n) = Some n.
Proof.
  intros Hn. unfold parse_uint. pose proof (show_digits n) as Hd. pose proof (show_value n) as Hv.
  pose proof (show_nonempty n) as He. destruct (show n) as [|a s]; [done|]. simpl in Hd.
  change (bytes_of (String.String a s)) with (a :: bytes_of s) in *. cbv iota.
  assert (Ascii.eqb a "+" = false) as ->.
  { apply Ascii.eqb_neq. intros ->. by apply andb_true_iff in Hd as [Hd _]. }
  cbn [forallb]. rewrite Hd, Hv. cbv zeta. by rewrite (proj2 (N.leb_le n max)).
Qed.

Lemma show_plain n : plain (show n).
Proof. apply (plain_impl is_ascii_digit); [apply digit_plain|apply show_digits]. Qed.

(* ------------------------------------------------------------------ *)
(** ** Joining and splitting *)

Lemma split_char_no c s : no_char c s → split_char c s = [s].
Proof.
  induction s as [|a s IH]; [done|]. rewrite no_char_cons. intros [Hne Hs]. simpl.
  rewrite (proj2 (Ascii.eqb_neq a c)) by done. by rewrite IH.
Qed.

Lemma split_char_app c s t : no_char c s → split_char c (s +:+ String.String c t) = s :: split_char c t.
Proof.
  induction s as [|a s IH]; intros Hs.
  - change ("" +:+ String.String c t) with (String.String c t). simpl. by rewrite Ascii.eqb_refl.
  - apply no_char_cons in Hs as [Hne Hs].
    change (String.String a s +:+ String.String c t) with (String.String a (s +:+ String.String c t)). simpl.
    rewrite (proj2 (Ascii.eqb_neq a c)) by done. by rewrite IH.
Qed.

Lemma split_join c l : l ≠ [] → Forall (no_char c) l → split_char c (join (sep_str c) l) = l.
Proof.
  intros Hne Hl. induction Hl as [|x [|y l] Hx Hl IH]; [done| |].
  - by apply split_char_no.
  - rewrite join_cons, split_char_app by done. f_equal. by apply IH.
Qed.
