(* ===== verification/Errors.v ===== *)
(** * The vault's error type ([domain/error.rs]) and its [Display] *)
From S2P Require Import Prelude RustStr.

Inductive DomainError : Type :=
| InvalidNodeId
| PeerNotFound (id : string)
| SimAttestationForbidden
| AttestationRejected (reason : string)
| MeasurementMismatch
| InvalidConstitution (r : string)
| LedgerConflict (r : string)
| UnauthorizedWriter (id : string)
| QuorumNotMet (have need : N)
| UnknownProposal (id : string)
| EpochMismatch (expected got : N)
| ProposalClosed (id : string)
| InvalidShare (r : string)
| ThresholdError (r : string)
| NonceReuse (r : string)
| FailStop (online need : N)
| SessionConsumed (id : string)
| BadSigningPhase (session_id phase : string)
| InvalidRelease (r : string)
| UnknownBlob (h : string)
| UnknownRelease (id : string)
| RebuildMismatch (expected got : string)
| ReleasePredicate (r : string)
| TimelockNotElapsed (age_secs need_secs : N)
| ReleaseClosed (id : string)
| NotAllowlisted (h : string)
| InvalidBucket (b : string)
| InvalidIntent (r : string)
| CapExceeded (amount cap : N) (scope : string)
| DestinationNotAllowed (d : string)
| IntentReplay (id : string)
| ReservationMissing (id : string)
| UsersOmnibusProtected
| LabFlagForbidden (flag : string)
| RequestRejected (r : string)
| NoEligibleMiners
| InsufficientMinerPool (have want : N)
| MinerSelfPayForbidden
| AuthRejected (r : string)
| ShareStoreForbidden (r : string)
| DealerForbidden (r : string)
| TeeRequired (r : string)
| TpmRequired (r : string)
| BitcoinNetworkMismatch (r : string)
| DayEpochStale (have need : string)
| ProductionGate (r : string).

#[export] Instance DomainError_eq_dec : EqDecision DomainError.
Proof. solve_decision. Defined.

(** [impl fmt::Display for DomainError]. *)
Definition fmt_error (e : DomainError) : string :=
  match e with
  | InvalidNodeId => "invalid node id"
  | PeerNotFound id => format "peer not found: {}" [id]
  | SimAttestationForbidden => "attestation mode sim is forbidden in production builds"
  | AttestationRejected reason => format "attestation quote rejected: {}" [reason]
  | MeasurementMismatch => "measurement mismatch"
  | InvalidConstitution r => format "invalid constitution: {}" [r]
  | LedgerConflict r => format "ledger conflict: {}" [r]
  | UnauthorizedWriter id => format "unauthorized ledger writer: {}" [id]
  | QuorumNotMet have need => format "quorum not met: have {}, need {}" [show have; show need]
  | UnknownProposal id => format "unknown proposal: {}" [id]
  | EpochMismatch expected got =>
      format "epoch mismatch: expected {}, got {}" [show expected; show got]
  | ProposalClosed id => format "proposal already closed: {}" [id]
  | InvalidShare r => format "invalid share: {}" [r]
  | ThresholdError r => format "threshold error: {}" [r]
  | NonceReuse r => format "nonce reuse: {}" [r]
  | FailStop online need => format "fail-stop: online {} < need {}" [show online; show need]
  | SessionConsumed id => format "signing session consumed: {}" [id]
  | BadSigningPhase sid phase => format "bad signing phase for {}: {}" [sid; phase]
  | InvalidRelease r => format "invalid release: {}" [r]
  | UnknownBlob h => format "unknown blob: {}" [h]
  | UnknownRelease id => format "unknown release: {}" [id]
  | RebuildMismatch expected got => format "rebuild mismatch: expected {}, got {}" [expected; got]
  | ReleasePredicate r => format "release predicate failed: {}" [r]
  | TimelockNotElapsed age need =>
      format "timelock not elapsed: age {} < need {}" [show age; show need]
  | ReleaseClosed id => format "release closed: {}" [id]
  | NotAllowlisted h => format "artifact not allowlisted: {}" [h]
  | InvalidBucket b => format "invalid bucket: {}" [b]
  | InvalidIntent r => format "invalid intent: {}" [r]
  | CapExceeded amount cap scope =>
      format "cap exceeded ({}): amount {} > cap {}" [scope; show amount; show cap]
  | DestinationNotAllowed d => format "destination not allowed: {}" [d]
  | IntentReplay id => format "intent replay: {}" [id]
  | ReservationMissing id => format "reservation missing or expired: {}" [id]
  | UsersOmnibusProtected => "USERS omnibus protected: operational bucket cannot debit USERS"
  | LabFlagForbidden flag => format "lab flag forbidden outside lab: {}" [flag]
  | RequestRejected r => format "request rejected: {}" [r]
  | NoEligibleMiners => "no eligible miners for payout"
  | InsufficientMinerPool have want =>
      format "insufficient miner pool: have {}, want {}" [show have; show want]
  | MinerSelfPayForbidden =>
      "miner payout forbidden: destination not an eligible registered operator (no self-pay)"
  | AuthRejected r => format "auth rejected: {}" [r]
  | ShareStoreForbidden r => format "share store forbidden: {}" [r]
  | DealerForbidden r => format "dealer DKG forbidden: {}" [r]
  | TeeRequired r => format "TEE sealing required: {}" [r]
  | TpmRequired r => format "TPM sealing required: {}" [r]
  | BitcoinNetworkMismatch r => format "bitcoin network mismatch: {}" [r]
  | DayEpochStale have need => format "day_epoch stale: have {}, need {}" [have; need]
  | ProductionGate r => format "production gate: {}" [r]
  end.

(** The result and command types of the vault core. *)
Abbreviation res := (result DomainError).
Abbreviation dcmd := (cmd DomainError).
