(* ===== verification/Identity.v ===== *)
(** * Node identities, measurements and attestation

    [domain/peer.rs], [domain/attestation.rs], the content hashes of
    [domain/release.rs], and the peer directory of [adapters/peer_memory.rs]. *)
From S2P Require Import Prelude RustStr Errors.
Local Open Scope N_scope.

(* ------------------------------------------------------------------ *)
(** ** SHA-256 (the [sha2] and [hex] crates)

    [sha256_hex b] stands for [hex::encode(Sha256::digest(b))]. *)
Class Sha256 := sha256_hex : bytes → string.

(** What the code relies on: 64 lowercase hexadecimal digits. *)
Class Sha256Spec `{!Sha256} : Prop := {
  sha256_hex_len : ∀ b, str_len (sha256_hex b) = 64;
  sha256_hex_lower : ∀ b, forallb is_lower_hexdigit (bytes_of (sha256_hex b)) = true;
}.

(** Two different inputs with the same digest, among the inputs [P]. What rests on collision
    resistance names the texts it hashes, so the clash it may exhibit is one of those texts: that some
    two inputs clash holds of any digest of fixed length and would say nothing. *)
Definition sha256_clash `{!Sha256} (P : bytes → Prop) : Prop :=
  ∃ a b, P a ∧ P b ∧ a ≠ b ∧ sha256_hex a = sha256_hex b.

(** A concrete digest for witnesses: the hex of the input's byte sum, length and
    a position-weighted sum, each on 16 digits, then 16 zeros. *)
Definition toy_fold (l : bytes) : N := foldl (λ acc a, (acc * 257 + byte_n a + 1) mod 18446744073709551616) 7 l.
Fixpoint hex_pad (w : nat) (n : N) : string :=
  match w with O => "" | S w' => hex_pad w' (n / 16) +:+ String.String (hex_digit (n mod 16)) "" end.
#[local] Instance toy_sha256 : Sha256 := λ l,
  hex_pad 16 (toy_fold l) +:+ hex_pad 16 (toy_fold (rev l)) +:+ hex_pad 32 (N.of_nat (length l)).

Lemma string_length_hex_pad w n : String.length (hex_pad w n) = w.
Proof. revert n. induction w as [|w IH]; intros n; simpl; [done|]. rewrite string_length_app, IH. simpl. lia. Qed.

Lemma hex_digit_lower n : n < 16 → is_lower_hexdigit (hex_digit n) = true.
Proof.
  intros H. assert (n = 0 ∨ n = 1 ∨ n = 2 ∨ n = 3 ∨ n = 4 ∨ n = 5 ∨ n = 6 ∨ n = 7 ∨ n = 8 ∨ n = 9
    ∨ n = 10 ∨ n = 11 ∨ n = 12 ∨ n = 13 ∨ n = 14 ∨ n = 15) by lia.
  by destruct_or!; subst.
Qed.

Lemma hex_pad_lower w n : forallb is_lower_hexdigit (bytes_of (hex_pad w n)) = true.
Proof.
  revert n. induction w as [|w IH]; intros n; [done|]. cbn [hex_pad].
  rewrite bytes_of_app, forallb_app, IH. cbn -[hex_digit is_lower_hexdigit].
  rewrite hex_digit_lower; [done|]. apply N.mod_upper_bound. lia.
Qed.

#[local] Instance toy_sha256_spec : Sha256Spec.
Proof.
  split; intros b; unfold sha256_hex, toy_sha256.
  - unfold str_len. by rewrite !string_length_app, !string_length_hex_pad.
  - by rewrite !bytes_of_app, !forallb_app, !hex_pad_lower.
Qed.

Lemma lower_is_hexdigit a : is_lower_hexdigit a = true → is_ascii_hexdigit a = true.
Proof.
  unfold is_lower_hexdigit, is_ascii_hexdigit. rewrite !orb_true_iff. tauto.
Qed.

Lemma lower_char_lower a : is_lower_hexdigit a = true → lower_char a = a.
Proof.
  unfold is_lower_hexdigit, is_ascii_digit, lower_char. cbv zeta.
  destruct ((65 <=? byte_n a) && (byte_n a <=? 90)) eqn:E; [|done].
  rewrite !andb_true_iff, !N.leb_le in E. rewrite orb_true_iff, !andb_true_iff, !N.leb_le. lia.
Qed.

(* ------------------------------------------------------------------ *)
(** ** [NodeId] *)

Record NodeId := mk_node_id { node_str : string }.
#[export] Instance NodeId_eq_dec : EqDecision NodeId.
Proof. solve_decision. Defined.
#[export] Program Instance NodeId_countable : Countable NodeId :=
  inj_countable' node_str mk_node_id _.
Next Obligation. by intros []. Qed.

Definition node_id_new (raw : string) : res NodeId :=
  let id := trim raw in
  if (str_len id =? 0) || (128 <? str_len id) then Err InvalidNodeId else Ok (mk_node_id id).

Lemma node_str_inj a b : node_str a = node_str b → a = b.
Proof. destruct a, b. simpl. congruence. Qed.

(** A well-formed id: what [NodeId::new] can return. *)
Definition node_id_wf (n : NodeId) : Prop := trim (node_str n) = node_str n ∧ 0 < str_len (node_str n) ≤ 128.

Lemma node_id_new_wf raw n : node_id_new raw = Ok n → node_id_wf n.
Proof.
  unfold node_id_new. destruct (_ || _) eqn:E; intros H; simplify_eq.
  rewrite orb_false_iff, N.eqb_neq, N.ltb_ge in E. split; simpl; [apply trim_idem|lia].
Qed.

Lemma node_id_new_roundtrip n : node_id_wf n → node_id_new (node_str n) = Ok n.
Proof.
  destruct n as [s]. intros [Ht Hl]. unfold node_id_new. simpl in *. rewrite Ht.
  destruct (_ || _) eqn:E; [|done].
  rewrite orb_true_iff, N.eqb_eq, N.ltb_lt in E. lia.
Qed.

Record PeerEndpoint := { address : string }.
Record PeerInfo := { peer_id : NodeId; endpoint : PeerEndpoint }.

(** [InMemoryPeerDirectory]: a map from id strings. *)
Definition upsert_peer (peer : PeerInfo) (peers : gmap string PeerInfo) : gmap string PeerInfo :=
  <[node_str (peer_id peer) := peer]> peers.
Definition list_peers (peers : gmap string PeerInfo) : list PeerInfo := (map_to_list peers).*2.
Definition ping (peers : gmap string PeerInfo) (peer : NodeId) : res unit :=
  match peers !! node_str peer with
  | Some _ => Ok tt
  | None => Err (PeerNotFound (node_str peer))
  end.

(* ------------------------------------------------------------------ *)
(** ** Measurements *)

Record Measurement := mk_measurement { as_hex : string }.
#[export] Instance Measurement_eq_dec : EqDecision Measurement.
Proof. solve_decision. Defined.

Definition measurement_from_bytes `{!Sha256} (b : bytes) : Measurement :=
  {| as_hex := sha256_hex b |}.

Definition measurement_from_hex (s : string) : res Measurement :=
  if negb (str_len s =? 64) || negb (forallb is_ascii_hexdigit (bytes_of s))
  then Err (AttestationRejected "measurement must be 32-byte SHA-256 hex (64 chars)")
  else Ok {| as_hex := to_ascii_lowercase s |}.

Record ContentHash := mk_content_hash { ch_str : string }.
#[export] Instance ContentHash_eq_dec : EqDecision ContentHash.
Proof. solve_decision. Defined.

Definition content_hash_from_bytes `{!Sha256} (b : bytes) : ContentHash :=
  {| ch_str := as_hex (measurement_from_bytes b) |}.

Definition content_hash_parse (raw : string) : res ContentHash :=
  m ← measurement_from_hex raw; Ok {| ch_str := as_hex m |}.

(** [lab_rebuild_binary_hash]. *)
Definition lab_rebuild_binary_hash `{!Sha256} (source : bytes) : ContentHash :=
  content_hash_from_bytes (bytes_of "lab-rebuild-v1|" ++ source).

(** Hashes survive their own textual form. *)
Lemma content_hash_parse_own `{!Sha256, !Sha256Spec} b :
  content_hash_parse (ch_str (content_hash_from_bytes b)) = Ok (content_hash_from_bytes b).
Proof.
  unfold content_hash_parse, content_hash_from_bytes, measurement_from_bytes, measurement_from_hex. simpl.
  rewrite sha256_hex_len. pose proof (sha256_hex_lower b) as Hl.
  assert (forallb is_ascii_hexdigit (bytes_of (sha256_hex b)) = true) as ->.
  { rewrite forallb_forall in *. intros x Hx. by apply lower_is_hexdigit, Hl. }
  simpl. unfold mbind, result_bind. simpl. do 2 f_equal. unfold to_ascii_lowercase.
  rewrite <- (str_of_bytes_of (sha256_hex b)) at 2. f_equal.
  rewrite <- (map_id (bytes_of (sha256_hex b))) at 2. apply map_ext_in. intros a Ha.
  rewrite forallb_forall in Hl. by apply lower_char_lower, Hl.
Qed.

(* ------------------------------------------------------------------ *)
(** ** Attestation modes and quotes *)

Inductive AttestationMode := Sim | Software | AttSev | AttSgx.
#[export] Instance AttestationMode_eq_dec : EqDecision AttestationMode.
Proof. solve_decision. Defined.

Definition attestation_mode_parse (raw : string) : option AttestationMode :=
  let s := to_ascii_lowercase (trim raw) in
  if bool_decide (s ∈ ["sim"; "simulation"]) then Some Sim
  else if bool_decide (s ∈ ["software"; "sw"; "measurement"]) then Some Software
  else if bool_decide (s ∈ ["sev"; "sev-snp"; "sev_snp"]) then Some AttSev
  else if bool_decide (s = "sgx") then Some AttSgx
  else None.

Definition attestation_mode_str (m : AttestationMode) : string :=
  match m with Sim => "sim" | Software => "software" | AttSev => "sev" | AttSgx => "sgx" end.
Definition is_lab_only (m : AttestationMode) : bool := bool_decide (m = Sim).
Definition is_software_measurement (m : AttestationMode) : bool :=
  match m with Sim | Software => true | _ => false end.
Definition attestation_is_tee (m : AttestationMode) : bool :=
  match m with AttSev | AttSgx => true | _ => false end.

Record AttestationQuote := {
  quote_mode : AttestationMode;
  quote_measurement : Measurement;
  quote_blob : bytes;
}.

(** [admits_attestation_measurement]. *)
Definition admits_attestation_measurement (measurement pin : Measurement)
    (allowlisted_hbs : list ContentHash) : bool :=
  if negb (bool_decide (measurement = pin)) then false
  else match allowlisted_hbs with
       | [] => true
       | _ => existsb (λ hb, String.eqb (ch_str hb) (as_hex measurement)) allowlisted_hbs
       end.
