(* ===== verification/DayEpoch.v ===== *)
(** * UTC day epochs

    [domain/day_epoch.rs] and the calendar conversion of [application/admin.rs].
    The reference semantics of the calendar is [next_day], the Gregorian
    successor of a date; both conversions are proved to count it. *)
From S2P Require Import Prelude RustStr Errors.
From Stdlib Require String.
Local Open Scope Z_scope.

Record DayEpoch := mk_day_epoch { day_str : string }.
#[export] Instance DayEpoch_eq_dec : EqDecision DayEpoch.
Proof. solve_decision. Defined.

(** The derived [PartialOrd]: the order of the strings. *)
Definition day_le (a b : DayEpoch) : bool := String.leb (day_str a) (day_str b).
Definition day_lt (a b : DayEpoch) : bool := day_le a b && negb (bool_decide (a = b)).

Definition day_epoch_shape (s : string) : bool :=
  let l := bytes_of s in
  (length l =? 10)%nat
  && bool_decide (l !! 4%nat = Some "-"%char) && bool_decide (l !! 7%nat = Some "-"%char)
  && forallb (λ p, ((p.1 =? 4)%nat || (p.1 =? 7)%nat) || is_ascii_digit p.2) (imap pair l).

Definition day_epoch_parse (s : string) : res DayEpoch :=
  if day_epoch_shape s then Ok {| day_str := s |}
  else Err (InvalidIntent (format "invalid day_epoch: {}" [s])).

(** [x as i32]. *)
Definition as_i32 (x : Z) : Z := (x + 2147483648) mod 4294967296 - 2147483648.

(** [civil_from_days]; [Z.quot] is Rust's signed division. *)
Definition civil_from_days (z0 : Z) : Z * Z * Z :=
  let z := z0 + 719468 in
  let era := (if 0 <=? z then z else z - 146096) ÷ 146097 in
  let doe := z - era * 146097 in
  let yoe := (doe - doe / 1460 + doe / 36524 - doe / 146096) / 365 in
  let y := yoe + era * 400 in
  let doy := doe - (365 * yoe + yoe / 4 - yoe / 100) in
  let mp := (5 * doy + 2) / 153 in
  let d := doy - (153 * mp + 2) / 5 + 1 in
  let m := if mp <? 10 then mp + 3 else mp - 9 in
  let y := if m <=? 2 then y + 1 else y in
  (as_i32 y, m, d).

(** [{y:04}] of a signed integer: the sign counts in the width. *)
Definition show_pad_z (w : nat) (z : Z) : string :=
  if z <? 0 then "-" +:+ show_pad (w - 1) (Z.to_N (- z)) else show_pad w (Z.to_N z).

Definition date_string (p : Z * Z * Z) : string :=
  let '(y, m, d) := p in
  format "{}-{}-{}" [show_pad_z 4 y; show_pad_z 2 m; show_pad_z 2 d].

Definition day_epoch_from_unix_secs (unix_secs : N) : DayEpoch :=
  let days := Z.of_N (unix_secs / 86400) in
  {| day_str := date_string (civil_from_days days) |}.

(** [days_to_date] of [application/admin.rs]. *)
Definition days_to_date (days : N) : N * N * N :=
  (let z := days + 719468 in
   let era := z / 146097 in
   let doe := z mod 146097 in
   let yoe := (doe - doe / 1460 + doe / 36524 - doe / 146096) / 365 in
   let y := yoe + era * 400 in
   let doy := doe - (365 * yoe + yoe / 4 - yoe / 100) in
   let mp := (5 * doy + 2) / 153 in
   let d := doy - (153 * mp + 2) / 5 + 1 in
   let m := if mp <? 10 then mp + 3 else mp - 9 in
   let y := if m <=? 2 then y + 1 else y in
   (y, m, d))%N.

(* ------------------------------------------------------------------ *)
(** ** Reference calendar *)

Definition leap (y : Z) : bool := ((y mod 4 =? 0) && negb (y mod 100 =? 0)) || (y mod 400 =? 0).
Definition days_in_month (y m : Z) : Z :=
  if m =? 2 then (if leap y then 29 else 28)
  else if (m =? 4) || (m =? 6) || (m =? 9) || (m =? 11) then 30 else 31.
Definition next_day (p : Z * Z * Z) : Z * Z * Z :=
  let '(y, m, d) := p in
  if d <? days_in_month y m then (y, m, d + 1)
  else if m <? 12 then (y, m + 1, 1) else (y + 1, 1, 1).

(** The date [n] days after 1970-01-01. *)
Definition civil_ref (n : nat) : Z * Z * Z := Nat.iter n next_day (1970, 1, 1).

(* ------------------------------------------------------------------ *)
(** ** One 400-year era: years start in March *)

(** [f] holds at [lo], ..., [lo + n - 1]. *)
Fixpoint all_below (f : Z → bool) (lo : Z) (n : nat) : bool :=
  match n with O => true | S n => f lo && all_below f (lo + 1) n end.

Lemma all_below_spec f n lo x : all_below f lo n = true → lo ≤ x < lo + Z.of_nat n → f x = true.
Proof.
  revert lo. induction n as [|n IH]; intros lo H Hx; [lia|].
  simpl in H. apply andb_true_iff in H as [H1 H2].
  destruct (decide (x = lo)) as [->|]; [done|]. apply (IH (lo + 1)); [done|lia].
Qed.

Definition shift_year (k : Z) (p : Z * Z * Z) : Z * Z * Z := let '(y, m, d) := p in (y + k, m, d).

(** First day of March-year [y] of the era. *)
Definition year_start (y : Z) : Z := 365 * y + y / 4 - y / 100.
Definition yoe_of (doe : Z) : Z := (doe - doe / 1460 + doe / 36524 - doe / 146096) / 365.
(** Month and day of a day counted from 1 March. *)
Definition month_day (doy : Z) : Z * Z :=
  let mp := (5 * doy + 2) / 153 in
  (if mp <? 10 then mp + 3 else mp - 9, doy - (153 * mp + 2) / 5 + 1).
Definition year_date (y doy : Z) : Z * Z * Z :=
  let '(m, d) := month_day doy in (if m <=? 2 then y + 1 else y, m, d).
Definition era_date (doe : Z) : Z * Z * Z :=
  let y := yoe_of doe in year_date y (doe - (365 * y + y / 4 - y / 100)).

(** The years of an era start where the formula says, and their lengths follow the leap rule. *)
Definition year_ok (y : Z) : bool :=
  (yoe_of (year_start y) =? y)
  && (yoe_of (year_start (y + 1) - (if y =? 399 then 0 else 1)) =? y)
  && (year_start (y + 1) + (if y =? 399 then 1 else 0) - year_start y
      =? (if leap (y + 1) then 366 else 365)).

Definition month_day_ok (doy : Z) : bool :=
  let '(m, d) := month_day doy in
  let '(m', d') := month_day (doy + 1) in
  (1 <=? m) && (m <=? 12) && (1 <=? d)
  && (d <=? days_in_month 0 m) && Bool.eqb ((m =? 2) && (28 <=? d)) (doy =? 364)
  && (if d <? days_in_month 0 m then (m' =? m) && (d' =? d + 1)
      else (d' =? 1) && (m' =? (if m <? 12 then m + 1 else 1))).

Lemma years_ok : all_below year_ok 0 400 = true.
Proof. vm_compute. reflexivity. Qed.
Lemma months_ok : all_below month_day_ok 0 365 = true.
Proof. vm_compute. reflexivity. Qed.

(** The correction never moves back: one day more is at most one day less of leap correction. *)
Lemma yoe_step a : 0 ≤ a < 146096 → yoe_of a ≤ yoe_of (a + 1).
Proof.
  intros Ha. unfold yoe_of. apply Z.div_le_mono; [lia|].
  pose proof (Z.div_mod a 1460). pose proof (Z.div_mod (a + 1) 1460).
  pose proof (Z.div_le_mono a (a + 1) 36524). pose proof (Z.div_le_mono a (a + 1) 146096).
  pose proof (Z.mod_pos_bound a 1460). pose proof (Z.mod_pos_bound (a + 1) 1460).
  pose proof (Z.div_mod a 146096). pose proof (Z.mod_pos_bound a 146096).
  pose proof (Z.div_mod (a + 1) 146096). pose proof (Z.mod_pos_bound (a + 1) 146096).
  lia.
Qed.

Lemma yoe_mono a b : 0 ≤ a → a ≤ b → b < 146097 → yoe_of a ≤ yoe_of b.
Proof.
  intros Ha Hab. replace b with (a + Z.of_nat (Z.to_nat (b - a))) by lia.
  generalize (Z.to_nat (b - a)) as n. induction n as [|n IH]; intros Hb; [by rewrite Z.add_0_r|].
  transitivity (yoe_of (a + Z.of_nat n)); [apply IH; lia|].
  replace (a + Z.of_nat (S n)) with (a + Z.of_nat n + 1) by lia. apply yoe_step. lia.
Qed.

Lemma leap_shift y k : leap (y + 400 * k) = leap y.
Proof.
  unfold leap.
  replace ((y + 400 * k) mod 4) with (y mod 4)
    by (replace (y + 400 * k) with (y + (100 * k) * 4) by lia; by rewrite Z.mod_add).
  replace ((y + 400 * k) mod 100) with (y mod 100)
    by (replace (y + 400 * k) with (y + (4 * k) * 100) by lia; by rewrite Z.mod_add).
  replace ((y + 400 * k) mod 400) with (y mod 400)
    by (replace (y + 400 * k) with (y + k * 400) by lia; by rewrite Z.mod_add).
  done.
Qed.

Lemma next_day_shift k p : next_day (shift_year (400 * k) p) = shift_year (400 * k) (next_day p).
Proof.
  destruct p as [[y m] d]. simpl. unfold days_in_month. rewrite leap_shift.
  repeat case_match; simpl; f_equal; f_equal; lia.
Qed.

Lemma date_eq (y m d y' m' d' : Z) : y = y' ∧ m = m' ∧ d = d' → (y, m, d) = (y', m', d').
Proof. by intros (-> & -> & ->). Qed.

Lemma year_date_next y doy : 0 ≤ doy < 364 → next_day (year_date y doy) = year_date y (doy + 1).
Proof.
  intros H. pose proof (all_below_spec _ _ _ doy months_ok ltac:(lia)) as Hok.
  unfold month_day_ok in Hok. unfold year_date.
  destruct (month_day doy) as [m d], (month_day (doy + 1)) as [m' d'].
  unfold next_day, days_in_month in *. change (leap 0) with true in Hok.
  rewrite !andb_true_iff, eqb_true_iff in Hok. destruct Hok as [[[[[? ?] ?] ?] ?] ?].
  destruct (m =? 2) eqn:Em; [destruct (leap _)|]; repeat case_match;
    apply date_eq; lia.
Qed.

Lemma year_date_last y :
  next_day (year_date y 364) = if leap (y + 1) then year_date y 365 else year_date (y + 1) 0.
Proof.
  unfold year_date. change (month_day 364) with (2, 28). change (month_day 365) with (2, 29).
  change (month_day 0) with (3, 1). simpl. unfold days_in_month. simpl.
  destruct (leap (y + 1)); [done|]. simpl. apply date_eq; lia.
Qed.

Lemma year_date_leap_last y : leap (y + 1) = true → next_day (year_date y 365) = year_date (y + 1) 0.
Proof.
  intros H. unfold year_date. change (month_day 365) with (2, 29).
  change (month_day 0) with (3, 1). simpl. unfold days_in_month. simpl. rewrite H. by apply date_eq.
Qed.

(** Length of March-year [y] of an era; the last one of the era has its leap day back. *)
Definition year_end (y : Z) : Z := year_start (y + 1) + (if y =? 399 then 1 else 0).

Lemma era_year doe : 0 ≤ doe < 146097 → ∃ y, 0 ≤ y < 400 ∧ year_start y ≤ doe < year_end y.
Proof.
  intros H. assert (∀ n : nat, (n ≤ 399)%nat → doe < year_start (Z.of_nat n) →
    ∃ y, 0 ≤ y < 400 ∧ year_start y ≤ doe < year_end y) as Hn.
  { induction n as [|n IH]; intros Hn Hd; [change (year_start _) with 0 in Hd; lia|].
    destruct (decide (doe < year_start (Z.of_nat n))); [apply IH; [lia|done]|].
    exists (Z.of_nat n). split; [lia|]. split; [lia|]. unfold year_end.
    replace (Z.of_nat n + 1) with (Z.of_nat (S n)) by lia. destruct (_ =? _); lia. }
  destruct (decide (doe < year_start 399)); [by apply (Hn 399%nat)|].
  exists 399. split; [lia|]. split; [lia|]. change (year_end 399) with 146097. lia.
Qed.

Lemma year_ok_at y : 0 ≤ y < 400 →
  0 ≤ year_start y ∧ year_end y ≤ 146097 ∧ year_end y - year_start y = (if leap (y + 1) then 366 else 365)
  ∧ ∀ doe, year_start y ≤ doe < year_end y → yoe_of doe = y.
Proof.
  intros H. pose proof (all_below_spec _ _ _ y years_ok ltac:(lia)) as Hok.
  unfold year_ok in Hok. rewrite !andb_true_iff, !Z.eqb_eq in Hok. destruct Hok as [[H1 H2] H3].
  assert (0 ≤ year_start y ∧ year_end y ≤ 146097) as [Hl Hu].
  { unfold year_end, year_start. destruct (y =? 399) eqn:E; [|rewrite Z.eqb_neq in E].
    - rewrite Z.eqb_eq in E. subst y. done.
    - pose proof (Z.div_mod y 4). pose proof (Z.mod_pos_bound y 4).
      pose proof (Z.div_mod y 100). pose proof (Z.mod_pos_bound y 100).
      pose proof (Z.div_mod (y + 1) 4). pose proof (Z.mod_pos_bound (y + 1) 4).
      pose proof (Z.div_mod (y + 1) 100). pose proof (Z.mod_pos_bound (y + 1) 100). lia. }
  unfold year_end in *. split; [done|]. split; [done|]. split; [lia|].
  intros doe Hd.
  pose proof (yoe_mono (year_start y) doe ltac:(lia) ltac:(lia) ltac:(lia)).
  pose proof (yoe_mono doe (year_start (y + 1) - (if y =? 399 then 0 else 1))).
  destruct (y =? 399); lia.
Qed.

Lemma era_date_in y doe : 0 ≤ y < 400 → year_start y ≤ doe < year_end y →
  era_date doe = year_date y (doe - year_start y).
Proof. intros Hy Hd. unfold era_date. destruct (year_ok_at y Hy) as (_ & _ & _ & ->); done. Qed.

Lemma year_start_end y : 0 ≤ y < 399 → year_start (y + 1) = year_end y.
Proof. intros. unfold year_end. destruct (y =? 399) eqn:E; lia. Qed.

Lemma era_date_start y : 0 ≤ y < 399 → era_date (year_end y) = year_date (y + 1) 0.
Proof.
  intros H. rewrite (era_date_in (y + 1)); [|lia|].
  - rewrite (year_start_end y H). f_equal. lia.
  - rewrite (year_start_end y H). split; [lia|].
    destruct (year_ok_at (y + 1)) as (_ & _ & Hl & _); [lia|].
    rewrite (year_start_end y H) in Hl. destruct (leap _); lia.
Qed.

(** Within an era, each day is followed by its Gregorian successor. *)
Lemma era_date_next doe : 0 ≤ doe < 146097 →
  next_day (era_date doe) = if doe =? 146096 then shift_year 400 (era_date 0) else era_date (doe + 1).
Proof.
  intros H. destruct (era_year doe H) as (y & Hy & Hd).
  destruct (year_ok_at y Hy) as (Hl & Hu & Hlen & _).
  rewrite (era_date_in y doe) by done.
  assert (doe + 1 = year_end y → next_day (year_date y (doe - year_start y)) = year_date (y + 1) 0) as Hlast.
  { intros He. destruct (leap (y + 1)) eqn:El.
    - replace (doe - year_start y) with 365 by lia. by apply year_date_leap_last.
    - replace (doe - year_start y) with 364 by lia. rewrite year_date_last. by rewrite El. }
  destruct (decide (doe + 1 = year_end y)) as [He|He].
  - rewrite (Hlast He). destruct (decide (y = 399)) as [->|Hy9].
    + change (year_end 399) with 146097 in He. replace doe with 146096 by lia. done.
    + destruct (doe =? 146096) eqn:E.
      * assert (year_end y = 146097) as He' by lia.
        pose proof (year_ok_at (y + 1) ltac:(lia)) as (_ & Hu' & Hl' & _).
        rewrite (year_start_end y) in Hl' by lia. destruct (leap (y + 1 + 1)); lia.
      * rewrite He, era_date_start by lia. done.
  - destruct (doe =? 146096) eqn:E; [lia|].
    rewrite (era_date_in y (doe + 1)) by lia.
    destruct (decide (doe - year_start y < 364)).
    + rewrite year_date_next by lia. f_equal. lia.
    + destruct (leap (y + 1)) eqn:El; [|lia]. replace (doe - year_start y) with 364 by lia.
      rewrite year_date_last, El. f_equal. lia.
Qed.

(* ------------------------------------------------------------------ *)
(** ** [civil_from_days] counts days *)

Lemma era_date_bounds doe : 0 ≤ doe < 146097 →
  let '(y, m, d) := era_date doe in 0 ≤ y ≤ 400 ∧ 1 ≤ m ≤ 12 ∧ 1 ≤ d ≤ 31.
Proof.
  intros H. destruct (era_year doe H) as (y & Hy & Hd). rewrite (era_date_in y) by done.
  destruct (year_ok_at y Hy) as (_ & _ & Hl & _).
  assert (0 ≤ doe - year_start y ≤ 365) as Hdoy by (destruct (leap _); lia).
  revert Hdoy. generalize (doe - year_start y) as doy. intros doy Hdoy.
  destruct (decide (doy = 365)) as [->|].
  { unfold year_date. change (month_day 365) with (2, 29). simpl. lia. }
  pose proof (all_below_spec _ _ _ doy months_ok ltac:(lia)) as Hok.
  unfold month_day_ok in Hok. unfold year_date.
  destruct (month_day doy) as [m d], (month_day (doy + 1)) as [m' d'].
  unfold days_in_month in Hok. change (leap 0) with true in Hok.
  rewrite !andb_true_iff in Hok. destruct Hok as [[[[[? ?] ?] ?] _] _].
  destruct (m =? 2) eqn:Em; repeat case_match; lia.
Qed.

(** Far beyond any [i32] overflow of the year: about 1.9 billion years. *)
Definition max_days : Z := 700000000000.

Lemma as_i32_id x : -2147483648 ≤ x < 2147483648 → as_i32 x = x.
Proof. intros. unfold as_i32. rewrite Z.mod_small by lia. lia. Qed.

Lemma civil_era z : 0 ≤ z ≤ max_days → civil_from_days z
  = shift_year (400 * ((z + 719468) / 146097)) (era_date ((z + 719468) mod 146097)).
Proof.
  unfold max_days. intros Hz. set (e := (z + 719468) / 146097). set (doe := (z + 719468) mod 146097).
  assert (0 ≤ doe < 146097) as Hd by (apply Z.mod_pos_bound; lia).
  assert (0 ≤ e ≤ 5000000) as He.
  { unfold e. split; [apply Z.div_pos; lia|]. apply Z.div_le_upper_bound; lia. }
  assert (z + 719468 - e * 146097 = doe) as Hdoe.
  { unfold e, doe. pose proof (Z.div_mod (z + 719468) 146097). lia. }
  unfold civil_from_days. destruct (0 <=? z + 719468) eqn:E; [|lia].
  rewrite Z.quot_div_nonneg by lia. fold e. cbv zeta. rewrite Hdoe.
  pose proof (era_date_bounds doe Hd) as Hb. unfold era_date in *. fold (yoe_of doe).
  generalize dependent (yoe_of doe). intros y Hb. unfold year_date, month_day in *.
  fold (year_start y) in *. revert Hb. generalize (doe - year_start y). intros doy.
  cbv zeta. generalize (if (5 * doy + 2) / 153 <? 10 then (5 * doy + 2) / 153 + 3 else (5 * doy + 2) / 153 - 9).
  intros m Hb. simpl. destruct (m <=? 2); rewrite as_i32_id by lia; apply date_eq; lia.
Qed.

Lemma shift_year_add a b p : shift_year a (shift_year b p) = shift_year (a + b) p.
Proof. destruct p as [[y m] d]. simpl. apply date_eq. lia. Qed.

Lemma civil_next z : 0 ≤ z < max_days → civil_from_days (z + 1) = next_day (civil_from_days z).
Proof.
  unfold max_days. intros Hz. rewrite !civil_era by (unfold max_days; lia).
  rewrite next_day_shift.
  pose proof (Z.mod_pos_bound (z + 719468) 146097 ltac:(lia)).
  rewrite era_date_next by lia.
  pose proof (Z.div_mod (z + 719468) 146097 ltac:(lia)) as Hdm.
  destruct (_ =? 146096) eqn:E.
  - rewrite shift_year_add.
    rewrite <- (Z.div_unique (z + 1 + 719468) 146097 ((z + 719468) / 146097 + 1) 0) by lia.
    rewrite <- (Z.mod_unique (z + 1 + 719468) 146097 ((z + 719468) / 146097 + 1) 0) by lia.
    f_equal. lia.
  - set (r := (z + 719468) mod 146097) in *.
    rewrite <- (Z.div_unique (z + 1 + 719468) 146097 ((z + 719468) / 146097) (r + 1)) by lia.
    rewrite <- (Z.mod_unique (z + 1 + 719468) 146097 ((z + 719468) / 146097) (r + 1)) by lia.
    done.
Qed.

Lemma civil_ref_eq n : Z.of_nat n ≤ max_days → civil_from_days (Z.of_nat n) = civil_ref n.
Proof.
  induction n as [|n IH]; intros H; [reflexivity|].
  rewrite Nat2Z.inj_succ, <- Z.add_1_r, civil_next by lia. rewrite IH by lia. reflexivity.
Qed.

(** [days_to_date] is [civil_from_days] on unsigned integers. *)
Lemma days_to_date_civil days : (Z.of_N days ≤ max_days) →
  let '(y, m, d) := days_to_date days in civil_from_days (Z.of_N days) = (Z.of_N y, Z.of_N m, Z.of_N d).
Proof.
  intros Hm. rewrite civil_era by lia. unfold days_to_date, era_date, year_date, month_day.
  assert ((Z.of_N days + 719468) mod 146097 = Z.of_N ((days + 719468) mod 146097)) as ->
    by (rewrite N2Z.inj_mod; f_equal; lia).
  assert ((Z.of_N days + 719468) / 146097 = Z.of_N ((days + 719468) / 146097)) as ->
    by (rewrite N2Z.inj_div; f_equal; lia).
  pose proof (N.mod_upper_bound (days + 719468) 146097 ltac:(lia)).
  set (doe := ((days + 719468) mod 146097)%N) in *. cbv zeta.
  destruct (era_year (Z.of_N doe) ltac:(lia)) as (y & Hy & Hd).
  destruct (year_ok_at y Hy) as (Hl & Hu & Hlen & Hyoe). specialize (Hyoe _ Hd).
  rewrite Hyoe. unfold year_start in Hd.
  assert ((doe - doe / 1460 + doe / 36524 - doe / 146096) / 365 = Z.to_N y)%N as ->.
  { apply N2Z.inj. rewrite Z2N.id by lia. rewrite <- Hyoe. unfold yoe_of.
    rewrite N2Z.inj_div. f_equal.
    pose proof (N2Z.inj_div doe 1460). pose proof (N2Z.inj_div doe 36524).
    pose proof (N2Z.inj_div doe 146096). Z.div_mod_to_equations. lia. }
  assert (Z.of_N doe - (365 * y + y / 4 - y / 100)
    = Z.of_N (doe - (365 * Z.to_N y + Z.to_N y / 4 - Z.to_N y / 100))) as ->.
  { pose proof (N2Z.inj_div (Z.to_N y) 4). pose proof (N2Z.inj_div (Z.to_N y) 100).
    rewrite Z2N.id in * by lia. Z.div_mod_to_equations. lia. }
  generalize (doe - (365 * Z.to_N y + Z.to_N y / 4 - Z.to_N y / 100))%N. intros doy.
  assert ((5 * Z.of_N doy + 2) / 153 = Z.of_N ((5 * doy + 2) / 153)) as ->
    by (rewrite N2Z.inj_div; f_equal; clear; lia).
  pose proof (N2Z.inj_div (5 * doy + 2) 153). remember ((5 * doy + 2) / 153)%N as mp.
  pose proof (N2Z.inj_div (153 * mp + 2) 5).
  assert ((153 * mp + 2) / 5 ≤ doy)%N by (Z.div_mod_to_equations; lia).
  unfold shift_year.
  repeat case_match; apply date_eq; nlia.
Qed.

(* ------------------------------------------------------------------ *)
(** ** The text of a day: its shape and its order *)

Definition pad_ok (w : nat) (top : Z) (n : Z) : bool :=
  let s := show_pad_z w n in
  (String.length s =? w)%nat && forallb is_ascii_digit (bytes_of s)
  && ((n =? top) || bool_decide (String.compare s (show_pad_z w (n + 1)) = Lt)).

Lemma pad4_ok : all_below (pad_ok 4 9999) 0 (Z.to_nat 10000) = true.
Proof. vm_compute. reflexivity. Qed.
Lemma pad2_ok : all_below (pad_ok 2 99) 0 100 = true.
Proof. vm_compute. reflexivity. Qed.

(** A date whose text has the shape [YYYY-MM-DD]. *)
Definition date_small (p : Z * Z * Z) : Prop :=
  let '(y, m, d) := p in 0 ≤ y ≤ 9999 ∧ 0 ≤ m ≤ 99 ∧ 0 ≤ d ≤ 99.

Lemma pad_ok_at y : 0 ≤ y ≤ 9999 → pad_ok 4 9999 y = true.
Proof. intros. apply (all_below_spec _ _ _ _ pad4_ok). lia. Qed.
Lemma pad2_ok_at n : 0 ≤ n ≤ 99 → pad_ok 2 99 n = true.
Proof. intros. apply (all_below_spec _ _ _ _ pad2_ok). lia. Qed.

Lemma pad_ok_len w top n : pad_ok w top n = true →
  String.length (show_pad_z w n) = w ∧ forallb is_ascii_digit (bytes_of (show_pad_z w n)) = true.
Proof. unfold pad_ok. rewrite !andb_true_iff, Nat.eqb_eq. tauto. Qed.

Lemma pad_ok_lt w top n : pad_ok w top n = true → n ≠ top →
  String.compare (show_pad_z w n) (show_pad_z w (n + 1)) = Lt.
Proof.
  unfold pad_ok. rewrite !andb_true_iff, orb_true_iff, Z.eqb_eq, bool_decide_eq_true. tauto.
Qed.

Lemma date_string_eq y m d :
  date_string (y, m, d) = show_pad_z 4 y +:+ "-" +:+ show_pad_z 2 m +:+ "-" +:+ show_pad_z 2 d +:+ "".
Proof. reflexivity. Qed.

Lemma date_shape p : date_small p → day_epoch_shape (date_string p) = true.
Proof.
  destruct p as [[y m] d]. intros (Hy & Hm & Hd).
  apply pad_ok_at, pad_ok_len in Hy as [Hy1 Hy2].
  apply pad2_ok_at, pad_ok_len in Hm as [Hm1 Hm2], Hd as [Hd1 Hd2].
  rewrite date_string_eq, string_app_nil. unfold day_epoch_shape.
  rewrite <- length_bytes_of in Hy1, Hm1, Hd1.
  rewrite !bytes_of_app. simpl.
  destruct (bytes_of (show_pad_z 4 y)) as [|a1 [|a2 [|a3 [|a4 [|]]]]]; try discriminate Hy1.
  destruct (bytes_of (show_pad_z 2 m)) as [|b1 [|b2 [|]]]; try discriminate Hm1.
  destruct (bytes_of (show_pad_z 2 d)) as [|c1 [|c2 [|]]]; try discriminate Hd1.
  simpl in *. rewrite !andb_true_iff in *. tauto.
Qed.

Lemma pad2_len n : 0 ≤ n ≤ 99 → String.length (show_pad_z 2 n) = 2%nat.
Proof. intros H. by apply (pad_ok_len 2 99 n), pad2_ok_at. Qed.
Lemma pad4_len n : 0 ≤ n ≤ 9999 → String.length (show_pad_z 4 n) = 4%nat.
Proof. intros H. by apply (pad_ok_len 4 9999 n), pad_ok_at. Qed.

(** The next day's text is larger. *)
Lemma date_string_next p : date_small p → (next_day p).1.1 ≤ 9999 → 1 ≤ p.1.2 ≤ 12 → p.2 ≤ 31 →
  String.compare (date_string p) (date_string (next_day p)) = Lt.
Proof.
  destruct p as [[y m] d]. intros (Hy & Hm & Hd) Hn Hm' Hd'. unfold next_day in *. cbn [fst snd] in *.
  pose proof (pad_ok_at y Hy) as Hpy. pose proof (pad2_ok_at m Hm) as Hpm.
  pose proof (pad2_ok_at d Hd) as Hpd.
  destruct (d <? _) eqn:Ed; [|destruct (m <? 12) eqn:Em]; rewrite !date_string_eq.
  - rewrite !compare_app_same. rewrite compare_app; [|rewrite !pad2_len; lia]. rewrite (pad_ok_lt _ _ _ Hpd) by lia. done.
  - rewrite !compare_app_same. rewrite compare_app; [|rewrite !pad2_len; lia]. rewrite (pad_ok_lt _ _ _ Hpm) by lia. done.
  - simpl in Hn. rewrite compare_app; [|rewrite !pad4_len; lia]. rewrite (pad_ok_lt _ _ _ Hpy) by lia. done.
Qed.

(* ------------------------------------------------------------------ *)
(** ** Days up to 9999-12-31 *)

(** 9999-12-31 is day 2932896. *)
Definition last_day : Z := 2932896.

Lemma next_day_year p : p.1.1 ≤ (next_day p).1.1.
Proof. destruct p as [[y m] d]. simpl. repeat case_match; simpl; lia. Qed.

Lemma civil_year_mono n k : (Z.of_nat (n + k) ≤ max_days) →
  (civil_from_days (Z.of_nat n)).1.1 ≤ (civil_from_days (Z.of_nat (n + k))).1.1.
Proof.
  induction k as [|k IH]; intros H; [by rewrite Nat.add_0_r|].
  replace (Z.of_nat (n + S k)) with (Z.of_nat (n + k) + 1) by lia. rewrite civil_next by lia.
  etransitivity; [apply IH; lia|apply next_day_year].
Qed.

Lemma civil_bounds z : 0 ≤ z ≤ last_day →
  let '(y, m, d) := civil_from_days z in 1970 ≤ y ≤ 9999 ∧ 1 ≤ m ≤ 12 ∧ 1 ≤ d ≤ 31.
Proof.
  unfold last_day. intros Hz.
  pose proof (civil_year_mono 0 (Z.to_nat z)) as H1.
  pose proof (civil_year_mono (Z.to_nat z) (Z.to_nat (last_day - z))) as H2.
  unfold last_day, max_days in *.
  replace (Z.of_nat (0 + Z.to_nat z)) with z in H1 by lia.
  replace (Z.of_nat (Z.to_nat z + Z.to_nat (2932896 - z))) with 2932896 in H2 by lia.
  rewrite Z2Nat.id in H2 by lia.
  replace ((civil_from_days (Z.of_nat 0)).1.1) with 1970 in H1 by reflexivity.
  replace ((civil_from_days 2932896).1.1) with 9999 in H2 by reflexivity.
  specialize (H1 ltac:(lia)). specialize (H2 ltac:(lia)).
  rewrite civil_era in * by (unfold max_days; lia).
  pose proof (era_date_bounds ((z + 719468) mod 146097) ltac:(apply Z.mod_pos_bound; lia)) as Hb.
  destruct (era_date _) as [[y m] d]. simpl in *. lia.
Qed.

Lemma civil_small z : 0 ≤ z ≤ last_day → date_small (civil_from_days z).
Proof.
  intros H. pose proof (civil_bounds z H) as Hb. unfold date_small.
  destruct (civil_from_days z) as [[y m] d]. lia.
Qed.

Lemma date_string_lt a k : 0 ≤ a → a + Z.of_nat (S k) ≤ last_day →
  strict String.le (date_string (civil_from_days a)) (date_string (civil_from_days (a + Z.of_nat (S k)))).
Proof.
  assert (∀ z, 0 ≤ z < last_day →
    strict String.le (date_string (civil_from_days z)) (date_string (civil_from_days (z + 1)))) as Hs.
  { intros z Hz. pose proof (civil_bounds z ltac:(lia)) as Hb.
    pose proof (civil_bounds (z + 1) ltac:(lia)) as Hb'. pose proof (civil_small z ltac:(lia)) as Hsm.
    rewrite civil_next in * by (unfold last_day, max_days in *; lia).
    assert (String.compare (date_string (civil_from_days z)) (date_string (next_day (civil_from_days z))) = Lt) as Hc.
    { apply date_string_next; [done|..]; destruct (civil_from_days z) as [[y m] d];
        destruct (next_day _) as [[y' m'] d']; simpl in *; lia. }
    split; unfold String.le, String.leb; [by rewrite Hc|].
    rewrite String.compare_antisym, Hc. simpl. tauto. }
  intros Ha. induction k as [|k IH]; intros Hk; [apply Hs; lia|].
  transitivity (date_string (civil_from_days (a + Z.of_nat (S k)))); [apply IH; lia|].
  replace (a + Z.of_nat (S (S k))) with (a + Z.of_nat (S k) + 1) by lia. apply Hs. lia.
Qed.

Lemma date_string_le_iff a b : 0 ≤ a ≤ last_day → 0 ≤ b ≤ last_day →
  String.leb (date_string (civil_from_days a)) (date_string (civil_from_days b)) = true ↔ a ≤ b.
Proof.
  intros Ha Hb. destruct (decide (a = b)) as [->|Hne].
  { split; [done|]. intros _. unfold String.leb. by rewrite compare_refl. }
  destruct (decide (a < b)).
  - pose proof (date_string_lt a (Z.to_nat (b - a - 1)) ltac:(lia) ltac:(lia)) as [H _].
    replace (a + Z.of_nat (S (Z.to_nat (b - a - 1)))) with b in H by lia.
    unfold String.le in H. split; [lia|]. intros _. by apply Is_true_true.
  - pose proof (date_string_lt b (Z.to_nat (a - b - 1)) ltac:(lia) ltac:(lia)) as [_ H].
    replace (b + Z.of_nat (S (Z.to_nat (a - b - 1)))) with a in H by lia.
    unfold String.le in H. split; [|lia]. intros Hl. destruct H. by apply Is_true_true.
Qed.

Lemma secs_day t : (t < 253402300800)%N → 0 ≤ Z.of_N (t / 86400) ≤ last_day.
Proof.
  unfold last_day. intros H. split; [apply N2Z.is_nonneg|].
  apply N2Z.inj_lt in H. rewrite N2Z.inj_div. Z.div_mod_to_equations. lia.
Qed.



(** Up to 9999-12-31 the day a clock value is bound to parses back to itself, and the derived
    (textual) order of two day epochs is the order of their day numbers, so [have < need] in the
    gate compares days. *)
Theorem day_epoch_text (t u : N) :
  (t < 253402300800)%N → (u < 253402300800)%N →
  day_epoch_parse (day_str (day_epoch_from_unix_secs t)) = Ok (day_epoch_from_unix_secs t)
  ∧ (day_le (day_epoch_from_unix_secs t) (day_epoch_from_unix_secs u) = true ↔ (t / 86400 ≤ u / 86400)%N)
  ∧ (day_epoch_from_unix_secs t = day_epoch_from_unix_secs u ↔ (t / 86400 = u / 86400)%N).
Proof.
  intros Ht Hu. apply secs_day in Ht, Hu. split; [|split].
  - unfold day_epoch_parse, day_epoch_from_unix_secs. cbn [day_str]. by rewrite date_shape by (by apply civil_small).
  - unfold day_le, day_epoch_from_unix_secs. cbn [day_str]. rewrite date_string_le_iff by done. by rewrite N2Z.inj_le.
  - split; [|unfold day_epoch_from_unix_secs; by intros ->].
    intros H. assert (date_string (civil_from_days (Z.of_N (t / 86400)))
      = date_string (civil_from_days (Z.of_N (u / 86400)))) as He by (by injection H).
    pose proof (date_string_le_iff _ _ Ht Hu) as H1. pose proof (date_string_le_iff _ _ Hu Ht) as H2.
    rewrite He in H1, H2. unfold String.leb in H1, H2. rewrite compare_refl in H1, H2.
    destruct H1 as [H1 _], H2 as [H2 _]. specialize (H1 eq_refl). specialize (H2 eq_refl).
    apply N2Z.inj. lia.
Qed.

Lemma day_epoch_text_witness :
  day_str (day_epoch_from_unix_secs 1704067200) = "2024-01-01"
  ∧ day_epoch_parse "2024-01-01" = Ok (day_epoch_from_unix_secs 1704067200)
  ∧ day_le (day_epoch_from_unix_secs 1704067200) (day_epoch_from_unix_secs 1709251200) = true.
Proof.
  split; [vm_compute; reflexivity|].
  destruct (day_epoch_text 1704067200 1709251200) as (H1 & [_ H2] & _); [lia|lia|].
  split; [exact H1|]. apply H2. vm_compute. discriminate.
Defined.
