(* ===== verification/Bucket.v ===== *)
(** * Buckets, destinations and settlement intents

    [domain/bitcoin_net.rs], [domain/bucket.rs] and the intent signature of
    [domain/intent_bind.rs]: the pure gate every spend passes. *)
From S2P Require Import Prelude RustStr Errors.
From Stdlib Require String.
Local Open Scope N_scope.

(* ------------------------------------------------------------------ *)
(** ** Bitcoin networks and addresses *)

Inductive BitcoinNetwork := Testnet3 | Mainnet.
#[export] Instance BitcoinNetwork_eq_dec : EqDecision BitcoinNetwork.
Proof. solve_decision. Defined.

Definition network_parse (raw : string) : option BitcoinNetwork :=
  let s := to_ascii_lowercase (trim raw) in
  if bool_decide (s ∈ ["testnet3"; "testnet"; "test"]) then Some Testnet3
  else if bool_decide (s ∈ ["mainnet"; "bitcoin"; "main"]) then Some Mainnet
  else None.

Definition network_str (n : BitcoinNetwork) : string :=
  match n with Testnet3 => "testnet3" | Mainnet => "mainnet" end.

(** The address functions of the [bitcoin] crate: [str::parse], [require_network], [script_pubkey]. *)
Class AddressLib := {
  Address : Type;
  address_parse : string → option Address;
  address_on : Address → BitcoinNetwork → bool;
  script_pubkey : Address → bytes;
}.

(** A two-address library for the witnesses. *)
#[local] Instance toy_addresses : AddressLib := {|
  Address := string;
  address_parse s := if bool_decide (s ∈ ["tb1ptest"; "3main"]) then Some s else None;
  address_on a n := match n with Testnet3 => String.eqb a "tb1ptest" | Mainnet => String.eqb a "3main" end;
  script_pubkey a := bytes_of a;
|}.

Section destinations.
Context `{!AddressLib}.

Definition validate_destination (network : BitcoinNetwork) (destination : string) : res unit :=
  let dest := trim destination in
  if str_len dest =? 0 then Err (InvalidIntent "empty destination")
  else if bool_decide (network = Testnet3) && (starts_with "bc1" dest || starts_with "BC1" dest)
  then Err (BitcoinNetworkMismatch "mainnet bc1 address rejected on BITCOIN_NETWORK=testnet3")
  else match address_parse dest with
       | Some unchecked =>
           if address_on unchecked network then Ok tt
           else Err (BitcoinNetworkMismatch (format "address not valid for {}" [network_str network]))
       | None => Ok tt
       end.

Definition destination_script_pubkey (network : BitcoinNetwork) (destination : string) : res bytes :=
  _ ← validate_destination network destination;
  let dest := trim destination in
  unchecked ← ok_or (address_parse dest) (InvalidIntent
    "PSBT Intent bind requires a Bitcoin address destination (opaque lab tags cannot bind outputs)");
  if address_on unchecked network then Ok (script_pubkey unchecked)
  else Err (BitcoinNetworkMismatch (format "address not valid for {}" [network_str network])).
End destinations.

(* ------------------------------------------------------------------ *)
(** ** Bucket kinds *)

Inductive BucketKind := Users | Profit | Miners | Channels | Infra.
#[export] Instance BucketKind_eq_dec : EqDecision BucketKind.
Proof. solve_decision. Defined.
Definition bucket_index (b : BucketKind) : nat :=
  match b with Users => 0 | Profit => 1 | Miners => 2 | Channels => 3 | Infra => 4 end.
Definition bucket_of_index (n : nat) : BucketKind :=
  match n with 0 => Users | 1 => Profit | 2 => Miners | 3 => Channels | _ => Infra end%nat.
#[export] Instance BucketKind_countable : Countable BucketKind.
Proof. refine (inj_countable' bucket_index bucket_of_index _). by intros []. Defined.

Definition bucket_parse (raw : string) : res BucketKind :=
  let s := to_ascii_uppercase (trim raw) in
  if String.eqb s "USERS" then Ok Users
  else if String.eqb s "PROFIT" then Ok Profit
  else if String.eqb s "MINERS" then Ok Miners
  else if String.eqb s "CHANNELS" then Ok Channels
  else if String.eqb s "INFRA" then Ok Infra
  else Err (InvalidBucket raw).

Definition bucket_str (b : BucketKind) : string :=
  match b with
  | Users => "USERS" | Profit => "PROFIT" | Miners => "MINERS"
  | Channels => "CHANNELS" | Infra => "INFRA"
  end.

Definition may_debit_users (b : BucketKind) : bool := bool_decide (b = Users).
Definition may_use_shared_taproot_key (b : BucketKind) : bool := bool_decide (b = Users).
Definition may_use_channels_taproot_key (b : BucketKind) : bool := bool_decide (b = Channels).

Definition assert_shared_taproot_bucket (b : BucketKind) : res unit :=
  if may_use_shared_taproot_key b then Ok tt
  else Err (InvalidIntent (format
    "bucket {} cannot spend shared Taproot key; only USERS (CHANNELS uses its own key)" [bucket_str b])).

Definition assert_channels_taproot_bucket (b : BucketKind) : res unit :=
  if may_use_channels_taproot_key b then Ok tt
  else Err (InvalidIntent (format "bucket {} cannot spend CHANNELS Taproot key" [bucket_str b])).

(* ------------------------------------------------------------------ *)
(** ** Profit splits, in basis points *)

Record ProfitSplits := { miners_bps : N; channels_bps : N; infra_bps : N }.
#[export] Instance ProfitSplits_eq_dec : EqDecision ProfitSplits.
Proof. solve_decision. Defined.

Definition splits_lab_dry_run : ProfitSplits :=
  {| miners_bps := 0; channels_bps := 5000; infra_bps := 5000 |}.

Definition splits_validate (s : ProfitSplits) : res unit :=
  let sum := sat_add32 (sat_add32 (miners_bps s) (channels_bps s)) (infra_bps s) in
  if negb (sum =? 10000)
  then Err (InvalidConstitution (format "profit splits must sum to 10000 bps, got {}" [show sum]))
  else Ok tt.

Definition splits_explicit (m c i : N) : res ProfitSplits :=
  let s := {| miners_bps := m; channels_bps := c; infra_bps := i |} in
  _ ← splits_validate s; Ok s.

Definition splits_open_with_reward (p_reward_bps : N) : res ProfitSplits :=
  if 10000 <? p_reward_bps then Err (InvalidConstitution "p_reward_bps > 10000")
  else
    let rest := 10000 - p_reward_bps in
    let channels := rest / 2 in
    let infra := rest - channels in
    splits_explicit p_reward_bps channels infra.

Definition allocate (s : ProfitSplits) (profit_sats : N) : N * N * N :=
  let miners := sat_mul64 profit_sats (miners_bps s) / 10000 in
  let channels := sat_mul64 profit_sats (channels_bps s) / 10000 in
  let infra := sat_sub (sat_sub profit_sats miners) channels in
  (miners, channels, infra).

(* ------------------------------------------------------------------ *)
(** ** Bucket policies *)

Record BucketPolicy := {
  kind : BucketKind;
  max_per_tx_sats : N;
  max_per_day_sats : N;
  destination_allowlist : gset string;
}.

Definition policy_lab_defaults (k : BucketKind) (max_tx max_day : N) : BucketPolicy := {|
  kind := k;
  max_per_tx_sats := max_tx;
  max_per_day_sats := max_day;
  destination_allowlist :=
    match k with
    | Users => {["tb1q-users-withdraw"; "ln-users-withdraw"]}
    | Profit => {["internal-profit-split"]}
    | Miners => {["tb1q-miner-payout"]}
    | Channels => {["ln-channel-rebalance"]}
    | Infra => {["tb1q-infra-ops"]}
    end;
|}.

Definition allows_destination (p : BucketPolicy) (dest : string) : bool :=
  bool_decide (dest ∈ destination_allowlist p).

Definition allows_destination_for_network `{!AddressLib} (p : BucketPolicy) (dest : string)
    (network : BitcoinNetwork) : bool :=
  if allows_destination p dest then true
  else if negb (bool_decide (kind p = Channels)) then false
  else is_ok (validate_destination network dest) && bool_decide (is_Some (address_parse dest)).

Definition admit_destination (d : string) (p : BucketPolicy) : BucketPolicy :=
  if negb (str_len (trim d) =? 0)
  then {| kind := kind p; max_per_tx_sats := max_per_tx_sats p; max_per_day_sats := max_per_day_sats p;
          destination_allowlist := {[d]} ∪ destination_allowlist p |}
  else p.

Definition extend_destinations (ds : list string) (p : BucketPolicy) : BucketPolicy :=
  foldl (λ p d, admit_destination d p) p ds.

(* ------------------------------------------------------------------ *)
(** ** Intent signatures and settlement intents *)

Record IntentSignature := {
  ed25519_signature : bytes;
  ml_dsa65_signature : bytes;
  ed25519_key_id : string;
  ml_dsa_key_id : string;
  canonical_hash : bytes;
}.
#[export] Instance IntentSignature_eq_dec : EqDecision IntentSignature.
Proof. solve_decision. Defined.

Definition all_zero (n : nat) (l : bytes) : bool := bool_decide (l = replicate n Ascii.zero).

Definition validate_stub (s : IntentSignature) (require_pq : bool) : res unit :=
  if all_zero 64 (ed25519_signature s) then Err (AuthRejected "ed25519 signature is all-zero")
  else if all_zero 48 (canonical_hash s) then Err (AuthRejected "canonical hash is all-zero")
  else if require_pq && bool_decide (ml_dsa65_signature s = [])
  then Err (AuthRejected "ml-dsa-65 signature required by downgrade policy but missing")
  else Ok tt.

Record SettlementIntent := {
  intent_id : string;
  bucket : BucketKind;
  destination : string;
  amount_sats : N;
  policy_hash : string;
  signature : option IntentSignature;
}.
#[export] Instance SettlementIntent_eq_dec : EqDecision SettlementIntent.
Proof. solve_decision. Defined.

Definition settlement_intent_new (intent_id : string) (bucket : BucketKind) (destination : string)
    (amount_sats : N) (policy_hash : string) : res SettlementIntent :=
  if str_len (trim intent_id) =? 0 then Err (InvalidIntent "empty intent_id")
  else if 128 <? str_len intent_id then Err (InvalidIntent "intent_id too long")
  else if any_control (bytes_of intent_id) || contains_char "/"%char intent_id || contains_char "\"%char intent_id
  then Err (InvalidIntent "intent_id contains illegal characters")
  else if str_len (trim destination) =? 0 then Err (InvalidIntent "empty destination")
  else if 256 <? str_len destination then Err (InvalidIntent "destination too long")
  else if contains_str ".." destination || contains_char "/"%char destination || contains_char "\"%char destination
  then Err (InvalidIntent "destination path traversal rejected")
  else if 128 <? str_len policy_hash then Err (InvalidIntent "policy_hash too long")
  else Ok {| intent_id := intent_id; bucket := bucket; destination := destination;
             amount_sats := amount_sats; policy_hash := policy_hash; signature := None |}.

Definition with_signature (sig : IntentSignature) (i : SettlementIntent) : SettlementIntent :=
  {| intent_id := intent_id i; bucket := bucket i; destination := destination i;
     amount_sats := amount_sats i; policy_hash := policy_hash i; signature := Some sig |}.

(** [evaluate_intent]. The source's [unreachable!()] sits under
    [!may_debit_users && bucket == USERS], which [unreachable_guard] shows false. *)
Definition evaluate_intent `{!AddressLib} (intent : SettlementIntent) (policy : BucketPolicy)
    (spent_today_sats : N) (active_policy_hash : string) : res unit :=
  if negb (bool_decide (kind policy = bucket intent)) then Err (InvalidIntent "bucket/policy mismatch")
  else if negb (String.eqb (policy_hash intent) active_policy_hash)
  then Err (InvalidIntent "policy_hash mismatch with active constitution")
  else if negb (may_debit_users (bucket intent)) && bool_decide (kind policy = Users)
  then Err UsersOmnibusProtected
  else if amount_sats intent =? 0 then Err (InvalidIntent "amount must be > 0")
  else if max_per_tx_sats policy <? amount_sats intent
  then Err (CapExceeded (amount_sats intent) (max_per_tx_sats policy) "per_tx")
  else
    let day_total := sat_add64 spent_today_sats (amount_sats intent) in
    if max_per_day_sats policy <? day_total
    then Err (CapExceeded day_total (max_per_day_sats policy) "per_day")
    else
      let dest_ok :=
        if allows_destination policy (destination intent) then true
        else if bool_decide (kind policy = Channels)
             then bool_decide (is_Some (address_parse (destination intent)))
             else false in
      if negb dest_ok then Err (DestinationNotAllowed (destination intent)) else Ok tt.

(* ------------------------------------------------------------------ *)
(** ** Properties *)

Lemma unreachable_guard b : negb (may_debit_users b) && bool_decide (b = Users) = false.
Proof. by destruct b. Qed.

(** What [SettlementIntent::new] promises of an intent it returns. *)
Record intent_wf (i : SettlementIntent) : Prop := {
  wf_id_nonblank : str_len (trim (intent_id i)) ≠ 0;
  wf_id_len : str_len (intent_id i) ≤ 128;
  wf_id_chars : any_control (bytes_of (intent_id i)) = false ∧ contains_char "/"%char (intent_id i) = false
    ∧ contains_char "\"%char (intent_id i) = false;
  wf_dest_nonblank : str_len (trim (destination i)) ≠ 0;
  wf_dest_len : str_len (destination i) ≤ 256;
  wf_dest_path : contains_str ".." (destination i) = false ∧ contains_char "/"%char (destination i) = false
    ∧ contains_char "\"%char (destination i) = false;
  wf_hash_len : str_len (policy_hash i) ≤ 128;
}.

(** [SettlementIntent::new] accepts exactly the well-formed field values (a non-blank id of at
    most 128 bytes without control characters or path separators, a non-blank destination of at most
    256 bytes without path traversal, a policy hash of at most 128 bytes), stores them unchanged and
    attaches no signature. *)
Theorem settlement_intent_new_spec id b dest amount ph i :
  settlement_intent_new id b dest amount ph = Ok i ↔
  i = {| intent_id := id; bucket := b; destination := dest; amount_sats := amount;
         policy_hash := ph; signature := None |} ∧ intent_wf i.
Proof.
  unfold settlement_intent_new. rewrite !guard_ok, Ok_inj_iff, !orb_false_iff, !N.eqb_neq, !N.ltb_ge.
  split; [intros; destruct_and!; subst; split; [done|by split]|].
  intros [-> []]. simpl in *. naive_solver.
Qed.

Section evaluate.
Context `{!AddressLib}.

(** What the pure gate checks. *)
Definition destination_ok (intent : SettlementIntent) (policy : BucketPolicy) : Prop :=
  destination intent ∈ destination_allowlist policy
  ∨ (kind policy = Channels ∧ is_Some (address_parse (destination intent))).

Lemma evaluate_intent_ok intent policy spent hash :
  max_per_day_sats policy < u64_max →
  evaluate_intent intent policy spent hash = Ok tt ↔
  kind policy = bucket intent ∧ policy_hash intent = hash ∧ 0 < amount_sats intent
  ∧ amount_sats intent ≤ max_per_tx_sats policy
  ∧ spent + amount_sats intent ≤ max_per_day_sats policy
  ∧ destination_ok intent policy.
Proof.
  intros Hmax. unfold evaluate_intent, allows_destination, destination_ok, sat_add64. cbv zeta.
  rewrite !guard_ok. unfold u64_max in *. nbool.
  destruct (decide (kind policy = bucket intent)) as [Hk|Hk]; [|naive_solver].
  rewrite Hk, String.eqb_eq.
  assert (may_debit_users (bucket intent) = true ∨ bucket intent ≠ Users) by (destruct (bucket intent); auto).
  assert ((spent + amount_sats intent) `min` 18446744073709551615 ≤ max_per_day_sats policy
    ↔ spent + amount_sats intent ≤ max_per_day_sats policy) as -> by lia.
  assert (amount_sats intent ≠ 0 ↔ 0 < amount_sats intent) as -> by lia.
  repeat case_bool_decide; naive_solver.
Qed.

(** The pure gate admits an intent exactly when the policy is the one of the intent's bucket,
    the intent names the active constitution's policy hash, the amount is positive and within the
    per-transaction cap, the day's total with it stays within the daily cap, and the destination is
    allowlisted (or, for CHANNELS only, a parseable Bitcoin address); [day_total] is computed with
    saturation, so no overflow admits an amount. *)
Theorem evaluate_intent_spec intent policy spent hash :
  max_per_day_sats policy < u64_max →
  evaluate_intent intent policy spent hash = Ok tt ↔
  kind policy = bucket intent ∧ policy_hash intent = hash ∧ 0 < amount_sats intent
  ∧ amount_sats intent ≤ max_per_tx_sats policy
  ∧ spent + amount_sats intent ≤ max_per_day_sats policy
  ∧ destination_ok intent policy.
Proof. apply evaluate_intent_ok. Qed.
End evaluate.

Lemma evaluate_intent_spec_witness :
  ∃ i, settlement_intent_new "i1" Users "tb1q-users-withdraw" 100 "ph" = Ok i ∧
    evaluate_intent i (policy_lab_defaults Users 100 1000) 900 "ph" = Ok tt ∧
    evaluate_intent i (policy_lab_defaults Users 100 1000) 901 "ph" = Err (CapExceeded 1001 1000 "per_day").
Proof.
  eexists. split; [vm_compute; reflexivity|]. split; [|vm_compute; reflexivity].
  apply evaluate_intent_spec; [vm_compute; reflexivity|].
  do 2 (split; [reflexivity|]). split; [simpl; lia|]. split; [simpl; lia|]. split; [simpl; lia|].
  left. simpl. set_solver.
Defined.

Section destination_properties.
Context `{!AddressLib}.

(** A scriptPubKey is only ever produced for a destination that parses as a Bitcoin address of
    the configured network, and it is that address's script; on testnet3 no destination beginning
    [bc1]/[BC1] passes even the weaker check that lets opaque labels through. *)
Theorem destination_script_sound network dest script :
  destination_script_pubkey network dest = Ok script →
  validate_destination network dest = Ok tt
  ∧ (∃ a, address_parse (trim dest) = Some a ∧ address_on a network = true ∧ script = script_pubkey a)
  ∧ (network = Testnet3 → starts_with "bc1" (trim dest) = false ∧ starts_with "BC1" (trim dest) = false).
Proof.
  unfold destination_script_pubkey. rewrite bind_ok. intros ([] & Hv & Ho).
  rewrite bind_ok in Ho. destruct Ho as (a & Ha & Ho). rewrite ok_or_ok in Ha.
  rewrite guard_ok_else, Ok_inj_iff in Ho. destruct Ho as [Hon <-].
  split; [done|]. split; [eauto|]. intros ->. unfold validate_destination in Hv. cbv zeta in Hv.
  rewrite !guard_ok in Hv. destruct Hv as (_ & Hv & _).
  rewrite bool_decide_true in Hv by done. by apply orb_false_iff in Hv.
Qed.
End destination_properties.

Lemma destination_script_sound_witness :
  validate_destination Testnet3 " tb1ptest " = Ok tt
  ∧ validate_destination Testnet3 "bc1q-any" ≠ Ok tt ∧ validate_destination Testnet3 "3main" ≠ Ok tt.
Proof.
  split; [|split; vm_compute; discriminate].
  apply (destination_script_sound Testnet3 " tb1ptest " (bytes_of "tb1ptest")). vm_compute. reflexivity.
Defined.

Lemma splits_validate_ok s :
  splits_validate s = Ok tt ↔ miners_bps s + channels_bps s + infra_bps s = 10000.
Proof.
  unfold splits_validate. cbv zeta. rewrite guard_ok, negb_false_iff, N.eqb_eq.
  unfold sat_add32, u32_max. split; [|split; [lia|done]]. intros [H _]. lia.
Qed.

Lemma splits_open_ok p s : splits_open_with_reward p = Ok s ↔
  p ≤ 10000 ∧ s = {| miners_bps := p; channels_bps := (10000 - p) / 2;
                     infra_bps := 10000 - p - (10000 - p) / 2 |}.
Proof.
  unfold splits_open_with_reward, splits_explicit. cbv zeta.
  rewrite guard_ok, N.ltb_ge, bind_ok.
  split; [intros (? & [] & ? & [= <-]); done|]. intros [Hp ->]. split; [done|]. exists tt.
  split; [|done]. apply splits_validate_ok. simpl.
  assert ((10000 - p) / 2 ≤ 10000 - p) by (apply N.Div0.div_le_upper_bound; lia). lia.
Qed.

(** Allocating a profit under valid splits conserves it: the three parts always sum to the profit,
    also when the multiplications saturate; below saturation the miners' and channels' parts are the
    rounded-down basis-point shares and INFRA gets its share plus at most 2 sats of rounding. *)
Theorem allocate_conserves s profit :
  splits_validate s = Ok tt → profit ≤ u64_max →
  let '(m, c, i) := allocate s profit in
  m + c + i = profit
  ∧ (profit * 10000 ≤ u64_max →
     m = profit * miners_bps s / 10000 ∧ c = profit * channels_bps s / 10000
     ∧ profit * infra_bps s ≤ i * 10000 < profit * infra_bps s + 20000).
Proof.
  rewrite splits_validate_ok. intros Hs Hp. unfold allocate, sat_sub. cbv zeta.
  destruct s as [sm sc si]. simpl in *.
  pose proof (sat_mul64_le profit sm) as Hm. pose proof (sat_mul64_le profit sc) as Hc.
  assert (sat_mul64 profit sm / 10000 * 10000 ≤ profit * sm) as Hm'.
  { etransitivity; [|exact Hm]. rewrite N.mul_comm. apply N.Div0.mul_div_le. }
  assert (sat_mul64 profit sc / 10000 * 10000 ≤ profit * sc) as Hc'.
  { etransitivity; [|exact Hc]. rewrite N.mul_comm. apply N.Div0.mul_div_le. }
  assert (profit * sm + profit * sc + profit * si = profit * 10000) as Hsum by (rewrite <- Hs; lia).
  split; [lia|]. intros Hsat.
  rewrite !sat_mul64_exact in * by nia. split; [done|]. split; [done|].
  pose proof (N.div_mod (profit * sm) 10000 ltac:(lia)).
  pose proof (N.mod_upper_bound (profit * sm) 10000 ltac:(lia)).
  pose proof (N.div_mod (profit * sc) 10000 ltac:(lia)).
  pose proof (N.mod_upper_bound (profit * sc) 10000 ltac:(lia)). lia.
Qed.

Lemma allocate_conserves_witness :
  splits_validate splits_lab_dry_run = Ok tt ∧ allocate splits_lab_dry_run 10001 = (0, 5000, 5001)
  ∧ 0 + 5000 + 5001 = 10001.
Proof.
  split; [reflexivity|]. split; [reflexivity|].
  apply (allocate_conserves splits_lab_dry_run 10001); [reflexivity|]. vm_compute. discriminate.
Defined.
