(* ===== verification/Psbt.v ===== *)
(** * PSBT policy and intent binding

    [domain/psbt_policy.rs] and [assert_outputs_match_intent] of
    [domain/intent_bind.rs]: what a vault checks of a transaction before it
    releases a signature share. *)
From S2P Require Import Prelude RustStr Errors Bucket.
Local Open Scope N_scope.

Section bind.
Context (payment_script : bytes) (amount : N) (change_script : option bytes).

(** The loop of [assert_outputs_match_intent]; [matched] is [payment_matched]. *)
Fixpoint match_outputs (matched : bool) (outputs : list (bytes * N)) : res bool :=
  match outputs with
  | [] => Ok matched
  | (spk, value) :: rest =>
      if bool_decide (spk = payment_script) then
        if negb (value =? amount)
        then Err (InvalidIntent (format "PSBT payment output amount {} != Intent amount_sats {}"
                                   [show value; show amount]))
        else if matched then Err (InvalidIntent "PSBT has multiple outputs to Intent destination")
        else match_outputs true rest
      else
        match change_script with
        | Some change =>
            if bool_decide (spk = change) then match_outputs matched rest
            else Err (InvalidIntent
              "PSBT change output is not mesh Taproot deposit key (non-tr / unbound change escape)")
        | None => Err (InvalidIntent
              "PSBT has non-payment output but no mesh change script configured (unbound spend)")
        end
  end.

Definition assert_outputs_match_intent (outputs : list (bytes * N)) : res unit :=
  if bool_decide (outputs = []) then Err (InvalidIntent "PSBT has no outputs to bind to Intent")
  else if amount =? 0 then Err (InvalidIntent "Intent amount_sats must be > 0 for PSBT bind")
  else
    payment_matched ← match_outputs false outputs;
    if negb payment_matched
    then Err (InvalidIntent "PSBT missing output matching Intent destination and amount_sats")
    else Ok tt.

(** Value paid to a script that is neither the payment nor the mesh change script. *)
Definition foreign (o : bytes * N) : bool :=
  negb (bool_decide (o.1 = payment_script)) && negb (bool_decide (Some o.1 = change_script)).
Definition payments (outputs : list (bytes * N)) : list (bytes * N) :=
  filter (λ o, o.1 = payment_script) outputs.

Lemma match_outputs_ok matched outputs b :
  match_outputs matched outputs = Ok b ↔
  forallb (λ o, negb (foreign o)) outputs = true
  ∧ Forall (λ o, o.2 = amount) (payments outputs)
  ∧ (if matched then b = true ∧ payments outputs = [] else (length (payments outputs) ≤ 1)%nat
       ∧ b = negb (bool_decide (payments outputs = []))).
Proof.
  revert matched b. induction outputs as [|[spk v] rest IH]; intros matched b.
  { simpl. destruct matched, b; naive_solver. }
  cbn [match_outputs forallb]. unfold payments. rewrite filter_cons. unfold foreign at 1. cbn [fst].
  destruct (decide (spk = payment_script)) as [Hp|Hp].
  - rewrite bool_decide_true by done. simpl. rewrite guard_ok, negb_false_iff, N.eqb_eq.
    rewrite Forall_cons. cbn [fst snd].
    destruct matched; [split; naive_solver|]. rewrite IH. fold (payments rest).
    assert (payments rest = [] ↔ (S (length (payments rest)) ≤ 1)%nat) as Hl.
    { destruct (payments rest); simpl; split; intros; try done; lia. }
    rewrite Hl. naive_solver.
  - rewrite bool_decide_false by done. simpl.
    destruct change_script as [change|]; [|simpl; naive_solver].
    destruct (decide (spk = change)) as [->|Hc].
    + rewrite !bool_decide_true by done. simpl. apply IH.
    + rewrite !bool_decide_false by congruence. simpl. naive_solver.
Qed.
End bind.

(* ------------------------------------------------------------------ *)
(** ** Fee, locktime and replaceability *)

Inductive RbfPolicy := RbfAllow | RbfRequire | RbfForbid.
#[export] Instance RbfPolicy_eq_dec : EqDecision RbfPolicy.
Proof. solve_decision. Defined.

Definition rbf_parse (raw : string) : option RbfPolicy :=
  let s := to_ascii_lowercase (trim raw) in
  if bool_decide (s ∈ ["allow"; "any"]) then Some RbfAllow
  else if bool_decide (s ∈ ["require"; "rbf"]) then Some RbfRequire
  else if bool_decide (s ∈ ["forbid"; "final"; "no_rbf"]) then Some RbfForbid
  else None.

Definition rbf_str (r : RbfPolicy) : string :=
  match r with RbfAllow => "allow" | RbfRequire => "require" | RbfForbid => "forbid" end.

Record PsbtPolicy := {
  max_fee_sats : N;
  max_fee_rate_sat_vb : N;
  max_locktime : N;
  rbf : RbfPolicy;
}.

Definition psbt_lab_defaults : PsbtPolicy :=
  {| max_fee_sats := 50000; max_fee_rate_sat_vb := 250; max_locktime := 0; rbf := RbfAllow |}.

(** The parts of the [bitcoin] crate's [Psbt] the policy reads. An input pairs
    [unsigned_tx.input[i]] with [inputs[i]]: the crate keeps the two vectors equally long. *)
Record TxOut := { value : N; out_script : bytes }.
Record PsbtIn := {
  prev_vout : N;                          (** [previous_output.vout] *)
  sequence : N;                           (** [nSequence] *)
  witness_utxo : option TxOut;
  non_witness_utxo : option (list TxOut); (** outputs of the previous transaction *)
  tap_key_sig : option bytes;             (** key-path signature, default sighash type *)
}.
Record Psbt := {
  psbt_ins : list PsbtIn;
  psbt_outs : list TxOut;
  lock_time : N;                          (** consensus encoding; [LockTime::ZERO] is 0 *)
}.

(** BIP-125: [nSequence < 0xfffffffe] signals replaceability. *)
Definition is_rbf_signal (seq : N) : bool := seq <? 4294967294.

(** [tx.weight().to_wu()] of the [bitcoin] crate. *)
Class TxWeight := tx_weight : Psbt → N.

(** The value an input brings: the body of the first loop of [validate]. *)
Definition input_value (i : N) (p : PsbtIn) : res N :=
  match witness_utxo p with
  | Some utxo => Ok (value utxo)
  | None =>
      match non_witness_utxo p with
      | Some prev =>
          ok_or (value <$> prev !! N.to_nat (prev_vout p))
            (InvalidIntent (format "psbt input {} missing prevout value" [show i]))
      | None => Err (InvalidIntent (format "psbt input {} missing witness_utxo for fee policy" [show i]))
      end
  end.

Fixpoint sum_inputs (i acc : N) (ins : list PsbtIn) : res N :=
  match ins with
  | [] => Ok acc
  | p :: rest => v ← input_value i p; sum_inputs (i + 1) (sat_add64 acc v) rest
  end.

(** [iter().sum::<u64>()]: wraps in a release build. *)
Definition sum_outputs (outs : list TxOut) : N := foldl (λ acc o, wrap64 (acc + value o)) 0 outs.

Fixpoint check_rbf (policy : RbfPolicy) (i : N) (ins : list PsbtIn) : res unit :=
  match ins with
  | [] => Ok tt
  | p :: rest =>
      let signals_rbf := is_rbf_signal (sequence p) in
      match policy with
      | RbfRequire =>
          if negb signals_rbf
          then Err (InvalidIntent (format "psbt input {} must signal RBF (policy=require)" [show i]))
          else check_rbf policy (i + 1) rest
      | RbfForbid =>
          if signals_rbf
          then Err (InvalidIntent (format "psbt input {} RBF signalling forbidden" [show i]))
          else check_rbf policy (i + 1) rest
      | RbfAllow => check_rbf policy (i + 1) rest
      end
  end.

Section validate.
Context `{!TxWeight} (self : PsbtPolicy).

Definition psbt_validate (psbt : Psbt) : res unit :=
  in_sats ← sum_inputs 0 0 (psbt_ins psbt);
  let out_sats := sum_outputs (psbt_outs psbt) in
  if in_sats <? out_sats then Err (InvalidIntent "psbt outputs exceed inputs")
  else
    let fee := in_sats - out_sats in
    if max_fee_sats self <? fee
    then Err (InvalidIntent (format "psbt fee {} sats exceeds max_fee_sats {}"
                               [show fee; show (max_fee_sats self)]))
    else
      let vbytes := N.max (div_ceil (tx_weight psbt) 4) 1 in
      let fee_rate := fee / vbytes in
      if max_fee_rate_sat_vb self <? fee_rate
      then Err (InvalidIntent (format "psbt fee rate ~{} sat/vB exceeds max {}"
                                 [show fee_rate; show (max_fee_rate_sat_vb self)]))
      else
        _ ← (let raw := lock_time psbt in
             if raw =? 0 then Ok tt
             else if max_locktime self =? 0
                  then Err (InvalidIntent (format
                         "psbt locktime {} refused (policy requires LockTime::ZERO)" [show raw]))
                  else if max_locktime self <? raw
                       then Err (InvalidIntent (format "psbt locktime {} exceeds max {}"
                                                  [show raw; show (max_locktime self)]))
                       else Ok tt);
        check_rbf (rbf self) 0 (psbt_ins psbt).

Definition validate_independent (psbt : Psbt) (payment_script : bytes) (amount : N)
    (change_script : option bytes) : res unit :=
  _ ← psbt_validate psbt;
  let outputs := map (λ o, (out_script o, value o)) (psbt_outs psbt) in
  assert_outputs_match_intent payment_script amount change_script outputs.
End validate.

(* ------------------------------------------------------------------ *)
(** ** Properties *)

Lemma allowed_outputs pay change outputs :
  forallb (λ o, negb (foreign pay change o)) outputs = true
  ↔ ∀ o, o ∈ outputs → o.1 = pay ∨ change = Some o.1.
Proof.
  rewrite forallb_forall. unfold foreign.
  assert (∀ o : bytes * N, negb (negb (bool_decide (o.1 = pay)) && negb (bool_decide (Some o.1 = change))) = true
    ↔ (o.1 = pay ∨ change = Some o.1)) as Ho.
  { intros o. repeat case_bool_decide; simpl; naive_solver. }
  split; intros H o Hin; apply Ho, H; by apply list_elem_of_In.
Qed.

Lemma assert_outputs_sound pay amount change outputs :
  assert_outputs_match_intent pay amount change outputs = Ok tt →
  0 < amount ∧ payments pay outputs = [(pay, amount)] ∧ (∀ o, o ∈ outputs → o.1 = pay ∨ change = Some o.1).
Proof.
  unfold assert_outputs_match_intent. rewrite !guard_ok, bind_ok. nbool.
  intros (_ & H0 & b & Hm & Hb). rewrite guard_ok, negb_false_iff in Hb. destruct Hb as [-> _].
  apply match_outputs_ok in Hm as (Hf & Ha & Hl & Hn). rewrite allowed_outputs in Hf.
  split; [lia|]. split; [|done].
  symmetry in Hn. rewrite negb_true_iff, bool_decide_eq_false in Hn.
  assert (∀ o, o ∈ payments pay outputs → o.1 = pay) as Hp.
  { intros o Ho. by apply list_elem_of_filter in Ho as [? _]. }
  destruct (payments pay outputs) as [|[s v] [|]]; simpl in *; [done| |lia].
  apply Forall_cons in Ha as [Ha _]. simpl in Ha. specialize (Hp (s, v) ltac:(by left)).
  simpl in Hp. by subst.
Qed.

(** The output check admits a transaction exactly when the amount is positive, one and only one
    output pays the intent's script, that output pays exactly the intent's amount, and every other
    output pays the mesh change script; without a change script no other output is admitted. *)
Theorem assert_outputs_match_intent_spec pay amount change outputs :
  assert_outputs_match_intent pay amount change outputs = Ok tt ↔
  0 < amount ∧ filter (λ o, o.1 = pay) outputs = [(pay, amount)]
  ∧ (∀ o, o ∈ outputs → o.1 = pay ∨ change = Some o.1).
Proof.
  split; [apply assert_outputs_sound|]. intros (H0 & Hp & Hf).
  unfold assert_outputs_match_intent. rewrite !guard_ok, bind_ok. nbool. split.
  { intros ->. simpl in Hp. discriminate. }
  split; [lia|]. exists true. split; [|done]. apply match_outputs_ok. unfold payments. rewrite Hp.
  rewrite allowed_outputs. split; [done|]. split; [by constructor|]. split; [simpl; lia|done].
Qed.

Definition known_value (p : PsbtIn) : option N :=
  match witness_utxo p, non_witness_utxo p with
  | Some u, _ => Some (value u)
  | None, Some prev => value <$> prev !! N.to_nat (prev_vout p)
  | None, None => None
  end.

Lemma input_value_ok i p v : input_value i p = Ok v ↔ known_value p = Some v.
Proof.
  unfold input_value, known_value. destruct (witness_utxo p); [naive_solver|].
  destruct (non_witness_utxo p); [apply ok_or_ok|naive_solver].
Qed.

Lemma sum_inputs_ok i acc ins t : acc + sumN (λ p, default 0 (known_value p)) ins ≤ u64_max →
  sum_inputs i acc ins = Ok t ↔
  Forall (λ p, is_Some (known_value p)) ins ∧ t = acc + sumN (λ p, default 0 (known_value p)) ins.
Proof.
  revert i acc. induction ins as [|p ins IH]; intros i acc H; simpl in *.
  { rewrite N.add_0_r. naive_solver. }
  rewrite bind_ok, Forall_cons. split.
  - intros (v & Hv & Hs). rewrite input_value_ok in Hv. rewrite Hv in *. simpl in *.
    rewrite sat_add64_exact in Hs by lia. apply IH in Hs as [? ->]; [|lia]. eauto with lia.
  - intros [[[v Hv] Hf] ->]. rewrite Hv in *. simpl in *. exists v. rewrite input_value_ok.
    split; [done|]. rewrite sat_add64_exact by lia. apply IH; [lia|]. split; [done|lia].
Qed.

Lemma sum_outputs_exact outs : sumN value outs ≤ u64_max → sum_outputs outs = sumN value outs.
Proof.
  unfold sum_outputs. cut (∀ acc, acc + sumN value outs ≤ u64_max →
    foldl (λ acc o, wrap64 (acc + value o)) acc outs = acc + sumN value outs).
  { intros Hc H. by rewrite Hc by lia. }
  induction outs as [|o outs IH]; intros acc H; simpl in *; [lia|].
  rewrite wrap64_exact by lia. rewrite IH by lia. lia.
Qed.

Lemma check_rbf_ok policy i ins : check_rbf policy i ins = Ok tt ↔
  match policy with
  | RbfAllow => True
  | RbfRequire => Forall (λ p, is_rbf_signal (sequence p) = true) ins
  | RbfForbid => Forall (λ p, is_rbf_signal (sequence p) = false) ins
  end.
Proof.
  revert i. induction ins as [|p ins IH]; intros i; [by destruct policy|].
  simpl. destruct policy; rewrite ?guard_ok, ?negb_false_iff, IH, ?Forall_cons; done.
Qed.

Lemma lock_time_ok raw bound :
  (if raw =? 0 then Ok tt
   else if bound =? 0
        then Err (InvalidIntent (format "psbt locktime {} refused (policy requires LockTime::ZERO)" [show raw]))
        else if bound <? raw
             then Err (InvalidIntent (format "psbt locktime {} exceeds max {}" [show raw; show bound]))
             else Ok tt) = Ok tt
  ↔ raw = 0 ∨ (bound ≠ 0 ∧ raw ≤ bound).
Proof. destruct (raw =? 0) eqn:E; [nbool; naive_solver|]. rewrite !guard_ok. nbool. naive_solver. Qed.

Section validate_spec.
Context {W : TxWeight}.

Definition inputs_total (p : Psbt) : N := sumN (λ i, default 0 (known_value i)) (psbt_ins p).
Definition outputs_total (p : Psbt) : N := sumN value (psbt_outs p).

(** For totals below 2^64 sats the transaction policy admits a PSBT exactly when every input's
    value is known, inputs cover outputs, the fee is within the absolute cap, the fee per virtual
    byte (weight over four rounded up, at least 1) within the rate cap, the locktime is zero or
    both allowed and within its bound, and every input obeys the replaceability policy. *)
Theorem psbt_validate_spec self p :
  inputs_total p ≤ u64_max → outputs_total p ≤ u64_max →
  psbt_validate self p = Ok tt ↔
  Forall (λ i, is_Some (known_value i)) (psbt_ins p)
  ∧ outputs_total p ≤ inputs_total p
  ∧ inputs_total p - outputs_total p ≤ max_fee_sats self
  ∧ (inputs_total p - outputs_total p) / N.max (div_ceil (tx_weight p) 4) 1 ≤ max_fee_rate_sat_vb self
  ∧ (lock_time p = 0 ∨ (max_locktime self ≠ 0 ∧ lock_time p ≤ max_locktime self))
  ∧ match rbf self with
    | RbfAllow => True
    | RbfRequire => Forall (λ i, is_rbf_signal (sequence i) = true) (psbt_ins p)
    | RbfForbid => Forall (λ i, is_rbf_signal (sequence i) = false) (psbt_ins p)
    end.
Proof.
  intros Hi Ho. unfold psbt_validate. rewrite bind_ok, sum_outputs_exact by done.
  fold (outputs_total p). cbv zeta.
  assert (∀ t, sum_inputs 0 0 (psbt_ins p) = Ok t ↔
    Forall (λ i, is_Some (known_value i)) (psbt_ins p) ∧ t = inputs_total p) as Hin.
  { intros t. rewrite sum_inputs_ok; by rewrite N.add_0_l. }
  assert (∀ t, (t <? outputs_total p) = false ∧ (max_fee_sats self <? t - outputs_total p) = false
    ∧ (max_fee_rate_sat_vb self <? (t - outputs_total p) / N.max (div_ceil (tx_weight p) 4) 1) = false
    ↔ outputs_total p ≤ t ∧ t - outputs_total p ≤ max_fee_sats self
    ∧ (t - outputs_total p) / N.max (div_ceil (tx_weight p) 4) 1 ≤ max_fee_rate_sat_vb self) as Hg.
  { intros t. by nbool. }
  split.
  - intros (t & Ht & H). apply Hin in Ht as [Hf ->]. rewrite !guard_ok, bind_ok in H.
    destruct H as (H1 & H2 & H3 & [] & H4 & H5). rewrite lock_time_ok in H4. rewrite check_rbf_ok in H5.
    destruct (Hg (inputs_total p)) as [Hg' _]. destruct Hg' as (? & ? & ?); done.
  - intros (Hf & H1 & H2 & H3 & H4 & H5). exists (inputs_total p). split; [by apply Hin|].
    destruct (proj2 (Hg (inputs_total p))) as (G1 & G2 & G3); [done|]. rewrite !guard_ok, bind_ok.
    do 3 (split; [done|]). exists tt. by rewrite lock_time_ok, check_rbf_ok.
Qed.

Lemma psbt_validate_fee self p :
  inputs_total p ≤ u64_max → outputs_total p ≤ u64_max → psbt_validate self p = Ok tt →
  outputs_total p ≤ inputs_total p ≤ outputs_total p + max_fee_sats self.
Proof.
  intros Hi Ho Hv. unfold psbt_validate in Hv. rewrite bind_ok in Hv. destruct Hv as (t & Ht & Hv).
  rewrite sum_inputs_ok in Ht by (by rewrite N.add_0_l). rewrite N.add_0_l in Ht. destruct Ht as [_ ->].
  rewrite sum_outputs_exact in Hv by done. fold (inputs_total p) (outputs_total p) in Hv. cbv zeta in Hv.
  rewrite !guard_ok in Hv. destruct Hv as (H1 & H2 & _). nlia.
Qed.

Definition outs_of (p : Psbt) : list (bytes * N) := map (λ o, (out_script o, value o)) (psbt_outs p).
(** Value of the outputs that do not pay [pay]. *)
Definition change_total (pay : bytes) (p : Psbt) : N :=
  sumN snd (filter (λ o, o.1 ≠ pay) (outs_of p)).

Lemma sumN_split pay (l : list (bytes * N)) :
  sumN snd l = sumN snd (payments pay l) + sumN snd (filter (λ o, o.1 ≠ pay) l).
Proof.
  unfold payments. induction l as [|[s v] l IH]; [done|]. rewrite !filter_cons. simpl.
  destruct (decide (s = pay)), (decide (s ≠ pay)); try done; simpl; lia.
Qed.

Lemma outs_of_total p : sumN snd (outs_of p) = outputs_total p.
Proof. unfold outs_of, outputs_total. induction (psbt_outs p); simpl; lia. Qed.

(** What a vault signs after [validate_independent]: for totals below 2^64 sats, the inputs'
    value is the intent's amount, paid by exactly one output to the intent's script, plus outputs
    that all go to the mesh change script, plus a fee within the policy's cap. *)
Theorem validate_independent_accounts self p pay amount change :
  inputs_total p ≤ u64_max → outputs_total p ≤ u64_max →
  validate_independent self p pay amount change = Ok tt →
  (∃ fee, fee ≤ max_fee_sats self ∧ inputs_total p = amount + change_total pay p + fee)
  ∧ payments pay (outs_of p) = [(pay, amount)]
  ∧ (∀ o, o ∈ outs_of p → o.1 = pay ∨ change = Some o.1).
Proof.
  intros Hi Ho H. unfold validate_independent in H. rewrite bind_ok in H. destruct H as ([] & Hv & Hb).
  apply psbt_validate_fee in Hv; [|done|done]. fold (outs_of p) in Hb.
  apply assert_outputs_sound in Hb as (_ & Hp & Hf). split; [|done].
  pose proof (sumN_split pay (outs_of p)) as Hs. rewrite outs_of_total, Hp in Hs. simpl in Hs.
  fold (change_total pay p) in Hs.
  exists (inputs_total p - outputs_total p). lia.
Qed.
End validate_spec.

(** A one-input transaction: 10000 in, 9000 to the intent, 500 change, 500 fee. *)
Definition psbt_example : Psbt := {|
  psbt_ins := [{| prev_vout := 0; sequence := 4294967293;
                  witness_utxo := Some {| value := 10000; out_script := [] |}; non_witness_utxo := None; tap_key_sig := None |}];
  psbt_outs := [{| value := 9000; out_script := bytes_of "pay" |}; {| value := 500; out_script := bytes_of "mesh" |}];
  lock_time := 0;
|}.
#[local] Instance example_weight : TxWeight := λ _, 560.

Lemma psbt_validate_spec_witness :
  psbt_validate psbt_lab_defaults psbt_example = Ok tt
  ∧ psbt_validate {| max_fee_sats := 499; max_fee_rate_sat_vb := 250; max_locktime := 0; rbf := RbfAllow |}
      psbt_example ≠ Ok tt.
Proof.
  split.
  - apply psbt_validate_spec; [vm_compute; discriminate|vm_compute; discriminate|].
    split; [repeat constructor; eexists; reflexivity|]. vm_compute. repeat split; try discriminate. by left.
  - vm_compute. discriminate.
Defined.

Lemma validate_independent_accounts_witness :
  validate_independent psbt_lab_defaults psbt_example (bytes_of "pay") 9000 (Some (bytes_of "mesh")) = Ok tt
  ∧ payments (bytes_of "pay") (outs_of psbt_example) = [(bytes_of "pay", 9000)].
Proof.
  split; [vm_compute; reflexivity|].
  apply (validate_independent_accounts psbt_lab_defaults psbt_example (bytes_of "pay") 9000 (Some (bytes_of "mesh")));
    [vm_compute; discriminate|vm_compute; discriminate|vm_compute; reflexivity].
Defined.
