(* ===== verification/BucketLedger.v ===== *)
(** * The bucket ledger under its lock

    [InMemoryBucketLedger] of [adapters/bucket_memory.rs]: spend accounting,
    soft reservations with a time to live, and burned intent ids. Every method
    body runs under one mutex, so each is one command on [BucketState]. The
    monotonic clock readings a body makes are arguments, in seconds.

    [Spec] is what the component promises: pending and burned amounts per
    intent, with the day's spend their sum. *)
From S2P Require Import Prelude RustStr Errors Bucket.
Local Open Scope N_scope.

Record BucketState := {
  policies : gmap BucketKind BucketPolicy;
  spent_today : gmap BucketKind N;
  consumed : gset string;
  reserved : gmap string (BucketKind * N * N);  (** kind, amount, expiry *)
}.

Definition set_policies f (s : BucketState) : BucketState :=
  {| policies := f (policies s); spent_today := spent_today s; consumed := consumed s; reserved := reserved s |}.
Definition set_spent f (s : BucketState) : BucketState :=
  {| policies := policies s; spent_today := f (spent_today s); consumed := consumed s; reserved := reserved s |}.
Definition set_consumed f (s : BucketState) : BucketState :=
  {| policies := policies s; spent_today := spent_today s; consumed := f (consumed s); reserved := reserved s |}.
Definition set_reserved f (s : BucketState) : BucketState :=
  {| policies := policies s; spent_today := spent_today s; consumed := consumed s; reserved := f (reserved s) |}.

(** [DEFAULT_RESERVE_TTL]. *)
Definition default_reserve_ttl : N := 300.

Definition bucket_caps (k : BucketKind) (max_tx max_day : N) : N * N :=
  match k with
  | Users | Profit | Channels => (max_tx, max_day)
  | Miners => (max_tx / 10, max_day / 10)
  | Infra => (max_tx / 5, max_day / 5)
  end.

Definition from_constitution_caps (max_tx max_day : N) : BucketState :=
  let add m k :=
    let '(tx, day) := bucket_caps k max_tx max_day in
    <[k := policy_lab_defaults k (N.max tx 1) (N.max day 1)]> m in
  {| policies := foldl add ∅ [Users; Profit; Miners; Channels; Infra];
     spent_today := ∅; consumed := ∅; reserved := ∅ |}.

(** [*e = e.saturating_add(amount)] on the entry, and [saturating_sub] on an existing one. *)
Definition add_spent (k : BucketKind) (amount : N) (m : gmap BucketKind N) : gmap BucketKind N :=
  <[k := sat_add64 (default 0 (m !! k)) amount]> m.
Definition sub_spent (k : BucketKind) (amount : N) (m : gmap BucketKind N) : gmap BucketKind N :=
  alter (λ spent, sat_sub spent amount) k m.

(** The body of the loop of [sweep_expired]. *)
Definition sweep_one (s : BucketState) (id : string) : BucketState :=
  match reserved s !! id with
  | Some (kind, amount, _) => set_spent (sub_spent kind amount) (set_reserved (delete id) s)
  | None => s
  end.
Definition expired_ids (now : N) (s : BucketState) : list string :=
  (filter (λ p, (p.2.2 <=? now) = true) (map_to_list (reserved s))).*1.
Definition sweep_expired (now : N) (s : BucketState) : BucketState :=
  foldl sweep_one s (expired_ids now s).

Definition mem_admit_destinations (kind : BucketKind) (dests : list string) : dcmd BucketState unit :=
  g ← get;
  policy ← lift (ok_or (policies g !! kind) (InvalidBucket (bucket_str kind)));
  update (set_policies (<[kind := extend_destinations dests policy]>)).

(* ------------------------------------------------------------------ *)
(** ** The port's methods *)

Definition mem_policy (kind : BucketKind) : dcmd BucketState BucketPolicy :=
  g ← get; lift (ok_or (policies g !! kind) (InvalidBucket (bucket_str kind))).

Definition mem_spent_today (kind : BucketKind) : dcmd BucketState N :=
  g ← get; mret (default 0 (spent_today g !! kind)).

Definition mem_record_spend (kind : BucketKind) (amount : N) : dcmd BucketState unit :=
  update (set_spent (add_spent kind amount)).

Definition mem_is_consumed (id : string) : dcmd BucketState bool :=
  g ← get; mret (bool_decide (id ∈ consumed g)).

Definition mem_mark_consumed (id : string) : dcmd BucketState unit :=
  update (set_consumed ({[id]} ∪.)).

(** [reserved.remove(id); consumed.insert(id)]. *)
Definition burn (id : string) (s : BucketState) : BucketState :=
  set_consumed ({[id]} ∪.) (set_reserved (delete id) s).

Definition mem_try_consume (now : N) (id : string) : dcmd BucketState unit :=
  _ ← update (sweep_expired now);
  g ← get;
  if bool_decide (id ∈ consumed g) then fail (IntentReplay id) else update (burn id).

Definition mem_has_reservation (now : N) (id : string) : dcmd BucketState bool :=
  _ ← update (sweep_expired now);
  g ← get; mret (bool_decide (is_Some (reserved g !! id))).

(** [policies.get(..)], the spend so far, [validate(..)?], then the spend is held. *)
Definition check_and_hold (kind : BucketKind) (amount : N) (validate : BucketPolicy → N → res unit) :
    dcmd BucketState unit :=
  g ← get;
  policy ← lift (ok_or (policies g !! kind) (InvalidBucket (bucket_str kind)));
  _ ← lift (validate policy (default 0 (spent_today g !! kind)));
  update (set_spent (add_spent kind amount)).

(** [now'] is the second clock reading, for the expiry. *)
Definition mem_reserve_spend (now now' : N) (id : string) (kind : BucketKind) (amount : N)
    (validate : BucketPolicy → N → res unit) : dcmd BucketState unit :=
  _ ← update (sweep_expired now);
  g ← get;
  if bool_decide (id ∈ consumed g) then fail (IntentReplay id)
  else match reserved g !! id with
       | Some (k, amt, _) =>
           if bool_decide (k = kind) && (amt =? amount) then mret tt else fail (IntentReplay id)
       | None =>
           _ ← check_and_hold kind amount validate;
           update (set_reserved (<[id := (kind, amount, now' + default_reserve_ttl)]>))
       end.

Definition mem_commit_consume (now : N) (id : string) : dcmd BucketState unit :=
  _ ← update (sweep_expired now);
  g ← get;
  if bool_decide (id ∈ consumed g) then mret tt
  else if negb (bool_decide (is_Some (reserved g !! id))) then fail (ReservationMissing id)
  else update (burn id).

Definition mem_release_reservation (id : string) (kind : BucketKind) (amount : N) : dcmd BucketState unit :=
  g ← get;
  match reserved g !! id with
  | Some (k, amt, _) => update (λ s, set_spent (sub_spent k amt) (set_reserved (delete id) s))
  | None => update (set_spent (sub_spent kind amount))
  end.

Definition mem_authorize_spend_and_consume (now : N) (id : string) (kind : BucketKind) (amount : N)
    (validate : BucketPolicy → N → res unit) : dcmd BucketState unit :=
  _ ← update (sweep_expired now);
  g ← get;
  if bool_decide (id ∈ consumed g) || bool_decide (is_Some (reserved g !! id)) then fail (IntentReplay id)
  else
    _ ← check_and_hold kind amount validate;
    update (set_consumed ({[id]} ∪.)).

(* ------------------------------------------------------------------ *)
(** ** Calls, as values *)

Inductive op :=
| OpReserve (now now' : N) (id : string) (kind : BucketKind) (amount : N) (validate : BucketPolicy → N → res unit)
| OpCommit (now : N) (id : string)
| OpRelease (id : string) (kind : BucketKind) (amount : N)
| OpAuthorize (now : N) (id : string) (kind : BucketKind) (amount : N) (validate : BucketPolicy → N → res unit)
| OpTryConsume (now : N) (id : string)
| OpHasReservation (now : N) (id : string).

Definition exec_op (o : op) : dcmd BucketState unit :=
  match o with
  | OpReserve now now' id k a v => mem_reserve_spend now now' id k a v
  | OpCommit now id => mem_commit_consume now id
  | OpRelease id k a => mem_release_reservation id k a
  | OpAuthorize now id k a v => mem_authorize_spend_and_consume now id k a v
  | OpTryConsume now id => mem_try_consume now id
  | OpHasReservation now id => _ ← mem_has_reservation now id; mret tt
  end.

Definition run (ops : list op) (s : BucketState) : BucketState :=
  foldl (λ s o, (exec_op o s).1) s ops.

(* ------------------------------------------------------------------ *)
(** ** The specification: amounts pending and burned *)

Module Spec.

Record Ledger := {
  burned : gmap string (BucketKind * N);
  pending : gmap string (BucketKind * N);
}.

Definition amount_of (k : BucketKind) (p : BucketKind * N) : N := if decide (p.1 = k) then p.2 else 0.
Definition total (k : BucketKind) (m : gmap string (BucketKind * N)) : N :=
  sumN (λ p, amount_of k p.2) (map_to_list m).
(** Value spoken for in a bucket. *)
Definition held (k : BucketKind) (L : Ledger) : N := total k (burned L) + total k (pending L).

Definition fresh (id : string) (L : Ledger) : Prop := burned L !! id = None ∧ pending L !! id = None.

Inductive step (cap : BucketKind → N) : Ledger → Ledger → Prop :=
| step_drop id p L : pending L !! id = Some p →
    step cap L {| burned := burned L; pending := delete id (pending L) |}
| step_reserve id k a L : fresh id L → held k L + a ≤ cap k →
    step cap L {| burned := burned L; pending := <[id := (k, a)]> (pending L) |}
| step_burn id p L : pending L !! id = Some p → burned L !! id = None →
    step cap L {| burned := <[id := p]> (burned L); pending := delete id (pending L) |}
| step_spend id k a L : fresh id L → held k L + a ≤ cap k →
    step cap L {| burned := <[id := (k, a)]> (burned L); pending := pending L |}
| step_claim id L : fresh id L →
    step cap L {| burned := <[id := (Users, 0)]> (burned L); pending := pending L |}.

Lemma total_insert k m id p : m !! id = None → total k (<[id := p]> m) = amount_of k p + total k m.
Proof. intros H. unfold total. by rewrite map_to_list_insert. Qed.

Lemma total_delete k m id p : m !! id = Some p → total k m = amount_of k p + total k (delete id m).
Proof. intros H. unfold total. rewrite <- (map_to_list_delete m id p) by done. done. Qed.

Definition init : Ledger := {| burned := ∅; pending := ∅ |}.

(** No id is both pending and burned, and no bucket holds more than its cap. *)
Definition inv (cap : BucketKind → N) (L : Ledger) : Prop :=
  (∀ id, is_Some (pending L !! id) → burned L !! id = None) ∧ ∀ k, held k L ≤ cap k.

Lemma step_inv cap L L' : inv cap L → step cap L L' → inv cap L'.
Proof.
  intros [Hd Hc] Hs. split.
  - intros id' [q Hq]. destruct Hs as [id p L Hp|id k a L [Hb Hp] Ha|id p L Hp Hb|id k a L [Hb Hp] Ha|id L [Hb Hp]];
      simpl in *; rewrite ?lookup_delete_Some, ?lookup_insert_Some, ?lookup_insert_None in *; naive_solver.
  - intros k'. specialize (Hc k') as Hk.
    destruct Hs as [id p L Hp|id k a L [Hb Hp] Ha|id p L Hp Hb|id k a L [Hb Hp] Ha|id L [Hb Hp]];
      unfold held in *; simpl in *.
    + rewrite (total_delete k' _ _ _ Hp) in Hk. lia.
    + rewrite total_insert by done. unfold amount_of. simpl. case_decide; subst; lia.
    + rewrite total_insert by done. rewrite (total_delete k' _ _ _ Hp) in Hk. lia.
    + rewrite total_insert by done. unfold amount_of. simpl. case_decide; subst; lia.
    + rewrite total_insert by done. unfold amount_of. simpl. case_decide; lia.
Qed.

Lemma init_inv cap : inv cap init.
Proof.
  split; [intros id [? H]; simpl in H; by rewrite lookup_empty in H|].
  intros k. unfold held, total. simpl. rewrite map_to_list_empty. simpl. lia.
Qed.

(** Burned amounts are never taken back. *)
Lemma step_burned_mono cap L L' : step cap L L' → burned L ⊆ burned L'.
Proof.
  intros []; simpl; try done; apply insert_subseteq; unfold fresh in *; naive_solver.
Qed.
End Spec.

(* ------------------------------------------------------------------ *)
(** ** Refinement *)

Record refines (s : BucketState) (L : Spec.Ledger) : Prop := {
  rf_consumed : consumed s = dom (Spec.burned L);
  rf_reserved : fst <$> reserved s = Spec.pending L;
  rf_spent k : default 0 (spent_today s !! k) = Spec.held k L;
}.

(** The daily cap of a bucket; the port's fields are [u64]. *)
Definition day_cap (s : BucketState) (k : BucketKind) : N :=
  match policies s !! k with Some p => max_per_day_sats p | None => 0 end.
Definition policies_u64 (s : BucketState) : Prop :=
  map_Forall (λ _ p, max_per_day_sats p ≤ u64_max) (policies s).

(** A validation closure that enforces the daily cap, as the gate's does. *)
Definition enforces_cap (amount : N) (v : BucketPolicy → N → res unit) : Prop :=
  ∀ p spent, v p spent = Ok tt → spent + amount ≤ max_per_day_sats p.
(** How the calls are meant: closures enforce the cap, and a release names a live
    reservation (or rolls back nothing). *)
Definition disciplined (s : BucketState) (o : op) : Prop :=
  match o with
  | OpReserve _ _ _ _ a v | OpAuthorize _ _ _ a v => enforces_cap a v
  | OpRelease id _ a => is_Some (reserved s !! id) ∨ a = 0
  | _ => True
  end.

Lemma refines_fresh s L id : refines s L →
  id ∉ consumed s → reserved s !! id = None → Spec.fresh id L.
Proof.
  intros [Hc Hr _] Hn Hnone. split.
  - apply not_elem_of_dom. by rewrite <- Hc.
  - by rewrite <- Hr, lookup_fmap, Hnone.
Qed.

Lemma default_sub_spent k a m k' :
  default 0 (sub_spent k a m !! k') = if decide (k = k') then default 0 (m !! k') - a else default 0 (m !! k').
Proof.
  unfold sub_spent, sat_sub. destruct (decide (k = k')) as [->|Hk].
  - rewrite lookup_alter_eq. by destruct (m !! k').
  - by rewrite lookup_alter_ne.
Qed.

Lemma default_add_spent k a m k' :
  default 0 (add_spent k a m !! k') =
  if decide (k = k') then sat_add64 (default 0 (m !! k')) a else default 0 (m !! k').
Proof.
  unfold add_spent. destruct (decide (k = k')) as [->|Hk]; [by rewrite lookup_insert_eq|by rewrite lookup_insert_ne].
Qed.

Lemma drop_refines cap s L id k a e : refines s L → reserved s !! id = Some (k, a, e) →
  ∃ L', Spec.step cap L L' ∧ refines (set_spent (sub_spent k a) (set_reserved (delete id) s)) L'.
Proof.
  intros [Hc Hr Hs] Hid.
  assert (Spec.pending L !! id = Some (k, a)) as Hp by (by rewrite <- Hr, lookup_fmap, Hid).
  eexists. split; [by eapply Spec.step_drop|]. split; simpl; [done|by rewrite fmap_delete, Hr|].
  intros k'. rewrite default_sub_spent, Hs. unfold Spec.held. simpl.
  rewrite (Spec.total_delete k' _ _ _ Hp). unfold Spec.amount_of. simpl.
  destruct (decide (k = k')); lia.
Qed.

Lemma sweep_one_refines cap s L id : refines s L →
  ∃ L', steps (Spec.step cap) L L' ∧ refines (sweep_one s id) L'.
Proof.
  intros H. unfold sweep_one. destruct (reserved s !! id) as [[[k a] e]|] eqn:Hid.
  - destruct (drop_refines cap _ _ _ _ _ _ H Hid) as (L1 & H1 & HR1). eauto using steps_one.
  - eauto using steps_refl.
Qed.

Lemma sweep_one_frame s id : policies (sweep_one s id) = policies s ∧ consumed (sweep_one s id) = consumed s.
Proof. unfold sweep_one. by destruct (reserved s !! id) as [[[k a] e]|]. Qed.

Lemma sweep_frame now s :
  policies (sweep_expired now s) = policies s ∧ consumed (sweep_expired now s) = consumed s.
Proof.
  unfold sweep_expired. generalize (expired_ids now s) as ids. intros ids. revert s.
  induction ids as [|id ids IH]; intros s; [done|]. cbn [foldl].
  destruct (IH (sweep_one s id)) as [-> ->]. apply sweep_one_frame.
Qed.

(** Sweeping only drops reservations. *)
Lemma sweep_refines cap now s L : refines s L →
  ∃ L', steps (Spec.step cap) L L' ∧ refines (sweep_expired now s) L'.
Proof.
  unfold sweep_expired. generalize (expired_ids now s) as ids. intros ids. revert s L.
  induction ids as [|id ids IH]; intros s L H; cbn [foldl].
  { exists L. split; [apply steps_refl|done]. }
  destruct (sweep_one_refines cap s L id H) as (L1 & H1 & HR1).
  destruct (IH _ _ HR1) as (L2 & H2 & HR2). exists L2. eauto using steps_trans.
Qed.

Lemma check_and_hold_cases k a v s :
  let '(s', r) := check_and_hold k a v s in
  match r with
  | Ok _ => ∃ p, policies s !! k = Some p ∧ v p (default 0 (spent_today s !! k)) = Ok tt
                 ∧ s' = set_spent (add_spent k a) s
  | Err _ => s' = s
  end.
Proof.
  unfold check_and_hold. unfold_monad. unfold ok_or.
  destruct (policies s !! k) as [p|] eqn:Hp; [|done].
  destruct (v p _) as [[]|] eqn:Hv; [|done]. eauto.
Qed.

Lemma hold_spent s L k a p : refines s L → policies_u64 s → policies s !! k = Some p →
  default 0 (spent_today s !! k) + a ≤ max_per_day_sats p →
  Spec.held k L + a ≤ day_cap s k
  ∧ ∀ k', default 0 (add_spent k a (spent_today s) !! k') = Spec.held k' L + Spec.amount_of k' (k, a).
Proof.
  intros HR Hu Hp Ha. rewrite (rf_spent _ _ HR) in Ha. specialize (Hu _ _ Hp). simpl in Hu.
  split; [unfold day_cap; by rewrite Hp|]. intros k'.
  rewrite default_add_spent, (rf_spent _ _ HR). unfold Spec.amount_of. simpl.
  destruct (decide (k = k')) as [->|]; [|lia]. rewrite sat_add64_exact; lia.
Qed.

Lemma burn_refines cap s L id : refines s L → id ∉ consumed s →
  ∃ L', steps (Spec.step cap) L L' ∧ refines (burn id s) L'.
Proof.
  intros HR Hid. destruct (reserved s !! id) as [[[k a] e]|] eqn:Hr.
  - assert (Spec.pending L !! id = Some (k, a)) as Hp by (by rewrite <- (rf_reserved _ _ HR), lookup_fmap, Hr).
    assert (Spec.burned L !! id = None) as Hb by (apply not_elem_of_dom; by rewrite <- (rf_consumed _ _ HR)).
    eexists. split; [by eapply steps_one, Spec.step_burn|]. split; simpl.
    + rewrite dom_insert_L, (rf_consumed _ _ HR). done.
    + by rewrite fmap_delete, (rf_reserved _ _ HR).
    + intros k'. rewrite (rf_spent _ _ HR). unfold Spec.held. simpl.
      rewrite Spec.total_insert by done. rewrite (Spec.total_delete k' (Spec.pending L) _ _ Hp). lia.
  - eexists. pose proof (refines_fresh _ _ _ HR Hid Hr) as Hf.
    split; [by apply steps_one, Spec.step_claim|]. split; simpl.
    + rewrite dom_insert_L, (rf_consumed _ _ HR). done.
    + rewrite fmap_delete, (rf_reserved _ _ HR). apply delete_id, Hf.
    + intros k'. rewrite (rf_spent _ _ HR). unfold Spec.held. simpl.
      rewrite Spec.total_insert by apply Hf. unfold Spec.amount_of. simpl. case_decide; lia.
Qed.

(** The state a call leaves, case by case. *)
Lemma exec_post o s :
  let s1 := match o with
            | OpReserve now _ _ _ _ _ | OpCommit now _ | OpAuthorize now _ _ _ _
            | OpTryConsume now _ | OpHasReservation now _ => sweep_expired now s
            | OpRelease _ _ _ => s
            end in
  let s' := (exec_op o s).1 in
  s' = s1
  ∨ match o with
    | OpReserve now now' id k a v =>
        id ∉ consumed s1 ∧ reserved s1 !! id = None
        ∧ (∃ p, policies s1 !! k = Some p ∧ v p (default 0 (spent_today s1 !! k)) = Ok tt)
        ∧ s' = set_reserved (<[id := (k, a, now' + default_reserve_ttl)]>) (set_spent (add_spent k a) s1)
    | OpAuthorize now id k a v =>
        id ∉ consumed s1 ∧ reserved s1 !! id = None
        ∧ (∃ p, policies s1 !! k = Some p ∧ v p (default 0 (spent_today s1 !! k)) = Ok tt)
        ∧ s' = set_consumed ({[id]} ∪.) (set_spent (add_spent k a) s1)
    | OpCommit now id | OpTryConsume now id => id ∉ consumed s1 ∧ s' = burn id s1
    | OpRelease id k a =>
        match reserved s !! id with
        | Some (k', a', _) => s' = set_spent (sub_spent k' a') (set_reserved (delete id) s)
        | None => s' = set_spent (sub_spent k a) s
        end
    | OpHasReservation _ _ => False
    end.
Proof.
  destruct o as [now now' id k a v|now id|id k a|now id k a v|now id|now id]; cbn [exec_op];
    unfold mem_reserve_spend, mem_commit_consume, mem_release_reservation, mem_authorize_spend_and_consume,
      mem_try_consume, mem_has_reservation;
    cbv [mret mbind cmd_ret cmd_bind get update fail]; try (set (s1 := sweep_expired now s)).
  - case_bool_decide; [by left|]. destruct (reserved s1 !! id) as [[[k' a'] e]|] eqn:Hr.
    { case_match; by left. }
    pose proof (check_and_hold_cases k a v s1) as Hc. destruct (check_and_hold k a v s1) as [s2 [u|e]].
    + right. destruct Hc as (p & Hp & Hv & ->). simpl. eauto 6.
    + left. done.
  - case_bool_decide; [by left|]. destruct (negb _); [by left|]. by right.
  - right. destruct (reserved s !! id) as [[[k' a'] e]|]; done.
  - case_bool_decide; [by left|]. destruct (bool_decide (is_Some _)) eqn:Hr; [by left|].
    apply bool_decide_eq_false, eq_None_not_Some in Hr. simpl.
    pose proof (check_and_hold_cases k a v s1) as Hc. destruct (check_and_hold k a v s1) as [s2 [u|e]].
    + right. destruct Hc as (p & Hp & Hv & ->). simpl. eauto 6.
    + left. done.
  - case_bool_decide; [by left|]. by right.
  - by left.
Qed.

Lemma exec_refines o s L : refines s L → policies_u64 s → disciplined s o →
  ∃ L', steps (Spec.step (day_cap s)) L L' ∧ refines (exec_op o s).1 L'
    ∧ policies (exec_op o s).1 = policies s.
Proof.
  intros HR Hu Hd. pose proof (exec_post o s) as Hpost. cbv zeta in Hpost.
  set (s1 := match o with OpRelease _ _ _ => s | _ => _ end) in Hpost.
  assert (∃ L1, steps (Spec.step (day_cap s)) L L1 ∧ refines s1 L1 ∧ policies s1 = policies s)
    as (L1 & Hs1 & HR1 & Hp1).
  { destruct o; try (destruct (sweep_refines (day_cap s) now s L HR) as (L1 & ? & ?); exists L1;
      split; [done|]; split; [done|apply sweep_frame]).
    exists L. split; [apply steps_refl|done]. }
  clearbody s1. destruct Hpost as [->|Hpost]; [by exists L1|].
  destruct o as [now now' id k a v|now id|id k a|now id k a v|now id|now id]; [..|done].
  - destruct Hpost as (Hc & Hn & (p & Hp & Hv) & ->). pose proof (refines_fresh _ _ _ HR1 Hc Hn) as Hf.
    assert (policies_u64 s1) as Hu1 by (unfold policies_u64; by rewrite Hp1).
    destruct (hold_spent s1 L1 k a p HR1 Hu1 Hp (Hd _ _ Hv)) as [Hcap Hsp].
    eexists. split; [eapply steps_trans, steps_one, (Spec.step_reserve _ id k a); [done|done|]|].
    { unfold day_cap in *. by rewrite <- Hp1. }
    split; [split; simpl|done].
    + apply HR1.
    + by rewrite fmap_insert, (rf_reserved _ _ HR1).
    + intros k'. rewrite Hsp. unfold Spec.held. simpl. rewrite Spec.total_insert by apply Hf. lia.
  - destruct Hpost as [Hc ->]. destruct (burn_refines (day_cap s) s1 L1 id HR1 Hc) as (L2 & H2 & HR2).
    exists L2. split; [by eapply steps_trans|done].
  - destruct (reserved s !! id) as [[[k' a'] e]|] eqn:Hr; rewrite Hpost.
    + destruct (drop_refines (day_cap s) _ _ _ _ _ _ HR Hr) as (L2 & H2 & HR2). eauto using steps_one.
    + destruct Hd as [[? ?]| ->]; [congruence|]. exists L. split; [apply steps_refl|]. split; [|done].
      split; simpl; [apply HR..|]. intros k'. rewrite default_sub_spent, (rf_spent _ _ HR). case_decide; lia.
  - destruct Hpost as (Hc & Hn & (p & Hp & Hv) & ->). pose proof (refines_fresh _ _ _ HR1 Hc Hn) as Hf.
    assert (policies_u64 s1) as Hu1 by (unfold policies_u64; by rewrite Hp1).
    destruct (hold_spent s1 L1 k a p HR1 Hu1 Hp (Hd _ _ Hv)) as [Hcap Hsp].
    eexists. split; [eapply steps_trans, steps_one, (Spec.step_spend _ id k a); [done|done|]|].
    { unfold day_cap in *. by rewrite <- Hp1. }
    split; [split; simpl|done].
    + rewrite dom_insert_L, (rf_consumed _ _ HR1). done.
    + apply HR1.
    + intros k'. rewrite Hsp. unfold Spec.held. simpl. rewrite Spec.total_insert by apply Hf. lia.
  - destruct Hpost as [Hc ->]. destruct (burn_refines (day_cap s) s1 L1 id HR1 Hc) as (L2 & H2 & HR2).
    exists L2. split; [by eapply steps_trans|done].
Qed.

(* ------------------------------------------------------------------ *)
(** ** Replay *)

(** [o] claims [id] at [s]: a consume or authorize of that id that succeeds. *)
Definition claims (id : string) (o : op) (s : BucketState) : bool :=
  match o with
  | OpTryConsume _ i | OpAuthorize _ i _ _ _ => String.eqb i id && is_ok (exec_op o s).2
  | _ => false
  end.
Fixpoint count_claims (id : string) (ops : list op) (s : BucketState) : nat :=
  match ops with
  | [] => 0
  | o :: ops => (if claims id o s then 1 else 0) + count_claims id ops (exec_op o s).1
  end.

Lemma exec_consumed_mono o s : consumed s ⊆ consumed (exec_op o s).1.
Proof.
  pose proof (exec_post o s) as Hpost. cbv zeta in Hpost.
  set (s1 := match o with OpRelease _ _ _ => s | _ => _ end) in Hpost.
  assert (consumed s1 = consumed s) as Hc by (destruct o; try apply sweep_frame; done).
  clearbody s1. rewrite <- Hc. destruct Hpost as [->|Hpost]; [done|].
  destruct o as [now now' id k a v|now id|id k a|now id k a v|now id|now id]; [..|done];
    try (destruct Hpost as (_ & _ & _ & ->); simpl; set_solver);
    try (destruct Hpost as (_ & ->); simpl; set_solver).
  rewrite Hc. by destruct (reserved s !! id) as [[[k' a'] e]|]; rewrite Hpost.
Qed.

Lemma run_consumed_mono ops s : consumed s ⊆ consumed (run ops s).
Proof.
  revert s. induction ops as [|o ops IH]; intros s; [done|]. simpl.
  etrans; [apply exec_consumed_mono|apply IH].
Qed.

Lemma claims_spec id o s : claims id o s = true → id ∉ consumed s ∧ id ∈ consumed (exec_op o s).1.
Proof.
  destruct o as [| | |now i k a v|now i|]; try done; simpl;
    (destruct (String.eqb_spec i id) as [->|]; [|done]); simpl;
    unfold mem_authorize_spend_and_consume, mem_try_consume;
    cbv [mret mbind cmd_ret cmd_bind get update fail];
    pose proof (sweep_frame now s) as [_ Hf]; intros H.
  - destruct (bool_decide (id ∈ _)) eqn:Hc; [done|]. apply bool_decide_eq_false in Hc. rewrite Hf in Hc.
    split; [done|]. destruct (bool_decide (is_Some _)); [done|]. simpl in *.
    destruct (check_and_hold _ _ _ _) as [s' [u|e]]; [|done]. simpl. set_solver.
  - destruct (bool_decide (id ∈ _)) eqn:Hc; [done|]. apply bool_decide_eq_false in Hc. rewrite Hf in Hc.
    split; [done|]. simpl. set_solver.
Qed.

Lemma count_claims_consumed id ops s : id ∈ consumed s → count_claims id ops s = 0%nat.
Proof.
  revert s. induction ops as [|o ops IH]; intros s H; [done|]. simpl.
  destruct (claims id o s) eqn:E; [apply claims_spec in E as []; done|].
  apply IH. by apply exec_consumed_mono.
Qed.

(** Replay safety under the lock: over any sequence of calls whatever (reserve, commit, release,
    authorize, consume, with any arguments and clock readings), an intent id is claimed at most once,
    and never once it is burned. *)
Theorem claim_at_most_once id ops s :
  (count_claims id ops s ≤ 1)%nat ∧ (id ∈ consumed s → count_claims id ops s = 0%nat)
  ∧ consumed s ⊆ consumed (run ops s).
Proof.
  split; [|split; [apply count_claims_consumed|apply run_consumed_mono]].
  revert s. induction ops as [|o ops IH]; intros s; simpl; [lia|].
  destruct (claims id o s) eqn:E; [|apply IH].
  apply claims_spec in E as [_ E]. rewrite count_claims_consumed by done. lia.
Qed.

(* ------------------------------------------------------------------ *)
(** ** Accounting *)

Fixpoint disciplined_run (s : BucketState) (ops : list op) : Prop :=
  match ops with
  | [] => True
  | o :: ops => disciplined s o ∧ disciplined_run (exec_op o s).1 ops
  end.

Lemma run_refines ops s L : refines s L → policies_u64 s → disciplined_run s ops →
  ∃ L', steps (Spec.step (day_cap s)) L L' ∧ refines (run ops s) L' ∧ policies (run ops s) = policies s.
Proof.
  revert s L. induction ops as [|o ops IH]; intros s L HR Hu Hd; simpl.
  { exists L. split; [apply steps_refl|done]. }
  destruct Hd as [Hd Hds]. destruct (exec_refines o s L HR Hu Hd) as (L1 & H1 & HR1 & Hp1).
  destruct (IH (exec_op o s).1 L1) as (L2 & H2 & HR2 & Hp2); [done|by unfold policies_u64; rewrite Hp1|done|].
  exists L2. split; [|split; [done|by rewrite Hp2]].
  assert (day_cap (exec_op o s).1 = day_cap s) as Hcap by (unfold day_cap; by rewrite Hp1).
  rewrite Hcap in H2. by eapply steps_trans.
Qed.


Lemma initial_refines max_tx max_day : refines (from_constitution_caps max_tx max_day) Spec.init.
Proof. split; [simpl; by rewrite dom_empty_L|simpl; by rewrite fmap_empty|intros k; reflexivity]. Qed.

Lemma initial_policies max_tx max_day k : policies (from_constitution_caps max_tx max_day) !! k =
  Some (let '(tx, day) := bucket_caps k max_tx max_day in policy_lab_defaults k (N.max tx 1) (N.max day 1)).
Proof. by destruct k. Qed.

Lemma initial_u64 max_tx max_day : max_day ≤ u64_max → policies_u64 (from_constitution_caps max_tx max_day).
Proof.
  intros H k p. rewrite initial_policies. unfold u64_max in *.
  assert (max_day / 10 ≤ max_day) by (apply N.Div0.div_le_upper_bound; lia).
  assert (max_day / 5 ≤ max_day) by (apply N.Div0.div_le_upper_bound; lia).
  destruct k; intros [= <-]; simpl; lia.
Qed.


(** A closure that checks the daily cap only. *)
Definition strict_check (amount : N) (p : BucketPolicy) (spent : N) : res unit :=
  if max_per_day_sats p <? spent + amount
  then Err (CapExceeded amount (max_per_day_sats p) "per_day") else Ok tt.

Lemma strict_check_enforces a : enforces_cap a (strict_check a).
Proof. intros p spent. unfold strict_check. rewrite guard_ok, N.ltb_ge. tauto. Qed.

Definition example_ops : list op :=
  [OpReserve 0 0 "a" Users 600 (strict_check 600); OpCommit 10 "a"; OpReserve 11 11 "b" Users 100 (strict_check 100);
   OpRelease "b" Users 100; OpAuthorize 20 "c" Users 400 (strict_check 400)].



(** Without the discipline the caps do not hold: a release after the commit (its amount is the
    caller's) takes the burned value back out of [spent_today]. *)
Lemma release_after_commit_frees_cap :
  let ops := [OpReserve 0 0 "a" Users 1000 (strict_check 1000); OpCommit 1 "a"; OpRelease "a" Users 1000;
              OpAuthorize 2 "b" Users 1000 (strict_check 1000)] in
  let s := run ops (from_constitution_caps 1000 1000) in
  consumed s = {["a"; "b"]} ∧ spent_today s !! Users = Some 1000.
Proof. split; vm_compute; reflexivity. Qed.

(** A reservation that expired was already rolled back by the sweep; its release rolls back again. *)
Lemma release_after_sweep_rolls_back_twice :
  let ops := [OpAuthorize 0 "x" Users 500 (strict_check 500); OpReserve 0 0 "a" Users 500 (strict_check 500);
              OpHasReservation 300 "a"; OpRelease "a" Users 500] in
  let s := run ops (from_constitution_caps 1000 1000) in
  consumed s = {["x"]} ∧ spent_today s !! Users = Some 0.
Proof. split; vm_compute; reflexivity. Qed.

(* ------------------------------------------------------------------ *)
(** ** Time to live *)

Lemma sweep_one_reserved s id id' :
  reserved (sweep_one s id) !! id' = if decide (id = id') then None else reserved s !! id'.
Proof.
  unfold sweep_one. destruct (reserved s !! id) as [[[k a] e]|] eqn:Hid; simpl;
    destruct (decide (id = id')) as [<-|Hne]; [by rewrite lookup_delete_eq|by rewrite lookup_delete_ne|done|done].
Qed.

(** A sweep removes the expired reservations and keeps the others. *)
Lemma sweep_reserved now s id :
  reserved (sweep_expired now s) !! id =
  match reserved s !! id with
  | Some (k, a, e) => if e <=? now then None else Some (k, a, e)
  | None => None
  end.
Proof.
  assert (∀ ids s, reserved (foldl sweep_one s ids) !! id
    = if decide (id ∈ ids) then None else reserved s !! id) as Hf.
  { clear s. induction ids as [|i ids IH]; intros s; cbn [foldl].
    { destruct (decide _) as [H|]; [by apply elem_of_nil in H|done]. }
    rewrite IH, sweep_one_reserved. repeat case_decide; set_solver. }
  unfold sweep_expired. rewrite Hf. unfold expired_ids.
  destruct (reserved s !! id) as [[[k a] e]|] eqn:Hid; case_decide as Hin; try done.
  - apply list_elem_of_fmap in Hin as ([i p] & -> & Hin).
    apply list_elem_of_filter in Hin as [He Hin]. apply elem_of_map_to_list in Hin. simpl in *.
    rewrite Hid in Hin. simplify_eq/=. by rewrite He.
  - destruct (e <=? now) eqn:He; [|done]. destruct Hin. apply list_elem_of_fmap.
    exists (id, (k, a, e)). split; [done|]. apply list_elem_of_filter. split; [done|]. by apply elem_of_map_to_list.
Qed.

(** Two-phase reservation: a new reservation made at clock [now'] can be committed until, and only
    until, 300 seconds later. Before that the commit succeeds, burns the id and keeps the spend; from
    then on the commit fails with [ReservationMissing], the id is not burned, and it is no longer
    reserved. *)
Theorem reserve_then_commit now now' id k a v s s1 now2 :
  reserved (sweep_expired now s) !! id = None →
  mem_reserve_spend now now' id k a v s = (s1, Ok tt) →
  let '(s2, r) := mem_commit_consume now2 id s1 in
  if now2 <? now' + default_reserve_ttl
  then r = Ok tt ∧ id ∈ consumed s2 ∧ reserved s2 !! id = None
  else r = Err (ReservationMissing id) ∧ id ∉ consumed s2 ∧ reserved s2 !! id = None.
Proof.
  intros Hn. unfold mem_reserve_spend, mem_commit_consume. cbv [mret mbind cmd_ret cmd_bind get update fail].
  case_bool_decide as Hc; [done|]. rewrite Hn.
  pose proof (check_and_hold_cases k a v (sweep_expired now s)) as Hh.
  destruct (check_and_hold _ _ _ _) as [s' [u|e]]; [|done]. destruct Hh as (p & Hp & Hv & ->).
  intros [= <-]. set (s3 := set_reserved _ _).
  assert (consumed (sweep_expired now2 s3) = consumed (sweep_expired now s)) as Hc2.
  { destruct (sweep_frame now2 s3) as [_ ->]. done. }
  rewrite Hc2, (bool_decide_false (id ∈ _)) by done.
  assert (reserved (sweep_expired now2 s3) !! id
    = if now' + default_reserve_ttl <=? now2 then None else Some (k, a, now' + default_reserve_ttl)) as Hr.
  { rewrite sweep_reserved. unfold s3. simpl. by rewrite lookup_insert_eq. }
  rewrite Hr. destruct (now2 <? now' + default_reserve_ttl) eqn:E.
  - apply N.ltb_lt in E. destruct (N.leb_spec (now' + default_reserve_ttl) now2); [lia|].
    rewrite bool_decide_true by eauto. simpl. split; [done|]. split; [set_solver|apply lookup_delete_eq].
  - apply N.ltb_ge in E. destruct (N.leb_spec (now' + default_reserve_ttl) now2); [|lia].
    rewrite bool_decide_false by (by intros [? ?]). simpl. rewrite Hc2, Hr. done.
Qed.

Lemma reserve_then_commit_witness :
  ∃ s1, mem_reserve_spend 5 6 "a" Users 600 (strict_check 600) (from_constitution_caps 1000 1000) = (s1, Ok tt)
    ∧ (mem_commit_consume 305 "a" s1).2 = Ok tt
    ∧ (let '(s2, r) := mem_commit_consume 306 "a" s1 in
       r = Err (ReservationMissing "a") ∧ "a" ∉ consumed s2 ∧ reserved s2 !! "a" = None).
Proof.
  eexists. split; [vm_compute; reflexivity|]. split; [vm_compute; reflexivity|].
  eapply (reserve_then_commit 5 6 "a" Users 600 (strict_check 600) (from_constitution_caps 1000 1000) _ 306);
    vm_compute; reflexivity.
Defined.
