(* ===== verification/PersistedLedger.v ===== *)
(** * The durable bucket ledger

    [PersistedBucketLedger] of [adapters/bucket_memory.rs]: burned intent ids
    are appended to a log file that is read back at boot. A method takes the
    mutex, drops it for the file append and takes it again, so a method is a
    sequence of atomic sections; [Threads] runs any number of them interleaved. *)
From S2P Require Import Prelude RustStr Errors Bucket BucketLedger.
Local Open Scope N_scope.

(* ------------------------------------------------------------------ *)
(** ** The log file: [BufRead::lines] and the boot hydrate *)

Definition newline : ascii := Ascii.ascii_of_N 10.

Fixpoint split_nl (l : bytes) : list bytes :=
  match l with
  | [] => [[]]
  | c :: r =>
      if Ascii.eqb c newline then [] :: split_nl r
      else match split_nl r with
           | h :: t => (c :: h) :: t
           | [] => [[c]]
           end
  end.
Definition strip_cr (l : bytes) : bytes :=
  match last l with
  | Some c => if Ascii.eqb c (Ascii.ascii_of_N 13) then removelast l else l
  | None => l
  end.
(** [lines()]: a final piece without newline counts when it is not empty. *)
Definition lines (l : bytes) : list bytes :=
  let ps := split_nl l in
  map strip_cr (removelast ps) ++ match last ps with Some [] | None => [] | Some p => [p] end.

(** The ids [load_consumed_into] inserts. *)
Definition log_ids (content : bytes) : list string :=
  filter (λ id, negb (str_len id =? 0) && negb (starts_with "#" id) = true)
    (map (λ l, trim (str_of l)) (lines content)).

Definition load_consumed_into (content : bytes) (s : BucketState) : BucketState :=
  foldl (λ s id, set_consumed ({[id]} ∪.) s) s (log_ids content).

(** The ledger: memory under the mutex and the file ([None]: absent). *)
Record PState := { mem : BucketState; log : option bytes }.
Definition set_mem f (p : PState) : PState := {| mem := f (mem p); log := log p |}.
Definition write (b : bytes) (p : PState) : PState := {| mem := mem p; log := Some (default [] (log p) ++ b) |}.

Definition persisted_open (file : option bytes) (max_tx max_day : N) : PState :=
  let inner := from_constitution_caps max_tx max_day in
  {| mem := match file with Some content => load_consumed_into content inner | None => inner end; log := file |}.

(* ------------------------------------------------------------------ *)
(** ** Sections and methods *)

(** How an append ends: the error the operating system reports and, for a failed write, how many
    bytes reached the file before it. *)
Inductive Io := IoOk | IoOpenErr (e : string) | IoWriteErr (n : nat) (e : string) | IoSyncErr (e : string).

Definition append_consumed (io : Io) (id : string) : dcmd PState unit :=
  let line := bytes_of id ++ [newline] in
  match io with
  | IoOk => update (write line)
  | IoOpenErr e => fail (ThresholdError (format "intent-consume append: {}" [e]))
  | IoWriteErr n e =>
      _ ← update (write (take n line)); fail (ThresholdError (format "intent-consume write: {}" [e]))
  | IoSyncErr e => _ ← update (write line); fail (ThresholdError (format "intent-consume sync: {}" [e]))
  end.

(** First locked section: is the id burned? *)
Definition seen (id : string) : dcmd PState bool := p ← get; mret (bool_decide (id ∈ consumed (mem p))).
(** Last locked section: burn, unless another thread did; [true] when the race is lost. *)
Definition insert_burned (id : string) : dcmd PState bool :=
  p ← get;
  if bool_decide (id ∈ consumed (mem p)) then mret true
  else _ ← update (set_mem (burn id)); mret false.

Definition persisted_try_consume (io : Io) (id : string) : dcmd PState unit :=
  already ← seen id;
  if (already : bool) then fail (IntentReplay id)
  else
    _ ← append_consumed io id;
    lost ← insert_burned id;
    if (lost : bool) then fail (IntentReplay id) else mret tt.

(** [Ok true]: already present. *)
Definition prepare_consume (io : Io) (id : string) : dcmd PState bool :=
  already ← seen id;
  if (already : bool) then mret true
  else
    _ ← append_consumed io id;
    insert_burned id.

Definition locked {A} (c : dcmd BucketState A) : dcmd PState A := zoom mem (λ m p, set_mem (λ _, m) p) c.

Definition prepare_soft (now now' : N) (id : string) : dcmd PState bool := locked (
  _ ← update (sweep_expired now);
  g ← get;
  if bool_decide (id ∈ consumed g) || bool_decide (is_Some (reserved g !! id)) then mret true
  else
    _ ← update (set_reserved (<[id := (Users, 0, now' + default_reserve_ttl)]>));
    mret false).

Definition persisted_has_reservation (now : N) (id : string) : dcmd PState bool :=
  locked (mem_has_reservation now id).

(** The locked check of [commit_consume]: [true] for the idempotent retry. *)
Definition commit_check (now : N) (id : string) : dcmd BucketState bool :=
  _ ← update (sweep_expired now);
  g ← get;
  if bool_decide (id ∈ consumed g) then mret true
  else if negb (bool_decide (is_Some (reserved g !! id))) then fail (ReservationMissing id)
  else mret false.

Definition persisted_commit_consume (now : N) (io : Io) (id : string) : dcmd PState unit :=
  retry ← locked (commit_check now id);
  if (retry : bool) then mret tt else persisted_try_consume io id.

Definition persisted_reserve_spend now now' id kind amount validate : dcmd PState unit :=
  locked (mem_reserve_spend now now' id kind amount validate).
Definition persisted_release_reservation id kind amount : dcmd PState unit :=
  locked (mem_release_reservation id kind amount).

(** The locked section of [authorize_spend_and_consume]: no sweep, no look at the reservations. *)
Definition authorize_hold (id : string) (kind : BucketKind) (amount : N)
    (validate : BucketPolicy → N → res unit) : dcmd BucketState unit :=
  g ← get;
  if bool_decide (id ∈ consumed g) then fail (IntentReplay id)
  else
    _ ← check_and_hold kind amount validate;
    update (set_consumed ({[id]} ∪.)).
Definition authorize_rollback (id : string) (kind : BucketKind) (amount : N) (s : BucketState) : BucketState :=
  set_spent (sub_spent kind amount) (set_consumed (.∖ {[id]}) s).

(** [append_consumed], with the in-memory claim undone when the disk fails. *)
Definition append_or_rollback (io : Io) (id : string) (kind : BucketKind) (amount : N) : dcmd PState unit :=
  λ p, match append_consumed io id p with
       | (p', Err e) => (set_mem (authorize_rollback id kind amount) p', Err e)
       | (p', Ok _) => (p', Ok tt)
       end.

Definition persisted_authorize (io : Io) (id : string) (kind : BucketKind) (amount : N)
    (validate : BucketPolicy → N → res unit) : dcmd PState unit :=
  _ ← locked (authorize_hold id kind amount validate);
  append_or_rollback io id kind amount.

Lemma append_consumed_mem io id p : mem (append_consumed io id p).1 = mem p.
Proof. by destruct io. Qed.

(* ------------------------------------------------------------------ *)
(** ** Interleaved threads *)

Module Threads.

(** Where a thread is: before the section its name says. The append is two writes to the file, the
    id and then the newline, since [writeln!] on an unbuffered file writes its pieces one by one. *)
Inductive pc :=
| CommitCheck (now : N) (id : string)
| ConsumeCheck (id : string)
| ConsumeWrite (id : string)
| ConsumeNewline (id : string)
| ConsumeInsert (id : string)
| AuthHold (id : string) (k : BucketKind) (a : N) (v : BucketPolicy → N → res unit)
| AuthWrite (id : string) (k : BucketKind) (a : N)
| AuthNewline (id : string) (k : BucketKind) (a : N)
| AuthRollback (id : string) (k : BucketKind) (a : N) (e : DomainError)
| Won (id : string)        (** returned success with a fresh burn *)
| Repeated (id : string)   (** idempotent success of a commit retry *)
| Failed (id : string) (e : DomainError).

(** One section of one thread. A file step may also fail, having written a part. *)
Inductive tstep (p : PState) : pc → PState → pc → Prop :=
| t_commit_retry now id p' : locked (commit_check now id) p = (p', Ok true) →
    tstep p (CommitCheck now id) p' (Repeated id)
| t_commit_go now id p' : locked (commit_check now id) p = (p', Ok false) →
    tstep p (CommitCheck now id) p' (ConsumeCheck id)
| t_commit_err now id p' e : locked (commit_check now id) p = (p', Err e) →
    tstep p (CommitCheck now id) p' (Failed id e)
| t_check_seen id : id ∈ consumed (mem p) → tstep p (ConsumeCheck id) p (Failed id (IntentReplay id))
| t_check_new id : id ∉ consumed (mem p) → tstep p (ConsumeCheck id) p (ConsumeWrite id)
| t_write id : tstep p (ConsumeWrite id) (write (bytes_of id) p) (ConsumeNewline id)
| t_open_err id e : tstep p (ConsumeWrite id) p (Failed id e)
| t_write_err id n e : tstep p (ConsumeWrite id) (write (take n (bytes_of id)) p) (Failed id e)
| t_newline id : tstep p (ConsumeNewline id) (write [newline] p) (ConsumeInsert id)
| t_newline_err id b e : (b = [] ∨ b = [newline]) → tstep p (ConsumeNewline id) (write b p) (Failed id e)
| t_insert_lost id p' : insert_burned id p = (p', Ok true) →
    tstep p (ConsumeInsert id) p' (Failed id (IntentReplay id))
| t_insert_won id p' : insert_burned id p = (p', Ok false) → tstep p (ConsumeInsert id) p' (Won id)
| t_hold id k a v p' : locked (authorize_hold id k a v) p = (p', Ok tt) →
    tstep p (AuthHold id k a v) p' (AuthWrite id k a)
| t_hold_err id k a v p' e : locked (authorize_hold id k a v) p = (p', Err e) →
    tstep p (AuthHold id k a v) p' (Failed id e)
| t_awrite id k a : tstep p (AuthWrite id k a) (write (bytes_of id) p) (AuthNewline id k a)
| t_aopen_err id k a e : tstep p (AuthWrite id k a) p (AuthRollback id k a e)
| t_awrite_err id k a n e :
    tstep p (AuthWrite id k a) (write (take n (bytes_of id)) p) (AuthRollback id k a e)
| t_anewline id k a : tstep p (AuthNewline id k a) (write [newline] p) (Won id)
| t_anewline_err id k a b e : (b = [] ∨ b = [newline]) →
    tstep p (AuthNewline id k a) (write b p) (AuthRollback id k a e)
| t_rollback id k a e :
    tstep p (AuthRollback id k a e) (set_mem (authorize_rollback id k a) p) (Failed id e).

Definition Config : Type := PState * list pc.

Inductive step : Config → Config → Prop :=
| step_thread p i c p' c' ts : ts !! i = Some c → tstep p c p' c' → step (p, ts) (p', <[i := c']> ts)
| step_spawn p ts c : match c with
                      | CommitCheck _ _ | ConsumeCheck _ | AuthHold _ _ _ _ => True
                      | _ => False
                      end → step (p, ts) (p, ts ++ [c])
| step_other p ts o : match o with
                      | OpReserve _ _ _ _ _ _ | OpRelease _ _ _ | OpHasReservation _ _ => True
                      | _ => False
                      end → step (p, ts) (set_mem (λ m, (exec_op o m).1) p, ts).

(** Threads that returned a fresh success for [id], and authorizations of [id] that hold it. *)
Definition won (id : string) (c : pc) : N := match c with Won i => if String.eqb i id then 1 else 0 | _ => 0 end.
Definition holds (id : string) (c : pc) : N :=
  match c with
  | AuthWrite i _ _ | AuthNewline i _ _ | AuthRollback i _ _ _ => if String.eqb i id then 1 else 0
  | _ => 0
  end.
Definition claim (id : string) (c : pc) : N := won id c + holds id c.

Definition inv (id : string) (cfg : Config) : Prop :=
  sumN (claim id) cfg.2 ≤ 1 ∧ (0 < sumN (claim id) cfg.2 → id ∈ consumed (mem cfg.1)).

Lemma sumN_insert f (l : list pc) i c c' : l !! i = Some c →
  sumN f (<[i := c']> l) + f c = sumN f l + f c'.
Proof.
  revert i. induction l as [|x l IH]; intros [|i] H; simpl in *; try done; [simplify_eq; lia|].
  specialize (IH i H). lia.
Qed.

Lemma locked_frame {A} (c : dcmd BucketState A) p p' r :
  locked c p = (p', r) → (c (mem p)) = (mem p', r) ∧ log p' = log p.
Proof. unfold locked, zoom. destruct (c (mem p)) as [m r'] eqn:E. intros [= <- <-]. done. Qed.

Lemma commit_check_frame now id s s' r : commit_check now id s = (s', r) → consumed s' = consumed s.
Proof.
  unfold commit_check. cbv [mret mbind cmd_ret cmd_bind get update fail].
  pose proof (sweep_frame now s) as [_ Hf]. intros H. rewrite <- Hf.
  repeat case_match; by simplify_eq.
Qed.

Lemma authorize_hold_cases id k a v s s' r : authorize_hold id k a v s = (s', r) →
  match r with
  | Ok _ => id ∉ consumed s ∧ s' = set_consumed ({[id]} ∪.) (set_spent (add_spent k a) s)
            ∧ ∃ p, policies s !! k = Some p ∧ v p (default 0 (spent_today s !! k)) = Ok tt
  | Err _ => s' = s
  end.
Proof.
  unfold authorize_hold. cbv [mret mbind cmd_ret cmd_bind get update fail].
  case_bool_decide as Hc; [by intros [= <- <-]|].
  pose proof (check_and_hold_cases k a v s) as Hh. destruct (check_and_hold k a v s) as [s2 [u|e]].
  - destruct Hh as (p & Hp & Hv & ->). intros [= <- <-]. eauto.
  - subst. by intros [= <- <-].
Qed.

(** What one section does to the claims of [id]. *)
Lemma tstep_claim id p c p' c' : tstep p c p' c' →
  (claim id c' = claim id c ∧ (id ∈ consumed (mem p) → id ∈ consumed (mem p')))
  ∨ (claim id c = 0 ∧ claim id c' = 1 ∧ id ∉ consumed (mem p) ∧ id ∈ consumed (mem p'))
  ∨ (claim id c = 1 ∧ claim id c' = 0).
Proof.
  unfold claim. intros Hs.
  destruct Hs as [now i p' H|now i p' H|now i p' e H|i H|i H|i|i e|i n e|i|i b e Hb|i p' H|i p' H
    |i k a v p' H|i k a v p' e H|i k a|i k a e|i k a n e|i k a|i k a b e Hb|i k a e]; simpl;
    try (by left); try (destruct (String.eqb_spec i id) as [->|Hne]; [|]); try (by left);
    try (apply locked_frame in H as [H _]; apply commit_check_frame in H; left; split; [done|by rewrite H]);
    try (unfold insert_burned in H; cbv [mret mbind cmd_ret cmd_bind get update] in H;
         case_bool_decide; simplify_eq; simpl; set_solver);
    try (apply locked_frame in H as [H _]; apply authorize_hold_cases in H; simpl in H).
  - right; left. destruct H as (? & -> & _). simpl. set_solver.
  - left. destruct H as (? & -> & _). simpl. set_solver.
  - left. by rewrite H.
  - left. by rewrite H.
  - by right; right.
  - left. simpl. set_solver.
Qed.

Lemma pool_inv id cfg cfg' : inv id cfg → step cfg cfg' → inv id cfg'.
Proof.
  intros [H1 H2] Hs. destruct Hs as [p i c p' c' ts Hi Ht|p ts c Hc|p ts o Ho]; unfold inv in *; simpl in *.
  - pose proof (sumN_insert (claim id) ts i c c' Hi) as Hsum.
    destruct (tstep_claim id _ _ _ _ Ht) as [[Hq Hm]|[(Hq1 & Hq2 & Hn & Hm)|[Hq1 Hq2]]].
    + split; [lia|]. intros ?. apply Hm, H2. lia.
    + assert (sumN (claim id) ts = 0) by (destruct (decide (0 < sumN (claim id) ts)); [tauto|lia]).
      split; [lia|done].
    + split; lia.
  - rewrite sumN_app. simpl. assert (claim id c = 0) as -> by (by destruct c). split; [lia|].
    intros ?. apply H2. lia.
  - split; [done|]. intros Hp. by apply exec_consumed_mono, H2.
Qed.

(** Mutual exclusion of claims: from boot, under any interleaving of the locked sections and file
    writes of any number of threads that consume, commit or authorize intents, with file errors at any
    point and reservations, releases and sweeps in between, at most one thread ever returns a fresh
    success for an id; and while one has, the id is burned in memory. *)
Theorem one_winner p ts id :
  steps step (p, []) ts → sumN (won id) ts.2 ≤ 1 ∧ (0 < sumN (won id) ts.2 → id ∈ consumed (mem ts.1)).
Proof.
  intros Hs. assert (inv id ts) as [H1 H2].
  { apply (steps_invariant step (inv id)) in Hs; [done|intros; by eapply pool_inv|].
    split; simpl; lia. }
  assert (∀ l, sumN (won id) l ≤ sumN (claim id) l) as Hle.
  { induction l as [|c l IH]; simpl; [lia|]. unfold claim at 1. lia. }
  specialize (Hle ts.2). split; [lia|]. intros ?. apply H2. lia.
Qed.

Lemma run_sections c c1 p p1 c2 p2 : tstep p c p1 c1 → steps step (p1, [c1]) (p2, [c2]) →
  steps step (p, [c]) (p2, [c2]).
Proof. intros H1 H2. eapply steps_cons; [|exact H2]. by apply (step_thread p 0 c p1 c1 [c]). Qed.

(** A method called alone is its sections run one after the other: [try_consume] with any outcome
    of the file operations is a run of a thread that starts at [ConsumeCheck] and ends won exactly when
    the method returns [Ok], or failed with the method's error. *)
Theorem try_consume_is_thread io id p p' r :
  persisted_try_consume io id p = (p', r) →
  ∃ c', steps step (p, [ConsumeCheck id]) (p', [c'])
    ∧ match r with Ok _ => c' = Won id | Err e => c' = Failed id e end.
Proof.
  unfold persisted_try_consume, seen. cbv [mret mbind cmd_ret cmd_bind get update fail].
  case_bool_decide as Hc.
  { intros [= <- <-]. eexists. split; [|done].
    eapply run_sections; [by apply t_check_seen|apply steps_refl]. }
  destruct (append_consumed io id p) as [p1 [u|e]] eqn:Ha; cycle 1.
  { intros [= <- <-]. exists (Failed id e). split; [|done].
    eapply run_sections; [by apply t_check_new|].
    unfold append_consumed in Ha. cbv [mbind cmd_bind update fail] in Ha.
    destruct io as [|e'|n e'|e']; simplify_eq.
    - eapply run_sections; [apply t_open_err|apply steps_refl].
    - destruct (decide (n ≤ length (bytes_of id))%nat).
      + rewrite take_app_le by done. eapply run_sections; [apply t_write_err|apply steps_refl].
      + rewrite take_ge by (rewrite length_app; simpl; lia). eapply run_sections; [apply t_write|].
        eapply run_sections; [by apply (t_newline_err _ _ [newline]); right|].
        unfold write. simpl. rewrite app_assoc. apply steps_refl.
    - eapply run_sections; [apply t_write|].
      eapply run_sections; [by apply (t_newline_err _ _ [newline]); right|].
      unfold write. simpl. rewrite app_assoc. apply steps_refl. }
  assert (p1 = write [newline] (write (bytes_of id) p)) as ->.
  { unfold append_consumed in Ha. cbv [mbind cmd_bind update fail] in Ha.
    destruct io; simplify_eq. unfold write. simpl. by rewrite app_assoc. }
  intros H. destruct (insert_burned id (write [newline] (write (bytes_of id) p))) as [p2 [[]|]] eqn:Hi; simplify_eq.
  - eexists. split; [|done]. eapply run_sections; [by apply t_check_new|].
    eapply run_sections; [apply t_write|]. eapply run_sections; [apply t_newline|].
    eapply run_sections; [by apply t_insert_lost|apply steps_refl].
  - eexists. split; [|done]. eapply run_sections; [by apply t_check_new|].
    eapply run_sections; [apply t_write|]. eapply run_sections; [apply t_newline|].
    eapply run_sections; [by apply t_insert_won|apply steps_refl].
  - unfold insert_burned in Hi. cbv [mret mbind cmd_ret cmd_bind get update] in Hi. case_match; simplify_eq.
Qed.

Lemma try_consume_is_thread_witness :
  ∃ p', persisted_try_consume IoOk "i1" (persisted_open None 10 10) = (p', Ok tt)
    ∧ ∃ c', steps step (persisted_open None 10 10, [ConsumeCheck "i1"]) (p', [c']) ∧ c' = Won "i1".
Proof.
  eexists. split; [vm_compute; reflexivity|].
  apply (try_consume_is_thread IoOk "i1" (persisted_open None 10 10) _ (Ok tt)). vm_compute. reflexivity.
Defined.

(** Let thread [i] run one section, justified by [tac]. *)
Ltac advance i tac :=
  eapply steps_cons; [eapply (step_thread _ i); [reflexivity|tac]|]; cbn [list_insert insert app].

(** Two threads that consume different ids, their file writes interleaved. *)
Definition boot : PState := persisted_open None 10 10.
Lemma two_threads : ∃ p, steps step (boot, []) (p, [Won "a"; Won "b"])
  ∧ log p = Some (bytes_of "ab" ++ [newline; newline]).
Proof.
  eexists. split.
  - eapply steps_cons; [by apply (step_spawn boot [] (ConsumeCheck "a"))|].
    eapply steps_cons; [by apply (step_spawn _ _ (ConsumeCheck "b"))|].
    advance 0%nat ltac:(apply t_check_new; set_solver). advance 1%nat ltac:(apply t_check_new; set_solver).
    advance 0%nat ltac:(apply t_write). advance 1%nat ltac:(apply t_write).
    advance 0%nat ltac:(apply t_newline). advance 1%nat ltac:(apply t_newline).
    advance 0%nat ltac:(apply t_insert_won; vm_compute; reflexivity).
    advance 1%nat ltac:(apply t_insert_won; vm_compute; reflexivity).
    apply steps_refl.
  - reflexivity.
Qed.

(** After a restart from that log neither id is burned: the newline is a separate write. *)
Lemma interleaved_appends_forget :
  log_ids (bytes_of "ab" ++ [newline; newline]) = ["ab"]
  ∧ consumed (mem (persisted_open (Some (bytes_of "ab" ++ [newline; newline])) 10 10)) = {["ab"]}.
Proof. split; vm_compute; reflexivity. Qed.

Lemma one_winner_witness : ∃ p, steps step (boot, []) (p, [Won "a"; Won "b"])
  ∧ sumN (won "a") [Won "a"; Won "b"] ≤ 1 ∧ "a" ∈ consumed (mem p).
Proof.
  destruct two_threads as (p & Hp & _). exists p. split; [exact Hp|].
  destruct (one_winner boot (p, [Won "a"; Won "b"]) "a" Hp) as [H1 H2]. split; [exact H1|]. apply H2. vm_compute. reflexivity.
Defined.

End Threads.

(* ------------------------------------------------------------------ *)
(** ** Durability *)

Definition no_nl (l : bytes) : Prop := Forall (λ c, Ascii.eqb c newline = false) l.
Definition unlines (ls : list bytes) : bytes := concat (map (λ l, l ++ [newline]) ls).

(** Ids the log format can carry: one line, and not changed or skipped by the hydrate. *)
Definition single_line (id : string) : Prop := no_nl (bytes_of id).
Record loggable (id : string) : Prop := {
  lg_line : single_line id;
  lg_trim : trim id = id;
  lg_cr : strip_cr (bytes_of id) = bytes_of id;
  lg_nonempty : str_len id ≠ 0;
  lg_hash : starts_with "#" id = false;
}.

Lemma split_nl_nonempty l : split_nl l ≠ [].
Proof. destruct l as [|c l]; simpl; [done|]. destruct (Ascii.eqb c newline); [done|]. by destruct (split_nl l). Qed.

Lemma split_nl_line l r : no_nl l → split_nl (l ++ newline :: r) = l :: split_nl r.
Proof. induction 1 as [|c l Hc Hl IH]; [reflexivity|]. cbn [app split_nl]. by rewrite Hc, IH. Qed.

Lemma split_nl_unlines ls : Forall no_nl ls → split_nl (unlines ls) = ls ++ [[]].
Proof.
  induction 1 as [|l ls Hl Hls IH]; [done|]. unfold unlines in *. cbn [map concat].
  rewrite <- app_assoc. cbn [app]. by rewrite split_nl_line, IH.
Qed.

Lemma lines_unlines ls : Forall no_nl ls → lines (unlines ls) = map strip_cr ls.
Proof.
  intros H. unfold lines. rewrite split_nl_unlines by done. rewrite last_snoc, removelast_last.
  by rewrite app_nil_r.
Qed.

Lemma unlines_snoc ls l : unlines (ls ++ [l]) = unlines ls ++ l ++ [newline].
Proof. unfold unlines. rewrite map_app, concat_app. simpl. by rewrite app_nil_r. Qed.

Lemma elem_of_log_ids id ls : Forall no_nl ls →
  id ∈ log_ids (unlines ls) ↔
  str_len id ≠ 0 ∧ starts_with "#" id = false ∧ ∃ l, l ∈ ls ∧ id = trim (str_of (strip_cr l)).
Proof.
  intros H. unfold log_ids. rewrite lines_unlines by done. rewrite list_elem_of_filter.
  rewrite andb_true_iff, !negb_true_iff, N.eqb_neq.
  split.
  - intros [[? ?] Hin]. apply list_elem_of_In, in_map_iff in Hin as (l & <- & Hin).
    apply in_map_iff in Hin as (l' & <- & Hin). apply list_elem_of_In in Hin. eauto.
  - intros (? & ? & l & Hl & ->). split; [done|]. apply list_elem_of_In, in_map_iff.
    eexists. split; [done|]. apply in_map_iff. exists l. split; [done|]. by apply list_elem_of_In.
Qed.

Lemma load_consumed content s : consumed (load_consumed_into content s) = list_to_set (log_ids content) ∪ consumed s.
Proof.
  unfold load_consumed_into. generalize (log_ids content) as ids. intros ids. revert s.
  induction ids as [|i ids IH]; intros s; simpl; [set_solver|]. rewrite IH. simpl. set_solver.
Qed.

(** The log is whole lines, and holds every loggable id burned in memory. *)
Definition durable (p : PState) : Prop :=
  ∃ ls, default [] (log p) = unlines ls ∧ Forall no_nl ls
    ∧ ∀ id, loggable id → id ∈ consumed (mem p) → id ∈ log_ids (unlines ls).

(** An append that tears no line. *)
Definition clean (io : Io) : Prop := match io with IoWriteErr n _ => n = 0%nat | _ => True end.

(** Calls of one ledger, one at a time, and restarts. *)
Inductive pop :=
| PTry (io : Io) (id : string)
| PPrepare (io : Io) (id : string)
| PSoft (now now' : N) (id : string)
| PCommit (now : N) (io : Io) (id : string)
| PReserve (now now' : N) (id : string) (k : BucketKind) (a : N) (v : BucketPolicy → N → res unit)
| PRelease (id : string) (k : BucketKind) (a : N)
| PAuth (io : Io) (id : string) (k : BucketKind) (a : N) (v : BucketPolicy → N → res unit)
| PRestart (max_tx max_day : N).

(** The state after an event, and whether it was a fresh success. *)
Definition exec_pop (o : pop) (p : PState) : PState * bool :=
  match o with
  | PTry io id => let '(p', r) := persisted_try_consume io id p in (p', is_ok r)
  | PPrepare io id => let '(p', r) := prepare_consume io id p in (p', bool_decide (r = Ok false))
  | PSoft now now' id => ((prepare_soft now now' id p).1, false)
  | PCommit now io id =>
      let '(p', r) := persisted_commit_consume now io id p in
      (p', is_ok r && negb (bool_decide (id ∈ consumed (mem p))))
  | PReserve now now' id k a v => ((persisted_reserve_spend now now' id k a v p).1, false)
  | PRelease id k a => ((persisted_release_reservation id k a p).1, false)
  | PAuth io id k a v => let '(p', r) := persisted_authorize io id k a v p in (p', is_ok r)
  | PRestart max_tx max_day => (persisted_open (log p) max_tx max_day, false)
  end.

Definition pop_id (o : pop) : option string :=
  match o with
  | PTry _ id | PPrepare _ id | PCommit _ _ id | PAuth _ id _ _ _ => Some id
  | _ => None
  end.
Definition pop_ok (o : pop) : Prop :=
  match o with
  | PTry io id | PPrepare io id | PCommit _ io id | PAuth io id _ _ _ => single_line id ∧ clean io
  | _ => True
  end.

Fixpoint count_wins (id : string) (os : list pop) (p : PState) : nat :=
  match os with
  | [] => 0
  | o :: os =>
      let '(p', win) := exec_pop o p in
      (if win && bool_decide (pop_id o = Some id) then 1 else 0) + count_wins id os p'
  end.

Definition logged (id : string) (p : PState) : Prop := id ∈ log_ids (default [] (log p)).

Lemma durable_mem p m : durable p →
  (∀ id, loggable id → id ∈ consumed m → id ∈ consumed (mem p) ∨ logged id p) → durable (set_mem (λ _, m) p).
Proof.
  intros (ls & Hl & Hnl & Hc) Hm. exists ls. split; [done|]. split; [done|]. simpl.
  intros id Hlg Hin. destruct (Hm id Hlg Hin) as [H|H]; [by apply Hc|]. unfold logged in H. by rewrite Hl in H.
Qed.

Lemma durable_frame p m : durable p → consumed m ⊆ consumed (mem p) → durable (set_mem (λ _, m) p).
Proof. intros. apply durable_mem; [done|]. set_solver. Qed.

Lemma log_ids_snoc ls l id : Forall no_nl (ls ++ [l]) →
  id ∈ log_ids (unlines ls) → id ∈ log_ids (unlines (ls ++ [l])).
Proof.
  intros H. pose proof H as [H1 H2]%Forall_app. rewrite !elem_of_log_ids by done.
  intros (? & ? & l' & ? & ?). split; [done|]. split; [done|]. exists l'. set_solver.
Qed.

Lemma loggable_logged id ls : loggable id → Forall no_nl (ls ++ [bytes_of id]) →
  id ∈ log_ids (unlines (ls ++ [bytes_of id])).
Proof.
  intros [] H. rewrite elem_of_log_ids by done. split; [done|]. split; [done|].
  exists (bytes_of id). split; [set_solver|]. by rewrite lg_cr0, str_of_bytes_of.
Qed.

(** A clean append keeps the log whole; a successful one puts the id in it. *)
Lemma append_durable io id p p' r : durable p → single_line id → clean io →
  append_consumed io id p = (p', r) →
  durable p' ∧ mem p' = mem p ∧ (∀ i, logged i p → logged i p')
  ∧ (r = Ok tt → loggable id → logged id p').
Proof.
  intros (ls & Hl & Hnl & Hc) Hid Hclean Ha.
  assert (Forall no_nl (ls ++ [bytes_of id])) as Hnl' by (apply Forall_app; split; [done|by constructor]).
  assert (p' = write (bytes_of id ++ [newline]) p ∨ (p' = write [] p ∨ p' = p) ∧ r ≠ Ok tt) as Hp'.
  { unfold append_consumed in Ha. cbv [mbind cmd_bind update fail] in Ha.
    destruct io as [| |n|]; simplify_eq; auto. simpl in Hclean. subst n. right. auto. }
  assert (∀ b, default [] (log (write b p)) = unlines ls ++ b) as Hw by (intros b; simpl; by rewrite Hl).
  destruct Hp' as [->|[[-> | ->] Hr]].
  - unfold durable, logged. rewrite Hw, <- unlines_snoc.
    split; [exists (ls ++ [bytes_of id]); split; [done|]; split; [done|]; intros i Hi Hin;
      apply log_ids_snoc; [done|by apply Hc]|].
    split; [done|]. split; [intros i Hi; rewrite Hl in Hi; by apply log_ids_snoc|].
    intros _ Hlg. by apply loggable_logged.
  - unfold durable, logged. rewrite Hw, app_nil_r. split; [by exists ls|]. rewrite Hl. done.
  - split; [by exists ls|]. done.
Qed.

Lemma insert_durable id p : durable p → (loggable id → logged id p) →
  let '(p', r) := insert_burned id p in
  durable p' ∧ consumed (mem p) ⊆ consumed (mem p')
  ∧ (∃ lost, r = Ok lost ∧ (lost = false → id ∉ consumed (mem p) ∧ id ∈ consumed (mem p'))).
Proof.
  intros Hd Hlg. unfold insert_burned. cbv [mret mbind cmd_ret cmd_bind get update].
  case_bool_decide as Hc.
  - split; [done|]. split; [done|]. by exists true.
  - split; [|split; [simpl; set_solver|]].
    + apply (durable_mem p (burn id (mem p))); [done|]. intros i Hi Hin. simpl in Hin.
      destruct (decide (i = id)) as [->|]; [right; auto|left; set_solver].
    + exists false. split; [done|]. intros _. split; [done|]. simpl. set_solver.
Qed.

(** [try_consume] and [prepare_consume] share their sections. *)
Lemma claim_durable io id p : durable p → single_line id → clean io →
  let '(p', r) := prepare_consume io id p in
  durable p' ∧ consumed (mem p) ⊆ consumed (mem p')
  ∧ (r = Ok false → id ∉ consumed (mem p) ∧ id ∈ consumed (mem p'))
  ∧ persisted_try_consume io id p =
      (p', match r with Ok false => Ok tt | Ok true => Err (IntentReplay id) | Err e => Err e end).
Proof.
  intros Hd Hs Hclean. unfold prepare_consume, persisted_try_consume, seen.
  cbv [mret mbind cmd_ret cmd_bind get update fail]. case_bool_decide as Hc; [done|].
  destruct (append_consumed io id p) as [p1 [[]|e]] eqn:Ha;
    destruct (append_durable _ _ _ _ _ Hd Hs Hclean Ha) as (Hd1 & Hm1 & Hl1 & Hl2).
  - pose proof (insert_durable id p1 Hd1) as Hi.
    destruct (insert_burned id p1) as [p2 r]. destruct Hi as (Hd2 & Hsub & lost & -> & Hlost).
    { by apply Hl2. }
    rewrite Hm1 in *. split; [done|]. split; [done|].
    destruct lost; [done|]. split; [by intros _; apply Hlost|done].
  - rewrite Hm1. done.
Qed.

Lemma locked_eq {A} (c : dcmd BucketState A) p : locked c p = (set_mem (λ _, (c (mem p)).1) p, (c (mem p)).2).
Proof. unfold locked, zoom. by destruct (c (mem p)). Qed.

Lemma prepare_soft_consumed now now' id p :
  durable p → durable (prepare_soft now now' id p).1 ∧ consumed (mem (prepare_soft now now' id p).1) = consumed (mem p).
Proof.
  intros Hd. unfold prepare_soft. rewrite locked_eq. cbn [fst].
  match goal with |- context [set_mem (λ _, ?m)] => assert (consumed m = consumed (mem p)) as Hm end.
  { cbv [mret mbind cmd_ret cmd_bind get update fail].
    pose proof (sweep_frame now (mem p)) as [_ Hf]. case_match; simpl; done. }
  split; [apply durable_frame; [done|by rewrite Hm]|done].
Qed.

Lemma commit_durable now io id p : durable p → single_line id → clean io →
  let '(p', r) := persisted_commit_consume now io id p in
  durable p' ∧ consumed (mem p) ⊆ consumed (mem p')
  ∧ (r = Ok tt → id ∉ consumed (mem p) → id ∈ consumed (mem p')).
Proof.
  intros Hd Hs Hclean. unfold persisted_commit_consume. cbv [mret mbind cmd_ret cmd_bind].
  destruct (locked (commit_check now id) p) as [p1 r1] eqn:Hk.
  apply Threads.locked_frame in Hk as [Hk Hlog]. pose proof (Threads.commit_check_frame _ _ _ _ _ Hk) as Hc.
  assert (durable p1) as Hd1.
  { destruct Hd as (ls & ? & ? & ?). exists ls. rewrite Hlog, Hc. done. }
  destruct r1 as [[|]|e].
  - split; [done|]. split; [by rewrite Hc|]. intros _ Hn. exfalso.
    unfold commit_check in Hk. cbv [mret mbind cmd_ret cmd_bind get update fail] in Hk.
    pose proof (sweep_frame now (mem p)) as [_ Hf]. rewrite Hf, bool_decide_false in Hk by done.
    destruct (negb _); simplify_eq.
  - pose proof (claim_durable io id p1 Hd1 Hs Hclean) as Hcl. rewrite Hc in Hcl.
    destruct (prepare_consume io id p1) as [p2 r2]. destruct Hcl as (? & ? & Hw & ->).
    split; [done|]. split; [done|]. destruct r2 as [[]|]; intros; naive_solver.
  - rewrite Hc. done.
Qed.

Lemma authorize_durable io id k a v p : durable p → single_line id → clean io →
  let '(p', r) := persisted_authorize io id k a v p in
  durable p' ∧ consumed (mem p) ⊆ consumed (mem p')
  ∧ (r = Ok tt → id ∉ consumed (mem p) ∧ id ∈ consumed (mem p')).
Proof.
  intros Hd Hs Hclean. unfold persisted_authorize. cbv [mbind cmd_bind].
  destruct (locked (authorize_hold id k a v) p) as [p1 r1] eqn:Hk.
  apply Threads.locked_frame in Hk as [Hk Hlog]. pose proof (Threads.authorize_hold_cases _ _ _ _ _ _ _ Hk) as Hc.
  destruct r1 as [[]|e].
  2: { destruct Hd as (ls & ? & ? & ?). split; [|by rewrite Hc]. exists ls. by rewrite Hlog, Hc. }
  destruct Hc as (Hn & Hm & _). unfold append_or_rollback.
  (* the append does not look at memory: run it from the old memory, where the log is durable *)
  set (q := set_mem (λ _, mem p) p1).
  assert (durable q) as Hq by (destruct Hd as (ls & ? & ? & ?); exists ls; simpl; by rewrite Hlog).
  assert (append_consumed io id p1 = (set_mem (λ _, mem p1) (append_consumed io id q).1, (append_consumed io id q).2)) as Happ.
  { unfold append_consumed. cbv [mbind cmd_bind update fail]. by destruct p1, io. }
  destruct (append_consumed io id q) as [q' r2] eqn:Ha.
  destruct (append_durable _ _ _ _ _ Hq Hs Hclean Ha) as (Hd1 & Hm1 & Hl1 & Hl2).
  rewrite Happ. simpl. destruct r2 as [[]|e].
  - split; [|rewrite Hm; simpl; set_solver].
    apply durable_mem; [done|]. intros i Hi. rewrite Hm, Hm1. simpl.
    destruct (decide (i = id)) as [->|]; [right; auto|left; set_solver].
  - split; [|split; [rewrite Hm; simpl; set_solver|done]].
    apply (durable_frame q' (authorize_rollback id k a (mem p1))); [done|]. rewrite Hm, Hm1. simpl. set_solver.
Qed.

Lemma exec_pop_durable o p : durable p → pop_ok o →
  let '(p', win) := exec_pop o p in
  durable p' ∧ (∀ id, loggable id → id ∈ consumed (mem p) → id ∈ consumed (mem p'))
  ∧ ∀ id, win = true → pop_id o = Some id → id ∉ consumed (mem p) ∧ id ∈ consumed (mem p').
Proof.
  intros Hd Hok. destruct o as [io i|io i|now now' i|now io i|now now' i k a v|i k a|io i k a v|tx day];
    cbn [exec_pop pop_id].
  - destruct Hok as [Hs Hc]. pose proof (claim_durable io i p Hd Hs Hc) as H.
    destruct (prepare_consume io i p) as [p' r]. destruct H as (H1 & H2 & H3 & ->).
    split; [done|]. split; [set_solver|]. intros id Hw [= <-]. destruct r as [[]|]; [done|auto|done].
  - destruct Hok as [Hs Hc]. pose proof (claim_durable io i p Hd Hs Hc) as H.
    destruct (prepare_consume io i p) as [p' r]. destruct H as (H1 & H2 & H3 & _).
    split; [done|]. split; [set_solver|]. intros id Hw%bool_decide_eq_true [= <-]. auto.
  - destruct (prepare_soft_consumed now now' i p Hd) as [? ->]. done.
  - destruct Hok as [Hs Hc]. pose proof (commit_durable now io i p Hd Hs Hc) as H.
    destruct (persisted_commit_consume now io i p) as [p' r]. destruct H as (H1 & H2 & H3).
    split; [done|]. split; [set_solver|]. intros id Hw [= <-]. apply andb_true_iff in Hw as [Hw Hn].
    apply negb_true_iff, bool_decide_eq_false in Hn. destruct r as [[]|]; [auto|done].
  - unfold persisted_reserve_spend. rewrite locked_eq. cbn [fst].
    assert (consumed (mem_reserve_spend now now' i k a v (mem p)).1 = consumed (mem p)) as Hm.
    { destruct (exec_post (OpReserve now now' i k a v) (mem p)) as [H|(_ & _ & _ & H)]; cbn [exec_op] in H;
        rewrite H; [|simpl]; apply sweep_frame. }
    split; [apply durable_frame; [done|by rewrite Hm]|]. split; [simpl; by rewrite Hm|done].
  - unfold persisted_release_reservation. rewrite locked_eq. cbn [fst].
    assert (consumed (mem_release_reservation i k a (mem p)).1 = consumed (mem p)) as Hm.
    { unfold mem_release_reservation. cbv [mbind cmd_bind get update].
      by destruct (reserved (mem p) !! i) as [[[k' a'] e]|]. }
    split; [apply durable_frame; [done|by rewrite Hm]|]. split; [simpl; by rewrite Hm|done].
  - destruct Hok as [Hs Hc]. pose proof (authorize_durable io i k a v p Hd Hs Hc) as H.
    destruct (persisted_authorize io i k a v p) as [p' r]. destruct H as (H1 & H2 & H3).
    split; [done|]. split; [set_solver|]. intros id Hw [= <-]. destruct r as [[]|]; [auto|done].
  - destruct Hd as (ls & Hl & Hnl & Hc). unfold persisted_open.
    split; [|split; [|done]].
    + exists ls. split; [done|]. split; [done|]. intros id Hlg Hin. simpl in Hin.
      destruct (log p) as [content|]; [|by apply not_elem_of_empty in Hin].
      simpl in Hl. subst content. rewrite load_consumed in Hin. simpl in Hin. set_solver.
    + intros id Hlg Hin. specialize (Hc id Hlg Hin). simpl.
      destruct (log p) as [content|]; simpl in Hl; [|destruct ls as [|b ls]; [by apply elem_of_nil in Hc|]].
      * subst content. rewrite load_consumed. set_solver.
      * exfalso. unfold unlines in Hl. simpl in Hl. by destruct b.
Qed.

Lemma count_wins_consumed id os p : durable p → Forall pop_ok os → loggable id →
  id ∈ consumed (mem p) → count_wins id os p = 0%nat.
Proof.
  intros Hd Hok Hlg. revert p Hd. induction Hok as [|o os Ho _ IH]; intros p Hd Hin; [done|].
  cbn [count_wins]. pose proof (exec_pop_durable o p Hd Ho) as H.
  destruct (exec_pop o p) as [p' win]. destruct H as (Hd' & Hmono & Hwin).
  destruct win; [case_bool_decide as Hi|]; simpl; try (apply IH; auto).
  by destruct (Hwin id eq_refl Hi).
Qed.



(** The hydrate skips comment lines and trims: an id that [SettlementIntent::new] accepts but that
    starts with a hash sign is not burned any more after a restart. *)
Lemma hash_id_forgotten :
  is_ok (settlement_intent_new "#1" Users "tb1q-users-withdraw" 1 "ph") = true
  ∧ count_wins "#1" [PTry IoOk "#1"; PRestart 10 10; PTry IoOk "#1"] (persisted_open None 10 10) = 2%nat.
Proof. split; vm_compute; reflexivity. Qed.

(** An append torn by a failed write joins the next id to the torn line. *)
Lemma torn_append_forgets_next :
  count_wins "b" [PTry (IoWriteErr 1 "disk") "a"; PTry IoOk "b"; PRestart 10 10; PTry IoOk "b"]
    (persisted_open None 10 10) = 2%nat.
Proof. vm_compute. reflexivity. Qed.
