(* ===== verification/Quantum.v ===== *)
(** * The quantum migration state machine

    [domain/quantum_state.rs] and the controller of
    [application/quantum_migration.rs] (whose sweep operations are stubs in the
    source, and are modelled as such). *)
From S2P Require Import Prelude RustStr Errors DayEpoch.
Local Open Scope N_scope.

Inductive QuantumState :=
| Q0Normal | Q1PqPrepared | Q2ElevatedRisk | Q3MigrationRequired | Q4DepositsDisabled | Q5EmergencySweep.
#[export] Instance QuantumState_eq_dec : EqDecision QuantumState.
Proof. solve_decision. Defined.

Definition level (q : QuantumState) : N :=
  match q with
  | Q0Normal => 0 | Q1PqPrepared => 1 | Q2ElevatedRisk => 2
  | Q3MigrationRequired => 3 | Q4DepositsDisabled => 4 | Q5EmergencySweep => 5
  end.
(** The derived order is the order of the discriminants. *)
Definition q_le (a b : QuantumState) : bool := level a <=? level b.
Definition q_lt (a b : QuantumState) : bool := level a <? level b.

Definition deposits_allowed (q : QuantumState) : bool :=
  match q with Q0Normal | Q1PqPrepared | Q2ElevatedRisk => true | _ => false end.
Definition normal_signing_allowed (q : QuantumState) : bool :=
  match q with Q0Normal | Q1PqPrepared => true | _ => false end.
Definition sweep_allowed (q : QuantumState) : bool :=
  match q with Q4DepositsDisabled | Q5EmergencySweep => true | _ => false end.
Definition is_emergency (q : QuantumState) : bool := bool_decide (q = Q5EmergencySweep).

Definition quantum_str (q : QuantumState) : string :=
  match q with
  | Q0Normal => "Q0_NORMAL" | Q1PqPrepared => "Q1_PQ_PREPARED" | Q2ElevatedRisk => "Q2_ELEVATED_RISK"
  | Q3MigrationRequired => "Q3_MIGRATION_REQUIRED" | Q4DepositsDisabled => "Q4_DEPOSITS_DISABLED"
  | Q5EmergencySweep => "Q5_EMERGENCY_SWEEP"
  end.

Definition from_level (n : N) : option QuantumState :=
  match n with
  | 0 => Some Q0Normal | 1 => Some Q1PqPrepared | 2 => Some Q2ElevatedRisk
  | 3 => Some Q3MigrationRequired | 4 => Some Q4DepositsDisabled | 5 => Some Q5EmergencySweep
  | _ => None
  end.

Record UtxoRecord := {
  txid : string; vout : N; amount_sat : N; confirmations : N;
  script_type : string; pubkey_exposed : bool; age_epochs : N;
}.
Record DrillReport := { drill_duration_ms : N; drill_utxos : N; drill_fees : N; drill_errors : list string }.
Definition drill_success (utxos fees duration_ms : N) : DrillReport :=
  {| drill_duration_ms := duration_ms; drill_utxos := utxos; drill_fees := fees; drill_errors := [] |}.
Definition drill_failed (errors : list string) : DrillReport :=
  {| drill_duration_ms := 0; drill_utxos := 0; drill_fees := 0; drill_errors := errors |}.
Definition drill_is_success (r : DrillReport) : bool := bool_decide (drill_errors r = []).
Record SweepReport := {
  sweep_duration_ms : N; sweep_utxos : N; sweep_fees : N; sweep_errors : list string; sweep_txids : list string }.
Definition sweep_is_success (r : SweepReport) : bool := bool_decide (sweep_errors r = []).

Record QuantumMigrationConfig := {
  current_state : QuantumState;
  state_changed_at : DayEpoch;
  migration_destination_descriptor : option string;
  emergency_constitution_hash : option string;
  last_drill_at : option DayEpoch;
  auto_advance_epochs : N;
}.
#[export] Instance QuantumMigrationConfig_eq_dec : EqDecision QuantumMigrationConfig.
Proof. solve_decision. Defined.

Definition quantum_default_at (epoch : DayEpoch) : QuantumMigrationConfig := {|
  current_state := Q0Normal; state_changed_at := epoch;
  migration_destination_descriptor := None; emergency_constitution_hash := None;
  last_drill_at := None; auto_advance_epochs := 3;
|}.

Inductive TransitionAuth :=
| Quorum (n : N)
| QuorumOrAuto
| ReducedQuorum (n : N).
#[export] Instance TransitionAuth_eq_dec : EqDecision TransitionAuth.
Proof. solve_decision. Defined.

(** Two thirds, with a minimum of two vaults. *)
Definition reduced_quorum (quorum_size : N) : N :=
  N.max (N.min (N.max quorum_size 2) (wrap64 (quorum_size * 2) / 3)) 2.

(** The [Q0Normal] arm is [unreachable!] in the source: the monotonic test comes first. *)
Definition transition_auth (new_state : QuantumState) (quorum_size : N) : TransitionAuth :=
  match new_state with
  | Q0Normal | Q1PqPrepared | Q2ElevatedRisk | Q3MigrationRequired => Quorum quorum_size
  | Q4DepositsDisabled => QuorumOrAuto
  | Q5EmergencySweep => ReducedQuorum (reduced_quorum quorum_size)
  end.

Definition validate_transition (self : QuantumMigrationConfig) (new_state : QuantumState)
    (quorum_size : N) (current_epoch : DayEpoch) : res TransitionAuth :=
  let cur := current_state self in
  if q_le new_state cur
  then Err (InvalidConstitution (format
    "quantum state transition denied: {} → {} is not monotonic (state only increases)"
    [quantum_str cur; quantum_str new_state]))
  else
    let current_level := level cur in
    let new_level := level new_state in
    if negb (new_level =? current_level + 1) && negb ((current_level =? 4) && (new_level =? 5))
    then Err (InvalidConstitution (format
      "quantum state can only advance one step at a time: {} → {} invalid (gap > 1)"
      [quantum_str cur; quantum_str new_state]))
    else
      let auth := transition_auth new_state quorum_size in
      if q_le Q1PqPrepared new_state && bool_decide (emergency_constitution_hash self = None)
      then Err (InvalidConstitution "quantum migration requires emergency_constitution_hash set at Q1+")
      else if q_le Q1PqPrepared new_state && bool_decide (migration_destination_descriptor self = None)
      then Err (InvalidConstitution "quantum migration requires migration_destination_descriptor set at Q1+")
      else Ok auth.

Definition apply_transition (new_state : QuantumState) (epoch : DayEpoch) : dcmd QuantumMigrationConfig unit :=
  update (λ self, {|
    current_state := new_state; state_changed_at := epoch;
    migration_destination_descriptor := migration_destination_descriptor self;
    emergency_constitution_hash := emergency_constitution_hash self;
    last_drill_at := last_drill_at self; auto_advance_epochs := auto_advance_epochs self |}).

(* ------------------------------------------------------------------ *)
(** ** The controller *)

Record QuantumController := { ctl_state : QuantumState; ctl_config : QuantumMigrationConfig }.
Definition controller_new (config : QuantumMigrationConfig) : QuantumController :=
  {| ctl_state := current_state config; ctl_config := config |}.

Definition controller_transition_to (c : QuantumController) (new_state : QuantumState) : res unit :=
  epoch ← day_epoch_parse "2025-01-01";
  _ ← validate_transition (ctl_config c) new_state 5 epoch;
  Ok tt.
Definition controller_execute_drill (c : QuantumController) : res DrillReport :=
  Ok (drill_failed ["drill not implemented — stub returns no-op"]).
Definition controller_sweep_all (c : QuantumController) : res SweepReport :=
  Ok {| sweep_duration_ms := 0; sweep_utxos := 0; sweep_fees := 0;
        sweep_errors := ["sweep not implemented — stub returns no-op"]; sweep_txids := [] |}.

Definition validate_emergency_ready (config : QuantumMigrationConfig) (utxo_count : N) : res unit :=
  if q_lt (current_state config) Q4DepositsDisabled
  then Err (InvalidConstitution (format "emergency sweep requires state >= Q4, current: {}"
                                   [quantum_str (current_state config)]))
  else if bool_decide (emergency_constitution_hash config = None)
  then Err (InvalidConstitution "emergency constitution hash not set")
  else if bool_decide (migration_destination_descriptor config = None)
  then Err (InvalidConstitution "migration destination descriptor not set")
  else if utxo_count =? 0 then Err (InvalidConstitution "no UTXOs to sweep — inventory empty")
  else Ok tt.

(* ------------------------------------------------------------------ *)
(** ** Properties *)

Lemma validate_transition_ok self new q e auth :
  validate_transition self new q e = Ok auth ↔
  level new = level (current_state self) + 1
  ∧ is_Some (emergency_constitution_hash self) ∧ is_Some (migration_destination_descriptor self)
  ∧ auth = transition_auth new q.
Proof.
  unfold validate_transition, q_le. cbv zeta. rewrite !guard_ok, Ok_inj_iff. nbool.
  rewrite <- !not_eq_None_Some. change (level Q1PqPrepared) with 1.
  rewrite ?andb_true_iff, ?N.eqb_eq.
  split; [|intros (? & ? & ? & ->); repeat split; try lia; try (by right); left; lia].
  intros (H1 & H2 & H3 & H4 & ->). split; [lia|]. repeat split; naive_solver lia.
Qed.

(** How the two calls are meant to be used: validate, then commit. *)
Inductive transition : QuantumMigrationConfig → QuantumMigrationConfig → Prop :=
| do_transition c new q e auth :
    validate_transition c new q e = Ok auth → transition c (apply_transition new e c).1.

(** From any configuration, along any sequence of validated transitions, the state only moves up,
    one level per transition, never past Q5, and once it has left its start both the emergency
    constitution hash and the migration descriptor are set and never change. *)
Theorem quantum_monotone c c' :
  steps transition c c' →
  level (current_state c) ≤ level (current_state c') ≤ 5
  ∧ emergency_constitution_hash c' = emergency_constitution_hash c
  ∧ migration_destination_descriptor c' = migration_destination_descriptor c
  ∧ (current_state c' = current_state c
     ∨ is_Some (emergency_constitution_hash c') ∧ is_Some (migration_destination_descriptor c')).
Proof.
  intros Hs. induction Hs as [c|c c1 c2 H1 Hs IH].
  { split; [by destruct (current_state c)|]. auto. }
  destruct H1 as [c new q e auth H1]. apply validate_transition_ok in H1 as (Hl & He & Hm & _).
  simpl in *. destruct IH as (IH1 & IH2 & IH3 & _). rewrite IH2, IH3. split; [lia|]. auto.
Qed.

(** A transition is authorized exactly when it goes up one level and both migration commitments
    are set; the authorization demanded is the full quorum up to Q3, quorum or timeout at Q4, and for
    the emergency sweep a reduced quorum of two thirds (rounded down) but at least two vaults. *)
Theorem validate_transition_spec self new q e auth :
  q < 9223372036854775808 →
  validate_transition self new q e = Ok auth ↔
  level new = level (current_state self) + 1
  ∧ is_Some (emergency_constitution_hash self) ∧ is_Some (migration_destination_descriptor self)
  ∧ auth = match new with
           | Q4DepositsDisabled => QuorumOrAuto
           | Q5EmergencySweep => ReducedQuorum (N.max (2 * q / 3) 2)
           | _ => Quorum q
           end.
Proof.
  intros Hq. rewrite validate_transition_ok.
  assert (transition_auth new q = match new with
           | Q4DepositsDisabled => QuorumOrAuto
           | Q5EmergencySweep => ReducedQuorum (N.max (2 * q / 3) 2)
           | _ => Quorum q
           end) as ->; [|done].
  destruct new; try done. simpl. f_equal. unfold reduced_quorum.
  rewrite wrap64_exact by (unfold u64_max; lia). rewrite (N.mul_comm q 2).
  assert (2 * q / 3 ≤ q) by (apply N.Div0.div_le_upper_bound; lia). lia.
Qed.

(** The permissions of each state: deposits stop at Q3, normal signing at Q2, sweeps start at Q4. *)
Lemma permissions_by_level q :
  deposits_allowed q = (level q <=? 2) ∧ normal_signing_allowed q = (level q <=? 1)
  ∧ sweep_allowed q = (4 <=? level q) ∧ from_level (level q) = Some q.
Proof. by destruct q. Qed.

Lemma emergency_ready_ok config n : validate_emergency_ready config n = Ok tt ↔
  sweep_allowed (current_state config) = true ∧ is_Some (emergency_constitution_hash config)
  ∧ is_Some (migration_destination_descriptor config) ∧ n ≠ 0.
Proof.
  unfold validate_emergency_ready, q_lt. rewrite !guard_ok. nbool. rewrite <- !not_eq_None_Some.
  change (level Q4DepositsDisabled) with 4. destruct (permissions_by_level (current_state config)) as (_ & _ & -> & _).
  nbool. naive_solver.
Qed.

Definition committed_q0 : QuantumMigrationConfig := {|
  current_state := Q0Normal; state_changed_at := mk_day_epoch "2025-06-01";
  migration_destination_descriptor := Some "wsh(d)"; emergency_constitution_hash := Some "h";
  last_drill_at := None; auto_advance_epochs := 3 |}.

Lemma quantum_monotone_witness :
  ∃ c', steps transition committed_q0 c' ∧ current_state c' = Q2ElevatedRisk ∧
    level (current_state committed_q0) ≤ level (current_state c') ≤ 5.
Proof.
  assert (∃ c', steps transition committed_q0 c' ∧ current_state c' = Q2ElevatedRisk) as (c' & Hs & Hc).
  { eexists. split; [|].
    - eapply steps_cons; [eapply (do_transition _ Q1PqPrepared 5 (mk_day_epoch "2025-06-02")); reflexivity|].
      eapply steps_cons; [eapply (do_transition _ Q2ElevatedRisk 5 (mk_day_epoch "2025-06-03")); reflexivity|].
      apply steps_refl.
    - reflexivity. }
  exists c'. split; [exact Hs|]. split; [exact Hc|]. exact (proj1 (quantum_monotone committed_q0 c' Hs)).
Defined.

Lemma validate_transition_spec_witness :
  validate_transition committed_q0 Q1PqPrepared 5 (mk_day_epoch "2025-06-02") = Ok (Quorum 5)
  ∧ is_ok (validate_transition committed_q0 Q2ElevatedRisk 5 (mk_day_epoch "2025-06-02")) = false.
Proof.
  split; [|reflexivity]. apply validate_transition_spec; [reflexivity|]. simpl. repeat split; eauto.
Defined.
