(* ===== verification/Constitution.v ===== *)
(** * The constitution

    [domain/constitution.rs] with the payout cadence names of
    [domain/reward.rs]: the mesh's security and economic parameters, their
    validation, and the hash that anchors them. *)
From S2P Require Import Prelude RustStr Errors Identity DayEpoch Bucket Quantum.
From Stdlib Require String.
Local Open Scope N_scope.

Inductive MinerPayoutCadence := CadManual | CadDaily | CadWeekly | CadEpoch.
#[export] Instance MinerPayoutCadence_eq_dec : EqDecision MinerPayoutCadence.
Proof. solve_decision. Defined.

Definition cadence_parse (raw : string) : option MinerPayoutCadence :=
  let s := to_ascii_lowercase (trim raw) in
  if String.eqb s "manual" then Some CadManual
  else if String.eqb s "daily" then Some CadDaily
  else if String.eqb s "weekly" then Some CadWeekly
  else if String.eqb s "epoch" then Some CadEpoch
  else None.
Definition cadence_str (c : MinerPayoutCadence) : string :=
  match c with CadManual => "manual" | CadDaily => "daily" | CadWeekly => "weekly" | CadEpoch => "epoch" end.

Record DowngradePolicy := {
  pq_kem_security_category : N;
  pq_signature_security_category : N;
  symmetric_security_bits : N;
  hybrid_kem_required : bool;
  hybrid_signature_required : bool;
  require_pq_signatures : bool;
  require_pq_kem : bool;
}.
Definition downgrade_default : DowngradePolicy := {|
  pq_kem_security_category := 3; pq_signature_security_category := 3; symmetric_security_bits := 256;
  hybrid_kem_required := true; hybrid_signature_required := true;
  require_pq_signatures := true; require_pq_kem := true |}.

Definition downgrade_validate (d : DowngradePolicy) : res unit :=
  if pq_kem_security_category d <? 3
  then Err (InvalidConstitution (format "pq_kem_security_category {} < 3" [show (pq_kem_security_category d)]))
  else if pq_signature_security_category d <? 3
  then Err (InvalidConstitution (format "pq_signature_security_category {} < 3"
                                   [show (pq_signature_security_category d)]))
  else if symmetric_security_bits d <? 256
  then Err (InvalidConstitution (format "symmetric_security_bits {} < 256" [show (symmetric_security_bits d)]))
  else Ok tt.

Record FormatVersions := {
  fv_intent : N; fv_receipt : N; fv_share_envelope : N; fv_dkg_transcript : N; fv_reshare_transcript : N;
  fv_certificate : N; fv_audit_record : N; min_protocol_version : N; current_protocol_version : N;
}.
Definition format_versions_default : FormatVersions := {|
  fv_intent := 1; fv_receipt := 1; fv_share_envelope := 1; fv_dkg_transcript := 1; fv_reshare_transcript := 1;
  fv_certificate := 1; fv_audit_record := 1; min_protocol_version := 1; current_protocol_version := 1 |}.

Definition format_accept (f : FormatVersions) (received_version min_version : N) : res unit :=
  if received_version <? min_version
  then Err (InvalidIntent (format "format_version {} below minimum {}" [show received_version; show min_version]))
  else if current_protocol_version f <? received_version
  then Err (InvalidIntent (format "unknown format_version {} (current max {})"
                             [show received_version; show (current_protocol_version f)]))
  else Ok tt.

(** [t = ceil(2n/3)]. *)
Definition quorum_two_thirds (n : N) : N := div_ceil (wrap64 (2 * n)) 3.

Record Constitution := {
  version : N;
  max_withdraw_per_day_sats : N;
  max_withdraw_per_tx_sats : N;
  signing_n : N;
  signing_t : N;
  governance_t : N;
  p_reward_bps : N;
  p_reward_max_bps : N;
  profit_splits : ProfitSplits;
  payout_frequency : MinerPayoutCadence;
  crypto_suite_id : string;
  hash : string;
  measurement_pin : option Measurement;
  downgrade_policy : DowngradePolicy;
  format_versions : FormatVersions;
  previous_hash : option string;
  quantum_migration : QuantumMigrationConfig;
}.

Definition set_hash_pin (h : string) (pin : option Measurement) (c : Constitution) : Constitution := {|
  version := version c; max_withdraw_per_day_sats := max_withdraw_per_day_sats c;
  max_withdraw_per_tx_sats := max_withdraw_per_tx_sats c; signing_n := signing_n c; signing_t := signing_t c;
  governance_t := governance_t c; p_reward_bps := p_reward_bps c; p_reward_max_bps := p_reward_max_bps c;
  profit_splits := profit_splits c; payout_frequency := payout_frequency c; crypto_suite_id := crypto_suite_id c;
  hash := h; measurement_pin := pin; downgrade_policy := downgrade_policy c;
  format_versions := format_versions c; previous_hash := previous_hash c; quantum_migration := quantum_migration c |}.

Definition set_frequency (f : MinerPayoutCadence) (c : Constitution) : Constitution := {|
  version := version c; max_withdraw_per_day_sats := max_withdraw_per_day_sats c;
  max_withdraw_per_tx_sats := max_withdraw_per_tx_sats c; signing_n := signing_n c; signing_t := signing_t c;
  governance_t := governance_t c; p_reward_bps := p_reward_bps c; p_reward_max_bps := p_reward_max_bps c;
  profit_splits := profit_splits c; payout_frequency := f; crypto_suite_id := crypto_suite_id c;
  hash := hash c; measurement_pin := measurement_pin c; downgrade_policy := downgrade_policy c;
  format_versions := format_versions c; previous_hash := previous_hash c; quantum_migration := quantum_migration c |}.

(** The hashed material. *)
Definition constitution_material (c : Constitution) : string :=
  let prev := default "" (previous_hash c) in
  format "v{}|day{}|tx{}|n{}|t{}|gt{}|p{}|max{}|m{}|ch{}|inf{}|{}{}"
    [show (version c); show (max_withdraw_per_day_sats c); show (max_withdraw_per_tx_sats c);
     show (signing_n c); show (signing_t c); show (governance_t c); show (p_reward_bps c);
     show (p_reward_max_bps c); show (miners_bps (profit_splits c)); show (channels_bps (profit_splits c));
     show (infra_bps (profit_splits c)); crypto_suite_id c;
     if str_len prev =? 0 then "" else format "|prev_{}" [prev]].

Section constitution.
Context `{!Sha256}.

Definition compute_hash (c : Constitution) : string :=
  as_hex (measurement_from_bytes (bytes_of (constitution_material c))).

Definition ensure_measurement_pin (c : Constitution) : Constitution :=
  if bool_decide (measurement_pin c = None)
  then set_hash_pin (hash c) (Some (measurement_from_bytes (bytes_of (hash c)))) c
  else c.

Definition measurement_pin_or_hash (c : Constitution) : Measurement :=
  default (measurement_from_bytes (bytes_of (hash c))) (measurement_pin c).
Definition with_measurement_pin (pin : Measurement) (c : Constitution) : Constitution :=
  set_hash_pin (hash c) (Some pin) c.
Definition with_payout_frequency (freq : MinerPayoutCadence) (c : Constitution) : Constitution :=
  let c := set_frequency freq c in set_hash_pin (compute_hash c) (measurement_pin c) c.

(** [Self { .. }] of the two constructors, their hash and pin. *)
Definition constitution_seal (c : Constitution) : Constitution :=
  ensure_measurement_pin (set_hash_pin (compute_hash c) (measurement_pin c) c).

Definition v1_lab (n : N) : res Constitution :=
  if n <? 2 then Err (InvalidConstitution "signing_n must be >= 2")
  else
    let signing_t := quorum_two_thirds n in
    let governance_t := N.min (wrap64 (signing_t + 1)) n in
    let profit_splits := splits_lab_dry_run in
    _ ← splits_validate profit_splits;
    Ok (constitution_seal {|
      version := 1; max_withdraw_per_day_sats := 1000000; max_withdraw_per_tx_sats := 250000;
      signing_n := n; signing_t := signing_t; governance_t := governance_t;
      p_reward_bps := 100; p_reward_max_bps := 800; profit_splits := profit_splits;
      payout_frequency := CadDaily; crypto_suite_id := "hybrid-v1-placeholder"; hash := "";
      measurement_pin := None; downgrade_policy := downgrade_default; format_versions := format_versions_default;
      previous_hash := None; quantum_migration := quantum_default_at (day_epoch_from_unix_secs 0) |}).

Definition v1_open (n : N) : res Constitution :=
  if n <? 2 then Err (InvalidConstitution "signing_n must be >= 2")
  else
    let signing_t := quorum_two_thirds n in
    let governance_t := N.min (wrap64 (signing_t + 1)) n in
    let p_reward_bps := 100 in
    profit_splits ← splits_open_with_reward p_reward_bps;
    Ok (constitution_seal {|
      version := 2; max_withdraw_per_day_sats := 1000000; max_withdraw_per_tx_sats := 250000;
      signing_n := n; signing_t := signing_t; governance_t := governance_t;
      p_reward_bps := p_reward_bps; p_reward_max_bps := 800; profit_splits := profit_splits;
      payout_frequency := CadDaily; crypto_suite_id := "hybrid-v1-placeholder"; hash := "";
      measurement_pin := None; downgrade_policy := downgrade_default; format_versions := format_versions_default;
      previous_hash := None; quantum_migration := quantum_default_at (day_epoch_from_unix_secs 0) |}).

Definition constitution_validate (c : Constitution) : res unit :=
  if signing_n c <? 2 then Err (InvalidConstitution "n < 2")
  else if (signing_t c =? 0) || (signing_n c <? signing_t c) then Err (InvalidConstitution "bad signing_t")
  else if (governance_t c <? signing_t c) || (signing_n c <? governance_t c)
  then Err (InvalidConstitution "bad governance_t")
  else if p_reward_max_bps c <? p_reward_bps c then Err (InvalidConstitution "p_reward exceeds max")
  else
    _ ← splits_validate (profit_splits c);
    _ ← downgrade_validate (downgrade_policy c);
    if negb (String.eqb (hash c) (compute_hash c)) then Err (InvalidConstitution "constitution hash mismatch")
    else Ok tt.
End constitution.

(** [to_json]; a backquote stands for a double quote. *)
Definition constitution_to_json (c : Constitution) : string :=
  let pin := match measurement_pin c with Some m => as_hex m | None => "" end in
  let d := downgrade_policy c in
  let f := format_versions c in
  format (q ("{{`version`:{},`max_withdraw_per_day_sats`:{},`max_withdraw_per_tx_sats`:{},`signing_n`:{},"
    +:+ "`signing_t`:{},`governance_t`:{},`p_reward_bps`:{},`p_reward_max_bps`:{},`profit_splits`:{{`miners_bps`:{},"
    +:+ "`channels_bps`:{},`infra_bps`:{}}},`crypto_suite_id`:`{}`,`hash`:`{}`,`measurement_pin`:`{}`,"
    +:+ "`downgrade_policy`:{{`pq_kem_cat`:{},`pq_sig_cat`:{},`sym_bits`:{},`hybrid_kem`:{},`hybrid_sig`:{},"
    +:+ "`req_pq_sig`:{},`req_pq_kem`:{}}},`format_versions`:{{`intent`:{},`receipt`:{},`share_envelope`:{},"
    +:+ "`dkg_transcript`:{},`reshare_transcript`:{},`certificate`:{},`audit_record`:{},`min_proto`:{},"
    +:+ "`current_proto`:{}}}"))
    [show (version c); show (max_withdraw_per_day_sats c); show (max_withdraw_per_tx_sats c); show (signing_n c);
     show (signing_t c); show (governance_t c); show (p_reward_bps c); show (p_reward_max_bps c);
     show (miners_bps (profit_splits c)); show (channels_bps (profit_splits c)); show (infra_bps (profit_splits c));
     crypto_suite_id c; hash c; pin;
     show (pq_kem_security_category d); show (pq_signature_security_category d); show (symmetric_security_bits d);
     show_bool (hybrid_kem_required d); show_bool (hybrid_signature_required d);
     show_bool (require_pq_signatures d); show_bool (require_pq_kem d);
     show (fv_intent f); show (fv_receipt f); show (fv_share_envelope f); show (fv_dkg_transcript f);
     show (fv_reshare_transcript f); show (fv_certificate f); show (fv_audit_record f);
     show (min_protocol_version f); show (current_protocol_version f)].

(* ------------------------------------------------------------------ *)
(** ** Quorums *)

Lemma quorum_bounds n : n < 9223372036854775808 →
  2 * n ≤ 3 * quorum_two_thirds n < 2 * n + 3.
Proof.
  intros H. unfold quorum_two_thirds, div_ceil. rewrite wrap64_exact by (unfold u64_max; lia).
  pose proof (N.div_mod (2 * n) 3 ltac:(lia)). pose proof (N.mod_upper_bound (2 * n) 3 ltac:(lia)).
  generalize dependent ((2 * n) mod 3). generalize ((2 * n) / 3). intros a b Ha Hb.
  destruct (N.eqb_spec b 0); lia.
Qed.

Lemma quorum_le n : 2 ≤ n < 9223372036854775808 → 1 ≤ quorum_two_thirds n ≤ n.
Proof. intros H. pose proof (quorum_bounds n ltac:(lia)). lia. Qed.

(** Two signing quorums out of the same [n] nodes always share at least a third of them, so at least
    one: a node that answers only the first of two conflicting requests blocks the second quorum. *)
Theorem quorums_intersect (nodes A B : gset string) (n : N) :
  N.of_nat (size nodes) = n → 1 ≤ n < 9223372036854775808 → A ⊆ nodes → B ⊆ nodes →
  quorum_two_thirds n ≤ N.of_nat (size A) → quorum_two_thirds n ≤ N.of_nat (size B) →
  n ≤ 3 * N.of_nat (size (A ∩ B)) ∧ A ∩ B ≢ ∅.
Proof.
  intros Hn Hb HA HB HqA HqB. pose proof (quorum_bounds n ltac:(lia)) as Hq.
  assert (size (A ∪ B) ≤ size nodes)%nat as Hu by (apply subseteq_size; set_solver).
  pose proof (size_union_alt A B) as H1.
  assert (size B = size (A ∩ B) + size (B ∖ A))%nat as H2.
  { rewrite <- size_union by set_solver. f_equal. apply leibniz_equiv. intros x.
    rewrite elem_of_union, elem_of_intersection, elem_of_difference. destruct (decide (x ∈ A)); tauto. }
  assert (n ≤ 3 * N.of_nat (size (A ∩ B))) as Hs by lia. split; [done|].
  intros He. rewrite He, size_empty in Hs. lia.
Qed.

Lemma quorums_intersect_witness :
  (3 ≤ 3 * N.of_nat (size (({["a"; "b"]} : gset string) ∩ {["b"; "c"]})))
  ∧ ({["a"; "b"]} : gset string) ∩ {["b"; "c"]} ≢ ∅.
Proof.
  apply (quorums_intersect {["a"; "b"; "c"]} {["a"; "b"]} {["b"; "c"]} 3);
    [reflexivity|lia|set_solver|set_solver|vm_compute; discriminate|vm_compute; discriminate].
Defined.

(* ------------------------------------------------------------------ *)
(** ** Validation *)

Lemma downgrade_validate_ok d : downgrade_validate d = Ok tt ↔
  3 ≤ pq_kem_security_category d ∧ 3 ≤ pq_signature_security_category d ∧ 256 ≤ symmetric_security_bits d.
Proof. unfold downgrade_validate. rewrite !guard_ok. nbool. naive_solver. Qed.

Lemma constitution_validate_ok `{!Sha256} c : constitution_validate c = Ok tt ↔
  2 ≤ signing_n c ∧ 1 ≤ signing_t c ≤ signing_n c ∧ signing_t c ≤ governance_t c ≤ signing_n c
  ∧ p_reward_bps c ≤ p_reward_max_bps c
  ∧ miners_bps (profit_splits c) + channels_bps (profit_splits c) + infra_bps (profit_splits c) = 10000
  ∧ (3 ≤ pq_kem_security_category (downgrade_policy c) ∧ 3 ≤ pq_signature_security_category (downgrade_policy c)
     ∧ 256 ≤ symmetric_security_bits (downgrade_policy c))
  ∧ hash c = compute_hash c.
Proof.
  assert (∀ (r : res unit) (f : unit → res unit), r ≫= f = Ok tt ↔ r = Ok tt ∧ f tt = Ok tt) as Hb.
  { intros [[]|] f; unfold mbind, result_bind; naive_solver. }
  unfold constitution_validate. rewrite !guard_ok, !Hb, guard_ok, splits_validate_ok, downgrade_validate_ok.
  nbool. rewrite String.eqb_eq. split; intros; destruct_and!; repeat split; try done; lia.
Qed.

(** The two constructors build a sealed constitution from the same quorum rule. *)
Lemma seal_validates `{!Sha256} c : measurement_pin c = None → 2 ≤ signing_n c →
  1 ≤ signing_t c ≤ signing_n c → signing_t c ≤ governance_t c ≤ signing_n c →
  p_reward_bps c ≤ p_reward_max_bps c → splits_validate (profit_splits c) = Ok tt →
  downgrade_policy c = downgrade_default →
  constitution_validate (constitution_seal c) = Ok tt
  ∧ measurement_pin (constitution_seal c)
    = Some (measurement_from_bytes (bytes_of (hash (constitution_seal c)))).
Proof.
  intros Hpin Hn Ht Hg Hp Hs Hd. unfold constitution_seal, ensure_measurement_pin. simpl.
  rewrite bool_decide_true by done. simpl. split; [|done]. rewrite constitution_validate_ok. simpl.
  apply splits_validate_ok in Hs. rewrite Hd. simpl. repeat split; try done; lia.
Qed.

(** Both genesis constitutions validate for every mesh size of at least two: the signing quorum is
    two thirds rounded up, the governance quorum one more (capped at [n]), the measurement pin is the
    digest of the constitution's own hash; for one node or none both are refused. *)
Theorem genesis_validates {S : Sha256} (n : N) (make : N → res Constitution) :
  make = v1_lab ∨ make = v1_open → n < 9223372036854775808 →
  if n <? 2 then make n = Err (InvalidConstitution "signing_n must be >= 2")
  else ∃ c, make n = Ok c ∧ constitution_validate c = Ok tt ∧ signing_n c = n
    ∧ signing_t c = quorum_two_thirds n ∧ governance_t c = N.min (quorum_two_thirds n + 1) n
    ∧ measurement_pin_or_hash c = measurement_from_bytes (bytes_of (hash c)).
Proof.
  intros Hmake Hn. destruct (N.ltb_spec n 2) as [H|H].
  { assert ((n <? 2) = true) as E by (by apply N.ltb_lt).
    destruct Hmake as [-> | ->]; [unfold v1_lab|unfold v1_open]; by rewrite E. }
  assert ((n <? 2) = false) as E by (by apply N.ltb_ge).
  pose proof (quorum_le n ltac:(lia)) as Hq.
  assert (wrap64 (quorum_two_thirds n + 1) = quorum_two_thirds n + 1) as Hw
    by (apply wrap64_exact; unfold u64_max; lia).
  destruct Hmake as [-> | ->]; [unfold v1_lab|unfold v1_open]; rewrite E; cbv zeta; rewrite Hw.
  - change (splits_validate splits_lab_dry_run) with (Ok tt : res unit). unfold mbind, result_bind.
    eexists. split; [reflexivity|]. split; [apply seal_validates; simpl; try done; try lia|done].
  - change (splits_open_with_reward 100) with
      (Ok {| miners_bps := 100; channels_bps := 4950; infra_bps := 4950 |} : res ProfitSplits).
    unfold mbind, result_bind.
    eexists. split; [reflexivity|]. split; [apply seal_validates; simpl; try done; try lia|done].
Qed.

#[local] Existing Instance toy_sha256.
Lemma genesis_validates_witness : ∃ c, v1_open 3 = Ok c ∧ constitution_validate c = Ok tt ∧ signing_t c = 2.
Proof.
  destruct (genesis_validates 3 v1_open (or_intror eq_refl)) as (c & H1 & H2 & _ & H3 & _); [lia|].
  exists c. split; [exact H1|]. split; [exact H2|]. rewrite H3. vm_compute. reflexivity.
Defined.

(* ------------------------------------------------------------------ *)
(** ** What the hash commits to *)

Definition numbers (c : Constitution) : list N :=
  [version c; max_withdraw_per_day_sats c; max_withdraw_per_tx_sats c; signing_n c; signing_t c; governance_t c;
   p_reward_bps c; p_reward_max_bps c; miners_bps (profit_splits c); channels_bps (profit_splits c);
   infra_bps (profit_splits c)].
Definition material_tail (c : Constitution) : string :=
  crypto_suite_id c +:+ (let prev := default "" (previous_hash c) in
                         if str_len prev =? 0 then "" else format "|prev_{}" [prev]) +:+ "".

Lemma material_inj c c' : constitution_material c = constitution_material c' →
  numbers c = numbers c' ∧ material_tail c = material_tail c'.
Proof.
  unfold constitution_material, numbers, material_tail. cbv zeta.
  generalize (crypto_suite_id c) (crypto_suite_id c'). intros s s'.
  generalize (if str_len (default "" (previous_hash c)) =? 0 then "" else format "|prev_{}" [default "" (previous_hash c)]).
  generalize (if str_len (default "" (previous_hash c')) =? 0 then "" else format "|prev_{}" [default "" (previous_hash c')]).
  intros p' p. cbn [format Ascii.eqb]. intros He.
  repeat match goal with
  | H : String.String _ _ = String.String _ _ |- _ => injection H as H
  | H : show _ +:+ _ = show _ +:+ _ |- _ =>
      apply show_inj in H; [destruct H as [? H]|reflexivity|reflexivity]
  end.
  split; [|done]. congruence.
Qed.

(** The constitution hash binds the economic and quorum parameters: two constitutions that both
    validate with the same hash agree on the version, the withdrawal caps, n, both thresholds, the
    reward rates and the three profit splits, unless their two hashed texts are a SHA-256 clash. *)
Theorem constitution_hash_binds `{!Sha256} c c' :
  constitution_validate c = Ok tt → constitution_validate c' = Ok tt → hash c = hash c' →
  numbers c = numbers c' ∧ material_tail c = material_tail c' ∨ sha256_clash (λ b, b = bytes_of (constitution_material c) ∨ b = bytes_of (constitution_material c')).
Proof.
  rewrite !constitution_validate_ok. intros (_ & _ & _ & _ & _ & _ & Hc) (_ & _ & _ & _ & _ & _ & Hc') Hh.
  rewrite Hc, Hc' in Hh. unfold compute_hash, measurement_from_bytes in Hh. simpl in Hh.
  destruct (decide (bytes_of (constitution_material c) = bytes_of (constitution_material c'))) as [He|Hne].
  - left. apply material_inj. by rewrite <- (str_of_bytes_of (constitution_material c)), He, str_of_bytes_of.
  - right. eexists _, _. split; [by left|]. split; [by right|done].
Qed.

Lemma constitution_hash_binds_witness : ∃ c, v1_lab 5 = Ok c ∧ constitution_validate c = Ok tt
  ∧ (numbers c = numbers c ∧ material_tail c = material_tail c ∨ sha256_clash (λ b, b = bytes_of (constitution_material c) ∨ b = bytes_of (constitution_material c))).
Proof.
  eexists. split; [vm_compute; reflexivity|]. split; [vm_compute; reflexivity|].
  apply constitution_hash_binds; vm_compute; reflexivity.
Defined.

(** The payout frequency, the downgrade policy and the wire versions are outside the hash: amending
    the frequency leaves the hash as it is. *)
Lemma frequency_not_hashed `{!Sha256} f c : compute_hash (set_frequency f c) = compute_hash c.
Proof. reflexivity. Qed.

(** Opening minus closing braces of a text. *)
Definition brace_balance (s : string) : Z :=
  foldl (λ z a, if Ascii.eqb a "{"%char then z + 1 else if Ascii.eqb a "}"%char then z - 1 else z)%Z 0%Z (bytes_of s).
(** The JSON text never closes its outer object. *)
Lemma constitution_json_unclosed : ∃ c, v1_lab 5 = Ok c ∧ brace_balance (constitution_to_json c) = 1%Z.
Proof. eexists. split; vm_compute; reflexivity. Qed.
