(* ===== verification/QuorumClaim.v ===== *)
(** * Quorum claims over a mesh of vaults

    The protocol shared by [QuorumAntiNonce] ([adapters/session_persist.rs]) and
    [QuorumBucketLedger] ([adapters/intent_consume.rs]): burn an id durably at
    home, ask every peer to burn it too, refuse when a peer already had it or
    fewer than two thirds of the mesh took part. The store a node keeps is an
    interface, [PrepareStore]; [Mesh] runs claims of all nodes interleaved. *)
From S2P Require Import Prelude RustStr Errors Constitution PersistedLedger.
Local Open Scope N_scope.

(** A node's durable store: check-and-insert, [Ok true] when the id was there. *)
Class PrepareStore (S : Type) := {
  st_prepare : Io → string → dcmd S bool;
  st_seen : string → S → bool;
}.
(** What the protocol needs of it. *)
Class PrepareStoreSpec (S : Type) `{!PrepareStore S} : Prop := {
  prepare_fresh io id (s s' : S) : st_prepare io id s = (s', Ok false) →
    st_seen id s = false ∧ st_seen id s' = true;
  prepare_mono io id (s s' : S) r i : st_prepare io id s = (s', r) → st_seen i s = true → st_seen i s' = true;
  prepare_io_ok id (s : S) : ∃ s', st_prepare IoOk id s = (s', Ok (st_seen id s)) ∧ st_seen id s' = true;
}.

(** [n = 1 + peer_count], [t = ceil(2n/3)], solo [t = 1]. *)
Definition quorum_of (peer_count : N) : N :=
  let n := N.max (sat_add64 peer_count 1) 1 in
  if peer_count =? 0 then 1 else N.max (quorum_two_thirds n) 1.

(** The verdict on the peers' [already_seen] answers. *)
Definition decide_claim (seen_err : DomainError) (quorum_t : N) (acks : list bool) : res unit :=
  if existsb Datatypes.id acks then Err seen_err
  else
    let have := 1 + len acks in
    if have <? quorum_t then Err (QuorumNotMet have quorum_t) else Ok tt.

Lemma decide_claim_ok e t acks : decide_claim e t acks = Ok tt ↔
  Forall (λ b, b = false) acks ∧ t ≤ 1 + len acks.
Proof.
  unfold decide_claim. cbv zeta. rewrite !guard_ok, N.ltb_ge.
  assert (existsb Datatypes.id acks = false ↔ Forall (λ b, b = false) acks) as ->; [|naive_solver].
  induction acks as [|b acks IH]; simpl; [done|]. rewrite orb_false_iff, IH, Forall_cons. done.
Qed.

(* ------------------------------------------------------------------ *)
(** ** The claim as one call, over a transport *)

(** The stores of the mesh by node name. *)
Abbreviation Stores := (gmap string).

Section claim.
Context {S : Type} `{!PrepareStore S}.

(** Run a store operation at a node; a name that is not in the mesh is unreachable. *)
Definition at_node {A} (node : string) (unreachable : DomainError) (c : dcmd S A) : dcmd (Stores S) A := λ m,
  match m !! node with
  | Some s => let '(s', r) := c s in (<[node := s']> m, r)
  | None => (m, Err unreachable)
  end.

(** The in-memory transport: every peer in order, the first error ends the call. *)
Fixpoint prepare_on_peers (peers : list (string * Io)) (id : string) : dcmd (Stores S) (list bool) :=
  match peers with
  | [] => mret []
  | (p, io) :: rest =>
      b ← at_node p (PeerNotFound p) (st_prepare io id);
      bs ← prepare_on_peers rest id;
      mret (b :: bs)
  end.

Definition quorum_claim (local_err seen_err : DomainError) (quorum_t : N) (node : string) (io : Io)
    (transport : string → dcmd (Stores S) (list bool)) (id : string) : dcmd (Stores S) unit :=
  already ← at_node node (PeerNotFound node) (st_prepare io id);
  if (already : bool) then fail local_err
  else
    acks ← transport id;
    lift (decide_claim seen_err quorum_t acks).

(** Does node [p] of the mesh have the id? *)
Definition node_seen (m : Stores S) (id p : string) : bool :=
  match m !! p with Some s => st_seen id s | None => false end.

Context `{!PrepareStoreSpec S}.

Lemma prepare_on_peers_up (peers : list string) id (m : Stores S) :
  NoDup peers → (∀ p, p ∈ peers → is_Some (m !! p)) →
  ∃ m', prepare_on_peers (map (λ p, (p, IoOk)) peers) id m = (m', Ok (map (node_seen m id) peers))
    ∧ (∀ p, p ∈ peers → node_seen m' id p = true) ∧ (∀ p, p ∉ peers → m' !! p = m !! p).
Proof.
  intros Hnd. revert m. induction Hnd as [|p peers Hp Hnd IH]; intros m Hup.
  { exists m. split; [done|]. split; [intros p Hp; by apply elem_of_nil in Hp|done]. }
  destruct (Hup p ltac:(by left)) as [s Hs]. destruct (prepare_io_ok id s) as (s' & Hprep & Hseen).
  destruct (IH (<[p := s']> m)) as (m' & Hm' & Hin & Hout).
  { intros x Hx. rewrite lookup_insert_ne by (intros ->; done). apply Hup. by right. }
  exists m'. cbn [prepare_on_peers map]. cbv [mbind cmd_bind mret cmd_ret at_node]. rewrite Hs, Hprep.
  cbv [mbind cmd_bind mret cmd_ret at_node] in Hm'. rewrite Hm'. split; [|split].
  - assert (map (node_seen (<[p := s']> m) id) peers = map (node_seen m id) peers) as ->.
    { apply map_ext_in. intros x Hx%list_elem_of_In.
      unfold node_seen. rewrite lookup_insert_ne; [done|]. intros ->. done. }
    unfold node_seen at 2. by rewrite Hs.
  - intros x [->|Hx]%elem_of_cons; [|by apply Hin]. unfold node_seen.
    rewrite (Hout p Hp), lookup_insert_eq. done.
  - intros x Hx. rewrite Hout by set_solver. apply lookup_insert_ne. set_solver.
Qed.

(** With every peer up, a claim's verdict is decided by who had the id: the local error when the
    node had it (and then nothing changes but the local store), the seen error when some peer had it,
    success when nobody had; and after an answer from the peers the whole mesh has the id. *)
Theorem quorum_claim_verdict local_err seen_err t node (peers : list string) id (m : Stores S) :
  NoDup (node :: peers) → (∀ p, p ∈ node :: peers → is_Some (m !! p)) → t ≤ 1 + len peers →
  let '(m', r) := quorum_claim local_err seen_err t node IoOk
                    (prepare_on_peers (map (λ p, (p, IoOk)) peers)) id m in
  if node_seen m id node then r = Err local_err ∧ ∀ p, p ≠ node → m' !! p = m !! p
  else r = (if existsb (node_seen m id) peers then Err seen_err else Ok tt)
       ∧ ∀ p, p ∈ node :: peers → node_seen m' id p = true.
Proof.
  intros [Hn Hnd]%NoDup_cons Hup Ht. destruct (Hup node ltac:(by left)) as [s Hs].
  destruct (prepare_io_ok id s) as (s' & Hprep & Hseen).
  destruct (prepare_on_peers_up peers id (<[node := s']> m) Hnd) as (m' & Hm' & Hin & Hout).
  { intros x Hx. rewrite lookup_insert_ne by (intros ->; done). apply Hup. by right. }
  assert (map (node_seen (<[node := s']> m) id) peers = map (node_seen m id) peers) as Hmap.
  { apply map_ext_in. intros x Hx%list_elem_of_In. unfold node_seen.
    rewrite lookup_insert_ne; [done|]. intros ->. done. }
  unfold quorum_claim. cbv [mbind cmd_bind mret cmd_ret fail lift at_node]. rewrite Hs, Hprep.
  unfold node_seen at 1. rewrite Hs. destruct (st_seen id s) eqn:Hsn.
  { split; [done|]. intros p Hp. by apply lookup_insert_ne. }
  cbv [at_node] in Hm'. rewrite Hm'. split.
  - rewrite Hmap. unfold decide_claim.
    assert (existsb Datatypes.id (map (node_seen m id) peers) = existsb (node_seen m id) peers) as ->.
    { clear. induction peers as [|p peers IH]; simpl; [done|]. by rewrite IH. }
    destruct (existsb _ peers); [done|]. cbv zeta. unfold len. rewrite length_map.
    destruct (N.ltb_spec (1 + N.of_nat (length peers)) t); [|done]. unfold len in Ht. lia.
  - intros p [->|Hp]%elem_of_cons; [|by apply Hin]. unfold node_seen. by rewrite (Hout _ Hn), lookup_insert_eq.
Qed.
End claim.

(** A set of ids as a store, for the witnesses. *)
#[local] Instance set_store : PrepareStore (gset string) := {|
  st_prepare _ id := λ s, ({[id]} ∪ s, Ok (bool_decide (id ∈ s)));
  st_seen id s := bool_decide (id ∈ s) |}.
#[local] Instance set_store_spec : PrepareStoreSpec (gset string).
Proof.
  split; simpl.
  - intros _ id s s' [= <- Hn]. rewrite Hn. split; [done|]. apply bool_decide_eq_true. set_solver.
  - intros _ id s s' r i [= <- <-]. rewrite !bool_decide_eq_true. set_solver.
  - intros id s. eexists. split; [done|]. apply bool_decide_eq_true. set_solver.
Qed.

Definition three_stores : Stores (gset string) := {[ "a" := ∅; "b" := ∅; "c" := ∅ ]}.
Lemma quorum_claim_verdict_witness :
  (quorum_claim (IntentReplay "s") (IntentReplay "peer") 2 "a" IoOk
     (prepare_on_peers (map (λ p, (p, IoOk)) ["b"; "c"])) "s" three_stores).2 = Ok tt ∧
  let '(m', r) := quorum_claim (IntentReplay "s") (IntentReplay "peer") 2 "a" IoOk
                    (prepare_on_peers (map (λ p, (p, IoOk)) ["b"; "c"])) "s" three_stores in
  if node_seen three_stores "s" "a" then r = Err (IntentReplay "s") ∧ ∀ p, p ≠ "a" → m' !! p = three_stores !! p
  else r = (if existsb (node_seen three_stores "s") ["b"; "c"] then Err (IntentReplay "peer") else Ok tt)
       ∧ ∀ p, p ∈ ["a"; "b"; "c"] → node_seen m' "s" p = true.
Proof.
  split; [vm_compute; reflexivity|].
  apply (quorum_claim_verdict (IntentReplay "s") (IntentReplay "peer") 2 "a" ["b"; "c"] "s" three_stores).
  - apply NoDup_ListNoDup. repeat constructor; simpl; intuition discriminate.
  - intros p Hp. repeat (apply elem_of_cons in Hp as [->|Hp]; [vm_compute; eauto|]). by apply elem_of_nil in Hp.
  - vm_compute. discriminate.
Defined.

(* ------------------------------------------------------------------ *)
(** ** Interleaved claims *)

Module Mesh.
Section mesh.
Context {S : Type} `{!PrepareStore S}.

(** A claim in progress. [asked] pairs the peers that answered with their [already_seen];
    [held] records that the home node burned the id for this claim. *)
Inductive phase := Local | Asking | Finished (r : res unit).
Record Claim := {
  home : string;
  cid : string;
  todo : list string;
  asked : list (string * bool);
  held : bool;
  at_phase : phase;
}.
Definition begin (node id : string) (peers : list string) : Claim :=
  {| home := node; cid := id; todo := peers; asked := []; held := false; at_phase := Local |}.
Definition set_phase (ph : phase) (c : Claim) : Claim :=
  {| home := home c; cid := cid c; todo := todo c; asked := asked c; held := held c; at_phase := ph |}.
Definition after_local (c : Claim) : Claim :=
  {| home := home c; cid := cid c; todo := todo c; asked := asked c; held := true; at_phase := Asking |}.
Definition after_peer (ack : option bool) (c : Claim) : Claim :=
  {| home := home c; cid := cid c; todo := tail (todo c);
     asked := match todo c, ack with p :: _, Some b => asked c ++ [(p, b)] | _, _ => asked c end;
     held := held c; at_phase := at_phase c |}.

Definition State : Type := gmap string S * list Claim.

Context (nodes : gset string) (peers_of : string → list string).
(** Every node lists every other node once. *)
Definition full_mesh : Prop :=
  ∀ n, n ∈ nodes → NoDup (peers_of n) ∧ ∀ p, p ∈ peers_of n ↔ p ∈ nodes ∧ p ≠ n.
Definition peer_count : N := N.of_nat (size nodes) - 1.

Inductive step : State → State → Prop :=
| start m cs n id : n ∈ nodes → step (m, cs) (m, cs ++ [begin n id (peers_of n)])
| local_burn m cs i c s s' io r : cs !! i = Some c → at_phase c = Local → m !! home c = Some s →
    st_prepare io (cid c) s = (s', r) →
    step (m, cs) (<[home c := s']> m,
      <[i := match r with
             | Ok false => after_local c
             | Ok true => set_phase (Finished (Err (IntentReplay (cid c)))) c
             | Err e => set_phase (Finished (Err e)) c
             end]> cs)
| peer_answers m cs i c p ps s s' io b : cs !! i = Some c → at_phase c = Asking → todo c = p :: ps →
    m !! p = Some s → st_prepare io (cid c) s = (s', Ok b) →
    step (m, cs) (<[p := s']> m, <[i := after_peer (Some b) c]> cs)
| peer_answer_lost m cs i c p ps s s' io r : cs !! i = Some c → at_phase c = Asking → todo c = p :: ps →
    m !! p = Some s → st_prepare io (cid c) s = (s', r) →
    step (m, cs) (<[p := s']> m, <[i := after_peer None c]> cs)
| peer_unreachable m cs i c p ps : cs !! i = Some c → at_phase c = Asking → todo c = p :: ps →
    step (m, cs) (m, <[i := after_peer None c]> cs)
| transport_fails m cs i c e : cs !! i = Some c → at_phase c = Asking →
    step (m, cs) (m, <[i := set_phase (Finished (Err e)) c]> cs)
| conclude m cs i c : cs !! i = Some c → at_phase c = Asking → todo c = [] →
    step (m, cs) (m, <[i := set_phase (Finished (decide_claim (IntentReplay (cid c))
                                         (quorum_of peer_count) (asked c).*2)) c]> cs)
| other m cs p s s' : m !! p = Some s → (∀ id, st_seen id s = true → st_seen id s' = true) →
    step (m, cs) (<[p := s']> m, cs).

(** The nodes that burned the claim's id for this very claim. *)
Definition fresh_nodes (c : Claim) : list string :=
  (if held c then [home c] else []) ++ (filter (λ a, a.2 = false) (asked c)).*1.

Record claim_ok (m : gmap string S) (c : Claim) : Prop := {
  ok_home : home c ∈ nodes;
  ok_fresh_seen p : p ∈ fresh_nodes c → ∃ s, m !! p = Some s ∧ st_seen (cid c) s = true;
  ok_asked : ∃ done, peers_of (home c) = done ++ todo c ∧ sublist (asked c).*1 done;
  ok_held : at_phase c = Local → held c = false ∧ asked c = [];
  ok_asking : at_phase c = Asking → held c = true;
  ok_won : at_phase c = Finished (Ok tt) → held c = true
    ∧ Forall (λ a, a.2 = false) (asked c) ∧ quorum_of peer_count ≤ 1 + len (asked c);
}.
Record inv (st : State) : Prop := {
  inv_claims i c : st.2 !! i = Some c → claim_ok st.1 c;
  inv_disjoint i j c d : st.2 !! i = Some c → st.2 !! j = Some d → i ≠ j → cid c = cid d →
    ∀ p, p ∈ fresh_nodes c → p ∉ fresh_nodes d;
}.
Context `{!PrepareStoreSpec S}.

Lemma claim_ok_store m c p s s' : m !! p = Some s → (∀ i, st_seen i s = true → st_seen i s' = true) →
  claim_ok m c → claim_ok (<[p := s']> m) c.
Proof.
  intros Hp Hm [H1 H2 H3 H4 H5 H6]. split; try done. intros x Hx. destruct (H2 x Hx) as (sx & Hsx & Hseen).
  destruct (decide (p = x)) as [->|].
  - exists s'. rewrite lookup_insert_eq. split; [done|]. apply Hm. congruence.
  - exists sx. by rewrite lookup_insert_ne.
Qed.

Lemma fresh_not_seen m d p s : claim_ok m d → m !! p = Some s → st_seen (cid d) s = false → p ∉ fresh_nodes d.
Proof. intros Hd Hp Hs Hin. destruct (ok_fresh_seen _ _ Hd p Hin) as (s2 & ? & ?). congruence. Qed.

Lemma inv_update m m' cs i c c' : inv (m, cs) → cs !! i = Some c → cid c' = cid c → claim_ok m' c' →
  (∀ d, claim_ok m d → claim_ok m' d) →
  (∀ p, p ∈ fresh_nodes c' → p ∈ fresh_nodes c
        ∨ ∀ d, claim_ok m d → cid d = cid c → p ∉ fresh_nodes d) →
  inv (m', <[i := c']> cs).
Proof.
  intros [H1 H2] Hi Hid Hc' Hmono Hnew. simpl in *. split; simpl.
  - intros j d [(-> & <- & _)|[_ Hj]]%list_lookup_insert_Some; [done|]. eauto.
  - assert (∀ j d, j ≠ i → cs !! j = Some d → cid d = cid c → ∀ p, p ∈ fresh_nodes c' → p ∉ fresh_nodes d) as Hd.
    { intros j d Hj Hd Heq p Hp. destruct (Hnew p Hp) as [Hold|Hn]; [|eauto].
      by apply (H2 i j c d Hi Hd). }
    intros j k x y [(-> & <- & _)|[Hji Hj]]%list_lookup_insert_Some
      [(-> & <- & _)|[Hki Hk]]%list_lookup_insert_Some Hne Hcid p Hp; try done.
    + apply (Hd k y); [done|done|congruence|done].
    + intros Hpy. apply (Hd j x) in Hpy; [done|done|done|congruence].
    + by apply (H2 j k x y).
Qed.

Lemma set_phase_fresh r c : fresh_nodes (set_phase r c) = fresh_nodes c.
Proof. done. Qed.

Lemma claim_ok_finish m c r : claim_ok m c → r ≠ Ok tt → claim_ok m (set_phase (Finished r) c).
Proof. intros [] Hr. split; simpl; try done. intros [= ->]. done. Qed.

Lemma after_peer_asked m c p ps ack : todo c = p :: ps → claim_ok m c → at_phase c = Asking →
  (ack = Some false → ∃ s, m !! p = Some s ∧ st_seen (cid c) s = true) →
  claim_ok m (after_peer ack c).
Proof.
  intros Ht [H1 H2 H3 H4 H5 H6] Hph Hack.
  assert (∀ x, x ∈ fresh_nodes (after_peer ack c) → x ∈ fresh_nodes c ∨ (x = p ∧ ack = Some false)) as Hf.
  { intros x. unfold fresh_nodes, after_peer. simpl. rewrite Ht. destruct ack as [b|]; [|by left].
    rewrite filter_app, fmap_app, !elem_of_app. intros [Hx|[Hx|Hx]]; [by left; auto..|].
    destruct b; simpl in Hx; [by apply elem_of_nil in Hx|]. apply list_elem_of_singleton in Hx as ->. by right. }
  split; try done.
  - intros x Hx. destruct (Hf x Hx) as [Hx'|[-> ->]]; [by apply H2|by apply Hack].
  - destruct H3 as (done & Hpeers & Hsub). exists (done ++ [p]). simpl. rewrite Ht in *. simpl.
    split; [by rewrite <- app_assoc|]. destruct ack as [b|].
    + rewrite fmap_app. simpl. by apply sublist_app.
    + etrans; [exact Hsub|]. by apply sublist_inserts_r.
  - simpl. congruence.
  - simpl. congruence.
Qed.

Lemma after_peer_fresh c p ps ack x : todo c = p :: ps →
  x ∈ fresh_nodes (after_peer ack c) → x ∈ fresh_nodes c ∨ (x = p ∧ ack = Some false).
Proof.
  intros Ht. unfold fresh_nodes, after_peer. simpl. rewrite Ht. destruct ack as [b|]; [|by left].
  rewrite filter_app, fmap_app, !elem_of_app. intros [Hx|[Hx|Hx]]; [by left; auto..|].
  destruct b; simpl in Hx; [by apply elem_of_nil in Hx|]. apply list_elem_of_singleton in Hx as ->. by right.
Qed.

Lemma begin_ok m n id : n ∈ nodes → claim_ok m (begin n id (peers_of n)).
Proof.
  intros Hn. split; simpl; try done.
  - intros p Hp. by apply elem_of_nil in Hp.
  - exists []. split; [done|]. apply sublist_nil_l.
Qed.

Lemma inv_step st st' : inv st → step st st' → inv st'.
Proof.
  intros Hinv Hs. destruct Hs as [m cs n id Hn|m cs i c s s' io r Hi Hph Hm Hp|m cs i c p ps s s' io b Hi Hph Ht Hm Hp
    |m cs i c p ps s s' io r Hi Hph Ht Hm Hp|m cs i c p ps Hi Hph Ht|m cs i c e Hi Hph|m cs i c Hi Hph Ht|m cs p s s' Hm Hmono].
  - destruct Hinv as [H1 H2]. simpl in *.
    assert (fresh_nodes (begin n id (peers_of n)) = []) as Hf by done.
    split; simpl.
    + intros i c Hc. apply lookup_app_Some in Hc as [Hc|[_ Hc]]; [eauto|].
      apply list_lookup_singleton_Some in Hc as [_ <-]. by apply begin_ok.
    + intros i j c d Hc Hd Hij Hid p Hpc Hpd.
      apply lookup_app_Some in Hc as [Hc|[_ Hc]];
        [|apply list_lookup_singleton_Some in Hc as [_ <-]; rewrite Hf in Hpc; by apply elem_of_nil in Hpc].
      apply lookup_app_Some in Hd as [Hd|[_ Hd]];
        [|apply list_lookup_singleton_Some in Hd as [_ <-]; rewrite Hf in Hpd; by apply elem_of_nil in Hpd].
      by apply (H2 i j c d Hc Hd Hij Hid p Hpc).
  - pose proof (inv_claims _ Hinv i c Hi) as Hc. simpl in Hc.
    assert (∀ d, claim_ok m d → claim_ok (<[home c := s']> m) d) as Hst.
    { intros d. apply (claim_ok_store _ _ _ _ _ Hm). intros x. by apply (prepare_mono _ _ _ _ _ x Hp). }
    destruct r as [[]|e].
    + apply (inv_update m _ cs i c); [done|done|done|by apply claim_ok_finish; [apply Hst|]|done|by left].
    + destruct (prepare_fresh _ _ _ _ Hp) as [Hn Hy]. destruct (ok_held _ _ Hc Hph) as [Hh Ha].
      apply (inv_update m _ cs i c); [done|done|done| |done|].
      * destruct (Hst c Hc) as [H1 H2 H3 H4 H5 H6]. split; simpl; try done.
        intros x Hx. unfold fresh_nodes in Hx. simpl in Hx. rewrite Ha in Hx.
        apply list_elem_of_singleton in Hx as ->. exists s'. by rewrite lookup_insert_eq.
      * intros x Hx. right. intros d Hd Hid. unfold fresh_nodes in Hx. simpl in Hx. rewrite Ha in Hx.
        apply list_elem_of_singleton in Hx as ->. apply (fresh_not_seen m d (home c) s); [done|done|congruence].
    + apply (inv_update m _ cs i c); [done|done|done|by apply claim_ok_finish; [apply Hst|]|done|by left].
  - pose proof (inv_claims _ Hinv i c Hi) as Hc. simpl in Hc.
    assert (∀ d, claim_ok m d → claim_ok (<[p := s']> m) d) as Hst.
    { intros d. apply (claim_ok_store _ _ _ _ _ Hm). intros x. by apply (prepare_mono _ _ _ _ _ x Hp). }
    apply (inv_update m _ cs i c); [done|done|done| |done|].
    + apply (after_peer_asked _ c p ps); [done|by apply Hst|done|]. intros [= ->].
      destruct (prepare_fresh _ _ _ _ Hp) as [_ Hy]. exists s'. by rewrite lookup_insert_eq.
    + intros x Hx. destruct (after_peer_fresh c p ps _ x Ht Hx) as [Hx'|[-> [= ->]]]; [by left|right].
      intros d Hd Hid. destruct (prepare_fresh _ _ _ _ Hp) as [Hn _].
      apply (fresh_not_seen m d p s); [done|done|congruence].
  - pose proof (inv_claims _ Hinv i c Hi) as Hc. simpl in Hc.
    assert (∀ d, claim_ok m d → claim_ok (<[p := s']> m) d) as Hst.
    { intros d. apply (claim_ok_store _ _ _ _ _ Hm). intros x. by apply (prepare_mono _ _ _ _ _ x Hp). }
    apply (inv_update m _ cs i c); [done|done|done| |done|].
    + apply (after_peer_asked _ c p ps); [done|by apply Hst|done|done].
    + intros x Hx. destruct (after_peer_fresh c p ps _ x Ht Hx) as [Hx'|[-> [=]]]. by left.
  - pose proof (inv_claims _ Hinv i c Hi) as Hc. simpl in Hc.
    apply (inv_update m _ cs i c); [done|done|done| |done|].
    + by apply (after_peer_asked _ c p ps).
    + intros x Hx. destruct (after_peer_fresh c p ps _ x Ht Hx) as [Hx'|[-> [=]]]. by left.
  - pose proof (inv_claims _ Hinv i c Hi) as Hc. simpl in Hc.
    apply (inv_update m _ cs i c); [done|done|done|by apply claim_ok_finish|done|by left].
  - pose proof (inv_claims _ Hinv i c Hi) as Hc. simpl in Hc.
    apply (inv_update m _ cs i c); [done|done|done| |done|by left].
    destruct (decide_claim _ _ _) as [[]|e] eqn:Hd; [|by apply claim_ok_finish].
    apply decide_claim_ok in Hd as [Hall Ht2]. destruct Hc as [H1 H2 H3 H4 H5 H6].
    split; simpl; try done. intros _. split; [by apply H5|]. split; [by apply Forall_fmap in Hall|].
    by rewrite len_fmap in Ht2.
  - destruct Hinv as [H1 H2]. split; [|done]. intros i c Hc. simpl in *.
    by apply (claim_ok_store _ _ _ _ _ Hm Hmono), (H1 i).
Qed.

Lemma fresh_nodes_nodup m c : full_mesh → claim_ok m c → NoDup (fresh_nodes c) ∧ ∀ p, p ∈ fresh_nodes c → p ∈ nodes.
Proof.
  intros Hf [H1 H2 (done & Hp & Hsub) H4 H5 H6]. destruct (Hf (home c) H1) as [Hnd Hin].
  rewrite Hp in Hnd. apply NoDup_app in Hnd as (Hnd & _ & _).
  assert (sublist (filter (λ a, a.2 = false) (asked c)).*1 (asked c).*1) as Hs2.
  { apply fmap_sublist, sublist_filter. }
  assert (∀ p, p ∈ (filter (λ a, a.2 = false) (asked c)).*1 → p ∈ peers_of (home c)) as Hsubs.
  { intros p Hx. rewrite Hp. apply elem_of_app. left. by eapply sublist_subseteq, sublist_subseteq, Hx. }
  unfold fresh_nodes. split.
  - apply NoDup_app. split; [destruct (held c); [apply NoDup_singleton|constructor]|].
    split; [|by eapply sublist_NoDup; [|exact Hs2]; eapply sublist_NoDup].
    intros x Hx Hy. destruct (held c); [|by apply elem_of_nil in Hx].
    apply list_elem_of_singleton in Hx as ->. apply Hsubs, Hin in Hy as [_ Hy]. done.
  - intros p [Hx|Hx]%elem_of_app; [|by apply Hin, Hsubs].
    destruct (held c); [|by apply elem_of_nil in Hx]. by apply list_elem_of_singleton in Hx as ->.
Qed.

Lemma disjoint_lists_size (X Y : list string) : NoDup X → NoDup Y →
  (∀ p, p ∈ X → p ∈ nodes) → (∀ p, p ∈ Y → p ∈ nodes) → (∀ p, p ∈ X → p ∉ Y) →
  (length X + length Y ≤ size nodes)%nat.
Proof.
  intros HX HY HXn HYn Hd. rewrite <- length_app, <- (size_list_to_set (C := gset string) (X ++ Y)).
  - apply subseteq_size. intros p [Hp|Hp]%elem_of_list_to_set%elem_of_app; auto.
  - apply NoDup_app. naive_solver.
Qed.

Lemma winner_quorum m c : claim_ok m c → at_phase c = Finished (Ok tt) →
  quorum_of peer_count ≤ N.of_nat (length (fresh_nodes c)).
Proof.
  intros Hc Hw. destruct (ok_won _ _ Hc Hw) as (Hh & Hall & Hq). etrans; [exact Hq|].
  unfold fresh_nodes. rewrite Hh, length_app, length_fmap. simpl.
  assert (filter (λ a : string * bool, a.2 = false) (asked c) = asked c) as ->; [|unfold len; lia].
  clear -Hall. induction Hall as [|a l Ha _ IH]; [done|]. rewrite filter_cons, IH.
  by rewrite decide_True.
Qed.

Lemma inv_reached m0 st : steps step (m0, []) st → inv st.
Proof.
  intros Hs. apply (steps_invariant step inv) in Hs; [done|intros; by eapply inv_step|].
  split; simpl; intros k; [intros x Hx|intros l x y Hx]; by rewrite lookup_nil in Hx.
Qed.
Lemma inv_single_winner m cs i j c d : full_mesh → 1 ≤ N.of_nat (size nodes) < 9223372036854775808 → inv (m, cs) →
  cs !! i = Some c → cs !! j = Some d → cid c = cid d →
  at_phase c = Finished (Ok tt) → at_phase d = Finished (Ok tt) → i = j.
Proof.
  intros Hf Hsz [H1 H2] Hi Hj Hid Hc Hd. destruct (decide (i = j)) as [|Hij]; [done|exfalso].
  simpl in *. pose proof (winner_quorum _ _ (H1 _ _ Hi) Hc) as Hqc. pose proof (winner_quorum _ _ (H1 _ _ Hj) Hd) as Hqd.
  destruct (fresh_nodes_nodup m c Hf (H1 _ _ Hi)) as [Hnc Hsc].
  destruct (fresh_nodes_nodup m d Hf (H1 _ _ Hj)) as [Hndd Hsd].
  pose proof (disjoint_lists_size _ _ Hnc Hndd Hsc Hsd (H2 i j c d Hi Hj Hij Hid)) as Hl.
  pose proof (quorum_bounds (N.of_nat (size nodes)) ltac:(lia)) as Hb.
  unfold quorum_of, peer_count in *. rewrite sat_add64_exact in * by (unfold u64_max; lia).
  replace (N.max (N.of_nat (size nodes) - 1 + 1) 1) with (N.of_nat (size nodes)) in * by lia.
  destruct (N.eqb_spec (N.of_nat (size nodes) - 1) 0); lia.
Qed.

(** Mesh-wide single use: in a full mesh (every node asks every other node once) of at least one
    node, whatever the interleaving of claims started anywhere, lost answers, unreachable peers,
    transport errors and other activity of the stores, at most one claim of an id ends in success: two
    successful claims of the same id are the same claim. The stores only have to satisfy the check-and-insert interface. *)
Theorem mesh_single_use m0 m cs i j c d :
  full_mesh → 1 ≤ N.of_nat (size nodes) < 9223372036854775808 →
  steps step (m0, []) (m, cs) → cs !! i = Some c → cs !! j = Some d → cid c = cid d →
  at_phase c = Finished (Ok tt) → at_phase d = Finished (Ok tt) → i = j.
Proof. intros Hf Hsz Hs. eapply inv_single_winner; [done..|]. by eapply inv_reached. Qed.
End mesh.

Definition two_nodes : gset string := {["a"; "b"]}.
Definition other_node (n : string) : list string := if String.eqb n "a" then ["b"] else ["a"].

Lemma two_nodes_mesh : full_mesh two_nodes other_node.
Proof.
  intros n Hn. unfold two_nodes in *. apply elem_of_union in Hn as [->%elem_of_singleton| ->%elem_of_singleton];
    (split; [apply NoDup_singleton|]); intros p; unfold other_node; simpl; set_solver.
Qed.

Lemma two_nodes_run : ∃ m c, steps (step two_nodes other_node) ({[ "a" := ∅; "b" := ∅ ]}, []) (m, [c])
  ∧ at_phase c = Finished (Ok tt) ∧ cid c = "s1".
Proof.
  eexists _, _. split; [|split].
  - eapply steps_cons; [apply (start _ _ _ _ "a" "s1"); set_solver|]. cbn [app].
    eapply steps_cons; [eapply (local_burn _ _ _ _ 0 _ _ _ IoOk); reflexivity|].
    eapply steps_cons; [eapply (peer_answers _ _ _ _ 0 _ _ _ _ _ IoOk); reflexivity|].
    eapply steps_cons; [eapply (conclude _ _ _ _ 0); reflexivity|].
    apply steps_refl.
  - vm_compute. reflexivity.
  - reflexivity.
Qed.

Lemma mesh_single_use_witness : ∃ m c, steps (step two_nodes other_node) ({[ "a" := ∅; "b" := ∅ ]}, []) (m, [c])
  ∧ at_phase c = Finished (Ok tt) ∧ (0 = 0)%nat.
Proof.
  destruct two_nodes_run as (m & c & Hs & Hc & _). exists m, c. split; [exact Hs|]. split; [exact Hc|].
  apply (mesh_single_use two_nodes other_node {[ "a" := ∅; "b" := ∅ ]} m [c] 0 0 c c two_nodes_mesh);
    [vm_compute; split; [discriminate|reflexivity]|exact Hs|reflexivity|reflexivity|reflexivity|exact Hc|exact Hc].
Defined.
End Mesh.
