(* ===== verification/AntiNonce.v ===== *)
(** * Anti-nonce session ledger

    [adapters/session_persist.rs] and the session binding of
    [application/ports.rs]: one signing session id is claimed at most once, by
    a durable local burn and a quorum of peers. *)
From S2P Require Import Prelude RustStr Errors BucketLedger PersistedLedger QuorumClaim.
Local Open Scope N_scope.

(** [PersistedAntiNonce]: burned ids, soft prepares with their expiry, the log file. *)
Record AntiNonce := { an_inner : gset string; an_soft : gmap string N; an_log : option bytes }.
Definition set_inner f (s : AntiNonce) : AntiNonce :=
  {| an_inner := f (an_inner s); an_soft := an_soft s; an_log := an_log s |}.
Definition set_soft f (s : AntiNonce) : AntiNonce :=
  {| an_inner := an_inner s; an_soft := f (an_soft s); an_log := an_log s |}.
Definition an_write (b : bytes) (s : AntiNonce) : AntiNonce :=
  {| an_inner := an_inner s; an_soft := an_soft s; an_log := Some (default [] (an_log s) ++ b) |}.

(** [PREPARE_TTL]. *)
Definition prepare_ttl : N := 120.

Definition load_ids (content : bytes) : gset string :=
  list_to_set (filter (λ id, negb (str_len id =? 0) = true) (map (λ l, trim (str_of l)) (lines content))).
Definition an_open (file : option bytes) : AntiNonce :=
  {| an_inner := match file with Some content => load_ids content | None => ∅ end; an_soft := ∅; an_log := file |}.

Definition append_id (io : Io) (session_id : string) : dcmd AntiNonce unit :=
  let line := bytes_of session_id ++ [newline] in
  match io with
  | IoOk => update (an_write line)
  | IoOpenErr e => fail (ThresholdError (format "anti-nonce append: {}" [e]))
  | IoWriteErr n e =>
      _ ← update (an_write (take n line)); fail (ThresholdError (format "anti-nonce write: {}" [e]))
  | IoSyncErr e => _ ← update (an_write line); fail (ThresholdError (format "anti-nonce sync: {}" [e]))
  end.

Definition sweep_soft (now : N) (m : gmap string N) : gmap string N := filter (λ p, (now <? p.2) = true) m.

(** The lock is held over the append, so the whole body is atomic. *)
Definition an_prepare (io : Io) (session_id : string) : dcmd AntiNonce bool :=
  g ← get;
  if bool_decide (session_id ∈ an_inner g) then mret true
  else
    _ ← append_id io session_id;
    _ ← update (set_inner ({[session_id]} ∪.));
    _ ← update (set_soft (delete session_id));
    mret false.

Definition an_prepare_soft (now now' : N) (session_id : string) : dcmd AntiNonce bool :=
  g ← get;
  if bool_decide (session_id ∈ an_inner g) then mret true
  else
    _ ← update (set_soft (sweep_soft now));
    g ← get;
    if bool_decide (is_Some (an_soft g !! session_id)) then mret true
    else
      _ ← update (set_soft (<[session_id := now' + prepare_ttl]>));
      mret false.

Definition session_used (session_id : string) : DomainError :=
  NonceReuse (format "session_id already used: {}" [session_id]).

Definition an_claim_session (io : Io) (session_id : string) : dcmd AntiNonce unit :=
  already ← an_prepare io session_id;
  if (already : bool) then fail (session_used session_id) else mret tt.

Definition an_is_consumed (now : N) (session_id : string) : dcmd AntiNonce bool :=
  g ← get;
  if bool_decide (session_id ∈ an_inner g) then mret true
  else
    _ ← update (set_soft (sweep_soft now));
    g ← get; mret (bool_decide (is_Some (an_soft g !! session_id))).

Definition bind_session_to_intent (session_id intent_id : string) : res unit :=
  let intent_id := trim intent_id in
  let session_id := trim session_id in
  if (str_len intent_id =? 0) || (str_len session_id =? 0)
  then Err (NonceReuse "session_id and intent_id required for anti-nonce prepare")
  else if String.eqb session_id intent_id || starts_with (format "{}:" [intent_id]) session_id then Ok tt
  else Err (NonceReuse (format "session_id {} not bound to intent {}" [session_id; intent_id])).

Definition an_prepare_remote_bound (now now' : N) (session_id intent_id : string) : dcmd AntiNonce bool :=
  _ ← lift (bind_session_to_intent session_id intent_id);
  an_prepare_soft now now' session_id.

(* ------------------------------------------------------------------ *)
(** ** The store interface and the quorum claim *)

#[export] Instance anti_nonce_store : PrepareStore AntiNonce :=
  {| st_prepare := an_prepare; st_seen id s := bool_decide (id ∈ an_inner s) |}.

Lemma append_id_inner io id s : an_inner (append_id io id s).1 = an_inner s.
Proof. by destruct io. Qed.

#[export] Instance anti_nonce_store_spec : PrepareStoreSpec AntiNonce.
Proof.
  split; simpl; unfold an_prepare; cbv [mret mbind cmd_ret cmd_bind get update].
  - intros io id s s'. case_bool_decide as Hc; [done|].
    pose proof (append_id_inner io id s) as Ha. destruct (append_id io id s) as [s1 [[]|e]]; [|done].
    intros [= <-]. simpl. split; [done|]. apply bool_decide_eq_true. set_solver.
  - intros io id s s' r i. rewrite !bool_decide_eq_true. case_bool_decide as Hc; [by intros [= <- <-]|].
    pose proof (append_id_inner io id s) as Ha. destruct (append_id io id s) as [s1 [[]|e]]; simpl in Ha;
      intros [= <- <-]; simpl; set_solver.
  - intros id s. case_bool_decide as Hc; [exists s; by rewrite bool_decide_true|].
    eexists. split; [done|]. simpl. apply bool_decide_eq_true. set_solver.
Qed.

(** [QuorumAntiNonce::claim_session] at a node of the mesh. *)
Definition quorum_claim_session (peer_count : N) (node : string) (io : Io)
    (transport : string → dcmd (Stores AntiNonce) (list bool)) (session_id : string) : dcmd (Stores AntiNonce) unit :=
  quorum_claim (session_used session_id) (NonceReuse (format "session_id seen on ≥1 peer: {}" [session_id]))
    (quorum_of peer_count) node io transport session_id.

