(* ===== verification/IntentConsume.v ===== *)
(** * The quorum bucket ledger

    [QuorumBucketLedger] of [adapters/intent_consume.rs]: the durable bucket
    ledger of a node with its claims replicated on the peers. The transport's
    answers (one [already_seen] per peer that answered) are an argument. *)
From S2P Require Import Prelude RustStr Errors Bucket BucketLedger PersistedLedger QuorumClaim.
Local Open Scope N_scope.

(** The durable ledger is a check-and-insert store. *)
#[export] Instance persisted_store : PrepareStore PState :=
  {| st_prepare := prepare_consume; st_seen id p := bool_decide (id ∈ consumed (mem p)) |}.

#[export] Instance persisted_store_spec : PrepareStoreSpec PState.
Proof.
  split; simpl; unfold prepare_consume, seen, insert_burned; cbv [mret mbind cmd_ret cmd_bind get update].
  - intros io id p p'. case_bool_decide as Hc; [done|].
    pose proof (append_consumed_mem io id p) as Ha. destruct (append_consumed io id p) as [p1 [[]|e]]; [|done].
    simpl in Ha. rewrite Ha, bool_decide_false by done. intros [= <-]. simpl.
    split; [done|]. apply bool_decide_eq_true. rewrite Ha. set_solver.
  - intros io id p p' r i. rewrite !bool_decide_eq_true. case_bool_decide as Hc; [by intros [= <- <-]|].
    pose proof (append_consumed_mem io id p) as Ha. destruct (append_consumed io id p) as [p1 [[]|e]]; simpl in Ha.
    + rewrite Ha, bool_decide_false by done. intros [= <- <-]. simpl. rewrite Ha. set_solver.
    + intros [= <- <-]. by rewrite Ha.
  - intros id p. case_bool_decide as Hc; [exists p; by rewrite bool_decide_true|].
    simpl. rewrite bool_decide_false by done. eexists. split; [done|]. simpl. apply bool_decide_eq_true. set_solver.
Qed.

Definition peer_seen (id : string) : DomainError := IntentReplay (format "intent seen on ≥1 peer: {}" [id]).

Section quorum_ledger.
(** [quorum_t] is [quorum_of peer_count]. *)
Context (peer_count : N) (node : string).
Let quorum_t := quorum_of peer_count.
Abbreviation Net := (Stores PState).

(** A call on the node's own ledger. *)
Definition on_local {A} (c : dcmd PState A) : dcmd Net A := at_node node (PeerNotFound node) c.

Definition quorum_prepare_remote (now now' : N) (id : string) : dcmd Net bool := on_local (prepare_soft now now' id).
Definition quorum_prepare_remote_durable (io : Io) (id : string) : dcmd Net bool := on_local (prepare_consume io id).

Definition claim_reserve (now now' : N) (soft : string → dcmd Net (list bool)) (id : string) : dcmd Net unit :=
  already ← on_local (prepare_soft now now' id);
  if (already : bool) then fail (IntentReplay id)
  else
    acks ← soft id;
    if existsb Datatypes.id acks then fail (peer_seen id)
    else
      let have := 1 + len acks in
      if have <? quorum_t then
        _ ← ignore (on_local (persisted_release_reservation id Users 0));
        fail (QuorumNotMet have quorum_t)
      else mret tt.

Definition claim_consume (io : Io) (durable : string → dcmd Net (list bool)) (id : string) : dcmd Net unit :=
  quorum_claim (IntentReplay id) (peer_seen id) quorum_t node io durable id.

Definition quorum_try_consume := claim_consume.

(** The locked section of [reserve_spend]: unlike the local ledger's, a repeat is a replay. *)
Definition quorum_hold (now now' : N) (id : string) (kind : BucketKind) (amount : N)
    (validate : BucketPolicy → N → res unit) : dcmd BucketState unit :=
  _ ← update (sweep_expired now);
  g ← get;
  if bool_decide (id ∈ consumed g) || bool_decide (is_Some (reserved g !! id)) then fail (IntentReplay id)
  else
    _ ← check_and_hold kind amount validate;
    update (set_reserved (<[id := (kind, amount, now' + 300)]>)).

Definition quorum_reserve_spend (now now' : N) (soft : string → dcmd Net (list bool)) (id : string)
    (kind : BucketKind) (amount : N) (validate : BucketPolicy → N → res unit) : dcmd Net unit :=
  _ ← on_local (locked (quorum_hold now now' id kind amount validate));
  acks ← soft id;
  if existsb Datatypes.id acks then
    _ ← ignore (on_local (persisted_release_reservation id kind amount));
    fail (peer_seen id)
  else
    let have := 1 + len acks in
    if have <? quorum_t then
      _ ← ignore (on_local (persisted_release_reservation id kind amount));
      fail (QuorumNotMet have quorum_t)
    else mret tt.

Definition quorum_commit_consume (io : Io) (durable : string → dcmd Net (list bool)) (id : string) : dcmd Net unit :=
  done ← on_local (seen id);
  if (done : bool) then mret tt else claim_consume io durable id.

Definition quorum_release_reservation (id : string) (kind : BucketKind) (amount : N) : dcmd Net unit :=
  on_local (persisted_release_reservation id kind amount).

Definition quorum_authorize (now now' : N) (io : Io) (soft durable : string → dcmd Net (list bool))
    (id : string) (kind : BucketKind) (amount : N) (validate : BucketPolicy → N → res unit) : dcmd Net unit :=
  _ ← quorum_reserve_spend now now' soft id kind amount validate;
  ((λ m, match quorum_commit_consume io durable id m with
       | (m', Err e) =>
           let '(m'', _) := ignore (quorum_release_reservation id kind amount) m' in (m'', Err e)
       | (m', Ok _) => (m', Ok tt)
       end) : dcmd Net unit).
End quorum_ledger.

(* ------------------------------------------------------------------ *)
(** ** Properties *)

(** A transport whose peers give these answers. *)
Definition answering (acks : list bool) : string → dcmd (Stores PState) (list bool) := λ _ m, (m, Ok acks).

Lemma quorum_hold_cases now now' id k a v s :
  let s1 := sweep_expired now s in
  let '(s', r) := quorum_hold now now' id k a v s in
  match r with
  | Ok _ => id ∉ consumed s1 ∧ reserved s1 !! id = None
            ∧ (∃ p, policies s1 !! k = Some p ∧ v p (default 0 (spent_today s1 !! k)) = Ok tt)
            ∧ s' = set_reserved (<[id := (k, a, now' + 300)]>) (set_spent (add_spent k a) s1)
  | Err _ => s' = s1
  end.
Proof.
  cbv zeta. set (s1 := sweep_expired now s). unfold quorum_hold. cbv [mbind cmd_bind get update fail]. fold s1.
  destruct (bool_decide (id ∈ consumed s1)) eqn:Hc; [done|].
  destruct (bool_decide (is_Some (reserved s1 !! id))) eqn:Hr; [done|]. simpl.
  apply bool_decide_eq_false in Hc. apply bool_decide_eq_false, eq_None_not_Some in Hr.
  pose proof (check_and_hold_cases k a v s1) as Hh. destruct (check_and_hold k a v s1) as [s2 [u|e]]; [|done].
  destruct Hh as (p & ? & ? & ->). eauto 6.
Qed.

Lemma release_undoes_hold id k a e s : reserved s !! id = None →
  default 0 (spent_today s !! k) + a ≤ u64_max →
  let s' := (mem_release_reservation id k a
               (set_reserved (<[id := (k, a, e)]>) (set_spent (add_spent k a) s))).1 in
  reserved s' = reserved s ∧ consumed s' = consumed s
  ∧ ∀ k', default 0 (spent_today s' !! k') = default 0 (spent_today s !! k').
Proof.
  intros Hr Ha. unfold mem_release_reservation. cbv [mbind cmd_bind get update]. simpl.
  rewrite lookup_insert_eq. simpl. split; [by rewrite delete_insert_id|]. split; [done|].
  intros k'. rewrite default_sub_spent, default_add_spent.
  destruct (decide (k = k')) as [<-|]; [|done]. rewrite sat_add64_exact by done. lia.
Qed.


Definition boot_store : PState := persisted_open None 1000 1000.

(** A commit burns the id at home before it asks the peers. When the quorum is not met the commit
    fails, but the retry of the same commit finds the id burned and succeeds without any peer. *)
Lemma failed_commit_succeeds_on_retry :
  let m : Stores PState := {[ "n1" := boot_store ]} in
  let '(m1, r1) := quorum_commit_consume 2 "n1" IoOk (answering []) "a" m in
  let '(m2, r2) := quorum_commit_consume 2 "n1" IoOk (answering []) "a" m1 in
  r1 = Err (QuorumNotMet 1 2) ∧ r2 = Ok tt.
Proof. vm_compute. split; reflexivity. Qed.
