(* ===== verification/Ledger.v ===== *)
(** * The hash-chained governance ledger

    [domain/ledger.rs], [adapters/ledger_memory.rs] and
    [application/ledger_ops.rs]: the append-only chain, epoch proposals and
    their votes. A handler is the composition of the port's calls. *)
From S2P Require Import Prelude RustStr Errors Identity Constitution.
From Stdlib Require String.
Local Open Scope N_scope.

Record Epoch := { number : N; epoch_constitution_hash : string; active_set : list NodeId }.
Definition epoch_contains (e : Epoch) (n : NodeId) : bool := existsb (λ m, bool_decide (m = n)) (active_set e).

Definition json_nodes (l : list NodeId) : string := join "," (map (λ n, quoted (node_str n)) l).
Definition epoch_to_json (e : Epoch) : string :=
  format (q "{{`number`:{},`constitution_hash`:`{}`,`active_set`:[{}]}}")
    [show (number e); epoch_constitution_hash e; json_nodes (active_set e)].

Definition epoch_genesis `{!Sha256} (c : Constitution) (active : list NodeId) : res Epoch :=
  _ ← constitution_validate c;
  if negb (len active =? signing_n c)
  then Err (InvalidConstitution (format "active_set len {} != signing_n {}" [show (len active); show (signing_n c)]))
  else Ok {| number := 0; epoch_constitution_hash := hash c; active_set := active |}.

Inductive LedgerEventKind :=
| EvGenesis | EvEpochAdvanced | EvVoteRecorded | EvDayAdvanced | EvReshareCompleted
| EvGovernanceRewardAccrued | EvProfitAllocated.
#[export] Instance LedgerEventKind_eq_dec : EqDecision LedgerEventKind.
Proof. solve_decision. Defined.
(** The derived [Debug], used in the hashed material. *)
Definition kind_debug (k : LedgerEventKind) : string :=
  match k with
  | EvGenesis => "Genesis" | EvEpochAdvanced => "EpochAdvanced" | EvVoteRecorded => "VoteRecorded"
  | EvDayAdvanced => "DayAdvanced" | EvReshareCompleted => "ReshareCompleted"
  | EvGovernanceRewardAccrued => "GovernanceRewardAccrued" | EvProfitAllocated => "ProfitAllocated"
  end.
Definition kind_str (k : LedgerEventKind) : string :=
  match k with
  | EvGenesis => "genesis" | EvEpochAdvanced => "epoch_advanced" | EvVoteRecorded => "vote_recorded"
  | EvDayAdvanced => "day_advanced" | EvReshareCompleted => "reshare_completed"
  | EvGovernanceRewardAccrued => "governance_reward_accrued" | EvProfitAllocated => "profit_allocated"
  end.

Record LedgerEntry := {
  index : N; entry_epoch : N; entry_kind : LedgerEventKind; payload_hash : string;
  writer : NodeId; prev_hash : string; entry_hash : string;
}.
#[export] Instance LedgerEntry_eq_dec : EqDecision LedgerEntry.
Proof. solve_decision. Defined.

Definition entry_material (index epoch : N) (kind : LedgerEventKind) (payload_hash : string) (writer : NodeId)
    (prev : string) : string :=
  format "{}|{}|{}|{}|{}|{}" [show index; show epoch; kind_debug kind; payload_hash; node_str writer; prev].

Definition entry_chain `{!Sha256} (index epoch : N) (kind : LedgerEventKind) (payload : string) (writer : NodeId)
    (prev : string) : LedgerEntry :=
  let payload_hash := sha256_hex (bytes_of payload) in
  let material := entry_material index epoch kind payload_hash writer prev in
  {| index := index; entry_epoch := epoch; entry_kind := kind; payload_hash := payload_hash;
     writer := writer; prev_hash := prev; entry_hash := sha256_hex (bytes_of material) |}.

Definition entry_to_json (e : LedgerEntry) : string :=
  format (q "{{`index`:{},`epoch`:{},`kind`:`{}`,`payload_hash`:`{}`,`writer`:`{}`,`prev_hash`:`{}`,`entry_hash`:`{}`}}")
    [show (index e); show (entry_epoch e); kind_str (entry_kind e); payload_hash e; node_str (writer e);
     prev_hash e; entry_hash e].

Record Proposal := {
  prop_id : string; from_epoch : N; to_epoch : N; prop_constitution_hash : string;
  proposer : NodeId; votes : list NodeId; closed : bool;
}.
Definition proposal_new (id : string) (from : N) (chash : string) (by_ : NodeId) : Proposal :=
  {| prop_id := id; from_epoch := from; to_epoch := wrap64 (from + 1); prop_constitution_hash := chash;
     proposer := by_; votes := [by_]; closed := false |}.
Definition set_votes (v : list NodeId) (c : bool) (p : Proposal) : Proposal :=
  {| prop_id := prop_id p; from_epoch := from_epoch p; to_epoch := to_epoch p;
     prop_constitution_hash := prop_constitution_hash p; proposer := proposer p; votes := v; closed := c |}.
Definition add_vote (voter : NodeId) (p : Proposal) : res Proposal :=
  if closed p then Err (ProposalClosed (prop_id p))
  else if existsb (λ v, bool_decide (v = voter)) (votes p) then Ok p
  else Ok (set_votes (votes p ++ [voter]) (closed p) p).
Definition proposal_to_json (p : Proposal) : string :=
  format (q "{{`id`:`{}`,`from_epoch`:{},`to_epoch`:{},`constitution_hash`:`{}`,`proposer`:`{}`,`votes`:[{}],`closed`:{}}}")
    [prop_id p; show (from_epoch p); show (to_epoch p); prop_constitution_hash p; node_str (proposer p);
     json_nodes (votes p); show_bool (closed p)].

(* ------------------------------------------------------------------ *)
(** ** The in-memory ledger *)

Record LedgerState := {
  constitution : Constitution;
  epoch : Epoch;
  entries : list LedgerEntry;
  proposals : gmap string Proposal;
}.
Definition set_epoch_st (e : Epoch) (s : LedgerState) : LedgerState :=
  {| constitution := constitution s; epoch := e; entries := entries s; proposals := proposals s |}.
Definition set_entries (l : list LedgerEntry) (s : LedgerState) : LedgerState :=
  {| constitution := constitution s; epoch := epoch s; entries := l; proposals := proposals s |}.
Definition set_proposals f (s : LedgerState) : LedgerState :=
  {| constitution := constitution s; epoch := epoch s; entries := entries s; proposals := f (proposals s) |}.

Section ledger.
Context `{!Sha256}.

Definition ledger_genesis (c : Constitution) (active : list NodeId) (by_ : NodeId) : res LedgerState :=
  _ ← constitution_validate c;
  epoch ← epoch_genesis c active;
  let genesis_payload := format (q "{{`constitution`:{},`epoch`:{}}}")
                           [constitution_to_json c; epoch_to_json epoch] in
  let entry := entry_chain 0 0 EvGenesis genesis_payload by_ "genesis-prev" in
  Ok {| constitution := c; epoch := epoch; entries := [entry]; proposals := ∅ |}.

Definition ledger_constitution : dcmd LedgerState Constitution := s ← get; mret (constitution s).
Definition ledger_epoch : dcmd LedgerState Epoch := s ← get; mret (epoch s).
Definition ledger_set_epoch (e : Epoch) : dcmd LedgerState unit := update (set_epoch_st e).
Definition ledger_head : dcmd LedgerState (option LedgerEntry) := s ← get; mret (last (entries s)).
Definition ledger_entries : dcmd LedgerState (list LedgerEntry) := s ← get; mret (entries s).

(** The head checks of [append]. *)
Definition head_check (head : option LedgerEntry) (e : LedgerEntry) : res unit :=
  match head with
  | Some prev =>
      if negb (index e =? wrap64 (index prev + 1))
      then Err (LedgerConflict (format "expected index {}, got {}" [show (wrap64 (index prev + 1)); show (index e)]))
      else if negb (String.eqb (prev_hash e) (entry_hash prev))
      then Err (LedgerConflict "prev_hash does not match head")
      else Ok tt
  | None => if negb (index e =? 0) then Err (LedgerConflict "first entry must be index 0") else Ok tt
  end.

Definition ledger_append (e : LedgerEntry) : dcmd LedgerState unit :=
  s ← get;
  _ ← lift (head_check (last (entries s)) e);
  if negb (epoch_contains (epoch s) (writer e)) then fail (UnauthorizedWriter (node_str (writer e)))
  else update (set_entries (entries s ++ [e])).

Definition put_proposal (p : Proposal) : dcmd LedgerState unit :=
  s ← get;
  if bool_decide (is_Some (proposals s !! prop_id p))
  then fail (LedgerConflict (format "proposal {} exists" [prop_id p]))
  else update (set_proposals (<[prop_id p := p]>)).
Definition get_proposal (id : string) : dcmd LedgerState Proposal :=
  s ← get; lift (ok_or (proposals s !! id) (UnknownProposal id)).
Definition save_proposal (p : Proposal) : dcmd LedgerState unit := update (set_proposals (<[prop_id p := p]>)).

(* ------------------------------------------------------------------ *)
(** ** Handlers *)

(** [head().map(entry_hash).unwrap_or("genesis-prev")], [entries().len()], [LedgerEntry::chain], [append]. *)
Definition append_event (epoch_number : N) (kind : LedgerEventKind) (payload : string) (by_ : NodeId) :
    dcmd LedgerState unit :=
  head ← ledger_head;
  let prev := match head with Some e => entry_hash e | None => "genesis-prev" end in
  es ← ledger_entries;
  ledger_append (entry_chain (len es) epoch_number kind payload by_ prev).

Definition append_vote_event (epoch_number : N) (by_ : NodeId) (p : Proposal) : dcmd LedgerState unit :=
  append_event epoch_number EvVoteRecorded (proposal_to_json p) by_.

Definition propose_epoch_advance (local_node : NodeId) (proposal_id : string) : dcmd LedgerState Proposal :=
  epoch ← ledger_epoch;
  if negb (epoch_contains epoch local_node) then fail (UnauthorizedWriter (node_str local_node))
  else
    constitution ← ledger_constitution;
    let proposal := proposal_new proposal_id (number epoch) (hash constitution) local_node in
    _ ← put_proposal proposal;
    _ ← append_vote_event (number epoch) local_node proposal;
    mret proposal.

Definition advance_epoch (local_node : NodeId) (p : Proposal) : dcmd LedgerState unit :=
  e ← ledger_epoch;
  _ ← ledger_set_epoch {| number := to_epoch p; epoch_constitution_hash := epoch_constitution_hash e;
                          active_set := active_set e |};
  append_event (to_epoch p) EvEpochAdvanced
    (format (q "{{`to_epoch`:{},`constitution_hash`:`{}`}}") [show (to_epoch p); prop_constitution_hash p]) local_node.

Definition vote_epoch_advance (local_node : NodeId) (proposal_id : string) : dcmd LedgerState Proposal :=
  epoch ← ledger_epoch;
  if negb (epoch_contains epoch local_node) then fail (UnauthorizedWriter (node_str local_node))
  else
    proposal ← get_proposal proposal_id;
    if negb (from_epoch proposal =? number epoch)
    then fail (EpochMismatch (number epoch) (from_epoch proposal))
    else
      constitution ← ledger_constitution;
      if negb (String.eqb (prop_constitution_hash proposal) (hash constitution))
      then fail (LedgerConflict "proposal constitution hash diverges from active")
      else
        proposal ← lift (add_vote local_node proposal);
        _ ← save_proposal proposal;
        _ ← append_vote_event (number epoch) local_node proposal;
        let need := governance_t constitution in
        let have := len (votes proposal) in
        if need <=? have then
          let proposal := set_votes (votes proposal) true proposal in
          _ ← save_proposal proposal;
          _ ← advance_epoch local_node proposal;
          mret proposal
        else mret proposal.

Definition ledger_snapshot_json (s : LedgerState) : string :=
  format (q "{{`constitution`:{},`epoch`:{},`entries`:[{}]}}")
    [constitution_to_json (constitution s); epoch_to_json (epoch s);
     join "," (map entry_to_json (entries s))].
End ledger.

(* ------------------------------------------------------------------ *)
(** ** Invariant *)

Section properties.
Context {SH : Sha256}.

Definition material_of (e : LedgerEntry) : string :=
  entry_material (index e) (entry_epoch e) (entry_kind e) (payload_hash e) (writer e) (prev_hash e).
(** Both hashes of an entry are SHA-256 digests, the entry's own over its fields. *)
Definition sealed (e : LedgerEntry) : Prop :=
  (∃ payload, payload_hash e = sha256_hex payload) ∧ entry_hash e = sha256_hex (bytes_of (material_of e)).

(** A chain, newest entry first. *)
Fixpoint chain_down (l : list LedgerEntry) : Prop :=
  match l with
  | [] => False
  | e :: r => sealed e ∧
      match r with
      | [] => index e = 0 ∧ prev_hash e = "genesis-prev"
      | p :: _ => index e = index p + 1 ∧ prev_hash e = entry_hash p ∧ chain_down r
      end
  end.
Definition chain (l : list LedgerEntry) : Prop := chain_down (rev l).

Record proposal_ok (active : list NodeId) (p : Proposal) : Prop := {
  po_nodup : NoDup (votes p);
  po_active v : v ∈ votes p → v ∈ active;
  po_to : to_epoch p = wrap64 (from_epoch p + 1);
}.
Record ledger_inv (s : LedgerState) : Prop := {
  li_chain : chain (entries s);
  li_writers e : e ∈ tail (entries s) → writer e ∈ active_set (epoch s);
  li_proposals id p : proposals s !! id = Some p → prop_id p = id ∧ proposal_ok (active_set (epoch s)) p;
}.

Lemma epoch_contains_iff e n : epoch_contains e n = true ↔ n ∈ active_set e.
Proof.
  unfold epoch_contains. rewrite existsb_exists. split.
  - intros (x & Hx & Hn%bool_decide_eq_true). subst. by apply list_elem_of_In.
  - intros H. exists n. rewrite bool_decide_true by done. split; [by apply list_elem_of_In|done].
Qed.

Lemma entry_chain_sealed i n k pl w p : sealed (entry_chain i n k pl w p).
Proof. split; simpl; [by eexists|done]. Qed.

Lemma chain_index l e : chain (l ++ [e]) → index e = len l.
Proof.
  unfold chain. rewrite rev_app_distr. simpl. revert e. induction l as [|x l IH] using rev_ind; intros e; [simpl; tauto|].
  rewrite rev_app_distr. simpl. intros (_ & Hi & _ & Hc). rewrite Hi, (IH x Hc), len_app, len_cons, len_nil. lia.
Qed.

(** What an append of the handlers' making does. *)
Lemma append_event_cases n k pl w s :
  let '(s', r) := append_event n k pl w s in
  match r with
  | Ok _ => w ∈ active_set (epoch s) ∧
      ∃ e, s' = set_entries (entries s ++ [e]) s ∧ sealed e ∧ writer e = w ∧ index e = len (entries s)
        ∧ entry_epoch e = n ∧ entry_kind e = k
        ∧ match last (entries s) with
          | Some p => index e = wrap64 (index p + 1) ∧ prev_hash e = entry_hash p
          | None => index e = 0 ∧ prev_hash e = "genesis-prev"
          end
  | Err _ => s' = s
  end.
Proof.
  unfold append_event, ledger_head, ledger_entries, ledger_append.
  cbv [mret mbind cmd_ret cmd_bind get update fail lift].
  set (prev := match last (entries s) with Some e => entry_hash e | None => "genesis-prev" end).
  set (e := entry_chain (len (entries s)) n k pl w prev).
  destruct (head_check (last (entries s)) e) as [[]|err] eqn:Hl; [|done]. unfold head_check in Hl.
  destruct (epoch_contains (epoch s) (writer e)) eqn:Hw; simpl; [|done].
  apply epoch_contains_iff in Hw. split; [done|]. exists e. split; [done|]. split; [apply entry_chain_sealed|].
  do 4 (split; [done|]). destruct (last (entries s)) as [p|] eqn:Hlast.
  - rewrite !guard_ok, !negb_false_iff, N.eqb_eq, String.eqb_eq in Hl. tauto.
  - rewrite guard_ok, negb_false_iff, N.eqb_eq in Hl. tauto.
Qed.

Lemma chain_append l e : chain l → sealed e → index e = len l →
  match last l with
  | Some p => index e = wrap64 (index p + 1) ∧ prev_hash e = entry_hash p
  | None => index e = 0 ∧ prev_hash e = "genesis-prev"
  end → chain (l ++ [e]).
Proof.
  intros Hc Hs Hi Hl. destruct l as [|p l _] using rev_ind; [done|]. rewrite last_snoc in Hl.
  pose proof (chain_index l p Hc) as Hp. unfold chain in *. rewrite rev_app_distr.
  cbn [rev app]. rewrite rev_app_distr in *. cbn [rev app] in *. split; [done|].
  split; [rewrite Hi, Hp, len_app, len_cons, len_nil; lia|]. tauto.
Qed.

Lemma append_event_inv n k pl w s : ledger_inv s →
  let '(s', r) := append_event n k pl w s in
  ledger_inv s' ∧ epoch s' = epoch s ∧ constitution s' = constitution s ∧ proposals s' = proposals s
  ∧ (∃ l, entries s' = entries s ++ l).
Proof.
  intros [Hc Hw Hp]. pose proof (append_event_cases n k pl w s) as H. destruct (append_event n k pl w s) as [s' [[]|e]].
  2: { subst s'. split; [by split|]. do 3 (split; [done|]). exists []. by rewrite app_nil_r. }
  destruct H as (Hact & e & -> & Hs & Hwr & Hi & _ & _ & Hl). simpl.
  split; [|do 3 (split; [done|]); by eexists]. split; simpl.
  - by apply chain_append.
  - destruct (entries s) as [|g l]; simpl in *; [intros x Hx; by apply elem_of_nil in Hx|].
    intros x [Hx|Hx]%elem_of_app; [auto|]. apply list_elem_of_singleton in Hx as ->. by rewrite Hwr.
  - done.
Qed.

Lemma add_vote_cases v p p' : add_vote v p = Ok p' →
  closed p = false ∧ closed p' = false ∧ prop_id p' = prop_id p ∧ from_epoch p' = from_epoch p
  ∧ to_epoch p' = to_epoch p ∧ prop_constitution_hash p' = prop_constitution_hash p
  ∧ v ∈ votes p' ∧ (∀ x, x ∈ votes p' ↔ x ∈ votes p ∨ x = v) ∧ (NoDup (votes p) → NoDup (votes p')).
Proof.
  unfold add_vote. destruct (closed p) eqn:Hcl; [done|].
  destruct (existsb _ _) eqn:Hex; intros [= <-].
  - apply existsb_exists in Hex as (x & Hx & Hv%bool_decide_eq_true). apply list_elem_of_In in Hx. subst x.
    naive_solver.
  - assert (v ∉ votes p) as Hn.
    { intros Hin. apply not_true_iff_false in Hex. apply Hex, existsb_exists. exists v.
      rewrite bool_decide_true by done. split; [by apply list_elem_of_In|done]. }
    simpl. do 6 (split; [done|]). split; [set_solver|]. split; [set_solver|].
    intros Hnd. apply NoDup_app. split; [done|]. split; [set_solver|apply NoDup_singleton].
Qed.

Lemma proposal_ok_put active p s id : ledger_inv s → active_set (epoch s) = active → prop_id p = id →
  proposal_ok active p → ledger_inv (set_proposals (<[id := p]>) s).
Proof.
  intros [Hc Hw Hp] Ha Hid Hok. split; simpl; [done|done|].
  intros id' p' [[<- <-]|[_ H]]%lookup_insert_Some; [by rewrite Ha|eauto].
Qed.

Lemma propose_inv node id s : ledger_inv s →
  let '(s', r) := propose_epoch_advance node id s in
  ledger_inv s' ∧ epoch s' = epoch s ∧ constitution s' = constitution s ∧ (∃ l, entries s' = entries s ++ l).
Proof.
  intros Hinv. unfold propose_epoch_advance, ledger_epoch, ledger_constitution, put_proposal.
  cbv [mret mbind cmd_ret cmd_bind get update fail].
  assert (∃ l, entries s = entries s ++ l) as Hself by (exists []; by rewrite app_nil_r).
  destruct (epoch_contains (epoch s) node) eqn:Hn; simpl; [|done]. apply epoch_contains_iff in Hn.
  set (p := proposal_new id (number (epoch s)) (hash (constitution s)) node).
  destruct (bool_decide _); [done|].
  assert (ledger_inv (set_proposals (<[id := p]>) s)) as Hinv1.
  { apply (proposal_ok_put (active_set (epoch s))); [done|done|done|]. split; simpl; [apply NoDup_singleton|set_solver|done]. }
  unfold append_vote_event. match goal with |- context [append_event ?a ?b ?c ?d ?st] =>
    pose proof (append_event_inv a b c d st Hinv1) as Ha; destruct (append_event a b c d st) as [s' [[]|e]] end;
    destruct Ha as (? & ? & ? & ? & ?); done.
Qed.

(** What a vote does: the epoch moves, by one, only in the branch where the vote reached the quorum. *)
Lemma vote_inv node id s : ledger_inv s →
  let '(s', r) := vote_epoch_advance node id s in
  ledger_inv s' ∧ constitution s' = constitution s ∧ active_set (epoch s') = active_set (epoch s)
  ∧ (∃ l, entries s' = entries s ++ l)
  ∧ (epoch s' = epoch s
     ∨ node ∈ active_set (epoch s) ∧ number (epoch s') = wrap64 (number (epoch s) + 1)
       ∧ ∃ p, proposals s' !! id = Some p ∧ closed p = true ∧ governance_t (constitution s) ≤ len (votes p)
         ∧ from_epoch p = number (epoch s) ∧ prop_constitution_hash p = hash (constitution s)
         ∧ proposal_ok (active_set (epoch s)) p).
Proof.
  intros Hinv. unfold vote_epoch_advance, ledger_epoch, ledger_constitution, get_proposal, save_proposal.
  cbv [mret mbind cmd_ret cmd_bind get update fail lift].
  assert (∃ l, entries s = entries s ++ l) as Hself by (exists []; by rewrite app_nil_r).
  destruct (epoch_contains (epoch s) node) eqn:Hn; simpl; [|by auto 6]. apply epoch_contains_iff in Hn.
  destruct (proposals s !! id) as [p|] eqn:Hp; simpl; [|by auto 6].
  destruct (from_epoch p =? number (epoch s)) eqn:Hfrom; simpl; [|by auto 6]. apply N.eqb_eq in Hfrom.
  destruct (String.eqb_spec (prop_constitution_hash p) (hash (constitution s))) as [Hh|]; simpl; [|by auto 6].
  destruct (add_vote node p) as [p1|e] eqn:Hadd; simpl; [|by auto 6].
  destruct (li_proposals _ Hinv id p Hp) as [Hid [Hnd Hact Hto]].
  apply add_vote_cases in Hadd as (_ & _ & Hid1 & Hfrom1 & Hto1 & Hch1 & _ & Hv & Hnd1).
  assert (proposal_ok (active_set (epoch s)) p1) as Hok1.
  { split; [auto|intros v Hvin; apply Hv in Hvin as [?| ->]; auto|by rewrite Hto1, Hfrom1]. }
  assert (ledger_inv (set_proposals (<[prop_id p1 := p1]>) s)) as Hinv1.
  { by apply (proposal_ok_put (active_set (epoch s))). }
  unfold append_vote_event. match goal with |- context [append_event ?a ?b ?c ?d ?st] =>
    pose proof (append_event_inv a b c d st Hinv1) as Ha; destruct (append_event a b c d st) as [s2 [[]|e]] end;
    destruct Ha as (Hinv2 & He2 & Hc2 & Hp2 & l2 & Hl2); simpl in *.
  2: { rewrite Hc2, He2. split; [done|]. split; [done|]. split; [done|]. split; [by eexists|]. by left. }
  destruct (governance_t (constitution s) <=? len (votes p1)) eqn:Hq; simpl.
  2: { rewrite Hc2, He2. split; [done|]. split; [done|]. split; [done|]. split; [by eexists|]. by left. }
  apply N.leb_le in Hq. set (p2 := set_votes (votes p1) true p1).
  assert (proposal_ok (active_set (epoch s)) p2) as Hok2 by (by destruct Hok1; split).
  unfold advance_epoch, ledger_epoch, ledger_set_epoch. cbv [mret mbind cmd_ret cmd_bind get update].
  set (s3 := set_epoch_st _ _).
  assert (ledger_inv s3) as Hinv3.
  { assert (ledger_inv (set_proposals (<[prop_id p1 := p2]>) s2)) as [H1 H2 H3].
    { apply (proposal_ok_put (active_set (epoch s))); [done|by rewrite He2|done|done]. }
    split; simpl; [done|exact H2|exact H3]. }
  match goal with |- context [append_event ?a ?b ?c ?d s3] =>
    pose proof (append_event_inv a b c d s3 Hinv3) as Ha; destruct (append_event a b c d s3) as [s4 [[]|e]] end;
    destruct Ha as (Hinv4 & He4 & Hc4 & Hp4 & l4 & Hl4); rewrite Hc4, He4; simpl; rewrite Hc2, He2.
  all: split; [done|]; split; [done|]; split; [done|]; split;
    [exists (l2 ++ l4); rewrite Hl4; simpl; by rewrite Hl2, app_assoc|]; right.
  all: split; [done|]; split; [by rewrite Hto1, Hto, Hfrom|]; exists p2; rewrite Hp4; simpl;
    rewrite Hid1, Hid, lookup_insert_eq; simpl; by rewrite Hfrom1, Hch1.
Qed.
End properties.

(* ------------------------------------------------------------------ *)
(** ** Runs of the handlers *)

Section runs.
Context {SH : Sha256}.

(** The governance handlers, by any node, and events other handlers append. *)
Inductive lstep : LedgerState → LedgerState → Prop :=
| l_propose node id s : lstep s (propose_epoch_advance node id s).1
| l_vote node id s : lstep s (vote_epoch_advance node id s).1
| l_event n k pl node s : lstep s (append_event n k pl node s).1.

Definition same_mesh (s t : LedgerState) : Prop :=
  constitution t = constitution s ∧ active_set (epoch t) = active_set (epoch s) ∧ ∃ l, entries t = entries s ++ l.
#[local] Instance same_mesh_preorder : PreOrder same_mesh.
Proof.
  split.
  - intros s. split; [done|]. split; [done|]. exists []. by rewrite app_nil_r.
  - intros s t u (H1 & H2 & l & H3) (H4 & H5 & k & H6). split; [congruence|]. split; [congruence|].
    exists (l ++ k). by rewrite H6, H3, app_assoc.
Qed.

Lemma lstep_inv s t : ledger_inv s → lstep s t → ledger_inv t ∧ same_mesh s t.
Proof.
  intros Hinv Hs. unfold same_mesh. destruct Hs as [node id s|node id s|n k pl node s].
  - pose proof (propose_inv node id s Hinv) as H. destruct (propose_epoch_advance node id s) as [s' r].
    destruct H as (? & He & Hc & Hl). simpl. by rewrite He.
  - pose proof (vote_inv node id s Hinv) as H. destruct (vote_epoch_advance node id s) as [s' r]. simpl. tauto.
  - pose proof (append_event_inv n k pl node s Hinv) as H. destruct (append_event n k pl node s) as [s' r].
    destruct H as (? & He & Hc & _ & Hl). simpl. by rewrite He.
Qed.

Lemma genesis_inv c active w s : ledger_genesis c active w = Ok s →
  ledger_inv s ∧ constitution_validate c = Ok tt ∧ constitution s = c ∧ active_set (epoch s) = active
  ∧ len active = signing_n c.
Proof.
  unfold ledger_genesis, epoch_genesis. rewrite bind_ok. intros ([] & Hc & H).
  rewrite bind_ok in H. destruct H as (e & He & Hs). apply Ok_inj_iff in Hs as <-.
  rewrite Hc in He. unfold mbind, result_bind in He. rewrite guard_ok, negb_false_iff, N.eqb_eq in He.
  destruct He as [Hlen He]. apply Ok_inj_iff in He as <-. cbn [constitution epoch active_set].
  split; [|done].
  split; cbn [entries proposals tail epoch].
  - unfold chain. cbn [rev app chain_down]. split; [apply entry_chain_sealed|split; reflexivity].
  - intros e He. by apply elem_of_nil in He.
  - intros id p Hp. by rewrite lookup_empty in Hp.
Qed.

Lemma runs_inv s t : ledger_inv s → steps lstep s t → ledger_inv t ∧ same_mesh s t.
Proof.
  intros Hinv Hs. induction Hs as [s|s t u H1 _ IH]; [by split|].
  destruct (lstep_inv s t Hinv H1) as [Ht Hm]. destruct (IH Ht) as [Hu Hm']. split; [done|by etrans].
Qed.

(** C37 From genesis, along any run of proposals, votes and events by any nodes, the ledger only grows,
    stays a hash chain (consecutive indices from 0, each entry naming its predecessor's hash and
    sealed by the digest of its own fields), takes entries only of active-set writers after genesis,
    and keeps the constitution and active set it was founded with. *)
Theorem ledger_stays_chained c active w s0 s :
  ledger_genesis c active w = Ok s0 → steps lstep s0 s →
  chain (entries s) ∧ (∃ l, entries s = entries s0 ++ l)
  ∧ (∀ e, e ∈ tail (entries s) → writer e ∈ active)
  ∧ constitution s = c ∧ active_set (epoch s) = active.
Proof.
  intros Hg Hs. destruct (genesis_inv _ _ _ _ Hg) as (Hinv & _ & Hc & Ha & _).
  destruct (runs_inv _ _ Hinv Hs) as [[H1 H2 H3] (H4 & H5 & H6)].
  split; [done|]. split; [done|]. rewrite <- Ha, <- H5. split; [done|]. by rewrite H4.
Qed.

(** C35 The epoch number moves only by votes and only by one (with the [u64] wrap): a step of a run from
    genesis that changes it is the vote of an active node on a proposal made for the current epoch and
    the active constitution, which then carries at least [governance_t] votes of distinct active
    nodes and is closed. *)
Theorem epoch_advances_by_quorum c active w s0 s t :
  ledger_genesis c active w = Ok s0 → steps lstep s0 s → lstep s t →
  number (epoch t) ≠ number (epoch s) →
  number (epoch t) = wrap64 (number (epoch s) + 1)
  ∧ ∃ id p, proposals t !! id = Some p ∧ closed p = true
    ∧ from_epoch p = number (epoch s) ∧ prop_constitution_hash p = hash c
    ∧ NoDup (votes p) ∧ (∀ v, v ∈ votes p → v ∈ active) ∧ governance_t c ≤ len (votes p).
Proof.
  intros Hg Hs Ht Hne. destruct (genesis_inv _ _ _ _ Hg) as (Hinv & _ & Hc & Ha & _).
  destruct (runs_inv _ _ Hinv Hs) as [Hi (H4 & H5 & _)]. rewrite Hc in H4. rewrite Ha in H5.
  destruct Ht as [node id s|node id s|n k pl node s].
  - pose proof (propose_inv node id s Hi) as H. destruct (propose_epoch_advance node id s) as [s' r].
    destruct H as (_ & He & _). simpl in Hne. by rewrite He in Hne.
  - pose proof (vote_inv node id s Hi) as H. destruct (vote_epoch_advance node id s) as [s' r].
    destruct H as (_ & _ & _ & _ & [He|(_ & Hn & p & H1 & H2 & H3 & H6 & H7 & [H8 H9 _])]); simpl in *.
    { by rewrite He in Hne. }
    split; [done|]. exists id, p. rewrite <- H4, <- H5. done.
  - pose proof (append_event_inv n k pl node s Hi) as H. destruct (append_event n k pl node s) as [s' r].
    destruct H as (_ & He & _). simpl in Hne. by rewrite He in Hne.
Qed.
End runs.

(* ------------------------------------------------------------------ *)
(** ** Tamper evidence *)

Definition no_bar (s : string) : Prop := no_char "|"%char s.

Lemma no_bar_cons a s : no_bar (String.String a s) ↔ a ≠ "|"%char ∧ no_bar s.
Proof. apply no_char_cons. Qed.

(** Fields without a bar are read off the front. *)
Lemma bar_split a b x y : no_bar a → no_bar b →
  a +:+ String.String "|" x = b +:+ String.String "|" y → a = b ∧ x = y.
Proof. apply sep_split. Qed.

(** The last field of two equal texts, when it has no bar. *)
Lemma bar_split_last a b x y : no_bar x → no_bar y →
  a +:+ String.String "|" x = b +:+ String.String "|" y → a = b ∧ x = y.
Proof.
  assert (∀ s t, no_bar (s +:+ t) → no_bar t) as Hsuf.
  { induction s as [|c s IH]; intros t H; [done|]. apply IH. by apply no_bar_cons in H as [_ H]. }
  revert b. induction a as [|c a IH]; intros [|c' b] Hx Hy He.
  - injection He as ->. done.
  - exfalso. assert (x = b +:+ String.String "|" y) as -> by (injection He; done).
    apply Hsuf, no_bar_cons in Hx as [Hx _]. done.
  - exfalso. assert (y = a +:+ String.String "|" x) as -> by (injection He; done).
    apply Hsuf, no_bar_cons in Hy as [Hy _]. done.
  - assert (c = c' ∧ a +:+ String.String "|" x = b +:+ String.String "|" y) as [-> He'] by (injection He; done).
    by destruct (IH b Hx Hy He') as [-> ->].
Qed.

Lemma digit_no_bar s : forallb is_ascii_digit (bytes_of s) = true → no_bar s.
Proof. by apply forallb_no_char. Qed.
Lemma hex_no_bar s : forallb is_lower_hexdigit (bytes_of s) = true → no_bar s.
Proof. by apply forallb_no_char. Qed.

Lemma kind_debug_inj k k' : kind_debug k = kind_debug k' → k = k'.
Proof. by destruct k, k'. Qed.

Lemma entry_material_eq i n k p w v :
  entry_material i n k p w v = show i +:+ String.String "|" (show n +:+ String.String "|" (kind_debug k +:+
    String.String "|" (p +:+ String.String "|" (node_str w +:+ String.String "|" v)))).
Proof. unfold entry_material. cbn [format Ascii.eqb]. by rewrite string_app_nil. Qed.

Section tamper.
Context {SH : Sha256} {SP : Sha256Spec}.

Lemma sha_no_bar b : no_bar (sha256_hex b).
Proof. apply hex_no_bar, sha256_hex_lower. Qed.

(** The hashed text of an entry determines its fields. *)
Lemma entry_material_inj i n k p w v i' n' k' p' w' v' :
  no_bar p → no_bar p' → no_bar v → no_bar v' →
  entry_material i n k p w v = entry_material i' n' k' p' w' v' →
  i = i' ∧ n = n' ∧ k = k' ∧ p = p' ∧ w = w' ∧ v = v'.
Proof.
  intros Hp Hp' Hv Hv'. rewrite !entry_material_eq. intros He.
  apply bar_split in He as [Hi He]; [|apply digit_no_bar, show_digits..].
  apply bar_split in He as [Hn He]; [|apply digit_no_bar, show_digits..].
  apply bar_split in He as [Hk He]; [|by destruct k|by destruct k'].
  apply bar_split in He as [-> He]; [|done..].
  apply bar_split_last in He as [Hw ->]; [|done..].
  apply kind_debug_inj in Hk. apply node_str_inj in Hw. apply (inj pretty) in Hi, Hn. naive_solver.
Qed.

(** A chain's previous-hash fields are digests or the genesis marker. *)
Lemma chain_prev_no_bar e r : chain_down (e :: r) → no_bar (prev_hash e).
Proof.
  simpl. intros (_ & H). destruct r as [|p r]; [destruct H as [_ ->]; reflexivity|].
  destruct H as (_ & -> & [[_ ->] _]). apply sha_no_bar.
Qed.

(** The texts hashed by the entries of two ledgers. *)
Definition hashed_by (l l' : list LedgerEntry) (b : bytes) : Prop :=
  ∃ e, (e ∈ l ∨ e ∈ l') ∧ b = bytes_of (material_of e).

Lemma elem_of_snoc_rev (x e : LedgerEntry) l : x ∈ e :: rev l ↔ x ∈ l ++ [e].
Proof. rewrite elem_of_app, elem_of_cons, list_elem_of_singleton, !list_elem_of_In, <- in_rev. tauto. Qed.

Lemma hashed_by_cons e e' l l' b : hashed_by l l' b → hashed_by (e :: l) (e' :: l') b.
Proof. intros (x & Hx & ->). exists x. split; [|done]. destruct Hx; [left|right]; by right. Qed.

Lemma chain_down_inj l l' e e' : chain_down (e :: l) → chain_down (e' :: l') →
  entry_hash e = entry_hash e' → e :: l = e' :: l' ∨ sha256_clash (hashed_by (e :: l) (e' :: l')).
Proof.
  revert l' e e'. induction l as [|p l IH]; intros l' e e' Hc Hc' Hh.
  all: pose proof (chain_prev_no_bar _ _ Hc) as Hv; pose proof (chain_prev_no_bar _ _ Hc') as Hv'.
  all: destruct Hc as [[[pl Hpl] Hs] Hr], Hc' as [[[pl' Hpl'] Hs'] Hr'].
  all: rewrite Hs, Hs' in Hh.
  all: destruct (decide (bytes_of (material_of e) = bytes_of (material_of e'))) as [He|];
    [|right; eexists _, _; split; [exists e; split; [left; left|reflexivity]|];
      split; [exists e'; split; [right; left|reflexivity]|done]].
  all: assert (material_of e = material_of e') as Hm
    by (by rewrite <- (str_of_bytes_of (material_of e)), He, str_of_bytes_of).
  all: unfold material_of in Hm; apply entry_material_inj in Hm as (Hi & Hn & Hk & Hp & Hw & Hpv);
    [|rewrite Hpl; apply sha_no_bar|rewrite Hpl'; apply sha_no_bar|done|done].
  all: assert (e = e') as <- by (destruct e, e'; unfold material_of in *; simpl in *; congruence).
  - destruct l' as [|p' l']; [by left|]. destruct Hr as [Hi0 _], Hr' as [Hi1 _]. lia.
  - destruct l' as [|p' l']; [destruct Hr as [Hi1 _], Hr' as [Hi0 _]; lia|].
    destruct Hr as (_ & Hp1 & Hc), Hr' as (_ & Hp2 & Hc').
    destruct (IH l' p p' Hc Hc' ltac:(congruence)) as [Heq|Hcl]; [left; by rewrite Heq|right].
    destruct Hcl as (a & b & Ha & Hb & H). exists a, b.
    split; [by apply hashed_by_cons|]. split; [by apply hashed_by_cons|done].
Qed.

(** Tamper evidence: two ledgers that are both hash chains and have the same hash at their heads
    are the same ledger, entry for entry, or the hashed texts of two of their entries are a SHA-256 clash. In particular no entry can
    be changed, dropped or reordered below a head that is known. *)
Theorem ledger_head_binds l l' e e' :
  chain (l ++ [e]) → chain (l' ++ [e']) → entry_hash e = entry_hash e' →
  l ++ [e] = l' ++ [e'] ∨ sha256_clash (hashed_by (l ++ [e]) (l' ++ [e'])).
Proof.
  unfold chain. rewrite !rev_app_distr. simpl. intros Hc Hc' Hh.
  destruct (chain_down_inj _ _ _ _ Hc Hc' Hh) as [He|Hcl]; [left|right].
  2: { destruct Hcl as (a & b & (x & Hx & ->) & (y & Hy & ->) & H). eexists _, _.
    split; [exists x; split; [|reflexivity]|split; [exists y; split; [|reflexivity]|exact H]].
    all: by rewrite <- !elem_of_snoc_rev. }
  injection He as -> Hl. f_equal. by rewrite <- (rev_involutive l), Hl, rev_involutive.
Qed.
End tamper.

(* ------------------------------------------------------------------ *)
(** ** Concrete runs *)

#[local] Existing Instance toy_sha256.
#[local] Existing Instance toy_sha256_spec.

Definition lab_node (s : string) : NodeId := {| node_str := s |}.
Definition lab_nodes : list NodeId := [lab_node "a"; lab_node "b"; lab_node "c"].
(** A proposal and two votes; the lab mesh of three needs three. *)
Definition lab_open (s : LedgerState) : LedgerState :=
  (vote_epoch_advance (lab_node "b") "p" (propose_epoch_advance (lab_node "a") "p" s).1).1.
Definition lab_advance (s : LedgerState) : LedgerState := (vote_epoch_advance (lab_node "c") "p" (lab_open s)).1.

Lemma lab_open_steps s : steps lstep s (lab_open s).
Proof. eapply steps_cons; [apply l_propose|]. apply steps_one, l_vote. Qed.

Lemma ledger_stays_chained_witness : ∃ c s0,
  v1_lab 3 = Ok c ∧ ledger_genesis c lab_nodes (lab_node "a") = Ok s0
  ∧ chain (entries (lab_open s0)) ∧ len (entries (lab_open s0)) = 3.
Proof.
  eexists _, _. split; [vm_compute; reflexivity|].
  match goal with |- ?A ∧ _ => assert A as Hg by (vm_compute; reflexivity) end.
  split; [exact Hg|]. split; [|vm_compute; reflexivity].
  exact (proj1 (ledger_stays_chained _ _ _ _ _ Hg (lab_open_steps _))).
Defined.

Lemma epoch_advances_by_quorum_witness : ∃ c s0,
  v1_lab 3 = Ok c ∧ ledger_genesis c lab_nodes (lab_node "a") = Ok s0
  ∧ number (epoch (lab_open s0)) = 0
  ∧ number (epoch (lab_advance s0)) = wrap64 (number (epoch (lab_open s0)) + 1).
Proof.
  eexists _, _. split; [vm_compute; reflexivity|].
  match goal with |- ?A ∧ _ => assert A as Hg by (vm_compute; reflexivity) end.
  split; [exact Hg|]. split; [vm_compute; reflexivity|].
  refine (proj1 (epoch_advances_by_quorum _ _ _ _ _ _ Hg (lab_open_steps _) _ _)).
  - apply l_vote.
  - vm_compute. discriminate.
Defined.

Lemma ledger_head_binds_witness :
  let e := entry_chain 0 0 EvGenesis "x" (lab_node "a") "genesis-prev" in [e] = [e] ∨ sha256_clash (hashed_by [e] [e]).
Proof.
  intros e. assert (chain ([] ++ [e])) as Hc.
  { unfold chain. cbn [app rev chain_down]. split; [apply entry_chain_sealed|split; reflexivity]. }
  exact (ledger_head_binds [] [] e e Hc Hc eq_refl).
Defined.
