(* ===== verification/NodeTier.v ===== *)
(** * Node tiers and genesis seating

    [domain/node_tier.rs]: tiers, their seating order, the probe of TEE device
    nodes and the resolution of [VAULT_NODE_TIER]. The file-system test
    [Path::exists] is a parameter. *)
From S2P Require Import Prelude RustStr Errors Identity.
Local Open Scope N_scope.

Inductive VaultNodeTier := Domestic | TierSgx | TierSev.
#[export] Instance VaultNodeTier_eq_dec : EqDecision VaultNodeTier.
Proof. solve_decision. Defined.

Definition tier_parse (raw : string) : option VaultNodeTier :=
  let s := to_ascii_lowercase (trim raw) in
  if String.eqb s "domestic" || String.eqb s "home" || String.eqb s "tpm" then Some Domestic
  else if String.eqb s "sgx" then Some TierSgx
  else if String.eqb s "sev" || String.eqb s "sev-snp" || String.eqb s "sev_snp" then Some TierSev
  else None.
Definition tier_str (t : VaultNodeTier) : string :=
  match t with Domestic => "domestic" | TierSgx => "sgx" | TierSev => "sev" end.
Definition seating_priority (t : VaultNodeTier) : N :=
  match t with TierSev => 3 | TierSgx => 2 | Domestic => 1 end.
Definition governance_weight_bps (t : VaultNodeTier) : N :=
  match t with TierSev => 15000 | TierSgx => 12500 | Domestic => 10000 end.
Definition tier_is_tee (t : VaultNodeTier) : bool := match t with TierSev | TierSgx => true | Domestic => false end.
Definition is_domestic (t : VaultNodeTier) : bool := match t with Domestic => true | _ => false end.

Record SeatingCandidate := { cand_id : NodeId; cand_tier : VaultNodeTier }.

(** The comparison of [sort_by]: priority descending, then [node_id] ascending. *)
Definition seat_le (a b : SeatingCandidate) : Prop :=
  seating_priority (cand_tier b) < seating_priority (cand_tier a)
  ∨ seating_priority (cand_tier a) = seating_priority (cand_tier b)
    ∧ String.le (node_str (cand_id a)) (node_str (cand_id b)).
#[export] Instance seat_le_dec : RelDecision seat_le.
Proof. intros a b. unfold seat_le. apply _. Defined.
#[export] Instance seat_le_total : Total seat_le.
Proof.
  intros a b. unfold seat_le.
  destruct (N.lt_total (seating_priority (cand_tier a)) (seating_priority (cand_tier b))) as [?|[?|?]]; [auto| |auto].
  destruct (total String.le (node_str (cand_id a)) (node_str (cand_id b))); [left|right]; auto.
Qed.
#[export] Instance seat_le_trans : Transitive seat_le.
Proof.
  intros a b c [?|[? ?]] [?|[? ?]]; unfold seat_le; [left; lia|left; lia|left; lia|right].
  split; [congruence|by etrans].
Qed.

Definition cand_key (c : SeatingCandidate) : string := node_str (cand_id c).
Definition seat_genesis_by_tier (candidates : list SeatingCandidate) (n : nat) : list NodeId :=
  let unique := dedup cand_key ∅ candidates in
  take n (cand_id <$> merge_sort seat_le unique).

(** A device path as the probe reads it: its file name, its parent's file name, and whether it exists. *)
Record DevPath := { file_name : string; parent_name : string; exists_ : bool }.
Definition detect_step (acc : bool * bool) (p : DevPath) : bool * bool :=
  let name := to_ascii_lowercase (file_name p) in
  let parent := to_ascii_lowercase (parent_name p) in
  if negb (exists_ p) then acc
  else if contains_str "sev" name then (true, acc.2)
  else if contains_str "sgx" name || String.eqb name "isgx" || String.eqb parent "sgx" then (acc.1, true)
  else acc.
Definition detect_tee_at_paths (paths : list DevPath) : bool * option VaultNodeTier :=
  let '(sev, sgx) := foldl detect_step (false, false) paths in
  if sev then (true, Some TierSev) else if sgx then (true, Some TierSgx) else (false, None).

Definition detect_tee_devices (exists_ : string → bool) : bool * option VaultNodeTier :=
  detect_tee_at_paths
    [ {| file_name := "sev-guest"; parent_name := "dev"; exists_ := exists_ "/dev/sev-guest" |};
      {| file_name := "sev"; parent_name := "dev"; exists_ := exists_ "/dev/sev" |};
      {| file_name := "sgx_enclave"; parent_name := "dev"; exists_ := exists_ "/dev/sgx_enclave" |};
      {| file_name := "enclave"; parent_name := "sgx"; exists_ := exists_ "/dev/sgx/enclave" |};
      {| file_name := "isgx"; parent_name := "dev"; exists_ := exists_ "/dev/isgx" |} ].

Definition resolve_node_tier (exists_ : string → bool) (raw : option string) : res (VaultNodeTier * bool) :=
  let '(tee_available, detected) := detect_tee_devices exists_ in
  match match raw with Some r => let t := trim r in if str_len t =? 0 then None else Some t | None => None end with
  | None => Ok (default Domestic detected, tee_available)
  | Some other =>
      if String.eqb other "auto" then Ok (default Domestic detected, tee_available)
      else
        tier ← ok_or (tier_parse other) (AttestationRejected (format "unknown VAULT_NODE_TIER={}" [other]));
        Ok (tier, tee_available)
  end.

Definition admission_seating (tier : VaultNodeTier) (attested_at_secs : option N) (now_secs timeout_hours : N) :
    res VaultNodeTier :=
  match tier with
  | Domestic => Ok Domestic
  | TierSgx | TierSev =>
      match attested_at_secs with
      | Some attested =>
          let elapsed := sat_sub now_secs attested in
          let timeout := wrap64 (timeout_hours * 3600) in
          if timeout <? elapsed then Ok Domestic else Ok tier
      | None => Ok tier
      end
  end.

(* ------------------------------------------------------------------ *)
(** ** Seating *)

(** A prefix of a sorted list is below everything that follows it. *)
Lemma sorted_take_drop {A} (R : relation A) (l : list A) n x y :
  StronglySorted R l → x ∈ take n l → y ∈ drop n l → R x y.
Proof.
  intros Hs. revert l Hs. induction n as [|n IH]; intros [|a l] Hs; simpl; [set_solver..|].
  apply StronglySorted_inv in Hs as [Hs Ha]. rewrite Forall_forall in Ha.
  intros [->|Hx]%elem_of_cons Hy; [|by apply (IH l)].
  apply Ha. rewrite <- (take_drop n l). apply elem_of_app. by right.
Qed.

(** Genesis seating: the seated ids are distinct candidates, as many as there are seats or distinct
    candidates, and no candidate left out beats a seated one: with each id read at its first
    occurrence, a seated one has a higher tier than an unseated one, or the same tier and a smaller id. *)
Theorem seating_prefers_tiers candidates n :
  let unique := dedup cand_key ∅ candidates in
  let seated := seat_genesis_by_tier candidates n in
  NoDup seated ∧ length seated = Nat.min n (length unique)
  ∧ (∀ id, id ∈ seated → ∃ c, c ∈ candidates ∧ c ∈ unique ∧ cand_id c = id)
  ∧ (∀ c d, c ∈ unique → d ∈ unique → cand_id c ∈ seated → cand_id d ∉ seated → seat_le c d).
Proof.
  cbv zeta. unfold seat_genesis_by_tier. set (unique := dedup cand_key ∅ candidates).
  set (sorted := merge_sort seat_le unique).
  assert (sorted ≡ₚ unique) as Hp by apply merge_sort_Permutation.
  assert (NoDup (cand_id <$> sorted)) as Hnd.
  { rewrite Hp. apply (NoDup_fmap_1 node_str). rewrite <- list_fmap_compose. apply dedup_NoDup. }
  assert (∀ c d, c ∈ sorted → d ∈ sorted → cand_id c = cand_id d → c = d) as Hinj.
  { intros c d Hc Hd He. apply list_elem_of_lookup in Hc as [i Hi], Hd as [j Hj].
    assert (i = j) as <-; [|congruence]. eapply (NoDup_lookup _ _ _ (cand_id c) Hnd);
      rewrite list_lookup_fmap; [by rewrite Hi|by rewrite Hj, He]. }
  assert (StronglySorted seat_le sorted) as Hs by (apply StronglySorted_merge_sort; apply _).
  split; [by eapply sublist_NoDup; [|apply sublist_take]|]. split; [by rewrite length_take, length_fmap, Hp|]. split.
  - intros id Hid. assert (id ∈ cand_id <$> sorted) as (c & -> & Hc)%list_elem_of_fmap.
    { rewrite <- (take_drop n (cand_id <$> sorted)). apply elem_of_app. by left. }
    rewrite Hp in Hc. exists c. split; [by apply dedup_elem in Hc as [? _]|done].
  - intros c d Hc Hd Hcs Hds. rewrite <- Hp in Hc, Hd. rewrite <- fmap_take in *.
    apply list_elem_of_fmap in Hcs as (c' & He & Hc'). assert (c = c') as <-.
    { apply Hinj; [done| |done]. rewrite <- (take_drop n sorted). apply elem_of_app. by left. }
    apply (sorted_take_drop _ sorted n); [done..|].
    rewrite <- (take_drop n sorted) in Hd. apply elem_of_app in Hd as [Hd|Hd]; [|done].
    destruct Hds. by apply list_elem_of_fmap_2.
Qed.

Lemma detect_fold acc l :
  foldl detect_step acc l
  = (acc.1 || existsb (λ p, exists_ p && contains_str "sev" (to_ascii_lowercase (file_name p))) l,
     acc.2 || existsb (λ p, exists_ p && negb (contains_str "sev" (to_ascii_lowercase (file_name p)))
        && (contains_str "sgx" (to_ascii_lowercase (file_name p))
            || String.eqb (to_ascii_lowercase (file_name p)) "isgx"
            || String.eqb (to_ascii_lowercase (parent_name p)) "sgx")) l).
Proof.
  revert acc. induction l as [|p l IH]; intros [a b]; simpl; [by rewrite !orb_false_r|].
  rewrite IH. unfold detect_step. cbv zeta. simpl.
  destruct (exists_ p), (contains_str "sev" _); simpl; rewrite ?orb_true_r; try done.
  destruct (_ || _ || _); simpl; by rewrite ?orb_true_r.
Qed.

Lemma detect_tee_devices_spec (ex : string → bool) :
  detect_tee_devices ex =
    if ex "/dev/sev-guest" || ex "/dev/sev" then (true, Some TierSev)
    else if ex "/dev/sgx_enclave" || ex "/dev/sgx/enclave" || ex "/dev/isgx" then (true, Some TierSgx)
    else (false, None).
Proof.
  unfold detect_tee_devices, detect_tee_at_paths. rewrite detect_fold.
  destruct (ex "/dev/sev-guest"), (ex "/dev/sev"), (ex "/dev/sgx_enclave"), (ex "/dev/sgx/enclave"), (ex "/dev/isgx");
    reflexivity.
Qed.

(** Tier resolution: with [VAULT_NODE_TIER] absent, blank or [auto] the tier is a TEE tier exactly
    when a device node of that technology is present, SEV winning over SGX; any other value is parsed
    as it is, whatever the devices, and rejected when unknown; in all cases the second component says
    whether a TEE device is present. *)
Lemma resolve_node_tier_spec (ex : string → bool) (raw : option string) (t : VaultNodeTier) (tee : bool) :
  let sev := ex "/dev/sev-guest" || ex "/dev/sev" in
  let sgx := ex "/dev/sgx_enclave" || ex "/dev/sgx/enclave" || ex "/dev/isgx" in
  let named := match raw with Some r => negb (str_len (trim r) =? 0) && negb (String.eqb (trim r) "auto") | None => false end in
  resolve_node_tier ex raw = Ok (t, tee) ↔
  tee = (sev || sgx)
  ∧ if named then tier_parse (trim (default "" raw)) = Some t
    else t = if sev then TierSev else if sgx then TierSgx else Domestic.
Proof.
  cbv zeta. unfold resolve_node_tier. rewrite detect_tee_devices_spec.
  generalize (ex "/dev/sev-guest" || ex "/dev/sev"), (ex "/dev/sgx_enclave" || ex "/dev/sgx/enclave" || ex "/dev/isgx").
  intros sev sgx. set (p := if sev then _ else _).
  assert (p = (sev || sgx, if sev then Some TierSev else if sgx then Some TierSgx else None)) as Hp
    by (by destruct sev, sgx). clearbody p. subst p.
  assert ((default Domestic (if sev then Some TierSev else if sgx then Some TierSgx else None))
    = if sev then TierSev else if sgx then TierSgx else Domestic) as -> by (by destruct sev, sgx).
  assert (∀ t' : VaultNodeTier, (Ok (t', sev || sgx) : res _) = Ok (t, tee) ↔ tee = (sev || sgx) ∧ t = t') as Hok
    by (intros t'; split; [by intros [= <- <-]|by intros [-> ->]]).
  destruct raw as [r|]; cbn [default from_option]; [|apply Hok]. cbv zeta.
  destruct (str_len (trim r) =? 0); cbn [negb andb]; [apply Hok|].
  destruct (String.eqb (trim r) "auto"); cbn [negb andb]; [apply Hok|].
  rewrite bind_ok. split.
  - intros (t' & H1%ok_or_ok & [Hsev Ht]%Hok). by rewrite Ht.
  - intros [-> Ht]. exists t. split; [by apply ok_or_ok|done].
Qed.
