(* ===== verification/Economy.v ===== *)
(** * Miner economy

    [domain/reward.rs], the in-memory port of [adapters/economy_memory.rs] and the use
    cases of [application/economy_ops.rs]. *)
From S2P Require Import Prelude RustStr Errors Identity Bucket Constitution Ledger NodeTier.
Local Open Scope N_scope.

Record RewardPolicy := {
  min_uptime_bps_30d : N; min_attestation_streak_days : N; min_bond_sats : N; waiting_pool_share_bps : N;
}.
Definition reward_v1_open : RewardPolicy :=
  {| min_uptime_bps_30d := 9500; min_attestation_streak_days := 1; min_bond_sats := 0; waiting_pool_share_bps := 0 |}.

Inductive GovernanceJobKind := JobDayAdvanced | JobReshareCompleted | JobReleaseCosign | JobReleaseActivate.
Definition job_str (j : GovernanceJobKind) : string :=
  match j with
  | JobDayAdvanced => "day_advanced" | JobReshareCompleted => "reshare_completed"
  | JobReleaseCosign => "release_cosign" | JobReleaseActivate => "release_activate"
  end.

Record GovernanceRewardConfig := { reward_sats : N; reward_bps_of_pool : N }.
Definition governance_disabled : GovernanceRewardConfig := {| reward_sats := 0; reward_bps_of_pool := 0 |}.
Definition governance_is_enabled (c : GovernanceRewardConfig) : bool := (0 <? reward_sats c) || (0 <? reward_bps_of_pool c).
Definition bounty_sats (c : GovernanceRewardConfig) (current_pool_sats : N) : N :=
  let from_bps := sat_mul64 current_pool_sats (reward_bps_of_pool c) / 10000 in
  sat_add64 (reward_sats c) from_bps.

Record MinerOperator := {
  op_node_id : NodeId; payout_destination : string; uptime_bps_30d : N; attestation_streak_days : N;
  bond_sats : N; waiting : bool;
}.
Definition is_eligible (p : RewardPolicy) (o : MinerOperator) : bool :=
  if waiting o then false
  else (min_uptime_bps_30d p <=? uptime_bps_30d o)
    && (min_attestation_streak_days p <=? attestation_streak_days o)
    && (min_bond_sats p <=? bond_sats o)
    && negb (str_len (trim (payout_destination o)) =? 0).

Record EconomyState := {
  policy : RewardPolicy;
  operators : gmap string MinerOperator;
  miner_pool_sats : N;
  channels_pool_sats : N;
  infra_pool_sats : N;
  accrued_profit_sats : N;
  pending_governance_reward_sats : N;
  governance_credits : gmap string N;
  crypto_suite_id_pq : string;
  last_miner_payout_at_secs : option N;
  last_miner_payout_epoch : option N;
}.
Definition set_operators f (s : EconomyState) : EconomyState := {|
  policy := policy s; operators := f (operators s); miner_pool_sats := miner_pool_sats s;
  channels_pool_sats := channels_pool_sats s; infra_pool_sats := infra_pool_sats s;
  accrued_profit_sats := accrued_profit_sats s; pending_governance_reward_sats := pending_governance_reward_sats s;
  governance_credits := governance_credits s; crypto_suite_id_pq := crypto_suite_id_pq s;
  last_miner_payout_at_secs := last_miner_payout_at_secs s; last_miner_payout_epoch := last_miner_payout_epoch s |}.
Definition set_pools (m c i a : N) (s : EconomyState) : EconomyState := {|
  policy := policy s; operators := operators s; miner_pool_sats := m; channels_pool_sats := c; infra_pool_sats := i;
  accrued_profit_sats := a; pending_governance_reward_sats := pending_governance_reward_sats s;
  governance_credits := governance_credits s; crypto_suite_id_pq := crypto_suite_id_pq s;
  last_miner_payout_at_secs := last_miner_payout_at_secs s; last_miner_payout_epoch := last_miner_payout_epoch s |}.
(** The miner pool, the pending bounty and the lifetime credits. *)
Definition set_rewards (m p : N) (g : gmap string N) (s : EconomyState) : EconomyState := {|
  policy := policy s; operators := operators s; miner_pool_sats := m; channels_pool_sats := channels_pool_sats s;
  infra_pool_sats := infra_pool_sats s; accrued_profit_sats := accrued_profit_sats s;
  pending_governance_reward_sats := p; governance_credits := g; crypto_suite_id_pq := crypto_suite_id_pq s;
  last_miner_payout_at_secs := last_miner_payout_at_secs s; last_miner_payout_epoch := last_miner_payout_epoch s |}.
Definition set_last_payout (at_secs : option N) (epoch : option N) (s : EconomyState) : EconomyState := {|
  policy := policy s; operators := operators s; miner_pool_sats := miner_pool_sats s;
  channels_pool_sats := channels_pool_sats s; infra_pool_sats := infra_pool_sats s;
  accrued_profit_sats := accrued_profit_sats s; pending_governance_reward_sats := pending_governance_reward_sats s;
  governance_credits := governance_credits s; crypto_suite_id_pq := crypto_suite_id_pq s;
  last_miner_payout_at_secs := at_secs; last_miner_payout_epoch := epoch |}.

Record GovernanceAccrual := {
  acc_job : GovernanceJobKind; acc_bounty_sats : N; accrued_to_pool_sats : N; credited : list (NodeId * N);
  participants : list NodeId; eligible_credited : N;
}.
Record ProfitSplitAccrual := { profit_sats : N; miners_sats : N; channels_sats : N; infra_sats : N }.
Record MinerPayoutShare := { share_node_id : NodeId; share_destination : string; share_amount_sats : N }.

Definition economy_new_open : EconomyState := {|
  policy := reward_v1_open; operators := ∅; miner_pool_sats := 0; channels_pool_sats := 0; infra_pool_sats := 0;
  accrued_profit_sats := 0; pending_governance_reward_sats := 0; governance_credits := ∅;
  crypto_suite_id_pq := "ml-dsa-65-placeholder"; last_miner_payout_at_secs := None; last_miner_payout_epoch := None |}.

(* ------------------------------------------------------------------ *)
(** ** Operations *)

Definition upsert_operator (op : MinerOperator) : dcmd EconomyState unit :=
  if contains_str ".." (payout_destination op) || contains_char "/"%char (payout_destination op)
     || contains_char "\"%char (payout_destination op)
  then fail (InvalidIntent "miner payout destination illegal")
  else update (set_operators (<[node_str (op_node_id op) := op]>)).

Definition eligible_active (s : EconomyState) : list MinerOperator :=
  filter (λ o, is_eligible (policy s) o = true) (bt_values (operators s)).

Definition accrue_profit_splits (profit : N) (splits : ProfitSplits) : dcmd EconomyState ProfitSplitAccrual :=
  _ ← lift (splits_validate splits);
  let '(miners, channels, infra) := allocate splits profit in
  s ← get;
  _ ← update (set_pools (sat_add64 (miner_pool_sats s) miners) (sat_add64 (channels_pool_sats s) channels)
                        (sat_add64 (infra_pool_sats s) infra) (sat_add64 (accrued_profit_sats s) profit));
  mret {| profit_sats := profit; miners_sats := miners; channels_sats := channels; infra_sats := infra |}.

Definition accrue_from_profit (profit p_reward_bps : N) : dcmd EconomyState N := λ s,
  match splits_open_with_reward p_reward_bps with
  | Err _ => (s, Ok 0)
  | Ok splits =>
      match accrue_profit_splits profit splits s with
      | (s', Ok a) => (s', Ok (miners_sats a))
      | (s', Err _) => (s', Ok 0)
      end
  end.

(** The share of each beneficiary, in order: [each], plus one while a remainder is left. *)
Fixpoint share_loop {A} (each rem : N) (l : list A) : list (A * N) :=
  match l with
  | [] => []
  | x :: r =>
      if 0 <? rem then (x, wrap64 (each + 1)) :: share_loop each (rem - 1) r
      else (x, each) :: share_loop each rem r
  end.
Definition equal_split {A} (amount : N) (l : list A) : list (A * N) :=
  let n := len l in
  let each := amount / n in
  let rem := amount - each * n in
  share_loop each rem l.

(** [*entry(id).or_insert(0) += share]. *)
Definition credit (g : gmap string N) (c : NodeId * N) : gmap string N :=
  <[node_str c.1 := wrap64 (default 0 (g !! node_str c.1) + c.2)]> g.

Definition eligible_participants (s : EconomyState) (parts : list NodeId) : list NodeId :=
  filter (λ id, match operators s !! node_str id with Some o => is_eligible (policy s) o | None => false end = true) parts.

Definition accrue_governance_job (job : GovernanceJobKind) (parts : list NodeId) (config : GovernanceRewardConfig) :
    dcmd EconomyState GovernanceAccrual :=
  let parts := dedup node_str ∅ parts in
  s ← get;
  let bounty := bounty_sats config (miner_pool_sats s) in
  if bounty =? 0 then
    mret {| acc_job := job; acc_bounty_sats := 0; accrued_to_pool_sats := 0; credited := []; participants := parts;
            eligible_credited := 0 |}
  else
    let eligible := eligible_participants s parts in
    let credited := match eligible with [] => [] | _ => equal_split bounty eligible end in
    let g := foldl credit (governance_credits s) credited in
    _ ← update (set_rewards (sat_add64 (miner_pool_sats s) bounty)
                            (sat_add64 (pending_governance_reward_sats s) bounty) g);
    mret {| acc_job := job; acc_bounty_sats := bounty; accrued_to_pool_sats := bounty; credited := credited;
            participants := parts; eligible_credited := len credited |}.

Definition payout_share (c : MinerOperator * N) : MinerPayoutShare :=
  {| share_node_id := op_node_id c.1; share_destination := payout_destination c.1; share_amount_sats := c.2 |}.

Definition propose_equal_payouts (s : EconomyState) (amount : N) : res (list MinerPayoutShare) :=
  let eligible := eligible_active s in
  if len eligible =? 0 then Err NoEligibleMiners
  else if (amount =? 0) || (miner_pool_sats s <? amount)
  then Err (InsufficientMinerPool (miner_pool_sats s) amount)
  else Ok (payout_share <$> equal_split amount eligible).

Definition debit_pool (amount : N) : dcmd EconomyState unit :=
  s ← get;
  if miner_pool_sats s <? amount then fail (InsufficientMinerPool (miner_pool_sats s) amount)
  else
    let from_gov := N.min amount (pending_governance_reward_sats s) in
    update (set_rewards (miner_pool_sats s - amount) (pending_governance_reward_sats s - from_gov)
                        (governance_credits s)).

Definition assert_payout_cadence_ok (s : EconomyState) (cadence : MinerPayoutCadence) (now_secs : N)
    (current_epoch : option N) : res unit :=
  match cadence with
  | CadManual => Ok tt
  | CadDaily =>
      match last_miner_payout_at_secs s with
      | Some last => if sat_sub now_secs last <? 86400
          then Err (RequestRejected "miner payout cadence daily: wait 86400s since last payout") else Ok tt
      | None => Ok tt
      end
  | CadWeekly =>
      match last_miner_payout_at_secs s with
      | Some last => if sat_sub now_secs last <? 604800
          then Err (RequestRejected "miner payout cadence weekly: wait 604800s since last payout") else Ok tt
      | None => Ok tt
      end
  | CadEpoch =>
      match current_epoch with
      | None => Err (RequestRejected "miner payout cadence epoch: current epoch required")
      | Some cur =>
          match last_miner_payout_epoch s with
          | Some last => if cur <=? last
              then Err (RequestRejected "miner payout cadence epoch: wait for next epoch") else Ok tt
          | None => Ok tt
          end
      end
  end.

Definition record_miner_payout (at_secs : N) (epoch : option N) : dcmd EconomyState unit :=
  update (λ s, set_last_payout (Some at_secs)
                 (match epoch with Some e => Some e | None => last_miner_payout_epoch s end) s).

Definition survivability_ok (online_vaults signing_t : N) : bool := (signing_t <=? online_vaults) || (online_vaults =? 0).

Definition to_intent (s : MinerPayoutShare) (intent_id policy_hash : string) : res SettlementIntent :=
  settlement_intent_new intent_id Miners (share_destination s) (share_amount_sats s) policy_hash.

Definition assert_bank_issued_miner_payout (eco : EconomyState) (intent : SettlementIntent) : res unit :=
  if negb (bool_decide (bucket intent = Miners)) then Ok tt
  else
    let matched := existsb (λ op, is_eligible (policy eco) op && String.eqb (payout_destination op) (destination intent))
                     (bt_values (operators eco)) in
    if negb matched then Err MinerSelfPayForbidden else Ok tt.

Definition show_opt (o : option N) : string := match o with Some n => show n | None => "null" end.

(* ------------------------------------------------------------------ *)
(** ** Use cases: [application/economy_ops.rs] *)

(** What the use cases share: the economy and the governance ledger. *)
Record EcoNode := { eco : EconomyState; led : LedgerState }.
Definition on_eco {A} : dcmd EconomyState A → dcmd EcoNode A := zoom eco (λ e n, {| eco := e; led := led n |}).
Definition on_led {A} : dcmd LedgerState A → dcmd EcoNode A := zoom led (λ l n, {| eco := eco n; led := l |}).

Section use_cases.
Context `{!Sha256}.

Record AccrueReceipt := {
  rc_profit_sats : N; rc_accrued_to_pool_sats : N; rc_channels_sats : N; rc_infra_sats : N;
  rc_miner_pool_sats : N; rc_channels_pool_sats : N; rc_infra_pool_sats : N; rc_p_reward_bps : N;
}.

Definition accrue_miner_rewards (writer : NodeId) (profit : N) : dcmd EcoNode AccrueReceipt :=
  constitution ← on_led ledger_constitution;
  split ← on_eco (accrue_profit_splits profit (profit_splits constitution));
  e ← on_eco get;
  let payload := format (q "{{`profit_sats`:{},`miners_sats`:{},`channels_sats`:{},`infra_sats`:{},`miners_bps`:{},`channels_bps`:{},`infra_bps`:{}}}")
    [show (profit_sats split); show (miners_sats split); show (channels_sats split); show (infra_sats split);
     show (miners_bps (profit_splits constitution)); show (channels_bps (profit_splits constitution));
     show (infra_bps (profit_splits constitution))] in
  epoch ← on_led ledger_epoch;
  _ ← on_led (append_event (number epoch) EvProfitAllocated payload writer);
  mret {| rc_profit_sats := profit; rc_accrued_to_pool_sats := miners_sats split; rc_channels_sats := channels_sats split;
          rc_infra_sats := infra_sats split; rc_miner_pool_sats := miner_pool_sats e;
          rc_channels_pool_sats := channels_pool_sats e; rc_infra_pool_sats := infra_pool_sats e;
          rc_p_reward_bps := p_reward_bps constitution |}.

Definition accrue_receipt_json (r : AccrueReceipt) : string :=
  format (q "{{`profit_sats`:{},`accrued_to_pool_sats`:{},`channels_sats`:{},`infra_sats`:{},`miner_pool_sats`:{},`channels_pool_sats`:{},`infra_pool_sats`:{},`p_reward_bps`:{}}}")
    [show (rc_profit_sats r); show (rc_accrued_to_pool_sats r); show (rc_channels_sats r); show (rc_infra_sats r);
     show (rc_miner_pool_sats r); show (rc_channels_pool_sats r); show (rc_infra_pool_sats r); show (rc_p_reward_bps r)].

Definition governance_payload (job : GovernanceJobKind) (context : string) (a : GovernanceAccrual) : string :=
  let credited := join "," ((λ c, format (q "{{`node_id`:`{}`,`sats`:{}}}") [node_str c.1; show c.2]) <$> credited a) in
  let parts := join "," ((λ i, quoted (node_str i)) <$> participants a) in
  format (q "{{`job`:`{}`,`context`:`{}`,`bounty_sats`:{},`accrued_to_pool_sats`:{},`eligible_credited`:{},`participants`:[{}],`credited`:[{}]}}")
    [job_str job; escape_json context; show (acc_bounty_sats a); show (accrued_to_pool_sats a); show (eligible_credited a);
     parts; credited].

Definition accrue_governance_work (writer : NodeId) (config : GovernanceRewardConfig) (job : GovernanceJobKind)
    (parts : list NodeId) (context : string) : dcmd EcoNode GovernanceAccrual :=
  if negb (governance_is_enabled config) then
    mret {| acc_job := job; acc_bounty_sats := 0; accrued_to_pool_sats := 0; credited := []; participants := parts;
            eligible_credited := 0 |}
  else
    accrual ← on_eco (accrue_governance_job job parts config);
    if (accrued_to_pool_sats accrual =? 0) && (acc_bounty_sats accrual =? 0) then mret accrual
    else
      epoch ← on_led ledger_epoch;
      _ ← on_led (append_event (number epoch) EvGovernanceRewardAccrued (governance_payload job context accrual) writer);
      mret accrual.

Record PayoutProposal := { total_sats : N; shares : list MinerPayoutShare; intents : list SettlementIntent }.

(** The loop over the proposed shares; [i] is the position. *)
Fixpoint payout_intents (e : EconomyState) (prefix : string) (policy_hash : string) (i : N)
    (l : list MinerPayoutShare) : res (list SettlementIntent) :=
  match l with
  | [] => Ok []
  | share :: r =>
      let id := format "{}-{}-{}" [prefix; show i; node_str (share_node_id share)] in
      intent ← to_intent share id policy_hash;
      _ ← assert_bank_issued_miner_payout e intent;
      rest ← payout_intents e prefix policy_hash (i + 1) r;
      Ok (intent :: rest)
  end.

Definition propose_miner_payouts (payout_cadence : MinerPayoutCadence) (now : N) (amount : N) (intent_prefix : string) :
    dcmd EcoNode PayoutProposal :=
  constitution ← on_led ledger_constitution;
  e ← on_eco get;
  _ ← lift (assert_payout_cadence_ok e payout_cadence now None);
  shares ← lift (propose_equal_payouts e amount);
  intents ← lift (payout_intents e intent_prefix (hash constitution) 0 shares);
  _ ← on_eco (debit_pool amount);
  _ ← on_eco (record_miner_payout now None);
  mret {| total_sats := amount; shares := shares; intents := intents |}.

Definition payout_proposal_json (p : PayoutProposal) : string :=
  let parts := (λ i, format (q "{{`intent_id`:`{}`,`destination`:`{}`,`amount_sats`:{}}}")
                       [intent_id i; destination i; show (amount_sats i)]) <$> intents p in
  format (q "{{`total_sats`:{},`intent_count`:{},`intents`:[{}]}}")
    [show (total_sats p); show (len (intents p)); join "," parts].

Definition economy_snapshot_json (s : EconomyState) : string :=
  let ops := (λ o, format (q "{{`node_id`:`{}`,`waiting`:{},`eligible`:{},`uptime_bps_30d`:{},`streak`:{},`governance_credits`:{}}}")
      [node_str (op_node_id o); show_bool (waiting o); show_bool (is_eligible (policy s) o); show (uptime_bps_30d o);
       show (attestation_streak_days o); show (default 0 (governance_credits s !! node_str (op_node_id o)))])
    <$> bt_values (operators s) in
  format (q "{{`miner_pool_sats`:{},`channels_pool_sats`:{},`infra_pool_sats`:{},`pending_governance_reward_sats`:{},`operators`:[{}],`crypto_suite_id_pq`:`{}`}}")
    [show (miner_pool_sats s); show (channels_pool_sats s); show (infra_pool_sats s);
     show (pending_governance_reward_sats s); join "," ops; crypto_suite_id_pq s].

Definition is_payout_epoch (frequency : MinerPayoutCadence) (day_epoch : N) : bool :=
  match frequency with
  | CadManual => false | CadDaily => true | CadWeekly => day_epoch mod 7 =? 0 | CadEpoch => false
  end.

Record EconomyStatusView := {
  v_miner_pool_sats : N; v_channels_pool_sats : N; v_infra_pool_sats : N; v_accrued_profit_sats : N;
  v_pending_governance_reward_sats : N; v_governance_reward_sats : N; v_governance_reward_bps : N;
  v_p_reward_bps : N; v_channels_bps : N; v_infra_bps : N; v_miner_payout_cadence : string;
  v_last_miner_payout_at_secs : option N; v_eligible_miners : N; v_waiting_miners : N; v_crypto_suite_id : string;
  v_crypto_suite_id_pq : string; v_survivability_ok : bool; v_open_economy : bool; v_node_tier : string;
  v_attestation_mode : string; v_tee_available : bool; v_tier_governance_weight_bps : N;
}.

Definition get_economy_status (governance_reward : GovernanceRewardConfig) (cadence : MinerPayoutCadence)
    (node_tier : VaultNodeTier) (mode : AttestationMode) (tee_available : bool) : dcmd EcoNode EconomyStatusView :=
  constitution ← on_led ledger_constitution;
  e ← on_eco get;
  let online := signing_n constitution in
  mret {|
    v_miner_pool_sats := miner_pool_sats e; v_channels_pool_sats := channels_pool_sats e;
    v_infra_pool_sats := infra_pool_sats e; v_accrued_profit_sats := accrued_profit_sats e;
    v_pending_governance_reward_sats := pending_governance_reward_sats e;
    v_governance_reward_sats := reward_sats governance_reward; v_governance_reward_bps := reward_bps_of_pool governance_reward;
    v_p_reward_bps := p_reward_bps constitution; v_channels_bps := channels_bps (profit_splits constitution);
    v_infra_bps := infra_bps (profit_splits constitution); v_miner_payout_cadence := cadence_str cadence;
    v_last_miner_payout_at_secs := last_miner_payout_at_secs e; v_eligible_miners := len (eligible_active e);
    v_waiting_miners := len (filter (λ o, waiting o = true) (bt_values (operators e)));
    v_crypto_suite_id := crypto_suite_id constitution; v_crypto_suite_id_pq := crypto_suite_id_pq e;
    v_survivability_ok := survivability_ok online (signing_t constitution);
    v_open_economy := 0 <? miners_bps (profit_splits constitution); v_node_tier := tier_str node_tier;
    v_attestation_mode := attestation_mode_str mode; v_tee_available := tee_available;
    v_tier_governance_weight_bps := governance_weight_bps node_tier |}.

Definition economy_status_json (v : EconomyStatusView) : string :=
  format (q "{{`miner_pool_sats`:{},`channels_pool_sats`:{},`infra_pool_sats`:{},`accrued_profit_sats`:{},`pending_governance_reward_sats`:{},`governance_reward_sats`:{},`governance_reward_bps`:{},`p_reward_bps`:{},`channels_bps`:{},`infra_bps`:{},`miner_payout_cadence`:`{}`,`last_miner_payout_at_secs`:{},`eligible_miners`:{},`waiting_miners`:{},`crypto_suite_id`:`{}`,`crypto_suite_id_pq`:`{}`,`survivability_ok`:{},`open_economy`:{},`node_tier`:`{}`,`attestation_mode`:`{}`,`tee_available`:{},`tier_governance_weight_bps`:{}}}")
    [show (v_miner_pool_sats v); show (v_channels_pool_sats v); show (v_infra_pool_sats v); show (v_accrued_profit_sats v);
     show (v_pending_governance_reward_sats v); show (v_governance_reward_sats v); show (v_governance_reward_bps v);
     show (v_p_reward_bps v); show (v_channels_bps v); show (v_infra_bps v); v_miner_payout_cadence v;
     show_opt (v_last_miner_payout_at_secs v); show (v_eligible_miners v); show (v_waiting_miners v); v_crypto_suite_id v;
     v_crypto_suite_id_pq v; show_bool (v_survivability_ok v); show_bool (v_open_economy v); v_node_tier v;
     v_attestation_mode v; show_bool (v_tee_available v); show (v_tier_governance_weight_bps v)].
End use_cases.

(* ------------------------------------------------------------------ *)
(** ** Equal splits *)

Lemma share_loop_lookup {A} each rem (l : list A) i x k : rem = 0 ∨ each < u64_max →
  share_loop each rem l !! i = Some (x, k) ↔
  l !! i = Some x ∧ k = each + (if bool_decide (N.of_nat i < rem) then 1 else 0).
Proof.
  revert rem i. induction l as [|y l IH]; intros rem i Hr; [destruct i; naive_solver|].
  simpl. destruct (0 <? rem) eqn:H0; nbool; destruct i as [|i]; simpl.
  - rewrite wrap64_exact by (unfold u64_max in *; lia). rewrite bool_decide_true by lia. naive_solver.
  - rewrite IH by lia. replace (bool_decide (N.of_nat (Datatypes.S i) < rem)) with (bool_decide (N.of_nat i < rem - 1))
      by (apply bool_decide_ext; lia). done.
  - rewrite bool_decide_false by lia. rewrite N.add_0_r. naive_solver.
  - rewrite IH by lia. rewrite !bool_decide_false by lia. done.
Qed.

Lemma share_loop_fst {A} each rem (l : list A) : (share_loop each rem l).*1 = l.
Proof. revert rem. induction l as [|y l IH]; intros rem; [done|]. simpl. destruct (0 <? rem); simpl; by rewrite IH. Qed.

Lemma share_loop_sum {A} each rem (l : list A) : rem = 0 ∨ each < u64_max →
  sumN snd (share_loop each rem l) = each * len l + N.min rem (len l).
Proof.
  revert rem. induction l as [|y l IH]; intros rem Hr; [unfold len; simpl; lia|].
  simpl. rewrite len_cons. destruct (0 <? rem) eqn:H0; nbool; simpl; rewrite IH by lia; [|lia].
  rewrite wrap64_exact by (unfold u64_max in *; lia). lia.
Qed.

Lemma split_room amount n : 0 < n → amount ≤ u64_max → amount - amount / n * n = 0 ∨ amount / n < u64_max.
Proof.
  intros Hn Ha. destruct (decide (n = 1)) as [->|]; [left; rewrite N.div_1_r; lia|]. right.
  apply N.Div0.div_lt_upper_bound. unfold u64_max in *. nia.
Qed.

Lemma rem_is_mod amount n : 0 < n → amount - amount / n * n = amount mod n ∧ amount / n * n + amount mod n = amount
  ∧ amount mod n < n.
Proof.
  intros Hn. pose proof (N.div_mod amount n ltac:(lia)). pose proof (N.mod_upper_bound amount n ltac:(lia)).
  generalize dependent (amount mod n). generalize (amount / n). intros. lia.
Qed.

Lemma equal_split_sum {A} amount (l : list A) : l ≠ [] → amount ≤ u64_max →
  sumN snd (equal_split amount l) = amount.
Proof.
  intros Hl Ha. assert (0 < len l) as Hn by (destruct l; [done|rewrite len_cons; lia]).
  unfold equal_split. rewrite share_loop_sum by (by apply split_room).
  destruct (rem_is_mod amount (len l) Hn) as (-> & He & Hm). rewrite N.min_l by (apply N.lt_le_incl, Hm). exact He.
Qed.

Lemma length_equal_split {A} amount (l : list A) : length (equal_split amount l) = length l.
Proof.
  rewrite <- (length_fmap fst (equal_split amount l)). unfold equal_split. cbv zeta. by rewrite share_loop_fst.
Qed.

Lemma equal_split_lookup {A} amount (l : list A) i x k : l ≠ [] → amount ≤ u64_max →
  equal_split amount l !! i = Some (x, k) ↔
  l !! i = Some x ∧ k = amount / len l + (if bool_decide (N.of_nat i < amount mod len l) then 1 else 0).
Proof.
  intros Hl Ha. assert (0 < len l) as Hn by (destruct l; [done|rewrite len_cons; lia]).
  unfold equal_split. rewrite share_loop_lookup by (by apply split_room).
  by rewrite (proj1 (rem_is_mod amount (len l) Hn)).
Qed.

Lemma elem_of_eligible_active s o : o ∈ eligible_active s ↔
  is_eligible (policy s) o = true ∧ ∃ k, operators s !! k = Some o.
Proof. unfold eligible_active. by rewrite list_elem_of_filter, elem_of_bt_values. Qed.

Lemma propose_ok s amount out : propose_equal_payouts s amount = Ok out ↔
  eligible_active s ≠ [] ∧ 0 < amount ≤ miner_pool_sats s ∧ out = payout_share <$> equal_split amount (eligible_active s).
Proof.
  unfold propose_equal_payouts. cbv zeta. rewrite !guard_ok, Ok_inj_iff. nbool.
  destruct (eligible_active s); rewrite ?len_nil, ?len_cons; intuition (try congruence; try lia).
Qed.

Lemma sumN_fmap {A B} (f : A → B) (g : B → N) l : sumN g (f <$> l) = sumN (λ x, g (f x)) l.
Proof. induction l as [|x l IH]; simpl; [done|by rewrite <- IH]. Qed.

(** An equal payout proposal of the pool: it is made exactly when someone is eligible and the amount
    is positive and within the pool; then each eligible registered operator gets one share, in key
    order, of [amount / n], one sat more for the first [amount mod n], and the shares sum to the
    amount. *)
Theorem payouts_split_equally s amount : amount ≤ u64_max →
  ((∃ out, propose_equal_payouts s amount = Ok out) ↔ eligible_active s ≠ [] ∧ 0 < amount ≤ miner_pool_sats s)
  ∧ ∀ out, propose_equal_payouts s amount = Ok out →
    length out = length (eligible_active s) ∧ sumN share_amount_sats out = amount
    ∧ ∀ i sh, out !! i = Some sh → ∃ op k,
        eligible_active s !! i = Some op ∧ is_eligible (policy s) op = true ∧ operators s !! k = Some op
        ∧ share_node_id sh = op_node_id op ∧ share_destination sh = payout_destination op
        ∧ share_amount_sats sh = amount / len (eligible_active s)
                                 + (if bool_decide (N.of_nat i < amount mod len (eligible_active s)) then 1 else 0).
Proof.
  intros Ha. split.
  { split; [by intros (out & (? & ? & _)%propose_ok)|]. intros [? ?]. eexists. by apply propose_ok. }
  intros out (Hne & Hp & ->)%propose_ok. split; [|split].
  - by rewrite length_fmap, length_equal_split.
  - rewrite sumN_fmap. by apply (equal_split_sum amount (eligible_active s)).
  - intros i sh. rewrite list_lookup_fmap_Some. intros ([op k] & -> & (Hop & ->)%equal_split_lookup); [|done..].
    assert (op ∈ eligible_active s) as (He & key & Hk)%elem_of_eligible_active by (by eapply list_elem_of_lookup_2).
    exists op, key. done.
Qed.

(** Two operators for the runs below. *)
Definition demo_op (id dest : string) : MinerOperator := {|
  op_node_id := {| node_str := id |}; payout_destination := dest; uptime_bps_30d := 9900;
  attestation_streak_days := 3; bond_sats := 0; waiting := false |}.
Definition demo_economy : EconomyState :=
  set_pools 1000 0 0 0 (set_operators (λ _, {["a" := demo_op "a" "tb1qa"; "b" := demo_op "b" "tb1qb"]}) economy_new_open).

Lemma payouts_split_equally_witness :
  propose_equal_payouts demo_economy 7 =
    Ok [ {| share_node_id := {| node_str := "a" |}; share_destination := "tb1qa"; share_amount_sats := 4 |};
         {| share_node_id := {| node_str := "b" |}; share_destination := "tb1qb"; share_amount_sats := 3 |} ]
  ∧ ∀ out, propose_equal_payouts demo_economy 7 = Ok out → sumN share_amount_sats out = 7.
Proof.
  split; [vm_compute; reflexivity|]. intros out Hout.
  apply (payouts_split_equally demo_economy 7); [vm_compute; discriminate|exact Hout].
Defined.

(* ------------------------------------------------------------------ *)
(** ** Governance bounties *)

Lemma foldl_credit_other g l id : id ∉ (λ c, node_str c.1) <$> l → foldl credit g l !! id = g !! id.
Proof.
  revert g. induction l as [|c l IH]; intros g Hid; [done|]. simpl. rewrite IH by set_solver.
  unfold credit. rewrite lookup_insert_ne; [done|]. set_solver.
Qed.

Lemma foldl_credit_in g l c : NoDup ((λ c, node_str c.1) <$> l) → c ∈ l →
  foldl credit g l !! node_str c.1 = Some (wrap64 (default 0 (g !! node_str c.1) + c.2)).
Proof.
  revert g. induction l as [|d l IH]; intros g Hnd Hc; [by apply elem_of_nil in Hc|]. simpl in *.
  apply NoDup_cons in Hnd as [Hd Hnd]. apply elem_of_cons in Hc as [->|Hc].
  - rewrite foldl_credit_other by done. unfold credit. by rewrite lookup_insert_eq.
  - rewrite IH by done. unfold credit. rewrite lookup_insert_ne; [done|].
    intros He. apply Hd. rewrite He. by apply (list_elem_of_fmap_2 (λ c, node_str c.1)).
Qed.

Lemma elem_of_eligible_participants s parts id : id ∈ eligible_participants s parts ↔
  id ∈ parts ∧ ∃ o, operators s !! node_str id = Some o ∧ is_eligible (policy s) o = true.
Proof.
  unfold eligible_participants. rewrite list_elem_of_filter. destruct (operators s !! node_str id); naive_solver.
Qed.

Lemma bounty_le c p : bounty_sats c p ≤ u64_max.
Proof. unfold bounty_sats. auto with vault. Qed.

(** A governance job: the bounty is the fixed reward plus the basis points of the pool, saturated; a
    zero bounty changes nothing. Otherwise the whole bounty enters the miner pool and the pending
    amount; the credits go, at most once each, to exactly the participants that are registered and
    eligible, differ by at most one sat and sum to the bounty when there is any; the other
    operators' lifetime credits do not change. *)
Theorem governance_job_conserves job parts config s :
  let bounty := bounty_sats config (miner_pool_sats s) in
  let '(s', r) := accrue_governance_job job parts config s in
  ∃ a, r = Ok a ∧ acc_bounty_sats a = bounty ∧ accrued_to_pool_sats a = bounty
  ∧ (bounty = 0 → s' = s)
  ∧ (bounty ≠ 0 →
      miner_pool_sats s' = sat_add64 (miner_pool_sats s) bounty
      ∧ pending_governance_reward_sats s' = sat_add64 (pending_governance_reward_sats s) bounty
      ∧ NoDup ((λ c, node_str c.1) <$> credited a)
      ∧ (∀ k, k ∈ node_str <$> (credited a).*1 ↔ k ∈ node_str <$> parts
            ∧ ∃ o, operators s !! k = Some o ∧ is_eligible (policy s) o = true)
      ∧ (credited a ≠ [] → sumN snd (credited a) = bounty)
      ∧ (∀ c d, c ∈ credited a → d ∈ credited a → c.2 ≤ d.2 + 1)
      ∧ (∀ c, c ∈ credited a →
          governance_credits s' !! node_str c.1 = Some (wrap64 (default 0 (governance_credits s !! node_str c.1) + c.2)))
      ∧ (∀ k, k ∉ node_str <$> (credited a).*1 → governance_credits s' !! k = governance_credits s !! k)).
Proof.
  cbv zeta. unfold accrue_governance_job. cbv [mret mbind cmd_ret cmd_bind get update]. cbv zeta.
  pose proof (bounty_le config (miner_pool_sats s)) as Hb.
  generalize dependent (bounty_sats config (miner_pool_sats s)). intros bounty Hb.
  destruct (bounty =? 0) eqn:H0; nbool.
  { subst bounty. eexists. split; [done|]. simpl. do 2 (split; [done|]). split; [done|]. done. }
  set (parts' := dedup node_str ∅ parts). set (el := eligible_participants s parts').
  set (cr := match el with [] => [] | _ :: _ => equal_split bounty el end).
  assert (cr.*1 = el) as Hfst by (unfold cr; destruct el; [done|apply share_loop_fst]).
  assert (NoDup ((λ c, node_str c.1) <$> cr)) as Hnd.
  { assert ((λ c, node_str c.1) <$> cr = node_str <$> cr.*1) as -> by (by rewrite <- list_fmap_compose).
    rewrite Hfst. apply NoDup_fmap_2; [intros ? ?; apply node_str_inj|]. apply NoDup_filter.
    apply (NoDup_fmap_1 node_str), dedup_NoDup. }
  eexists. split; [done|]. simpl. do 2 (split; [done|]). split; [done|]. intros _.
  do 2 (split; [done|]). split; [done|]. split; [|split; [|split; [|split]]].
  - intros k. rewrite Hfst. split.
    + intros (id & -> & (Hid & o & Ho & He)%elem_of_eligible_participants)%list_elem_of_fmap.
      apply dedup_elem in Hid as [Hid _]. split; [by apply list_elem_of_fmap_2|]. by exists o.
    + intros [Hk (o & Ho & He)]. assert (k ∈ node_str <$> parts') as (id & -> & Hid)%list_elem_of_fmap
        by (apply dedup_keys; set_solver).
      apply list_elem_of_fmap_2, elem_of_eligible_participants. by eauto.
  - intros Hne. unfold cr in *. destruct el eqn:Hel; [done|]. by apply equal_split_sum.
  - intros [x k] [y j] Hc Hd. unfold cr in *. destruct el as [|e el'] eqn:Hel; [by apply elem_of_nil in Hc|].
    apply list_elem_of_lookup in Hc as [i Hi], Hd as [i' Hi'].
    apply equal_split_lookup in Hi as [_ ->], Hi' as [_ ->]; [|done..]. simpl. do 2 case_bool_decide; lia.
  - intros c Hc. by apply foldl_credit_in.
  - intros k Hk. apply foldl_credit_other. by rewrite <- list_fmap_compose in Hk.
Qed.

(* ------------------------------------------------------------------ *)
(** ** Use cases along a run *)

Section runs.
Context {SH : Sha256}.

(** Calls of the use cases on one node; [now] is the clock's reading. *)
Inductive ucall :=
| UUpsert (op : MinerOperator)
| UAccrue (writer : NodeId) (profit : N)
| UGov (writer : NodeId) (config : GovernanceRewardConfig) (job : GovernanceJobKind) (parts : list NodeId) (context : string)
| UPropose (now amount : N) (prefix : string).

Definition urun (cad : MinerPayoutCadence) (c : ucall) (n : EcoNode) : EcoNode :=
  match c with
  | UUpsert op => (on_eco (upsert_operator op) n).1
  | UAccrue w p => (accrue_miner_rewards w p n).1
  | UGov w cfg job parts ctx => (accrue_governance_work w cfg job parts ctx n).1
  | UPropose now amount prefix => (propose_miner_payouts cad now amount prefix n).1
  end.
Definition urun_all (cad : MinerPayoutCadence) (l : list ucall) (n : EcoNode) : EcoNode :=
  foldl (λ n c, urun cad c n) n l.

(** What a call adds to the miner pool, and what it takes out. *)
Definition inflow (c : ucall) (n : EcoNode) : N :=
  match c with
  | UAccrue _ p =>
      match splits_validate (profit_splits (constitution (led n))) with
      | Ok _ => (allocate (profit_splits (constitution (led n))) p).1.1 | Err _ => 0 end
  | UGov _ cfg _ _ _ => if governance_is_enabled cfg then bounty_sats cfg (miner_pool_sats (eco n)) else 0
  | _ => 0
  end.
Definition outflow (cad : MinerPayoutCadence) (c : ucall) (n : EcoNode) : N :=
  match c with
  | UPropose now amount prefix => if is_ok (propose_miner_payouts cad now amount prefix n).2 then amount else 0
  | _ => 0
  end.
Fixpoint total_in (cad : MinerPayoutCadence) (l : list ucall) (n : EcoNode) : N :=
  match l with [] => 0 | c :: r => inflow c n + total_in cad r (urun cad c n) end.
Fixpoint total_out (cad : MinerPayoutCadence) (l : list ucall) (n : EcoNode) : N :=
  match l with [] => 0 | c :: r => outflow cad c n + total_out cad r (urun cad c n) end.

(** Ledger calls leave the economy alone. *)
Lemma on_led_eco {A} (m : dcmd LedgerState A) n : eco (on_led m n).1 = eco n.
Proof. unfold on_led, zoom. by destruct (m (led n)). Qed.

Lemma propose_cases cad now amount prefix n :
  let '(n', r) := propose_miner_payouts cad now amount prefix n in
  match r with
  | Ok p =>
      assert_payout_cadence_ok (eco n) cad now None = Ok tt
      ∧ propose_equal_payouts (eco n) amount = Ok (shares p)
      ∧ payout_intents (eco n) prefix (hash (constitution (led n))) 0 (shares p) = Ok (intents p)
      ∧ total_sats p = amount ∧ led n' = led n
      ∧ eco n' = set_last_payout (Some now) (last_miner_payout_epoch (eco n))
          (set_rewards (miner_pool_sats (eco n) - amount)
             (pending_governance_reward_sats (eco n) - N.min amount (pending_governance_reward_sats (eco n)))
             (governance_credits (eco n)) (eco n))
  | Err _ => n' = n
  end.
Proof.
  destruct n as [e l]. unfold propose_miner_payouts, on_led, on_eco, ledger_constitution, debit_pool, record_miner_payout.
  cbv [mret mbind cmd_ret cmd_bind get update lift zoom fail]. cbn [eco led].
  destruct (assert_payout_cadence_ok e cad now None) as [[]|]; [|done].
  destruct (propose_equal_payouts e amount) as [sh|] eqn:Hp; [|done].
  destruct (payout_intents e prefix _ 0 sh) as [is_|] eqn:Hi; [|done].
  apply propose_ok in Hp as (Hne & Ha & Hsh). destruct (miner_pool_sats e <? amount) eqn:Hlt; [exfalso; nlia|].
  cbn [eco led shares intents total_sats]. repeat (split; [done|]). done.
Qed.

Lemma accrue_cases w profit n :
  let '(n', r) := accrue_miner_rewards w profit n in
  eco n' = match splits_validate (profit_splits (constitution (led n))) with
           | Ok _ => let '(m, c, i) := allocate (profit_splits (constitution (led n))) profit in
               set_pools (sat_add64 (miner_pool_sats (eco n)) m) (sat_add64 (channels_pool_sats (eco n)) c)
                 (sat_add64 (infra_pool_sats (eco n)) i) (sat_add64 (accrued_profit_sats (eco n)) profit) (eco n)
           | Err _ => eco n
           end.
Proof.
  destruct n as [e l]. unfold accrue_miner_rewards, on_led, on_eco, ledger_constitution, ledger_epoch, accrue_profit_splits.
  cbv [mret mbind cmd_ret cmd_bind get update lift zoom]. cbn [eco led].
  destruct (splits_validate (profit_splits (constitution l))) as [[]|]; [|done].
  destruct (allocate (profit_splits (constitution l)) profit) as [[m c] i]. cbn [eco led].
  match goal with |- context [append_event ?a ?b ?c ?d ?st] => destruct (append_event a b c d st) as [l' [[]|er]] end;
    done.
Qed.

Lemma gov_cases w cfg job parts ctx n :
  eco (accrue_governance_work w cfg job parts ctx n).1 =
    if governance_is_enabled cfg then (accrue_governance_job job parts cfg (eco n)).1 else eco n.
Proof.
  destruct n as [e l]. unfold accrue_governance_work, on_led, on_eco, ledger_epoch.
  cbv [mret mbind cmd_ret cmd_bind get zoom]. cbn [eco led].
  destruct (governance_is_enabled cfg); cbn [negb eco led]; [|done].
  destruct (accrue_governance_job job parts cfg e) as [e' [a|er]]; cbn [eco led fst snd]; [|done].
  destruct (_ && _); [done|].
  match goal with |- context [append_event ?a ?b ?c ?d ?st] => destruct (append_event a b c d st) as [l' [[]|er]] end;
    done.
Qed.

Lemma gov_pools job parts cfg s :
  let s' := (accrue_governance_job job parts cfg s).1 in let b := bounty_sats cfg (miner_pool_sats s) in
  (b = 0 ∧ s' = s) ∨ (miner_pool_sats s' = sat_add64 (miner_pool_sats s) b
  ∧ pending_governance_reward_sats s' = sat_add64 (pending_governance_reward_sats s) b
  ∧ last_miner_payout_at_secs s' = last_miner_payout_at_secs s).
Proof.
  cbv zeta. unfold accrue_governance_job. cbv [mret mbind cmd_ret cmd_bind get update]. cbv zeta.
  destruct (bounty_sats cfg (miner_pool_sats s) =? 0) eqn:H0; [left; split; [nlia|done]|right; done].
Qed.

(** What a call does to the pool, the pending bounty and the time of the last payout. *)
Lemma urun_pools cad c n :
  let n' := urun cad c n in
  (miner_pool_sats (eco n) + inflow c n ≤ u64_max →
     miner_pool_sats (eco n') + outflow cad c n = miner_pool_sats (eco n) + inflow c n)
  ∧ (pending_governance_reward_sats (eco n) ≤ miner_pool_sats (eco n) ≤ u64_max →
     pending_governance_reward_sats (eco n') ≤ miner_pool_sats (eco n') ≤ u64_max)
  ∧ (last_miner_payout_at_secs (eco n') = last_miner_payout_at_secs (eco n)
     ∨ ∃ now amount prefix, c = UPropose now amount prefix ∧ last_miner_payout_at_secs (eco n') = Some now
         ∧ assert_payout_cadence_ok (eco n) cad now None = Ok tt).
Proof.
  cbv zeta. destruct c as [op|w p|w cfg job parts ctx|now amount prefix]; unfold urun, inflow, outflow.
  - unfold on_eco, zoom, upsert_operator. destruct (_ || _); simpl; (split; [lia|split; [done|by left]]).
  - pose proof (accrue_cases w p n) as H. destruct (accrue_miner_rewards w p n) as [n' r]. cbn [fst]. rewrite H.
    destruct (splits_validate _) as [[]|]; [|split; [lia|split; [done|by left]]].
    destruct (allocate _ p) as [[m c] i]. cbn [fst snd set_pools miner_pool_sats pending_governance_reward_sats last_miner_payout_at_secs].
    split; [intros; rewrite sat_add64_exact by done; lia|]. split; [|by left].
    unfold sat_add64. lia.
  - rewrite gov_cases. destruct (governance_is_enabled cfg); [|split; [lia|split; [done|by left]]].
    pose proof (gov_pools job parts cfg (eco n)) as H. cbv zeta in H.
    destruct H as [[-> ->]|(-> & -> & ->)]; [split; [lia|split; [done|by left]]|].
    split; [intros; rewrite sat_add64_exact by done; lia|]. split; [unfold sat_add64; lia|by left].
  - pose proof (propose_cases cad now amount prefix n) as H.
    destruct (propose_miner_payouts cad now amount prefix n) as [n' [p|e]]; cbn [fst snd is_ok].
    2: { subst n'. split; [lia|split; [done|by left]]. }
    destruct H as (Hc & (_ & Ha & _)%propose_ok & _ & _ & _ & ->).
    cbn [set_last_payout set_rewards miner_pool_sats pending_governance_reward_sats last_miner_payout_at_secs].
    split; [lia|]. split; [lia|]. right. by exists now, amount, prefix.
Qed.

Definition pools_ok (s : EconomyState) : Prop :=
  pending_governance_reward_sats s ≤ miner_pool_sats s ≤ u64_max.


Definition spacing (cad : MinerPayoutCadence) : N := match cad with CadDaily => 86400 | CadWeekly => 604800 | _ => 0 end.

Lemma cadence_spacing cad s now ep last : (cad = CadDaily ∨ cad = CadWeekly) →
  last_miner_payout_at_secs s = Some last → assert_payout_cadence_ok s cad now ep = Ok tt → last + spacing cad ≤ now.
Proof.
  intros [->| ->] Hl; unfold assert_payout_cadence_ok, sat_sub; rewrite Hl, guard_ok, N.ltb_ge; simpl; lia.
Qed.

(** A payout time, once recorded, only moves forward, by at least the spacing. *)
Lemma last_payout_grows cad l n t : (cad = CadDaily ∨ cad = CadWeekly) →
  last_miner_payout_at_secs (eco n) = Some t →
  ∃ t', last_miner_payout_at_secs (eco (urun_all cad l n)) = Some t' ∧ t ≤ t'.
Proof.
  intros Hcad. revert n t. induction l as [|c l IH]; intros n t Ht; simpl; [by exists t|].
  destruct (urun_pools cad c n) as (_ & _ & [He|(now & a & p & -> & He & Hc)]).
  - apply (IH _ t). by rewrite He.
  - destruct (IH _ now He) as (t' & H1 & H2). pose proof (cadence_spacing cad _ _ _ _ Hcad Ht Hc).
    exists t'. split; [done|]. lia.
Qed.

(** Payouts are spaced: under the daily or weekly cadence, after a payout proposal at clock reading
    [t1] succeeded, and whatever calls happen in between, another one succeeds at reading [t2] only if
    at least 86400 (604800) seconds passed, even when the clock was set back in between. *)
Theorem payouts_spaced cad n1 t1 a1 p1 l t2 a2 p2 :
  (cad = CadDaily ∨ cad = CadWeekly) →
  is_ok (propose_miner_payouts cad t1 a1 p1 n1).2 = true →
  let n2 := urun_all cad l (propose_miner_payouts cad t1 a1 p1 n1).1 in
  is_ok (propose_miner_payouts cad t2 a2 p2 n2).2 = true →
  t1 + spacing cad ≤ t2.
Proof.
  intros Hcad H1 n2 H2. pose proof (propose_cases cad t1 a1 p1 n1) as C1. pose proof (propose_cases cad t2 a2 p2 n2) as C2.
  unfold n2 in *. destruct (propose_miner_payouts cad t1 a1 p1 n1) as [n1' [q1|]]; [|done]. cbn [fst snd] in *.
  destruct (propose_miner_payouts cad t2 a2 p2 _) as [n2' [q2|]]; [|done].
  destruct C1 as (_ & _ & _ & _ & _ & He1), C2 as (Hc2 & _).
  destruct (last_payout_grows cad l n1' t1 Hcad) as (t' & Hl & Hle); [by rewrite He1|].
  pose proof (cadence_spacing cad _ _ _ _ Hcad Hl Hc2). lia.
Qed.

(** Under the epoch cadence the use case never succeeds: it passes no epoch. *)
Lemma epoch_cadence_never_pays now amount prefix n :
  propose_miner_payouts CadEpoch now amount prefix n =
    (n, Err (RequestRejected "miner payout cadence epoch: current epoch required")).
Proof. by destruct n. Qed.

(** A ledger that refuses the event leaves the profit in the pools of a failed call. *)
Lemma refused_event_keeps_profit w profit n :
  splits_validate (profit_splits (constitution (led n))) = Ok tt →
  epoch_contains (epoch (led n)) w = false →
  let '(n', r) := accrue_miner_rewards w profit n in
  is_ok r = false ∧ accrued_profit_sats (eco n') = sat_add64 (accrued_profit_sats (eco n)) profit.
Proof.
  intros Hs Hw. pose proof (accrue_cases w profit n) as Hc. destruct n as [e l]. cbn [eco led] in *.
  destruct (accrue_miner_rewards w profit _) as [n' r] eqn:Hr. rewrite Hs in Hc.
  destruct (allocate (profit_splits (constitution l)) profit) as [[m c] i] eqn:Ha. split; [|by rewrite Hc].
  revert Hr. unfold accrue_miner_rewards, on_led, on_eco, ledger_constitution, ledger_epoch, accrue_profit_splits.
  cbv [mret mbind cmd_ret cmd_bind get update lift zoom]. cbn [eco led]. rewrite Hs, Ha. cbn [eco led].
  match goal with |- context [append_event ?a ?b ?c ?d ?st] => pose proof (append_event_cases a b c d st) as H;
    destruct (append_event a b c d st) as [l' [[]|er]] end; [|by intros [= <- <-]].
  destruct H as [H _]. apply epoch_contains_iff in H. congruence.
Qed.
End runs.

(* ------------------------------------------------------------------ *)
(** ** The intents of a proposal *)

Lemma settlement_intent_fields id b dest amount ph i : settlement_intent_new id b dest amount ph = Ok i →
  i = {| intent_id := id; bucket := b; destination := dest; amount_sats := amount; policy_hash := ph; signature := None |}.
Proof. unfold settlement_intent_new. rewrite !guard_ok. intros H. destruct_and?. by simplify_eq. Qed.

Definition payout_intent_id (prefix : string) (i : N) (node : NodeId) : string :=
  format "{}-{}-{}" [prefix; show i; node_str node].

Lemma string_app_inj a x y : a +:+ x = a +:+ y → x = y.
Proof. induction a as [|c a IH]; [done|]. intros H. apply IH. by injection H. Qed.

Lemma payout_intent_id_inj prefix i j n m : payout_intent_id prefix i n = payout_intent_id prefix j m → i = j.
Proof.
  unfold payout_intent_id. cbn [format Ascii.eqb]. intros H. apply string_app_inj in H. injection H as H.
  apply show_inj in H; [by destruct H|done..].
Qed.

Lemma bank_issued_ok e it : bucket it = Miners → assert_bank_issued_miner_payout e it = Ok tt →
  ∃ k op, operators e !! k = Some op ∧ is_eligible (policy e) op = true ∧ payout_destination op = destination it.
Proof.
  intros Hb. unfold assert_bank_issued_miner_payout. rewrite bool_decide_true by done. cbn [negb]. cbv zeta.
  rewrite guard_ok, negb_false_iff, existsb_exists. intros [(op & Hin & H) _].
  apply andb_true_iff in H as [He Hd%String.eqb_eq]. apply list_elem_of_In, elem_of_bt_values in Hin as [k Hk].
  by exists k, op.
Qed.

Lemma payout_intents_spec e prefix h i l is_ : payout_intents e prefix h i l = Ok is_ →
  amount_sats <$> is_ = share_amount_sats <$> l
  ∧ (∀ j it, is_ !! j = Some it → ∃ sh, l !! j = Some sh ∧ intent_id it = payout_intent_id prefix (i + N.of_nat j) (share_node_id sh)
      ∧ bucket it = Miners ∧ policy_hash it = h ∧ signature it = None ∧ destination it = share_destination sh
      ∧ ∃ k op, operators e !! k = Some op ∧ is_eligible (policy e) op = true ∧ payout_destination op = destination it).
Proof.
  revert i is_. induction l as [|sh l IH]; intros i is_; simpl.
  { intros [= <-]. split; [done|]. intros j it Hj. by rewrite lookup_nil in Hj. }
  rewrite bind_ok. intros (it & Hit%settlement_intent_fields & H). rewrite bind_ok in H. destruct H as ([] & Hb & H).
  rewrite bind_ok in H. destruct H as (rest & Hr & [= <-]). destruct (IH _ _ Hr) as [Hm Hl].
  assert (bucket it = Miners) as Hbm by (by rewrite Hit). pose proof (bank_issued_ok _ _ Hbm Hb) as Hop.
  split; [rewrite !fmap_cons, Hm; by rewrite Hit|]. intros [|j] it' Hj; simpl in Hj.
  - injection Hj as <-. exists sh. rewrite N.add_0_r. rewrite Hit in *. done.
  - destruct (Hl j it' Hj) as (sh' & Hsh & Hid & Hrest). exists sh'. split; [done|]. split; [|done].
    rewrite Hid. f_equal. lia.
Qed.

Section proposals.
Context {SH : Sha256}.

(** A payout proposal of the use case: when it succeeds the pool loses exactly the amount, the
    intents' amounts sum to it, their ids are pairwise distinct, and each is an unsigned MINERS intent
    under the active constitution's hash that pays a registered, eligible operator's own destination;
    the ledger is untouched and the payout time is the clock's. When it fails nothing changes. *)
Theorem payout_proposal_spec cad now amount prefix n : amount ≤ u64_max →
  let '(n', r) := propose_miner_payouts cad now amount prefix n in
  match r with
  | Err _ => n' = n
  | Ok p =>
      led n' = led n ∧ miner_pool_sats (eco n') + amount = miner_pool_sats (eco n)
      ∧ last_miner_payout_at_secs (eco n') = Some now ∧ operators (eco n') = operators (eco n)
      ∧ length (intents p) = length (eligible_active (eco n))
      ∧ sumN amount_sats (intents p) = amount ∧ NoDup (intent_id <$> intents p)
      ∧ ∀ it, it ∈ intents p → bucket it = Miners ∧ policy_hash it = hash (constitution (led n)) ∧ signature it = None
          ∧ ∃ k op, operators (eco n) !! k = Some op ∧ is_eligible (policy (eco n)) op = true
              ∧ payout_destination op = destination it
  end.
Proof.
  intros Ha. pose proof (propose_cases cad now amount prefix n) as H.
  destruct (propose_miner_payouts cad now amount prefix n) as [n' [p|e]]; [|done].
  destruct H as (_ & (Hne & Hle & Hsh)%propose_ok & [Hm Hl]%payout_intents_spec & _ & Hled & He). rewrite He.
  cbn [set_last_payout set_rewards miner_pool_sats last_miner_payout_at_secs operators].
  split; [done|]. split; [lia|]. do 2 (split; [done|]). split; [|split; [|split]].
  - rewrite <- (length_fmap amount_sats), Hm, Hsh, !length_fmap. apply length_equal_split.
  - transitivity (sumN id (amount_sats <$> intents p)); [by rewrite sumN_fmap|].
    rewrite Hm, Hsh, !sumN_fmap. by apply (equal_split_sum amount (eligible_active (eco n))).
  - apply NoDup_alt. intros i j x. rewrite !list_lookup_fmap_Some. intros (it & -> & Hi) (it' & Hid & Hj).
    apply Hl in Hi as (sh & _ & Hid1 & _), Hj as (sh' & _ & Hid2 & _). rewrite Hid1, Hid2 in Hid.
    apply payout_intent_id_inj in Hid. lia.
  - intros it [j Hj]%list_elem_of_lookup. by destruct (Hl j it Hj) as (sh & _ & _ & ? & ? & ? & _ & ?).
Qed.
End proposals.

(* ------------------------------------------------------------------ *)
(** ** Concrete runs *)

#[local] Existing Instance toy_sha256.


Lemma payouts_spaced_witness : ∃ c l,
  v1_open 3 = Ok c ∧ ledger_genesis c lab_nodes (lab_node "a") = Ok l
  ∧ let n := {| eco := demo_economy; led := l |} in
    is_ok (propose_miner_payouts CadDaily 1000 7 "pay" n).2 = true
    ∧ 1000 + spacing CadDaily ≤ 90000.
Proof.
  eexists _, _. split; [vm_compute; reflexivity|]. split; [vm_compute; reflexivity|]. intros n.
  assert (is_ok (propose_miner_payouts CadDaily 1000 7 "pay" n).2 = true) as H by (vm_compute; reflexivity).
  split; [exact H|].
  refine (payouts_spaced CadDaily n 1000 7 "pay" [UPropose 2000 9 "x"] 90000 8 "pay2" (or_introl eq_refl) H _).
  vm_compute. reflexivity.
Defined.

Lemma payout_proposal_spec_witness : ∃ c l,
  v1_open 3 = Ok c ∧ ledger_genesis c lab_nodes (lab_node "a") = Ok l
  ∧ let n := {| eco := demo_economy; led := l |} in
    let '(n', r) := propose_miner_payouts CadDaily 1000 7 "pay" n in
    ∃ p, r = Ok p ∧ miner_pool_sats (eco n') = 993 ∧ sumN amount_sats (intents p) = 7.
Proof.
  eexists _, _. split; [vm_compute; reflexivity|]. split; [vm_compute; reflexivity|]. intros n.
  assert (is_ok (propose_miner_payouts CadDaily 1000 7 "pay" n).2 = true) as Hok by (vm_compute; reflexivity).
  assert (miner_pool_sats (eco (propose_miner_payouts CadDaily 1000 7 "pay" n).1) = 993) as Hp by (vm_compute; reflexivity).
  pose proof (payout_proposal_spec CadDaily 1000 7 "pay" n ltac:(vm_compute; discriminate)) as H.
  destruct (propose_miner_payouts CadDaily 1000 7 "pay" n) as [n' [p|e]]; [|discriminate].
  exists p. split; [reflexivity|]. split; [exact Hp|]. apply H.
Defined.
