(* ===== verification/Gate.v ===== *)
(** * The intent gate

    [application/intent_ops.rs]: reserve, execute, commit and release of
    settlement intents, over any implementation of the bucket-ledger port.
    [BucketPort] is the port as the gate uses it and [BucketPortSpec] what it
    promises; the in-memory and the durable ledger discharge the promises. *)
From S2P Require Import Prelude RustStr Errors Identity Bucket BucketLedger PersistedLedger Constitution Ledger Economy.
Local Open Scope N_scope.

(** The port's methods the gate calls. [Env] is what a call reads from outside: clock and disk. *)
Class BucketPort (Env St : Type) := {
  bp_reserve : Env → string → BucketKind → N → (BucketPolicy → N → res unit) → dcmd St unit;
  bp_authorize : Env → string → BucketKind → N → (BucketPolicy → N → res unit) → dcmd St unit;
  bp_commit : Env → string → dcmd St unit;
  bp_release : Env → string → BucketKind → N → dcmd St unit;
  bp_policy : St → BucketKind → option BucketPolicy;
  bp_burned : St → string → Prop;
  bp_held : Env → St → string → option (BucketKind * N);
}.

(** The promises: a hold or a claim is only made for an id that is not burned, after [validate]
    accepted the bucket's policy (or the same live hold is repeated); a successful claim or commit
    burns; nothing that succeeded is unburned. *)
Class BucketPortSpec (Env St : Type) `{!BucketPort Env St} : Prop := {
  bps_reserve env id k a v s s' : bp_reserve env id k a v s = (s', Ok tt) →
    ¬ bp_burned s id ∧ (bp_held env s id = Some (k, a) ∨ ∃ p spent, bp_policy s k = Some p ∧ v p spent = Ok tt);
  bps_authorize env id k a v s s' : bp_authorize env id k a v s = (s', Ok tt) →
    ¬ bp_burned s id ∧ bp_burned s' id ∧ ∃ p spent, bp_policy s k = Some p ∧ v p spent = Ok tt;
  bps_commit env id s s' : bp_commit env id s = (s', Ok tt) → bp_burned s' id;
  bps_keep_reserve env id k a v s i : bp_burned s i → bp_burned (bp_reserve env id k a v s).1 i;
  bps_keep_authorize env id k a v s i : bp_burned s i → bp_burned (bp_authorize env id k a v s).1 i;
  bps_keep_commit env id s i : bp_burned s i → bp_burned (bp_commit env id s).1 i;
  bps_keep_release env id k a s i : bp_burned s i → bp_burned (bp_release env id k a s).1 i;
  bps_policies_reserve env id k a v s : bp_policy (bp_reserve env id k a v s).1 = bp_policy s;
  bps_policies_authorize env id k a v s : bp_policy (bp_authorize env id k a v s).1 = bp_policy s;
  bps_policies_commit env id s : bp_policy (bp_commit env id s).1 = bp_policy s;
  bps_policies_release env id k a s : bp_policy (bp_release env id k a s).1 = bp_policy s;
}.

(* ------------------------------------------------------------------ *)
(** ** The use case *)

Record GateReceipt := { r_intent_id : string; r_bucket : BucketKind; r_amount_sats : N; r_status : string }.
Definition gate_receipt_json (r : GateReceipt) : string :=
  format (q "{{`intent_id`:`{}`,`bucket`:`{}`,`amount_sats`:{},`status`:`{}`}}")
    [r_intent_id r; bucket_str (r_bucket r); show (r_amount_sats r); r_status r].

Inductive Phase := PhaseReserve | PhaseConsume.

(** The gate's three ports. *)
Record GateNode (St : Type) := { buckets : St; node : EcoNode }.
Arguments buckets {St} _.
Arguments node {St} _.

Section gate.
Context `{!AddressLib} {Env St : Type} `{!BucketPort Env St}.

Definition on_buckets {A} : dcmd St A → dcmd (GateNode St) A :=
  zoom buckets (λ b g, {| buckets := b; node := node g |}).

(** The policy the gate evaluates: the stored one, with the eligible operators' destinations admitted
    when the intent is a miner payout of an open economy. *)
Definition admit_eligible (economy : option EconomyState) (p : BucketPolicy) : BucketPolicy :=
  match economy with
  | None => p
  | Some e =>
      {| kind := kind p; max_per_tx_sats := max_per_tx_sats p; max_per_day_sats := max_per_day_sats p;
         destination_allowlist :=
           foldl (λ d op, if is_eligible (policy e) op then {[payout_destination op]} ∪ d else d)
             (destination_allowlist p) (bt_values (operators e)) |}
  end.

Definition gate_run (env : Env) (intent : SettlementIntent) (phase : Phase) : dcmd (GateNode St) GateReceipt :=
  g ← get;
  let constitution := constitution (led (node g)) in
  let miners_open := (0 <? miners_bps (profit_splits constitution)) && bool_decide (bucket intent = Miners) in
  economy ← lift (if miners_open then
                    let snap := eco (node g) in
                    _ ← assert_bank_issued_miner_payout snap intent; Ok (Some snap)
                  else Ok None);
  let validate := λ policy spent, evaluate_intent intent (admit_eligible economy policy) spent (hash constitution) in
  match phase with
  | PhaseReserve =>
      _ ← on_buckets (bp_reserve env (intent_id intent) (bucket intent) (amount_sats intent) validate);
      mret {| r_intent_id := intent_id intent; r_bucket := bucket intent; r_amount_sats := amount_sats intent;
              r_status := "RESERVED" |}
  | PhaseConsume =>
      _ ← on_buckets (bp_authorize env (intent_id intent) (bucket intent) (amount_sats intent) validate);
      mret {| r_intent_id := intent_id intent; r_bucket := bucket intent; r_amount_sats := amount_sats intent;
              r_status := "ACCEPTED" |}
  end.

Definition gate_reserve (env : Env) (intent : SettlementIntent) := gate_run env intent PhaseReserve.
Definition gate_execute (env : Env) (intent : SettlementIntent) := gate_run env intent PhaseConsume.
Definition gate_commit (env : Env) (id : string) : dcmd (GateNode St) unit := on_buckets (bp_commit env id).
Definition gate_release (env : Env) (id : string) (kind : BucketKind) (amount : N) : dcmd (GateNode St) unit :=
  on_buckets (bp_release env id kind amount).
End gate.

Record ProfitAllocation := { pa_profit_sats : N; pa_miners : N; pa_channels : N; pa_infra : N; dry_run_miners : bool }.
Definition allocate_profit (profit : N) : dcmd LedgerState ProfitAllocation :=
  c ← ledger_constitution;
  let '(m, ch, i) := allocate (profit_splits c) profit in
  mret {| pa_profit_sats := profit; pa_miners := m; pa_channels := ch; pa_infra := i;
          dry_run_miners := miners_bps (profit_splits c) =? 0 |}.
Definition profit_allocation_json (a : ProfitAllocation) : string :=
  format (q "{{`profit_sats`:{},`miners_sats`:{},`channels_sats`:{},`infra_sats`:{},`dry_run_miners`:{}}}")
    [show (pa_profit_sats a); show (pa_miners a); show (pa_channels a); show (pa_infra a); show_bool (dry_run_miners a)].

(* ------------------------------------------------------------------ *)
(** ** What an admitted intent satisfies *)

Section gate_properties.
Context `{!AddressLib} {Env St : Type} `{!BucketPort Env St} {SP : BucketPortSpec Env St}.

(** An eligible registered operator is paid there. *)
Definition eligible_destination (e : EconomyState) (d : string) : Prop :=
  ∃ k op, operators e !! k = Some op ∧ is_eligible (policy e) op = true ∧ payout_destination op = d.

Definition miners_open (c : Constitution) (i : SettlementIntent) : bool :=
  (0 <? miners_bps (profit_splits c)) && bool_decide (bucket i = Miners).

(** The conditions of the gate, on the policy stored for the intent's bucket. *)
Definition intent_valid (c : Constitution) (e : EconomyState) (i : SettlementIntent) (p : BucketPolicy) (spent : N) : Prop :=
  kind p = bucket i ∧ policy_hash i = hash c ∧ 0 < amount_sats i ≤ max_per_tx_sats p
  ∧ spent + amount_sats i ≤ max_per_day_sats p
  ∧ if miners_open c i then eligible_destination e (destination i)
    else destination i ∈ destination_allowlist p ∨ (kind p = Channels ∧ is_Some (address_parse (destination i))).

Lemma validate_sound c e i p spent : max_per_day_sats p < u64_max →
  (miners_open c i = true → assert_bank_issued_miner_payout e i = Ok tt) →
  evaluate_intent i (admit_eligible (if miners_open c i then Some e else None) p) spent (hash c) = Ok tt →
  intent_valid c e i p spent.
Proof.
  intros Hday Hb He. apply evaluate_intent_ok in He; [|by destruct (miners_open c i)].
  assert (kind (admit_eligible (if miners_open c i then Some e else None) p) = kind p
    ∧ max_per_tx_sats (admit_eligible (if miners_open c i then Some e else None) p) = max_per_tx_sats p
    ∧ max_per_day_sats (admit_eligible (if miners_open c i then Some e else None) p) = max_per_day_sats p)
    as (Hk & Htx & Hd) by (by destruct (miners_open c i)).
  rewrite Hk, Htx, Hd in He. unfold intent_valid.
  destruct He as (H1 & H2 & H3 & H4 & H5 & H6). do 4 (split; [done|]).
  unfold destination_ok in H6. rewrite Hk in H6.
  destruct (miners_open c i) eqn:Ho; [|done].
  apply (bank_issued_ok e i); [|by apply Hb]. unfold miners_open in Ho. by apply andb_true_iff in Ho as [_ ->%bool_decide_eq_true].
Qed.

(** A run that succeeded made its port call, on the policy the gate evaluates. *)
Lemma gate_run_admits env i phase g g' r :
  (∀ k p, bp_policy (buckets g) k = Some p → max_per_day_sats p < u64_max) →
  gate_run env i phase g = (g', Ok r) →
  r_intent_id r = intent_id i ∧ r_bucket r = bucket i ∧ r_amount_sats r = amount_sats i
  ∧ node g' = node g ∧ ¬ bp_burned (buckets g) (intent_id i)
  ∧ (phase = PhaseConsume → bp_burned (buckets g') (intent_id i))
  ∧ (phase = PhaseReserve ∧ bp_held env (buckets g) (intent_id i) = Some (bucket i, amount_sats i)
     ∨ ∃ p spent, bp_policy (buckets g) (bucket i) = Some p
         ∧ intent_valid (constitution (led (node g))) (eco (node g)) i p spent).
Proof.
  intros Hday. unfold gate_run, on_buckets. cbv [mret mbind cmd_ret cmd_bind get lift zoom]. cbv zeta.
  change ((0 <? miners_bps (profit_splits (constitution (led (node g))))) && bool_decide (bucket i = Miners))
    with (miners_open (constitution (led (node g))) i).
  set (c := constitution (led (node g))). set (e := eco (node g)).
  assert (∀ eco', (if miners_open c i then assert_bank_issued_miner_payout e i ≫= λ _, Ok (Some e) else Ok None) = Ok eco' →
    eco' = (if miners_open c i then Some e else None)
    ∧ (miners_open c i = true → assert_bank_issued_miner_payout e i = Ok tt)) as Heco.
  { intros eco'. destruct (miners_open c i); [|by intros [= <-]].
    rewrite bind_ok. intros ([] & Hb & [= <-]). done. }
  unfold mbind in Heco.
  destruct (if miners_open c i then _ else _) as [eco'|er] eqn:Hm; [|done].
  destruct (Heco _ eq_refl) as [-> Hb]. clear Hm Heco.
  destruct phase.
  - match goal with |- context [bp_reserve env ?a ?b ?cc ?v ?s] => destruct (bp_reserve env a b cc v s) as [s' [[]|er]] eqn:Hr end;
      [|done]. intros [= <- <-]. apply bps_reserve in Hr as (Hnb & Hv). simpl. do 4 (split; [done|]). split; [done|].
    split; [done|]. destruct Hv as [Hh|(p & spent & Hp & Hv)]; [by left|]. right. exists p, spent. split; [done|].
    apply validate_sound; [by eapply Hday|done|done].
  - match goal with |- context [bp_authorize env ?a ?b ?cc ?v ?s] => destruct (bp_authorize env a b cc v s) as [s' [[]|er]] eqn:Hr end;
      [|done]. intros [= <- <-]. apply bps_authorize in Hr as (Hnb & Hbu & p & spent & Hp & Hv). simpl.
    do 4 (split; [done|]). split; [done|]. split; [done|]. right. exists p, spent. split; [done|].
    apply validate_sound; [by eapply Hday|done|done].
Qed.
End gate_properties.

(* ------------------------------------------------------------------ *)
(** ** Sequences of gate calls *)

Section runs.
Context `{!AddressLib} {Env St : Type} `{!BucketPort Env St} {SP : BucketPortSpec Env St}.

(** Calls in any order; the economy and the governance ledger may move in between. *)
Inductive gcall :=
| GReserve (env : Env) (i : SettlementIntent)
| GExecute (env : Env) (i : SettlementIntent)
| GCommit (env : Env) (id : string)
| GRelease (env : Env) (id : string) (kind : BucketKind) (amount : N)
| GNode (n : EcoNode).

Definition grun (c : gcall) (g : GateNode St) : GateNode St :=
  match c with
  | GReserve env i => (gate_reserve env i g).1
  | GExecute env i => (gate_execute env i g).1
  | GCommit env id => (gate_commit env id g).1
  | GRelease env id k a => (gate_release env id k a g).1
  | GNode n => {| buckets := buckets g; node := n |}
  end.

(** The call executes or commits [id]; the call admits [id]. *)
Definition settles (id : string) (c : gcall) (g : GateNode St) : bool :=
  match c with
  | GExecute env i => String.eqb (intent_id i) id && is_ok (gate_execute env i g).2
  | GCommit env id' => String.eqb id' id && is_ok (gate_commit env id' g).2
  | _ => false
  end.
Definition admits (id : string) (c : gcall) (g : GateNode St) : bool :=
  match c with
  | GReserve env i => String.eqb (intent_id i) id && is_ok (gate_reserve env i g).2
  | GExecute env i => String.eqb (intent_id i) id && is_ok (gate_execute env i g).2
  | _ => false
  end.
Fixpoint count_admits (id : string) (l : list gcall) (g : GateNode St) : nat :=
  match l with
  | [] => 0
  | c :: r => (if admits id c g then 1 else 0) + count_admits id r (grun c g)
  end.

(** A gate run is its port call. *)
Lemma gate_run_buckets env i phase g : ∃ v,
  buckets (gate_run env i phase g).1 =
    match phase with
    | PhaseReserve => (bp_reserve env (intent_id i) (bucket i) (amount_sats i) v (buckets g)).1
    | PhaseConsume => (bp_authorize env (intent_id i) (bucket i) (amount_sats i) v (buckets g)).1
    end ∧ (is_ok (gate_run env i phase g).2 = true →
    match phase with
    | PhaseReserve => (bp_reserve env (intent_id i) (bucket i) (amount_sats i) v (buckets g)).2
    | PhaseConsume => (bp_authorize env (intent_id i) (bucket i) (amount_sats i) v (buckets g)).2
    end = Ok tt)
  ∨ buckets (gate_run env i phase g).1 = buckets g ∧ is_ok (gate_run env i phase g).2 = false.
Proof.
  unfold gate_run, on_buckets. cbv [mret mbind cmd_ret cmd_bind get lift zoom]. cbv zeta.
  destruct (if _ && _ then _ else _) as [eco'|er].
  2: { exists (λ _ _, Ok tt). right. done. }
  exists (λ policy spent, evaluate_intent i (admit_eligible eco' policy) spent (hash (constitution (led (node g))))).
  left. destruct phase.
  - match goal with |- context [bp_reserve env ?a ?b ?cc ?v ?s] => destruct (bp_reserve env a b cc v s) as [s' [[]|er]] end; done.
  - match goal with |- context [bp_authorize env ?a ?b ?cc ?v ?s] => destruct (bp_authorize env a b cc v s) as [s' [[]|er]] end; done.
Qed.

Lemma on_buckets_fst {A} (m : dcmd St A) (g : GateNode St) : buckets (on_buckets m g).1 = (m (buckets g)).1
  ∧ (on_buckets m g).2 = (m (buckets g)).2.
Proof. unfold on_buckets, zoom. by destruct (m (buckets g)). Qed.

Lemma grun_keeps c g id : bp_burned (buckets g) id → bp_burned (buckets (grun c g)) id.
Proof.
  intros Hb. destruct c as [env i|env i|env id'|env id' k a|n]; simpl.
  - destruct (gate_run_buckets env i PhaseReserve g) as (v & [[He _]|[He _]]); unfold gate_reserve; rewrite He;
      [by apply bps_keep_reserve|done].
  - destruct (gate_run_buckets env i PhaseConsume g) as (v & [[He _]|[He _]]); unfold gate_execute; rewrite He;
      [by apply bps_keep_authorize|done].
  - unfold gate_commit. rewrite (proj1 (on_buckets_fst _ _)). by apply bps_keep_commit.
  - unfold gate_release. rewrite (proj1 (on_buckets_fst _ _)). by apply bps_keep_release.
  - done.
Qed.

Lemma settles_burns id c g : settles id c g = true → bp_burned (buckets (grun c g)) id.
Proof.
  destruct c as [env i|env i|env id'|env id' k a|n]; simpl; [done| | |done..].
  - intros [<-%String.eqb_eq Hok]%andb_true_iff.
    destruct (gate_run_buckets env i PhaseConsume g) as (v & [[He Hr]|[_ Hr]]);
      [|unfold gate_execute in Hok; congruence]. unfold gate_execute in *. rewrite He. specialize (Hr Hok).
    destruct (bp_authorize _ _ _ _ _ _) as [s' r] eqn:Ha. simpl in *. subst r.
    by apply bps_authorize in Ha as (_ & ? & _).
  - intros [<-%String.eqb_eq Hok]%andb_true_iff. unfold gate_commit in *.
    destruct (on_buckets_fst (bp_commit env id') g) as [-> Hr]. rewrite Hr in Hok.
    destruct (bp_commit env id' (buckets g)) as [s' [[]|e]] eqn:Hc; [|done]. by eapply bps_commit.
Qed.

Lemma admits_unburned id c g : admits id c g = true → ¬ bp_burned (buckets g) id.
Proof.
  destruct c as [env i|env i|env id'|env id' k a|n]; simpl; [| |done..]; intros [<-%String.eqb_eq Hok]%andb_true_iff.
  - destruct (gate_run_buckets env i PhaseReserve g) as (v & [[He Hr]|[_ Hr]]);
      [|unfold gate_reserve in Hok; congruence]. unfold gate_reserve in *. specialize (Hr Hok).
    destruct (bp_reserve _ _ _ _ _ _) as [s' r] eqn:Ha. simpl in *. subst r. by apply bps_reserve in Ha as (? & _).
  - destruct (gate_run_buckets env i PhaseConsume g) as (v & [[He Hr]|[_ Hr]]);
      [|unfold gate_execute in Hok; congruence]. unfold gate_execute in *. specialize (Hr Hok).
    destruct (bp_authorize _ _ _ _ _ _) as [s' r] eqn:Ha. simpl in *. subst r. by apply bps_authorize in Ha as (? & _).
Qed.

(** C26 Settlement is final: once an execute or a commit of an intent id succeeded, no later call, in
    any sequence of gate calls and whatever the economy and the governance ledger become in between,
    reserves or executes that id again. *)
Theorem gate_settlement_final id c l g :
  settles id c g = true → count_admits id l (grun c g) = 0%nat.
Proof.
  intros Hs. apply settles_burns in Hs. generalize dependent (grun c g). clear c g.
  induction l as [|c l IH]; intros g Hb; [done|]. simpl.
  destruct (admits id c g) eqn:Ha; [by apply admits_unburned in Ha|]. apply IH. by apply grun_keeps.
Qed.
End runs.

(* ------------------------------------------------------------------ *)
(** ** The port's implementations *)

Definition live_hold (now : N) (s : BucketState) (id : string) : option (BucketKind * N) :=
  match reserved (sweep_expired now s) !! id with Some (k, a, _) => Some (k, a) | None => None end.

(** In memory; the environment is the two clock readings of a call. *)
#[export] Instance mem_port : BucketPort (N * N) BucketState := {|
  bp_reserve env := mem_reserve_spend env.1 env.2;
  bp_authorize env := mem_authorize_spend_and_consume env.1;
  bp_commit env := mem_commit_consume env.1;
  bp_release _ := mem_release_reservation;
  bp_policy s k := policies s !! k;
  bp_burned s id := id ∈ consumed s;
  bp_held env := live_hold env.1;
|}.

Lemma reserve_spend_cases now now' id k a v s :
  let '(s', r) := mem_reserve_spend now now' id k a v s in
  policies s' = policies s ∧ consumed s' = consumed s
  ∧ (r = Ok tt → id ∉ consumed s ∧ (live_hold now s id = Some (k, a)
       ∨ ∃ p spent, policies s !! k = Some p ∧ v p spent = Ok tt)).
Proof.
  unfold mem_reserve_spend, live_hold. cbv [mret mbind cmd_ret cmd_bind get update fail].
  pose proof (sweep_frame now s) as [Hp Hc].
  case_bool_decide as Hin; [done|]. rewrite Hc in Hin.
  destruct (reserved (sweep_expired now s) !! id) as [[[k' a'] ex]|] eqn:Hr.
  { destruct (bool_decide (k' = k) && (a' =? a)) eqn:Hm; [|done].
    apply andb_true_iff in Hm as [->%bool_decide_eq_true ->%N.eqb_eq]. do 2 (split; [done|]). intros _. split; [done|]. by left. }
  pose proof (check_and_hold_cases k a v (sweep_expired now s)) as H.
  destruct (check_and_hold k a v _) as [s' [[]|e]]; [|subst s'; done].
  destruct H as (p & Hpk & Hv & ->). rewrite Hp in Hpk. simpl. do 2 (split; [done|]). intros _. split; [done|]. right. eauto.
Qed.

Lemma release_frame id k a s :
  policies (mem_release_reservation id k a s).1 = policies s ∧ consumed (mem_release_reservation id k a s).1 = consumed s.
Proof. unfold mem_release_reservation. unfold_monad. by destruct (reserved s !! id) as [[[k' a'] e]|]. Qed.

Lemma exec_policies o s : policies (exec_op o s).1 = policies s.
Proof.
  pose proof (exec_post o s) as Hpost. cbv zeta in Hpost.
  set (s1 := match o with OpRelease _ _ _ => s | _ => _ end) in Hpost.
  assert (policies s1 = policies s) as Hc by (destruct o; try apply sweep_frame; done).
  clearbody s1. rewrite <- Hc. destruct Hpost as [->|Hpost]; [done|].
  destruct o as [now now' id k a v|now id|id k a|now id k a v|now id|now id]; [..|done];
    try (by destruct Hpost as (_ & _ & _ & ->)); try (by destruct Hpost as (_ & ->)).
  rewrite Hc. by destruct (reserved s !! id) as [[[k' a'] e]|]; rewrite Hpost.
Qed.

#[export] Instance mem_port_spec : BucketPortSpec (N * N) BucketState.
Proof.
  split; simpl.
  - intros [now now'] id k a v s s' H. pose proof (reserve_spend_cases now now' id k a v s) as Hc. simpl in H.
    rewrite H in Hc. by apply Hc.
  - intros [now now'] id k a v s s'. unfold mem_authorize_spend_and_consume. cbv [mret mbind cmd_ret cmd_bind get update fail].
    simpl. pose proof (sweep_frame now s) as [Hp Hc]. destruct (bool_decide (id ∈ _)) eqn:Hin; [done|]. simpl.
    apply bool_decide_eq_false in Hin. rewrite Hc in Hin. destruct (bool_decide (is_Some _)); [done|].
    pose proof (check_and_hold_cases k a v (sweep_expired now s)) as H.
    destruct (check_and_hold k a v _) as [s1 [[]|e]]; [|done]. destruct H as (p & Hpk & Hv & ->). rewrite Hp in Hpk.
    intros [= <-]. simpl. split; [done|]. split; [set_solver|]. eauto.
  - intros [now now'] id s s'. unfold mem_commit_consume. cbv [mret mbind cmd_ret cmd_bind get update fail]. simpl.
    case_bool_decide as Hin; [by intros [= <-]|]. destruct (negb _); [done|]. intros [= <-]. simpl. set_solver.
  - intros env id k a v s i Hi. by apply (exec_consumed_mono (OpReserve env.1 env.2 id k a v) s).
  - intros env id k a v s i Hi. by apply (exec_consumed_mono (OpAuthorize env.1 id k a v) s).
  - intros env id s i Hi. by apply (exec_consumed_mono (OpCommit env.1 id) s).
  - intros env id k a s i Hi. by apply (exec_consumed_mono (OpRelease id k a) s).
  - intros env id k a v s. pose proof (reserve_spend_cases env.1 env.2 id k a v s) as H.
    destruct (mem_reserve_spend _ _ _ _ _ _ s) as [s' r]. destruct H as [Hp _]. simpl. by rewrite Hp.
  - intros env id k a v s. pose proof (exec_policies (OpAuthorize env.1 id k a v) s) as H. simpl in H. by rewrite H.
  - intros env id s. pose proof (exec_policies (OpCommit env.1 id) s) as H. simpl in H. by rewrite H.
  - intros env id k a s. pose proof (exec_policies (OpRelease id k a) s) as H. simpl in H. by rewrite H.
Qed.

(** Durable; the environment adds the outcome of the append. *)
#[export] Instance persisted_port : BucketPort (N * N * Io) PState := {|
  bp_reserve env := persisted_reserve_spend env.1.1 env.1.2;
  bp_authorize env := persisted_authorize env.2;
  bp_commit env := persisted_commit_consume env.1.1 env.2;
  bp_release _ := persisted_release_reservation;
  bp_policy p k := policies (mem p) !! k;
  bp_burned p id := id ∈ consumed (mem p);
  bp_held env p := live_hold env.1.1 (mem p);
|}.

Lemma authorize_cases io id k a v p :
  let '(p', r) := persisted_authorize io id k a v p in
  policies (mem p') = policies (mem p) ∧ consumed (mem p) ⊆ consumed (mem p')
  ∧ (r = Ok tt → id ∉ consumed (mem p) ∧ id ∈ consumed (mem p')
       ∧ ∃ pol spent, policies (mem p) !! k = Some pol ∧ v pol spent = Ok tt).
Proof.
  unfold persisted_authorize, append_or_rollback, locked, zoom. cbv [mret mbind cmd_ret cmd_bind].
  destruct (authorize_hold id k a v (mem p)) as [m r] eqn:Ha.
  unfold authorize_hold in Ha. cbv [mret mbind cmd_ret cmd_bind get update fail] in Ha.
  case_bool_decide as Hin; [by injection Ha as <- <-|].
  pose proof (check_and_hold_cases k a v (mem p)) as H.
  destruct (check_and_hold k a v (mem p)) as [s1 [[]|e]]; [|injection Ha as <- <-; subst s1; done].
  destruct H as (pol & Hpol & Hv & ->). injection Ha as <- <-.
  pose proof (append_consumed_mem io id (set_mem (λ _, set_consumed ({[id]} ∪.) (set_spent (add_spent k a) (mem p))) p)) as Hm.
  destruct (append_consumed io id _) as [p1 [[]|e]]; simpl in Hm; simpl; rewrite Hm; simpl.
  - split; [done|]. split; [set_solver|]. intros _. split; [done|]. split; [set_solver|]. eauto.
  - split; [done|]. split; [set_solver|]. done.
Qed.

Lemma commit_cases now io id p :
  let '(p', r) := persisted_commit_consume now io id p in
  policies (mem p') = policies (mem p) ∧ consumed (mem p) ⊆ consumed (mem p') ∧ (r = Ok tt → id ∈ consumed (mem p')).
Proof.
  unfold persisted_commit_consume, locked, zoom. cbv [mret mbind cmd_ret cmd_bind].
  destruct (commit_check now id (mem p)) as [m r] eqn:Hc.
  assert (m = sweep_expired now (mem p)) as ->.
  { unfold commit_check in Hc. cbv [mret mbind cmd_ret cmd_bind get update fail] in Hc.
    case_bool_decide; [by injection Hc as <- <-|]. destruct (negb _); by injection Hc as <- <-. }
  pose proof (Threads.commit_check_frame _ _ _ _ _ Hc) as Hcons. pose proof (sweep_frame now (mem p)) as [Hp _].
  destruct r as [retry|e]; [|simpl; rewrite Hp, Hcons; done].
  destruct retry.
  { simpl. rewrite Hp, Hcons. split; [done|]. split; [done|]. intros _.
    unfold commit_check in Hc. cbv [mret mbind cmd_ret cmd_bind get update fail] in Hc.
    case_bool_decide as Hin; [by rewrite <- Hcons|]. destruct (negb _); discriminate. }
  unfold persisted_try_consume, seen, insert_burned. cbv [mret mbind cmd_ret cmd_bind get update fail]. simpl.
  case_bool_decide as Hin; [simpl; rewrite Hp, Hcons; done|].
  match goal with |- context [append_consumed io id ?q] => pose proof (append_consumed_mem io id q) as Hm;
    destruct (append_consumed io id q) as [p1 [[]|e]] end; simpl in Hm.
  - rewrite Hm. rewrite bool_decide_false by done. simpl. rewrite Hm. simpl. rewrite Hp, Hcons. set_solver.
  - simpl. rewrite Hm, Hp, Hcons. done.
Qed.

#[export] Instance persisted_port_spec : BucketPortSpec (N * N * Io) PState.
Proof.
  split; simpl.
  - intros [[now now'] io] id k a v p p'. unfold persisted_reserve_spend. rewrite locked_eq. intros [= <- Hr].
    pose proof (reserve_spend_cases now now' id k a v (mem p)) as Hc. simpl in *.
    destruct (mem_reserve_spend now now' id k a v (mem p)) as [s r]. simpl in Hr. subst r. by apply Hc.
  - intros [[now now'] io] id k a v p p' H. pose proof (authorize_cases io id k a v p) as Hc. simpl in H. rewrite H in Hc.
    by apply Hc.
  - intros [[now now'] io] id p p' H. pose proof (commit_cases now io id p) as Hc. simpl in H. rewrite H in Hc. by apply Hc.
  - intros [[now now'] io] id k a v p i Hi. unfold persisted_reserve_spend. rewrite locked_eq. simpl.
    by apply (exec_consumed_mono (OpReserve now now' id k a v) (mem p)).
  - intros [[now now'] io] id k a v p i Hi. pose proof (authorize_cases io id k a v p) as Hc. simpl.
    destruct (persisted_authorize _ _ _ _ _ _). simpl. by apply Hc.
  - intros [[now now'] io] id p i Hi. pose proof (commit_cases now io id p) as Hc. simpl.
    destruct (persisted_commit_consume _ _ _ _). simpl. by apply Hc.
  - intros env id k a p i Hi. unfold persisted_release_reservation. rewrite locked_eq. simpl.
    by apply (exec_consumed_mono (OpRelease id k a) (mem p)).
  - intros [[now now'] io] id k a v p. unfold persisted_reserve_spend. rewrite locked_eq. simpl.
    pose proof (reserve_spend_cases now now' id k a v (mem p)) as H.
    destruct (mem_reserve_spend _ _ _ _ _ _ _) as [s' r]. destruct H as [Hp _]. simpl. by rewrite Hp.
  - intros [[now now'] io] id k a v p. pose proof (authorize_cases io id k a v p) as Hc. simpl.
    destruct (persisted_authorize _ _ _ _ _ _). simpl. by destruct Hc as [-> _].
  - intros [[now now'] io] id p. pose proof (commit_cases now io id p) as Hc. simpl.
    destruct (persisted_commit_consume _ _ _ _). simpl. by destruct Hc as [-> _].
  - intros env id k a p. unfold persisted_release_reservation. rewrite locked_eq. simpl.
    pose proof (exec_policies (OpRelease id k a) (mem p)) as H. simpl in H. by rewrite H.
Qed.

(* ------------------------------------------------------------------ *)
(** ** Concrete runs *)

#[local] Existing Instance toy_sha256.
#[local] Existing Instance toy_addresses.

Definition demo_intent (policy_hash id dest : string) (b : BucketKind) (amount : N) : SettlementIntent := {|
  intent_id := id; bucket := b; destination := dest; amount_sats := amount; policy_hash := policy_hash; signature := None |}.


Lemma gate_settlement_final_witness : ∃ c l, v1_open 3 = Ok c ∧ ledger_genesis c lab_nodes (lab_node "a") = Ok l ∧
  let g := {| buckets := from_constitution_caps 1000 5000; node := {| eco := demo_economy; led := l |} |} in
  let i := demo_intent (hash c) "pay-1" "tb1qa" Miners 100 in
  settles "pay-1" (GExecute (10, 10) i) g = true
  ∧ count_admits "pay-1" [GReserve (11, 11) i; GExecute (12, 12) i] (grun (GExecute (10, 10) i) g) = 0%nat.
Proof.
  eexists _, _. split; [vm_compute; reflexivity|]. split; [vm_compute; reflexivity|]. intros g i.
  assert (settles "pay-1" (GExecute (10, 10) i) g = true) as Hs by (vm_compute; reflexivity).
  split; [exact Hs|]. exact (gate_settlement_final "pay-1" _ _ g Hs).
Defined.
