(* ===== verification/Release.v ===== *)
(** * Releases

    [domain/release.rs], the in-memory store of [adapters/release_memory.rs] and
    the use cases of [application/release_ops.rs]: content-addressed candidates,
    rebuild attestations, cosigns, and the allowlist. *)
From S2P Require Import Prelude RustStr Errors Identity Constitution Ledger Economy.
Local Open Scope N_scope.

Inductive ReleasePhase := RelProposed | RelCosigning | RelAllowlisted | RelRejected.
#[export] Instance ReleasePhase_eq_dec : EqDecision ReleasePhase.
Proof. solve_decision. Defined.
Definition phase_str (p : ReleasePhase) : string :=
  match p with
  | RelProposed => "proposed" | RelCosigning => "cosigning" | RelAllowlisted => "allowlisted" | RelRejected => "rejected"
  end.

Record ReleasePolicy := {
  council_n : N; min_rebuilds : N; vault_n : N; timelock_secs : N; lab_timelock_scale : N;
}.
Definition release_lab_default (vault_n : N) : ReleasePolicy :=
  {| council_n := 3; min_rebuilds := 3; vault_n := vault_n; timelock_secs := 1209600; lab_timelock_scale := 0 |}.
Definition effective_timelock_secs (p : ReleasePolicy) : N := sat_mul64 (timelock_secs p) (lab_timelock_scale p).
Definition council_quorum (p : ReleasePolicy) : N := quorum_two_thirds (council_n p).
Definition vault_cosign_quorum (p : ReleasePolicy) : N := vault_n p / 2 + 1.

Record ReleaseCandidate := {
  rel_id : string;
  hs : ContentHash;
  hb : ContentHash;
  rel_constitution_hash : string;
  council_sigs : gset string;
  rebuilds : gmap string ContentHash;
  cosigns : gset string;
  created_at_secs : N;
  phase : ReleasePhase;
  reject_reason : option string;
}.
Definition set_progress (r : gmap string ContentHash) (co : gset string) (p : ReleasePhase) (c : ReleaseCandidate) :
    ReleaseCandidate := {|
  rel_id := rel_id c; hs := hs c; hb := hb c; rel_constitution_hash := rel_constitution_hash c;
  council_sigs := council_sigs c; rebuilds := r; cosigns := co; created_at_secs := created_at_secs c; phase := p;
  reject_reason := reject_reason c |}.

Definition release_candidate_new (id : string) (hs hb : ContentHash) (chash : string) (sigs : gset string) (now : N) :
    res ReleaseCandidate :=
  if str_len (trim id) =? 0 then Err (InvalidRelease "empty release id")
  else if bool_decide (sigs = ∅) then Err (InvalidRelease "no council signatures")
  else Ok {| rel_id := id; hs := hs; hb := hb; rel_constitution_hash := chash; council_sigs := sigs; rebuilds := ∅;
             cosigns := ∅; created_at_secs := now; phase := RelProposed; reject_reason := None |}.

Definition release_closed (p : ReleasePhase) : bool := match p with RelAllowlisted | RelRejected => true | _ => false end.

Definition record_rebuild (vault_id : NodeId) (rebuilt_hb : ContentHash) (c : ReleaseCandidate) : res ReleaseCandidate :=
  if release_closed (phase c) then Err (ReleaseClosed (rel_id c))
  else if negb (bool_decide (rebuilt_hb = hb c))
  then Err (RebuildMismatch (ch_str (hb c)) (ch_str rebuilt_hb))
  else Ok (set_progress (<[node_str vault_id := rebuilt_hb]> (rebuilds c)) (cosigns c) (phase c) c).

(** [BTreeSet::len], [BTreeMap::len]. *)
Definition set_len (s : gset string) : N := N.of_nat (size s).
Definition map_len {A} (m : gmap string A) : N := N.of_nat (size m).

Definition predicates_ok (policy : ReleasePolicy) (now_secs : N) (active_constitution_hash : string)
    (c : ReleaseCandidate) : res unit :=
  if negb (String.eqb (rel_constitution_hash c) active_constitution_hash)
  then Err (ReleasePredicate "constitution_hash mismatch")
  else if set_len (council_sigs c) <? council_quorum policy
  then Err (QuorumNotMet (set_len (council_sigs c)) (council_quorum policy))
  else if map_len (rebuilds c) <? min_rebuilds policy
  then Err (QuorumNotMet (map_len (rebuilds c)) (min_rebuilds policy))
  else
    let age := sat_sub now_secs (created_at_secs c) in
    let need_age := effective_timelock_secs policy in
    if age <? need_age then Err (TimelockNotElapsed age need_age) else Ok tt.

Definition add_cosign (vault_id : NodeId) (c : ReleaseCandidate) : res ReleaseCandidate :=
  if release_closed (phase c) then Err (ReleaseClosed (rel_id c))
  else Ok (set_progress (rebuilds c) ({[node_str vault_id]} ∪ cosigns c) RelCosigning c).

Definition release_candidate_json (c : ReleaseCandidate) : string :=
  format (q "{{`id`:`{}`,`hs`:`{}`,`hb`:`{}`,`constitution_hash`:`{}`,`council_sigs`:[{}],`rebuilds`:[{}],`cosigns`:[{}],`created_at_secs`:{},`phase`:`{}`,`reject_reason`:{}}}")
    [rel_id c; ch_str (hs c); ch_str (hb c); rel_constitution_hash c;
     join "," (map quoted (bs_iter (council_sigs c)));
     join "," (map (λ kv, format (q "{{`vault`:`{}`,`hb`:`{}`}}") [kv.1; ch_str kv.2]) (bt_iter (rebuilds c)));
     join "," (map quoted (bs_iter (cosigns c))); show (created_at_secs c); phase_str (phase c);
     match reject_reason c with Some r => quoted r | None => "null" end].

Record AllowlistEntry := {
  al_release_id : string; al_hs : ContentHash; al_hb : ContentHash; activated_at_secs : N; al_constitution_hash : string;
}.
Definition admits_measurement (e : AllowlistEntry) (m : Measurement) : bool :=
  String.eqb (ch_str (al_hb e)) (as_hex m).
Definition allowlist_entry_json (e : AllowlistEntry) : string :=
  format (q "{{`release_id`:`{}`,`hs`:`{}`,`hb`:`{}`,`activated_at_secs`:{},`constitution_hash`:`{}`}}")
    [al_release_id e; ch_str (al_hs e); ch_str (al_hb e); show (activated_at_secs e);
     al_constitution_hash e].

(* ------------------------------------------------------------------ *)
(** ** The store *)

Record ReleaseMesh := {
  rel_policy : ReleasePolicy;
  blobs : gmap string bytes;
  candidates : gmap string ReleaseCandidate;
  allowlist : list AllowlistEntry;
}.
Definition release_mesh_new (p : ReleasePolicy) : ReleaseMesh :=
  {| rel_policy := p; blobs := ∅; candidates := ∅; allowlist := [] |}.
Definition set_blobs f (s : ReleaseMesh) : ReleaseMesh :=
  {| rel_policy := rel_policy s; blobs := f (blobs s); candidates := candidates s; allowlist := allowlist s |}.
Definition set_candidates f (s : ReleaseMesh) : ReleaseMesh :=
  {| rel_policy := rel_policy s; blobs := blobs s; candidates := f (candidates s); allowlist := allowlist s |}.
Definition set_allowlist f (s : ReleaseMesh) : ReleaseMesh :=
  {| rel_policy := rel_policy s; blobs := blobs s; candidates := candidates s; allowlist := f (allowlist s) |}.

Definition blob_put (h : ContentHash) (b : bytes) : dcmd ReleaseMesh unit :=
  update (set_blobs (<[ch_str h := b]>)).
Definition blob_get (h : ContentHash) : dcmd ReleaseMesh bytes :=
  s ← get; lift (ok_or (blobs s !! ch_str h) (UnknownBlob (ch_str h))).
Definition put_candidate (c : ReleaseCandidate) : dcmd ReleaseMesh unit :=
  s ← get;
  if bool_decide (is_Some (candidates s !! rel_id c))
  then fail (InvalidRelease (format "release already exists: {}" [rel_id c]))
  else update (set_candidates (<[rel_id c := c]>)).
Definition get_candidate (id : string) : dcmd ReleaseMesh ReleaseCandidate :=
  s ← get; lift (ok_or (candidates s !! id) (UnknownRelease id)).
Definition save_candidate (c : ReleaseCandidate) : dcmd ReleaseMesh unit :=
  s ← get;
  if negb (bool_decide (is_Some (candidates s !! rel_id c))) then fail (UnknownRelease (rel_id c))
  else update (set_candidates (<[rel_id c := c]>)).
Definition put_allowlist (e : AllowlistEntry) : dcmd ReleaseMesh unit :=
  update (set_allowlist (λ l, filter (λ x, al_release_id x ≠ al_release_id e) l ++ [e])).
Definition get_allowlist : dcmd ReleaseMesh (list AllowlistEntry) := s ← get; mret (allowlist s).
Definition is_allowlisted_hb (h : ContentHash) : dcmd ReleaseMesh bool :=
  s ← get; mret (existsb (λ e, bool_decide (al_hb e = h)) (allowlist s)).

(* ------------------------------------------------------------------ *)
(** ** Use cases *)

Record RelNode := { mesh : ReleaseMesh; enode : EcoNode }.
Definition on_mesh {A} : dcmd ReleaseMesh A → dcmd RelNode A := zoom mesh (λ m n, {| mesh := m; enode := enode n |}).
Definition on_enode {A} : dcmd EcoNode A → dcmd RelNode A := zoom enode (λ e n, {| mesh := mesh n; enode := e |}).

Section use_cases.
Context `{!Sha256}.

Definition rel_constitution : dcmd RelNode Constitution := on_enode (on_led ledger_constitution).

(** The common end of both proposals, from [self.ledger.constitution()?] on. *)
Definition propose_candidate (now : N) (release_id : string) (hs hb : ContentHash) (sigs : gset string) :
    dcmd RelNode ReleaseCandidate :=
  constitution ← rel_constitution;
  m ← on_mesh get;
  let need := council_quorum (rel_policy m) in
  if set_len sigs <? need then fail (QuorumNotMet (set_len sigs) need)
  else
    candidate ← lift (release_candidate_new release_id hs hb (hash constitution) sigs now);
    _ ← on_mesh (put_candidate candidate);
    mret candidate.

Definition propose_release (now : N) (release_id : string) (source : bytes) (sigs : gset string) :
    dcmd RelNode ReleaseCandidate :=
  let hs := content_hash_from_bytes source in
  let hb := lab_rebuild_binary_hash source in
  _ ← on_mesh (blob_put hs source);
  _ ← on_mesh (blob_put hb (bytes_of (format "lab-bin|{}" [ch_str hs])));
  propose_candidate now release_id hs hb sigs.

Definition propose_with_hashes (now : N) (release_id : string) (hs hb : ContentHash) (sigs : gset string) :
    dcmd RelNode ReleaseCandidate :=
  _ ← on_mesh (blob_get hs);
  propose_candidate now release_id hs hb sigs.

Definition rebuild_release (release_id : string) (vault_id : NodeId) : dcmd RelNode ReleaseCandidate :=
  candidate ← on_mesh (get_candidate release_id);
  source ← on_mesh (blob_get (hs candidate));
  let recomputed_hs := content_hash_from_bytes source in
  if negb (bool_decide (recomputed_hs = hs candidate)) then fail MeasurementMismatch
  else
    let rebuilt_hb := lab_rebuild_binary_hash source in
    candidate ← lift (record_rebuild vault_id rebuilt_hb candidate);
    _ ← on_mesh (save_candidate candidate);
    mret candidate.

(** [governance]: the writer and configuration of [AccrueGovernanceWork], when attached. *)
Definition governance_reward (gov : option (NodeId * GovernanceRewardConfig)) (job : GovernanceJobKind)
    (parts : list NodeId) (context : string) : dcmd RelNode unit :=
  match gov with
  | Some (writer, config) => _ ← on_enode (accrue_governance_work writer config job parts context); mret tt
  | None => mret tt
  end.

Definition cosign_release (now : N) (gov : option (NodeId * GovernanceRewardConfig)) (local_node : NodeId)
    (release_id : string) : dcmd RelNode ReleaseCandidate :=
  candidate ← on_mesh (get_candidate release_id);
  m ← on_mesh get;
  constitution ← rel_constitution;
  _ ← lift (predicates_ok (rel_policy m) now (hash constitution) candidate);
  candidate ← lift (add_cosign local_node candidate);
  _ ← on_mesh (save_candidate candidate);
  _ ← governance_reward gov JobReleaseCosign [local_node] release_id;
  mret candidate.

(** [filter_map(|id| NodeId::new(id).ok())]. *)
Definition cosigner_ids (s : gset string) : list NodeId :=
  omap (λ id, match node_id_new id with Ok n => Some n | Err _ => None end) (bs_iter s).

(** [now'] is the second clock reading, for the entry. *)
Definition activate_release (now now' : N) (gov : option (NodeId * GovernanceRewardConfig)) (release_id : string) :
    dcmd RelNode AllowlistEntry :=
  candidate ← on_mesh (get_candidate release_id);
  m ← on_mesh get;
  constitution ← rel_constitution;
  _ ← lift (predicates_ok (rel_policy m) now (hash constitution) candidate);
  let need := vault_cosign_quorum (rel_policy m) in
  if set_len (cosigns candidate) <? need then fail (QuorumNotMet (set_len (cosigns candidate)) need)
  else
    let entry := {| al_release_id := rel_id candidate; al_hs := hs candidate; al_hb := hb candidate;
                    activated_at_secs := now'; al_constitution_hash := hash constitution |} in
    let cosigners := cosigner_ids (cosigns candidate) in
    _ ← on_mesh (save_candidate (set_progress (rebuilds candidate) (cosigns candidate) RelAllowlisted candidate));
    _ ← on_mesh (put_allowlist entry);
    _ ← governance_reward gov JobReleaseActivate cosigners release_id;
    mret entry.

Definition require_hb (h : ContentHash) : dcmd RelNode unit :=
  ok ← on_mesh (is_allowlisted_hb h);
  if (ok : bool) then mret tt else fail (NotAllowlisted (ch_str h)).
End use_cases.

(* ------------------------------------------------------------------ *)
(** ** What is on the allowlist *)

Section properties.
Context {SH : Sha256}.

(** Use-case calls by any node, at any clock reading. *)
Inductive rcall :=
| RPropose (now : N) (id : string) (source : bytes) (sigs : gset string)
| RProposeHashes (now : N) (id : string) (hs hb : ContentHash) (sigs : gset string)
| RRebuild (id : string) (vault : NodeId)
| RCosign (now : N) (gov : option (NodeId * GovernanceRewardConfig)) (node : NodeId) (id : string)
| RActivate (now now' : N) (gov : option (NodeId * GovernanceRewardConfig)) (id : string)
| RBlob (h : ContentHash) (b : bytes).

Definition rrun (c : rcall) (n : RelNode) : RelNode :=
  match c with
  | RPropose now id source sigs => (propose_release now id source sigs n).1
  | RProposeHashes now id hs hb sigs => (propose_with_hashes now id hs hb sigs n).1
  | RRebuild id vault => (rebuild_release id vault n).1
  | RCosign now gov node id => (cosign_release now gov node id n).1
  | RActivate now now' gov id => (activate_release now now' gov id n).1
  | RBlob h b => (on_mesh (blob_put h b) n).1
  end.
Definition rrun_all (l : list rcall) (n : RelNode) : RelNode := foldl (λ n c, rrun c n) n l.

(** The binary is the rebuild of a source whose hash is the candidate's. *)
Definition rebuilt_from_source (hs hb : ContentHash) : Prop :=
  ∃ source, hs = content_hash_from_bytes source ∧ hb = lab_rebuild_binary_hash source.

(** A candidate that met the release predicates. *)
Record vetted (p : ReleasePolicy) (chash : string) (c : ReleaseCandidate) : Prop := {
  v_constitution : rel_constitution_hash c = chash;
  v_council : council_quorum p ≤ set_len (council_sigs c);
  v_rebuilds : min_rebuilds p ≤ map_len (rebuilds c);
  v_cosigns : vault_cosign_quorum p ≤ set_len (cosigns c);
  v_timelock : ∃ now, effective_timelock_secs p ≤ now - created_at_secs c;
}.

Record cand_ok (id : string) (c : ReleaseCandidate) : Prop := {
  co_id : rel_id c = id;
  co_rebuilds k h : rebuilds c !! k = Some h → h = hb c ∧ rebuilt_from_source (hs c) (hb c);
}.
Record mesh_inv (chash : string) (m : ReleaseMesh) : Prop := {
  mi_cands id c : candidates m !! id = Some c → cand_ok id c;
  mi_allow e : e ∈ allowlist m → al_constitution_hash e = chash ∧ ∃ c, candidates m !! al_release_id e = Some c
    ∧ phase c = RelAllowlisted ∧ hs c = al_hs e ∧ hb c = al_hb e ∧ vetted (rel_policy m) chash c;
  mi_nodup : NoDup (al_release_id <$> allowlist m);
}.

Lemma predicates_ok_iff p now h c : predicates_ok p now h c = Ok tt ↔
  rel_constitution_hash c = h ∧ council_quorum p ≤ set_len (council_sigs c) ∧ min_rebuilds p ≤ map_len (rebuilds c)
  ∧ effective_timelock_secs p ≤ now - created_at_secs c.
Proof.
  unfold predicates_ok, sat_sub. cbv zeta. rewrite !guard_ok, negb_false_iff, String.eqb_eq, !N.ltb_ge. naive_solver.
Qed.

(** Replacing a candidate that is not closed, or saving progress of one that is vetted. *)
Lemma save_inv chash m id c : mesh_inv chash m → cand_ok id c →
  (∀ e, e ∈ allowlist m → al_release_id e = id →
     phase c = RelAllowlisted ∧ hs c = al_hs e ∧ hb c = al_hb e ∧ vetted (rel_policy m) chash c) →
  mesh_inv chash (set_candidates (<[id := c]>) m).
Proof.
  intros [H1 H2 H3] Hc Hn. split; simpl; [|intros e He|done].
  - intros id' c' [[<- <-]|[_ ?]]%lookup_insert_Some; [done|by apply H1].
  - destruct (H2 e He) as (Hh & c' & Hc' & Hrest). split; [done|]. destruct (decide (al_release_id e = id)) as [<-|Hne].
    + rewrite lookup_insert_eq. exists c. split; [done|]. by apply Hn.
    + rewrite lookup_insert_ne by done. by exists c'.
Qed.

Lemma open_not_listed chash m id c : mesh_inv chash m → candidates m !! id = Some c → release_closed (phase c) = false →
  ∀ e, e ∈ allowlist m → al_release_id e ≠ id.
Proof.
  intros [_ H2 _] Hc Ho e He <-. destruct (H2 e He) as (_ & c' & Hc' & Hph & _). rewrite Hc in Hc'. injection Hc' as <-.
  by rewrite Hph in Ho.
Qed.

Lemma blob_inv chash m f : mesh_inv chash m → mesh_inv chash (set_blobs f m).
Proof. by intros [H1 H2 H3]. Qed.

Lemma append_event_constitution n k pl w s : constitution (append_event n k pl w s).1 = constitution s.
Proof.
  pose proof (append_event_cases n k pl w s) as H. destruct (append_event n k pl w s) as [s' [[]|e]]; simpl; [|by subst s'].
  by destruct H as (_ & e & -> & _).
Qed.

Lemma gov_work_constitution w cfg job parts ctx n :
  constitution (led (accrue_governance_work w cfg job parts ctx n).1) = constitution (led n).
Proof.
  destruct n as [e l]. unfold accrue_governance_work, on_led, on_eco, ledger_epoch.
  cbv [mret mbind cmd_ret cmd_bind get zoom]. cbn [eco led].
  destruct (governance_is_enabled cfg); cbn [negb eco led]; [|done].
  destruct (accrue_governance_job job parts cfg e) as [e' [a|er]]; cbn [eco led fst snd]; [|done].
  destruct (_ && _); [done|].
  match goal with |- context [append_event ?a ?b ?c ?d ?st] => pose proof (append_event_constitution a b c d st) as H;
    destruct (append_event a b c d st) as [l' [[]|er]] end; done.
Qed.

Lemma governance_reward_frame gov job parts ctx n :
  mesh (governance_reward gov job parts ctx n).1 = mesh n
  ∧ constitution (led (enode (governance_reward gov job parts ctx n).1)) = constitution (led (enode n)).
Proof.
  destruct gov as [[w cfg]|]; [|done]. unfold governance_reward, on_enode. cbv [mret mbind cmd_ret cmd_bind zoom].
  pose proof (gov_work_constitution w cfg job parts ctx (enode n)) as H.
  destruct (accrue_governance_work w cfg job parts ctx (enode n)) as [e [a|er]]; done.
Qed.

(** The invariant of a node, for a fixed constitution hash and policy. *)
Definition rel_inv (p : ReleasePolicy) (chash : string) (n : RelNode) : Prop :=
  mesh_inv chash (mesh n) ∧ hash (constitution (led (enode n))) = chash ∧ rel_policy (mesh n) = p.

Lemma rel_inv_reward p chash gov job parts ctx n n' : (governance_reward gov job parts ctx n).1 = n' →
  rel_inv p chash n → rel_inv p chash n'.
Proof.
  intros <-. unfold rel_inv. destruct (governance_reward_frame gov job parts ctx n) as [-> ->]. done.
Qed.

Lemma propose_candidate_inv p chash now id hs hb sigs n : rel_inv p chash n →
  rel_inv p chash (propose_candidate now id hs hb sigs n).1.
Proof.
  intros (Hm & Hc & Hp). destruct n as [m e]. unfold propose_candidate, rel_constitution, on_mesh, on_enode, on_led.
  cbv [mret mbind cmd_ret cmd_bind get zoom ledger_constitution lift fail update put_candidate]. simpl in *.
  destruct (_ <? _); [done|]. destruct (release_candidate_new _ _ _ _ _ _) as [c|er] eqn:Hnew; [|done]. simpl.
  unfold release_candidate_new in Hnew. rewrite !guard_ok in Hnew. destruct Hnew as (_ & _ & [= <-]). simpl.
  destruct (bool_decide _) eqn:Hex; [done|]. apply bool_decide_eq_false in Hex. simpl.
  split; [|done]. apply save_inv; [done|split; [done|intros ? ?; simpl; by rewrite lookup_empty]|].
  intros e' He' <-. destruct Hex. destruct (mi_allow _ _ Hm e' He') as (_ & c & -> & _). by eexists.
Qed.

Lemma rebuild_inv p chash id vault n : rel_inv p chash n → rel_inv p chash (rebuild_release id vault n).1.
Proof.
  intros (Hm & Hc & Hp). destruct n as [m e]. unfold rebuild_release, on_mesh.
  cbv [mret mbind cmd_ret cmd_bind get zoom get_candidate blob_get lift fail update save_candidate ok_or]. simpl in *.
  destruct (candidates m !! id) as [c|] eqn:Hid; [|done]. simpl.
  destruct (blobs m !! ch_str (hs c)) as [source|]; [|done]. simpl.
  destruct (bool_decide _) eqn:Hs; [|done]. apply bool_decide_eq_true in Hs. simpl.
  destruct (record_rebuild _ _ _) as [c'|er] eqn:Hr; [|done]. simpl.
  unfold record_rebuild in Hr. rewrite !guard_ok, negb_false_iff, bool_decide_eq_true in Hr.
  destruct Hr as (Ho & Hb & [= <-]). destruct (mi_cands _ _ Hm id c Hid) as [Hcid Hcr]. simpl. rewrite Hcid, Hid. simpl.
  split; [|done]. apply save_inv; [done| |].
  - split; simpl; [done|]. intros k h [[_ <-]|[_ ?]]%lookup_insert_Some; [|by eapply Hcr].
    split; [done|]. by exists source.
  - intros e' He' Hid'. by destruct (open_not_listed _ _ _ _ Hm Hid Ho e' He').
Qed.

Lemma cosign_inv p chash now gov node id n : rel_inv p chash n → rel_inv p chash (cosign_release now gov node id n).1.
Proof.
  intros (Hm & Hc & Hp). destruct n as [m e]. unfold cosign_release, rel_constitution, on_mesh, on_enode, on_led.
  cbv [mret mbind cmd_ret cmd_bind get zoom get_candidate ledger_constitution lift fail update save_candidate ok_or].
  simpl in *. destruct (candidates m !! id) as [c|] eqn:Hid; [|done]. simpl.
  destruct (predicates_ok _ _ _ _) as [[]|]; [|done]. destruct (add_cosign node c) as [c'|] eqn:Ha; [|done]. simpl.
  unfold add_cosign in Ha. rewrite guard_ok in Ha. destruct Ha as (Ho & [= <-]).
  destruct (mi_cands _ _ Hm id c Hid) as [Hcid Hcr]. simpl. rewrite Hcid, Hid. simpl.
  match goal with |- context [governance_reward ?a ?b ?c ?d ?st] =>
    pose proof (rel_inv_reward p chash a b c d st _ eq_refl) as Hg; destruct (governance_reward a b c d st) as [n' [[]|er]] end;
    simpl in *; apply Hg; (split; [|by destruct e]); (apply save_inv; [done|by split|]); intros e' He' Hid';
    by destruct (open_not_listed _ _ _ _ Hm Hid Ho e' He').
Qed.

Lemma activate_inv p chash now now' gov id n : rel_inv p chash n →
  rel_inv p chash (activate_release now now' gov id n).1.
Proof.
  intros (Hm & Hc & Hp). destruct n as [m e]. unfold activate_release, rel_constitution, on_mesh, on_enode, on_led.
  cbv [mret mbind cmd_ret cmd_bind get zoom get_candidate ledger_constitution lift fail update save_candidate put_allowlist ok_or].
  simpl in *. destruct (candidates m !! id) as [c|] eqn:Hid; [|done]. simpl.
  destruct (predicates_ok _ _ _ _) as [[]|] eqn:Hpr; [|done]. apply predicates_ok_iff in Hpr as (H1 & H2 & H3 & H4).
  destruct (_ <? _) eqn:Hq; [done|]. apply N.ltb_ge in Hq. destruct (mi_cands _ _ Hm id c Hid) as [Hcid Hcr].
  simpl. rewrite Hcid, Hid. simpl.
  set (c1 := set_progress (rebuilds c) (cosigns c) RelAllowlisted c).
  set (m1 := set_candidates (<[id := c1]>) m).
  assert (vetted p chash c1) as Hv by (split; simpl; [congruence|by subst p..|exists now; by subst p]).
  assert (mesh_inv chash m1) as Hm1.
  { apply save_inv; [done|by split|]. intros e' He' <-. destruct (mi_allow _ _ Hm e' He') as (_ & c' & Hc' & _ & Hhs & Hhb & _).
    rewrite Hid in Hc'. injection Hc' as <-. by subst p. }
  match goal with |- context [governance_reward ?a ?b ?c ?d ?st] =>
    pose proof (rel_inv_reward p chash a b c d st _ eq_refl) as Hg; destruct (governance_reward a b c d st) as [n' [[]|er]] end;
    simpl in *; apply Hg; (split; [|by destruct e]); destruct Hm1 as [I1 I2 I3]; (split; simpl; [done| |]).
  1,3: intros e' [[_ He']%list_elem_of_filter| ->%list_elem_of_singleton]%elem_of_app; [by apply I2|]; simpl;
    (split; [done|]); exists c1; rewrite lookup_insert_eq; by subst p.
  all: rewrite fmap_app; apply NoDup_app; split; [|split; [|apply NoDup_singleton]].
  1,3: eapply sublist_NoDup; [exact I3|]; simpl; apply fmap_sublist, sublist_filter.
  all: intros x (e' & -> & [Hne He']%list_elem_of_filter)%list_elem_of_fmap; simpl; intros Hx%list_elem_of_singleton; by destruct Hne.
Qed.

Lemma rrun_inv p chash c n : rel_inv p chash n → rel_inv p chash (rrun c n).
Proof.
  intros Hn. destruct c as [now id source sigs|now id hs hb sigs|id vault|now gov node id|now now' gov id|h b]; simpl.
  - unfold propose_release, on_mesh. cbv [mret mbind cmd_ret cmd_bind zoom blob_put update]. simpl.
    apply propose_candidate_inv. destruct Hn as (Hm & Hc & Hp). split; [|done]. by do 2 apply blob_inv.
  - unfold propose_with_hashes, on_mesh. cbv [mret mbind cmd_ret cmd_bind zoom blob_get get lift ok_or].
    destruct (blobs (mesh n) !! ch_str hs) as [b|]; [|by destruct n]. apply propose_candidate_inv. by destruct n.
  - by apply rebuild_inv.
  - by apply cosign_inv.
  - by apply activate_inv.
  - destruct Hn as (Hm & Hc & Hp). split; [|done]. simpl. by apply blob_inv.
Qed.

Lemma rrun_all_inv p chash l n : rel_inv p chash n → rel_inv p chash (rrun_all l n).
Proof. unfold rrun_all. revert n. induction l as [|c l IH]; intros n Hn; [done|]. simpl. by apply IH, rrun_inv. Qed.

Lemma rel_inv_new p e : rel_inv p (hash (constitution (led e))) {| mesh := release_mesh_new p; enode := e |}.
Proof.
  split; [|done]. split; simpl; [|set_solver|apply NoDup_nil_2]. intros id c. by rewrite lookup_empty.
Qed.

End properties.
