(* ===== verification/DailyRotation.v ===== *)
(** * Quorum-gated daily rotation

    [QuorumDailyRotation] of [adapters/daily_rotation.rs]: the ledger's day, the
    votes per voter, the advance, and what is read back on boot. The peers'
    answers, the outcome of each file write and of the reshare hook, and the
    JSON codec of the vote file are arguments. *)
From S2P Require Import Prelude RustStr Errors Identity DayEpoch.
Local Open Scope N_scope.

Definition lf : ascii := Ascii.ascii_of_N 10.
Record PeerDayVote := { pv_voter : string; pv_day_epoch : DayEpoch }.

Record Rotation := {
  current : DayEpoch;
  votes : gmap string DayEpoch;
  quorum_t : N;
  local_voter : string;
  persist : bool;
  epoch_file : option string;
  votes_file : option (gmap string string);
}.
Definition set_current (d : DayEpoch) (s : Rotation) : Rotation := {|
  current := d; votes := votes s; quorum_t := quorum_t s; local_voter := local_voter s; persist := persist s;
  epoch_file := epoch_file s; votes_file := votes_file s |}.
Definition set_votes f (s : Rotation) : Rotation := {|
  current := current s; votes := f (votes s); quorum_t := quorum_t s; local_voter := local_voter s; persist := persist s;
  epoch_file := epoch_file s; votes_file := votes_file s |}.
Definition set_files (e : option string) (v : option (gmap string string)) (s : Rotation) : Rotation := {|
  current := current s; votes := votes s; quorum_t := quorum_t s; local_voter := local_voter s; persist := persist s;
  epoch_file := e; votes_file := v |}.

(** What one call of [advance] meets outside: the outcome of the [i]-th write of the vote file and of
    the day file, the peers' exchange, and the reshare hook. *)
Record Env := {
  w_votes : nat → result string unit;
  w_epoch : result string unit;
  exchange : res (list PeerDayVote);
  on_day_advance : DayEpoch → DayEpoch → list NodeId → res unit;
}.

(** [load_day_epoch]. *)
Definition load_day_epoch (file : option string) : option DayEpoch :=
  match file with
  | Some raw => match day_epoch_parse (trim raw) with Ok d => Some d | Err _ => None end
  | None => None
  end.
(** [load_day_votes], after the JSON decoding: unparsable days are skipped. *)
Definition load_day_votes (file : option (gmap string string)) : option (gmap string DayEpoch) :=
  match file with
  | Some m => Some (omap (M := gmap string) (λ raw, match day_epoch_parse raw with Ok d => Some d | Err _ => None end) m)
  | None => None
  end.

(** [with_persist_path]. *)
Definition rotation_open (now quorum : N) (voter : string) (persist : bool)
    (efile : option string) (vfile : option (gmap string string)) : Rotation :=
  let from_clock := day_epoch_from_unix_secs now in
  {| current := if persist then default from_clock (load_day_epoch efile) else from_clock;
     votes := if persist then default ∅ (load_day_votes vfile) else ∅;
     quorum_t := N.max quorum 1; local_voter := voter; persist := persist; epoch_file := efile; votes_file := vfile |}.

Definition vote_count_for (s : Rotation) (target : DayEpoch) : N :=
  N.of_nat (size (filter (λ kv : string * DayEpoch, kv.2 = target) (votes s))).

Definition persist_day_epoch (w : result string unit) (d : DayEpoch) : dcmd Rotation unit :=
  match w with
  | Ok _ => update (λ s, set_files (Some (day_str d +:+ String.String lf EmptyString)) (votes_file s) s)
  | Err e => fail (ThresholdError (format "day_epoch persist: {}" [e]))
  end.
Definition persist_day_votes (w : result string unit) : dcmd Rotation unit :=
  match w with
  | Ok _ => update (λ s, set_files (epoch_file s) (Some (day_str <$> votes s)) s)
  | Err e => fail (ThresholdError (format "day votes persist: {}" [e]))
  end.
Definition write_persist (we wv : result string unit) (d : DayEpoch) : dcmd Rotation unit :=
  s ← get;
  if negb (persist s) then mret tt
  else _ ← persist_day_epoch we d; persist_day_votes wv.
Definition persist_votes_only (wv : result string unit) : dcmd Rotation unit :=
  s ← get; if negb (persist s) then mret tt else persist_day_votes wv.

Definition current_day_epoch (now : N) : dcmd Rotation DayEpoch :=
  s ← get;
  let live := day_epoch_from_unix_secs now in
  if day_lt (current s) live then fail (DayEpochStale (day_str (current s)) (day_str live)) else mret (current s).

Definition record_vote (wv : result string unit) (voter : string) (target : DayEpoch) : dcmd Rotation unit :=
  _ ← update (set_votes (<[voter := target]>));
  persist_votes_only wv.

(** The loop over the peers' votes; [i] numbers the writes. *)
Fixpoint record_peers (wv : nat → result string unit) (i : nat) (l : list PeerDayVote) : dcmd Rotation unit :=
  match l with
  | [] => mret tt
  | pv :: r => _ ← record_vote (wv i) (pv_voter pv) (pv_day_epoch pv); record_peers wv (Datatypes.S i) r
  end.

(** The voters for [live] that are node ids. *)
Definition day_participants (s : Rotation) (live : DayEpoch) : list NodeId :=
  omap (λ kv, match node_id_new kv.1 with Ok n => Some n | Err _ => None end)
    (map_to_list (filter (λ kv : string * DayEpoch, kv.2 = live) (votes s))).

Definition advance (env : Env) (now : N) : dcmd Rotation DayEpoch :=
  let live := day_epoch_from_unix_secs now in
  s0 ← get;
  _ ← record_vote (w_votes env 0) (local_voter s0) live;
  peer_votes ← lift (exchange env);
  _ ← record_peers (w_votes env) 1 peer_votes;
  s ← get;
  let have := vote_count_for s live in
  if have <? quorum_t s then fail (QuorumNotMet have (quorum_t s))
  else
    let from := current s in
    let wlast := w_votes env (Datatypes.S (length peer_votes)) in
    if bool_decide (live = from) then
      _ ← write_persist (w_epoch env) wlast live; mret live
    else if day_lt live from then fail (DayEpochStale (day_str live) (day_str from))
    else
      _ ← update (set_current live);
      _ ← write_persist (w_epoch env) wlast live;
      s ← get;
      _ ← lift (on_day_advance env from live (day_participants s live));
      mret live.

Definition require_epoch (now : N) (bound : DayEpoch) : dcmd Rotation unit :=
  s ← get;
  if negb (bool_decide (bound = current s)) then fail (DayEpochStale (day_str bound) (day_str (current s)))
  else
    let live := day_epoch_from_unix_secs now in
    if day_lt (current s) live then fail (DayEpochStale (day_str (current s)) (day_str live)) else mret tt.

(* ------------------------------------------------------------------ *)
(** ** Properties *)

Lemma day_le_refl d : day_le d d = true.
Proof. unfold day_le, String.leb. by rewrite compare_refl. Qed.

Lemma day_le_trans a b c : day_le a b = true → day_le b c = true → day_le a c = true.
Proof.
  unfold day_le. intros H1 H2. assert (String.le (day_str a) (day_str c)) as H; [|exact (Is_true_true_1 _ H)].
  etrans; [exact (Is_true_true_2 _ H1)|exact (Is_true_true_2 _ H2)].
Qed.

Lemma day_lt_total a b : a ≠ b → day_lt a b = false → day_lt b a = true.
Proof.
  intros Hne. unfold day_lt, day_le. rewrite !(bool_decide_false (_ = _)) by done. rewrite !andb_true_r.
  unfold String.leb. rewrite (String.compare_antisym (day_str b)). destruct (String.compare _ _); done.
Qed.

(** The parts of the state no vote touches. *)
Definition same_day (s t : Rotation) : Prop :=
  current t = current s ∧ quorum_t t = quorum_t s ∧ local_voter t = local_voter s.

Lemma persist_frame_votes wv s : let s' := (persist_votes_only wv s).1 in same_day s s' ∧ votes s' = votes s.
Proof. unfold persist_votes_only, persist_day_votes. unfold_monad. by destruct (persist s), wv. Qed.

Lemma write_frame we wv d s : let s' := (write_persist we wv d s).1 in same_day s s' ∧ votes s' = votes s.
Proof. unfold write_persist, persist_day_epoch, persist_day_votes. unfold_monad. by destruct (persist s), we, wv. Qed.

Lemma record_vote_frame wv v d s : let s' := (record_vote wv v d s).1 in
  same_day s s' ∧ votes s' = <[v := d]> (votes s).
Proof.
  unfold record_vote. cbv [mbind cmd_bind update]. pose proof (persist_frame_votes wv (set_votes (<[v:=d]>) s)) as [Hs Hv].
  cbv zeta in *. split; [|by rewrite Hv]. destruct Hs as (H1 & H2 & H3). by split.
Qed.

(** A vote in the map after the peers' loop is an earlier one or a peer's. *)
Lemma record_peers_frame wv i l s : let s' := (record_peers wv i l s).1 in
  same_day s s' ∧ ∀ k d, votes s' !! k = Some d → votes s !! k = Some d ∨ {| pv_voter := k; pv_day_epoch := d |} ∈ l.
Proof.
  cbv zeta. revert i s. induction l as [|pv l IH]; intros i s; simpl; [split; [done|by auto]|].
  cbv [mbind cmd_bind]. pose proof (record_vote_frame (wv i) (pv_voter pv) (pv_day_epoch pv) s) as [Hs Hv]. cbv zeta in *.
  assert (∀ k d, votes (record_vote (wv i) (pv_voter pv) (pv_day_epoch pv) s).1 !! k = Some d →
    votes s !! k = Some d ∨ {| pv_voter := k; pv_day_epoch := d |} ∈ pv :: l) as Hone.
  { rewrite Hv. intros k d [[<- <-]|[_ ?]]%lookup_insert_Some; [right; destruct pv; by left|by left]. }
  destruct (record_vote _ _ _ s) as [s1 [[]|e]]; simpl in *; [|done].
  destruct (IH (Datatypes.S i) s1) as [(H1 & H2 & H3) Hv1]. destruct Hs as (H4 & H5 & H6). split.
  - split; [congruence|]. split; congruence.
  - intros k d Hk. destruct (Hv1 k d Hk) as [?|?]; [by apply Hone|right; by right].
Qed.

(** The day advances by quorum: whatever the peers answer, whatever the writes and the reshare hook
    do, an [advance] moves the ledger's day only to the clock's day, only forward, and only when at
    least [quorum_t] distinct voters (with the node's own vote) have a vote for that day; when it
    succeeds the ledger's day is the clock's day with that quorum. Every vote counted is one recorded
    before, the node's own, or one a peer answered. *)
Theorem day_advances_by_quorum env now s :
  let live := day_epoch_from_unix_secs now in
  let '(s', r) := advance env now s in
  (current s' = current s ∨ current s' = live ∧ day_lt (current s) live = true ∧ quorum_t s ≤ vote_count_for s' live)
  ∧ (∀ d, r = Ok d → d = live ∧ current s' = live ∧ quorum_t s ≤ vote_count_for s' live)
  ∧ quorum_t s' = quorum_t s
  ∧ ∀ k d, votes s' !! k = Some d → votes s !! k = Some d ∨ (k = local_voter s ∧ d = live)
      ∨ ∃ l, exchange env = Ok l ∧ {| pv_voter := k; pv_day_epoch := d |} ∈ l.
Proof.
  cbv zeta. set (live := day_epoch_from_unix_secs now). unfold advance. fold live.
  cbv [mret mbind cmd_ret cmd_bind get update lift fail]. cbv zeta.
  pose proof (record_vote_frame (w_votes env 0) (local_voter s) live s) as [(H1 & H2 & H3) Hv]. cbv zeta in *.
  assert (∀ k d, votes (record_vote (w_votes env 0) (local_voter s) live s).1 !! k = Some d →
    votes s !! k = Some d ∨ (k = local_voter s ∧ d = live)) as Hone.
  { rewrite Hv. intros k d [[<- <-]|[_ ?]]%lookup_insert_Some; auto. }
  destruct (record_vote _ _ _ s) as [s1 [[]|e]]; simpl in *.
  2: { split; [by left|]. split; [done|]. split; [done|]. intros k d Hk. destruct (Hone k d Hk); auto. }
  destruct (exchange env) as [l|e].
  2: { split; [by left|]. split; [done|]. split; [done|]. intros k d Hk. destruct (Hone k d Hk); auto. }
  pose proof (record_peers_frame (w_votes env) 1 l s1) as [(H4 & H5 & H6) Hvs]. cbv zeta in *.
  assert (∀ k d, votes (record_peers (w_votes env) 1 l s1).1 !! k = Some d → votes s !! k = Some d
    ∨ (k = local_voter s ∧ d = live) ∨ ∃ l', (Ok l : res _) = Ok l' ∧ {| pv_voter := k; pv_day_epoch := d |} ∈ l') as Hall.
  { intros k d Hk. destruct (Hvs k d Hk) as [Hk1|Hin]; [|by eauto 6]. destruct (Hone k d Hk1); auto. }
  destruct (record_peers _ _ l s1) as [s2 [[]|e]]; simpl in *.
  2: { split; [left; congruence|]. split; [done|]. split; [congruence|done]. }
  destruct (vote_count_for s2 live <? quorum_t s2) eqn:Hq; simpl.
  { split; [left; congruence|]. split; [done|]. split; [congruence|done]. }
  apply N.ltb_ge in Hq. rewrite H5, H2 in Hq.
  case_bool_decide as Hlive.
  - pose proof (write_frame (w_epoch env) (w_votes env (Datatypes.S (length l))) live s2) as [(H7 & H8 & _) Hv2]. cbv zeta in *.
    destruct (write_persist _ _ live s2) as [s3 [[]|e]]; simpl in *; rewrite Hv2;
      (split; [left; congruence|]); (split; [|split; [congruence|done]]); [|done].
    intros d [= <-]. split; [done|]. split; [congruence|]. unfold vote_count_for. by rewrite Hv2.
  - destruct (day_lt live (current s2)) eqn:Hlt; simpl.
    { split; [left; congruence|]. split; [done|]. split; [congruence|done]. }
    apply day_lt_total in Hlt; [|done]. rewrite H4, H1 in Hlt.
    pose proof (write_frame (w_epoch env) (w_votes env (Datatypes.S (length l))) live (set_current live s2)) as [(H7 & H8 & _) Hv2].
    cbv zeta in *. destruct (write_persist _ _ live _) as [s3 [[]|e]]; simpl in *.
    2: { rewrite Hv2. unfold vote_count_for. rewrite Hv2. split; [by right|]. split; [done|]. split; [congruence|done]. }
    destruct (on_day_advance env _ live _) as [[]|e]; simpl; unfold vote_count_for; rewrite Hv2;
      (split; [by right|]); (split; [|split; [congruence|done]]); [|done]. by intros d [= <-].
Qed.
