(* ===== verification/LabField.v ===== *)
(** * The lab threshold field

    The prime field and Shamir interpolation of [domain/threshold.rs], with the
    theory its reconstruction rests on: the modulus is prime, [mod_inv] inverts
    (Fermat), and interpolation at zero recovers the constant term of any
    polynomial with fewer coefficients than there are points. [u64] and [u8]
    values are [Z]; products are [u128] in the source, so nothing wraps. *)
From S2P Require Import Prelude RustStr Errors Identity.
From Stdlib Require Import ZArith Znumtheory.
Local Open Scope Z_scope.

Definition LAB_PRIME : Z := 2147483647.

Definition field_add (a b : Z) : Z := (a + b) mod LAB_PRIME.
Definition field_mul (a b : Z) : Z := (a * b) mod LAB_PRIME.
Definition field_sub (a b : Z) : Z :=
  let a := a mod LAB_PRIME in
  let b := b mod LAB_PRIME in
  if b <=? a then a - b else LAB_PRIME - (b - a).

(** The square-and-multiply loop, on the bits of the exponent. *)
Fixpoint mod_pow_loop (base : Z) (exp : positive) (result : Z) : Z :=
  match exp with
  | xH => field_mul result base
  | xO e => mod_pow_loop (field_mul base base) e result
  | xI e => mod_pow_loop (field_mul base base) e (field_mul result base)
  end.
Definition mod_pow (base exp : Z) : Z :=
  match exp with Zpos e => mod_pow_loop (base mod LAB_PRIME) e 1 | _ => 1 end.

Definition mod_inv (a : Z) : res Z :=
  let a := a mod LAB_PRIME in
  if a =? 0 then Err (ThresholdError "inverse of 0") else Ok (mod_pow a (LAB_PRIME - 2)).

(** The loop of [eval_poly]: [y] accumulates, [pow] is the current power. *)
Fixpoint eval_loop (coeffs : list Z) (x y pow : Z) : Z :=
  match coeffs with
  | [] => y
  | c :: r => eval_loop r x (field_add y (field_mul c pow)) (field_mul pow x)
  end.
Definition eval_poly (coeffs : list Z) (x : Z) : Z := eval_loop coeffs x 0 1.

(** The inner loop of [interpolate_secret]: numerator and denominator over the points other than [i]. *)
Fixpoint basis_loop (i j : nat) (xi : Z) (pts : list (Z * Z)) (nd : Z * Z) : Z * Z :=
  match pts with
  | [] => nd
  | (xj, _) :: r =>
      basis_loop i (Datatypes.S j) xi r
        (if (i =? j)%nat then nd else (field_mul nd.1 (field_sub 0 xj), field_mul nd.2 (field_sub xi xj)))
  end.
Fixpoint interpolate_loop (all : list (Z * Z)) (i : nat) (pts : list (Z * Z)) (secret : Z) : res Z :=
  match pts with
  | [] => Ok secret
  | (xi, yi) :: r =>
      let '(num, den) := basis_loop i 0 xi all (1, 1) in
      inv ← mod_inv den;
      let li := field_mul num inv in
      interpolate_loop all (Datatypes.S i) r (field_add secret (field_mul yi li))
  end.
Definition interpolate_secret (shares : list (Z * Z)) : res Z :=
  match shares with
  | [] => Err (ThresholdError "no shares")
  | _ => interpolate_loop shares 0 shares 0
  end.

(** [char::to_digit(16)], 0 when it is none. *)
Definition hex_value (a : ascii) : Z :=
  let n := Z.of_N (byte_n a) in
  if (48 <=? n) && (n <=? 57) then n - 48
  else if (97 <=? n) && (n <=? 102) then n - 87
  else if (65 <=? n) && (n <=? 70) then n - 55
  else 0.
Fixpoint nibbles (i : Z) (l : bytes) (v : Z) : Z :=
  match l with
  | [] => v
  | a :: r => nibbles (i + 1) r (Z.lor v (Z.shiftl (hex_value a) (4 * (15 - i))))
  end.
Definition lab_random_u64 `{!Sha256} (seed : bytes) : Z :=
  let v := nibbles 0 (take 16 (bytes_of (sha256_hex seed))) 0 in
  v mod (LAB_PRIME - 1) + 1.

(* ------------------------------------------------------------------ *)
(** ** The modulus is prime *)

(** No odd number in [d, d + 2k) divides [n]. *)
Fixpoint no_odd_divisor (n d : Z) (k : nat) : bool :=
  match k with O => true | S k' => negb (n mod d =? 0) && no_odd_divisor n (d + 2) k' end.

Lemma no_odd_divisor_spec n k d x : 0 < d → no_odd_divisor n d k = true →
  d ≤ x < d + 2 * Z.of_nat k → (x - d) mod 2 = 0 → n mod x ≠ 0.
Proof.
  revert d. induction k as [|k IH]; intros d Hd; simpl; [lia|].
  intros [H1 H2]%andb_true_iff Hx Hpar. apply negb_true_iff, Z.eqb_neq in H1.
  destruct (decide (x = d)) as [->|]; [done|]. apply (IH (d + 2)); [lia|done| |].
  - destruct (decide (x = d + 1)) as [->|]; [|lia]. replace (d + 1 - d) with 1 in Hpar by lia. done.
  - replace (x - (d + 2)) with (x - d + (-1) * 2) by lia. by rewrite Z.mod_add.
Qed.

Lemma lab_no_odd_divisor : no_odd_divisor LAB_PRIME 3 23200 = true.
Proof. vm_compute. reflexivity. Qed.

Lemma small_not_divisor x : 1 < x ≤ 46341 → LAB_PRIME mod x ≠ 0.
Proof.
  intros Hx. pose proof (Z.div_mod x 2 ltac:(lia)) as Hd. pose proof (Z.mod_pos_bound x 2 ltac:(lia)) as Hb.
  destruct (decide (x mod 2 = 0)) as [He|Ho].
  - intros H. apply Z.mod_divide in H; [|lia]. assert ((2 | x)) as H2 by (by apply Z.mod_divide).
    assert ((2 | LAB_PRIME)) as H3 by (by etrans). apply Z.mod_divide in H3; [|lia]. discriminate.
  - generalize dependent (x mod 2). intros r Hd Hb Ho. assert (r = 1) as -> by lia.
    generalize dependent (x / 2). intros h ->.
    apply (no_odd_divisor_spec LAB_PRIME 23200 3); [lia|apply lab_no_odd_divisor| |].
    { assert (Z.of_nat 23200 = 23200) as -> by (vm_compute; reflexivity). lia. }
    replace (2 * h + 1 - 3) with (0 + (h - 1) * 2) by lia. by rewrite Z.mod_add.
Qed.

Lemma lab_prime : prime LAB_PRIME.
Proof.
  apply prime_alt. split; [done|]. intros n Hn [m Hm].
  assert (0 < m) as Hm0 by nia.
  assert (LAB_PRIME mod n = 0) as H1 by (rewrite Hm; apply Z.mod_mul; lia).
  assert (LAB_PRIME mod m = 0) as H2 by (rewrite Hm, Z.mul_comm; apply Z.mod_mul; lia).
  destruct (decide (n ≤ 46341)); [exact (small_not_divisor n ltac:(lia) H1)|].
  assert (1 < m ≤ 46341) as Hm1; [|exact (small_not_divisor m Hm1 H2)].
  clear H1 H2. unfold LAB_PRIME in *. split; [destruct (decide (m = 1)) as [->|]; lia|]. nia.
Qed.

(* ------------------------------------------------------------------ *)
(** ** Congruence modulo the prime *)

Opaque LAB_PRIME.

Definition cg (a b : Z) : Prop := a mod LAB_PRIME = b mod LAB_PRIME.
Infix "≡p" := cg (at level 70).

#[export] Instance cg_equiv : Equivalence cg.
Proof. unfold cg. split; [done|by intros ? ?|intros ? ? ?; apply eq_trans]. Qed.

Lemma prime_pos : 0 < LAB_PRIME.
Proof. pose proof (prime_ge_2 _ lab_prime). lia. Qed.

#[export] Instance add_cg : Proper (cg ==> cg ==> cg) Z.add.
Proof. intros a b H c d H'. unfold cg in *. by rewrite Z.add_mod, H, H', <- Z.add_mod by (pose proof prime_pos; lia). Qed.
#[export] Instance mul_cg : Proper (cg ==> cg ==> cg) Z.mul.
Proof. intros a b H c d H'. unfold cg in *. by rewrite Z.mul_mod, H, H', <- Z.mul_mod by (pose proof prime_pos; lia). Qed.
#[export] Instance opp_cg : Proper (cg ==> cg) Z.opp.
Proof. intros a b H. replace (- a) with (-1 * a) by lia. replace (- b) with (-1 * b) by lia. by rewrite H. Qed.
#[export] Instance sub_cg : Proper (cg ==> cg ==> cg) Z.sub.
Proof. intros a b H c d H'. unfold Z.sub. by rewrite H, H'. Qed.

Lemma cg_mod a : a mod LAB_PRIME ≡p a.
Proof. unfold cg. apply Z.mod_mod. pose proof prime_pos; lia. Qed.

Lemma cg_sub a b : a ≡p b ↔ a - b ≡p 0.
Proof.
  split; intros H; [rewrite H; by replace (b - b) with 0 by lia|].
  replace a with (a - b + b) by lia. rewrite H. by replace (0 + b) with b by lia.
Qed.

Lemma cg_zero a : a ≡p 0 ↔ (LAB_PRIME | a).
Proof.
  unfold cg. rewrite Z.mod_0_l by (pose proof prime_pos; lia). apply Z.mod_divide. pose proof prime_pos; lia.
Qed.

Lemma cg_mul_zero a b : a * b ≡p 0 → a ≡p 0 ∨ b ≡p 0.
Proof. rewrite !cg_zero. apply prime_mult, lab_prime. Qed.

(** Equal residues of small numbers. *)
Lemma cg_small a b : 0 ≤ a < LAB_PRIME → 0 ≤ b < LAB_PRIME → a ≡p b → a = b.
Proof. intros Ha Hb H. unfold cg in H. by rewrite !Z.mod_small in H. Qed.

Lemma field_add_cg a b : field_add a b ≡p a + b.
Proof. apply cg_mod. Qed.
Lemma field_mul_cg a b : field_mul a b ≡p a * b.
Proof. apply cg_mod. Qed.
Lemma field_sub_cg a b : field_sub a b ≡p a - b.
Proof.
  unfold field_sub. cbv zeta. transitivity (a mod LAB_PRIME - b mod LAB_PRIME); [|by rewrite !cg_mod].
  destruct (_ <=? _); [done|]. apply cg_sub.
  match goal with |- ?x ≡p 0 => replace x with LAB_PRIME by lia end. apply cg_zero. done.
Qed.

(** Every operation returns a residue. *)
Lemma field_range a : 0 ≤ a mod LAB_PRIME < LAB_PRIME.
Proof. apply Z.mod_pos_bound, prime_pos. Qed.

(* ------------------------------------------------------------------ *)
(** ** Inverses *)

Definition zprod (l : list Z) : Z := foldr Z.mul 1 l.

#[export] Instance zprod_perm : Proper ((≡ₚ) ==> eq) zprod.
Proof. intros l k H. induction H; simpl in *; lia. Qed.

Lemma zprod_nonzero l : (∀ x, x ∈ l → ¬ x ≡p 0) → ¬ zprod l ≡p 0.
Proof.
  induction l as [|x l IH]; intros H; simpl.
  - rewrite cg_zero. intros Hd. apply Z.divide_1_r in Hd. pose proof (prime_ge_2 _ lab_prime). lia.
  - intros [H0|H0]%cg_mul_zero; [by apply (H x); [left|]|]. apply IH; [|done]. intros y Hy. apply H. by right.
Qed.

Lemma zprod_scale a l : zprod ((λ i, (a * i) mod LAB_PRIME) <$> l) ≡p a ^ Z.of_nat (length l) * zprod l.
Proof.
  induction l as [|x l IH]; [done|]. cbn [fmap list_fmap zprod foldr length]. unfold zprod in IH. rewrite IH, cg_mod.
  rewrite Nat2Z.inj_succ, Z.pow_succ_r by lia. f_equal. ring.
Qed.

Lemma fermat a : ¬ a ≡p 0 → a ^ (LAB_PRIME - 1) ≡p 1.
Proof.
  intros Ha. pose proof (prime_ge_2 _ lab_prime) as Hp. set (l := seqZ 1 (LAB_PRIME - 1)).
  assert (∀ x, x ∈ l → ¬ x ≡p 0) as Hnz.
  { intros x Hx%elem_of_seqZ H. assert (x = 0); [|lia]. apply cg_small; [lia|lia|done]. }
  assert ((λ i, (a * i) mod LAB_PRIME) <$> l ≡ₚ l) as Hperm.
  { apply submseteq_length_Permutation; [|by rewrite length_fmap]. apply NoDup_submseteq.
    - apply NoDup_fmap_2_strong; [|apply NoDup_seqZ]. intros x y Hx Hy He.
      apply elem_of_seqZ in Hx, Hy. assert (a * (x - y) ≡p 0) as [?|H]%cg_mul_zero; [|done|].
      + replace (a * (x - y)) with (a * x - a * y) by lia. apply (proj1 (cg_sub _ _)). exact He.
      + apply cg_sub in H. apply cg_small; [lia|lia|done].
    - intros z (x & -> & Hx)%list_elem_of_fmap. apply elem_of_seqZ.
      pose proof (field_range (a * x)). assert ((a * x) mod LAB_PRIME ≠ 0); [|lia].
      intros H0. assert (a * x ≡p 0) as [?|?]%cg_mul_zero; [|done|by apply (Hnz x)].
      unfold cg. rewrite H0. symmetry. apply Z.mod_0_l. lia. }
  pose proof (zprod_scale a l) as Hs. rewrite Hperm in Hs.
  assert (Z.of_nat (length l) = LAB_PRIME - 1) as Hlen.
  { unfold l. rewrite length_seqZ. lia. }
  rewrite Hlen in Hs. symmetry in Hs. apply cg_sub in Hs.
  replace (a ^ (LAB_PRIME - 1) * zprod l - zprod l) with ((a ^ (LAB_PRIME - 1) - 1) * zprod l) in Hs by ring.
  apply cg_mul_zero in Hs as [Hs|Hs]; [exact (proj2 (cg_sub _ _) Hs)|].
  destruct (zprod_nonzero l Hnz Hs).
Qed.

Lemma pow_cg a b n : a ≡p b → 0 ≤ n → a ^ n ≡p b ^ n.
Proof.
  intros Hab Hn. revert n Hn. apply Wf_Z.natlike_ind; [by rewrite !Z.pow_0_r|].
  intros k Hk IH. rewrite !Z.pow_succ_r by done. by rewrite IH, Hab.
Qed.

Lemma square_pow b n : 0 ≤ n → field_mul b b ^ n ≡p b ^ (2 * n).
Proof.
  intros Hn. rewrite (pow_cg _ _ n (field_mul_cg b b) Hn). rewrite Z.pow_mul_r, Z.pow_2_r by lia. done.
Qed.

Lemma mod_pow_loop_cg b e r : mod_pow_loop b e r ≡p r * b ^ Zpos e.
Proof.
  revert b r. induction e as [e IH|e IH|]; intros b r; cbn [mod_pow_loop].
  - rewrite IH, field_mul_cg, square_pow by lia. rewrite Pos2Z.inj_xI, Z.pow_add_r, Z.pow_1_r by lia.
    by replace (r * b * b ^ (2 * Zpos e)) with (r * (b ^ (2 * Zpos e) * b)) by ring.
  - rewrite IH, square_pow by lia. by rewrite Pos2Z.inj_xO.
  - rewrite field_mul_cg. by rewrite Z.pow_1_r.
Qed.

Lemma mod_pow_cg a e : 0 ≤ e → mod_pow a e ≡p a ^ e.
Proof.
  intros He. destruct e as [|e|e]; [by rewrite Z.pow_0_r| |lia]. unfold mod_pow. rewrite mod_pow_loop_cg.
  replace (1 * (a mod LAB_PRIME) ^ Zpos e) with ((a mod LAB_PRIME) ^ Zpos e) by ring. apply pow_cg; [apply cg_mod|lia].
Qed.

(** [mod_inv] fails exactly on multiples of the prime and otherwise inverts. *)
Lemma mod_inv_spec a :
  match mod_inv a with
  | Ok i => ¬ a ≡p 0 ∧ a * i ≡p 1
  | Err _ => a ≡p 0
  end.
Proof.
  unfold mod_inv. cbv zeta. pose proof (prime_ge_2 _ lab_prime) as Hp.
  destruct (a mod LAB_PRIME =? 0) eqn:H0.
  - apply Z.eqb_eq in H0. unfold cg. rewrite H0. symmetry. apply Z.mod_0_l. lia.
  - apply Z.eqb_neq in H0. assert (¬ a ≡p 0) as Ha.
    { intros H. apply H0. unfold cg in H. rewrite H. apply Z.mod_0_l. lia. }
    split; [exact Ha|]. rewrite mod_pow_cg by lia. rewrite (pow_cg _ _ _ (cg_mod a)) by lia.
    rewrite <- Z.pow_succ_r by lia. replace (Z.succ (LAB_PRIME - 2)) with (LAB_PRIME - 1) by lia. exact (fermat a Ha).
Qed.

(* ------------------------------------------------------------------ *)
(** ** Polynomials as coefficient lists *)

Definition peval (c : list Z) (x : Z) : Z := foldr (λ a y, a + x * y) 0 c.

Lemma eval_loop_cg c x y pow : eval_loop c x y pow ≡p y + pow * peval c x.
Proof.
  revert y pow. induction c as [|a c IH]; intros y pow; cbn [eval_loop peval foldr].
  - by replace (y + pow * 0) with y by ring.
  - rewrite IH. rewrite field_add_cg, !field_mul_cg. fold (peval c x).
    by replace (y + a * pow + pow * x * peval c x) with (y + pow * (a + x * peval c x)) by ring.
Qed.

Lemma eval_poly_cg c x : eval_poly c x ≡p peval c x.
Proof. unfold eval_poly. rewrite eval_loop_cg. by replace (0 + 1 * peval c x) with (peval c x) by ring. Qed.

(** Division by a linear factor. *)
Lemma peval_factor c a : ∃ q, length q = pred (length c) ∧ ∀ x, peval c x = (x - a) * peval q x + peval c a.
Proof.
  induction c as [|b c (q & Hl & Hq)]; [exists []; split; [done|intros x; simpl; ring]|].
  destruct c as [|b2 c2]; [exists []; split; [done|intros x; simpl; ring]|].
  exists (peval (b2 :: c2) a :: q). split; [cbn [length pred] in *; lia|]. intros x.
  change (peval (b :: b2 :: c2) x) with (b + x * peval (b2 :: c2) x).
  change (peval (b :: b2 :: c2) a) with (b + a * peval (b2 :: c2) a).
  change (peval (peval (b2 :: c2) a :: q) x) with (peval (b2 :: c2) a + x * peval q x).
  rewrite (Hq x). ring.
Qed.

(** Residues of a list are pairwise distinct. *)
Definition distinct (xs : list Z) : Prop := ∀ i j x y, xs !! i = Some x → xs !! j = Some y → x ≡p y → i = j.

(** A polynomial with as many roots as coefficients vanishes. *)
Lemma peval_roots c xs : distinct xs → (length c ≤ length xs)%nat → (∀ x, x ∈ xs → peval c x ≡p 0) →
  ∀ x, peval c x ≡p 0.
Proof.
  revert c. induction xs as [|a xs IH]; intros c Hd Hl Hr x.
  { destruct c; [done|simpl in Hl; lia]. }
  destruct (peval_factor c a) as (q & Hq & He). assert (peval c a ≡p 0) as Ha by (apply Hr; by left).
  rewrite He, Ha. assert (peval q x ≡p 0) as ->; [|by replace ((x - a) * 0 + 0) with 0 by ring].
  apply IH.
  - intros i j y z Hi Hj Hyz. assert (S i = S j); [|lia]. by apply (Hd (S i) (S j) y z).
  - simpl in Hl. lia.
  - intros y Hy. assert ((y - a) * peval q y ≡p 0) as [H0|H0]%cg_mul_zero; [| |done].
    + specialize (Hr y ltac:(by right)). rewrite He, Ha in Hr.
      by replace ((y - a) * peval q y) with ((y - a) * peval q y + 0) by ring.
    + apply list_elem_of_lookup in Hy as [i Hi]. apply cg_sub in H0.
      specialize (Hd 0%nat (S i) a y eq_refl Hi ltac:(by symmetry)). lia.
Qed.

(** Functions that are polynomials with at most [n] coefficients. *)
Definition pfun (n : nat) (f : Z → Z) : Prop := ∃ c, (length c ≤ n)%nat ∧ ∀ x, peval c x ≡p f x.

Lemma pfun_const k : pfun 1 (λ _, k).
Proof. exists [k]. split; [done|]. intros x. simpl. by replace (k + x * 0) with k by ring. Qed.

Lemma pfun_weaken n m f : (n ≤ m)%nat → pfun n f → pfun m f.
Proof. intros Hnm (c & Hl & Hc). exists c. split; [lia|done]. Qed.

Lemma peval_add c d : ∃ e, (length e ≤ Nat.max (length c) (length d))%nat ∧ ∀ x, peval e x = peval c x + peval d x.
Proof.
  revert d. induction c as [|a c IH]; intros d.
  - exists d. split; [simpl; lia|]. intros x. simpl. ring.
  - destruct d as [|b d]; [exists (a :: c); split; [simpl; lia|intros x; simpl; ring]|].
    destruct (IH d) as (e & He & Hx). exists (a + b :: e). split; [simpl; lia|]. intros x.
    change (a + b + x * peval e x = a + x * peval c x + (b + x * peval d x)). rewrite Hx. ring.
Qed.

Lemma pfun_add n f g : pfun n f → pfun n g → pfun n (λ x, f x + g x).
Proof.
  intros (c & Hl & Hc) (d & Hl' & Hd). destruct (peval_add c d) as (e & He & Hx).
  exists e. split; [lia|]. intros x. by rewrite Hx, Hc, Hd.
Qed.

Lemma pfun_scale n k f : pfun n f → pfun n (λ x, k * f x).
Proof.
  intros (c & Hl & Hc). exists (map (Z.mul k) c). split; [by rewrite length_map|]. intros x.
  assert (peval (map (Z.mul k) c) x = k * peval c x) as ->; [|by rewrite Hc].
  clear. induction c as [|a c IH]; [simpl; ring|].
  change (k * a + x * peval (map (Z.mul k) c) x = k * (a + x * peval c x)). rewrite IH. ring.
Qed.

Lemma pfun_linear n a f : pfun n f → pfun (S n) (λ x, (x - a) * f x).
Proof.
  intros Hf. assert (pfun (S n) (λ x, x * f x)) as Hx.
  { destruct Hf as (c & Hl & Hc). exists (0 :: c). split; [simpl; lia|]. intros x.
    change (0 + x * peval c x ≡p x * f x). by rewrite Hc. }
  destruct (pfun_add (S n) _ _ Hx (pfun_scale (S n) (- a) f (pfun_weaken n (S n) f ltac:(lia) Hf))) as (c & Hl & Hc).
  exists c. split; [done|]. intros x. rewrite Hc. by replace ((x - a) * f x) with (x * f x + - a * f x) by ring.
Qed.

Lemma pfun_unique n f g xs : distinct xs → (n ≤ length xs)%nat → pfun n f → pfun n g →
  (∀ x, x ∈ xs → f x ≡p g x) → ∀ x, f x ≡p g x.
Proof.
  intros Hd Hn Hf Hg Hfg x.
  destruct (pfun_add n _ _ Hf (pfun_scale n (-1) _ Hg)) as (c & Hl & Hc).
  assert (∀ y, peval c y ≡p f y - g y) as Hc' by (intros y; rewrite Hc; by replace (f y + -1 * g y) with (f y - g y) by ring).
  apply cg_sub. rewrite <- Hc'. apply (peval_roots c xs); [done|lia|]. intros y Hy. rewrite Hc'.
  apply (proj1 (cg_sub _ _)). by apply Hfg.
Qed.

(* ------------------------------------------------------------------ *)
(** ** Interpolation *)

(** The product of [g xj] over the points other than the [i]-th, numbering from [j]. *)
Fixpoint others (i j : nat) (g : Z → Z) (pts : list (Z * Z)) : Z :=
  match pts with
  | [] => 1
  | (xj, _) :: r => (if (i =? j)%nat then 1 else g xj) * others i (S j) g r
  end.

Lemma basis_loop_cg i j xi pts n d :
  let nd := basis_loop i j xi pts (n, d) in
  nd.1 ≡p n * others i j (λ xj, 0 - xj) pts ∧ nd.2 ≡p d * others i j (λ xj, xi - xj) pts.
Proof.
  revert j n d. induction pts as [|[xj yj] pts IH]; intros j n d; cbn [basis_loop others].
  - cbn. split; by rewrite Z.mul_1_r.
  - destruct (i =? j)%nat; cbn [fst snd].
    + destruct (IH (S j) n d) as [-> ->]. by rewrite !Z.mul_1_l.
    + destruct (IH (S j) (field_mul n (field_sub 0 xj)) (field_mul d (field_sub xi xj))) as [-> ->].
      rewrite !field_mul_cg, !field_sub_cg, !Z.mul_assoc. done.
Qed.

(** The basis polynomial has a coefficient per point, and vanishes at the other points. *)
Lemma others_pfun i j pts : pfun (if (j <=? i)%nat && (i <? j + length pts)%nat then length pts else S (length pts))
  (λ x, others i j (λ xj, x - xj) pts).
Proof.
  revert j. induction pts as [|[xj yj] pts IH]; intros j; cbn [others length].
  - destruct (_ && _) eqn:H; [apply andb_true_iff in H as [?%Nat.leb_le ?%Nat.ltb_lt]; lia|]. apply pfun_const.
  - destruct (i =? j)%nat eqn:Hij.
    + apply Nat.eqb_eq in Hij as ->. rewrite Nat.leb_refl. replace (j <? j + S (length pts))%nat with true
        by (symmetry; apply Nat.ltb_lt; lia). cbn [andb].
      specialize (IH (S j)). replace (S j <=? j)%nat with false in IH by (symmetry; apply Nat.leb_gt; lia). cbn [andb] in IH.
      destruct IH as (c & Hl & Hc). exists c. split; [done|]. intros x. rewrite Hc. by rewrite Z.mul_1_l.
    + apply Nat.eqb_neq in Hij. eapply pfun_weaken; [|apply pfun_linear, (IH (S j))].
      destruct (S j <=? i)%nat eqn:H1, (i <? S j + length pts)%nat eqn:H2, (j <=? i)%nat eqn:H3,
        (i <? j + S (length pts))%nat eqn:H4; cbn [andb];
      rewrite ?Nat.leb_le, ?Nat.leb_gt, ?Nat.ltb_lt, ?Nat.ltb_ge in *; lia.
Qed.

Lemma others_vanish i j pts k x y : pts !! k = Some (x, y) → (j + k)%nat ≠ i → others i j (λ xj, x - xj) pts = 0.
Proof.
  revert j k. induction pts as [|[xj yj] pts IH]; intros j k Hk Hne; [done|]. cbn [others].
  destruct k as [|k]; simpl in Hk.
  - injection Hk as -> ->. replace (i =? j)%nat with false by (symmetry; apply Nat.eqb_neq; lia). lia.
  - rewrite (IH (S j) k) by (done || lia). lia.
Qed.

Lemma others_nonzero i j g pts : (∀ k x y, pts !! k = Some (x, y) → (j + k)%nat ≠ i → ¬ g x ≡p 0) →
  ¬ others i j g pts ≡p 0.
Proof.
  revert j. induction pts as [|[xj yj] pts IH]; intros j H; cbn [others].
  - rewrite cg_zero. intros Hd. apply Z.divide_1_r in Hd. pose proof (prime_ge_2 _ lab_prime). lia.
  - intros [H0|H0]%cg_mul_zero.
    + destruct (i =? j)%nat eqn:Hij.
      * apply cg_zero in H0. apply Z.divide_1_r in H0. pose proof (prime_ge_2 _ lab_prime). lia.
      * apply Nat.eqb_neq in Hij. apply (H 0%nat xj yj); [done|lia|done].
    + apply (IH (S j)); [|done]. intros k x y Hk Hne. apply (H (S k) x y); [done|lia].
Qed.

(** The interpolating polynomial with weights [ws] for the points from the [i]-th on. *)
Fixpoint lagrange (all : list (Z * Z)) (i : nat) (ws : list Z) (x : Z) : Z :=
  match ws with
  | [] => 0
  | w :: r => w * others i 0 (λ xj, x - xj) all + lagrange all (S i) r x
  end.

Lemma lagrange_pfun all i ws : (i + length ws ≤ length all)%nat → pfun (length all) (lagrange all i ws).
Proof.
  revert i. induction ws as [|w ws IH]; intros i Hi; cbn [lagrange].
  - exists []. split; [simpl; lia|done].
  - apply pfun_add; [|apply IH; simpl in Hi; lia]. apply pfun_scale.
    pose proof (others_pfun i 0 all) as H. simpl in Hi.
    replace ((0 <=? i)%nat && (i <? 0 + length all)%nat) with true in H; [done|].
    symmetry. apply andb_true_iff. split; [by apply Nat.leb_le; lia|apply Nat.ltb_lt; lia].
Qed.

(** At a point only its own term is left. *)
Lemma lagrange_at all i ws k x y : all !! k = Some (x, y) → (i ≤ k < i + length ws)%nat →
  ∃ w, ws !! (k - i)%nat = Some w ∧ lagrange all i ws x = w * others k 0 (λ xj, x - xj) all.
Proof.
  intros Hk. assert (∀ i ws, (k < i)%nat → lagrange all i ws x = 0) as Hlater.
  { clear i ws. intros i ws. revert i. induction ws as [|w ws IH]; intros i Hi; [done|]. cbn [lagrange].
    rewrite (others_vanish i 0 all k x y) by (done || lia). rewrite IH by lia. lia. }
  revert i. induction ws as [|w ws IH]; intros i Hi; simpl in Hi; [lia|]. cbn [lagrange].
  destruct (decide (i = k)) as [->|Hne].
  - exists w. rewrite Nat.sub_diag. split; [done|]. rewrite Hlater by lia. lia.
  - rewrite (others_vanish i 0 all k x y) by (done || lia).
    destruct (IH (S i)) as (w' & Hw & ->); [lia|]. exists w'. split; [|lia].
    replace (k - i)%nat with (S (k - S i)) by lia. done.
Qed.

(** The outer loop computes the interpolating polynomial at zero, with the weights [yi / den_i]. *)
Lemma interpolate_loop_spec all i pts s : distinct (all.*1) → drop i all = pts →
  ∃ ws r, interpolate_loop all i pts s = Ok r ∧ length ws = length pts ∧ r ≡p s + lagrange all i ws 0
  ∧ ∀ k x y, pts !! k = Some (x, y) → ∃ w, ws !! k = Some w ∧ w * others (i + k) 0 (λ xj, x - xj) all ≡p y.
Proof.
  intros Hd. revert i s. induction pts as [|[xi yi] pts IH]; intros i s Hdrop; cbn [interpolate_loop].
  { exists [], s. split; [done|]. split; [done|]. cbn [lagrange]. rewrite Z.add_0_r. split; [done|].
    intros k x y Hk. by rewrite lookup_nil in Hk. }
  assert (all !! i = Some (xi, yi)) as Hi.
  { rewrite <- (Nat.add_0_r i), <- lookup_drop, Hdrop. done. }
  pose proof (basis_loop_cg i 0 xi all 1 1) as [Hn Hden]. destruct (basis_loop i 0 xi all (1, 1)) as [num den].
  cbn [fst snd] in *. rewrite Z.mul_1_l in Hn, Hden.
  pose proof (mod_inv_spec den) as Hinv. destruct (mod_inv den) as [inv|e].
  2: { exfalso. rewrite Hden in Hinv. revert Hinv. apply others_nonzero. intros k x y Hk Hne H0. apply Hne. simpl.
       symmetry. apply (Hd i k xi x); [by rewrite list_lookup_fmap, Hi|by rewrite list_lookup_fmap, Hk|by apply cg_sub]. }
  destruct Hinv as [_ Hinv].
  assert (drop (S i) all = pts) as Hdrop'.
  { rewrite <- (Nat.add_1_l i), Nat.add_comm, <- drop_drop, Hdrop. done. }
  cbn [mbind result_bind].
  destruct (IH (S i) (field_add s (field_mul yi (field_mul num inv))) Hdrop') as (ws & r & -> & Hl & Hr & Hw).
  exists (yi * inv :: ws), r. split; [done|]. split; [by simpl; rewrite Hl|]. split.
  - rewrite Hr, field_add_cg, !field_mul_cg, Hn. cbn [lagrange].
    match goal with |- ?a ≡p ?b => replace b with a by ring end. done.
  - intros [|k] x y Hk; simpl in Hk.
    + injection Hk as <- <-. exists (yi * inv). split; [done|]. rewrite Nat.add_0_r. rewrite <- Hden.
      replace (yi * inv * den) with (yi * (den * inv)) by ring. rewrite Hinv. by rewrite Z.mul_1_r.
    + destruct (Hw k x y Hk) as (w & Hwk & Hww). exists w. split; [done|].
      by replace (i + S k)%nat with (S i + k)%nat by lia.
Qed.

Lemma interpolate_loop_range all i pts s r : 0 ≤ s < LAB_PRIME → interpolate_loop all i pts s = Ok r → 0 ≤ r < LAB_PRIME.
Proof.
  revert i s. induction pts as [|[xi yi] pts IH]; intros i s Hs; cbn [interpolate_loop]; [by intros [= <-]|].
  destruct (basis_loop i 0 xi all (1, 1)) as [num den]. rewrite bind_ok. intros (inv & _ & H).
  apply IH in H; [done|]. apply field_range.
Qed.
Lemma interpolate_range pts r : interpolate_secret pts = Ok r → 0 ≤ r < LAB_PRIME.
Proof.
  destruct pts as [|p pts]; [done|]. apply interpolate_loop_range. pose proof prime_pos. lia.
Qed.

(** Interpolation recovers the constant term. *)
Lemma interpolate_constant pts c : pts ≠ [] → distinct (pts.*1) → (length c ≤ length pts)%nat →
  (∀ x y, (x, y) ∈ pts → y ≡p peval c x) →
  ∃ r, interpolate_secret pts = Ok r ∧ r ≡p peval c 0.
Proof.
  intros Hne Hd Hl Hy. destruct (interpolate_loop_spec pts 0 pts 0 Hd eq_refl) as (ws & r & Hr & Hws & Hrr & Hw).
  exists r. split; [by destruct pts|]. rewrite Hrr, Z.add_0_l.
  apply (pfun_unique (length pts) (lagrange pts 0 ws) (peval c) (pts.*1)).
  - done.
  - by rewrite length_fmap.
  - apply lagrange_pfun. simpl. lia.
  - by exists c.
  - intros x ([x' y] & -> & Hxy)%list_elem_of_fmap. cbn [fst]. pose proof (Hy _ _ Hxy) as Hyy.
    apply list_elem_of_lookup in Hxy as [k Hk]. destruct (Hw k x' y Hk) as (w & Hwk & Hww).
    destruct (lagrange_at pts 0 ws k x' y Hk) as (w' & Hw' & ->).
    { split; [lia|]. rewrite Hws. simpl. by eapply lookup_lt_Some. }
    rewrite Nat.sub_0_r in Hw'. rewrite Hwk in Hw'. injection Hw' as <-. by rewrite <- Hyy.
Qed.
