(* ===== verification/Threshold.v ===== *)
(** * Lab DKG and threshold signing sessions

    [domain/dkg.rs], the session machine of [adapters/threshold_state.rs] and the
    use case of [application/sign.rs], over the field of LabField. Shares, nonces
    and partial values are [Z] ([u64]), indices too ([u8]). *)
From S2P Require Import Prelude RustStr Errors Identity LabField.
From Stdlib Require Import ZArith.
Local Open Scope Z_scope.

Record KeyShare := { sh_index : Z; sh_value : Z; sh_node_id : NodeId }.
Record GroupKey := { gk_n : nat; gk_t : nat; gk_commitment : string }.
Inductive SigningPhase := PhOpen | PhNoncesBound | PhCombined | PhConsumed.
#[export] Instance SigningPhase_eq_dec : EqDecision SigningPhase.
Proof. solve_decision. Defined.
Definition signing_phase_debug (p : SigningPhase) : string :=
  match p with PhOpen => "Open" | PhNoncesBound => "NoncesBound" | PhCombined => "Combined" | PhConsumed => "Consumed" end.
Record PartialSignature := { p_index : Z; p_node_id : NodeId; p_nonce_commitment : string; p_partial_value : Z }.
Record SigningSession := {
  ss_session_id : string; ss_message_hash : string; ss_phase : SigningPhase;
  bound_nonce_commitments : list string; partials : list PartialSignature;
}.
Record CombinedSignature := { cs_session_id : string; cs_message_hash : string; cs_value : Z; cs_participants : list Z }.

Definition show_z (z : Z) : string := show (Z.to_N z).

Definition share_index_new (v : Z) : res Z :=
  if v =? 0 then Err (InvalidShare "share index must be >= 1") else Ok v.

Definition combined_json (c : CombinedSignature) : string :=
  format (q "{{`session_id`:`{}`,`message_hash`:`{}`,`value`:{},`participants`:[{}],`scheme`:`lab-shamir-threshold-v1`}}")
    [cs_session_id c; cs_message_hash c; show_z (cs_value c); join "," (map show_z (cs_participants c))].

Section threshold.
Context `{!Sha256}.

Definition public_commitment (s : KeyShare) : string :=
  sha256_hex (bytes_of (format "share-commit:{}:{}" [show_z (sh_index s); show_z (sh_value s)])).
Definition derive_nonce (session_id message_hash : string) (share_value : Z) : Z :=
  lab_random_u64 (bytes_of (format "nonce|{}|{}|{}" [session_id; message_hash; show_z share_value])).
Definition nonce_commitment (nonce index : Z) : string :=
  sha256_hex (bytes_of (format "nonce-commit:{}:{}" [show_z index; show_z nonce])).

(* ------------------------------------------------------------------ *)
(** ** [run_dkg] *)

(** A participant's polynomial: [t] coefficients from the entropy and its id. *)
Definition dkg_coeffs (t : nat) (entropy : bytes) (node : NodeId) : list Z :=
  map (λ k, lab_random_u64 (bytes_of (format "dkg|{}|{}|{}" [hex_of_bytes entropy; node_str node; show (N.of_nat k)]))) (seq 0 t).
Definition dkg_commitment (node : NodeId) (coeffs : list Z) : string :=
  format "{}:{}" [node_str node; sha256_hex (bytes_of (format "commit:{}" [show_z (hd 0 coeffs)]))].
(** The sum of the evaluations at [x]. *)
Definition dkg_value (polynomials : list (list Z)) (x : Z) : Z :=
  foldl (λ value poly, field_add value (eval_poly poly x)) 0 polynomials.
(** The loop over the participants, [j] counting from 0; [(j as u8) + 1] wraps. *)
Fixpoint dkg_shares (polynomials : list (list Z)) (j : nat) (nodes : list NodeId) : res (list KeyShare) :=
  match nodes with
  | [] => Ok []
  | node :: r =>
      let x := Z.of_nat j + 1 in
      let value := dkg_value polynomials x in
      index ← share_index_new ((Z.of_nat j mod 256 + 1) mod 256);
      rest ← dkg_shares polynomials (S j) r;
      Ok ({| sh_index := index; sh_value := value; sh_node_id := node |} :: rest)
  end.
Definition run_dkg (active_set : list NodeId) (t : nat) (entropy : bytes) : res (GroupKey * list KeyShare) :=
  let n := length active_set in
  if ((n <? 2)%nat || (t =? 0)%nat || (n <? t)%nat)
  then Err (ThresholdError (format "bad n/t: n={} t={}" [show (N.of_nat n); show (N.of_nat t)]))
  else
    let polynomials := map (dkg_coeffs t entropy) active_set in
    let commitments := map (λ node, dkg_commitment node (dkg_coeffs t entropy node)) active_set in
    shares ← dkg_shares polynomials 0 active_set;
    Ok ({| gk_n := n; gk_t := t; gk_commitment := sha256_hex (bytes_of (join "|" commitments)) |}, shares).

(* ------------------------------------------------------------------ *)
(** ** Sessions *)

Record TState := {
  group : GroupKey;
  local_share : KeyShare;
  lab_all_shares : list KeyShare;
  sessions : gmap string SigningSession;
  used_nonce_commitments : gset string;
  consumed_sessions : gset string;
}.
Definition set_sessions f (s : TState) : TState := {|
  group := group s; local_share := local_share s; lab_all_shares := lab_all_shares s; sessions := f (sessions s);
  used_nonce_commitments := used_nonce_commitments s; consumed_sessions := consumed_sessions s |}.
Definition set_used f (s : TState) : TState := {|
  group := group s; local_share := local_share s; lab_all_shares := lab_all_shares s; sessions := sessions s;
  used_nonce_commitments := f (used_nonce_commitments s); consumed_sessions := consumed_sessions s |}.
Definition set_consumed_sessions f (s : TState) : TState := {|
  group := group s; local_share := local_share s; lab_all_shares := lab_all_shares s; sessions := sessions s;
  used_nonce_commitments := used_nonce_commitments s; consumed_sessions := f (consumed_sessions s) |}.
Definition threshold_new (g : GroupKey) (l : KeyShare) (all : list KeyShare) : TState := {|
  group := g; local_share := l; lab_all_shares := all; sessions := ∅; used_nonce_commitments := ∅; consumed_sessions := ∅ |}.

Definition fail_stop (online need : nat) : DomainError := FailStop (N.of_nat online) (N.of_nat need).

Definition begin_session (session_id message_hash : string) (online : nat) : dcmd TState SigningSession :=
  g ← get;
  if (online <? gk_t (group g))%nat then fail (fail_stop online (gk_t (group g)))
  else if bool_decide (session_id ∈ consumed_sessions g) || bool_decide (is_Some (sessions g !! session_id))
  then fail (NonceReuse (format "session_id already used: {}" [session_id]))
  else
    let nonce := derive_nonce session_id message_hash (sh_value (local_share g)) in
    let commit := nonce_commitment nonce (sh_index (local_share g)) in
    if bool_decide (commit ∈ used_nonce_commitments g) then fail (NonceReuse commit)
    else
      _ ← update (set_used ({[commit]} ∪.));
      let session := {| ss_session_id := session_id; ss_message_hash := message_hash; ss_phase := PhNoncesBound;
                        bound_nonce_commitments := [commit]; partials := [] |} in
      _ ← update (set_sessions (<[session_id := session]>));
      mret session.

(** A share's partial for a session. *)
Definition make_partial (session_id message_hash : string) (s : KeyShare) : PartialSignature :=
  let nonce := derive_nonce session_id message_hash (sh_value s) in
  let msg_scalar := lab_random_u64 (bytes_of message_hash) in
  {| p_index := sh_index s; p_node_id := sh_node_id s; p_nonce_commitment := nonce_commitment nonce (sh_index s);
     p_partial_value := field_add (field_mul (sh_value s) nonce) msg_scalar |}.

Definition contribute_local_partial (session_id : string) : dcmd TState PartialSignature :=
  g ← get;
  if bool_decide (session_id ∈ consumed_sessions g) then fail (SessionConsumed session_id)
  else
    session ← lift (ok_or (sessions g !! session_id) (UnknownProposal session_id));
    if negb (bool_decide (ss_phase session = PhNoncesBound)) && negb (bool_decide (ss_phase session = PhOpen))
    then fail (BadSigningPhase session_id (signing_phase_debug (ss_phase session)))
    else
      let partial := make_partial session_id (ss_message_hash session) (local_share g) in
      if existsb (λ p, p_index p =? p_index partial) (partials session)
      then fail (NonceReuse "duplicate partial for share index")
      else
        _ ← update (set_sessions (<[session_id :=
               {| ss_session_id := ss_session_id session; ss_message_hash := ss_message_hash session;
                  ss_phase := ss_phase session; bound_nonce_commitments := bound_nonce_commitments session;
                  partials := partials session ++ [partial] |}]>));
        mret partial.

Definition bind_commitments (bound : list string) (out : list PartialSignature) : list string :=
  foldl (λ b p, if existsb (String.eqb (p_nonce_commitment p)) b then b else b ++ [p_nonce_commitment p]) bound out.

Definition lab_collect_partials_from_all (session_id : string) (online : nat) : dcmd TState (list PartialSignature) :=
  g ← get;
  if (online <? gk_t (group g))%nat then fail (fail_stop online (gk_t (group g)))
  else
    session ← lift (ok_or (sessions g !! session_id) (UnknownProposal session_id));
    let take_n := Nat.min online (gk_n (group g)) in
    let out := map (make_partial session_id (ss_message_hash session)) (take take_n (lab_all_shares g)) in
    _ ← update (set_used (list_to_set (map p_nonce_commitment out) ∪.));
    _ ← update (set_sessions (<[session_id :=
           {| ss_session_id := ss_session_id session; ss_message_hash := ss_message_hash session;
              ss_phase := PhNoncesBound;
              bound_nonce_commitments := bind_commitments (bound_nonce_commitments session) out;
              partials := out |}]>));
    mret out.

Definition combine (session_id : string) (online : nat) : dcmd TState CombinedSignature :=
  g ← get;
  let need := gk_t (group g) in
  if (online <? need)%nat then fail (fail_stop online need)
  else if bool_decide (session_id ∈ consumed_sessions g) then fail (SessionConsumed session_id)
  else
    session ← lift (ok_or (sessions g !! session_id) (UnknownProposal session_id));
    if (length (partials session) <? need)%nat
    then fail (QuorumNotMet (len (partials session)) (N.of_nat need))
    else
      let points := map (λ p, (p_index p, p_partial_value p)) (take need (partials session)) in
      value ← lift (interpolate_secret points);
      _ ← update (set_sessions (<[session_id :=
             {| ss_session_id := ss_session_id session; ss_message_hash := ss_message_hash session;
                ss_phase := PhConsumed; bound_nonce_commitments := bound_nonce_commitments session; partials := [] |}]>));
      _ ← update (set_consumed_sessions ({[session_id]} ∪.));
      mret {| cs_session_id := session_id; cs_message_hash := ss_message_hash session; cs_value := value;
              cs_participants := map fst points |}.

(** [SignMessage::run_lab_quorum_sign]; [online] is read once. *)
Definition run_lab_quorum_sign (online : nat) (session_id message_hash : string) : dcmd TState CombinedSignature :=
  _ ← begin_session session_id message_hash online;
  _ ← lab_collect_partials_from_all session_id online;
  combine session_id online.
End threshold.

(* ------------------------------------------------------------------ *)
(** ** The shares reconstruct the joint secret *)

Section dkg.
Context {SH : Sha256}.

(** The joint secret: the sum of the participants' constant terms. The source never assembles it. *)
Definition joint_secret (active_set : list NodeId) (t : nat) (entropy : bytes) : Z :=
  foldl field_add 0 (map (λ node, hd 0 (dkg_coeffs t entropy node)) active_set).
Definition share_points (l : list KeyShare) : list (Z * Z) := map (λ s, (sh_index s, sh_value s)) l.

Lemma foldl_field_add_cg l v : foldl field_add v l ≡p v + foldr Z.add 0 l.
Proof.
  revert v. induction l as [|a l IH]; intros v; cbn [foldl foldr]; [by rewrite Z.add_0_r|].
  rewrite IH, field_add_cg. by rewrite Z.add_assoc.
Qed.

Lemma dkg_value_fold polys x : dkg_value polys x = foldl field_add 0 (map (λ p, eval_poly p x) polys).
Proof.
  unfold dkg_value. generalize 0 as v. induction polys as [|p polys IH]; intros v; simpl; [done|]. by rewrite IH.
Qed.

(** The evaluations of all polynomials sum to that of one polynomial with [t] coefficients. *)
Lemma dkg_value_poly polys t : (∀ p, p ∈ polys → (length p ≤ t)%nat) →
  ∃ c, (length c ≤ t)%nat ∧ (∀ x, dkg_value polys x ≡p peval c x) ∧ peval c 0 = foldr Z.add 0 (map (hd 0) polys).
Proof.
  intros Ht. assert (∃ c, (length c ≤ t)%nat ∧ ∀ x, peval c x = foldr Z.add 0 (map (λ p, peval p x) polys)) as (c & Hl & Hc).
  { induction polys as [|p polys IH]; [exists []; split; [simpl; lia|done]|].
    destruct IH as (c & Hl & Hc); [intros; apply Ht; by right|]. destruct (peval_add p c) as (e & He & Hx).
    exists e. split; [specialize (Ht p ltac:(by left)); lia|]. intros x. rewrite Hx, Hc. done. }
  exists c. split; [done|]. split.
  - intros x. rewrite dkg_value_fold, foldl_field_add_cg, Hc, Z.add_0_l. clear. induction polys as [|p polys IH]; [done|].
    cbn [map foldr]. by rewrite IH, eval_poly_cg.
  - rewrite Hc. clear. induction polys as [|p polys IH]; [done|]. cbn [map foldr]. rewrite IH. f_equal.
    destruct p as [|a p]; [done|]. change (a + 0 * peval p 0 = a). lia.
Qed.

Lemma dkg_shares_spec polys j nodes : (j + length nodes ≤ 255)%nat →
  ∃ l, dkg_shares polys j nodes = Ok l ∧ length l = length nodes
  ∧ ∀ k s, l !! k = Some s → sh_index s = Z.of_nat (j + k) + 1 ∧ sh_value s = dkg_value polys (Z.of_nat (j + k) + 1)
      ∧ nodes !! k = Some (sh_node_id s).
Proof.
  revert j. induction nodes as [|node nodes IH]; intros j Hj; cbn [dkg_shares].
  { exists []. split; [done|]. split; [done|]. intros k s Hk. by rewrite lookup_nil in Hk. }
  simpl in Hj. assert ((Z.of_nat j mod 256 + 1) mod 256 = Z.of_nat j + 1) as ->.
  { rewrite (Z.mod_small (Z.of_nat j)) by lia. apply Z.mod_small. lia. }
  unfold share_index_new. replace (Z.of_nat j + 1 =? 0) with false by lia. cbn [mbind result_bind].
  destruct (IH (S j)) as (l & -> & Hl & Hs); [lia|]. eexists. split; [done|]. split; [by simpl; rewrite Hl|].
  intros [|k] s Hk; simpl in Hk.
  - injection Hk as <-. cbn. by rewrite Nat.add_0_r.
  - destruct (Hs k s Hk) as (H1 & H2 & H3). rewrite H1, H2. by replace (j + S k)%nat with (S j + k)%nat by lia.
Qed.

Lemma run_dkg_ok active t entropy g shares : run_dkg active t entropy = Ok (g, shares) →
  (2 ≤ length active)%nat ∧ (1 ≤ t ≤ length active)%nat ∧ gk_n g = length active ∧ gk_t g = t
  ∧ dkg_shares (map (dkg_coeffs t entropy) active) 0 active = Ok shares.
Proof.
  unfold run_dkg. cbv zeta. destruct (_ || _) eqn:Hb; [done|].
  rewrite !orb_false_iff, !Nat.ltb_ge, Nat.eqb_neq in Hb.
  rewrite bind_ok. intros (l & Hl & [= <- <-]). cbn. split; [lia|]. split; [lia|]. done.
Qed.

Lemma lab_prime_big : 255 < LAB_PRIME.
Proof. vm_compute. reflexivity. Qed.

(** Distinct [u8] indices are distinct residues. *)
Lemma distinct_indices l : (∀ s, s ∈ l → 1 ≤ sh_index s ≤ 255) → NoDup (map sh_index l) → distinct ((share_points l).*1).
Proof.
  intros Hr Hnd i j x y Hi Hj Hxy. pose proof lab_prime_big as Hp. unfold share_points in *.
  rewrite list_lookup_fmap in Hi, Hj. change (map ?f ?k) with (f <$> k) in *. rewrite list_lookup_fmap in Hi, Hj.
  destruct (l !! i) as [s|] eqn:Hs; [|done]. destruct (l !! j) as [s'|] eqn:Hs'; [|done].
  simpl in Hi, Hj. injection Hi as <-. injection Hj as <-.
  pose proof (Hr s ltac:(by eapply list_elem_of_lookup_2)). pose proof (Hr s' ltac:(by eapply list_elem_of_lookup_2)).
  apply cg_small in Hxy; [|lia|lia]. eapply (NoDup_lookup _ _ _ (sh_index s) Hnd); rewrite list_lookup_fmap;
    [by rewrite Hs|rewrite Hs'; simpl; congruence].
Qed.

(** C25 The lab DKG's threshold property: for at most 255 participants a successful run gives every
    participant one share, indexed from 1 in order, and any [t] or more of the shares with distinct
    indices, in any order, interpolate without error to the joint secret, the sum of the
    participants' constant terms, which no step of the run computes. *)
Theorem dkg_reconstructs active t entropy g shares : (length active ≤ 255)%nat →
  run_dkg active t entropy = Ok (g, shares) →
  map sh_node_id shares = active ∧ (∀ k s, shares !! k = Some s → sh_index s = Z.of_nat k + 1)
  ∧ ∀ sub, (∀ s, s ∈ sub → s ∈ shares) → NoDup (map sh_index sub) → (t ≤ length sub)%nat →
      interpolate_secret (share_points sub) = Ok (joint_secret active t entropy).
Proof.
  intros Hn (H2 & Ht & _ & _ & Hsh)%run_dkg_ok.
  destruct (dkg_shares_spec (map (dkg_coeffs t entropy) active) 0 active Hn) as (l & Hl & Hlen & Hs).
  rewrite Hsh in Hl. injection Hl as <-. split; [|split].
  - apply list_eq. intros k. change (map ?f ?k) with (f <$> k). rewrite list_lookup_fmap.
    destruct (shares !! k) as [s|] eqn:Hk; simpl; [by destruct (Hs k s Hk) as (_ & _ & ->)|].
    symmetry. apply lookup_ge_None. rewrite <- Hlen. by apply lookup_ge_None.
  - intros k s Hk. by destruct (Hs k s Hk) as (-> & _).
  - intros sub Hsub Hnd Hts. destruct (dkg_value_poly (map (dkg_coeffs t entropy) active) t) as (c & Hc & Hv & H0).
    { intros p (node & -> & _)%list_elem_of_fmap. unfold dkg_coeffs. by rewrite length_map, length_seq. }
    assert (∀ s, s ∈ sub → 1 ≤ sh_index s ≤ 255 ∧ sh_value s ≡p peval c (sh_index s)) as Hpts.
    { intros s Hin. apply Hsub, list_elem_of_lookup in Hin as [k Hk]. destruct (Hs k s Hk) as (-> & -> & _).
      apply lookup_lt_Some in Hk. split; [lia|]. apply Hv. }
    destruct (interpolate_constant (share_points sub) c) as (r & Hr & Hrc).
    + destruct sub; [simpl in Hts; lia|done].
    + apply distinct_indices; [|done]. intros s Hin. by apply Hpts.
    + unfold share_points. rewrite length_map. lia.
    + intros x y (s & [= -> ->] & Hin)%list_elem_of_fmap. by apply Hpts.
    + rewrite Hr. f_equal. apply cg_small.
      * by eapply interpolate_range.
      * unfold joint_secret. destruct active as [|a active]; [simpl in H2; lia|]. 
        rewrite <- (rev_involutive (map _ _)). destruct (rev (map _ (a :: active))) as [|z zs] eqn:Hrev.
        { apply (f_equal (@length _)) in Hrev. rewrite length_rev, length_map in Hrev. done. }
        cbn [rev]. rewrite foldl_app. apply field_range.
      * rewrite Hrc, H0. unfold joint_secret. rewrite foldl_field_add_cg, Z.add_0_l. rewrite map_map. done.
Qed.
End dkg.

(* ------------------------------------------------------------------ *)
(** ** Sessions are used once *)

Section session_machine.
Context {SH : Sha256}.

Inductive tcall :=
| TBegin (session_id message_hash : string) (online : nat)
| TContribute (session_id : string)
| TCollect (session_id : string) (online : nat)
| TCombine (session_id : string) (online : nat).

Definition trun (c : tcall) (s : TState) : TState :=
  match c with
  | TBegin id m o => (begin_session id m o s).1
  | TContribute id => (contribute_local_partial id s).1
  | TCollect id o => (lab_collect_partials_from_all id o s).1
  | TCombine id o => (combine id o s).1
  end.

(** What a call achieves, when it succeeds. *)
Inductive tevent := Begun (session_id commitment : string) | CombinedEv (session_id : string) (online partials : nat).
Definition tev (c : tcall) (s : TState) : list tevent :=
  match c with
  | TBegin id m o => match (begin_session id m o s).2 with Ok ss => map (Begun id) (bound_nonce_commitments ss) | Err _ => [] end
  | TCombine id o => match (combine id o s).2 with
      | Ok sig => [CombinedEv id o (length (cs_participants sig))] | Err _ => [] end
  | _ => []
  end.
Fixpoint trace (l : list tcall) (s : TState) : list tevent :=
  match l with [] => [] | c :: r => tev c s ++ trace r (trun c s) end.

Definition begun_ids (l : list tevent) : list string := omap (λ e, match e with Begun id _ => Some id | _ => None end) l.
Definition begun_commitments (l : list tevent) : list string := omap (λ e, match e with Begun _ c => Some c | _ => None end) l.
Definition combined_ids (l : list tevent) : list string := omap (λ e, match e with CombinedEv id _ _ => Some id | _ => None end) l.

(** Nothing used is forgotten, and an event uses something fresh. *)
Lemma tcall_frame c s : let s' := trun c s in
  consumed_sessions s ⊆ consumed_sessions s' ∧ used_nonce_commitments s ⊆ used_nonce_commitments s'
  ∧ dom (sessions s) ⊆ dom (sessions s') ∧ group s' = group s
  ∧ match tev c s with
    | [] => True
    | [Begun id k] => id ∉ dom (sessions s) ∧ id ∈ dom (sessions s') ∧ k ∉ used_nonce_commitments s ∧ k ∈ used_nonce_commitments s'
    | [CombinedEv id o n] => id ∉ consumed_sessions s ∧ id ∈ consumed_sessions s' ∧ (gk_t (group s) ≤ o)%nat ∧ n = gk_t (group s)
    | _ => False
    end.
Proof.
  cbv zeta. destruct c as [id m o|id|id o|id o]; unfold trun, tev.
  - unfold begin_session. cbv [mret mbind cmd_ret cmd_bind get update fail]. destruct (_ <? _)%nat; [done|].
    destruct (bool_decide (id ∈ _)); [done|]. cbn [orb]. case_bool_decide as Hs; [done|].
    case_bool_decide as Hk; [done|]. cbn. split; [done|]. split; [set_solver|]. split; [set_solver|]. split; [done|].
    split; [rewrite elem_of_dom; done|]. set_solver.
  - unfold contribute_local_partial. cbv [mret mbind cmd_ret cmd_bind get update fail lift ok_or].
    destruct (bool_decide (id ∈ _)); [done|]. destruct (sessions s !! id) as [ss|]; [|done].
    destruct (_ && _); [done|]. destruct (existsb _ _); [done|]. cbn. split; [done|]. split; [done|]. split; [set_solver|done].
  - unfold lab_collect_partials_from_all. cbv [mret mbind cmd_ret cmd_bind get update fail lift ok_or].
    destruct (_ <? _)%nat; [done|]. destruct (sessions s !! id) as [ss|]; [|done]. cbn. split; [done|].
    split; [set_solver|]. split; [set_solver|done].
  - unfold combine. cbv [mret mbind cmd_ret cmd_bind get update fail lift ok_or].
    destruct (o <? _)%nat eqn:Ho; [done|]. case_bool_decide as Hc; [done|]. destruct (sessions s !! id) as [ss|]; [|done].
    destruct (length (partials ss) <? _)%nat eqn:Hn; [done|]. destruct (interpolate_secret _) as [v|e]; [|done].
    apply Nat.ltb_ge in Ho, Hn. cbn. split; [set_solver|]. split; [done|]. split; [set_solver|]. split; [done|].
    split; [done|]. split; [set_solver|]. split; [done|]. rewrite !length_map, length_take. lia.
Qed.

(** Everything a trace uses was unused at its start. *)
Lemma trace_fresh l s :
  (∀ id, id ∈ begun_ids (trace l s) → id ∉ dom (sessions s))
  ∧ (∀ k, k ∈ begun_commitments (trace l s) → k ∉ used_nonce_commitments s)
  ∧ (∀ id, id ∈ combined_ids (trace l s) → id ∉ consumed_sessions s)
  ∧ NoDup (begun_ids (trace l s)) ∧ NoDup (begun_commitments (trace l s)) ∧ NoDup (combined_ids (trace l s))
  ∧ ∀ id o n, CombinedEv id o n ∈ trace l s → (gk_t (group s) ≤ o)%nat ∧ n = gk_t (group s).
Proof.
  revert s. induction l as [|c l IH]; intros s; cbn [trace].
  { repeat split; try apply NoDup_nil_2; set_solver. }
  pose proof (tcall_frame c s) as (F1 & F2 & F3 & F4 & Hev). cbv zeta in *.
  destruct (IH (trun c s)) as (H1 & H2 & H3 & H4 & H5 & H6 & H7). rewrite F4 in H7.
  destruct (tev c s) as [|[id k|id o n] [|e r]]; [|..|done| |done].
  - cbn [app]. split; [intros i Hi; specialize (H1 i Hi); set_solver|]. split; [intros i Hi; specialize (H2 i Hi); set_solver|].
    split; [intros i Hi; specialize (H3 i Hi); set_solver|done].
  - destruct Hev as (E1 & E2 & E3 & E4). cbn. split; [|split; [|split; [|split; [|split; [|split]]]]].
    + intros i [->|Hi]%elem_of_cons; [done|]. specialize (H1 i Hi). set_solver.
    + intros i [->|Hi]%elem_of_cons; [done|]. specialize (H2 i Hi). set_solver.
    + intros i Hi. specialize (H3 i Hi). set_solver.
    + apply NoDup_cons. split; [|done]. intros Hi. by specialize (H1 id Hi).
    + apply NoDup_cons. split; [|done]. intros Hi. by specialize (H2 k Hi).
    + done.
    + intros id' o n [H|H]%elem_of_cons; [done|]. by apply H7 in H.
  - destruct Hev as (E1 & E2 & E3 & E4). cbn. split; [|split; [|split; [|split; [|split; [|split]]]]].
    + intros i Hi. specialize (H1 i Hi). set_solver.
    + intros i Hi. specialize (H2 i Hi). set_solver.
    + intros i [->|Hi]%elem_of_cons; [done|]. specialize (H3 i Hi). set_solver.
    + done.
    + done.
    + apply NoDup_cons. split; [|done]. intros Hi. by specialize (H3 id Hi).
    + intros id' o' n' [[= -> -> ->]|H]%elem_of_cons; [done|]. by apply H7 in H.
Qed.

(** Signing sessions are used once: over any sequence of calls on a node's threshold state, a session
    id is begun at most once and combined at most once, no nonce commitment is bound by two begins,
    and every combination happened with at least [t] vaults online and over exactly [t] partials. *)
Theorem sessions_used_once g share all l :
  let tr := trace l (threshold_new g share all) in
  NoDup (begun_ids tr) ∧ NoDup (begun_commitments tr) ∧ NoDup (combined_ids tr)
  ∧ ∀ id o n, CombinedEv id o n ∈ tr → (gk_t g ≤ o)%nat ∧ n = gk_t g.
Proof. cbv zeta. destruct (trace_fresh l (threshold_new g share all)) as (_ & _ & _ & ? & ? & ? & ?). done. Qed.

(* ------------------------------------------------------------------ *)
(** ** The lab quorum signature *)

Lemma collected_points id m l : map (λ p, (p_index p, p_partial_value p)) (map (make_partial id m) l)
  = map (λ s, (sh_index s, p_partial_value (make_partial id m s))) l.
Proof. by rewrite map_map. Qed.

Lemma interpolate_total pts : pts ≠ [] → distinct (pts.*1) → ∃ r, interpolate_secret pts = Ok r.
Proof.
  intros Hne Hd. destruct (interpolate_loop_spec pts 0 pts 0 Hd eq_refl) as (ws & r & Hr & _).
  exists r. by destruct pts.
Qed.

(** Fail-stop and liveness of the lab signature: with shares from a DKG run of at most 255
    participants, signing stops with [FailStop] when fewer than [t] vaults are online, and with at
    least [t] online it succeeds for every session id and message not used before whose nonce
    commitment is fresh: it returns a signature of that session and message by the first [t] share
    indices and leaves the session consumed. *)
Theorem quorum_sign_succeeds active t entropy g shares share s online id m :
  (length active ≤ 255)%nat → run_dkg active t entropy = Ok (g, shares) →
  group s = g → lab_all_shares s = shares → local_share s = share →
  ((online < t)%nat → run_lab_quorum_sign online id m s = (s, Err (fail_stop online t)))
  ∧ ((t ≤ online)%nat → id ∉ consumed_sessions s → sessions s !! id = None →
     nonce_commitment (derive_nonce id m (sh_value share)) (sh_index share) ∉ used_nonce_commitments s →
     ∃ s' v, run_lab_quorum_sign online id m s
       = (s', Ok {| cs_session_id := id; cs_message_hash := m; cs_value := v;
                    cs_participants := map (λ k, Z.of_nat k + 1) (seq 0 t) |})
       ∧ id ∈ consumed_sessions s').
Proof.
  intros Hn (H2 & Ht & Hgn & Hgt & Hsh)%run_dkg_ok Hg Hall Hloc.
  destruct (dkg_shares_spec (map (dkg_coeffs t entropy) active) 0 active Hn) as (l & Hl & Hlen & Hs).
  rewrite Hsh in Hl. injection Hl as <-.
  unfold run_lab_quorum_sign, begin_session, lab_collect_partials_from_all, combine.
  cbv [mret mbind cmd_ret cmd_bind get update fail lift ok_or]. rewrite Hg, Hgt. split.
  { intros Ho. by rewrite (proj2 (Nat.ltb_lt online t) Ho). }
  intros Ho Hc Hss Hk. rewrite (proj2 (Nat.ltb_ge online t) Ho). rewrite bool_decide_false by done.
  rewrite Hss. rewrite bool_decide_false by (by intros [? ?]). cbn [orb]. rewrite Hloc. rewrite bool_decide_false by done.
  cbn [set_sessions set_used group sessions lab_all_shares consumed_sessions local_share].
  rewrite Hg, Hgt, (proj2 (Nat.ltb_ge online t) Ho), lookup_insert_eq. cbn [ss_message_hash partials].
  cbn [set_sessions set_used group sessions lab_all_shares consumed_sessions local_share].
  rewrite Hg, Hgt, (proj2 (Nat.ltb_ge online t) Ho), lookup_insert_eq. cbn [ss_message_hash partials].
  rewrite bool_decide_false by done. cbn [partials ss_message_hash].
  rewrite Hall, length_map, length_take, Hgn, Hlen.
  rewrite (proj2 (Nat.ltb_ge _ t)) by lia.
  rewrite firstn_map, collected_points. rewrite take_take, Nat.min_l by lia.
  set (pts := map _ (take t shares)).
  assert (pts.*1 = map sh_index (take t shares)) as Hfst.
  { unfold pts. change (map ?f ?k) with (f <$> k). rewrite <- list_fmap_compose. done. }
  assert (map sh_index (take t shares) = map (λ k, Z.of_nat k + 1) (seq 0 t)) as Hidx.
  { apply list_eq. intros k. change (map ?f ?k) with (f <$> k). rewrite !list_lookup_fmap.
    destruct (decide (k < t)%nat) as [Hkt|Hkt].
    - rewrite lookup_take, lookup_seq_lt by done. rewrite decide_True by done.
      destruct (lookup_lt_is_Some_2 shares k) as [sk Hsk]; [lia|]. rewrite Hsk. cbn. f_equal. by apply (Hs k sk).
    - rewrite lookup_take, decide_False by done. rewrite lookup_seq_ge by lia. done. }
  destruct (interpolate_total pts) as [v Hv].
  - unfold pts. destruct shares; [simpl in *; lia|]. destruct t; [lia|done].
  - rewrite Hfst, Hidx. intros i j x y Hi Hj Hxy. pose proof lab_prime_big.
    change (map ?f ?k) with (f <$> k) in *. rewrite list_lookup_fmap_Some in Hi, Hj.
    destruct Hi as (a & -> & [-> Ha]%lookup_seq), Hj as (b & -> & [-> Hb]%lookup_seq).
    apply cg_small in Hxy; lia.
  - rewrite Hv. eexists _, v. change (map fst pts) with (pts.*1). rewrite Hfst, Hidx. split; [reflexivity|cbn; set_solver].
Qed.
End session_machine.

(* ------------------------------------------------------------------ *)
(** ** Concrete runs *)

#[local] Existing Instance toy_sha256.
Transparent LAB_PRIME.

Definition lab3 : list NodeId := [ {| node_str := "a" |}; {| node_str := "b" |}; {| node_str := "c" |} ].

Lemma dkg_reconstructs_witness : ∃ g shares, run_dkg lab3 2 (bytes_of "seed") = Ok (g, shares)
  ∧ interpolate_secret (share_points (drop 1 shares)) = Ok (joint_secret lab3 2 (bytes_of "seed")).
Proof.
  eexists _, _. match goal with |- ?A ∧ _ => assert A as Hr by (vm_compute; reflexivity) end.
  split; [exact Hr|].
  destruct (dkg_reconstructs lab3 2 (bytes_of "seed") _ _ ltac:(simpl; lia) Hr) as (_ & _ & H).
  apply H; cbn [drop].
  - intros s Hs. right. exact Hs.
  - apply (bool_decide_unpack _). vm_compute. exact I.
  - cbn [length]. lia.
Defined.

Lemma quorum_sign_succeeds_witness : ∃ g shares share, run_dkg lab3 2 (bytes_of "seed") = Ok (g, shares)
  ∧ shares !! 0%nat = Some share
  ∧ ∃ s' v, run_lab_quorum_sign 2 "s1" "m" (threshold_new g share shares)
       = (s', Ok {| cs_session_id := "s1"; cs_message_hash := "m"; cs_value := v; cs_participants := [1; 2] |})
     ∧ "s1" ∈ consumed_sessions s'.
Proof.
  eexists _, _, _. match goal with |- ?A ∧ _ => assert A as Hr by (vm_compute; reflexivity) end.
  split; [exact Hr|]. split; [reflexivity|].
  refine (proj2 (quorum_sign_succeeds lab3 2 (bytes_of "seed") _ _ _ (threshold_new _ _ _) 2 "s1" "m" _ Hr eq_refl eq_refl eq_refl) _ _ _ _).
  - simpl; lia.
  - lia.
  - apply not_elem_of_empty.
  - apply lookup_empty.
  - apply not_elem_of_empty.
Defined.
