(* ===== verification/Frost.v ===== *)
(** * The FROST crates, the hex codec and the share store's port

    [frost-secp256k1], [frost-secp256k1-tr] and [hex] are external: what the vault
    calls of them is a class, what it relies on a second one. [ShareStorePort]
    ([application/ports.rs]) is the interface of the sealed share stores. *)
From S2P Require Import Prelude RustStr Errors.
Local Open Scope N_scope.

(* ------------------------------------------------------------------ *)
(** ** [hex::encode] and [hex::decode] *)

Class HexCodec := {
  hex_encode : bytes → string;
  hex_decode : string → result string bytes;
}.
(** Two lowercase digits a byte, and decoding inverts encoding. *)
Class HexSpec `{!HexCodec} : Prop := {
  hex_lower b : forallb is_lower_hexdigit (bytes_of (hex_encode b)) = true;
  hex_length b : str_len (hex_encode b) = 2 * len b;
  hex_round b : hex_decode (hex_encode b) = Ok b;
}.

(* ------------------------------------------------------------------ *)
(** ** Key generation of a ciphersuite. Errors are their [Display] texts. *)

Class Frost := {
  Identifier : Type;
  Identifier_eq_dec :: EqDecision Identifier;
  Identifier_countable :: Countable Identifier;
  (** [Ord], the order of a [BTreeMap<Identifier, _>]. *)
  id_leb : Identifier → Identifier → bool;
  id_try_from : N → result string Identifier;
  id_serialize : Identifier → bytes;
  id_debug : Identifier → string;
  Rng : Type;
  Round1Secret : Type;
  Round1Package : Type;
  Round2Secret : Type;
  Round2Package : Type;
  KeyPackage : Type;
  PublicKeyPackage : Type;
  VerifyingKey : Type;
  VerifyingKey_eq_dec :: EqDecision VerifyingKey;
  r1_serialize : Round1Package → result string bytes;
  r1_deserialize : bytes → result string Round1Package;
  r2_serialize : Round2Package → result string bytes;
  r2_deserialize : bytes → result string Round2Package;
  kp_serialize : KeyPackage → result string bytes;
  pk_serialize : PublicKeyPackage → result string bytes;
  kp_min_signers : KeyPackage → N;
  pk_min_signers : PublicKeyPackage → option N;
  pk_max_signers : PublicKeyPackage → N;
  verifying_key : PublicKeyPackage → VerifyingKey;
  vk_serialize : VerifyingKey → result string bytes;
  (** [keys::dkg::part1(id, max, min, rng)], [part2(secret, received)], [part3(secret, r1, r2)]. *)
  part1 : Identifier → N → N → Rng → result string (Round1Secret * Round1Package);
  part2 : Round1Secret → gmap Identifier Round1Package →
    result string (Round2Secret * gmap Identifier Round2Package);
  part3 : Round2Secret → gmap Identifier Round1Package → gmap Identifier Round2Package →
    result string (KeyPackage * PublicKeyPackage);
}.

(** A [BTreeMap<Identifier, _>] in iteration order. *)
Definition id_le `{!Frost} {A} (p q : Identifier * A) : Prop := id_leb p.1 q.1 = true.
#[export] Instance id_le_dec `{!Frost} {A} : RelDecision (id_le (A:=A)).
Proof. intros p q. unfold id_le. apply _. Defined.
Definition id_iter `{!Frost} {A} (m : gmap Identifier A) : list (Identifier * A) :=
  merge_sort id_le (map_to_list m).

Lemma elem_of_id_iter `{!Frost} {A} (m : gmap Identifier A) i x : (i, x) ∈ id_iter m ↔ m !! i = Some x.
Proof. unfold id_iter. rewrite merge_sort_Permutation. apply elem_of_map_to_list. Qed.

(** Identifiers are the nonzero scalars; packages survive their encoding. *)
Class FrostCodec `{!Frost} : Prop := {
  id_zero : ∃ e, id_try_from 0 = Err e;
  id_total v : 0 < v ≤ u16_max → ∃ i, id_try_from v = Ok i;
  id_inj v w i : v ≤ u16_max → w ≤ u16_max → id_try_from v = Ok i → id_try_from w = Ok i → v = w;
  r1_round p : ∃ b, r1_serialize p = Ok b ∧ r1_deserialize b = Ok p;
  r2_round p : ∃ b, r2_serialize p = Ok b ∧ r2_deserialize b = Ok p;
  kp_total k : ∃ b, kp_serialize k = Ok b;
  pk_total k : ∃ b, pk_serialize k = Ok b;
}.

(** The packages addressed to [i] among the outputs of everyone's [part2]. *)
Definition inbox_of `{!Frost} {S} (outs : gmap Identifier (S * gmap Identifier Round2Package))
    (i : Identifier) : gmap Identifier Round2Package :=
  omap (λ so, so.2 !! i) outs.

(** Key generation among participants who all follow the protocol: every call
    succeeds, [part2] addresses everyone else, and all obtain the same public key
    package, of the threshold and size asked for. *)
Class FrostDkg `{!Frost} : Prop := {
  part1_ok i n t r : 2 ≤ t ≤ n → ∃ sp, part1 i n t r = Ok sp;
  dkg_correct (n t : N) (own : gmap Identifier (Round1Secret * Round1Package)) :
    2 ≤ t ≤ n → N.of_nat (size own) = n →
    (∀ i sp, own !! i = Some sp → ∃ r, part1 i n t r = Ok sp) →
    ∃ (outs : gmap Identifier (Round2Secret * gmap Identifier Round2Package)) pk,
      dom outs = dom own ∧
      (∀ i sp so, own !! i = Some sp → outs !! i = Some so →
         part2 sp.1 (delete i (snd <$> own)) = Ok so ∧ dom so.2 = dom own ∖ {[i]}) ∧
      (∀ i so, outs !! i = Some so → ∃ kp,
         part3 so.1 (delete i (snd <$> own)) (inbox_of outs i) = Ok (kp, pk) ∧ kp_min_signers kp = t) ∧
      (pk_min_signers pk = Some t ∨ pk_min_signers pk = None) ∧ pk_max_signers pk = n;
}.

(* ------------------------------------------------------------------ *)
(** ** [ShareStorePort] *)

Class ShareStore (T : Type) := {
  put_share : string → bytes → dcmd T unit;
  get_share : string → dcmd T bytes;
}.
(** A store of sealed blobs keyed by name; [working] are the states in which its
    medium takes writes, [share_at] what it holds. *)
Class ShareStoreSpec (T : Type) `{!ShareStore T} := {
  working : T → Prop;
  share_at : T → string → option bytes;
  put_ok (s : T) id b : working s → ∃ s', put_share id b s = (s', Ok tt) ∧ working s' ∧
    ∀ i, share_at s' i = if decide (i = id) then Some b else share_at s i;
  get_ok (s : T) id b : share_at s id = Some b → get_share id s = (s, Ok b);
}.
