(* ===== verification/HybridEnvelope.v ===== *)
(** * Hybrid envelopes ([domain/hybrid_envelope.rs], [adapters/hybrid_envelope.rs])

    The header check of an envelope, the encodings the adapter derives keys from,
    and what its two methods do today. *)
From S2P Require Import Prelude RustStr Errors Identity DayEpoch.
Local Open Scope N_scope.

Record HybridContext := mk_hybrid_context {
  domain_separator : string;
  transcript_hash : bytes;
  ctx_suite_id : string;
  ctx_sender_id : NodeId;
  ctx_receiver_id : NodeId;
  ctx_epoch : DayEpoch;
}.

Record HybridEnvelope := mk_hybrid_envelope {
  format_version : N;
  suite_id : string;
  key_epoch : DayEpoch;
  sender_id : NodeId;
  receiver_id : NodeId;
  sender_eph_pk : bytes;
  kem_ciphertext : bytes;
  env_nonce : bytes;
  ciphertext : bytes;
  classical_signature : bytes;
  pq_signature : bytes;
}.
#[export] Instance HybridEnvelope_eq_dec : EqDecision HybridEnvelope.
Proof. solve_decision. Defined.

Definition CURRENT_FORMAT_VERSION : N := 1.
Definition SUITE_ID : string := "hybrid-x25519-mlkem768-aes256gcm".
Definition DOMAIN_SEPARATOR : string := "KEROSENE-VAULT-MESH-HYBRID-V1".

Definition zero_key : bytes := replicate 32 (Ascii.ascii_of_N 0).
Definition is_empty (l : bytes) : bool := match l with [] => true | _ => false end.

Definition validate_header (e : HybridEnvelope) : res unit :=
  if negb (format_version e =? CURRENT_FORMAT_VERSION) then
    Err (InvalidIntent (format "unknown envelope format_version: {}" [show (format_version e)]))
  else if negb (bool_decide (suite_id e = SUITE_ID)) then
    Err (InvalidIntent (format "unknown suite_id: {}" [suite_id e]))
  else if bool_decide (sender_eph_pk e = zero_key) then Err (InvalidIntent "sender_eph_pk is all-zero")
  else if is_empty (kem_ciphertext e) then Err (InvalidIntent "kem_ciphertext is empty")
  else if is_empty (ciphertext e) then Err (InvalidIntent "ciphertext is empty")
  else if is_empty (classical_signature e) then Err (InvalidIntent "classical_signature missing")
  else if is_empty (pq_signature e) then Err (InvalidIntent "pq_signature missing")
  else Ok tt.

(** [u32::to_be_bytes]. *)
Definition be32 (n : N) : bytes :=
  [Ascii.ascii_of_N (n / 16777216 mod 256); Ascii.ascii_of_N (n / 65536 mod 256);
   Ascii.ascii_of_N (n / 256 mod 256); Ascii.ascii_of_N (n mod 256)].
(** [s.len() as u32] in front of the bytes. *)
Definition len_prefixed (b : bytes) : bytes := be32 (len b mod 4294967296) ++ b.

Definition build_ikm (ss_classical ss_pq : bytes) : bytes := be32 32 ++ ss_classical ++ be32 32 ++ ss_pq.

Definition deterministic_encode_context (c : HybridContext) : bytes :=
  len_prefixed (bytes_of (domain_separator c)) ++ transcript_hash c
  ++ len_prefixed (bytes_of (ctx_suite_id c)) ++ len_prefixed (bytes_of (node_str (ctx_sender_id c)))
  ++ len_prefixed (bytes_of (node_str (ctx_receiver_id c))) ++ len_prefixed (bytes_of (day_str (ctx_epoch c))).

(** The two methods of the port; the keys they would need are not injected yet. *)
Definition envelope_seal (plaintext : bytes) (c : HybridContext) : res HybridEnvelope :=
  Err (ProductionGate "HybridEnvelopeAdapter::seal requires receiver_x25519_pk injection").
Definition envelope_open (e : HybridEnvelope) (c : HybridContext) : res bytes :=
  _ ← validate_header e;
  if negb (bool_decide (day_str (key_epoch e) = day_str (ctx_epoch c))) then
    Err (DayEpochStale (day_str (key_epoch e)) (day_str (ctx_epoch c)))
  else Err (ProductionGate "HybridEnvelopeAdapter::open requires receiver private keys injection").

(* ------------------------------------------------------------------ *)
(** ** Big-endian lengths *)

(** [u32::from_be_bytes]. *)
Definition from_be32 (b : bytes) : N := foldl (λ acc a, acc * 256 + byte_n a) 0 b.

Lemma byte_n_ascii n : n < 256 → byte_n (Ascii.ascii_of_N n) = n.
Proof. intros. apply Ascii.N_ascii_embedding. done. Qed.

Lemma byte_n_lt a : byte_n a < 256.
Proof. apply Ascii.N_ascii_bounded. Qed.

Lemma from_be32_be32 n : n < 4294967296 → from_be32 (be32 n) = n.
Proof.
  intros H. unfold from_be32, be32. cbn [foldl].
  rewrite !byte_n_ascii by (apply N.mod_lt; discriminate).
  rewrite (N.mod_small (n / 16777216)) by (apply N.Div0.div_lt_upper_bound; lia).
  assert (n = 256 * (n / 256) + n mod 256) by (apply N.div_mod; lia).
  assert (n / 256 = 256 * (n / 65536) + n / 256 mod 256).
  { replace (n / 65536) with (n / 256 / 256) by (rewrite N.Div0.div_div; done). apply N.div_mod. lia. }
  assert (n / 65536 = 256 * (n / 16777216) + n / 65536 mod 256).
  { replace (n / 16777216) with (n / 65536 / 256) by (rewrite N.Div0.div_div; done). apply N.div_mod. lia. }
  lia.
Qed.

Lemma length_be32 n : length (be32 n) = 4%nat.
Proof. done. Qed.

Lemma be32_inj n m : n < 4294967296 → m < 4294967296 → be32 n = be32 m → n = m.
Proof. intros Hn Hm E. rewrite <- (from_be32_be32 n), <- (from_be32_be32 m) by done. by rewrite E. Qed.

(** A length-prefixed field can be read off the front of a buffer. *)
Lemma len_prefixed_app_inj a b x y : len a < 4294967296 → len b < 4294967296 →
  len_prefixed a ++ x = len_prefixed b ++ y → a = b ∧ x = y.
Proof.
  intros Ha Hb E. unfold len_prefixed in E. rewrite !N.mod_small in E by done.
  rewrite <- !app_assoc in E. apply app_inj_1 in E as [E1 E2]; [|done].
  apply be32_inj in E1; [|done..]. apply app_inj_1 in E2; [done|]. unfold len in E1. lia.
Qed.

(* ------------------------------------------------------------------ *)
(** ** Properties *)

Definition short_strings (c : HybridContext) : Prop :=
  str_len (domain_separator c) < 4294967296 ∧ str_len (ctx_suite_id c) < 4294967296 ∧
  str_len (node_str (ctx_sender_id c)) < 4294967296 ∧ str_len (node_str (ctx_receiver_id c)) < 4294967296 ∧
  str_len (day_str (ctx_epoch c)) < 4294967296.

Lemma len_bytes_of s : len (bytes_of s) = str_len s.
Proof. unfold len, str_len. by rewrite length_bytes_of. Qed.

Lemma bytes_of_inj s t : bytes_of s = bytes_of t → s = t.
Proof. intros E. rewrite <- (str_of_bytes_of s), <- (str_of_bytes_of t). by rewrite E. Qed.

(** C30 The context that envelopes are bound to is encoded injectively: two contexts
    of string lengths below 2^32 with the same encoding are the same context, so
    no field can be moved into its neighbour. *)
Theorem context_encoding_injective c d :
  length (transcript_hash c) = 48%nat → length (transcript_hash d) = 48%nat →
  short_strings c → short_strings d →
  deterministic_encode_context c = deterministic_encode_context d → c = d.
Proof.
  destruct c as [c1 ct c2 [c3] [c4] [c5]], d as [d1 dt d2 [d3] [d4] [d5]].
  unfold short_strings, deterministic_encode_context. simpl.
  intros Lc Ld (C1 & C2 & C3 & C4 & C5) (D1 & D2 & D3 & D4 & D5) E.
  rewrite <- len_bytes_of in C1, C2, C3, C4, C5, D1, D2, D3, D4, D5.
  apply len_prefixed_app_inj in E as [?%bytes_of_inj E]; [|done..].
  apply app_inj_1 in E as [-> E]; [|congruence].
  apply len_prefixed_app_inj in E as [?%bytes_of_inj E]; [|done..].
  apply len_prefixed_app_inj in E as [?%bytes_of_inj E]; [|done..].
  apply len_prefixed_app_inj in E as [?%bytes_of_inj E]; [|done..].
  rewrite <- (app_nil_r (len_prefixed (bytes_of c5))), <- (app_nil_r (len_prefixed (bytes_of d5))) in E.
  apply len_prefixed_app_inj in E as [?%bytes_of_inj _]; [|done..]. by subst.
Qed.

Definition sample_context (receiver : string) : HybridContext :=
  {| domain_separator := DOMAIN_SEPARATOR; transcript_hash := replicate 48 "a"%char; ctx_suite_id := SUITE_ID;
     ctx_sender_id := mk_node_id "vault-1"; ctx_receiver_id := mk_node_id receiver;
     ctx_epoch := mk_day_epoch "2026-01-01" |}.

Lemma context_encoding_injective_witness : sample_context "vault-2" = sample_context ("vault-" +:+ "2").
Proof.
  apply context_encoding_injective; [reflexivity..| | |vm_compute; reflexivity];
    (split; [|split; [|split; [|split]]]); vm_compute; reflexivity.
Defined.

Lemma validate_header_ok e : validate_header e = Ok tt →
  format_version e = 1 ∧ suite_id e = SUITE_ID ∧ sender_eph_pk e ≠ zero_key ∧
  kem_ciphertext e ≠ [] ∧ ciphertext e ≠ [] ∧ classical_signature e ≠ [] ∧ pq_signature e ≠ [].
Proof.
  unfold validate_header, CURRENT_FORMAT_VERSION. rewrite !guard_ok. intros H. destruct_and?. nbool.
  repeat split; try done; intros E; rewrite E in *; done.
Qed.

(** Both methods of the adapter fail on every input. *)
Lemma envelope_never_opens e c : is_ok (envelope_open e c) = false.
Proof. unfold envelope_open. destruct (validate_header e); simpl; [|done]. by case_match. Qed.
