(* ===== verification/WireDkg.v ===== *)
(** * Over-wire key generation ([adapters/dkg_wire.rs], rounds of [adapters/dkg_tr_wire.rs])

    One vault's hub: sessions that freeze a constitution, collect the peers'
    packages in two rounds and finish with a local key package. The Taproot hub
    repeats the plain one with other texts, another transcript domain and no
    envelope check; both are the functions below at a [WireSuite]. *)
From S2P Require Import Prelude RustStr Errors Identity Frost HybridEnvelope.
Local Open Scope N_scope.

Inductive WireDkgPhase := Round1 | Round2 | Complete.
#[export] Instance WireDkgPhase_eq_dec : EqDecision WireDkgPhase.
Proof. solve_decision. Defined.
Definition dkg_phase_str (p : WireDkgPhase) : string :=
  match p with Round1 => "round1" | Round2 => "round2" | Complete => "complete" end.

Record Round1WireMessage := mk_r1m {
  r1m_session_id : string;
  r1m_sender_node_id : string;
  r1m_sender_identifier : N;
  r1m_max_signers : N;
  r1m_min_signers : N;
  r1m_transcript_hex : string;
  r1m_package_hex : string;
  r1m_envelope : option HybridEnvelope;
}.

Record Round2WireMessage := mk_r2m {
  r2m_session_id : string;
  r2m_sender_node_id : string;
  r2m_sender_identifier : N;
  r2m_recipient_node_id : string;
  r2m_recipient_identifier : N;
  r2m_transcript_hex : string;
  r2m_package_hex : string;
  r2m_envelope : option HybridEnvelope;
}.

Record DkgStartRequest := mk_start {
  sr_session_id : string;
  sr_max_signers : N;
  sr_min_signers : N;
  sr_roster : list string;
}.

Record WireDkgStatus := mk_dkg_status {
  ds_session_id : string;
  ds_phase : string;
  ds_local_node_id : string;
  ds_local_identifier : N;
  ds_max_signers : N;
  ds_min_signers : N;
  ds_transcript_hex : string;
  ds_round1_received : N;
  ds_round2_received : N;
  ds_complete : bool;
  ds_verifying_key_hex : option string;
}.

(** What distinguishes the two hubs: the markers in their texts, the name of the
    crate, the transcript's domain, the check of the optional envelope. *)
Record WireSuite := mk_wire_suite {
  up : string;
  low : string;
  frost_name : string;
  transcript_domain : string;
  checks_envelope : bool;
}.
Definition plain_suite : WireSuite := mk_wire_suite "" "" "frost" "kerosene-dkg-wire-v1|" true.
Definition tr_suite : WireSuite := mk_wire_suite "TR " "tr " "frost-tr" "kerosene-dkg-tr-wire-v1|" false.

Section hub.
Context `{FR : Frost, HX : HexCodec, SH : Sha256}.

Record SessionInner := mk_session {
  session_id : string;
  local_node_id : string;
  local_identifier : Identifier;
  max_signers : N;
  min_signers : N;
  roster : gmap string Identifier;
  transcript_hex : string;
  roster_closed : bool;
  phase : WireDkgPhase;
  round1_secret : option Round1Secret;
  round1_packages : gmap Identifier Round1Package;
  round2_secret : option Round2Secret;
  round2_inbox : gmap Identifier Round2Package;
  round2_outbound : gmap Identifier Round2Package;
  key_package : option KeyPackage;
  pubkey_package : option PublicKeyPackage;
}.

Definition set_round1_secret (x : option Round1Secret) (s : SessionInner) : SessionInner :=
  {| session_id := session_id s; local_node_id := local_node_id s; local_identifier := local_identifier s;
     max_signers := max_signers s; min_signers := min_signers s; roster := roster s;
     transcript_hex := transcript_hex s; roster_closed := roster_closed s; phase := phase s;
     round1_secret := x; round1_packages := round1_packages s; round2_secret := round2_secret s;
     round2_inbox := round2_inbox s; round2_outbound := round2_outbound s;
     key_package := key_package s; pubkey_package := pubkey_package s |}.
Definition set_round1_packages (f : gmap Identifier Round1Package → gmap Identifier Round1Package)
    (s : SessionInner) : SessionInner :=
  {| session_id := session_id s; local_node_id := local_node_id s; local_identifier := local_identifier s;
     max_signers := max_signers s; min_signers := min_signers s; roster := roster s;
     transcript_hex := transcript_hex s; roster_closed := roster_closed s; phase := phase s;
     round1_secret := round1_secret s; round1_packages := f (round1_packages s); round2_secret := round2_secret s;
     round2_inbox := round2_inbox s; round2_outbound := round2_outbound s;
     key_package := key_package s; pubkey_package := pubkey_package s |}.
Definition set_round2_inbox (f : gmap Identifier Round2Package → gmap Identifier Round2Package)
    (s : SessionInner) : SessionInner :=
  {| session_id := session_id s; local_node_id := local_node_id s; local_identifier := local_identifier s;
     max_signers := max_signers s; min_signers := min_signers s; roster := roster s;
     transcript_hex := transcript_hex s; roster_closed := roster_closed s; phase := phase s;
     round1_secret := round1_secret s; round1_packages := round1_packages s; round2_secret := round2_secret s;
     round2_inbox := f (round2_inbox s); round2_outbound := round2_outbound s;
     key_package := key_package s; pubkey_package := pubkey_package s |}.
Definition set_round2_outbound (m : gmap Identifier Round2Package) (s : SessionInner) : SessionInner :=
  {| session_id := session_id s; local_node_id := local_node_id s; local_identifier := local_identifier s;
     max_signers := max_signers s; min_signers := min_signers s; roster := roster s;
     transcript_hex := transcript_hex s; roster_closed := roster_closed s; phase := phase s;
     round1_secret := round1_secret s; round1_packages := round1_packages s; round2_secret := round2_secret s;
     round2_inbox := round2_inbox s; round2_outbound := m;
     key_package := key_package s; pubkey_package := pubkey_package s |}.
(** The five assignments after [part2]. *)
Definition enter_round2 (secret : Round2Secret) (outbound : gmap Identifier Round2Package)
    (s : SessionInner) : SessionInner :=
  {| session_id := session_id s; local_node_id := local_node_id s; local_identifier := local_identifier s;
     max_signers := max_signers s; min_signers := min_signers s; roster := roster s;
     transcript_hex := transcript_hex s; roster_closed := true; phase := Round2;
     round1_secret := round1_secret s; round1_packages := round1_packages s; round2_secret := Some secret;
     round2_inbox := round2_inbox s; round2_outbound := outbound;
     key_package := key_package s; pubkey_package := pubkey_package s |}.
(** The assignments of a finalized session. *)
Definition enter_complete (kp : KeyPackage) (pk : PublicKeyPackage) (s : SessionInner) : SessionInner :=
  {| session_id := session_id s; local_node_id := local_node_id s; local_identifier := local_identifier s;
     max_signers := max_signers s; min_signers := min_signers s; roster := roster s;
     transcript_hex := transcript_hex s; roster_closed := roster_closed s; phase := Complete;
     round1_secret := round1_secret s; round1_packages := round1_packages s; round2_secret := None;
     round2_inbox := round2_inbox s; round2_outbound := round2_outbound s;
     key_package := Some kp; pubkey_package := Some pk |}.

(* ------------------------------------------------------------------ *)
(** ** Rosters and the transcript *)

Definition threshold_error (e : string) : DomainError := ThresholdError e.
(** [map_err(|e| ThresholdError(format!("..{e}")))]. *)
Definition frost_call {A} (t : string) (args : list string) (r : result string A) : res A :=
  map_err (λ e, ThresholdError (format t (args ++ [e]))) r.

Definition identifier_from_u16 (w : WireSuite) (v : N) : res Identifier :=
  frost_call "{}identifier {}: {}" [low w; show v] (id_try_from v).

(** The position of an identifier in a roster, counted from 1 in node-id order; 0 when absent. *)
Fixpoint position_of (id : Identifier) (i : N) (l : list (string * Identifier)) : N :=
  match l with
  | [] => 0
  | (_, rid) :: r => if bool_decide (rid = id) then wrap16 (i + 1) else position_of id (i + 1) r
  end.
Definition identifier_to_u16 (m : gmap string Identifier) (id : Identifier) : N :=
  position_of id 0 (bt_iter m).

(** [Vec::dedup]: drop an element equal to the one before it. *)
Fixpoint vec_dedup (l : list string) : list string :=
  match l with
  | [] => []
  | x :: r => x :: match vec_dedup r with
                   | [] => []
                   | y :: r' => if bool_decide (x = y) then r' else y :: r'
                   end
  end.
(** Identifiers in order, from position [i]. *)
Fixpoint assign_ids (w : WireSuite) (i : N) (l : list string) (m : gmap string Identifier) : res (gmap string Identifier) :=
  match l with
  | [] => Ok m
  | node :: r => id ← identifier_from_u16 w (wrap16 (i + 1)); assign_ids w (i + 1) r (<[node := id]> m)
  end.
Definition build_roster (w : WireSuite) (nodes : list string) : res (gmap string Identifier) :=
  let sorted := vec_dedup (merge_sort String.le (trim <$> nodes)) in
  if len sorted <? 2 then Err (ThresholdError (format "{}DKG roster must have >= 2 unique node ids" [up w]))
  else assign_ids w 0 sorted ∅.

Definition transcript_text (w : WireSuite) (session_id : string) (max_signers min_signers : N)
    (roster : gmap string Identifier) : string :=
  format "{}{}|max={}|min={}|roster={}"
    [transcript_domain w; session_id; show max_signers; show min_signers; join "," (bt_keys roster)].
Definition session_transcript (w : WireSuite) (session_id : string) (max_signers min_signers : N)
    (roster : gmap string Identifier) : string :=
  sha256_hex (bytes_of (transcript_text w session_id max_signers min_signers roster)).

Definition assert_threshold (w : WireSuite) (kp : KeyPackage) (pk : PublicKeyPackage) (min max : N) : res unit :=
  if negb (kp_min_signers kp =? min) then
    Err (ThresholdError (format "{}DKG threshold mismatch (ToB): key_package.min_signers={} expected={}"
      [up w; show (kp_min_signers kp); show min]))
  else
    _ ← match pk_min_signers pk with
        | Some pk_min =>
            if negb (pk_min =? min) then
              Err (ThresholdError (format "{}DKG threshold mismatch (ToB): pubkey.min_signers={} expected={}"
                [up w; show pk_min; show min]))
            else Ok tt
        | None => Ok tt
        end;
    if negb (pk_max_signers pk =? max) then
      Err (ThresholdError (format "{}DKG n mismatch: pubkey.max_signers={} expected={}"
        [up w; show (pk_max_signers pk); show max]))
    else Ok tt.

Definition unwrap_or_default (r : result string bytes) : bytes := match r with Ok b => b | Err _ => [] end.
Definition status (s : SessionInner) : WireDkgStatus :=
  {| ds_session_id := session_id s;
     ds_phase := dkg_phase_str (phase s);
     ds_local_node_id := local_node_id s;
     ds_local_identifier := identifier_to_u16 (roster s) (local_identifier s);
     ds_max_signers := max_signers s;
     ds_min_signers := min_signers s;
     ds_transcript_hex := transcript_hex s;
     ds_round1_received := N.of_nat (size (round1_packages s));
     ds_round2_received := N.of_nat (size (round2_inbox s));
     ds_complete := bool_decide (phase s = Complete);
     ds_verifying_key_hex :=
       (λ pk, hex_encode (unwrap_or_default (vk_serialize (verifying_key pk)))) <$> pubkey_package s |}.

(* ------------------------------------------------------------------ *)
(** ** Operations on one session, under the lock *)

Definition advance_to_round2 (w : WireSuite) : dcmd SessionInner unit :=
  s ← get;
  secret ← lift (ok_or (round1_secret s) (ThresholdError (format "missing {}round1 secret" [up w])));
  _ ← update (set_round1_secret None);
  let received := delete (local_identifier s) (round1_packages s) in
  out ← lift (frost_call "{} dkg part2: {}" [frost_name w] (part2 secret received));
  update (enter_round2 out.1 out.2).

(** [round1_packages.len() as u16 == max_signers && round1_secret.is_some() && phase == Round1]. *)
Definition round1_full (s : SessionInner) : bool :=
  (wrap16 (N.of_nat (size (round1_packages s))) =? max_signers s)
  && bool_decide (is_Some (round1_secret s)) && bool_decide (phase s = Round1).

Definition session_ingest_round1 (w : WireSuite) (msg : Round1WireMessage) : dcmd SessionInner WireDkgStatus :=
  s ← get;
  if bool_decide (phase s = Complete) then mret (status s)
  else if negb (r1m_max_signers msg =? max_signers s) || negb (r1m_min_signers msg =? min_signers s) then
    fail (ThresholdError (format
      "{}round1 threshold/min_signers drift rejected (ToB); constitution frozen at start" [up w]))
  else if negb (bool_decide (r1m_transcript_hex msg = transcript_hex s)) then
    fail (ThresholdError (format "{}round1 transcript binding mismatch; abort DKG" [up w]))
  else
    sender_id ← lift (identifier_from_u16 w (r1m_sender_identifier msg));
    expected ← lift (ok_or (roster s !! r1m_sender_node_id msg)
      (ThresholdError (format "{}late join / participant set change rejected: unknown sender {}"
        [up w; r1m_sender_node_id msg])));
    if negb (bool_decide (expected = sender_id)) then
      fail (ThresholdError (format "{}sender {} identifier mismatch" [up w; r1m_sender_node_id msg]))
    else if bool_decide (sender_id = local_identifier s) then mret (status s)
    else if roster_closed s || negb (bool_decide (phase s = Round1)) then
      if bool_decide (is_Some (round1_packages s !! sender_id)) then mret (status s)
      else fail (ThresholdError (format "{}late join rejected: participant set frozen after round1" [up w]))
    else
      b ← lift (frost_call "{}round1 hex: {}" [low w] (hex_decode (r1m_package_hex msg)));
      package ← lift (frost_call "{}round1 deserialize: {}" [low w] (r1_deserialize b));
      _ ← update (set_round1_packages (<[sender_id := package]>));
      s' ← get;
      _ ← (if round1_full s' then advance_to_round2 w else mret tt);
      s'' ← get;
      mret (status s'').

Definition session_ingest_round2 (w : WireSuite) (msg : Round2WireMessage) : dcmd SessionInner WireDkgStatus :=
  s ← get;
  if bool_decide (phase s = Complete) then mret (status s)
  else if negb (bool_decide (r2m_transcript_hex msg = transcript_hex s)) then
    fail (ThresholdError (format "{}round2 transcript binding mismatch; abort DKG" [up w]))
  else if negb (bool_decide (r2m_recipient_node_id msg = local_node_id s)) then
    fail (ThresholdError (format "{}round2 package not addressed to this vault" [up w]))
  else
    sender_id ← lift (identifier_from_u16 w (r2m_sender_identifier msg));
    expected ← lift (ok_or (roster s !! r2m_sender_node_id msg)
      (ThresholdError (format "{}late join / participant set change rejected: unknown round2 sender {}"
        [up w; r2m_sender_node_id msg])));
    if negb (bool_decide (expected = sender_id)) then
      fail (ThresholdError (format "{}round2 sender {} identifier mismatch" [up w; r2m_sender_node_id msg]))
    else
      b ← lift (frost_call "{}round2 hex: {}" [low w] (hex_decode (r2m_package_hex msg)));
      package ← lift (frost_call "{}round2 deserialize: {}" [low w] (r2_deserialize b));
      _ ← update (set_round2_inbox (<[sender_id := package]>));
      s' ← get;
      mret (status s').

(** One outgoing message per package, in identifier order; the first failure ends the loop. *)
Fixpoint round2_messages (w : WireSuite) (s : SessionInner) (sid : string)
    (l : list (Identifier * Round2Package)) : res (list Round2WireMessage) :=
  match l with
  | [] => Ok []
  | (recipient_id, package) :: r =>
      recipient ← ok_or (list_find (λ p, p.2 = recipient_id) (bt_iter (roster s)))
        (ThresholdError (format "unknown {}recipient id {}" [up w; id_debug recipient_id]));
      b ← frost_call "{}round2 serialize: {}" [low w] (r2_serialize package);
      rest ← round2_messages w s sid r;
      mret ({| r2m_session_id := sid;
               r2m_sender_node_id := local_node_id s;
               r2m_sender_identifier := identifier_to_u16 (roster s) (local_identifier s);
               r2m_recipient_node_id := recipient.2.1;
               r2m_recipient_identifier := identifier_to_u16 (roster s) recipient_id;
               r2m_transcript_hex := transcript_hex s;
               r2m_package_hex := hex_encode b;
               r2m_envelope := None |} :: rest)
  end.
Definition session_take_round2 (w : WireSuite) (sid : string) : dcmd SessionInner (list Round2WireMessage) :=
  s ← get;
  _ ← update (set_round2_outbound ∅);
  lift (round2_messages w s sid (id_iter (round2_outbound s))).

(** The checks of the finalization, up to the new keys. *)
Definition finalize_keys (w : WireSuite) (s : SessionInner) : res (KeyPackage * PublicKeyPackage) :=
  let need := sat_sub (max_signers s) 1 in
  let have := N.of_nat (size (round2_inbox s)) in
  if have <? need then
    Err (ThresholdError (format "{}round2 incomplete: have {} need {}" [up w; show have; show need]))
  else
    r2_secret ← ok_or (round2_secret s) (ThresholdError (format "missing {}round2 secret" [up w]));
    let r1_received := delete (local_identifier s) (round1_packages s) in
    keys ← frost_call "{} dkg part3: {}" [frost_name w] (part3 r2_secret r1_received (round2_inbox s));
    _ ← assert_threshold w keys.1 keys.2 (min_signers s) (max_signers s);
    mret keys.

(* ------------------------------------------------------------------ *)
(** ** The hub *)

Record WireDkgHub := mk_hub {
  hub_node_id : string;
  sessions : gmap string SessionInner;
  completed : option (KeyPackage * PublicKeyPackage * N);
}.
Definition set_session (sid : string) (s : SessionInner) (h : WireDkgHub) : WireDkgHub :=
  {| hub_node_id := hub_node_id h; sessions := <[sid := s]> (sessions h); completed := completed h |}.
Definition hub_new (node : string) : WireDkgHub := mk_hub node ∅ None.

(** Run a body on a session of the hub; what it changed stays changed when it fails. *)
Definition with_session {A} (sid : string) (unknown : DomainError) (c : dcmd SessionInner A) : dcmd WireDkgHub A :=
  λ h, match sessions h !! sid with
       | Some s => let '(s', r) := c s in (set_session sid s' h, r)
       | None => (h, Err unknown)
       end.
Definition unknown_session (w : WireSuite) (sid : string) : DomainError :=
  ThresholdError (format "unknown {}DKG session: {}" [up w; sid]).

Definition hub_status (w : WireSuite) (sid : string) (h : WireDkgHub) : res WireDkgStatus :=
  status <$> ok_or (sessions h !! sid) (unknown_session w sid).
Definition completed_local (h : WireDkgHub) : option (KeyPackage * PublicKeyPackage * N) := completed h.

(** Parameters, roster and transcript of a start request. *)
Definition start_check (w : WireSuite) (req : DkgStartRequest) : res (gmap string Identifier * string) :=
  if (sr_max_signers req <? 2) || (sr_min_signers req <? 2) || (sr_max_signers req <? sr_min_signers req) then
    Err (ThresholdError (format "bad {}frost DKG params: max={} min={}"
      [up w; show (sr_max_signers req); show (sr_min_signers req)]))
  else
    roster ← build_roster w (sr_roster req);
    if negb (wrap16 (N.of_nat (size roster)) =? sr_max_signers req) then
      Err (ThresholdError (format "{}roster len {} != max_signers {}"
        [up w; show (N.of_nat (size roster)); show (sr_max_signers req)]))
    else Ok (roster, session_transcript w (sr_session_id req) (sr_max_signers req) (sr_min_signers req) roster).

Definition round1_message (s : SessionInner) (package_hex : string) : Round1WireMessage :=
  {| r1m_session_id := session_id s;
     r1m_sender_node_id := local_node_id s;
     r1m_sender_identifier := identifier_to_u16 (roster s) (local_identifier s);
     r1m_max_signers := max_signers s;
     r1m_min_signers := min_signers s;
     r1m_transcript_hex := transcript_hex s;
     r1m_package_hex := package_hex;
     r1m_envelope := None |}.

(** A start of a session that exists: the same message again, when nothing drifted. *)
Definition start_existing (w : WireSuite) (existing : SessionInner) (req : DkgStartRequest)
    (rst : gmap string Identifier) (transcript : string) : res (WireDkgStatus * Round1WireMessage) :=
  if negb (bool_decide (transcript_hex existing = transcript))
     || negb (max_signers existing =? sr_max_signers req)
     || negb (min_signers existing =? sr_min_signers req)
     || negb (bool_decide (roster existing = rst)) then
    Err (ThresholdError (format "{}DKG participants/threshold frozen at round1; constitution drift rejected" [up w]))
  else
    package ← ok_or (round1_packages existing !! local_identifier existing)
      (ThresholdError (format "missing local {}round1 package" [up w]));
    b ← frost_call "{}round1 serialize: {}" [low w] (r1_serialize package);
    mret (status existing, round1_message existing (hex_encode b)).

(** A new session: [part1], its message, nothing stored yet. *)
Definition start_new (w : WireSuite) (node : string) (req : DkgStartRequest)
    (rst : gmap string Identifier) (transcript : string) (rng : Rng) : res (SessionInner * Round1WireMessage) :=
  local_id ← ok_or (rst !! node)
    (ThresholdError (format "local node {} missing from {}DKG roster" [node; up w]));
  sp ← frost_call "{} dkg part1: {}" [frost_name w]
    (part1 local_id (sr_max_signers req) (sr_min_signers req) rng);
  b ← frost_call "{}round1 serialize: {}" [low w] (r1_serialize sp.2);
  let inner :=
    {| session_id := sr_session_id req; local_node_id := node; local_identifier := local_id;
       max_signers := sr_max_signers req; min_signers := sr_min_signers req; roster := rst;
       transcript_hex := transcript; roster_closed := false; phase := Round1;
       round1_secret := Some sp.1; round1_packages := {[local_id := sp.2]}; round2_secret := None;
       round2_inbox := ∅; round2_outbound := ∅; key_package := None; pubkey_package := None |} in
  mret (inner, round1_message inner (hex_encode b)).

(** The code looks the session up, unlocks, runs [part1] and locks again to insert. *)
Inductive StartPlan :=
| Respond (out : WireDkgStatus * Round1WireMessage)
| Insert (inner : SessionInner) (wire : Round1WireMessage).
Definition start_plan (w : WireSuite) (req : DkgStartRequest) (rng : Rng) (h : WireDkgHub) : res StartPlan :=
  rt ← start_check w req;
  match sessions h !! sr_session_id req with
  | Some existing => Respond <$> start_existing w existing req rt.1 rt.2
  | None => p ← start_new w (hub_node_id h) req rt.1 rt.2 rng; mret (Insert p.1 p.2)
  end.
Definition start_commit (sid : string) (p : StartPlan) : dcmd WireDkgHub (WireDkgStatus * Round1WireMessage) :=
  match p with
  | Respond out => mret out
  | Insert inner wire => _ ← update (set_session sid inner); mret (status inner, wire)
  end.
(** [start] without another start of the session in between. *)
Definition start (w : WireSuite) (req : DkgStartRequest) (rng : Rng) :
    dcmd WireDkgHub (WireDkgStatus * Round1WireMessage) :=
  h ← get;
  p ← lift (start_plan w req rng h);
  start_commit (sr_session_id req) p.

Definition check_envelope (w : WireSuite) (round : string) (e : option HybridEnvelope) : res unit :=
  match e with
  | Some env =>
      if checks_envelope w then
        map_err (λ x, ThresholdError (format "{} hybrid envelope validation failed: {}" [round; fmt_error x]))
          (validate_header env)
      else Ok tt
  | None => Ok tt
  end.

Definition ingest_round1 (w : WireSuite) (msg : Round1WireMessage) : dcmd WireDkgHub WireDkgStatus :=
  _ ← lift (check_envelope w "round1" (r1m_envelope msg));
  with_session (r1m_session_id msg)
    (ThresholdError (format "unknown {}DKG session {} (start locally first)" [up w; r1m_session_id msg]))
    (session_ingest_round1 w msg).

Definition ingest_round2 (w : WireSuite) (msg : Round2WireMessage) : dcmd WireDkgHub WireDkgStatus :=
  _ ← lift (check_envelope w "round2" (r2m_envelope msg));
  with_session (r2m_session_id msg) (unknown_session w (r2m_session_id msg)) (session_ingest_round2 w msg).

Definition take_round2_outbound (w : WireSuite) (sid : string) : dcmd WireDkgHub (list Round2WireMessage) :=
  with_session sid (unknown_session w sid) (session_take_round2 w sid).

(** The last assignments of both finalizations. *)
Definition complete_session (sid : string) (kp : KeyPackage) (pk : PublicKeyPackage) (s : SessionInner)
    (h : WireDkgHub) : WireDkgHub :=
  {| hub_node_id := hub_node_id h; sessions := <[sid := enter_complete kp pk s]> (sessions h);
     completed := Some (kp, pk, min_signers s) |}.

(** A hub beside the share store its finalization writes to. *)
Definition on_store {T A} (c : dcmd T A) : dcmd (WireDkgHub * T) A := zoom snd (λ t p, (p.1, t)) c.
Definition on_hub {T A} (c : dcmd WireDkgHub A) : dcmd (WireDkgHub * T) A := zoom fst (λ h p, (h, p.2)) c.

(** What a finalization does with the new keys: it may change their form, and stores them. *)
Definition KeySink (T : Type) : Type :=
  SessionInner → KeyPackage → PublicKeyPackage → dcmd T (KeyPackage * PublicKeyPackage).
Definition finalize_with {T} (sink : KeySink T) (w : WireSuite) (sid : string) : dcmd (WireDkgHub * T) WireDkgStatus :=
  hs ← get;
  s ← lift (ok_or (sessions hs.1 !! sid) (unknown_session w sid));
  if bool_decide (phase s = Complete) then mret (status s)
  else
    new ← lift (finalize_keys w s);
    keys ← on_store (sink s new.1 new.2);
    _ ← on_hub (update (complete_session sid keys.1 keys.2 s));
    mret (status (enter_complete keys.1 keys.2 s)).

(** The plain hub stores its own share and the group key. *)
Definition plain_sink {T} `{!ShareStore T} : KeySink T := λ s kp pk,
  b ← lift (frost_call "key package serialize: {}" [] (kp_serialize kp));
  _ ← put_share (format "frost-dkg-id-{}" [hex_encode (id_serialize (local_identifier s))]) b;
  pk_bytes ← lift (frost_call "pubkey serialize: {}" [] (pk_serialize pk));
  _ ← put_share "frost-dkg-pubkey" pk_bytes;
  mret (kp, pk).
Definition finalize_round3 {T} `{!ShareStore T} : WireSuite → string → dcmd (WireDkgHub * T) WireDkgStatus :=
  finalize_with plain_sink.
End hub.

(* ------------------------------------------------------------------ *)
(** ** What no operation changes *)

Section frozen.
Context `{FR : Frost, HX : HexCodec, SH : Sha256}.

Definition constitution (s : SessionInner) :=
  (session_id s, local_node_id s, local_identifier s, max_signers s, min_signers s, roster s, transcript_hex s).
Definition phase_n (p : WireDkgPhase) : nat := match p with Round1 => 0 | Round2 => 1 | Complete => 2 end.

(** [s'] is a later state of the session [s]. *)
Record session_le (s s' : SessionInner) : Prop := {
  le_constitution : constitution s' = constitution s;
  le_phase : (phase_n (phase s) ≤ phase_n (phase s'))%nat;
  le_own : round1_packages s' !! local_identifier s = round1_packages s !! local_identifier s;
  le_round1 : phase s ≠ Round1 → round1_packages s' = round1_packages s;
  le_senders i : is_Some (round1_packages s !! i) → is_Some (round1_packages s' !! i);
  le_keys : phase s = Complete → key_package s' = key_package s ∧ pubkey_package s' = pubkey_package s;
}.

Lemma phase_n_inj p q : phase_n p = phase_n q → p = q.
Proof. by destruct p, q. Qed.

#[export] Instance session_le_preorder : PreOrder session_le.
Proof.
  split; [by split|]. intros s t u [C1 P1 O1 F1 S1 K1] [C2 P2 O2 F2 S2 K2].
  assert (local_identifier t = local_identifier s) as EL by (unfold constitution in C1; congruence).
  rewrite EL in O2. split; [congruence|lia|congruence| |by auto|].
  - intros Hp. rewrite F2, F1; [done..|]. intros E. rewrite E in P1. destruct (phase s); simpl in P1; [done|lia..].
  - intros Hp. assert (phase t = Complete) as Ht.
    { apply phase_n_inj. rewrite Hp in P1. destruct (phase t); simpl in *; lia. }
    destruct (K1 Hp), (K2 Ht). split; congruence.
Qed.

(** A round-1 message that is taken up, and the package it carries. *)
Record accepts_round1 (w : WireSuite) (msg : Round1WireMessage) (s : SessionInner) (id : Identifier)
    (p : Round1Package) : Prop := {
  a1_phase : phase s = Round1;
  a1_open : roster_closed s = false;
  a1_max : r1m_max_signers msg = max_signers s;
  a1_min : r1m_min_signers msg = min_signers s;
  a1_transcript : r1m_transcript_hex msg = transcript_hex s;
  a1_sender : roster s !! r1m_sender_node_id msg = Some id;
  a1_id : id_try_from (r1m_sender_identifier msg) = Ok id;
  a1_peer : id ≠ local_identifier s;
  a1_package : ∃ b, hex_decode (r1m_package_hex msg) = Ok b ∧ r1_deserialize b = Ok p;
}.

(** The four things a round-1 message can do to a session. *)
Inductive ingest1_effect (w : WireSuite) (msg : Round1WireMessage) (s : SessionInner) : SessionInner → Prop :=
| I1_same : ingest1_effect w msg s s
| I1_added id p : accepts_round1 w msg s id p → round1_full (set_round1_packages <[id := p]> s) = false →
    ingest1_effect w msg s (set_round1_packages <[id := p]> s)
| I1_advanced id p secret out : accepts_round1 w msg s id p →
    round1_full (set_round1_packages <[id := p]> s) = true → round1_secret s = Some secret →
    part2 secret (delete (local_identifier s) (<[id := p]> (round1_packages s))) = Ok out →
    ingest1_effect w msg s (enter_round2 out.1 out.2 (set_round1_secret None (set_round1_packages <[id := p]> s)))
| I1_stuck id p secret e : accepts_round1 w msg s id p →
    round1_full (set_round1_packages <[id := p]> s) = true → round1_secret s = Some secret →
    part2 secret (delete (local_identifier s) (<[id := p]> (round1_packages s))) = Err e →
    ingest1_effect w msg s (set_round1_secret None (set_round1_packages <[id := p]> s)).

Lemma frost_call_ok {A} t args (r : result string A) x : frost_call t args r = Ok x ↔ r = Ok x.
Proof. unfold frost_call, map_err. destruct r; naive_solver. Qed.
Lemma frost_call_err {A} t args (r : result string A) e : frost_call t args r = Err e → ∃ x, r = Err x.
Proof. unfold frost_call, map_err. destruct r; naive_solver. Qed.

Lemma session_ingest_round1_effect w msg s : ingest1_effect w msg s (session_ingest_round1 w msg s).1.
Proof.
  unfold session_ingest_round1, get, mbind, cmd_bind, mret, cmd_ret, fail, lift, update. simpl.
  case_bool_decide as Hc; [apply I1_same|]. destruct (negb _ || negb _) eqn:E1; [apply I1_same|].
  destruct (negb (bool_decide _)) eqn:E2; [apply I1_same|].
  destruct (identifier_from_u16 w _) as [id|e] eqn:E3; simpl; [|apply I1_same].
  destruct (roster s !! _) as [x|] eqn:E4; simpl; [|apply I1_same].
  destruct (negb (bool_decide (x = id))) eqn:E5; [apply I1_same|].
  destruct (bool_decide (id = _)) eqn:Hl; [apply I1_same|].
  destruct (roster_closed s || _) eqn:E6; [destruct (bool_decide (is_Some _)); apply I1_same|].
  destruct (frost_call "{}round1 hex: {}" _ _) as [b|e] eqn:E7; simpl; [|apply I1_same].
  destruct (frost_call "{}round1 deserialize: {}" _ _) as [p|e] eqn:E8; simpl; [|apply I1_same].
  apply frost_call_ok in E3, E7, E8. nbool. destruct_and?. nbool. subst.
  assert (accepts_round1 w msg s id p) as Ha by (split; eauto).
  destruct (round1_full _) eqn:E9; simpl; [|by apply I1_added].
  unfold advance_to_round2, get, mbind, cmd_bind, mret, cmd_ret, fail, lift, update. simpl.
  unfold round1_full in E9. nbool. destruct_and?. nbool. simpl in *.
  destruct (round1_secret s) as [secret|] eqn:Es; simpl; [|match goal with H : is_Some None |- _ => by destruct H end].
  destruct (frost_call _ _ _) as [out|e] eqn:E10; simpl.
  - apply frost_call_ok in E10. eapply I1_advanced; eauto. unfold round1_full. simpl.
    rewrite Es. nbool. eauto.
  - apply frost_call_err in E10 as [? ?]. eapply I1_stuck; eauto. unfold round1_full. simpl. rewrite Es. nbool. eauto.
Qed.

(** A round-2 message that is taken up. *)
Record accepts_round2 (w : WireSuite) (msg : Round2WireMessage) (s : SessionInner) (id : Identifier)
    (p : Round2Package) : Prop := {
  a2_phase : phase s ≠ Complete;
  a2_transcript : r2m_transcript_hex msg = transcript_hex s;
  a2_recipient : r2m_recipient_node_id msg = local_node_id s;
  a2_sender : roster s !! r2m_sender_node_id msg = Some id;
  a2_id : id_try_from (r2m_sender_identifier msg) = Ok id;
  a2_package : ∃ b, hex_decode (r2m_package_hex msg) = Ok b ∧ r2_deserialize b = Ok p;
}.
Inductive ingest2_effect (w : WireSuite) (msg : Round2WireMessage) (s : SessionInner) : SessionInner → Prop :=
| I2_same : ingest2_effect w msg s s
| I2_added id p : accepts_round2 w msg s id p → ingest2_effect w msg s (set_round2_inbox <[id := p]> s).

Lemma session_ingest_round2_effect w msg s : ingest2_effect w msg s (session_ingest_round2 w msg s).1.
Proof.
  unfold session_ingest_round2, get, mbind, cmd_bind, mret, cmd_ret, fail, lift, update. simpl.
  case_bool_decide as Hc; [apply I2_same|].
  destruct (negb (bool_decide _)) eqn:E1; [apply I2_same|].
  destruct (negb (bool_decide (r2m_recipient_node_id msg = _))) eqn:E2; [apply I2_same|].
  destruct (identifier_from_u16 w _) as [id|e] eqn:E3; simpl; [|apply I2_same].
  destruct (roster s !! _) as [x|] eqn:E4; simpl; [|apply I2_same].
  destruct (negb (bool_decide (x = id))) eqn:E5; [apply I2_same|].
  destruct (frost_call "{}round2 hex: {}" _ _) as [b|e] eqn:E7; simpl; [|apply I2_same].
  destruct (frost_call "{}round2 deserialize: {}" _ _) as [p|e] eqn:E8; simpl; [|apply I2_same].
  apply frost_call_ok in E3, E7, E8. nbool. subst. apply I2_added. split; eauto.
Qed.

Lemma session_take_round2_effect w sid s : (session_take_round2 w sid s).1 = set_round2_outbound ∅ s.
Proof. done. Qed.

Lemma finalize_keys_ok w s kp pk : finalize_keys w s = Ok (kp, pk) →
  (max_signers s - 1 ≤ N.of_nat (size (round2_inbox s)))%N ∧
  (∃ secret, round2_secret s = Some secret ∧
    part3 secret (delete (local_identifier s) (round1_packages s)) (round2_inbox s) = Ok (kp, pk)) ∧
  kp_min_signers kp = min_signers s ∧ (∀ m, pk_min_signers pk = Some m → m = min_signers s) ∧
  pk_max_signers pk = max_signers s.
Proof.
  unfold finalize_keys, assert_threshold, sat_sub. rewrite guard_ok, bind_ok. intros (Hn & secret & Hs & Hr).
  rewrite ok_or_ok in Hs. rewrite bind_ok in Hr. destruct Hr as ([kp' pk'] & H3%frost_call_ok & Hr).
  rewrite bind_ok in Hr. destruct Hr as (u & Ht & Hr). cbn [fst snd] in *. injection Hr as <- <-.
  rewrite guard_ok in Ht. destruct Ht as [Hk Ht]. rewrite bind_ok in Ht. destruct Ht as (u' & Hm & Ht).
  rewrite guard_ok in Ht. destruct Ht as [Hx _]. nbool. split; [lia|]. split; [by exists secret|].
  split; [done|]. split; [|done]. intros m Em. rewrite Em in Hm. rewrite guard_ok in Hm. nlia.
Qed.

Lemma plain_sink_form {T} `{!ShareStore T} s kp pk (t t' : T) r : plain_sink s kp pk t = (t', Ok r) → r = (kp, pk).
Proof.
  unfold plain_sink, mbind, cmd_bind, lift, mret, cmd_ret. intros H. repeat (case_match; simplify_eq); done.
Qed.

(* ------------------------------------------------------------------ *)
(** ** Every operation leads to a later state *)

Lemma session_ingest_round1_le w msg s : session_le s (session_ingest_round1 w msg s).1.
Proof.
  destruct (session_ingest_round1_effect w msg s) as [|id p Ha _|id p secret out Ha _ _ _|id p secret e Ha _ _ _];
    [reflexivity|..]; destruct Ha; (split; simpl; [done|..]).
  all: try (rewrite lookup_insert_ne by done; done).
  all: try (intros j Hj; destruct (decide (j = id)) as [->|]; [rewrite lookup_insert_eq|rewrite lookup_insert_ne]; by eauto).
  all: try congruence. all: rewrite a1_phase0; simpl; try lia.
Qed.

Lemma session_ingest_round2_le w msg s : session_le s (session_ingest_round2 w msg s).1.
Proof. destruct (session_ingest_round2_effect w msg s); [reflexivity|]. by split. Qed.

Lemma session_take_round2_le w sid s : session_le s (session_take_round2 w sid s).1.
Proof. rewrite session_take_round2_effect. by split. Qed.

Lemma enter_complete_le kp pk s : phase s ≠ Complete → session_le s (enter_complete kp pk s).
Proof. intros Hp. split; simpl; try done. destruct (phase s); simpl; lia. Qed.

(** A later hub: it has every session, in a later state. *)
Definition hub_le (h h' : WireDkgHub) : Prop :=
  hub_node_id h' = hub_node_id h ∧
  ∀ sid s, sessions h !! sid = Some s → ∃ s', sessions h' !! sid = Some s' ∧ session_le s s'.

#[export] Instance hub_le_preorder : PreOrder hub_le.
Proof.
  split.
  - intros h. split; [done|]. intros sid s Hs. exists s. by split.
  - intros h1 h2 h3 [N1 F1] [N2 F2]. split; [congruence|]. intros sid s Hs.
    destruct (F1 sid s Hs) as (s2 & Hs2 & L1). destruct (F2 sid s2 Hs2) as (s3 & Hs3 & L2).
    exists s3. split; [done|]. by etrans.
Qed.

Lemma set_session_le sid s s' h : sessions h !! sid = Some s → session_le s s' → hub_le h (set_session sid s' h).
Proof.
  intros Hs Hle. split; [done|]. intros i x Hx. simpl. destruct (decide (i = sid)) as [->|].
  - rewrite lookup_insert_eq. naive_solver.
  - rewrite lookup_insert_ne by done. exists x. by split.
Qed.

Lemma insert_session_le sid s h : sessions h !! sid = None → hub_le h (set_session sid s h).
Proof.
  intros Hs. split; [done|]. intros i x Hx. simpl. rewrite lookup_insert_ne by (intros ->; congruence).
  exists x. by split.
Qed.

Lemma with_session_le {A} sid e (c : dcmd SessionInner A) h :
  (∀ s, session_le s (c s).1) → hub_le h (with_session sid e c h).1.
Proof.
  intros Hc. unfold with_session. destruct (sessions h !! sid) as [s|] eqn:Hs; [|reflexivity].
  specialize (Hc s). destruct (c s) as [s' r]. by apply (set_session_le _ s).
Qed.
End frozen.
