(* ===== verification/WireRoster.v ===== *)
(** * Rosters and transcripts of the wire key generation

    A roster numbers its sorted node ids from 1; the number a hub puts into its
    messages leads every hub with that roster back to the same identifier. The
    transcript determines the constitution when node ids hold no comma. *)
From S2P Require Import Prelude RustStr Errors Identity Frost HybridEnvelope WireDkg.
Local Open Scope N_scope.

(* ------------------------------------------------------------------ *)
(** ** Sorted lists without repetition *)

Lemma vec_dedup_elem x l : x ∈ vec_dedup l ↔ x ∈ l.
Proof.
  induction l as [|y l IH]; simpl; [done|]. rewrite !elem_of_cons, <- IH.
  destruct (vec_dedup l) as [|z r]; [done|]. case_bool_decide; [subst|done]. rewrite elem_of_cons. naive_solver.
Qed.

Lemma vec_dedup_head l : head (vec_dedup l) = head l.
Proof. by destruct l. Qed.

Lemma vec_dedup_NoDup l : StronglySorted String.le l → NoDup (vec_dedup l).
Proof.
  induction 1 as [|x l Hs IH Hx]; simpl; [apply NoDup_nil_2|].
  pose proof (vec_dedup_elem) as He. destruct (vec_dedup l) as [|y r] eqn:E; [apply NoDup_singleton|].
  apply NoDup_cons in IH as [Hy Hr]. case_bool_decide as Hxy; [subst; by apply NoDup_cons|].
  apply NoDup_cons. split; [|by apply NoDup_cons]. rewrite elem_of_cons. intros [->|Hin]; [done|].
  (* x occurs after y in the sorted rest, while x ≤ y *)
  assert (head l = Some y) as Hh by (rewrite <- vec_dedup_head, E; done).
  destruct l as [|y' l']; [done|]. simpl in Hh. injection Hh as ->.
  apply StronglySorted_inv in Hs as [_ Hy'].
  assert (x ∈ y :: l') as Hxl by (apply He; rewrite E; by right).
  apply elem_of_cons in Hxl as [->|Hxl]; [done|].
  rewrite Forall_forall in Hy', Hx. apply Hxy. apply (anti_symm String.le).
  - apply Hx. by left.
  - by apply Hy'.
Qed.

Lemma vec_dedup_sorted l : StronglySorted String.le l → StronglySorted String.le (vec_dedup l).
Proof.
  induction 1 as [|x l Hs IH Hx]; simpl; [constructor|].
  pose proof (λ z, vec_dedup_elem z l) as He. destruct (vec_dedup l) as [|y r] eqn:E; [repeat constructor|].
  apply StronglySorted_inv in IH as [Hr Hyr]. rewrite Forall_forall in Hx.
  case_bool_decide; [subst; by constructor|]. constructor; [by constructor|].
  rewrite Forall_forall. intros z Hz. by apply Hx, He.
Qed.

Lemma bt_keys_sorted {A} (m : gmap string A) : StronglySorted String.le (bt_keys m).
Proof.
  unfold bt_keys. pose proof (bt_iter_sorted m) as Hb. revert Hb. generalize (bt_iter m). intros l Hb.
  induction Hb as [|p l _ IH Hp]; simpl; constructor; [done|]. apply Forall_fmap. eapply Forall_impl; [apply Hp|done].
Qed.

(** A map built from sorted keys is iterated as it was built. *)
Lemma bt_iter_sorted_list {A} (m : gmap string A) (l : list (string * A)) :
  StronglySorted String.le l.*1 → NoDup l.*1 → (∀ k v, (k, v) ∈ l ↔ m !! k = Some v) → bt_iter m = l.
Proof.
  intros Hs Hn Hm. assert (bt_iter m ≡ₚ l) as Hp.
  { apply NoDup_Permutation.
    - eapply NoDup_fmap_1. apply (NoDup_bt_keys m).
    - by eapply NoDup_fmap_1.
    - intros [k v]. by rewrite elem_of_bt_iter, Hm. }
  assert (bt_keys m = l.*1) as Hk.
  { apply (StronglySorted_unique String.le).
    - apply bt_keys_sorted.
    - done.
    - unfold bt_keys. by rewrite Hp. }
  clear Hs. unfold bt_keys in Hk. revert l Hn Hm Hp Hk.
  assert (∀ l k : list (string * A), l.*1 = k.*1 → NoDup l.*1 → l ≡ₚ k → l = k) as Heq.
  { induction l as [|[a x] l IH]; intros [|[b y] k] E Hl P; simpl in *; try done.
    injection E as -> E. apply NoDup_cons in Hl as [Hb Hl].
    assert ((b, x) ∈ (b, y) :: k) as Hin by (rewrite <- P; by left).
    apply elem_of_cons in Hin as [[= ->]|Hin].
    - f_equal. apply IH; [done..|]. by apply Permutation.Permutation_cons_inv in P.
    - exfalso. apply Hb. rewrite E. apply list_elem_of_fmap. by exists (b, x). }
  intros l Hn Hm Hp Hk. apply Heq; [done| |done]. apply (NoDup_bt_keys m).
Qed.

(* ------------------------------------------------------------------ *)
(** ** What a roster is *)

Section roster.
Context `{FR : Frost}.

(** Between 2 and 65535 trimmed names, numbered from 1 in their order. *)
Record roster_wf (R : gmap string Identifier) : Prop := {
  rw_size : 2 ≤ N.of_nat (size R) ≤ u16_max;
  rw_ids k node : bt_keys R !! k = Some node →
    ∃ id, R !! node = Some id ∧ id_try_from (N.of_nat k + 1) = Ok id;
  rw_trimmed node : is_Some (R !! node) → trim node = node;
}.

Lemma length_bt_keys {A} (m : gmap string A) : length (bt_keys m) = size m.
Proof. unfold bt_keys. rewrite length_fmap, bt_iter_perm. by rewrite length_map_to_list. Qed.

Lemma elem_of_bt_keys {A} (m : gmap string A) k : k ∈ bt_keys m ↔ is_Some (m !! k).
Proof.
  unfold bt_keys. rewrite list_elem_of_fmap. split.
  - intros ([x v] & -> & Hx%elem_of_bt_iter). by exists v.
  - intros [v Hv]. exists (k, v). split; [done|]. by apply elem_of_bt_iter.
Qed.

Lemma assign_ids_spec w l : ∀ i m R, NoDup l → assign_ids w i l m = Ok R →
  (∀ k node, l !! k = Some node → ∃ id, R !! node = Some id ∧ id_try_from (wrap16 (i + N.of_nat k + 1)) = Ok id) ∧
  (∀ node, node ∉ l → R !! node = m !! node).
Proof.
  induction l as [|x l IH]; intros i m R Hn Ha; simpl in Ha.
  { simplify_eq. split; [|done]. intros k node Hk. by rewrite lookup_nil in Hk. }
  apply NoDup_cons in Hn as [Hx Hn]. apply bind_ok in Ha as (id & Hid%frost_call_ok & Ha).
  destruct (IH _ _ _ Hn Ha) as [F1 F2]. split.
  - intros [|k] node Hk; simpl in Hk.
    + simplify_eq. exists id. rewrite F2, lookup_insert_eq by done. by rewrite N.add_0_r.
    + destruct (F1 k node Hk) as (id' & ? & Hid'). exists id'. split; [done|]. rewrite <- Hid'. f_equal. f_equal. lia.
  - intros node Hnode. apply not_elem_of_cons in Hnode as [Hne Hnl].
    by rewrite F2, lookup_insert_ne by done.
Qed.

Lemma wrap16_small n : n ≤ u16_max → wrap16 n = n.
Proof. intros. unfold wrap16, u16_max in *. apply N.mod_small. lia. Qed.

Lemma build_roster_keys `{!FrostCodec} w nodes R : build_roster w nodes = Ok R →
  bt_keys R = vec_dedup (merge_sort String.le (trim <$> nodes)) ∧ roster_wf R.
Proof.
  unfold build_roster. set (L := vec_dedup _). rewrite guard_ok. intros [Hlen Ha]. nbool.
  assert (StronglySorted String.le (merge_sort String.le (trim <$> nodes))) as Hs
    by (apply StronglySorted_merge_sort; apply _).
  assert (NoDup L) as Hn by by apply vec_dedup_NoDup.
  destruct (assign_ids_spec _ _ _ _ _ Hn Ha) as [F1 F2].
  assert (∀ node, is_Some (R !! node) ↔ node ∈ L) as Hdom.
  { intros node. split.
    - intros Hi. destruct (decide (node ∈ L)) as [|Hnot]; [done|].
      rewrite F2, lookup_empty in Hi by done. by destruct Hi.
    - intros [k Hk]%list_elem_of_lookup. destruct (F1 k node Hk) as (id & -> & _). by eexists. }
  assert (bt_keys R = L) as HL.
  { apply (StronglySorted_unique String.le); [apply bt_keys_sorted|by apply vec_dedup_sorted|].
    apply NoDup_Permutation; [apply NoDup_bt_keys|done|]. intros x. by rewrite elem_of_bt_keys, Hdom. }
  split; [done|]. unfold len in Hlen. rewrite <- HL, length_bt_keys in Hlen. rewrite <- HL in F1.
  assert (N.of_nat (size R) ≤ u16_max) as Hmax.
  { destruct (decide (N.of_nat (size R) ≤ u16_max)) as [|Hbig]; [done|exfalso].
    destruct (lookup_lt_is_Some_2 (bt_keys R) (N.to_nat u16_max)) as [node Hnode]; [rewrite length_bt_keys; lia|].
    destruct (F1 _ _ Hnode) as (id & _ & Hid). rewrite N2Nat.id in Hid.
    replace (wrap16 _) with 0 in Hid by reflexivity. destruct id_zero as [e He]. congruence. }
  split; [split; lia| |].
  - intros k node Hk. destruct (F1 k node Hk) as (id & Hid & Ht). exists id. split; [done|]. rewrite <- Ht.
    apply lookup_lt_Some in Hk. rewrite length_bt_keys in Hk. f_equal. rewrite wrap16_small; lia.
  - intros node Hnode. rewrite Hdom in Hnode. unfold L in Hnode. rewrite vec_dedup_elem in Hnode.
    rewrite merge_sort_Permutation in Hnode. apply list_elem_of_fmap in Hnode as (x & -> & _). apply trim_idem.
Qed.

Context `{FC : !FrostCodec}.

Lemma roster_wf_lookup R node id : roster_wf R → R !! node = Some id →
  ∃ k, bt_keys R !! k = Some node ∧ (k < size R)%nat ∧ id_try_from (N.of_nat k + 1) = Ok id.
Proof.
  intros Hw Hid. assert (node ∈ bt_keys R) as [k Hk]%list_elem_of_lookup by (apply elem_of_bt_keys; eauto).
  exists k. split; [done|]. pose proof (lookup_lt_Some _ _ _ Hk) as Hlt. rewrite length_bt_keys in Hlt.
  split; [done|]. destruct (rw_ids R Hw k node Hk) as (id' & ? & ?). by simplify_eq.
Qed.

Lemma roster_wf_inj R x y id : roster_wf R → R !! x = Some id → R !! y = Some id → x = y.
Proof.
  intros Hw (k & Hk & Lk & Ik)%roster_wf_lookup (j & Hj & Lj & Ij)%roster_wf_lookup; [|done..].
  pose proof (rw_size R Hw). assert (N.of_nat k + 1 = N.of_nat j + 1) as E.
  { apply (id_inj _ _ id); [lia..|done|done]. }
  assert (k = j) as -> by lia. congruence.
Qed.

(** A position, as the hub computes it, leads back to the identifier. *)
Lemma identifier_to_u16_spec R node id : roster_wf R → R !! node = Some id →
  0 < identifier_to_u16 R id ≤ N.of_nat (size R) ∧ id_try_from (identifier_to_u16 R id) = Ok id.
Proof.
  intros Hw Hid. unfold identifier_to_u16.
  destruct (roster_wf_lookup R node id Hw Hid) as (k & Hk & Hlt & Htry). pose proof (rw_size R Hw) as Hsz.
  assert (∀ l i j, (∀ m p, l !! m = Some p → p ∈ bt_iter R) → l !! j = Some (node, id) → NoDup l.*1 →
    (i + N.of_nat j + 1 ≤ u16_max) → position_of id i l = i + N.of_nat j + 1) as Hpos.
  { induction l as [|[a x] l IH]; intros i j Hl Hj Hnd Hle; [by rewrite lookup_nil in Hj|]. simpl.
    apply NoDup_cons in Hnd as [Ha Hnd]. destruct j as [|j]; simpl in Hj.
    - simplify_eq. rewrite bool_decide_true by done. rewrite N.add_0_r in *. by apply wrap16_small.
    - rewrite bool_decide_false.
      + rewrite (IH (i + 1) j); [lia| |done|done|lia]. intros m p Hm. apply (Hl (S m)). done.
      + intros ->. apply Ha. assert ((a, id) ∈ bt_iter R) as Hin by by apply (Hl 0%nat).
        apply elem_of_bt_iter in Hin. rewrite (roster_wf_inj R a node id) by done.
        apply list_elem_of_fmap. exists (node, id). split; [done|]. by eapply list_elem_of_lookup_2. }
  assert (bt_iter R !! k = Some (node, id)) as Hit.
  { unfold bt_keys in Hk. rewrite list_lookup_fmap in Hk. destruct (bt_iter R !! k) as [[a x]|] eqn:E; [|done].
    simpl in Hk. simplify_eq. apply list_elem_of_lookup_2, elem_of_bt_iter in E. congruence. }
  rewrite (Hpos _ 0 k); [|intros ? ? ?; by eapply list_elem_of_lookup_2|done|apply NoDup_bt_keys|lia].
  rewrite N.add_0_l. split; [lia|done].
Qed.
End roster.

(* ------------------------------------------------------------------ *)
(** ** What the transcript commits to *)

Section transcript.
Context `{FR : Frost, FC : !FrostCodec, SH : Sha256}.

Definition comma_free (node : string) : Prop := no_char ","%char node.

Lemma transcript_text_eq w sid max min R : transcript_text w sid max min R =
  transcript_domain w +:+ (sid +:+ ("|max=" +:+ (show max +:+ ("|min=" +:+ (show min +:+ ("|roster=" +:+
    (join "," (bt_keys R) +:+ ""))))))).
Proof. reflexivity. Qed.

Lemma app_inv_head (a x y : string) : a +:+ x = a +:+ y → x = y.
Proof. induction a as [|c a IH]; [done|]. intros He. apply IH. by injection He. Qed.

(** The size is in the text, so rosters of different sizes never share one. *)
Lemma transcript_text_inj w sid max min max' min' R R' :
  N.of_nat (size R) = max → N.of_nat (size R') = max' → (∀ node, is_Some (R !! node) → comma_free node) →
  transcript_text w sid max min R = transcript_text w sid max' min' R' →
  max = max' ∧ min = min' ∧ bt_keys R = bt_keys R'.
Proof.
  intros Hsz Hsz' Hc. rewrite !transcript_text_eq. intros He.
  do 3 apply app_inv_head in He. apply show_inj in He as [-> He]; [|done..].
  apply app_inv_head in He. apply show_inj in He as [-> He]; [|done..].
  apply app_inv_head in He. rewrite !string_app_nil in He.
  split; [done|]. split; [done|]. eapply (join_inj ","%char); [rewrite !length_bt_keys; lia| |done].
  apply Forall_forall. intros x Hx. by apply Hc, elem_of_bt_keys.
Qed.

(** Rosters with the same names are the same. *)
Lemma roster_wf_eq R R' : roster_wf R → roster_wf R' → bt_keys R = bt_keys R' → R = R'.
Proof.
  intros Hw Hw' He. apply map_eq. intros node.
  destruct (R !! node) as [id|] eqn:E.
  - destruct (roster_wf_lookup R node id Hw E) as (k & Hk & _ & Ht). rewrite He in Hk.
    destruct (rw_ids R' Hw' k node Hk) as (id' & -> & Ht'). congruence.
  - destruct (R' !! node) as [id|] eqn:E'; [|done]. exfalso.
    assert (node ∈ bt_keys R) as [x Hx]%elem_of_bt_keys; [|congruence].
    rewrite He. apply elem_of_bt_keys. eauto.
Qed.

Lemma session_transcript_inj w sid max min max' min' R R' :
  roster_wf R → roster_wf R' → N.of_nat (size R) = max → N.of_nat (size R') = max' →
  (∀ node, is_Some (R !! node) → comma_free node) →
  session_transcript w sid max min R = session_transcript w sid max' min' R' →
  (max = max' ∧ min = min' ∧ R = R')
  ∨ sha256_clash (λ b, b = bytes_of (transcript_text w sid max min R) ∨ b = bytes_of (transcript_text w sid max' min' R')).
Proof.
  intros Hw Hw' Hsz Hsz' Hc Hs. unfold session_transcript in Hs.
  destruct (decide (bytes_of (transcript_text w sid max min R) = bytes_of (transcript_text w sid max' min' R')))
    as [He%bytes_of_inj|Hne]; [|right; eexists _, _; split; [by left|]; split; [by right|done]].
  left. apply transcript_text_inj in He as (-> & -> & Hk); [|done..].
  split; [done|]. split; [done|]. by apply roster_wf_eq.
Qed.

Lemma start_check_ok w req R t : start_check w req = Ok (R, t) →
  roster_wf R ∧ N.of_nat (size R) = sr_max_signers req ∧ 2 ≤ sr_min_signers req ≤ sr_max_signers req ∧
  t = session_transcript w (sr_session_id req) (sr_max_signers req) (sr_min_signers req) R.
Proof.
  unfold start_check. rewrite guard_ok. intros [Hp Hs]. nbool.
  apply bind_ok in Hs as (R1 & [_ Hb]%build_roster_keys & Hs). rewrite guard_ok in Hs. destruct Hs as [Hn Hs].
  injection Hs as <- <-. pose proof (rw_size R1 Hb). rewrite wrap16_small in Hn by lia. nbool.
  split; [done|]. split; [done|]. split; [lia|done].
Qed.

(** The text a start request with roster [R] hashes. *)
Definition request_text w (req : DkgStartRequest) (R : gmap string Identifier) : string :=
  transcript_text w (sr_session_id req) (sr_max_signers req) (sr_min_signers req) R.

(** The transcript freezes the constitution: when two start requests of one session, the
    first of whose rosters holds no comma in a name, give the same transcript, they ask for
    the same threshold, the same size and the same numbered roster, unless the two texts they
    hash are a SHA-256 clash. The plain and the Taproot ceremony share a transcript only by such a clash. *)
Theorem transcript_freezes_constitution w req req' R R' t :
  start_check w req = Ok (R, t) → start_check w req' = Ok (R', t) →
  sr_session_id req = sr_session_id req' → (∀ node, is_Some (R !! node) → comma_free node) →
  (sr_max_signers req = sr_max_signers req' ∧ sr_min_signers req = sr_min_signers req' ∧ R = R'
   ∨ sha256_clash (λ b, b = bytes_of (request_text w req R) ∨ b = bytes_of (request_text w req' R'))) ∧
  (∀ reqt Rt, w = plain_suite → start_check tr_suite reqt = Ok (Rt, t) →
     sha256_clash (λ b, b = bytes_of (request_text plain_suite req R) ∨ b = bytes_of (request_text tr_suite reqt Rt))).
Proof.
  intros (Hw & Hn & _ & Ht)%start_check_ok (Hw' & Hn' & _ & Ht')%start_check_ok Hsid Hc. split.
  - unfold request_text. rewrite Hsid in Ht |- *. by apply session_transcript_inj; [| | | | |congruence].
  - intros reqt Rt -> (_ & _ & _ & Htt)%start_check_ok. rewrite Ht in Htt.
    unfold session_transcript in Htt. eexists _, _. split; [by left|]. split; [by right|].
    unfold request_text. split; [|exact Htt]. intros He%bytes_of_inj.
    rewrite !transcript_text_eq in He. discriminate He.
Qed.
End transcript.
