(* ===== verification/WireHub.v ===== *)
(** * What one call does to a hub of [adapters/dkg_wire.rs]

    Each call of a [WireDkgHub] either leaves it alone or moves one session in a
    way its body allows; the invariant of one session, that a session never
    drifts from what its start froze, and what an answered message leaves behind. *)
From S2P Require Import Prelude RustStr Errors Identity Frost HybridEnvelope WireDkg WireRoster.
Local Open Scope N_scope.

Section calls.
Context `{FR : Frost, HX : HexCodec, SH : Sha256}.
Context {T : Type} (w : WireSuite).
(** A finalization's sink, and the form it leaves the keys in. *)
Context (sink : KeySink T) (kform : KeyPackage → KeyPackage) (pform : PublicKeyPackage → PublicKeyPackage).
Context (Hsink : ∀ s kp pk t t' r, sink s kp pk t = (t', Ok r) → r = (kform kp, pform pk)).

(* ------------------------------------------------------------------ *)
(** ** Effects *)

(** A session as [start] makes it. *)
Definition fresh_session (node : string) (req : DkgStartRequest) (s : SessionInner) : Prop :=
  ∃ R t id sp rng,
    start_check w req = Ok (R, t) ∧ R !! node = Some id ∧
    part1 id (sr_max_signers req) (sr_min_signers req) rng = Ok sp ∧
    s = {| session_id := sr_session_id req; local_node_id := node; local_identifier := id;
           max_signers := sr_max_signers req; min_signers := sr_min_signers req; roster := R;
           transcript_hex := t; roster_closed := false; phase := Round1;
           round1_secret := Some sp.1; round1_packages := {[id := sp.2]}; round2_secret := None;
           round2_inbox := ∅; round2_outbound := ∅; key_package := None; pubkey_package := None |}.

(** The message a session announces itself with. *)
Definition announces (s : SessionInner) (msg : Round1WireMessage) : Prop :=
  ∃ p b, round1_packages s !! local_identifier s = Some p ∧ r1_serialize p = Ok b ∧
    msg = round1_message s (hex_encode b).

Inductive start_effect (req : DkgStartRequest) (h : WireDkgHub) :
    WireDkgHub * res (WireDkgStatus * Round1WireMessage) → Prop :=
| SE_err e : start_effect req h (h, Err e)
| SE_again s st msg : sessions h !! sr_session_id req = Some s → announces s msg →
    start_effect req h (h, Ok (st, msg))
| SE_new s st msg : sessions h !! sr_session_id req = None → fresh_session (hub_node_id h) req s →
    announces s msg → start_effect req h (set_session (sr_session_id req) s h, Ok (st, msg)).

Lemma start_has_effect req rng h : start_effect req h (start w req rng h).
Proof.
  unfold start, get, mbind, cmd_bind, lift. simpl. unfold start_plan.
  destruct (start_check w req) as [[R t]|e] eqn:Hc; simpl; [|apply SE_err].
  destruct (sessions h !! sr_session_id req) as [s|] eqn:Hs; simpl.
  - unfold start_existing. destruct (negb _ || _ || _ || _) eqn:Ed; simpl; [apply SE_err|]. nbool. destruct_and?. nbool.
    destruct (round1_packages s !! local_identifier s) as [p|] eqn:Hp; simpl; [|apply SE_err].
    destruct (frost_call _ _ (r1_serialize p)) as [b|e] eqn:Hb; simpl; [|apply SE_err].
    apply frost_call_ok in Hb. apply (SE_again _ _ s); [done|]. by exists p, b.
  - unfold start_new. destruct (R !! hub_node_id h) as [id|] eqn:Hid; simpl; [|apply SE_err].
    destruct (frost_call _ _ (part1 _ _ _ _)) as [sp|e] eqn:Hp; simpl; [|apply SE_err].
    destruct (frost_call _ _ (r1_serialize _)) as [b|e] eqn:Hb; simpl; [|apply SE_err].
    apply frost_call_ok in Hb, Hp. apply SE_new; [done|by exists R, t, id, sp, rng|].
    exists sp.2, b. simpl. by rewrite lookup_singleton_eq.
Qed.

(** A call that runs a body on one session, or does nothing. *)
Definition on_session {A} (sid : string) (c : dcmd SessionInner A) (h h' : WireDkgHub) : Prop :=
  h' = h ∨ ∃ s, sessions h !! sid = Some s ∧ h' = set_session sid (c s).1 h.

Lemma with_session_effect {A} sid e (c : dcmd SessionInner A) h : on_session sid c h (with_session sid e c h).1.
Proof.
  unfold with_session, on_session. destruct (sessions h !! sid) as [s|] eqn:Hs; [|by left].
  right. exists s. by destruct (c s).
Qed.

Lemma ingest_round1_effect msg h :
  on_session (r1m_session_id msg) (session_ingest_round1 w msg) h (ingest_round1 w msg h).1.
Proof.
  unfold ingest_round1, mbind, cmd_bind, lift. destruct (check_envelope _ _ _); [|by left].
  apply with_session_effect.
Qed.

Lemma ingest_round2_effect msg h :
  on_session (r2m_session_id msg) (session_ingest_round2 w msg) h (ingest_round2 w msg h).1.
Proof.
  unfold ingest_round2, mbind, cmd_bind, lift. destruct (check_envelope _ _ _); [|by left].
  apply with_session_effect.
Qed.

Lemma round2_messages_ok s sid l msgs : round2_messages w s sid l = Ok msgs →
  ∀ msg, msg ∈ msgs → ∃ rid p b, (rid, p) ∈ l ∧ roster s !! r2m_recipient_node_id msg = Some rid ∧
    r2_serialize p = Ok b ∧ r2m_package_hex msg = hex_encode b ∧ r2m_sender_node_id msg = local_node_id s ∧
    r2m_transcript_hex msg = transcript_hex s ∧ r2m_session_id msg = sid.
Proof.
  revert msgs. induction l as [|[rid p] l IH]; intros msgs Hm msg Hin; simpl in Hm.
  { injection Hm as <-. by apply elem_of_nil in Hin. }
  apply bind_ok in Hm as ([k [x id]] & Hf & Hm). rewrite ok_or_ok in Hf.
  apply bind_ok in Hm as (b & Hb%frost_call_ok & Hm). apply bind_ok in Hm as (rest & Hr & Hm).
  injection Hm as <-. apply elem_of_cons in Hin as [->|Hin].
  - exists rid, p, b. simpl. split; [by left|]. apply list_find_Some in Hf as (Hk & Hid & _).
    apply list_elem_of_lookup_2, elem_of_bt_iter in Hk. simpl in *. by subst.
  - destruct (IH rest Hr msg Hin) as (rid' & p' & b' & Hl & Hrest). exists rid', p', b'.
    split; [by right|done].
Qed.

Inductive take_effect (sid : string) (h : WireDkgHub) : WireDkgHub * res (list Round2WireMessage) → Prop :=
| TE_unknown e : take_effect sid h (h, Err e)
| TE_taken s r : sessions h !! sid = Some s →
    (∀ msgs, r = Ok msgs → round2_messages w s sid (id_iter (round2_outbound s)) = Ok msgs) →
    take_effect sid h (set_session sid (set_round2_outbound ∅ s) h, r).

Lemma take_has_effect sid h : take_effect sid h (take_round2_outbound w sid h).
Proof.
  unfold take_round2_outbound, with_session. destruct (sessions h !! sid) as [s|] eqn:Hs; [|apply TE_unknown].
  unfold session_take_round2, get, mbind, cmd_bind, update, lift. simpl. by eapply TE_taken.
Qed.

Inductive finalize_effect (sid : string) (h : WireDkgHub) : WireDkgHub → Prop :=
| FE_same : finalize_effect sid h h
| FE_done s keys : sessions h !! sid = Some s → phase s ≠ Complete → finalize_keys w s = Ok keys →
    finalize_effect sid h (complete_session sid (kform keys.1) (pform keys.2) s h).

Lemma finalize_has_effect sid (hs : WireDkgHub * T) : finalize_effect sid hs.1 (finalize_with sink w sid hs).1.1.
Proof.
  unfold finalize_with, get, mbind, cmd_bind, mret, cmd_ret, lift. destruct hs as [h st]. simpl.
  destruct (sessions h !! sid) as [s|] eqn:Hs; simpl; [|apply FE_same].
  case_bool_decide as Hp; [apply FE_same|].
  destruct (finalize_keys w s) as [[kp pk]|e] eqn:Hk; simpl; [|apply FE_same].
  unfold on_store, zoom. simpl. destruct (sink s kp pk st) as [st1 [r|e]] eqn:E; simpl; [|apply FE_same].
  rewrite (Hsink _ _ _ _ _ _ E). by apply (FE_done _ _ s (kp, pk)).
Qed.

(* ------------------------------------------------------------------ *)
(** ** Every call leads to a later hub *)

Inductive hub_call : WireDkgHub * T → WireDkgHub * T → Prop :=
| HC_start req rng p : hub_call p (on_hub (start w req rng) p).1
| HC_ingest1 msg p : hub_call p (on_hub (ingest_round1 w msg) p).1
| HC_ingest2 msg p : hub_call p (on_hub (ingest_round2 w msg) p).1
| HC_take sid p : hub_call p (on_hub (take_round2_outbound w sid) p).1
| HC_finalize sid p : hub_call p (finalize_with sink w sid p).1.

Lemma on_hub_fst {A} (c : dcmd WireDkgHub A) (p : WireDkgHub * T) : (on_hub c p).1 = ((c p.1).1, p.2).
Proof. unfold on_hub, zoom. by destruct (c p.1). Qed.

Lemma on_session_le {A} sid (c : dcmd SessionInner A) h h' :
  (∀ s, session_le s (c s).1) → on_session sid c h h' → hub_le h h'.
Proof. intros Hc [->|(s & Hs & ->)]; [reflexivity|]. by apply (set_session_le _ s). Qed.

Lemma finalize_effect_le sid h h' : finalize_effect sid h h' → hub_le h h'.
Proof.
  intros [|s keys Hs Hp _]; [reflexivity|]. apply (set_session_le sid s (enter_complete (kform keys.1) (pform keys.2) s) h Hs).
  by apply enter_complete_le.
Qed.

Lemma start_le req rng h : hub_le h (start w req rng h).1.
Proof. destruct (start_has_effect req rng h); [reflexivity..|]. by apply insert_session_le. Qed.

Lemma take_le sid h : hub_le h (take_round2_outbound w sid h).1.
Proof. destruct (take_has_effect sid h) as [|s r Hs _]; [reflexivity|]. apply (set_session_le _ s); [done|by split]. Qed.

Lemma hub_call_le p q : hub_call p q → hub_le p.1 q.1.
Proof.
  intros [req rng r|msg r|msg r|sid r|sid r]; rewrite ?on_hub_fst; cbn [fst].
  - apply start_le.
  - eapply on_session_le, ingest_round1_effect. apply session_ingest_round1_le.
  - eapply on_session_le, ingest_round2_effect. apply session_ingest_round2_le.
  - apply take_le.
  - eapply finalize_effect_le, finalize_has_effect.
Qed.

(** Whatever is called on a hub, in whatever order and with whatever messages, a session is
    never lost; its identity, size, threshold, roster, transcript and own round-1 package never
    change; its phase never goes back; once it is past round 1 it takes no further participant
    and replaces no package; and a complete session keeps its keys. *)
Theorem hub_never_drifts p q sid s :
  steps hub_call p q → sessions p.1 !! sid = Some s →
  ∃ s', sessions q.1 !! sid = Some s' ∧
    constitution s' = constitution s ∧
    round1_packages s' !! local_identifier s' = round1_packages s !! local_identifier s ∧
    (phase_n (phase s) ≤ phase_n (phase s'))%nat ∧
    (phase s ≠ Round1 → round1_packages s' = round1_packages s) ∧
    (phase s = Complete → key_package s' = key_package s ∧ pubkey_package s' = pubkey_package s).
Proof.
  intros Hr Hs. assert (hub_le p.1 q.1) as [_ Hle].
  { refine (steps_invariant hub_call (λ x, hub_le p.1 x.1) _ p q Hr _); [|reflexivity].
    intros x y Hx Hy%hub_call_le. by etrans. }
  destruct (Hle sid s Hs) as (s' & Hs' & [C P O F _ K]). exists s'. split; [done|]. split; [done|].
  assert (local_identifier s' = local_identifier s) as -> by (unfold constitution in C; congruence). done.
Qed.

(* ------------------------------------------------------------------ *)
(** ** A failed [part2] is for ever: the secret was taken out and is not put back *)

Definition stuck (s : SessionInner) : Prop := phase s = Round1 ∧ round1_secret s = None ∧ round2_secret s = None.

Lemma ingest1_stuck msg s : stuck s → stuck (session_ingest_round1 w msg s).1.
Proof. intros (Hp & H1 & H2). destruct (session_ingest_round1_effect w msg s); [done|done|congruence|congruence]. Qed.

Lemma on_session_stuck {A} sid sid' (c : dcmd SessionInner A) h h' s : on_session sid' c h h' →
  (∀ s, stuck s → stuck (c s).1) → sessions h !! sid = Some s → stuck s →
  ∃ s', sessions h' !! sid = Some s' ∧ stuck s'.
Proof.
  intros [->|(x & Hx & ->)] Hc Hs Hst; [by exists s|]. simpl. destruct (decide (sid = sid')) as [->|].
  - rewrite lookup_insert_eq. exists (c x).1. split; [done|]. apply Hc. congruence.
  - rewrite lookup_insert_ne by done. by exists s.
Qed.

Lemma hub_call_stuck p q sid s : hub_call p q → sessions p.1 !! sid = Some s → stuck s →
  ∃ s', sessions q.1 !! sid = Some s' ∧ stuck s'.
Proof.
  intros [req rng r|msg r|msg r|sid' r|sid' r] Hs Hst; rewrite ?on_hub_fst; cbn [fst].
  - destruct (start_has_effect req rng r.1) as [|? ? ? ?|x st msg Hx _ _]; [by exists s..|]. simpl.
    rewrite lookup_insert_ne by (intros He; rewrite He in Hx; congruence). by exists s.
  - eapply on_session_stuck; [apply ingest_round1_effect|intros; by apply ingest1_stuck|done..].
  - eapply on_session_stuck; [apply ingest_round2_effect| |done..].
    intros x Hx. by destruct (session_ingest_round2_effect w msg x).
  - destruct (take_has_effect sid' r.1) as [|x o Hx _]; [by exists s|]. simpl. destruct (decide (sid = sid')) as [->|].
    + rewrite lookup_insert_eq. exists (set_round2_outbound ∅ x). split; [done|]. by simplify_eq.
    + rewrite lookup_insert_ne by done. by exists s.
  - destruct (finalize_has_effect sid' r) as [|x [kp pk] Hx Hp (_ & (secret & Hsec & _) & _)%finalize_keys_ok]; [by exists s|].
    simpl. rewrite lookup_insert_ne; [by exists s|]. intros ->. destruct Hst as (_ & _ & ?). congruence.
Qed.

Lemma stuck_forever p q sid s : steps hub_call p q → sessions p.1 !! sid = Some s → stuck s →
  ∃ s', sessions q.1 !! sid = Some s' ∧ stuck s'.
Proof.
  intros Hr Hs Hst. refine (steps_invariant hub_call (λ x, ∃ s', sessions x.1 !! sid = Some s' ∧ stuck s') _ p q Hr _);
    [|by exists s]. intros x y (s' & Hs' & Hst') Hc. by eapply hub_call_stuck.
Qed.
End calls.

(* ------------------------------------------------------------------ *)
(** ** What an answered message leaves behind *)

Section took.
Context `{FR : Frost, HX : HexCodec}.

(** [s] is settled on a message of round 1: finished, or on the message's terms and in possession of
    its sender's package, which may be its own. *)
Definition took_round1 (msg : Round1WireMessage) (s : SessionInner) : Prop :=
  phase s = Complete ∨
  r1m_max_signers msg = max_signers s ∧ r1m_min_signers msg = min_signers s ∧ r1m_transcript_hex msg = transcript_hex s ∧
  ∃ id, id_try_from (r1m_sender_identifier msg) = Ok id ∧ roster s !! r1m_sender_node_id msg = Some id ∧
    (id = local_identifier s ∨ is_Some (round1_packages s !! id)).
Definition took_round2 (msg : Round2WireMessage) (s : SessionInner) : Prop :=
  phase s = Complete ∨
  r2m_transcript_hex msg = transcript_hex s ∧ r2m_recipient_node_id msg = local_node_id s ∧
  ∃ id, id_try_from (r2m_sender_identifier msg) = Ok id ∧ roster s !! r2m_sender_node_id msg = Some id ∧
    is_Some (round2_inbox s !! id).

(** [s'] has everything of [s]. *)
Record grows (s s' : SessionInner) : Prop := {
  gr_constitution : constitution s' = constitution s;
  gr_complete : phase s = Complete → phase s' = Complete;
  gr_round1 i : is_Some (round1_packages s !! i) → is_Some (round1_packages s' !! i);
  gr_round2 i : is_Some (round2_inbox s !! i) → is_Some (round2_inbox s' !! i);
}.
Lemma took_round1_grows msg s s' : grows s s' → took_round1 msg s → took_round1 msg s'.
Proof.
  intros [[= _ _ El Ex En Er Et] Hc H1 _] [Hp|(? & ? & ? & id & ? & ? & Hi)]; [left; auto|right].
  rewrite Ex, En, Et, Er, El. split_and!; [done..|]. exists id. split_and!; [done..|]. destruct Hi; [by left|right; auto].
Qed.
Lemma took_round2_grows msg s s' : grows s s' → took_round2 msg s → took_round2 msg s'.
Proof.
  intros [[= _ En _ _ _ Er Et] Hc _ H2] [Hp|(? & ? & id & ? & ? & Hi)]; [left; auto|right].
  rewrite Et, Er, En. split_and!; [done..|]. exists id. split_and!; [done..|]. auto.
Qed.

Lemma insert_is_Some {A} (m : gmap Identifier A) i x j : is_Some (m !! j) → is_Some (<[i:=x]> m !! j).
Proof. intros. destruct (decide (i = j)) as [->|]; [rewrite lookup_insert_eq|rewrite lookup_insert_ne by done]; by eauto. Qed.
Lemma ingest1_grows w msg s s' : ingest1_effect w msg s s' → grows s s'.
Proof.
  intros [|id p Ha _|id p secret out Ha _ _ _|id p secret e Ha _ _ _]; [by split|..];
    (split; cbn; [done| |intros; by apply insert_is_Some|done]); rewrite ?(a1_phase _ _ _ _ _ Ha); done.
Qed.
Lemma ingest2_grows w msg s s' : ingest2_effect w msg s s' → grows s s'.
Proof. intros [|id p _]; [by split|]. split; cbn; [done..|]. intros; by apply insert_is_Some. Qed.

(** A session that answers a message is settled on it. *)
Lemma session_ingest_round1_took w msg s s' st : session_ingest_round1 w msg s = (s', Ok st) → took_round1 msg s'.
Proof.
  unfold session_ingest_round1. intros H. apply cmd_bind_ok in H as (? & ? & [= <- <-] & H).
  case_bool_decide as Hc; [injection H as <- _; by left|]. destruct (negb _ || negb _) eqn:E1; [done|].
  destruct (negb (bool_decide _)) eqn:E2; [done|].
  apply cmd_bind_ok in H as (? & id & [-> Hid]%lift_ok & H). apply cmd_bind_ok in H as (? & x & [-> Hx%ok_or_ok]%lift_ok & H).
  destruct (negb (bool_decide (x = id))) eqn:E5; [done|]. apply frost_call_ok in Hid. nbool. destruct_and?. nbool. subst x.
  assert (∀ s1, constitution s1 = constitution s → id = local_identifier s ∨ is_Some (round1_packages s1 !! id) → took_round1 msg s1) as G.
  { intros s1 [= _ _ El Ex En Er Et] Hi. right. rewrite Ex, En, Et, Er, El. split_and!; [done..|]. by exists id. }
  case_bool_decide; [injection H as <- _; by apply G; [|left]|].
  destruct (roster_closed s || _); [case_bool_decide; [injection H as <- _; by apply G; [|right]|done]|].
  apply cmd_bind_ok in H as (? & b & [-> _]%lift_ok & H). apply cmd_bind_ok in H as (? & p & [-> _]%lift_ok & H).
  apply cmd_bind_ok in H as (s1 & [] & [= <-] & H). apply cmd_bind_ok in H as (? & ? & [= <- <-] & H).
  apply cmd_bind_ok in H as (s2 & [] & Ha & H). apply cmd_bind_ok in H as (? & ? & [= <- <-] & [= <- _]).
  assert (constitution s2 = constitution s ∧ round1_packages s2 = <[id := p]> (round1_packages s)) as [? E].
  { destruct (round1_full _); [|by injection Ha as <-]. unfold advance_to_round2 in Ha.
    apply cmd_bind_ok in Ha as (? & ? & [= <- <-] & Ha). apply cmd_bind_ok in Ha as (? & sec & [-> _]%lift_ok & Ha).
    apply cmd_bind_ok in Ha as (? & [] & [= <-] & Ha). apply cmd_bind_ok in Ha as (? & out & [-> _]%lift_ok & [= <-]). done. }
  apply G; [done|]. right. rewrite E, lookup_insert_eq. eauto.
Qed.
Lemma session_ingest_round2_took w msg s s' st : session_ingest_round2 w msg s = (s', Ok st) → took_round2 msg s'.
Proof.
  unfold session_ingest_round2. intros H. apply cmd_bind_ok in H as (? & ? & [= <- <-] & H).
  case_bool_decide as Hc; [injection H as <- _; by left|]. destruct (negb (bool_decide _)) eqn:E1; [done|].
  destruct (negb (bool_decide (r2m_recipient_node_id msg = _))) eqn:E2; [done|].
  apply cmd_bind_ok in H as (? & id & [-> Hid]%lift_ok & H). apply cmd_bind_ok in H as (? & x & [-> Hx%ok_or_ok]%lift_ok & H).
  destruct (negb (bool_decide (x = id))) eqn:E5; [done|]. apply frost_call_ok in Hid. nbool. subst x.
  apply cmd_bind_ok in H as (? & b & [-> _]%lift_ok & H). apply cmd_bind_ok in H as (? & p & [-> _]%lift_ok & H).
  apply cmd_bind_ok in H as (s1 & [] & [= <-] & H). apply cmd_bind_ok in H as (? & ? & [= <- <-] & [= <- _]).
  right. cbn. split_and!; [done..|]. exists id. rewrite lookup_insert_eq. eauto.
Qed.
End took.
