(* ===== verification/AuthIdentity.v ===== *)
(** * Who calls, and what may it call ([adapters/auth_identity.rs], [adapters/auth_static.rs],
    [adapters/auth_mtls.rs], the token middleware of [adapters/http.rs])

    A request's principal comes from the lab token or from the client
    certificate's SANs; routes are classed by path, classes are open to roles, and
    peer rounds are bound to the certificate's node. *)
From S2P Require Import Prelude RustStr Errors.
Local Open Scope N_scope.

Inductive MeshRole := Kfe | Vault.
#[export] Instance MeshRole_eq_dec : EqDecision MeshRole.
Proof. solve_decision. Defined.
Definition role_str (r : MeshRole) : string := match r with Kfe => "kfe" | Vault => "vault" end.

Record MeshPrincipal := mk_principal {
  role : MeshRole;
  pr_node_id : string;
  spiffe_id : option string;
  lab_omnipotent : bool;
}.
Definition principal_lab_omnipotent (local_node_id : string) : MeshPrincipal :=
  mk_principal Vault local_node_id None true.

Inductive RouteClass := KfeSettlement | VaultPeer | SharedOps | AdminRead.
#[export] Instance RouteClass_eq_dec : EqDecision RouteClass.
Proof. solve_decision. Defined.

Definition allows_route (p : MeshPrincipal) (c : RouteClass) : bool :=
  if lab_omnipotent p then true
  else match c with
       | KfeSettlement => bool_decide (role p = Kfe)
       | VaultPeer => bool_decide (role p = Vault)
       | SharedOps => true
       | AdminRead => bool_decide (role p = Vault)
       end.

Definition route_class_for_path (path : string) : option RouteClass :=
  let p := next_or_empty (split_char "?"%char path) in
  if starts_with "/v1/admin/" p then Some AdminRead
  else if starts_with "/v1/sign" p || starts_with "/v1/financial-quorum" p || starts_with "/v1/bitcoin/" p
          || (starts_with "/v1/intent" p && negb (starts_with "/v1/intent/consume/" p))
          || starts_with "/sign/" p || starts_with "/intent/" p
  then Some KfeSettlement
  else if starts_with "/v1/dkg/" p || bool_decide (p = "/v1/day/vote") || starts_with "/v1/anti-nonce/" p
          || starts_with "/v1/intent/consume/" p || starts_with "/v1/frost/" p
  then Some VaultPeer
  else if bool_decide (p = "/v1/day/advance") || bool_decide (p = "/v1/day/current")
          || bool_decide (p = "/v1/reshare/trigger") || starts_with "/release/" p || starts_with "/epoch/" p
          || bool_decide (p = "/ledger") || bool_decide (p = "/threshold") || starts_with "/economy/" p
          || bool_decide (p = "/health")
  then Some SharedOps
  else None.

(* ------------------------------------------------------------------ *)
(** ** Principals from certificates *)

Definition parse_spiffe_principal (uri : string) : res (MeshRole * option string) :=
  let uri := trim uri in
  if negb (starts_with "spiffe://" uri) then Err (AuthRejected (format "not a SPIFFE URI: {}" [uri]))
  else
    let parts := split_char "/"%char (drop_str 9 uri) in
    let kind := next_or_empty (drop 1 parts) in
    if bool_decide (kind = "kfe") then Ok (Kfe, Some "kfe")
    else if bool_decide (kind = "vault") then
      let leaf := next_or_empty (drop 2 parts) in
      if bool_decide (leaf = "") then Err (AuthRejected "SPIFFE vault path missing node segment")
      else if bool_decide (leaf = "server") then Ok (Vault, None)
      else Ok (Vault, Some leaf)
    else Err (AuthRejected (format "unknown SPIFFE workload path: {}" [uri])).

Definition known_node (local_node_id : string) (allowed : gset string) (id : string) : bool :=
  bool_decide (id ∈ allowed) || bool_decide (id = local_node_id).

Definition principal_from_cert_sans (uri_sans dns_sans : list string) (local_node_id : string)
    (allowed : gset string) : res MeshPrincipal :=
  spiffe ← ok_or (snd <$> list_find (λ u, Is_true (starts_with "spiffe://" u)) uri_sans)
    (AuthRejected "client cert missing SPIFFE URI SAN (required for mesh principal)");
  rp ← parse_spiffe_principal spiffe;
  node_id ←
    match rp.1 with
    | Kfe => Ok (default "kfe" rp.2)
    | Vault =>
        match rp.2 with
        | Some id =>
            if negb (known_node local_node_id allowed id) then
              Err (AuthRejected (format "SPIFFE vault node {} is not a known mesh node" [id]))
            else Ok id
        | None =>
            match filter (λ d, Is_true (known_node local_node_id allowed d)) dns_sans with
            | [one] => Ok one
            | [] => Err (AuthRejected "vault/server SVID has no DNS SAN matching a known VAULT_NODE_ID")
            | _ => Err (AuthRejected "vault/server SVID DNS SAN ambiguous among mesh node ids")
            end
        end
    end;
  mret (mk_principal rp.1 node_id (Some spiffe) false).

Definition mesh_allowed_node_ids (local_node_id : string) (seeds : list string) : gset string :=
  foldl (λ set id, let id := trim id in if bool_decide (id = "") then set else {[id]} ∪ set)
    {[local_node_id]} seeds.

(* ------------------------------------------------------------------ *)
(** ** The caller of a vote, and the sender of a peer round *)

(** [map(str::trim).filter(|s| !s.is_empty())]. *)
Definition trimmed_some (o : option string) : option string :=
  match o with
  | Some s => if bool_decide (trim s = "") then None else Some (trim s)
  | None => None
  end.

Definition resolve_mesh_caller_identity_with_principal (local_node_id : string) (allowed : gset string)
    (header_node_id claimed mtls_peer_node_id : option string) (principal : option MeshPrincipal) : res string :=
  identity ←
    match match principal with Some p => if lab_omnipotent p then None else Some p | None => None end with
    | Some p =>
        if negb (bool_decide (role p = Vault)) then
          Err (AuthRejected "day/vote requires vault peer principal (not kfe)")
        else if negb (known_node local_node_id allowed (pr_node_id p)) then
          Err (AuthRejected (format "mTLS principal {} is not a known mesh node" [pr_node_id p]))
        else Ok (pr_node_id p)
    | None =>
        match trimmed_some mtls_peer_node_id with
        | Some peer =>
            if negb (known_node local_node_id allowed peer) then
              Err (AuthRejected (format "mTLS peer identity {} is not a known mesh node" [peer]))
            else Ok peer
        | None =>
            match trimmed_some header_node_id with
            | Some hdr =>
                if negb (known_node local_node_id allowed hdr) then
                  Err (AuthRejected (format "X-Vault-Node-Id {} is not a known mesh node" [hdr]))
                else Ok hdr
            | None => Ok local_node_id
            end
        end
    end;
  match trimmed_some claimed with
  | Some raw =>
      if negb (bool_decide (raw = identity)) then
        Err (AuthRejected (format "voter {} does not match authenticated vault identity {}" [raw; identity]))
      else Ok identity
  | None => Ok identity
  end.
Definition resolve_mesh_caller_identity (local_node_id : string) (allowed : gset string)
    (header_node_id claimed mtls_peer_node_id : option string) : res string :=
  resolve_mesh_caller_identity_with_principal local_node_id allowed header_node_id claimed mtls_peer_node_id None.

Definition bind_dkg_sender_to_peer (sender_node_id : string) (principal : option MeshPrincipal)
    (lab_static_token : bool) : res unit :=
  let sender := trim sender_node_id in
  if bool_decide (sender = "") then Err (AuthRejected "DKG sender_node_id required")
  else if lab_static_token then Ok tt
  else
    p ← ok_or principal (AuthRejected "DKG ingest requires authenticated mTLS vault principal");
    if lab_omnipotent p then Ok tt
    else if negb (bool_decide (role p = Vault)) then
      Err (AuthRejected "DKG peer rounds require vault role (not kfe)")
    else if negb (bool_decide (pr_node_id p = sender)) then
      Err (AuthRejected (format "DKG sender_node_id {} does not match TLS peer identity {}" [sender; pr_node_id p]))
    else Ok tt.

(* ------------------------------------------------------------------ *)
(** ** The two auth ports *)

Record StaticTokenAuthAdapter := mk_static_auth {
  expected : string;
  treasury_signing_allowed : bool;
  st_reshare_trigger_allowed : bool;
}.
Definition static_with_treasury_signing (token : string) (allowed : bool) : StaticTokenAuthAdapter :=
  mk_static_auth token allowed allowed.
Definition static_new (token : string) : StaticTokenAuthAdapter := static_with_treasury_signing token true.
Definition static_with_ops (token : string) (treasury reshare : bool) : StaticTokenAuthAdapter :=
  mk_static_auth token treasury reshare.
Definition static_authorize (a : StaticTokenAuthAdapter) (token_header : option string) : res unit :=
  match token_header with
  | Some provided =>
      if bool_decide (provided = "") then Err (AuthRejected "missing X-Vault-Token")
      else if negb (bool_decide (bytes_of provided = bytes_of (expected a))) then
        Err (AuthRejected "invalid X-Vault-Token")
      else Ok tt
  | None => Err (AuthRejected "missing X-Vault-Token")
  end.
Definition static_authorize_treasury_sign (a : StaticTokenAuthAdapter) : res unit :=
  if negb (treasury_signing_allowed a) then
    Err (AuthRejected "static lab token cannot authorize treasury signing outside lab; use mTLS")
  else Ok tt.
Definition static_authorize_reshare_trigger (a : StaticTokenAuthAdapter) : res unit :=
  if negb (st_reshare_trigger_allowed a) then
    Err (AuthRejected "manual reshare trigger refused; lab ceremony or VAULT_ALLOW_MANUAL_RESHARE=1")
  else Ok tt.

Definition mtls_authorize (token_header : option string) : res unit :=
  match token_header with
  | Some t =>
      if bool_decide (t = "") then Ok tt
      else Err (AuthRejected "static X-Vault-Token refused in mTLS mode; use client certificate")
  | None => Ok tt
  end.
Definition mtls_authorize_reshare_trigger (allowed : bool) : res unit :=
  if negb allowed then
    Err (AuthRejected "manual reshare trigger refused under mTLS without VAULT_ALLOW_MANUAL_RESHARE=1 (or lab)")
  else Ok tt.
