(* ===== verification/FrostShares.v ===== *)
(** * Share material at rest ([adapters/frost_tr_bitcoin.rs], first part, and the
    finalization of [adapters/dkg_tr_wire.rs])

    The USERS and the CHANNELS Taproot keysets are sealed under names of their own;
    a Taproot ceremony ends by storing the even-Y form of its one local share. *)
From S2P Require Import Prelude RustStr RustParse Errors Identity Frost HybridEnvelope WireDkg.
Local Open Scope N_scope.

(** Packages and identifiers read back. *)
Class FrostStorage `{!Frost} := {
  id_deserialize : bytes → result string Identifier;
  kp_deserialize : bytes → result string KeyPackage;
  pk_deserialize : bytes → result string PublicKeyPackage;
}.
Class FrostStorageSpec `{!Frost, !FrostStorage} : Prop := {
  id_nonempty i : id_serialize i ≠ [];
  id_storage i : id_deserialize (id_serialize i) = Ok i;
  kp_storage k : ∃ b, kp_serialize k = Ok b ∧ kp_deserialize b = Ok k;
  pk_storage k : ∃ b, pk_serialize k = Ok b ∧ pk_deserialize b = Ok k;
}.
(** [into_even_y(None)], [tweak(None)]. *)
Class EvenY `{!Frost} := {
  kp_even_y : KeyPackage → KeyPackage;
  pk_even_y : PublicKeyPackage → PublicKeyPackage;
  kp_tweak : KeyPackage → KeyPackage;
  pk_tweak : PublicKeyPackage → PublicKeyPackage;
}.

Record ShareNames := mk_share_names {
  sn_tag : string;
  sn_label : string;
  sn_id : string;
  sn_pubkey : string;
  sn_roster : string;
  sn_min : string;
}.
Definition users_names : ShareNames :=
  mk_share_names "tr" "frost-tr" "frost-tr-dkg-id-" "frost-tr-dkg-pubkey" "frost-tr-roster" "frost-tr-min-signers".
Definition channels_names : ShareNames :=
  mk_share_names "tr-ch" "frost-tr-channels" "frost-tr-channels-dkg-id-" "frost-tr-channels-dkg-pubkey"
    "frost-tr-channels-roster" "frost-tr-channels-min-signers".

Section shares.
Context `{FR : Frost, FS : !FrostStorage, HX : HexCodec}.

Record FrostTrShareState := mk_share_state {
  key_packages : gmap Identifier KeyPackage;
  ts_pubkey_package : PublicKeyPackage;
  ts_min_signers : N;
}.

Section store.
Context {T : Type} `{ST : !ShareStore T}.
Implicit Types n : ShareNames.

Definition id_hex (id : Identifier) : string := hex_encode (id_serialize id).
Definition share_name n (hex : string) : string := sn_id n +:+ hex.

(** One entry per package, in identifier order; the first failure ends it. *)
Fixpoint put_packages n (l : list (Identifier * KeyPackage)) : dcmd T (list string) :=
  match l with
  | [] => mret []
  | (id, kp) :: r =>
      b ← lift (frost_call "{} key package serialize: {}" [sn_tag n] (kp_serialize kp));
      _ ← put_share (share_name n (id_hex id)) b;
      rest ← put_packages n r;
      mret (id_hex id :: rest)
  end.
Definition persist_shares n (s : FrostTrShareState) : dcmd T unit :=
  roster ← put_packages n (id_iter (key_packages s));
  pk_bytes ← lift (frost_call "{} pubkey package serialize: {}" [sn_tag n] (pk_serialize (ts_pubkey_package s)));
  _ ← put_share (sn_pubkey n) pk_bytes;
  _ ← put_share (sn_roster n) (bytes_of (join "," roster));
  put_share (sn_min n) (bytes_of (show (ts_min_signers s))).

Fixpoint load_packages n (l : list string) (acc : gmap Identifier KeyPackage) : dcmd T (gmap Identifier KeyPackage) :=
  match l with
  | [] => mret acc
  | hex :: r =>
      id_bytes ← lift (map_err (λ e, ShareStoreForbidden (format "{} roster id hex: {}" [sn_label n; e])) (hex_decode hex));
      id ← lift (frost_call "{} identifier deserialize: {}" [sn_tag n] (id_deserialize id_bytes));
      kp_bytes ← get_share (share_name n hex);
      kp ← lift (frost_call "{} key package deserialize: {}" [sn_tag n] (kp_deserialize kp_bytes));
      load_packages n r (<[id := kp]> acc)
  end.
Definition load_shares n : dcmd T FrostTrShareState :=
  roster_raw ← get_share (sn_roster n);
  roster ← lift (ok_or (from_utf8 roster_raw) (ShareStoreForbidden (format "{} roster is not utf8" [sn_label n])));
  min_raw ← get_share (sn_min n);
  min ← lift (ok_or (s ← from_utf8 min_raw; parse_uint u64_max (trim s))
    (ShareStoreForbidden (format "{} min_signers corrupt" [sn_label n])));
  pk_bytes ← get_share (sn_pubkey n);
  pk ← lift (frost_call "{} pubkey package deserialize: {}" [sn_tag n] (pk_deserialize pk_bytes));
  kps ← load_packages n (filter (λ s, s ≠ "") (split_char ","%char roster)) ∅;
  if bool_decide (kps = ∅) then fail (ShareStoreForbidden (format "{} roster empty" [sn_label n]))
  else mret (mk_share_state kps pk min).

Definition persist_tr_shares : FrostTrShareState → dcmd T unit := persist_shares users_names.
Definition load_tr_shares : dcmd T FrostTrShareState := load_shares users_names.
Definition persist_tr_channels_shares : FrostTrShareState → dcmd T unit := persist_shares channels_names.
Definition load_tr_channels_shares : dcmd T FrostTrShareState := load_shares channels_names.

(* ------------------------------------------------------------------ *)
(** ** What is stored comes back *)

Context `{SP : !ShareStoreSpec T, HS : !HexSpec, FSP : !FrostStorageSpec}.

Definition names_of n (l : list (Identifier * KeyPackage)) : list string := (λ p, share_name n (id_hex p.1)) <$> l.
(** All the names a keyset may be stored under. *)
Definition is_name n (i : string) : Prop :=
  i = sn_pubkey n ∨ i = sn_roster n ∨ i = sn_min n ∨ ∃ hex, i = share_name n hex.
(** The three fixed names and the prefix of the packages do not clash. *)
Record names_ok n : Prop := {
  no_pubkey_roster : sn_pubkey n ≠ sn_roster n;
  no_pubkey_min : sn_pubkey n ≠ sn_min n;
  no_roster_min : sn_roster n ≠ sn_min n;
  no_pubkey_id hex : sn_pubkey n ≠ share_name n hex;
  no_roster_id hex : sn_roster n ≠ share_name n hex;
  no_min_id hex : sn_min n ≠ share_name n hex;
}.
Lemma users_names_ok : names_ok users_names.
Proof. split; intros; discriminate. Qed.
Lemma channels_names_ok : names_ok channels_names.
Proof. split; intros; discriminate. Qed.
Lemma names_apart i : is_name users_names i → ¬ is_name channels_names i.
Proof.
  intros [->|[->|[->|[h ->]]]]; intros [E|[E|[E|[h' E]]]]; discriminate E.
Qed.

Lemma hex_encode_inj a b : hex_encode a = hex_encode b → a = b.
Proof. intros E. pose proof (hex_round a) as Ha. rewrite E, hex_round in Ha. by injection Ha. Qed.
Lemma id_hex_inj i j : id_hex i = id_hex j → i = j.
Proof.
  intros E%hex_encode_inj. pose proof (id_storage i) as Hi. rewrite E, id_storage in Hi. by injection Hi.
Qed.
Lemma app_inv_prefix (a x y : string) : a +:+ x = a +:+ y → x = y.
Proof. induction a as [|c a IH]; [done|]. intros He. apply IH. by injection He. Qed.
Lemma share_name_inj n i j : share_name n (id_hex i) = share_name n (id_hex j) → i = j.
Proof. intros E%app_inv_prefix. by apply id_hex_inj. Qed.

Lemma put_packages_ok n l (s : T) : working s → NoDup l.*1 → ∃ s',
  put_packages n l s = (s', Ok ((λ p, id_hex p.1) <$> l)) ∧ working s' ∧
  (∀ id kp, (id, kp) ∈ l → ∃ b, kp_deserialize b = Ok kp ∧ share_at s' (share_name n (id_hex id)) = Some b) ∧
  (∀ i, i ∉ names_of n l → share_at s' i = share_at s i).
Proof.
  revert s. induction l as [|[id kp] l IH]; intros s Hw Hnd.
  { exists s. split; [done|]. split; [done|]. split; [by intros ? ? ?%elem_of_nil|done]. }
  apply NoDup_cons in Hnd as [Hid Hnd]. destruct (kp_storage kp) as (b & Hb & Hd).
  destruct (put_ok s (share_name n (id_hex id)) b Hw) as (s1 & E1 & W1 & G1).
  destruct (IH s1 W1 Hnd) as (s2 & E2 & W2 & Hin & Hout). exists s2. split; [|split; [done|split]].
  - cbn [put_packages]. unfold mbind, cmd_bind, lift. rewrite Hb. cbn [frost_call map_err]. rewrite E1, E2. done.
  - intros id' kp' [[= -> ->]|Hl]%elem_of_cons; [|by apply Hin]. exists b. split; [done|].
    rewrite Hout, G1; [by rewrite decide_True|]. unfold names_of. intros ([j k] & E & Hj)%list_elem_of_fmap.
    apply share_name_inj in E. simpl in E. subst. apply Hid. apply list_elem_of_fmap. by exists (j, k).
  - intros i Hi. unfold names_of in Hi. rewrite fmap_cons in Hi. apply not_elem_of_cons in Hi as [Hne Hi].
    rewrite Hout by done. rewrite G1. by rewrite decide_False.
Qed.

Lemma load_packages_ok n l (s : T) acc : NoDup l.*1 →
  (∀ id kp, (id, kp) ∈ l → ∃ b, kp_deserialize b = Ok kp ∧ share_at s (share_name n (id_hex id)) = Some b) →
  load_packages n ((λ p, id_hex p.1) <$> l) acc s = (s, Ok (list_to_map l ∪ acc)).
Proof.
  revert acc. induction l as [|[id kp] l IH]; intros acc Hnd Hl; [by rewrite list_to_map_nil, (left_id_L ∅ (∪))|].
  apply NoDup_cons in Hnd as [Hid Hnd]. destruct (Hl id kp) as (b & Hd & Hat); [by left|].
  cbn [fmap list_fmap load_packages]. unfold mbind, cmd_bind, lift. cbn [fst].
  unfold id_hex at 1. rewrite hex_round. cbn [map_err]. rewrite id_storage. cbn [frost_call map_err].
  rewrite (get_ok s _ b Hat), Hd. cbn [frost_call map_err]. change (list_fmap _ _ ?f l) with (f <$> l).
  rewrite IH; [|done|intros; apply Hl; by right]. f_equal. f_equal.
  rewrite list_to_map_cons.
  rewrite <- insert_union_l. rewrite insert_union_r; [done|]. by apply not_elem_of_list_to_map.
Qed.

Lemma hex_no_comma b : no_char ","%char (hex_encode b).
Proof. apply (forallb_no_char is_lower_hexdigit); [done|apply hex_lower]. Qed.
Lemma id_hex_nonempty i : id_hex i ≠ "".
Proof.
  intros E. pose proof (hex_length (id_serialize i)) as Hl. unfold id_hex in E. rewrite E in Hl.
  pose proof (id_nonempty i). destruct (id_serialize i); [done|]. rewrite len_cons in Hl. change (str_len "") with 0 in Hl. lia.
Qed.

(** The roster's text splits back into its names. *)
Lemma roster_split (l : list Identifier) : filter (λ s, s ≠ "") (split_char ","%char (join "," (id_hex <$> l))) = id_hex <$> l.
Proof.
  assert (∀ k : list string, Forall (λ s, s ≠ "") k → filter (λ s, s ≠ "") k = k) as Hall.
  { intros k Hk. induction Hk as [|x k Hx _ IH]; [done|]. by rewrite filter_cons_True, IH. }
  destruct l as [|i l]; [reflexivity|]. rewrite (split_join ","%char).
  - apply Hall, Forall_forall. intros x (j & -> & _)%list_elem_of_fmap. apply id_hex_nonempty.
  - done.
  - apply Forall_forall. intros x (j & -> & _)%list_elem_of_fmap. apply hex_no_comma.
Qed.

Lemma roster_plain (l : list Identifier) : plain (join "," (id_hex <$> l)).
Proof.
  assert (∀ j, plain (id_hex j)) as Hj by (intros; apply (plain_impl is_lower_hexdigit); [apply lower_hexdigit_plain|apply hex_lower]).
  induction l as [|i [|j l] IH]; [done|apply Hj|]. rewrite !fmap_cons in *.
  rewrite (join_cons ","%char). unfold plain in *. rewrite bytes_of_app, forallb_app, Hj.
  change (bytes_of (String.String ?c ?x)) with (c :: bytes_of x). simpl. done.
Qed.

(** What it means that the store holds a keyset. *)
Record holds n (st : FrostTrShareState) (s : T) : Prop := {
  ho_roster : share_at s (sn_roster n) = Some (bytes_of (join "," (id_hex <$> (id_iter (key_packages st)).*1)));
  ho_min : share_at s (sn_min n) = Some (bytes_of (show (ts_min_signers st)));
  ho_pubkey : ∃ b, pk_deserialize b = Ok (ts_pubkey_package st) ∧ share_at s (sn_pubkey n) = Some b;
  ho_packages id kp : (id, kp) ∈ id_iter (key_packages st) →
    ∃ b, kp_deserialize b = Ok kp ∧ share_at s (share_name n (id_hex id)) = Some b;
}.

Lemma NoDup_id_iter {A} (m : gmap Identifier A) : NoDup (id_iter m).*1.
Proof. unfold id_iter. rewrite merge_sort_Permutation. apply NoDup_fst_map_to_list. Qed.
Lemma list_to_map_id_iter {A} (m : gmap Identifier A) : list_to_map (id_iter m) = m.
Proof.
  rewrite <- (list_to_map_to_list m) at 2. apply list_to_map_proper; [apply NoDup_id_iter|].
  unfold id_iter. apply merge_sort_Permutation.
Qed.

Lemma persist_holds n st (s : T) : names_ok n → working s → ∃ s',
  persist_shares n st s = (s', Ok tt) ∧ working s' ∧ holds n st s' ∧ ∀ i, ¬ is_name n i → share_at s' i = share_at s i.
Proof.
  intros Hn Hw. destruct (put_packages_ok n (id_iter (key_packages st)) s Hw) as (s1 & E1 & W1 & Hin & Hout);
    [apply NoDup_id_iter|]. destruct (pk_storage (ts_pubkey_package st)) as (b & Hb & Hd).
  destruct (put_ok s1 (sn_pubkey n) b W1) as (s2 & E2 & W2 & G2).
  destruct (put_ok s2 (sn_roster n) (bytes_of (join "," ((λ p, id_hex p.1) <$> id_iter (key_packages st)))) W2) as (s3 & E3 & W3 & G3).
  destruct (put_ok s3 (sn_min n) (bytes_of (show (ts_min_signers st))) W3) as (s4 & E4 & W4 & G4).
  exists s4. split; [|split; [done|]].
  { unfold persist_shares, mbind, cmd_bind, lift. rewrite E1, Hb. cbn [frost_call map_err]. rewrite E2, E3, E4. done. }
  destruct Hn. split; [split|].
  - rewrite G4, decide_False by done. rewrite G3, decide_True by done. by rewrite <- list_fmap_compose.
  - by rewrite G4, decide_True.
  - exists b. split; [done|]. rewrite G4, decide_False by done. rewrite G3, decide_False by done. by rewrite G2, decide_True.
  - intros id kp Hl. destruct (Hin id kp Hl) as (b' & ? & Hat). exists b'. split; [done|].
    rewrite G4, decide_False by auto. rewrite G3, decide_False by auto. by rewrite G2, decide_False by auto.
  - intros i Hi. unfold is_name in Hi.
    rewrite G4, decide_False by tauto. rewrite G3, decide_False by tauto. rewrite G2, decide_False by tauto.
    apply Hout. unfold names_of. intros ([j k] & -> & _)%list_elem_of_fmap. apply Hi. right; right; right. by eexists.
Qed.

Lemma load_holds n st (s : T) : holds n st s → key_packages st ≠ ∅ → ts_min_signers st ≤ u64_max →
  load_shares n s = (s, Ok st).
Proof.
  intros [H1 H2 (b & Hd & H3) H4] Hne Hmin. unfold load_shares, mbind, cmd_bind, lift.
  rewrite (get_ok s _ _ H1), from_utf8_plain by apply roster_plain. cbn [ok_or].
  rewrite (get_ok s _ _ H2), from_utf8_plain by apply show_plain. cbn [option_bind].
  rewrite trim_plain, parse_show by (done || apply show_plain). cbn [ok_or].
  rewrite (get_ok s _ _ H3), Hd. cbn [frost_call map_err]. rewrite roster_split, <- list_fmap_compose.
  change (id_hex ∘ fst) with (λ p : Identifier * KeyPackage, id_hex p.1).
  rewrite load_packages_ok; [|apply NoDup_id_iter|done]. rewrite list_to_map_id_iter, (right_id_L ∅ (∪)).
  rewrite bool_decide_false by done. by destruct st.
Qed.

Lemma holds_ext n st (s s' : T) : (∀ i, is_name n i → share_at s' i = share_at s i) → holds n st s → holds n st s'.
Proof.
  intros He []. split; rewrite ?He; unfold is_name; auto.
  intros id kp Hl. destruct (ho_packages0 id kp Hl) as (b & ? & Hat). exists b. split; [done|].
  rewrite He; [done|]. right; right; right. by eexists.
Qed.

(** Share material survives a restart: after the USERS keyset and then the CHANNELS keyset
    were persisted on a working store, each loads back exactly as it was, so neither is written
    under a name of the other, and neither name of any other share was touched. *)
Theorem tr_shares_round_trip u c (s : T) :
  working s → key_packages u ≠ ∅ → key_packages c ≠ ∅ → ts_min_signers u ≤ u64_max → ts_min_signers c ≤ u64_max →
  ∃ s1 s2, persist_tr_shares u s = (s1, Ok tt) ∧ persist_tr_channels_shares c s1 = (s2, Ok tt) ∧
    load_tr_shares s2 = (s2, Ok u) ∧ load_tr_channels_shares s2 = (s2, Ok c) ∧
    ∀ i, ¬ is_name users_names i → ¬ is_name channels_names i → share_at s2 i = share_at s i.
Proof.
  intros Hw Hu Hc Mu Mc.
  destruct (persist_holds users_names u s users_names_ok Hw) as (s1 & E1 & W1 & H1 & O1).
  destruct (persist_holds channels_names c s1 channels_names_ok W1) as (s2 & E2 & W2 & H2 & O2).
  exists s1, s2. split; [done|]. split; [done|]. split; [|split].
  - apply load_holds; [|done..]. eapply holds_ext; [|exact H1]. intros i Hi. apply O2. by apply names_apart.
  - by apply load_holds.
  - intros i Hi Hi'. by rewrite O2, O1.
Qed.
End store.
End shares.
