(* ===== verification/RateLimit.v ===== *)
(** * The sliding-window rate limiter ([adapters/rate_limit.rs])

    Per principal at most [limit] accepted events in any window. Times and the
    window are nanoseconds of the monotonic clock. *)
From S2P Require Import Prelude RustStr Errors.
Local Open Scope N_scope.

Record SlidingWindowLimiter := mk_limiter {
  limit : N;
  window : N;
  (** the window as [Debug] prints it *)
  window_debug : string;
  events : gmap string (list N);
}.
Definition limiter_new (limit window : N) (debug : string) : SlidingWindowLimiter :=
  mk_limiter (N.max limit 1) window debug ∅.
Definition auth_defaults : SlidingWindowLimiter := limiter_new 60 60000000000 "60s".
Definition prepare_defaults : SlidingWindowLimiter := limiter_new 30 60000000000 "60s".

Definition wrap32 (n : N) : N := n mod 4294967296.
Definition set_events (p : string) (l : list N) (s : SlidingWindowLimiter) : SlidingWindowLimiter :=
  mk_limiter (limit s) (window s) (window_debug s) (<[p := l]> (events s)).
(** Events younger than the window; [duration_since] saturates. *)
Definition recent (now window : N) (l : list N) : list N := filter (λ t, sat_sub now t < window) l.

Definition check (now : N) (principal : string) : dcmd SlidingWindowLimiter unit :=
  s ← get;
  let entry := recent now (window s) (default [] (events s !! principal)) in
  if limit s <=? wrap32 (len entry) then
    _ ← update (set_events principal entry);
    fail (RequestRejected (format "rate limit exceeded for principal (max {}/{})" [show (limit s); window_debug s]))
  else update (set_events principal (entry ++ [now])).

(* ------------------------------------------------------------------ *)
(** ** The bound *)

(** Run calls in order; the accepted times of each principal, oldest first. *)
Fixpoint run_checks (calls : list (N * string)) (s : SlidingWindowLimiter) : SlidingWindowLimiter * list (N * string) :=
  match calls with
  | [] => (s, [])
  | (now, p) :: r =>
      let '(s1, o) := check now p s in
      let '(s2, acc) := run_checks r s1 in
      (s2, if is_ok o then (now, p) :: acc else acc)
  end.
Definition times_of (p : string) (acc : list (N * string)) : list N := (filter (λ c, c.2 = p) acc).*1.
Definition in_window (a w : N) (l : list N) : list N := filter (λ t, a ≤ t < a + w) l.

(** [acc] are the accepted times of [p] so far, the last check of anybody was at [last]. *)
Record limiter_ok (lim w : N) (last : N) (p : string) (acc : list N) (s : SlidingWindowLimiter) : Prop := {
  lo_limit : limit s = lim;
  lo_window : window s = w;
  lo_past : Forall (λ t, t ≤ last) acc;
  lo_entry now : last ≤ now → recent now w (default [] (events s !! p)) = recent now w acc;
  lo_bound a : len (in_window a w acc) ≤ lim;
}.

Lemma recent_app now w l k : recent now w (l ++ k) = recent now w l ++ recent now w k.
Proof. apply filter_app. Qed.

Lemma recent_recent now now' w l : now ≤ now' → recent now' w (recent now w l) = recent now' w l.
Proof.
  intros Hle. unfold recent, sat_sub. rewrite list_filter_filter. apply list_filter_iff. intros t. lia.
Qed.

Lemma in_window_recent a now w l : Forall (λ t, t ≤ now) l → a ≤ now < a + w →
  len (in_window a w l) ≤ len (recent now w l).
Proof.
  intros Hl Ha. unfold len, in_window, recent. induction Hl as [|t l Ht _ IH]; [done|].
  rewrite !filter_cons. repeat case_decide; simpl; unfold sat_sub in *; lia.
Qed.

Lemma check_ok lim w last p acc now q s : limiter_ok lim w last p acc s → lim ≤ u32_max → last ≤ now →
  let '(s', o) := check now q s in
  limiter_ok lim w now p (if decide (q = p) then acc ++ (if is_ok o then [now] else []) else acc) s' ∧
  (q = p → is_ok o = true ↔ len (recent now w acc) < lim).
Proof.
  intros [E1 E2 Hp He Hb] Hlim Hle. unfold check, get, mbind, cmd_bind, update, fail. simpl.
  rewrite E1, E2. set (entry := recent now w (default [] (events s !! q))).
  assert (Forall (λ t, t ≤ now) acc) as Hp' by (eapply Forall_impl; [exact Hp|intros; simpl in *; lia]).
  destruct (decide (q = p)) as [->|Hqp].
  - assert (entry = recent now w acc) as Hentry by by apply He.
    assert (len entry ≤ lim) as Hlen.
    { destruct (decide (w = 0)) as [->|Hw].
      - rewrite Hentry. assert (recent now 0 acc = []) as ->; [|unfold len; simpl; lia].
        unfold recent. clear. induction acc as [|t l IH]; [done|]. rewrite filter_cons, IH. case_decide; [lia|done].
      - (* the recent events lie in one window *)
        rewrite Hentry. destruct (decide (w ≤ now)) as [Hwn|Hwn].
        + assert (recent now w acc = in_window (now - w + 1) w acc) as ->; [|apply Hb].
          unfold recent, in_window, sat_sub. clear -Hp' Hw Hwn. induction Hp' as [|t l Ht _ IH]; [done|].
          rewrite !filter_cons, IH. repeat case_decide; try done; lia.
        + assert (recent now w acc = in_window 0 w acc) as ->; [|apply Hb].
          unfold recent, in_window, sat_sub. clear -Hp' Hw Hwn. induction Hp' as [|t l Ht _ IH]; [done|].
          rewrite !filter_cons, IH. repeat case_decide; try done; lia. }
    assert (wrap32 (len entry) = len entry) as Hwrap
      by (unfold wrap32, u32_max in *; apply N.mod_small; lia).
    rewrite Hwrap. destruct (lim <=? len entry) eqn:Ec; nbool; simpl.
    + split; [|rewrite <- Hentry; split; [done|lia]]. rewrite app_nil_r. split; simpl; try done.
      intros now' Hn. rewrite lookup_insert_eq. simpl. rewrite Hentry. apply recent_recent. lia.
    + split; [|rewrite <- Hentry; split; [lia|done]]. split; simpl; try done.
      * apply Forall_app. split; [done|]. apply Forall_singleton. lia.
      * intros now' Hn. rewrite lookup_insert_eq. simpl. rewrite Hentry, !recent_app. f_equal.
        apply recent_recent. lia.
      * intros a. unfold in_window. rewrite filter_app, len_app. fold (in_window a w acc).
        change (filter (λ t, a ≤ t < a + w) [now]) with (in_window a w [now]).
        destruct (decide (a ≤ now < a + w)) as [Ha|Ha].
        -- pose proof (in_window_recent a now w acc Hp' Ha). rewrite Hentry in Ec.
           assert (in_window a w [now] = [now]) as -> by (unfold in_window; by rewrite filter_cons_True).
           unfold len in *. simpl. lia.
        -- assert (in_window a w [now] = []) as -> by (unfold in_window; by rewrite filter_cons_False).
           rewrite len_nil. pose proof (Hb a). lia.
  - destruct (lim <=? wrap32 (len entry)); simpl; (split; [|done]); split; simpl; try done;
      intros now' Hn; rewrite lookup_insert_ne by done; apply He; lia.
Qed.

Lemma limiter_new_ok lim w d last p : limiter_ok (N.max lim 1) w last p [] (limiter_new lim w d).
Proof. split; simpl; try done. intros a. unfold in_window. rewrite filter_nil, len_nil. lia. Qed.

Lemma times_of_cons now q acc p : times_of p ((now, q) :: acc) = (if decide (q = p) then [now] else []) ++ times_of p acc.
Proof. unfold times_of. rewrite filter_cons. simpl. case_decide; done. Qed.

Lemma run_checks_ok lim w p calls : ∀ last acc s, limiter_ok lim w last p acc s → lim ≤ u32_max →
  Sorted N.le (last :: calls.*1) →
  ∃ last', limiter_ok lim w last' p (acc ++ times_of p (run_checks calls s).2) (run_checks calls s).1.
Proof.
  induction calls as [|[now q] calls IH]; intros last acc s Hok Hlim Hs; simpl.
  { exists last. by rewrite app_nil_r. }
  apply Sorted_inv in Hs as [Hs Hle]. apply HdRel_inv in Hle.
  pose proof (check_ok lim w last p acc now q s Hok Hlim Hle) as Hc.
  destruct (check now q s) as [s1 o]. destruct Hc as [Hc _].
  destruct (IH _ _ _ Hc Hlim Hs) as [last' H]. destruct (run_checks calls s1) as [s2 acc2]. exists last'. simpl in *.
  destruct (is_ok o); rewrite ?times_of_cons; case_decide; by rewrite <- ?app_assoc in H; rewrite ?app_nil_r in H.
Qed.

(** The limiter's bound: along any calls whose clock readings do not go back, no interval as
    long as the window holds more accepted calls of a principal than its limit. *)
Theorem rate_limit_window lim w d calls p a :
  lim ≤ u32_max → Sorted N.le calls.*1 →
  len (in_window a w (times_of p (run_checks calls (limiter_new lim w d)).2)) ≤ N.max lim 1.
Proof.
  intros Hlim Hs. destruct (run_checks_ok (N.max lim 1) w p calls 0 [] (limiter_new lim w d)) as [last Hok].
  - apply limiter_new_ok.
  - unfold u32_max in *. lia.
  - constructor; [done|]. destruct calls; constructor. lia.
  - apply (lo_bound _ _ _ _ _ _ Hok).
Qed.

(** Three quick calls under a limit of two: the third is refused, a later one accepted. *)
Definition sample_calls : list (N * string) := [(0, "a"); (1, "a"); (2, "a"); (2, "b"); (100, "a")].
Lemma rate_limit_window_witness :
  times_of "a" (run_checks sample_calls (limiter_new 2 60 "60ns")).2 = [0; 1; 100] ∧
  len (in_window 0 60 (times_of "a" (run_checks sample_calls (limiter_new 2 60 "60ns")).2)) ≤ N.max 2 1.
Proof.
  split; [vm_compute; reflexivity|]. apply rate_limit_window; [vm_compute; discriminate|].
  unfold sample_calls. simpl. repeat (constructor; try (vm_compute; discriminate)).
Defined.

(** An entry is made for every principal name a caller sends, and never removed. *)
Lemma limiter_keeps_names now p s q : is_Some (events s !! q) → is_Some (events (check now p s).1 !! q).
Proof.
  intros Hq. unfold check, get, mbind, cmd_bind, update, fail. simpl.
  destruct (limit s <=? _); simpl; destruct (decide (p = q)) as [->|];
    rewrite ?lookup_insert_eq, ?lookup_insert_ne by done; eauto.
Qed.
