(* ===== verification/WireDkgMesh.v ===== *)
(** * A mesh of over-wire hubs agrees on the group key

    Vaults run [adapters/dkg_wire.rs] over a network that delays, duplicates,
    reorders and drops their messages; peers outside the mesh say what they like in
    their own names, which [bind_dkg_sender_to_peer] holds them to. One start call of
    a session does not overlap another on the same vault. *)
From S2P Require Import Prelude RustStr Errors Identity Frost HybridEnvelope WireDkg WireRoster WireHub AuthIdentity.
Local Open Scope N_scope.

(* ------------------------------------------------------------------ *)
(** ** The members of a roster and what they compute *)

Section members.
Context `{FR : Frost}.

Definition identifiers (R : gmap string Identifier) (id : Identifier) : Prop := ∃ x, R !! x = Some id.

Lemma size_list_to_set_le `{Countable A} (l : list A) : (size (list_to_set l : gset A) ≤ length l)%nat.
Proof.
  induction l as [|a l IH]; [by rewrite list_to_set_nil, size_empty|].
  rewrite list_to_set_cons, size_union_alt, size_singleton. simpl.
  apply le_n_S. etrans; [apply subseteq_size|exact IH]. set_solver.
Qed.

(** At most one package per member. *)
Lemma size_le_roster {A} (m : gmap Identifier A) (R : gmap string Identifier) :
  (∀ i, is_Some (m !! i) → identifiers R i) → (size m ≤ size R)%nat.
Proof.
  intros Hm. rewrite <- size_dom. transitivity (size (list_to_set (map_to_list R).*2 : gset Identifier)).
  - apply subseteq_size. intros i Hi%elem_of_dom%Hm. destruct Hi as [x Hx].
    apply elem_of_list_to_set, list_elem_of_fmap. exists (x, i). split; [done|]. by apply elem_of_map_to_list.
  - etrans; [apply size_list_to_set_le|]. by rewrite length_fmap, length_map_to_list.
Qed.

(** Nothing is missing when the sizes agree. *)
Lemma has_all {A} (m : gmap Identifier A) (R : gmap string Identifier) id :
  (∀ i, is_Some (m !! i) → identifiers R i) → (size R ≤ size m)%nat → identifiers R id → is_Some (m !! id).
Proof.
  intros Hm Hsz Hid. destruct (m !! id) as [x|] eqn:E; [by eexists|exfalso].
  assert (size (gset_to_gmap tt ({[id]} ∪ dom m)) ≤ size R)%nat as Hle.
  { apply size_le_roster. intros i [[] [Hi _]%lookup_gset_to_gmap_Some].
    apply elem_of_union in Hi as [->%elem_of_singleton|Hi%elem_of_dom]; [done|by apply Hm]. }
  rewrite <- size_dom, dom_gset_to_gmap, size_union, size_singleton, size_dom in Hle; [lia|].
  apply disjoint_singleton_l. by apply not_elem_of_dom.
Qed.

Context `{FC : !FrostCodec}.

(** Everyone's [part1] by identifier. *)
Implicit Types G : string → string → Round1Secret * Round1Package.

Definition own_of G sid (R : gmap string Identifier) : gmap Identifier (Round1Secret * Round1Package) :=
  list_to_map ((λ p, (p.2, G p.1 sid)) <$> map_to_list R).

Lemma lookup_own_of G sid R id sp : roster_wf R →
  own_of G sid R !! id = Some sp ↔ ∃ y, R !! y = Some id ∧ sp = G y sid.
Proof.
  intros Hw. unfold own_of. rewrite <- elem_of_list_to_map.
  - rewrite list_elem_of_fmap. split.
    + intros ([y j] & [= -> ->] & Hy%elem_of_map_to_list). by exists y.
    + intros (y & Hy & ->). exists (y, id). split; [done|]. by apply elem_of_map_to_list.
  - rewrite <- list_fmap_compose. apply NoDup_fmap_2_strong; [|apply NoDup_map_to_list].
    intros [y j] [z k] Hy%elem_of_map_to_list Hz%elem_of_map_to_list E. simpl in E. subst.
    f_equal. by eapply roster_wf_inj.
Qed.

Lemma size_own_of G sid R : roster_wf R → size (own_of G sid R) = size R.
Proof.
  intros Hw. apply Nat.le_antisymm.
  - apply size_le_roster. intros i [sp (y & Hy & _)%lookup_own_of]; [by exists y|done].
  - rewrite <- (length_map_to_list R), <- size_dom.
    rewrite <- (length_fmap snd (map_to_list R)).
    rewrite <- (size_list_to_set (C:=gset Identifier)).
    + apply subseteq_size. intros i ([y j] & -> & Hy%elem_of_map_to_list)%elem_of_list_to_set%list_elem_of_fmap.
      apply elem_of_dom. exists (G y sid). apply lookup_own_of; [done|]. by exists y.
    + apply NoDup_fmap_2_strong; [|apply NoDup_map_to_list].
      intros [y j] [z k] Hy%elem_of_map_to_list Hz%elem_of_map_to_list E. simpl in E. subst.
      f_equal. by eapply roster_wf_inj.
Qed.

Lemma forall_or {A} (P : A → Prop) (C : Prop) (l : list A) :
  (∀ x, x ∈ l → P x ∨ C) → (∀ x, x ∈ l → P x) ∨ C.
Proof.
  intros H. induction l as [|a l IH]; [left; by intros ? ?%elem_of_nil|].
  destruct (H a ltac:(by left)) as [Ha|]; [|by right]. destruct IH as [IH|]; [intros; apply H; by right| |by right].
  left. intros x [->|]%elem_of_cons; auto.
Qed.

(** Keys of a complete session, when everyone's messages are those of honest key generation. *)
Definition honest_outs sid G (R : gmap string Identifier)
    (outs : gmap Identifier (Round2Secret * gmap Identifier Round2Package)) : Prop :=
  ∀ i sp so, own_of G sid R !! i = Some sp → outs !! i = Some so →
    part2 sp.1 (delete i (snd <$> own_of G sid R)) = Ok so ∧ dom so.2 = dom (own_of G sid R) ∖ {[i]}.

Lemma size_inbox_of G sid R outs i : dom outs = dom (own_of G sid R) → honest_outs sid G R outs →
  i ∈ dom outs → (size (inbox_of outs i) < size (own_of G sid R))%nat.
Proof.
  intros Hd Ho Hi. rewrite <- !size_dom. apply subset_size. split.
  - intros j [p Hp]%elem_of_dom. unfold inbox_of in Hp. rewrite lookup_omap in Hp.
    rewrite <- Hd. apply elem_of_dom. destruct (outs !! j); [by eexists|done].
  - intros Hsub. rewrite <- Hd in Hsub. specialize (Hsub i Hi). apply elem_of_dom in Hsub as [p Hp].
    unfold inbox_of in Hp. rewrite lookup_omap in Hp. destruct (outs !! i) as [so|] eqn:E; [|done]. simpl in Hp.
    assert (is_Some (own_of G sid R !! i)) as [sp Hsp] by (apply elem_of_dom; by rewrite <- Hd).
    destruct (Ho i sp so Hsp E) as [_ Hso]. assert (i ∈ dom so.2) as Hin by (apply elem_of_dom; by eexists).
    rewrite Hso in Hin. set_solver.
Qed.

End members.

(* ------------------------------------------------------------------ *)
(** ** The mesh *)

Section mesh.
Context `{FR : Frost, HX : HexCodec, SH : Sha256}.
Context {T : Type} (w : WireSuite).
Context (sink : KeySink T) (kform : KeyPackage → KeyPackage) (pform : PublicKeyPackage → PublicKeyPackage).
Context (Hsink : ∀ s kp pk t t' r, sink s kp pk t = (t', Ok r) → r = (kform kp, pform pk)).

Record Mesh := mk_mesh {
  nodes : gmap string (WireDkgHub * T);
  sent1 : list Round1WireMessage;
  sent2 : list Round2WireMessage;
}.
Definition set_node (x : string) (n : WireDkgHub * T) (m : Mesh) : Mesh :=
  mk_mesh (<[x := n]> (nodes m)) (sent1 m) (sent2 m).
Definition say1 (r : res (WireDkgStatus * Round1WireMessage)) (m : Mesh) : Mesh :=
  match r with Ok (_, msg) => mk_mesh (nodes m) (msg :: sent1 m) (sent2 m) | Err _ => m end.
Definition say2 (r : res (list Round2WireMessage)) (m : Mesh) : Mesh :=
  match r with Ok msgs => mk_mesh (nodes m) (sent1 m) (msgs ++ sent2 m) | Err _ => m end.

(** What a peer that is not of the mesh can make the routes accept. *)
Definition foreign (m : Mesh) (sender : string) : Prop :=
  ∃ p, bind_dkg_sender_to_peer sender (Some p) false = Ok tt ∧ lab_omnipotent p = false ∧
    pr_node_id p ∉ dom (nodes m).

Inductive mesh_step : Mesh → Mesh → Prop :=
| M_start m x n req rng : nodes m !! x = Some n →
    mesh_step m (let r := on_hub (start w req rng) n in say1 r.2 (set_node x r.1 m))
| M_round1 m x n msg : nodes m !! x = Some n → msg ∈ sent1 m ∨ foreign m (r1m_sender_node_id msg) →
    mesh_step m (set_node x (on_hub (ingest_round1 w msg) n).1 m)
| M_round2 m x n msg : nodes m !! x = Some n → msg ∈ sent2 m ∨ foreign m (r2m_sender_node_id msg) →
    mesh_step m (set_node x (on_hub (ingest_round2 w msg) n).1 m)
| M_take m x n sid : nodes m !! x = Some n →
    mesh_step m (let r := on_hub (take_round2_outbound w sid) n in say2 r.2 (set_node x r.1 m))
| M_finalize m x n sid : nodes m !! x = Some n →
    mesh_step m (set_node x (finalize_with sink w sid n).1 m).

(** Nothing started, nothing sent. *)
Definition mesh_start (m : Mesh) : Prop :=
  (∀ x n, nodes m !! x = Some n → n.1 = hub_new x) ∧ sent1 m = [] ∧ sent2 m = [].

Lemma foreign_not_node m sender : foreign m sender → trim sender ∉ dom (nodes m).
Proof.
  intros (p & Hb & Hl & Hp). unfold bind_dkg_sender_to_peer in Hb. rewrite guard_ok in Hb. destruct Hb as [_ Hb].
  simpl in Hb. rewrite Hl in Hb. rewrite !guard_ok in Hb. destruct Hb as (_ & Hn & _). nbool. congruence.
Qed.

(* ------------------------------------------------------------------ *)
(** ** The invariant of one session. [sp] is what its [part1] gave. *)

Record session_inv (x sid : string) (sp : Round1Secret * Round1Package) (s : SessionInner) : Prop := {
  si_id : session_id s = sid;
  si_node : local_node_id s = x;
  si_wf : roster_wf (roster s);
  si_local : roster s !! x = Some (local_identifier s);
  si_size : N.of_nat (size (roster s)) = max_signers s;
  si_threshold : 2 ≤ min_signers s ≤ max_signers s;
  si_transcript : transcript_hex s = session_transcript w sid (max_signers s) (min_signers s) (roster s);
  si_part1 : ∃ r, part1 (local_identifier s) (max_signers s) (min_signers s) r = Ok sp;
  si_own : round1_packages s !! local_identifier s = Some sp.2;
  si_senders i : is_Some (round1_packages s !! i) → identifiers (roster s) i;
  si_inbox i : is_Some (round2_inbox s !! i) → identifiers (roster s) i;
  si_round1 : phase s = Round1 → round2_outbound s = ∅ ∧ round2_secret s = None ∧ ∀ secret, round1_secret s = Some secret → secret = sp.1;
  si_round2 : phase s ≠ Round1 → size (round1_packages s) = size (roster s) ∧
    ∃ so, part2 sp.1 (delete (local_identifier s) (round1_packages s)) = Ok so ∧
      round2_outbound s ⊆ so.2 ∧ (phase s = Round2 → round2_secret s = Some so.1) ∧
      (phase s = Complete → max_signers s - 1 ≤ N.of_nat (size (round2_inbox s)) ∧ ∃ kp pk,
        pubkey_package s = Some (pform pk) ∧ key_package s = Some (kform kp) ∧
        part3 so.1 (delete (local_identifier s) (round1_packages s)) (round2_inbox s) = Ok (kp, pk));
}.

Context `{FC : !FrostCodec}.

Lemma fresh_session_inv x req s : fresh_session w x req s → ∃ sp, session_inv x (sr_session_id req) sp s.
Proof.
  intros (R & t & id & sp & rng & (Hw & Hn & Ht & Htr)%start_check_ok & Hid & Hp & ->). exists sp.
  split; simpl; try done; try lia; [by exists rng|by rewrite lookup_singleton_eq| | |].
  - intros i [y Hy]. apply lookup_singleton_Some in Hy as [<- _]. by exists x.
  - intros i [y Hy]. by rewrite lookup_empty in Hy.
  - intros _. split; [done|]. split; [done|]. congruence.
Qed.

(** A full round 1 has everyone's package. *)
Lemma round1_full_size s id p : roster_wf (roster s) → N.of_nat (size (roster s)) = max_signers s →
  (∀ i, is_Some (round1_packages s !! i) → identifiers (roster s) i) → identifiers (roster s) id →
  round1_full (set_round1_packages <[id := p]> s) = true → size (<[id := p]> (round1_packages s)) = size (roster s).
Proof.
  intros Hw Hn Hs Hid Hf. unfold round1_full in Hf. nbool. destruct_and?. nbool. cbn in *.
  assert (size (<[id := p]> (round1_packages s)) ≤ size (roster s))%nat as Hle.
  { apply size_le_roster. intros i [y Hy]. destruct (decide (i = id)) as [->|]; [done|].
    rewrite lookup_insert_ne in Hy by done. by apply Hs. }
  pose proof (rw_size _ Hw). match goal with H : wrap16 _ = _ |- _ => rewrite wrap16_small in H by lia end. lia.
Qed.

Lemma ingest1_inv x sid sp msg s s' : session_inv x sid sp s → ingest1_effect w msg s s' → session_inv x sid sp s'.
Proof.
  intros I E. destruct E as [|id p Ha _|id p secret so Ha Hf Hsec Hp2|id p secret e Ha _ _ _]; [done|..].
  all: pose proof (a1_sender _ _ _ _ _ Ha) as Hsend; pose proof (a1_phase _ _ _ _ _ Ha) as Hph;
    pose proof (a1_peer _ _ _ _ _ Ha) as Hpeer; pose proof (si_round1 _ _ _ _ I Hph) as (Hout & Hsec2 & Hsp).
  all: assert (∀ i, is_Some (<[id:=p]> (round1_packages s) !! i) → identifiers (roster s) i) as Hs
    by (intros i [y Hy]; destruct (decide (i = id)) as [->|];
        [by eexists|rewrite lookup_insert_ne in Hy by done; eapply si_senders; eauto]).
  all: assert (<[id:=p]> (round1_packages s) !! local_identifier s = Some sp.2) as Hown
    by (rewrite lookup_insert_ne by done; by eapply si_own).
  - destruct I. split; simpl; try done.
  - assert (size (<[id := p]> (round1_packages s)) = size (roster s)) as Hsz.
    { apply (round1_full_size s id p); [by apply I|by apply I|apply (si_senders _ _ _ _ I)|by eexists|done]. }
    rewrite (Hsp _ Hsec) in Hp2. destruct I. split; simpl; try done. intros _. split; [done|].
    exists so. done.
  - destruct I. split; simpl; try done.
Qed.

Lemma ingest2_inv x sid sp msg s s' : session_inv x sid sp s → ingest2_effect w msg s s' → session_inv x sid sp s'.
Proof.
  intros I E. destruct E as [|id p Ha]; [done|]. destruct Ha, I. split; simpl; try done.
  - intros i [y Hy]. destruct (decide (i = id)) as [->|]; [by eexists|].
    rewrite lookup_insert_ne in Hy by done. eauto.
  - intros Hp. destruct (si_round4 Hp) as (? & so & ? & ? & ? & _). split; [done|]. by exists so.
Qed.

Lemma take_inv x sid sp s : session_inv x sid sp s → session_inv x sid sp (set_round2_outbound ∅ s).
Proof.
  intros []. split; simpl; try done; [naive_solver|]. intros Hp. destruct (si_round4 Hp) as (? & so & ? & ? & ?).
  split; [done|]. exists so. split; [done|]. split; [apply map_empty_subseteq|done].
Qed.

Lemma finalize_inv x sid sp s kp pk : session_inv x sid sp s → phase s ≠ Complete →
  finalize_keys w s = Ok (kp, pk) → session_inv x sid sp (enter_complete (kform kp) (pform pk) s).
Proof.
  intros I Hc (Hn & (secret & Hsec & H3) & _)%finalize_keys_ok.
  assert (phase s = Round2) as Hp.
  { destruct (phase s) eqn:Hp; [|done..]. destruct (si_round1 _ _ _ _ I Hp) as (_ & ? & _). congruence. }
  destruct I. split; simpl; try done. intros _. rewrite Hp in si_round4.
  destruct (si_round4 ltac:(done)) as (? & so & Hso & Hsub & Hsec2 & _). split; [done|]. exists so.
  split; [done|]. split; [done|]. split; [done|]. intros _. split; [done|]. exists kp, pk.
  rewrite Hsec2 in Hsec by done. by injection Hsec as ->.
Qed.

(* ------------------------------------------------------------------ *)
(** ** The invariant of the mesh. [G] is what every vault's [part1] gave. *)

Implicit Types G : string → string → Round1Secret * Round1Package.

(** Vault [y] announced the package [p] for the session of transcript [t]. *)
Definition said1 (m : Mesh) G (sid t y : string) (p : Round1Package) : Prop :=
  ∃ n sy, nodes m !! y = Some n ∧ sessions n.1 !! sid = Some sy ∧ transcript_hex sy = t ∧ p = (G y sid).2.
(** Vault [y] computed the package [p] for [rcpt]. *)
Definition said2 (m : Mesh) G (sid t rcpt y : string) (p : Round2Package) : Prop :=
  ∃ n sy so rid, nodes m !! y = Some n ∧ sessions n.1 !! sid = Some sy ∧ transcript_hex sy = t ∧ phase sy ≠ Round1 ∧
    part2 (G y sid).1 (delete (local_identifier sy) (round1_packages sy)) = Ok so ∧
    roster sy !! rcpt = Some rid ∧ so.2 !! rid = Some p.

(** What a session has from a vault of the mesh is what that vault said. *)
Record heard (m : Mesh) G (sid : string) (s : SessionInner) : Prop := {
  heard1 y id p : roster s !! y = Some id → y ∈ dom (nodes m) → id ≠ local_identifier s →
    round1_packages s !! id = Some p → said1 m G sid (transcript_hex s) y p;
  heard2 y id p : roster s !! y = Some id → y ∈ dom (nodes m) →
    round2_inbox s !! id = Some p → said2 m G sid (transcript_hex s) (local_node_id s) y p;
}.

Record mesh_inv G (m : Mesh) : Prop := {
  mi_node x n : nodes m !! x = Some n → hub_node_id n.1 = x;
  mi_session x n sid s : nodes m !! x = Some n → sessions n.1 !! sid = Some s →
    session_inv x sid (G x sid) s ∧ heard m G sid s;
  mi_sent1 msg : msg ∈ sent1 m → ∃ p b,
    said1 m G (r1m_session_id msg) (r1m_transcript_hex msg) (r1m_sender_node_id msg) p ∧
    r1_serialize p = Ok b ∧ r1m_package_hex msg = hex_encode b;
  mi_sent2 msg : msg ∈ sent2 m → ∃ p b,
    said2 m G (r2m_session_id msg) (r2m_transcript_hex msg) (r2m_recipient_node_id msg) (r2m_sender_node_id msg) p ∧
    r2_serialize p = Ok b ∧ r2m_package_hex msg = hex_encode b;
}.

(** A later mesh: the same vaults, later hubs, the same known secrets. *)
Record later G G' (m m' : Mesh) : Prop := {
  lt_dom : dom (nodes m') = dom (nodes m);
  lt_hub y n : nodes m !! y = Some n → ∃ n', nodes m' !! y = Some n' ∧ hub_le n.1 n'.1;
  lt_known y n sid s : nodes m !! y = Some n → sessions n.1 !! sid = Some s → G' y sid = G y sid;
}.

Lemma said1_later G G' m m' sid t y p : later G G' m m' → said1 m G sid t y p → said1 m' G' sid t y p.
Proof.
  intros L (n & sy & Hn & Hs & Ht & Hp). destruct (lt_hub _ _ _ _ L y n Hn) as (n' & Hn' & _ & Hle).
  destruct (Hle sid sy Hs) as (sy' & Hs' & [C _ _ _ _ _]). exists n', sy'. split; [done|]. split; [done|].
  unfold constitution in C. split; [congruence|]. by rewrite (lt_known _ _ _ _ L y n sid sy).
Qed.

Lemma said2_later G G' m m' sid t r y p : later G G' m m' → said2 m G sid t r y p → said2 m' G' sid t r y p.
Proof.
  intros L (n & sy & so & rid & Hn & Hs & Ht & Hph & Hp2 & Hr & Hp).
  destruct (lt_hub _ _ _ _ L y n Hn) as (n' & Hn' & _ & Hle).
  destruct (Hle sid sy Hs) as (sy' & Hs' & [C P _ F _ _]). exists n', sy', so, rid. unfold constitution in C.
  rewrite (lt_known _ _ _ _ L y n sid sy) by done. rewrite (F Hph).
  replace (local_identifier sy') with (local_identifier sy) by congruence.
  replace (roster sy') with (roster sy) by congruence.
  split; [done|]. split; [done|]. split; [congruence|]. split; [|done].
  intros E. rewrite E in P. destruct (phase sy); simpl in P; [done|lia..].
Qed.

Lemma heard_later G G' m m' sid s : later G G' m m' → heard m G sid s → heard m' G' sid s.
Proof.
  intros L [H1 H2]. split; intros y id p Hr Hy; rewrite (lt_dom _ _ _ _ L) in Hy; intros.
  - eapply said1_later; eauto.
  - eapply said2_later; eauto.
Qed.

(** One vault moved. *)
Lemma mesh_inv_node G G' m x n n' : mesh_inv G m → nodes m !! x = Some n → hub_le n.1 n'.1 →
  (∀ y k sid s, nodes m !! y = Some k → sessions k.1 !! sid = Some s → G' y sid = G y sid) →
  (∀ sid s, sessions n'.1 !! sid = Some s → session_inv x sid (G' x sid) s ∧ heard (set_node x n' m) G' sid s) →
  mesh_inv G' (set_node x n' m).
Proof.
  intros I Hn Hle HG Hx. assert (later G G' m (set_node x n' m)) as L.
  { split; simpl.
    - apply dom_insert_lookup_L. eauto.
    - intros y k Hk. destruct (decide (y = x)) as [->|].
      + rewrite lookup_insert_eq. simplify_eq. eauto.
      + rewrite lookup_insert_ne by done. exists k. by split.
    - intros. by eapply HG. }
  split; simpl.
  - intros y k Hk. apply lookup_insert_Some in Hk as [[<- <-]|[_ Hk]]; [|by eapply mi_node].
    destruct Hle as [-> _]. by eapply mi_node.
  - intros y k sid s Hk Hs. apply lookup_insert_Some in Hk as [[<- <-]|[_ Hk]]; [by apply Hx|].
    destruct (mi_session _ _ I y k sid s Hk Hs) as [Hi Hh]. rewrite (HG y k sid s) by done.
    split; [done|by eapply heard_later].
  - intros msg Hm. destruct (mi_sent1 _ _ I msg Hm) as (p & b & ? & ?). exists p, b. split; [by eapply said1_later|done].
  - intros msg Hm. destruct (mi_sent2 _ _ I msg Hm) as (p & b & ? & ?). exists p, b. split; [by eapply said2_later|done].
Qed.

Lemma heard_set_node G m x n n' sid s : nodes m !! x = Some n → hub_le n.1 n'.1 →
  heard m G sid s → heard (set_node x n' m) G sid s.
Proof.
  intros Hn Hle. apply heard_later. split; simpl; [apply dom_insert_lookup_L; eauto| |done].
  intros y k Hk. destruct (decide (y = x)) as [->|].
  - rewrite lookup_insert_eq. simplify_eq. eauto.
  - rewrite lookup_insert_ne by done. exists k. by split.
Qed.

(** One session of one vault moved. *)
Lemma mesh_inv_session G m x n n' sid s s' : mesh_inv G m → nodes m !! x = Some n → sessions n.1 !! sid = Some s →
  hub_node_id n'.1 = hub_node_id n.1 → sessions n'.1 = <[sid := s']> (sessions n.1) → session_le s s' →
  session_inv x sid (G x sid) s' → heard m G sid s' → mesh_inv G (set_node x n' m).
Proof.
  intros I Hn Hs Hid Hs' Hle Hi Hh. assert (hub_le n.1 n'.1) as HL.
  { split; [done|]. rewrite Hs'. apply (set_session_le sid s s' n.1 Hs Hle). }
  eapply mesh_inv_node; [done..|]. intros sid' z Hz. rewrite Hs' in Hz.
  apply lookup_insert_Some in Hz as [[<- <-]|[_ Hz]].
  - split; [done|by eapply heard_set_node].
  - destruct (mi_session _ _ I x n sid' z Hn Hz). split; [done|by eapply heard_set_node].
Qed.

(** More is said. *)
Lemma mesh_inv_say G m l1 l2 : mesh_inv G m →
  (∀ msg, msg ∈ l1 → ∃ p b,
    said1 m G (r1m_session_id msg) (r1m_transcript_hex msg) (r1m_sender_node_id msg) p ∧
    r1_serialize p = Ok b ∧ r1m_package_hex msg = hex_encode b) →
  (∀ msg, msg ∈ l2 → ∃ p b,
    said2 m G (r2m_session_id msg) (r2m_transcript_hex msg) (r2m_recipient_node_id msg) (r2m_sender_node_id msg) p ∧
    r2_serialize p = Ok b ∧ r2m_package_hex msg = hex_encode b) →
  mesh_inv G (mk_mesh (nodes m) (l1 ++ sent1 m) (l2 ++ sent2 m)).
Proof.
  intros [] H1 H2. split; simpl; [done| | |].
  - intros x n sid s Hn Hs. destruct (mi_session0 x n sid s Hn Hs) as [? Hh]. split; [done|].
    revert Hh. apply heard_later. split; [done| |done]. intros y k Hk. exists k. by split.
  - intros msg Hm. apply elem_of_app in Hm as [Hm|Hm]; [by apply H1|by apply mi_sent3].
  - intros msg Hm. apply elem_of_app in Hm as [Hm|Hm]; [by apply H2|by apply mi_sent4].
Qed.

Context `{HS : !HexSpec}.

Lemma decoded_round1 p b x q : r1_serialize p = Ok b → hex_decode (hex_encode b) = Ok x →
  r1_deserialize x = Ok q → q = p.
Proof. intros Hb. rewrite hex_round. intros [= <-]. destruct (r1_round p) as (b' & ? & ?). simplify_eq. congruence. Qed.
Lemma decoded_round2 p b x q : r2_serialize p = Ok b → hex_decode (hex_encode b) = Ok x →
  r2_deserialize x = Ok q → q = p.
Proof. intros Hb. rewrite hex_round. intros [= <-]. destruct (r2_round p) as (b' & ? & ?). simplify_eq. congruence. Qed.

(** A member's name in a message is that of the peer that sent it. *)
Lemma foreign_not_member m s sender id : roster_wf (roster s) → roster s !! sender = Some id →
  foreign m sender → sender ∉ dom (nodes m).
Proof.
  intros Hw Hr Hf%foreign_not_node. by rewrite (rw_trimmed _ Hw sender) in Hf by eauto.
Qed.

Lemma heard_ingest1 G m x s s' msg : mesh_inv G m → session_inv x (r1m_session_id msg) (G x (r1m_session_id msg)) s →
  msg ∈ sent1 m ∨ foreign m (r1m_sender_node_id msg) → ingest1_effect w msg s s' →
  heard m G (r1m_session_id msg) s → heard m G (r1m_session_id msg) s'.
Proof.
  intros I Hi Hsrc He [H1 H2]. pose proof (si_wf _ _ _ _ Hi) as Hw.
  assert (∀ id p, accepts_round1 w msg s id p → ∀ y j q, roster s !! y = Some j → y ∈ dom (nodes m) →
    j ≠ local_identifier s → <[id := p]> (round1_packages s) !! j = Some q →
    said1 m G (r1m_session_id msg) (transcript_hex s) y q) as Hadd.
  { intros id p Ha y j q Hy Hdom Hj Hq. apply lookup_insert_Some in Hq as [[-> ->]|[_ Hq]]; [|by eapply H1].
    destruct Ha as [_ _ _ _ Htr Hsnd Htry _ (b' & Hb' & Hd)]. assert (y = r1m_sender_node_id msg) as -> by by eapply roster_wf_inj.
    destruct Hsrc as [Hm|Hf]; [|by eapply foreign_not_member in Hf].
    destruct (mi_sent1 _ _ I msg Hm) as (p' & b & Hsaid & Hb & Hhex). rewrite <- Htr. rewrite Hhex in Hb'. by rewrite (decoded_round1 p' b b' q). }
  destruct He; split; simpl; eauto.
Qed.

Lemma heard_ingest2 G m x s s' msg : mesh_inv G m → session_inv x (r2m_session_id msg) (G x (r2m_session_id msg)) s →
  msg ∈ sent2 m ∨ foreign m (r2m_sender_node_id msg) → ingest2_effect w msg s s' →
  heard m G (r2m_session_id msg) s → heard m G (r2m_session_id msg) s'.
Proof.
  intros I Hi Hsrc He [H1 H2]. pose proof (si_wf _ _ _ _ Hi) as Hw. destruct He as [|id p Ha]; [done|].
  split; simpl; [done|]. intros y j q Hy Hdom Hq. apply lookup_insert_Some in Hq as [[-> ->]|[_ Hq]]; [|by eapply H2].
  destruct Ha as [_ Htr Hrc Hsnd Htry (b' & Hb' & Hd)]. assert (y = r2m_sender_node_id msg) as -> by by eapply roster_wf_inj.
  destruct Hsrc as [Hm|Hf]; [|by eapply foreign_not_member in Hf].
  destruct (mi_sent2 _ _ I msg Hm) as (p' & b & Hsaid & Hb & Hhex). rewrite <- Htr, <- Hrc. rewrite Hhex in Hb'. by rewrite (decoded_round2 p' b b' q).
Qed.

Lemma mesh_inv_on_session {A} G m x n sid (c : dcmd SessionInner A) h' :
  mesh_inv G m → nodes m !! x = Some n → on_session sid c n.1 h' →
  (∀ s, session_le s (c s).1) →
  (∀ s, session_inv x sid (G x sid) s → heard m G sid s → session_inv x sid (G x sid) (c s).1 ∧ heard m G sid (c s).1) →
  mesh_inv G (set_node x (h', n.2) m).
Proof.
  intros I Hn [->|(s & Hs & ->)] Hle Hc.
  - replace (set_node x (n.1, n.2) m) with m; [done|]. destruct m, n. unfold set_node. cbn in *. by rewrite insert_id.
  - destruct (mi_session _ _ I x n sid s Hn Hs) as [Hi Hh], (Hc s Hi Hh).
    by apply (mesh_inv_session G m x n _ sid s (c s).1).
Qed.

Lemma announces_said G m x n sid s msg : mesh_inv G m → nodes m !! x = Some n → sessions n.1 !! sid = Some s →
  announces s msg → ∃ p b,
    said1 m G (r1m_session_id msg) (r1m_transcript_hex msg) (r1m_sender_node_id msg) p ∧
    r1_serialize p = Ok b ∧ r1m_package_hex msg = hex_encode b.
Proof.
  intros I Hn Hs (p & b & Hp & Hb & ->). exists p, b. split; [|done]. simpl.
  destruct (mi_session _ _ I x n sid s Hn Hs) as [[] _]. rewrite si_id0, si_node0. exists n, s.
  split; [done|]. split; [done|]. split; [done|]. congruence.
Qed.

Lemma start_inv G m x n req rng : mesh_inv G m → nodes m !! x = Some n →
  ∃ G', mesh_inv G' (let r := on_hub (start w req rng) n in say1 r.2 (set_node x r.1 m)).
Proof.
  intros I Hn. assert (set_node x n m = m) as Hsame by (destruct m; unfold set_node; cbn in *; by rewrite insert_id).
  assert (on_hub (start w req rng) n = (((start w req rng n.1).1, n.2), (start w req rng n.1).2)) as ->
    by (unfold on_hub, zoom; by destruct (start w req rng n.1)).
  cbn zeta. cbn [fst snd]. destruct (start_has_effect w req rng n.1) as [e|s st msg Hs Ha|s st msg Hs Hf Ha]; cbn [fst snd].
  - exists G. destruct n; cbn in *. by rewrite Hsame.
  - exists G. replace (n.1, n.2) with n by by destruct n. rewrite Hsame. simpl.
    apply (mesh_inv_say G m [msg] []); [done| |by intros ? ?%elem_of_nil].
    intros msg' ->%list_elem_of_singleton. by eapply announces_said.
  - pose proof (mi_node _ _ I x n Hn) as Hx. rewrite Hx in Hf. destruct (fresh_session_inv x req s Hf) as [sp Hi].
    set (sid := sr_session_id req) in *.
    exists (λ y z, if decide (y = x ∧ z = sid) then sp else G y z). set (G' := λ y z, _).
    assert (G' x sid = sp) as HG by (unfold G'; by rewrite decide_True).
    assert (∀ y k z t, nodes m !! y = Some k → sessions k.1 !! z = Some t → G' y z = G y z) as Hold.
    { intros y k z t Hk Ht. unfold G'. rewrite decide_False; [done|]. intros [-> ->]. by simplify_eq. }
    assert (mesh_inv G' (set_node x (set_session sid s n.1, n.2) m)) as I'.
    { eapply mesh_inv_node; [exact I|exact Hn|by apply insert_session_le|exact Hold|].
      intros z t Hz. simpl in Hz. apply lookup_insert_Some in Hz as [[<- <-]|[Hne Hz]].
      - rewrite HG. split; [done|]. destruct Hf as (R & t & id & q & r & _ & _ & _ & ->).
        split; simpl; intros y j p Hy Hdom; [|by rewrite lookup_empty].
        intros Hj [Hj' _]%lookup_singleton_Some. congruence.
      - destruct (mi_session _ _ I x n z t Hn Hz) as [? Hh]. rewrite (Hold x n z t) by done. split; [done|].
        revert Hh. apply heard_later. split; simpl; [apply dom_insert_lookup_L; eauto| |exact Hold].
        intros y k Hk. destruct (decide (y = x)) as [->|].
        + rewrite lookup_insert_eq. simplify_eq. eexists. split; [done|]. by apply insert_session_le.
        + rewrite lookup_insert_ne by done. exists k. by split. }
    simpl. apply (mesh_inv_say G' _ [msg] [] I'); [|by intros ? ?%elem_of_nil].
    intros msg' ->%list_elem_of_singleton. eapply (announces_said G' _ x _ sid s); [done|simpl; by rewrite lookup_insert_eq| |done].
    simpl. by rewrite lookup_insert_eq.
Qed.

Lemma take_inv_mesh G m x n sid : mesh_inv G m → nodes m !! x = Some n →
  mesh_inv G (let r := on_hub (take_round2_outbound w sid) n in say2 r.2 (set_node x r.1 m)).
Proof.
  intros I Hn.
  assert (on_hub (take_round2_outbound w sid) n =
    (((take_round2_outbound w sid n.1).1, n.2), (take_round2_outbound w sid n.1).2)) as ->
    by (unfold on_hub, zoom; by destruct (take_round2_outbound w sid n.1)).
  cbn zeta. cbn [fst snd]. destruct (take_has_effect w sid n.1) as [e|s r Hs Hr]; cbn [fst snd].
  - replace (set_node x (n.1, n.2) m) with m; [done|]. destruct m, n. unfold set_node. cbn in *. by rewrite insert_id.
  - destruct (mi_session _ _ I x n sid s Hn Hs) as [Hi [Hh1 Hh2]].
    assert (mesh_inv G (set_node x (set_session sid (set_round2_outbound ∅ s) n.1, n.2) m)) as I'.
    { apply (mesh_inv_session G m x n _ sid s (set_round2_outbound ∅ s)); [done..|by split|by apply take_inv|by split]. }
    destruct r as [msgs|e]; simpl; [|done]. apply (mesh_inv_say G _ [] msgs I'); [by intros ? ?%elem_of_nil|].
    intros msg Hm. destruct (round2_messages_ok w s sid _ _ (Hr msgs eq_refl) msg Hm)
      as (rid & p & b & Hin & Hrid & Hb & Hhex & Hnode & Htr & Hsid).
    apply elem_of_id_iter in Hin. exists p, b. split; [|done]. rewrite Hsid, Htr, Hnode, (si_node _ _ _ _ Hi).
    assert (phase s ≠ Round1) as Hph.
    { intros Hph. destruct (si_round1 _ _ _ _ Hi Hph) as [Ho _]. by rewrite Ho, lookup_empty in Hin. }
    destruct (si_round2 _ _ _ _ Hi Hph) as (_ & so & Hp2 & Hsub & _).
    eexists _, (set_round2_outbound ∅ s), so, rid. simpl. rewrite lookup_insert_eq. split; [done|]. simpl.
    rewrite lookup_insert_eq. do 5 (split; [done|]). by eapply map_subseteq_spec in Hin; [exact Hin|].
Qed.

Lemma mesh_step_inv G m m' : mesh_inv G m → mesh_step m m' → ∃ G', mesh_inv G' m'.
Proof.
  intros I Hstep. revert I.
  destruct Hstep as [m0 x n req rng Hn|m0 x n msg Hn Hsrc|m0 x n msg Hn Hsrc|m0 x n sid Hn|m0 x n sid Hn]; intros I.
  - by eapply start_inv.
  - exists G. rewrite on_hub_fst. eapply (mesh_inv_on_session G _ x n (r1m_session_id msg) (session_ingest_round1 w msg));
      [done..|apply ingest_round1_effect|intros s; apply session_ingest_round1_le|].
    intros s Hi Hh. split; [eapply ingest1_inv|eapply heard_ingest1]; [done|apply session_ingest_round1_effect|
      exact I|exact Hi|exact Hsrc|apply session_ingest_round1_effect|exact Hh].
  - exists G. rewrite on_hub_fst. eapply (mesh_inv_on_session G _ x n (r2m_session_id msg) (session_ingest_round2 w msg));
      [done..|apply ingest_round2_effect|intros s; apply session_ingest_round2_le|].
    intros s Hi Hh. split; [eapply ingest2_inv|eapply heard_ingest2]; [done|apply session_ingest_round2_effect|
      exact I|exact Hi|exact Hsrc|apply session_ingest_round2_effect|exact Hh].
  - exists G. by apply take_inv_mesh.
  - exists G. pose proof (finalize_has_effect w sink kform pform Hsink sid n) as He. destruct (finalize_with sink w sid n) as [[h st] r].
    cbn [fst snd] in *. destruct He as [|s [kp pk] Hs Hp Hk].
    + apply (mesh_inv_node G G m0 x n); [done..|reflexivity|done|].
      intros z t Hz. cbn [fst] in Hz. destruct (mi_session _ _ I x n z t Hn Hz) as [? Hh].
      split; [done|]. revert Hh. apply (heard_set_node G m0 x n); [done|reflexivity].
    + destruct (mi_session _ _ I x n sid s Hn Hs) as [Hi [Hh1 Hh2]].
      apply (mesh_inv_session G m0 x n _ sid s (enter_complete (kform kp) (pform pk) s)); [done..| | |by split].
      * by apply enter_complete_le.
      * by apply finalize_inv.
Qed.

Context `{FD : !FrostDkg, RI : !Inhabited Rng}.

Lemma mesh_reachable_inv m m' : mesh_start m → steps mesh_step m m' → ∃ G, mesh_inv G m'.
Proof.
  intros (Hn & H1 & H2) Hr. refine (steps_invariant mesh_step (λ m, ∃ G, mesh_inv G m) _ m m' Hr _).
  - intros a b [G I] Hs. by eapply mesh_step_inv.
  - destruct (id_total 1 ltac:(done)) as [i _]. destruct (part1_ok i 2 2 inhabitant ltac:(done)) as [sp _].
    exists (λ _ _, sp). split; rewrite ?H1, ?H2; try by intros ? ?%elem_of_nil.
    + intros x n Hx. by rewrite (Hn x n Hx).
    + intros x n sid s Hx. by rewrite (Hn x n Hx).
Qed.

(* ------------------------------------------------------------------ *)
(** ** Agreement *)

(** [s] is past round 1, its members are all of the mesh: they run the same session. *)
Definition same_session m G sid (s : SessionInner) (y : string) (id : Identifier) : Prop :=
  ∃ n sy, nodes m !! y = Some n ∧ sessions n.1 !! sid = Some sy ∧ session_inv y sid (G y sid) sy ∧
    roster sy = roster s ∧ max_signers sy = max_signers s ∧ min_signers sy = min_signers s ∧ local_identifier sy = id.

Definition of_mesh (m : Mesh) (R : gmap string Identifier) : Prop :=
  ∀ y, is_Some (R !! y) → y ∈ dom (nodes m) ∧ comma_free y.

(** The transcript texts hashed at the vaults of the mesh for one session id. *)
Definition hashed_in (m : Mesh) sid (b : bytes) : Prop :=
  ∃ y n s, nodes m !! y = Some n ∧ sessions n.1 !! sid = Some s ∧
    b = bytes_of (transcript_text w sid (max_signers s) (min_signers s) (roster s)).
Notation mesh_clash m sid := (sha256_clash (hashed_in m sid)).

Lemma same_transcript m G sid x n s y k sy : nodes m !! x = Some n → sessions n.1 !! sid = Some s →
  nodes m !! y = Some k → sessions k.1 !! sid = Some sy →
  session_inv x sid (G x sid) s → session_inv y sid (G y sid) sy →
  of_mesh m (roster s) → transcript_hex sy = transcript_hex s →
  (max_signers sy = max_signers s ∧ min_signers sy = min_signers s ∧ roster sy = roster s) ∨ mesh_clash m sid.
Proof.
  intros Hx Hs Hy Hsy [] [] Hm Ht. rewrite si_transcript0, si_transcript1 in Ht. symmetry in Ht.
  apply session_transcript_inj in Ht as [(? & ? & ?)|(a & b & Ha & Hb & H)]; [left; done| |done..|].
  - right. exists a, b. split; [|split; [|done]]; [destruct Ha as [-> | ->]|destruct Hb as [-> | ->]];
      first [by exists x, n, s | by exists y, k, sy].
  - intros y' Hy'. by apply Hm.
Qed.

Lemma peers_agree G m x n sid s : mesh_inv G m → nodes m !! x = Some n → sessions n.1 !! sid = Some s →
  phase s ≠ Round1 → of_mesh m (roster s) →
  (∀ y id, roster s !! y = Some id → same_session m G sid s y id ∧ round1_packages s !! id = Some (G y sid).2)
  ∨ mesh_clash m sid.
Proof.
  intros I Hn Hs Hp Hm. destruct (mi_session _ _ I x n sid s Hn Hs) as [Hi Hh].
  destruct (forall_or (λ p, same_session m G sid s p.1 p.2 ∧ round1_packages s !! p.2 = Some (G p.1 sid).2)
    (mesh_clash m sid) (map_to_list (roster s))) as [Hall|]; [|left|by right].
  2: { intros y id Hy. apply (Hall (y, id)). by apply elem_of_map_to_list. }
  intros [y id] Hy%elem_of_map_to_list. simpl. destruct (decide (y = x)) as [->|Hne].
  - left. assert (id = local_identifier s) as -> by (pose proof (si_local _ _ _ _ Hi); congruence).
    split; [by exists n, s|by eapply si_own].
  - destruct (si_round2 _ _ _ _ Hi Hp) as [Hsz _].
    assert (is_Some (round1_packages s !! id)) as [p Hpk].
    { eapply has_all; [by eapply si_senders|by rewrite Hsz|by exists y]. }
    assert (id ≠ local_identifier s) as Hid.
    { intros ->. apply Hne. eapply roster_wf_inj; [by eapply si_wf|exact Hy|by eapply si_local]. }
    destruct (heard1 _ _ _ _ Hh y id p Hy) as (k & sy & Hk & Hsy & Ht & ->); [apply Hm; eauto|done..|].
    destruct (mi_session _ _ I y k sid sy Hk Hsy) as [Hiy _].
    destruct (same_transcript m G sid x n s y k sy) as [(E1 & E2 & E3)|]; [done..| |by right].
    left. split; [|done]. exists k, sy. do 5 (split; [done|]). split; [done|].
    pose proof (si_local _ _ _ _ Hiy). congruence.
Qed.

(** What a vault past round 1 holds is everyone's own package. *)
Lemma packages_agree G m x n sid s : mesh_inv G m → nodes m !! x = Some n → sessions n.1 !! sid = Some s →
  phase s ≠ Round1 → of_mesh m (roster s) →
  round1_packages s = snd <$> own_of G sid (roster s) ∨ mesh_clash m sid.
Proof.
  intros I Hn Hs Hp Hm. destruct (peers_agree G m x n sid s) as [Hall|]; [done..| |by right].
  left. destruct (mi_session _ _ I x n sid s Hn Hs) as [Hi _]. pose proof (si_wf _ _ _ _ Hi) as Hw.
  apply map_eq. intros i. rewrite lookup_fmap. destruct (own_of G sid (roster s) !! i) as [sp|] eqn:E; simpl.
  - apply lookup_own_of in E as (y & Hy & ->); [|done]. by apply Hall.
  - destruct (round1_packages s !! i) as [p|] eqn:E'; [exfalso|done].
    destruct (si_senders _ _ _ _ Hi i) as [y Hy]; [by eexists|].
    assert (own_of G sid (roster s) !! i = Some (G y sid)) by (apply lookup_own_of; [done|by exists y]). congruence.
Qed.

Lemma outbound_agrees G m y n sid sy outs : mesh_inv G m → nodes m !! y = Some n → sessions n.1 !! sid = Some sy →
  phase sy ≠ Round1 → of_mesh m (roster sy) → dom outs = dom (own_of G sid (roster sy)) →
  honest_outs sid G (roster sy) outs →
  (∀ so, part2 (G y sid).1 (delete (local_identifier sy) (round1_packages sy)) = Ok so →
     outs !! local_identifier sy = Some so) ∨ mesh_clash m sid.
Proof.
  intros I Hn Hs Hp Hm Hd Ho. destruct (packages_agree G m y n sid sy) as [Hpk|]; [done..| |by right].
  left. intros so. rewrite Hpk. destruct (mi_session _ _ I y n sid sy Hn Hs) as [Hi _].
  assert (own_of G sid (roster sy) !! local_identifier sy = Some (G y sid)) as Hown.
  { apply lookup_own_of; [by eapply si_wf|]. exists y. split; [by eapply si_local|done]. }
  assert (is_Some (outs !! local_identifier sy)) as [so' Hso'].
  { apply elem_of_dom. rewrite Hd. apply elem_of_dom. by eexists. }
  destruct (Ho _ _ _ Hown Hso') as [-> _]. intros [= ->]. done.
Qed.

Lemma inbox_entry_agrees G m x n sid s outs id p : mesh_inv G m → nodes m !! x = Some n → sessions n.1 !! sid = Some s →
  phase s ≠ Round1 → of_mesh m (roster s) → dom outs = dom (own_of G sid (roster s)) → honest_outs sid G (roster s) outs →
  round2_inbox s !! id = Some p → inbox_of outs (local_identifier s) !! id = Some p ∨ mesh_clash m sid.
Proof.
  intros I Hn Hs Hp Hm Hd Ho Hin. destruct (mi_session _ _ I x n sid s Hn Hs) as [Hi Hh].
  destruct (si_inbox _ _ _ _ Hi id) as [y Hy]; [by eexists|].
  destruct (heard2 _ _ _ _ Hh y id p Hy) as (k & sy & so & rid & Hk & Hsy & Ht & Hpy & H2 & Hrid & Hso);
    [apply Hm; eauto|done|]. destruct (mi_session _ _ I y k sid sy Hk Hsy) as [Hiy _].
  destruct (same_transcript m G sid x n s y k sy) as [(E1 & E2 & E3)|]; [done..| |by right].
  destruct (outbound_agrees G m y k sid sy outs) as [Hout|]; rewrite ?E3; [done..| |by right]. left.
  specialize (Hout so H2). unfold inbox_of. rewrite lookup_omap.
  assert (local_identifier sy = id) as <- by (pose proof (si_local _ _ _ _ Hiy); congruence).
  rewrite Hout. simpl. rewrite E3, (si_node _ _ _ _ Hi), (si_local _ _ _ _ Hi) in Hrid. by injection Hrid as ->.
Qed.

Lemma complete_key G m x n sid s outs pk : mesh_inv G m → nodes m !! x = Some n → sessions n.1 !! sid = Some s →
  phase s = Complete → of_mesh m (roster s) → dom outs = dom (own_of G sid (roster s)) →
  honest_outs sid G (roster s) outs →
  (∀ i so, outs !! i = Some so → ∃ kp,
     part3 so.1 (delete i (snd <$> own_of G sid (roster s))) (inbox_of outs i) = Ok (kp, pk)) →
  pubkey_package s = Some (pform pk) ∨ mesh_clash m sid.
Proof.
  intros I Hn Hs Hc Hm Hd Ho H3. destruct (mi_session _ _ I x n sid s Hn Hs) as [Hi _].
  assert (phase s ≠ Round1) as Hp by congruence.
  destruct (packages_agree G m x n sid s) as [Hpk|]; [done..| |by right].
  destruct (si_round2 _ _ _ _ Hi Hp) as (_ & so & H2 & _ & _ & Hfin). destruct (Hfin Hc) as (Hsz & kp & pk' & Hpk' & _ & H3').
  destruct (outbound_agrees G m x n sid s outs) as [Hout|]; [done..| |by right]. specialize (Hout so H2).
  destruct (forall_or (λ p, inbox_of outs (local_identifier s) !! p.1 = Some p.2) (mesh_clash m sid)
    (map_to_list (round2_inbox s))) as [Hall|]; [|left|by right].
  { intros [id p] Hin%elem_of_map_to_list. by eapply inbox_entry_agrees. }
  assert (round2_inbox s = inbox_of outs (local_identifier s)) as Heq.
  { apply map_subseteq_size_eq.
    - apply map_subseteq_spec. intros id p Hip. apply (Hall (id, p)). by apply elem_of_map_to_list.
    - assert (local_identifier s ∈ dom outs) as Hdom by (apply elem_of_dom; by eexists).
      pose proof (size_inbox_of G sid (roster s) outs _ Hd Ho Hdom) as Hlt.
      rewrite (size_own_of G sid (roster s)) in Hlt by by eapply si_wf. pose proof (si_size _ _ _ _ Hi). lia. }
  destruct (H3 _ _ Hout) as [kp' H3'']. rewrite Hpk, Heq in H3'. congruence.
Qed.

End mesh.
