(* ===== verification/WireDkgRun.v ===== *)
(** * Over-wire key generation completes

    Vaults that start the same session of [adapters/dkg_wire.rs] and get each
    other's messages, in any order and any number of times, all end with the same
    public key package. *)
From S2P Require Import Prelude RustStr Errors Identity Frost HybridEnvelope WireDkg WireRoster WireHub AuthIdentity WireDkgMesh.
Local Open Scope N_scope.

Section run.
Context `{FR : Frost, HX : HexCodec, SH : Sha256}.
Context (w : WireSuite).

(** What a vault's routes are called with, and what its outbound calls gave so far. *)
Inductive Event :=
| Recv1 (msg : Round1WireMessage)
| Recv2 (msg : Round2WireMessage)
| Take.
Definition on_event (sid : string) (p : WireDkgHub * list Round2WireMessage) (e : Event) :
    WireDkgHub * list Round2WireMessage :=
  match e with
  | Recv1 msg => ((ingest_round1 w msg p.1).1, p.2)
  | Recv2 msg => ((ingest_round2 w msg p.1).1, p.2)
  | Take => let r := take_round2_outbound w sid p.1 in
            (r.1, p.2 ++ match r.2 with Ok l => l | Err _ => [] end)
  end.
Definition run_events (sid : string) (h : WireDkgHub) (evs : list Event) : WireDkgHub * list Round2WireMessage :=
  foldl (on_event sid) (h, []) evs.

(** Calls an honest mesh makes on [x], [msg1 y] being what [y] announced and [out2 y]
    what it sent in round 2: any of the announcements, any of the packages for [x]. *)
Inductive honest_event (msg1 : string → option Round1WireMessage) (out2 : string → list Round2WireMessage)
    (x : string) : Event → Prop :=
| HE_round1 y msg : msg1 y = Some msg → honest_event msg1 out2 x (Recv1 msg)
| HE_round2 y msg : msg ∈ out2 y → r2m_recipient_node_id msg = x → honest_event msg1 out2 x (Recv2 msg)
| HE_take : honest_event msg1 out2 x Take.

(* ------------------------------------------------------------------ *)
(** ** The states an honest session goes through *)

Section session.
Context (sid tr : string) (n t : N) (R : gmap string Identifier) (G : string → string → Round1Secret * Round1Package).
Context (outs : gmap Identifier (Round2Secret * gmap Identifier Round2Package)).
Notation own := (own_of G sid R).
Notation all := (snd <$> own_of G sid R).

(** The session of [x] once the packages of [D] arrived; [I] is its inbox, [b]
    whether its packages were taken. *)
Definition honest_session (x : string) (id : Identifier) (D : gset Identifier) (I : gmap Identifier Round2Package)
    (b : bool) : SessionInner :=
  let full := bool_decide (D = dom own) in
  {| session_id := sid; local_node_id := x; local_identifier := id; max_signers := n; min_signers := t;
     roster := R; transcript_hex := tr; roster_closed := full; phase := if full then Round2 else Round1;
     round1_secret := if full then None else Some (G x sid).1;
     round1_packages := filter (λ p, p.1 ∈ D) all;
     round2_secret := if full then fst <$> outs !! id else None;
     round2_inbox := I;
     round2_outbound := if full && negb b then default ∅ (snd <$> outs !! id) else ∅;
     key_package := None; pubkey_package := None |}.

Definition honest_msg1 (y : string) (j : Identifier) : Round1WireMessage :=
  round1_message (honest_session y j ∅ ∅ false) (hex_encode (unwrap_or_default (r1_serialize (G y sid).2))).
Definition honest_msg2 (y : string) (j : Identifier) (x : string) (i : Identifier) (p : Round2Package) : Round2WireMessage :=
  {| r2m_session_id := sid; r2m_sender_node_id := y; r2m_sender_identifier := identifier_to_u16 R j;
     r2m_recipient_node_id := x; r2m_recipient_identifier := identifier_to_u16 R i; r2m_transcript_hex := tr;
     r2m_package_hex := hex_encode (unwrap_or_default (r2_serialize p)); r2m_envelope := None |}.

Context `{FC : !FrostCodec, HS : !HexSpec}.
Hypothesis Hwf : roster_wf R.
Hypothesis Hn : N.of_nat (size R) = n.
Hypothesis Hdom : dom outs = dom own.
Hypothesis Hout : honest_outs sid G R outs.

Lemma own_member y j : R !! y = Some j → own !! j = Some (G y sid).
Proof. intros Hy. apply lookup_own_of; [done|]. by exists y. Qed.

Lemma outs_member y j : R !! y = Some j → ∃ so, outs !! j = Some so.
Proof. intros Hy. apply elem_of_dom. rewrite Hdom. apply elem_of_dom. rewrite (own_member y) by done. by eexists. Qed.

Lemma size_packages (D : gset Identifier) : D ⊆ dom own → size (filter (λ p : Identifier * Round1Package, p.1 ∈ D) all) = size D.
Proof.
  intros HD. rewrite <- size_dom. f_equal. apply set_eq. intros i. rewrite elem_of_dom. split.
  - intros [p [_ Hp]%map_lookup_filter_Some]. done.
  - intros Hi. pose proof (HD i Hi) as [sp Hsp]%elem_of_dom. exists sp.2. apply map_lookup_filter_Some.
    split; [|done]. by rewrite lookup_fmap, Hsp.
Qed.

Lemma insert_package (D : gset Identifier) y j : R !! y = Some j →
  <[j := (G y sid).2]> (filter (λ p, p.1 ∈ D) all) = filter (λ p, p.1 ∈ D ∪ {[j]}) all.
Proof.
  intros Hy. apply map_eq. intros i. apply option_eq. intros p. rewrite lookup_insert_Some, !map_lookup_filter_Some.
  simpl. rewrite elem_of_union, elem_of_singleton. split.
  - intros [[<- <-]|[? [? ?]]]; [|by auto]. split; [|by right]. by rewrite lookup_fmap, (own_member y).
  - intros [Hp Hi]. destruct (decide (j = i)) as [->|]; [left|right].
    + rewrite lookup_fmap, (own_member y) in Hp by done. by simplify_eq/=.
    + split; [done|]. split; [done|]. by destruct Hi.
Qed.

Lemma all_packages (D : gset Identifier) : D = dom own → filter (λ p : Identifier * Round1Package, p.1 ∈ D) all = all.
Proof.
  intros ->. apply map_filter_id. intros i p Hp. simpl. rewrite lookup_fmap in Hp.
  apply elem_of_dom. destruct (own !! i); [by eexists|done].
Qed.

Lemma identifier_from_u16_member y j : R !! y = Some j → identifier_from_u16 w (identifier_to_u16 R j) = Ok j.
Proof.
  intros Hy. destruct (identifier_to_u16_spec R y j Hwf Hy) as [_ Ht]. unfold identifier_from_u16.
  by apply frost_call_ok.
Qed.

Lemma r1_round_default p : r1_deserialize (unwrap_or_default (r1_serialize p)) = Ok p.
Proof. destruct (r1_round p) as (b & Hb & Hd). by rewrite Hb. Qed.
Lemma r2_round_default p : r2_deserialize (unwrap_or_default (r2_serialize p)) = Ok p.
Proof. destruct (r2_round p) as (b & Hb & Hd). by rewrite Hb. Qed.

(** The session [x] just before its last package advances it. *)
Lemma honest_advance x id D I : R !! x = Some id → D = dom own →
  advance_to_round2 w
    {| session_id := sid; local_node_id := x; local_identifier := id; max_signers := n; min_signers := t;
       roster := R; transcript_hex := tr; roster_closed := false; phase := Round1;
       round1_secret := Some (G x sid).1; round1_packages := filter (λ p, p.1 ∈ D) all; round2_secret := None;
       round2_inbox := I; round2_outbound := ∅; key_package := None; pubkey_package := None |} =
  (honest_session x id D I false, Ok tt).
Proof.
  intros Hx HD. destruct (outs_member x id Hx) as [so Hso]. destruct (Hout id _ so (own_member x id Hx) Hso) as [H2 _].
  unfold advance_to_round2, get, mbind, cmd_bind, lift, update. simpl. rewrite all_packages by done.
  rewrite H2. simpl. unfold honest_session. rewrite bool_decide_true by done. cbn [negb andb]. rewrite all_packages by done.
  rewrite Hso. reflexivity.
Qed.

Lemma honest_full (D : gset Identifier) : D ⊆ dom own →
  wrap16 (N.of_nat (size (filter (λ p, p.1 ∈ D) all))) = n ↔ D = dom own.
Proof.
  intros HD. rewrite size_packages by done. pose proof (subseteq_size _ _ HD) as Hle.
  rewrite size_dom, size_own_of in Hle by done. pose proof (rw_size R Hwf). rewrite wrap16_small by lia.
  rewrite <- Hn. split.
  - intros He. apply set_subseteq_size_eq; [done|]. rewrite size_dom, size_own_of by done. lia.
  - intros ->. by rewrite size_dom, size_own_of.
Qed.

(** A round-1 message of a member moves a session on, or is a duplicate. *)
Lemma honest_ingest1 x id D I b y j : R !! x = Some id → R !! y = Some j → y ≠ x →
  D ⊆ dom own → id ∈ D → b = false ∨ D = dom own →
  session_ingest_round1 w (honest_msg1 y j) (honest_session x id D I b) =
  (honest_session x id (D ∪ {[j]}) I b, Ok (status (honest_session x id (D ∪ {[j]}) I b))).
Proof.
  intros Hx Hy Hne HD Hid Hb. assert (j ≠ id) as Hji by (intros ->; apply Hne; by eapply roster_wf_inj).
  unfold session_ingest_round1, get, mbind, cmd_bind, mret, cmd_ret, lift, update.
  cbn [fst snd phase honest_session r1m_max_signers honest_msg1 round1_message max_signers r1m_min_signers min_signers
    r1m_transcript_hex transcript_hex r1m_sender_identifier roster local_identifier r1m_sender_node_id local_node_id
    r1m_package_hex roster_closed].
  rewrite (bool_decide_false (_ = Complete)) by (by destruct (bool_decide (D = _))).
  rewrite !N.eqb_refl. cbn [negb orb]. rewrite (bool_decide_true (tr = tr)) by done. cbn [negb].
  rewrite (identifier_from_u16_member y j Hy). cbn [mbind]. rewrite Hy. cbn [ok_or].
  rewrite (bool_decide_true (j = j)), (bool_decide_false (j = id)) by done. cbn [negb].
  destruct (decide (D = dom own)) as [Hfull|Hpart].
  - rewrite (bool_decide_true (D = _)) by done. cbn [orb].
    replace (D ∪ {[j]}) with D.
    + rewrite bool_decide_true; [done|]. cbn. rewrite all_packages by done. rewrite lookup_fmap, (own_member y) by done. by eexists.
    + assert (j ∈ dom own) by (apply elem_of_dom; rewrite (own_member y) by done; by eexists). set_solver.
  - rewrite (bool_decide_false (D = _)) by done. cbn [orb].
    rewrite (bool_decide_true (Round1 = Round1)) by done. cbn [negb].
    unfold frost_call at 1. rewrite hex_round. cbn [map_err mbind]. unfold frost_call at 1. rewrite r1_round_default.
    cbn [map_err mbind]. 
    assert (D ∪ {[j]} ⊆ dom own) as HD'.
    { apply union_subseteq. split; [done|]. apply singleton_subseteq_l, elem_of_dom. rewrite (own_member y) by done. by eexists. }
    unfold set_round1_packages, honest_session. rewrite (bool_decide_false (D = _)) by done. cbn [andb negb]. cbn.
    rewrite (insert_package D y j Hy). unfold round1_full. cbn [round1_packages max_signers round1_secret phase].
    rewrite (bool_decide_true (is_Some _)), (bool_decide_true (Round1 = Round1)), !andb_true_r by eauto.
    destruct (decide (D ∪ {[j]} = dom own)) as [He|He].
    + rewrite (proj2 (N.eqb_eq _ _)) by by apply honest_full.
      rewrite (honest_advance x id (D ∪ {[j]}) I Hx He). destruct Hb as [->|]; done.
    + rewrite (proj2 (N.eqb_neq _ _)) by by rewrite honest_full. by rewrite (bool_decide_false (_ ∪ _ = _)) by done.
Qed.

(** A vault takes no notice of its own announcement. *)
Lemma honest_ingest1_own x id D I b : R !! x = Some id →
  session_ingest_round1 w (honest_msg1 x id) (honest_session x id D I b) =
  (honest_session x id D I b, Ok (status (honest_session x id D I b))).
Proof.
  intros Hx. unfold session_ingest_round1, get, mbind, cmd_bind, mret, cmd_ret, lift, update.
  cbn [fst snd phase honest_session r1m_max_signers honest_msg1 round1_message max_signers r1m_min_signers min_signers
    r1m_transcript_hex transcript_hex r1m_sender_identifier roster local_identifier r1m_sender_node_id local_node_id].
  rewrite (bool_decide_false (_ = Complete)) by (by destruct (bool_decide (D = _))).
  rewrite !N.eqb_refl. cbn [negb orb]. rewrite (bool_decide_true (tr = tr)) by done. cbn [negb].
  rewrite (identifier_from_u16_member x id Hx). cbn [mbind]. rewrite Hx. cbn [ok_or].
  by rewrite !(bool_decide_true (id = id)).
Qed.

(** A round-2 message of a member is taken into the inbox, early or late. *)
Lemma honest_ingest2 x id D I b y j i p : R !! x = Some id → R !! y = Some j →
  session_ingest_round2 w (honest_msg2 y j x i p) (honest_session x id D I b) =
  (honest_session x id D (<[j := p]> I) b, Ok (status (honest_session x id D (<[j := p]> I) b))).
Proof.
  intros Hx Hy. unfold session_ingest_round2, get, mbind, cmd_bind, mret, cmd_ret, lift, update.
  cbn [fst snd phase honest_session honest_msg2 r2m_transcript_hex transcript_hex r2m_sender_identifier
    r2m_recipient_node_id local_node_id roster r2m_sender_node_id r2m_package_hex].
  rewrite (bool_decide_false (_ = Complete)) by (by destruct (bool_decide (D = _))).
  rewrite (bool_decide_true (tr = tr)), (bool_decide_true (x = x)) by done. cbn [negb].
  rewrite (identifier_from_u16_member y j Hy). cbn [mbind]. rewrite Hy. cbn [ok_or].
  rewrite (bool_decide_true (j = j)) by done. cbn [negb].
  unfold frost_call at 1. rewrite hex_round. cbn [map_err mbind]. unfold frost_call at 1. by rewrite r2_round_default.
Qed.

(** What an honest vault's packages turn into. *)
Definition addressed (y : string) (j : Identifier) (l : list (Identifier * Round2Package)) : list Round2WireMessage :=
  omap (λ ip, (λ f, honest_msg2 y j f.2.1 ip.1 ip.2) <$> list_find (λ p, p.2 = ip.1) (bt_iter R)) l.

Lemma find_member x i : R !! x = Some i → ∃ k, list_find (λ p : string * Identifier, p.2 = i) (bt_iter R) = Some (k, (x, i)).
Proof.
  intros Hx. destruct (list_find_elem_of (λ p : string * Identifier, p.2 = i) (bt_iter R) (x, i)) as [[k [z j]] Hf];
    [by apply elem_of_bt_iter|done|]. exists k. rewrite Hf. apply list_find_Some in Hf as (Hk & Hj & _). simpl in Hj. subst.
  apply list_elem_of_lookup_2, elem_of_bt_iter in Hk. f_equal. f_equal. f_equal. by eapply roster_wf_inj.
Qed.

Lemma honest_round2_messages y j D I b l : R !! y = Some j → (∀ i p, (i, p) ∈ l → identifiers R i) →
  round2_messages w (honest_session y j D I b) sid l = Ok (addressed y j l).
Proof.
  intros Hy. induction l as [|[i p] l IH]; intros Hl; [done|]. cbn [round2_messages].
  destruct (Hl i p) as [x Hx]; [by left|]. destruct (find_member x i Hx) as [k Hk].
  change (roster (honest_session y j D I b)) with R. unfold addressed. simpl. rewrite Hk. cbn [ok_or mbind].
  unfold frost_call. destruct (r2_round p) as (bs & Hb & _). rewrite Hb. cbn [map_err mbind].
  rewrite IH by (intros; eapply Hl; by right). simpl. unfold honest_msg2. by rewrite Hb.
Qed.

Lemma elem_of_addressed y j l msg : msg ∈ addressed y j l →
  ∃ i p x, (i, p) ∈ l ∧ R !! x = Some i ∧ msg = honest_msg2 y j x i p.
Proof.
  intros ([i p] & Hin & Hf)%list_elem_of_omap. simpl in Hf.
  destruct (list_find _ (bt_iter R)) as [[k [x i']]|] eqn:E; [|done]. simpl in Hf. injection Hf as <-.
  apply list_find_Some in E as (Hk & He & _). simpl in He. subst.
  apply list_elem_of_lookup_2, elem_of_bt_iter in Hk. by exists i, p, x.
Qed.

Lemma addressed_elem y j l i p x : R !! x = Some i → (i, p) ∈ l → honest_msg2 y j x i p ∈ addressed y j l.
Proof.
  intros Hx Hl. apply list_elem_of_omap. exists (i, p). split; [done|]. simpl.
  destruct (find_member x i Hx) as [k ->]. done.
Qed.

(** What [y] announces, and what it sends in round 2. *)
Definition msg1_of (y : string) : option Round1WireMessage := honest_msg1 y <$> R !! y.
Definition out2_of (y : string) : list Round2WireMessage :=
  match R !! y with
  | Some j => match outs !! j with Some so => addressed y j (id_iter so.2) | None => [] end
  | None => []
  end.

Lemma honest_take x id D I b : R !! x = Some id → b = false ∨ D = dom own →
  session_take_round2 w sid (honest_session x id D I b) =
  (honest_session x id D I (bool_decide (D = dom own)), Ok (if bool_decide (D = dom own) && negb b then out2_of x else [])).
Proof.
  intros Hx Hb. unfold session_take_round2, get, mbind, cmd_bind, update, lift. cbn [fst snd].
  assert (set_round2_outbound ∅ (honest_session x id D I b) = honest_session x id D I (bool_decide (D = dom own))) as ->.
  { unfold set_round2_outbound, honest_session. cbn. f_equal. destruct (bool_decide (D = dom own)); [|done].
    by rewrite andb_false_r. }
  f_equal. unfold out2_of. rewrite Hx. destruct (outs_member x id Hx) as [so Hso]. rewrite Hso.
  assert (∀ i, is_Some (so.2 !! i) → identifiers R i) as Hids.
  { intros i Hi%elem_of_dom. destruct (Hout id _ so (own_member x id Hx) Hso) as [_ Hd]. rewrite Hd in Hi.
    apply elem_of_difference in Hi as [Hi _]. apply elem_of_dom in Hi as [sp Hsp].
    apply lookup_own_of in Hsp as (z & Hz & _); [by exists z|done]. }
  assert (round2_outbound (honest_session x id D I b) = if bool_decide (D = dom own) && negb b then so.2 else ∅) as ->.
  { unfold honest_session. cbn. by rewrite Hso. }
  rewrite (honest_round2_messages x id D I b _ Hx).
  - f_equal. destruct (bool_decide (D = dom own) && negb b); [done|]. unfold id_iter. by rewrite map_to_list_empty.
  - intros i p Hp%elem_of_id_iter. destruct (bool_decide (D = dom own) && negb b); [eauto|by rewrite lookup_empty in Hp].
Qed.

(* ------------------------------------------------------------------ *)
(** ** Runs of one vault *)

Definition honest_hub (x : string) (s : SessionInner) : WireDkgHub := set_session sid s (hub_new x).

Lemma with_honest {A} x s e (c : dcmd SessionInner A) s' r : c s = (s', r) →
  with_session sid e c (honest_hub x s) = (honest_hub x s', r).
Proof.
  intros Hc. unfold with_session, honest_hub. simpl. rewrite lookup_insert_eq, Hc.
  unfold set_session. simpl. by rewrite insert_insert_eq.
Qed.

(** Where [x] is after the calls [evs]. *)
Record run_inv (x : string) (id : Identifier) (evs : list Event) (p : WireDkgHub * list Round2WireMessage)
    (D : gset Identifier) (I : gmap Identifier Round2Package) (b : bool) : Prop := {
  ri_hub : p.1 = honest_hub x (honest_session x id D I b);
  ri_out : p.2 = if b then out2_of x else [];
  ri_own : id ∈ D;
  ri_members : D ⊆ dom own;
  ri_taken : b = false ∨ D = dom own;
  ri_inbox : I ⊆ inbox_of outs id;
  ri_got1 y msg j : msg1_of y = Some msg → R !! y = Some j → Recv1 msg ∈ evs → j ∈ D;
  ri_got2 y msg j : msg ∈ out2_of y → r2m_recipient_node_id msg = x → R !! y = Some j → Recv2 msg ∈ evs → is_Some (I !! j);
}.

(** An honest round-2 message determines its sender and package. *)
Lemma out2_msg y msg x id : R !! x = Some id → msg ∈ out2_of y → r2m_recipient_node_id msg = x →
  ∃ j p, R !! y = Some j ∧ inbox_of outs id !! j = Some p ∧ msg = honest_msg2 y j x id p.
Proof.
  intros Hx Hm Hr. unfold out2_of in Hm. destruct (R !! y) as [j|] eqn:Hy; [|by apply elem_of_nil in Hm].
  destruct (outs !! j) as [so|] eqn:Hso; [|by apply elem_of_nil in Hm].
  apply elem_of_addressed in Hm as (i & p & z & Hin%elem_of_id_iter & Hz & ->). simpl in Hr. subst z.
  assert (i = id) as -> by congruence. exists j, p. split; [done|]. split; [|done].
  unfold inbox_of. by rewrite lookup_omap, Hso.
Qed.

Lemma msg1_of_inj y z msg : msg1_of y = Some msg → msg1_of z = Some msg → y = z.
Proof.
  unfold msg1_of. destruct (R !! y) as [j|], (R !! z) as [k|]; simpl; try done. intros [= <-] [= He]. done.
Qed.

Lemma out2_sender y msg : msg ∈ out2_of y → r2m_sender_node_id msg = y.
Proof.
  unfold out2_of. destruct (R !! y) as [j|]; [|by intros ?%elem_of_nil].
  destruct (outs !! j) as [so|]; [|by intros ?%elem_of_nil]. intros (i & p & z & _ & _ & ->)%elem_of_addressed. done.
Qed.

Lemma ingest_round1_honest x s y j s' r : session_ingest_round1 w (honest_msg1 y j) s = (s', r) →
  ingest_round1 w (honest_msg1 y j) (honest_hub x s) = (honest_hub x s', r).
Proof. intros Hc. unfold ingest_round1. cbn. by apply with_honest. Qed.
Lemma ingest_round2_honest x s y j z i p s' r : session_ingest_round2 w (honest_msg2 y j z i p) s = (s', r) →
  ingest_round2 w (honest_msg2 y j z i p) (honest_hub x s) = (honest_hub x s', r).
Proof. intros Hc. unfold ingest_round2. cbn. by apply with_honest. Qed.

Lemma honest_event_step x id evs p D I b e : R !! x = Some id → run_inv x id evs p D I b → honest_event msg1_of out2_of x e →
  ∃ D' I' b', run_inv x id (evs ++ [e]) (on_event sid p e) D' I' b'.
Proof.
  intros Hx [] [y msg Hmsg|y msg Hmsg Hrc|]; simpl.
  - unfold msg1_of in Hmsg. destruct (R !! y) as [j|] eqn:Hy; [|done]. simpl in Hmsg. injection Hmsg as <-.
    rewrite ri_hub0. destruct (decide (y = x)) as [->|Hne].
    + assert (j = id) as -> by congruence. exists D, I, b.
      rewrite (ingest_round1_honest _ _ _ _ _ _ (honest_ingest1_own x id D I b Hx)).
      split; simpl; try done; intros z msg k Hz Hk.
      * intros [Hin|Heq%list_elem_of_singleton]%elem_of_app; [by eapply ri_got3|].
        injection Heq as ->. assert (z = x) as ->; [|congruence]. eapply msg1_of_inj; [done|]. unfold msg1_of. by rewrite Hx.
      * intros ? [Hin|Heq%list_elem_of_singleton]%elem_of_app; [by eapply ri_got4|done].
    + rewrite (ingest_round1_honest _ _ _ _ _ _ (honest_ingest1 x id D I b y j Hx Hy Hne ri_members0 ri_own0 ri_taken0)).
      exists (D ∪ {[j]}), I, b.
      assert (j ∈ dom own) as Hj by (apply elem_of_dom; rewrite (own_member y) by done; by eexists).
      split; simpl; try done; [set_solver|set_solver|destruct ri_taken0 as [->| ->]; [by left|right; set_solver]|..];
        intros z msg k Hz Hk.
      * intros [Hin|Heq%list_elem_of_singleton]%elem_of_app; [apply elem_of_union_l; by eapply ri_got3|].
        injection Heq as ->. assert (z = y) as ->; [|set_solver]. eapply msg1_of_inj; [done|]. unfold msg1_of. by rewrite Hy.
      * intros ? [Hin|Heq%list_elem_of_singleton]%elem_of_app; [by eapply ri_got4|done].
  - destruct (out2_msg y msg x id Hx Hmsg Hrc) as (j & q & Hy & Hq & ->).
    rewrite ri_hub0. rewrite (ingest_round2_honest _ _ _ _ _ _ _ _ _ (honest_ingest2 x id D I b y j id q Hx Hy)).
    exists D, (<[j := q]> I), b. split; simpl; try done.
    + by apply insert_subseteq_l.
    + intros z msg k Hz Hk [Hin|Heq%list_elem_of_singleton]%elem_of_app; [by eapply ri_got3|done].
    + intros z msg k Hz Hr Hk [Hin|Heq%list_elem_of_singleton]%elem_of_app.
      * rewrite lookup_insert_is_Some'. right. by eapply ri_got4.
      * injection Heq as ->. apply out2_sender in Hz. simpl in Hz. subst z.
        rewrite lookup_insert_is_Some'. left. congruence.
  - rewrite ri_hub0. unfold take_round2_outbound.
    rewrite (with_honest _ _ _ _ _ _ (honest_take x id D I b Hx ri_taken0)). cbn [fst snd].
    exists D, I, (bool_decide (D = dom own)). split; simpl; try done.
    + rewrite ri_out0. destruct ri_taken0 as [->| ->].
      * destruct (bool_decide _); [done|by rewrite app_nil_r].
      * rewrite bool_decide_true by done. destruct b; simpl; [by rewrite app_nil_r|done].
    + destruct (decide (D = dom own)); [by right|left; by apply bool_decide_false].
    + intros z msg k Hz Hk [Hin|Heq%list_elem_of_singleton]%elem_of_app; [by eapply ri_got3|done].
    + intros z msg k Hz Hr Hk [Hin|Heq%list_elem_of_singleton]%elem_of_app; [by eapply ri_got4|done].
Qed.

Lemma honest_run x id evs : R !! x = Some id → (∀ e, e ∈ evs → honest_event msg1_of out2_of x e) →
  ∃ D I b, run_inv x id evs (run_events sid (honest_hub x (honest_session x id {[id]} ∅ false)) evs) D I b.
Proof.
  intros Hx. induction evs as [|e evs IH] using rev_ind; intros He.
  - exists {[id]}, ∅, false. split; simpl; try done; [set_solver| |by left|apply map_empty_subseteq|..].
    + apply singleton_subseteq_l, elem_of_dom. rewrite (own_member x) by done. by eexists.
    + by intros ? ? ? ? ? ?%elem_of_nil.
    + by intros ? ? ? ? ? ? ?%elem_of_nil.
  - destruct IH as (D & I & b & Hi); [intros; apply He, elem_of_app; by left|].
    unfold run_events. rewrite foldl_snoc. eapply honest_event_step; [done|exact Hi|].
    apply He, elem_of_app. right. by apply list_elem_of_singleton.
Qed.

(* ------------------------------------------------------------------ *)
(** ** Finalization *)

Lemma dom_inbox_of id : id ∈ dom outs → dom (inbox_of outs id) = dom own ∖ {[id]}.
Proof.
  intros Hid. apply set_eq. intros j. rewrite elem_of_difference, elem_of_singleton, elem_of_dom.
  unfold inbox_of. rewrite lookup_omap. destruct (outs !! j) as [so|] eqn:Hso; simpl.
  - assert (j ∈ dom own) as Hj by (rewrite <- Hdom; apply elem_of_dom; by eexists).
    pose proof Hj as [sp Hsp]%elem_of_dom. destruct (Hout j sp so Hsp Hso) as [_ Hd]. rewrite <- elem_of_dom, Hd.
    rewrite Hdom in Hid. set_solver.
  - split; [by intros [? ?]|]. intros [Hj _]. rewrite <- Hdom in Hj. by apply elem_of_dom in Hj as [? ?]; congruence.
Qed.

(** Every round-2 message arrived: the inbox is whole. *)
Lemma whole_inbox x id evs p D I b : R !! x = Some id → run_inv x id evs p D I b →
  (∀ y msg, y ≠ x → msg ∈ out2_of y → r2m_recipient_node_id msg = x → Recv2 msg ∈ evs) → I = inbox_of outs id.
Proof.
  intros Hx Hi Hall. assert (id ∈ dom outs) as Hid by (apply elem_of_dom; by eapply outs_member).
  apply map_subseteq_size_eq; [by eapply ri_inbox|]. rewrite <- !size_dom. apply subseteq_size.
  intros j Hj. rewrite dom_inbox_of in Hj by done. apply elem_of_difference in Hj as [Hj Hne].
  rewrite elem_of_singleton in Hne. pose proof Hj as [sp Hsp]%elem_of_dom.
  apply lookup_own_of in Hsp as (y & Hy & ->); [|done]. destruct (outs_member y j Hy) as [so Hso].
  destruct (Hout j _ so (own_member y j Hy) Hso) as [_ Hd].
  assert (id ∈ dom so.2) as [q Hq]%elem_of_dom.
  { rewrite Hd, <- Hdom. set_solver. }
  assert (honest_msg2 y j x id q ∈ out2_of y) as Hm.
  { unfold out2_of. rewrite Hy, Hso. apply addressed_elem; [done|]. by apply elem_of_id_iter. }
  apply elem_of_dom. eapply (ri_got2 _ _ _ _ _ _ _ Hi y _ j Hm eq_refl Hy).
  apply (Hall y); [|done|done]. intros ->. congruence.
Qed.

Lemma whole_members x id evs p D I b : R !! x = Some id → run_inv x id evs p D I b →
  (∀ y msg, y ≠ x → msg1_of y = Some msg → Recv1 msg ∈ evs) → D = dom own.
Proof.
  intros Hx Hi Hall. apply set_eq. intros j. split; [apply (ri_members _ _ _ _ _ _ _ Hi)|].
  intros [sp Hsp]%elem_of_dom. apply lookup_own_of in Hsp as (y & Hy & _); [|done].
  destruct (decide (y = x)) as [->|Hne].
  - assert (j = id) as -> by congruence. by eapply ri_own.
  - assert (msg1_of y = Some (honest_msg1 y j)) as Hm by (unfold msg1_of; by rewrite Hy).
    eapply (ri_got1 _ _ _ _ _ _ _ Hi y _ j Hm Hy). by apply (Hall y).
Qed.

Context {T : Type} (sink : KeySink T) (kform : KeyPackage → KeyPackage) (pform : PublicKeyPackage → PublicKeyPackage).

(** Both rounds are whole: nothing is left but to store the keys. *)
Lemma honest_finalize x id b kp pk so (st st' : T) : R !! x = Some id → 2 ≤ t ≤ n → outs !! id = Some so →
  part3 so.1 (delete id all) (inbox_of outs id) = Ok (kp, pk) → kp_min_signers kp = t →
  pk_min_signers pk = Some t ∨ pk_min_signers pk = None → pk_max_signers pk = n →
  let s := honest_session x id (dom own) (inbox_of outs id) b in
  let s' := enter_complete (kform kp) (pform pk) s in
  sink s kp pk st = (st', Ok (kform kp, pform pk)) →
  finalize_with sink w sid (honest_hub x s, st) =
    ((complete_session sid (kform kp) (pform pk) s (honest_hub x s), st'), Ok (status s')).
Proof.
  intros Hx Ht Hso H3 Hkt Hpm Hpn s s' Hsink.
  assert (phase s = Round2) as Hph by (unfold s, honest_session; cbn; by rewrite bool_decide_true).
  assert (finalize_keys w s = Ok (kp, pk)) as Hk.
  { unfold finalize_keys. rewrite guard_ok. split.
    - apply N.ltb_ge. unfold s, honest_session, sat_sub. cbn. rewrite <- size_dom, dom_inbox_of, size_difference.
      + rewrite size_singleton, size_dom, size_own_of by done. lia.
      + apply singleton_subseteq_l, elem_of_dom. rewrite (own_member x) by done. by eexists.
      + apply elem_of_dom. by eexists.
    - unfold s, honest_session. cbn. rewrite bool_decide_true, Hso by done. cbn. rewrite all_packages by done.
      rewrite H3. cbn. unfold assert_threshold. rewrite Hkt, Hpn, !N.eqb_refl. cbn.
      destruct Hpm as [-> | ->]; [by rewrite N.eqb_refl|done]. }
  unfold finalize_with, get, mbind, cmd_bind, mret, cmd_ret, lift. cbn [fst snd].
  unfold honest_hub at 1. cbn [sessions set_session]. rewrite lookup_insert_eq. cbn [ok_or].
  rewrite Hph, Hk. rewrite bool_decide_false by done. cbn [fst snd].
  unfold on_store, zoom. cbn [fst snd]. rewrite Hsink. cbn [fst snd]. done.
Qed.
End session.

(* ------------------------------------------------------------------ *)
(** ** Everyone finishes *)

Context `{FC : !FrostCodec, FD : !FrostDkg, HS : !HexSpec}.

(** A start on an empty hub, from what [part1] gave. *)
Lemma start_fresh G outs req R t x id r sp : start_check w req = Ok (R, t) → R !! x = Some id →
  part1 id (sr_max_signers req) (sr_min_signers req) r = Ok sp → G x (sr_session_id req) = sp →
  own_of G (sr_session_id req) R !! id = Some sp → {[id]} ≠ dom (own_of G (sr_session_id req) R) →
  let s := honest_session (sr_session_id req) t (sr_max_signers req) (sr_min_signers req) R G outs x id {[id]} ∅ false in
  start w req r (hub_new x) = (honest_hub (sr_session_id req) x s,
    Ok (status s, honest_msg1 (sr_session_id req) t (sr_max_signers req) (sr_min_signers req) R G outs x id)).
Proof.
  intros Hc Hx Hp HG Hown Hne. unfold start, get, mbind, cmd_bind, lift. cbn [fst snd]. unfold start_plan. rewrite Hc.
  cbn [mbind fst snd hub_new sessions hub_node_id]. cbn. rewrite lookup_empty. unfold start_new. rewrite Hx. cbn. rewrite Hp. cbn.
  destruct (r1_round sp.2) as (bs & Hb & _). rewrite Hb. cbn. unfold honest_msg1. rewrite HG, Hb. cbn.
  unfold honest_hub, honest_session. rewrite bool_decide_false by done. cbn. unfold round1_message. cbn.
  assert (filter (λ p : Identifier * Round1Package, p.1 ∈ ({[id]} : gset Identifier))
    (snd <$> own_of G (sr_session_id req) R) = {[id := sp.2]}) as ->.
  { apply map_eq. intros i. apply option_eq. intros p. rewrite map_lookup_filter_Some, lookup_singleton_Some. simpl.
    rewrite elem_of_singleton, lookup_fmap. split.
    - intros [Hp' ->]. rewrite Hown in Hp'. by injection Hp' as ->.
    - intros [<- <-]. by rewrite Hown. }
  rewrite HG. done.
Qed.

(** What a completed finalization of [x] gave: the same [pk] as everyone's. *)
Record finalized {T} (sink : KeySink T) (sid : string) (t : N) (h : WireDkgHub) (st : T) (kp : KeyPackage)
    (pk : PublicKeyPackage) (st' : T) : Prop := {
  fz_run : ∃ h' s', finalize_with sink w sid (h, st) = ((h', st'), Ok (status s')) ∧
    sessions h' !! sid = Some s' ∧ phase s' = Complete ∧ key_package s' = Some kp ∧ pubkey_package s' = Some pk ∧
    completed h' = Some (kp, pk, t);
}.

(** Everyone of a roster finishes, whatever the keys are stored with, if storing works. *)
Lemma ceremony_completes {T} (sink : KeySink T) (kform : KeyPackage → KeyPackage) (pform : PublicKeyPackage → PublicKeyPackage)
    (ready : T → Prop) (stored : Identifier → N → KeyPackage → PublicKeyPackage → T → Prop) :
  (∀ s kp pk st, ready st → ∃ st', sink s kp pk st = (st', Ok (kform kp, pform pk)) ∧
     stored (local_identifier s) (min_signers s) (kform kp) (pform pk) st') →
  ∀ req R tr (rngs : string → Rng), start_check w req = Ok (R, tr) →
  ∃ (msg1 : string → option Round1WireMessage) (out2 : string → list Round2WireMessage) pk,
    (∀ y, is_Some (msg1 y) ↔ is_Some (R !! y)) ∧
    ∀ x id, R !! x = Some id → ∃ h st0 msg,
      start w req (rngs x) (hub_new x) = (h, Ok (st0, msg)) ∧ msg1 x = Some msg ∧
      ∀ evs, (∀ e, e ∈ evs → honest_event msg1 out2 x e) →
        (∀ y msg, y ≠ x → msg1 y = Some msg → Recv1 msg ∈ evs) →
        let p := run_events (sr_session_id req) h evs in
        (∃ l, (take_round2_outbound w (sr_session_id req) p.1).2 = Ok l ∧ p.2 ++ l = out2 x) ∧
        ((∀ y msg, y ≠ x → msg ∈ out2 y → r2m_recipient_node_id msg = x → Recv2 msg ∈ evs) →
         ∀ st : T, ready st → ∃ kp st', finalized sink (sr_session_id req) (sr_min_signers req) p.1 st kp pk st' ∧
           stored id (sr_min_signers req) kp pk st').
Proof.
  intros Hsink req R tr rngs Hc. destruct (start_check_ok _ _ _ _ Hc) as (Hwf & Hn & Ht & _).
  set (sid := sr_session_id req) in *. set (n := sr_max_signers req) in *. set (t := sr_min_signers req) in *.
  destruct (id_total 1 ltac:(done)) as [i0 _]. destruct (part1_ok i0 n t (rngs "") Ht) as [sp0 _].
  set (G := λ y (_ : string), match R !! y with
    | Some id => match part1 id n t (rngs y) with Ok sp => sp | Err _ => sp0 end | None => sp0 end).
  assert (∀ y id, R !! y = Some id → part1 id n t (rngs y) = Ok (G y sid)) as HG.
  { intros y id Hy. unfold G. rewrite Hy. by destruct (part1_ok id n t (rngs y) Ht) as [sp ->]. }
  destruct (dkg_correct n t (own_of G sid R)) as (outs & pk & Hd & Ho & H3 & Hpm & Hpn); [done|by rewrite size_own_of| |].
  { intros i sp (y & Hy & ->)%lookup_own_of; [|done]. exists (rngs y). by apply HG. }
  exists (msg1_of sid tr n t R G outs), (out2_of sid tr R outs), (pform pk). split.
  { intros y. unfold msg1_of. by rewrite fmap_is_Some. }
  intros x id Hx. assert (own_of G sid R !! id = Some (G x sid)) as Hown by by apply own_member.
  assert ({[id]} ≠ dom (own_of G sid R)) as Hne.
  { intros He. apply (f_equal size) in He. rewrite size_singleton, size_dom, size_own_of in He by done. lia. }
  eexists _, _, _. split; [by eapply (start_fresh G outs); eauto|]. split; [unfold msg1_of; by rewrite Hx|].
  intros evs He H1. destruct (honest_run sid tr n t R G outs Hwf Hn Hd Ho x id evs Hx He) as (D & I & b & Hi).
  fold sid n t. set (p := run_events _ _ _) in *. pose proof (whole_members _ _ _ _ _ _ _ Hwf x id evs p D I b Hx Hi H1) as ->.
  cbn zeta. rewrite (ri_hub _ _ _ _ _ _ _ _ _ _ _ _ _ _ Hi), (ri_out _ _ _ _ _ _ _ _ _ _ _ _ _ _ Hi). split.
  - unfold take_round2_outbound. erewrite with_honest by (by apply honest_take; [..|right]). cbn [fst snd].
    eexists. split; [done|]. rewrite bool_decide_true by done. destruct b; simpl; [by rewrite app_nil_r|done].
  - intros H2 st Hw. rewrite (whole_inbox _ _ _ _ _ _ _ Hwf Hn Hd Ho x id evs p _ I b Hx Hi H2).
    destruct (outs !! id) as [so|] eqn:Hso; [|exfalso; by destruct (outs_member sid R G outs Hwf Hd x id Hx); congruence].
    destruct (H3 id so Hso) as (kp & Hp3 & Hkt). set (s := honest_session sid tr n t R G outs x id _ _ b).
    destruct (Hsink s kp pk st Hw) as (st' & Est & Hst). exists (kform kp), st'. split; [|exact Hst].
    pose proof (honest_finalize sid tr n t R G outs Hwf Hn Hd Ho sink kform pform x id b kp pk so st st'
      Hx Ht Hso Hp3 Hkt Hpm Hpn Est) as Hf. split. eexists _, _. split; [exact Hf|]. simpl. rewrite lookup_insert_eq. done.
Qed.

Context {T : Type} `{ST : !ShareStore T, SP : !ShareStoreSpec T}.

Lemma plain_sink_ok (s : SessionInner) kp pk (st : T) : working st → ∃ st', plain_sink s kp pk st = (st', Ok (kp, pk)) ∧
  ∃ kb pb, kp_serialize kp = Ok kb ∧ pk_serialize pk = Ok pb ∧ share_at st' "frost-dkg-pubkey" = Some pb ∧
    share_at st' (format "frost-dkg-id-{}" [hex_encode (id_serialize (local_identifier s))]) = Some kb.
Proof.
  intros Hw. destruct (kp_total kp) as [kb Hkb], (pk_total pk) as [pb Hpb].
  set (name := format "frost-dkg-id-{}" [hex_encode (id_serialize (local_identifier s))]).
  destruct (put_ok st name kb Hw) as (st1 & E1 & W1 & G1).
  destruct (put_ok st1 "frost-dkg-pubkey" pb W1) as (st2 & E2 & W2 & G2). exists st2. split.
  - unfold plain_sink, mbind, cmd_bind, lift. rewrite Hkb. cbn [frost_call map_err]. fold name. rewrite E1, Hpb.
    cbn [frost_call map_err]. by rewrite E2.
  - exists kb, pb. do 2 (split; [done|]). split; [rewrite G2; by rewrite decide_True|].
    rewrite G2, decide_False by discriminate. rewrite G1. by rewrite decide_True.
Qed.

End run.
