(* ===== verification/TrWire.v ===== *)
(** * The Taproot ceremony ([adapters/dkg_tr_wire.rs])

    Its hub is the one of WireDkg.v at [tr_suite]; its finalization forces the keys
    to an even Y and persists the one local share as the USERS keyset, which is what
    a boot loads. *)
From S2P Require Import Prelude RustStr RustParse Errors Identity Frost HybridEnvelope WireDkg WireRoster.
From S2P Require Import WireHub AuthIdentity FrostShares WireDkgMesh WireDkgRun.
Local Open Scope N_scope.

Section tr.
Context `{FR : Frost, FS : !FrostStorage, EY : !EvenY, HX : HexCodec, SH : Sha256}.

Definition tr_identifier_from_u16 : N → res Identifier := identifier_from_u16 tr_suite.
Definition tr_build_roster : list string → res (gmap string Identifier) := build_roster tr_suite.
Definition session_transcript_tr : string → N → N → gmap string Identifier → string := session_transcript tr_suite.
Definition assert_threshold_tr : KeyPackage → PublicKeyPackage → N → N → res unit := assert_threshold tr_suite.
Definition tr_status : string → WireDkgHub → res WireDkgStatus := hub_status tr_suite.
Definition tr_start : DkgStartRequest → Rng → dcmd WireDkgHub (WireDkgStatus * Round1WireMessage) := start tr_suite.
Definition tr_ingest_round1 : Round1WireMessage → dcmd WireDkgHub WireDkgStatus := ingest_round1 tr_suite.
Definition tr_advance_to_round2 : dcmd SessionInner unit := advance_to_round2 tr_suite.
Definition tr_take_round2_outbound : string → dcmd WireDkgHub (list Round2WireMessage) := take_round2_outbound tr_suite.
Definition tr_ingest_round2 : Round2WireMessage → dcmd WireDkgHub WireDkgStatus := ingest_round2 tr_suite.

Context {T : Type} `{ST : !ShareStore T}.

Definition tr_sink : KeySink T := λ s kp pk,
  let pk := pk_even_y pk in
  let kp := kp_even_y kp in
  _ ← persist_tr_shares {| key_packages := {[local_identifier s := kp]}; ts_pubkey_package := pk;
                           ts_min_signers := min_signers s |};
  mret (kp, pk).
Definition tr_finalize_round3 : string → dcmd (WireDkgHub * T) WireDkgStatus := finalize_with tr_sink tr_suite.

Lemma tr_sink_form s kp pk (t t' : T) r : tr_sink s kp pk t = (t', Ok r) → r = (kp_even_y kp, pk_even_y pk).
Proof.
  unfold tr_sink, mbind, cmd_bind, mret, cmd_ret. intros H. repeat (case_match; simplify_eq); done.
Qed.

Context `{SP : !ShareStoreSpec T, HS : !HexSpec, FSP : !FrostStorageSpec, FC : !FrostCodec, FD : !FrostDkg}.

Lemma tr_sink_ok s kp pk (t : T) : working t → ∃ t', tr_sink s kp pk t = (t', Ok (kp_even_y kp, pk_even_y pk)) ∧
  (min_signers s ≤ u64_max →
   load_tr_shares t' = (t', Ok (mk_share_state {[local_identifier s := kp_even_y kp]} (pk_even_y pk) (min_signers s)))).
Proof.
  intros Hw. set (st := mk_share_state {[local_identifier s := kp_even_y kp]} (pk_even_y pk) (min_signers s)).
  destruct (persist_holds users_names st t users_names_ok Hw) as (t' & E & _ & Hh & _). exists t'. split.
  - unfold tr_sink, mbind, cmd_bind. unfold persist_tr_shares. fold st. by rewrite E.
  - intros Hm. apply load_holds; [done| |done]. simpl. apply insert_non_empty.
Qed.

(** The Taproot ceremony ends with what a boot loads: vaults of a roster that start the same
    session and get each other's messages all finalize, with the same even-Y public key
    package, and the keyset then loaded from each one's store is that package with its own
    share alone and the threshold of the ceremony. *)
Theorem tr_ceremony_loads req R tr (rngs : string → Rng) : start_check tr_suite req = Ok (R, tr) →
  ∃ (msg1 : string → option Round1WireMessage) (out2 : string → list Round2WireMessage) pk,
    ∀ x id, R !! x = Some id → ∃ h st0 msg,
      tr_start req (rngs x) (hub_new x) = (h, Ok (st0, msg)) ∧ msg1 x = Some msg ∧
      ∀ evs, (∀ e, e ∈ evs → honest_event msg1 out2 x e) →
        (∀ y msg, y ≠ x → msg1 y = Some msg → Recv1 msg ∈ evs) →
        (∀ y msg, y ≠ x → msg ∈ out2 y → r2m_recipient_node_id msg = x → Recv2 msg ∈ evs) →
        let p := run_events tr_suite (sr_session_id req) h evs in
        ∀ st : T, working st → ∃ kp h' st' status,
          tr_finalize_round3 (sr_session_id req) (p.1, st) = ((h', st'), Ok status) ∧
          completed h' = Some (kp, pk, sr_min_signers req) ∧
          load_tr_shares st' = (st', Ok (mk_share_state {[id := kp]} pk (sr_min_signers req))).
Proof.
  intros Hc. destruct (start_check_ok _ _ _ _ Hc) as (Hwf & Hn & Ht & _). pose proof (rw_size R Hwf) as Hsz.
  destruct (ceremony_completes tr_suite tr_sink kp_even_y pk_even_y working
    (λ id t kp pk st', t ≤ u64_max → load_tr_shares st' = (st', Ok (mk_share_state {[id := kp]} pk t))))
    with (req := req) (R := R) (tr := tr) (rngs := rngs) as (msg1 & out2 & pk & _ & Hall); [|done|].
  { intros s kp pk st Hw. by apply tr_sink_ok. }
  exists msg1, out2, pk. intros x id Hx. destruct (Hall x id Hx) as (h & st0 & msg & Hs & Hm & Hrun).
  exists h, st0, msg. split; [done|]. split; [done|]. intros evs He H1 H2 p st Hw.
  destruct (Hrun evs He H1) as [_ Hfin]. destruct (Hfin H2 st Hw) as (kp & st' & [(h' & s' & Hf & _ & _ & _ & _ & Hco)] & Hload).
  exists kp, h', st', (status s'). split; [exact Hf|]. split; [done|]. apply Hload. unfold u16_max, u64_max in *. lia.
Qed.
End tr.
