(* ===== verification/ShareReshare.v ===== *)
(** * In-process share refresh and the reshare hook ([adapters/frost_reshare.rs],
    [refresh_tr_shares_in_process] of [adapters/frost_tr_bitcoin.rs], [domain/reshare_policy.rs])

    The hook refreshes the intent keyset and the two Taproot keysets after a day
    advance or on a trigger; the group's verifying keys must not change. *)
From S2P Require Import Prelude RustStr RustParse Errors Identity DayEpoch Bucket Constitution Ledger.
From S2P Require Import Economy Frost HybridEnvelope WireDkg FrostShares.
Local Open Scope N_scope.

Inductive ResharePolicy := Daily | Manual.
#[export] Instance ResharePolicy_eq_dec : EqDecision ResharePolicy.
Proof. solve_decision. Defined.
Definition reshare_policy_parse (raw : string) : option ResharePolicy :=
  let s := to_ascii_lowercase (trim raw) in
  if bool_decide (s ∈ ["daily"; "auto"]) then Some Daily
  else if bool_decide (s ∈ ["manual"; "on_demand"; "ondemand"]) then Some Manual
  else None.
Definition reshare_policy_str (p : ResharePolicy) : string := match p with Daily => "daily" | Manual => "manual" end.
(** [env] is the value of VAULT_RESHARE_POLICY. *)
Definition reshare_policy_from_env (env : option string) : res ResharePolicy :=
  match env with
  | Some raw => ok_or (reshare_policy_parse raw)
      (InvalidConstitution (format "unknown VAULT_RESHARE_POLICY={} (want daily|manual)" [raw]))
  | None => Ok Manual
  end.

(** [keys::refresh::refresh_dkg_part1], [refresh_dkg_part2], [refresh_dkg_shares]. *)
Class FrostRefresh (FR : Frost) := {
  refresh_dkg_part1 : Identifier → N → N → Rng → result string (Round1Secret * Round1Package);
  refresh_dkg_part2 : Round1Secret → gmap Identifier Round1Package →
    result string (Round2Secret * gmap Identifier Round2Package);
  refresh_dkg_shares : Round2Secret → gmap Identifier Round1Package → gmap Identifier Round2Package →
    PublicKeyPackage → KeyPackage → result string (KeyPackage * PublicKeyPackage);
}.

Section refresh.
Context `{FR : Frost, RF : !FrostRefresh FR}.
Context (w : WireSuite).

(** [part1] of every identifier, in order. *)
Fixpoint refresh_round1 (max min : N) (rngs : Identifier → Rng) (ids : list Identifier)
    (acc : gmap Identifier (Round1Secret * Round1Package)) : res (gmap Identifier (Round1Secret * Round1Package)) :=
  match ids with
  | [] => Ok acc
  | id :: r =>
      sp ← frost_call "{} refresh part1: {}" [frost_name w] (refresh_dkg_part1 id max min (rngs id));
      refresh_round1 max min rngs r (<[id := sp]> acc)
  end.

(** [entry(receiver).or_default().insert(id, package)]. *)
Definition deliver (id : Identifier) (outbound : gmap Identifier Round2Package)
    (inbox : gmap Identifier (gmap Identifier Round2Package)) : gmap Identifier (gmap Identifier Round2Package) :=
  foldl (λ acc p, <[p.1 := <[id := p.2]> (default ∅ (acc !! p.1))]> acc) inbox (id_iter outbound).

(** [part2] of every identifier; the secrets are taken out of their map one by one. *)
Fixpoint refresh_round2 (round1_packages : gmap Identifier Round1Package) (ids : list Identifier)
    (secrets : gmap Identifier Round1Secret)
    (acc : gmap Identifier Round2Secret * gmap Identifier (gmap Identifier Round2Package)) :
    res (gmap Identifier Round2Secret * gmap Identifier (gmap Identifier Round2Package)) :=
  match ids with
  | [] => Ok acc
  | id :: r =>
      let received := delete id round1_packages in
      secret ← ok_or (secrets !! id) (ThresholdError (format "missing {}refresh round1 secret" [low w]));
      out ← frost_call "{} refresh part2: {}" [frost_name w] (refresh_dkg_part2 secret received);
      refresh_round2 round1_packages r (delete id secrets) (<[id := out.1]> acc.1, deliver id out.2 acc.2)
  end.

Definition keeps_group (min : N) (old_vk : VerifyingKey) (kp : KeyPackage) (pk : PublicKeyPackage) : res unit :=
  if negb (kp_min_signers kp =? min) then
    Err (ThresholdError (format "{}reshare threshold drift: got {} want {}" [low w; show (kp_min_signers kp); show min]))
  else if negb (bool_decide (verifying_key pk = old_vk)) then
    Err (ThresholdError (format "{}reshare changed group verifying key (forbidden)" [low w]))
  else Ok tt.

(** [refresh_dkg_shares] of every identifier. *)
Fixpoint refresh_round3 (min : N) (old_pubkey : PublicKeyPackage) (old_key_packages : gmap Identifier KeyPackage)
    (round1_packages : gmap Identifier Round1Package)
    (round2 : gmap Identifier Round2Secret * gmap Identifier (gmap Identifier Round2Package))
    (ids : list Identifier) (acc : gmap Identifier KeyPackage * option PublicKeyPackage) :
    res (gmap Identifier KeyPackage * option PublicKeyPackage) :=
  match ids with
  | [] => Ok acc
  | id :: r =>
      let r1_received := delete id round1_packages in
      r2_received ← ok_or (round2.2 !! id)
        (ThresholdError (format "missing {}refresh round2 inbox for {}" [low w; id_debug id]));
      r2_secret ← ok_or (round2.1 !! id) (ThresholdError (format "missing {}refresh round2 secret" [low w]));
      old_kp ← ok_or (old_key_packages !! id)
        (ThresholdError (format "missing old {}key package for {}" [low w; id_debug id]));
      keys ← frost_call "{} refresh part3: {}" [frost_name w]
        (refresh_dkg_shares r2_secret r1_received r2_received old_pubkey old_kp);
      _ ← keeps_group min (verifying_key old_pubkey) keys.1 keys.2;
      refresh_round3 min old_pubkey old_key_packages round1_packages round2 r (<[id := keys.1]> acc.1, Some keys.2)
  end.

Definition refresh_shares_in_process (rngs : Identifier → Rng) (old_key_packages : gmap Identifier KeyPackage)
    (old_pubkey : PublicKeyPackage) : res (gmap Identifier KeyPackage * PublicKeyPackage) :=
  match id_iter old_key_packages with
  | [] => Err (ThresholdError (format "{}reshare requires at least one key package" [low w]))
  | (_, first) :: _ =>
      let identifiers := (id_iter old_key_packages).*1 in
      let max_signers := wrap16 (len identifiers) in
      let min_signers := kp_min_signers first in
      if (max_signers <? 2) || (min_signers <? 2) || (max_signers <? min_signers) then
        Err (ThresholdError (format "bad {}reshare params: max={} min={}" [low w; show max_signers; show min_signers]))
      else
        round1 ← refresh_round1 max_signers min_signers rngs identifiers ∅;
        let round1_packages := snd <$> round1 in
        round2 ← refresh_round2 round1_packages identifiers (fst <$> round1) (∅, ∅);
        new ← refresh_round3 min_signers old_pubkey old_key_packages round1_packages round2 identifiers (∅, None);
        pubkey ← ok_or new.2 (ThresholdError (format "{}reshare produced no pubkey package" [low w]));
        mret (new.1, pubkey)
  end.

(* ------------------------------------------------------------------ *)
(** ** What a refresh keeps *)

Lemma refresh_round3_ok min old_pk old round1 round2 ids acc new pk0 :
  refresh_round3 min old_pk old round1 round2 ids acc = Ok (new, pk0) →
  (∀ pk, acc.2 = Some pk → verifying_key pk = verifying_key old_pk) →
  (∀ id kp, acc.1 !! id = Some kp → kp_min_signers kp = min) →
  (∀ id kp, new !! id = Some kp → kp_min_signers kp = min) ∧
  (∀ pk, pk0 = Some pk → verifying_key pk = verifying_key old_pk) ∧
  dom new = list_to_set ids ∪ dom acc.1.
Proof.
  revert acc. induction ids as [|id ids IH]; intros acc H Hpk Hkp.
  { injection H as ->. simpl in *. split; [done|]. split; [done|]. set_solver. }
  cbn [refresh_round3] in H. apply bind_ok in H as (r2 & _ & H). apply bind_ok in H as (sec & _ & H).
  apply bind_ok in H as (old_kp & _ & H). apply bind_ok in H as (keys & _ & H). apply bind_ok in H as (u & Hg & H).
  unfold keeps_group in Hg. rewrite !guard_ok in Hg. destruct Hg as (Hm & Hv & _). nbool.
  apply IH in H as (H1 & H2 & H3); simpl.
  - split; [done|]. split; [done|]. rewrite H3. simpl. rewrite dom_insert_L. set_solver.
  - intros pk [= <-]. done.
  - intros i kp Hi. apply lookup_insert_Some in Hi as [[<- <-]|[_ Hi]]; [done|by eapply Hkp].
Qed.

(** A refresh gives the same identifiers new shares of the same threshold and the same
    verifying key. *)
Lemma refresh_keeps_group rngs old old_pk new pk : refresh_shares_in_process rngs old old_pk = Ok (new, pk) →
  verifying_key pk = verifying_key old_pk ∧ dom new = dom old ∧
  ∃ id first, old !! id = Some first ∧ ∀ i kp, new !! i = Some kp → kp_min_signers kp = kp_min_signers first.
Proof.
  unfold refresh_shares_in_process. destruct (id_iter old) as [|[id0 first] l] eqn:El; [done|].
  assert (old !! id0 = Some first) as H0 by (apply elem_of_id_iter; rewrite El; by left).
  rewrite guard_ok. intros [_ H]. apply bind_ok in H as (round1 & _ & H). apply bind_ok in H as (round2 & _ & H).
  apply bind_ok in H as ([new' pk0] & H3 & H). apply bind_ok in H as (pk' & Hpk & H). injection H as <- <-.
  rewrite ok_or_ok in Hpk. simpl in Hpk. apply refresh_round3_ok in H3 as (Hm & Hv & Hd); [|done|].
  - split; [by apply Hv|]. split; [|by exists id0, first]. cbn [fst] in *. rewrite Hd, dom_empty_L, (right_id_L ∅ (∪)).
    rewrite <- El. apply set_eq. intros i. rewrite elem_of_list_to_set, elem_of_dom, list_elem_of_fmap. split.
    + intros ([j k] & -> & Hj%elem_of_id_iter). by exists k.
    + intros [k Hk]. exists (i, k). split; [done|]. by apply elem_of_id_iter.
  - intros id kp Hl. cbn in Hl. by rewrite lookup_empty in Hl.
Qed.
End refresh.

(* ------------------------------------------------------------------ *)
(** ** [PolicyReshareHook]: the plain crate's keyset and two of the Taproot crate's *)

Section hook.
Context (FP FT : Frost) {RP : FrostRefresh FP} {RT : FrostRefresh FT} {FS : @FrostStorage FT}.
Context `{HX : HexCodec, SH : Sha256} {T : Type} `{ST : !ShareStore T}.
Notation PlainShares := (@FrostTrShareState FP).
Notation TrShares := (@FrostTrShareState FT).

(** A slot is an [option]; [snapshot] of an empty one fails. *)
Definition snapshot {A} (what : string) (slot : option A) : res A := ok_or slot (ThresholdError what).

Record PolicyReshareHook := mk_hook {
  rh_policy : ResharePolicy;
  rh_writer : NodeId;
  rh_governance : option (NodeId * GovernanceRewardConfig);
  rh_allow_in_process : bool;
}.
Record HookState := mk_hook_state {
  hs_intent : option PlainShares;
  hs_tr : option TrShares;
  hs_channels : option (option TrShares);
  hs_store : option T;
  hs_node : EcoNode;
}.
Definition set_intent (x : PlainShares) (s : HookState) : HookState :=
  mk_hook_state (Some x) (hs_tr s) (hs_channels s) (hs_store s) (hs_node s).
Definition set_tr (x : TrShares) (s : HookState) : HookState :=
  mk_hook_state (hs_intent s) (Some x) (hs_channels s) (hs_store s) (hs_node s).
Definition set_channels (x : TrShares) (s : HookState) : HookState :=
  mk_hook_state (hs_intent s) (hs_tr s) (Some (Some x)) (hs_store s) (hs_node s).
Definition hook_ledger {A} : dcmd LedgerState A → dcmd HookState A :=
  zoom (λ s, led (hs_node s)) (λ l s, mk_hook_state (hs_intent s) (hs_tr s) (hs_channels s) (hs_store s)
    {| eco := eco (hs_node s); led := l |}).
Definition hook_node {A} : dcmd EcoNode A → dcmd HookState A :=
  zoom hs_node (λ n s, mk_hook_state (hs_intent s) (hs_tr s) (hs_channels s) (hs_store s) n).
(** [if let Some(store) = self.share_store]. *)
Definition hook_store (c : dcmd T unit) : dcmd HookState unit := λ s,
  match hs_store s with
  | Some t => let '(t', r) := c t in (mk_hook_state (hs_intent s) (hs_tr s) (hs_channels s) (Some t') (hs_node s), r)
  | None => (s, Ok tt)
  end.

Definition append_ledger_event (writer : NodeId) (kind : LedgerEventKind) (payload : string) : dcmd LedgerState unit :=
  epoch ← ledger_epoch;
  append_event (number epoch) kind payload writer.

Definition accrue (h : PolicyReshareHook) (job : GovernanceJobKind) (participants : list NodeId) (context : string) :
    dcmd HookState unit :=
  match rh_governance h with
  | Some g => _ ← hook_node (accrue_governance_work g.1 g.2 job participants context); mret tt
  | None => mret tt
  end.
Definition reward_participants (participants : list NodeId) : dcmd HookState (list NodeId) :=
  match participants with
  | [] => e ← hook_ledger ledger_epoch; mret (active_set e)
  | _ => mret participants
  end.

Definition record_day_advanced (h : PolicyReshareHook) (from to : DayEpoch) : dcmd HookState unit :=
  c ← hook_ledger ledger_constitution;
  hook_ledger (append_ledger_event (rh_writer h) EvDayAdvanced
    (format (q "{{`from`:`{}`,`to`:`{}`,`constitution_hash`:`{}`,`reshare_policy`:`{}`}}")
       [day_str from; day_str to; hash c; reshare_policy_str (rh_policy h)])).

Definition day_text (d : option DayEpoch) : string := match d with Some d => day_str d | None => "" end.
(** The event of a refresh of [n] packages. *)
Definition reshare_event (h : PolicyReshareHook) (suite reason : string) (from_day to_day : option DayEpoch)
    (n min : N) (vk_hex : string) : dcmd HookState unit :=
  c ← hook_ledger ledger_constitution;
  hook_ledger (append_ledger_event (rh_writer h) EvReshareCompleted
    (format (q "{{`reason`:`{}`,`suite`:`{}`,`participants`:{},`min_signers`:{},`verifying_key`:`{}`,`constitution_hash`:`{}`,`from_day`:`{}`,`to_day`:`{}`}}")
       [reason; suite; show n; show min; vk_hex; hash c; day_text from_day; day_text to_day])).

Definition vk_hex `{F : Frost} (tag : string) (pk : PublicKeyPackage) : res string :=
  b ← frost_call "{}vk serialize: {}" [tag] (vk_serialize (verifying_key pk)); mret (hex_encode b).

(** The randomness of one run. *)
Record HookRng := mk_hook_rng {
  rng_intent : @Identifier FP → @Rng FP;
  rng_tr : @Identifier FT → @Rng FT;
  rng_channels : @Identifier FT → @Rng FT;
}.

Definition refresh_intent (h : PolicyReshareHook) (r : HookRng) (reason : string) (from_day to_day : option DayEpoch) :
    dcmd HookState string :=
  s ← get;
  snap ← lift (snapshot "FROST material not installed" (hs_intent s));
  old_vk_hex ← lift (vk_hex "" (ts_pubkey_package snap));
  new ← lift (refresh_shares_in_process plain_suite (rng_intent r) (key_packages snap) (ts_pubkey_package snap));
  new_vk_hex ← lift (vk_hex "" new.2);
  if negb (bool_decide (old_vk_hex = new_vk_hex)) then fail (ThresholdError "intent reshare verifying key mismatch")
  else
    _ ← update (set_intent (mk_share_state new.1 new.2 (ts_min_signers snap)));
    _ ← reshare_event h "frost-secp256k1" reason from_day to_day (N.of_nat (size (key_packages snap)))
          (ts_min_signers snap) new_vk_hex;
    mret new_vk_hex.

Definition refresh_channels_taproot (h : PolicyReshareHook) (r : HookRng) (reason : string)
    (from_day to_day : option DayEpoch) : dcmd HookState unit :=
  s ← get;
  match hs_channels s with
  | Some (Some snap) =>
      new ← lift (refresh_shares_in_process tr_suite (rng_channels r) (key_packages snap) (ts_pubkey_package snap));
      if negb (bool_decide (verifying_key new.2 = verifying_key (ts_pubkey_package snap))) then
        fail (ThresholdError "CHANNELS tr reshare verifying key mismatch (deposit would change)")
      else
        new_vk_hex ← lift (vk_hex "tr-ch " new.2);
        let new_state := mk_share_state new.1 new.2 (ts_min_signers snap) in
        _ ← hook_store (persist_tr_channels_shares new_state);
        _ ← update (set_channels new_state);
        reshare_event h "frost-secp256k1-tr-channels" reason from_day to_day (N.of_nat (size (key_packages snap)))
          (ts_min_signers snap) new_vk_hex
  | _ => mret tt
  end.

Definition refresh_taproot (h : PolicyReshareHook) (r : HookRng) (reason : string) (from_day to_day : option DayEpoch) :
    dcmd HookState unit :=
  s ← get;
  match hs_tr s with
  | None => mret tt
  | Some snap =>
      _ ← lift (vk_hex "tr " (ts_pubkey_package snap));
      new ← lift (refresh_shares_in_process tr_suite (rng_tr r) (key_packages snap) (ts_pubkey_package snap));
      if negb (bool_decide (verifying_key new.2 = verifying_key (ts_pubkey_package snap))) then
        fail (ThresholdError "tr reshare verifying key mismatch (deposit would change)")
      else
        new_vk_hex ← lift (vk_hex "tr " new.2);
        let new_state := mk_share_state new.1 new.2 (ts_min_signers snap) in
        _ ← hook_store (persist_tr_shares new_state);
        _ ← update (set_tr new_state);
        _ ← reshare_event h "frost-secp256k1-tr" reason from_day to_day (N.of_nat (size (key_packages snap)))
              (ts_min_signers snap) new_vk_hex;
        refresh_channels_taproot h r reason from_day to_day
  end.

Definition share_count `{F : Frost} (slot : option FrostTrShareState) : N :=
  match slot with Some s => N.of_nat (size (key_packages s)) | None => 0 end.
Definition run_reshare (h : PolicyReshareHook) (r : HookRng) (reason : string) (from_day to_day : option DayEpoch)
    (participants : list NodeId) : dcmd HookState unit :=
  if negb (rh_allow_in_process h) then
    fail (ThresholdError "in-process N-share FROST reshare refused outside dealer_lab; use multi-party wire reshare (or VAULT_DKG_MODE=dealer_lab in lab only)")
  else
    s ← get;
    if (share_count (hs_intent s) <=? 1) && (share_count (hs_tr s) <=? 1) then
      fail (ThresholdError "in-process reshare requires N local shares (dealer_lab); single-share mesh must reshare over wire")
    else
      _ ← refresh_intent h r reason from_day to_day;
      _ ← refresh_taproot h r reason from_day to_day;
      rewarded ← reward_participants participants;
      accrue h JobReshareCompleted rewarded reason.

Definition on_day_advance (h : PolicyReshareHook) (r : HookRng) (from to : DayEpoch) (participants : list NodeId) :
    dcmd HookState unit :=
  _ ← record_day_advanced h from to;
  rewarded ← reward_participants participants;
  _ ← accrue h JobDayAdvanced rewarded (format "{}->{}" [day_str from; day_str to]);
  match rh_policy h with
  | Daily => run_reshare h r "day_advance" (Some from) (Some to) rewarded
  | Manual => mret tt
  end.
Definition trigger_manual (h : PolicyReshareHook) (r : HookRng) (reason : string) : dcmd HookState unit :=
  run_reshare h r reason None None [].

(* ------------------------------------------------------------------ *)
(** ** What the hook never changes *)

Context `{SP : !ShareStoreSpec T, HS : !HexSpec, FSP : !FrostStorageSpec}.

(** The same group: verifying key, identifiers, threshold. *)
Definition same_group `{F : Frost} (x y : FrostTrShareState) : Prop :=
  verifying_key (ts_pubkey_package y) = verifying_key (ts_pubkey_package x) ∧
  dom (key_packages y) = dom (key_packages x) ∧ ts_min_signers y = ts_min_signers x.
Definition slot_kept {A} (R : A → A → Prop) (a b : option A) : Prop :=
  match a, b with Some x, Some y => R x y | None, None => True | _, _ => False end.
(** What is on disk is what is in the slots. *)
Definition slots_stored (s : HookState) : Prop :=
  ∀ t, hs_store s = Some t → working t ∧ (∀ x, hs_tr s = Some x → holds users_names x t) ∧
    (∀ x, hs_channels s = Some (Some x) → holds channels_names x t).
Record hook_le (s s' : HookState) : Prop := {
  hl_intent : slot_kept same_group (hs_intent s) (hs_intent s');
  hl_tr : slot_kept same_group (hs_tr s) (hs_tr s');
  hl_channels : slot_kept (slot_kept same_group) (hs_channels s) (hs_channels s');
  hl_stored : slots_stored s → slots_stored s';
}.

#[local] Instance same_group_preorder `{F : Frost} : PreOrder (same_group (F := F)).
Proof. split; [by intros x|]. intros x y z (?&?&?) (?&?&?). split_and!; congruence. Qed.
#[local] Instance slot_kept_preorder {A} (R : A → A → Prop) `{!PreOrder R} : PreOrder (slot_kept R).
Proof.
  split; [intros [x|]; simpl; [reflexivity|done]|]. intros [x|] [y|] [z|]; simpl; try done. intros. by etrans.
Qed.
#[local] Instance hook_le_preorder : PreOrder hook_le.
Proof.
  split; [intros s; split; [reflexivity..|auto]|]. intros s t u [I1 T1 C1 S1] [I2 T2 C2 S2].
  split; [by etrans..|by auto].
Qed.

(** [c] leads from [s] to a state of the same groups. *)
Definition kept {A} (c : dcmd HookState A) (s : HookState) : Prop := hook_le s (c s).1.
Lemma kept_bind {A B} (c : dcmd HookState A) (f : A → dcmd HookState B) s :
  kept c s → (∀ x s', c s = (s', Ok x) → kept (f x) s') → kept (c ≫= f) s.
Proof.
  unfold kept, mbind, cmd_bind. intros Hc Hf. destruct (c s) as [s' [x|e]] eqn:E; [|done]. simpl in *.
  etrans; [exact Hc|]. by eapply Hf.
Qed.
Lemma kept_same {A} (c : dcmd HookState A) s : hs_intent (c s).1 = hs_intent s → hs_tr (c s).1 = hs_tr s →
  hs_channels (c s).1 = hs_channels s → hs_store (c s).1 = hs_store s → kept c s.
Proof.
  unfold kept. destruct s, (c _) as [[] r]. simpl. intros -> -> -> ->. split; simpl; [reflexivity..|auto].
Qed.
Lemma kept_ledger {A} (c : dcmd LedgerState A) s : kept (hook_ledger c) s.
Proof. apply kept_same; unfold hook_ledger, zoom; by destruct (c _). Qed.
Lemma kept_node {A} (c : dcmd EcoNode A) s : kept (hook_node c) s.
Proof. apply kept_same; unfold hook_node, zoom; by destruct (c _). Qed.
Lemma kept_lift {A} (r : res A) s : kept (lift r) s.
Proof. unfold kept. simpl. reflexivity. Qed.
Lemma kept_event h suite reason f t n m v s : kept (reshare_event h suite reason f t n m v) s.
Proof. apply kept_bind; [apply kept_ledger|intros; apply kept_ledger]. Qed.
Lemma kept_accrue h job l c s : kept (accrue h job l c) s.
Proof.
  unfold accrue. destruct (rh_governance h); [|apply kept_same; done].
  apply kept_bind; [apply kept_node|intros; by apply kept_same].
Qed.
Lemma kept_rewards l s : kept (reward_participants l) s.
Proof.
  destruct l; [|by apply kept_same]. apply kept_bind; [apply kept_ledger|intros; by apply kept_same].
Qed.

Lemma kept_refresh_intent h r reason f t s : kept (refresh_intent h r reason f t) s.
Proof.
  unfold refresh_intent. apply kept_bind; [by apply kept_same|]. intros x s' [= <- <-].
  apply kept_bind; [apply kept_lift|]. intros snap s' [= <- Hsnap]. unfold snapshot in Hsnap. rewrite ok_or_ok in Hsnap.
  apply kept_bind; [apply kept_lift|]. intros old s' [= <- _].
  apply kept_bind; [apply kept_lift|]. intros [new pk] s' [= <- Hr]. apply refresh_keeps_group in Hr as (Hv & Hd & _).
  apply kept_bind; [apply kept_lift|]. intros nv s' [= <- _]. case_match; [apply kept_lift|].
  apply kept_bind; [|intros; apply kept_bind; [apply kept_event|intros; by apply kept_same]].
  unfold kept. cbn. split; simpl; [by rewrite Hsnap|reflexivity..|auto].
Qed.

(** A keyset persisted on a working store, beside another one. *)
Lemma persist_beside n m (new : TrShares) (t t' : T) r : names_ok n → (∀ i, is_name m i → ¬ is_name n i) →
  persist_shares n new t = (t', r) → working t →
  r = Ok tt ∧ working t' ∧ holds n new t' ∧ ∀ x, holds m x t → holds m x t'.
Proof.
  intros Hn Hm Hp Hw. destruct (persist_holds n new t Hn Hw) as (t1 & E & W & Hh & Ho).
  rewrite Hp in E. injection E as -> ->. do 3 (split; [done|]). intros x. apply holds_ext.
  intros i Hi. apply Ho. by apply Hm.
Qed.

Lemma kept_replace_tr {A} (new snap : TrShares) (k : dcmd HookState A) s : hs_tr s = Some snap → same_group snap new →
  (∀ s', kept k s') → kept (_ ← hook_store (persist_tr_shares new); _ ← update (set_tr new); k) s.
Proof.
  intros Hs Hg Hk. unfold kept, mbind, cmd_bind, hook_store. destruct (hs_store s) as [t|] eqn:Et.
  - destruct (persist_tr_shares new t) as [t' r] eqn:Ep.
    pose proof (λ Hw, persist_beside users_names channels_names new t t' r users_names_ok
      (λ i Hi Hj, names_apart i Hj Hi) Ep Hw) as Hb.
    destruct r as [[]|e]; simpl.
    + etrans; [|apply Hk]. split; simpl; [reflexivity|by rewrite Hs|reflexivity|].
      intros Hst t0 [= <-]. destruct (Hst t Et) as (Hw & _ & Hc). destruct (Hb Hw) as (_ & W & Hh & Hx). simpl.
      split; [done|]. split; [by intros x [= <-]|]. auto.
    + split; simpl; [reflexivity..|]. intros Hst. destruct (Hst t Et) as (Hw & _). destruct (Hb Hw) as [? _]. done.
  - simpl. etrans; [|apply Hk]. split; simpl; [reflexivity|by rewrite Hs|reflexivity|].
    intros _ t. simpl. by rewrite Et.
Qed.

Lemma kept_replace_channels {A} (new snap : TrShares) (k : dcmd HookState A) s : hs_channels s = Some (Some snap) →
  same_group snap new → (∀ s', kept k s') →
  kept (_ ← hook_store (persist_tr_channels_shares new); _ ← update (set_channels new); k) s.
Proof.
  intros Hs Hg Hk. unfold kept, mbind, cmd_bind, hook_store. destruct (hs_store s) as [t|] eqn:Et.
  - destruct (persist_tr_channels_shares new t) as [t' r] eqn:Ep.
    pose proof (λ Hw, persist_beside channels_names users_names new t t' r channels_names_ok names_apart Ep Hw) as Hb.
    destruct r as [[]|e]; simpl.
    + etrans; [|apply Hk]. split; simpl; [reflexivity..|by rewrite Hs|].
      intros Hst t0 [= <-]. destruct (Hst t Et) as (Hw & Hu & _). destruct (Hb Hw) as (_ & W & Hh & Hx). simpl.
      split; [done|]. split; [auto|]. by intros x [= <-].
    + split; simpl; [reflexivity..|]. intros Hst. destruct (Hst t Et) as (Hw & _). destruct (Hb Hw) as [? _]. done.
  - simpl. etrans; [|apply Hk]. split; simpl; [reflexivity..|by rewrite Hs|].
    intros _ t. simpl. by rewrite Et.
Qed.

Lemma kept_refresh_channels h r reason f t s : kept (refresh_channels_taproot h r reason f t) s.
Proof.
  unfold refresh_channels_taproot. apply kept_bind; [by apply kept_same|]. intros x s' [= <- <-].
  destruct (hs_channels s) as [[snap|]|] eqn:Hs; [|by apply kept_same..].
  apply kept_bind; [apply kept_lift|]. intros [new pk] s' [= <- Hr]. apply refresh_keeps_group in Hr as (Hv & Hd & _).
  case_match; [apply kept_lift|]. apply kept_bind; [apply kept_lift|]. intros nv s' [= <- _].
  eapply kept_replace_channels; [done|done|]. intros s'. apply kept_event.
Qed.

Lemma kept_refresh_taproot h r reason f t s : kept (refresh_taproot h r reason f t) s.
Proof.
  unfold refresh_taproot. apply kept_bind; [by apply kept_same|]. intros x s' [= <- <-].
  destruct (hs_tr s) as [snap|] eqn:Hs; [|by apply kept_same].
  apply kept_bind; [apply kept_lift|]. intros ov s' [= <- _].
  apply kept_bind; [apply kept_lift|]. intros [new pk] s' [= <- Hr]. apply refresh_keeps_group in Hr as (Hv & Hd & _).
  case_match; [apply kept_lift|]. apply kept_bind; [apply kept_lift|]. intros nv s' [= <- _].
  eapply kept_replace_tr; [done|done|]. intros s'.
  apply kept_bind; [apply kept_event|]. intros. apply kept_refresh_channels.
Qed.

Lemma kept_run_reshare h r reason f t l s : kept (run_reshare h r reason f t l) s.
Proof.
  unfold run_reshare. case_match; [apply kept_lift|]. apply kept_bind; [by apply kept_same|]. intros x s' [= <- <-].
  case_match; [apply kept_lift|]. apply kept_bind; [apply kept_refresh_intent|]. intros.
  apply kept_bind; [apply kept_refresh_taproot|]. intros. apply kept_bind; [apply kept_rewards|]. intros. apply kept_accrue.
Qed.

(** The two entry points. *)
Inductive hook_call (h : PolicyReshareHook) : HookState → HookState → Prop :=
| HK_day r from to l s : hook_call h s (on_day_advance h r from to l s).1
| HK_manual r reason s : hook_call h s (trigger_manual h r reason s).1.

Lemma hook_call_le h s s' : hook_call h s s' → hook_le s s'.
Proof.
  intros [r from to l x|r reason x]; [|apply kept_run_reshare].
  apply kept_bind; [apply kept_bind; [apply kept_ledger|intros; apply kept_ledger]|]. intros.
  apply kept_bind; [apply kept_rewards|]. intros. apply kept_bind; [apply kept_accrue|]. intros.
  destruct (rh_policy h); [apply kept_run_reshare|by apply kept_same].
Qed.

(** C29 A reshare never moves the deposit address: over any sequence of day advances and manual
    triggers, whatever they return and whatever randomness they draw, each of the three
    keysets keeps its verifying key, its identifiers and its threshold; and when the Taproot
    keysets are on a working store to begin with, what a restart loads stays exactly what is
    in use. *)
Theorem reshare_keeps_groups h s s' : steps (hook_call h) s s' →
  slot_kept same_group (hs_intent s) (hs_intent s') ∧ slot_kept same_group (hs_tr s) (hs_tr s') ∧
  slot_kept (slot_kept same_group) (hs_channels s) (hs_channels s') ∧
  (slots_stored s → ∀ t, hs_store s' = Some t →
     (∀ x, hs_tr s' = Some x → key_packages x ≠ ∅ → ts_min_signers x ≤ u64_max → load_tr_shares t = (t, Ok x)) ∧
     (∀ x, hs_channels s' = Some (Some x) → key_packages x ≠ ∅ → ts_min_signers x ≤ u64_max →
        load_tr_channels_shares t = (t, Ok x))).
Proof.
  intros Hr. destruct (steps_preorder (hook_call h) hook_le (hook_call_le h) s s' Hr) as [I R C S].
  do 3 (split; [done|]). intros Hst t Ht. destruct (S Hst t Ht) as (_ & Hu & Hc).
  split; intros x Hx Hne Hm; apply load_holds; auto.
Qed.
End hook.
