(* ===== verification/ReshareWire.v ===== *)
(** * Over-wire share refresh ([adapters/reshare_wire.rs])

    One vault's refresh hub: the rounds of the wire ceremony over [refresh_dkg_*],
    with an identifier encoding, a transcript and guards of its own, and a
    finalization that holds the new group key to the old one. *)
From S2P Require Import Prelude RustStr RustParse Errors Identity DayEpoch Frost HybridEnvelope WireDkg.
From S2P Require Import WireRoster FrostShares ShareReshare.
Local Open Scope N_scope.

(** [hex::encode(Sha3_384::digest(b))]. *)
Class Sha3 := sha3_384_hex : bytes → string.

Inductive WireResharePhase := ReshareRound1 | ReshareRound2 | ReshareComplete.
#[export] Instance WireResharePhase_eq_dec : EqDecision WireResharePhase.
Proof. solve_decision. Defined.
Definition reshare_phase_str (p : WireResharePhase) : string :=
  match p with ReshareRound1 => "round1" | ReshareRound2 => "round2" | ReshareComplete => "complete" end.

Record ReshareRound1WireMessage := mk_rr1 {
  rr1_session_id : string;
  rr1_sender_node_id : string;
  rr1_sender_identifier : N;
  rr1_max_signers : N;
  rr1_min_signers : N;
  rr1_day_epoch : string;
  rr1_transcript_hex : string;
  rr1_package_hex : string;
  rr1_envelope : option HybridEnvelope;
}.
Record ReshareRound2WireMessage := mk_rr2 {
  rr2_session_id : string;
  rr2_sender_node_id : string;
  rr2_sender_identifier : N;
  rr2_recipient_node_id : string;
  rr2_recipient_identifier : N;
  rr2_transcript_hex : string;
  rr2_package_hex : string;
  rr2_envelope : option HybridEnvelope;
}.
Record ReshareStartRequest := mk_reshare_start {
  rq_session_id : string;
  rq_max_signers : N;
  rq_min_signers : N;
  rq_roster : list string;
  rq_day_epoch : string;
  rq_constitution_hash : string;
}.
Record WireReshareStatus := mk_reshare_status {
  rt_session_id : string;
  rt_phase : string;
  rt_local_node_id : string;
  rt_local_identifier : N;
  rt_max_signers : N;
  rt_min_signers : N;
  rt_transcript_hex : string;
  rt_round1_received : N;
  rt_round2_received : N;
  rt_complete : bool;
  rt_verifying_key_hex : option string;
}.

Section hub.
Context `{FR : Frost, RF : !FrostRefresh FR, HX : HexCodec, S3 : Sha3}.

Record ReshareSessionInner := mk_reshare_session {
  rs_session_id : string;
  rs_local_node_id : string;
  rs_local_identifier : Identifier;
  rs_max_signers : N;
  rs_min_signers : N;
  rs_roster : gmap string Identifier;
  rs_transcript_hex : string;
  rs_day_epoch : DayEpoch;
  rs_constitution_hash : string;
  rs_phase : WireResharePhase;
  rs_round1_secret : option Round1Secret;
  rs_round1_packages : gmap Identifier Round1Package;
  rs_round2_secret : option Round2Secret;
  rs_round2_inbox : gmap Identifier Round2Package;
  rs_round2_outbound : gmap Identifier Round2Package;
  rs_old_key_package : option KeyPackage;
  rs_old_pubkey_package : PublicKeyPackage;
  rs_new_key_package : option KeyPackage;
  rs_new_pubkey_package : option PublicKeyPackage;
}.

Definition rs_set_round1_secret (x : option Round1Secret) (s : ReshareSessionInner) : ReshareSessionInner :=
  {| rs_session_id := rs_session_id s; rs_local_node_id := rs_local_node_id s;
     rs_local_identifier := rs_local_identifier s; rs_max_signers := rs_max_signers s;
     rs_min_signers := rs_min_signers s; rs_roster := rs_roster s; rs_transcript_hex := rs_transcript_hex s;
     rs_day_epoch := rs_day_epoch s; rs_constitution_hash := rs_constitution_hash s; rs_phase := rs_phase s;
     rs_round1_secret := x; rs_round1_packages := rs_round1_packages s; rs_round2_secret := rs_round2_secret s;
     rs_round2_inbox := rs_round2_inbox s; rs_round2_outbound := rs_round2_outbound s;
     rs_old_key_package := rs_old_key_package s; rs_old_pubkey_package := rs_old_pubkey_package s;
     rs_new_key_package := rs_new_key_package s; rs_new_pubkey_package := rs_new_pubkey_package s |}.
Definition rs_set_round1_packages (f : gmap Identifier Round1Package → gmap Identifier Round1Package) (s : ReshareSessionInner) : ReshareSessionInner :=
  {| rs_session_id := rs_session_id s; rs_local_node_id := rs_local_node_id s;
     rs_local_identifier := rs_local_identifier s; rs_max_signers := rs_max_signers s;
     rs_min_signers := rs_min_signers s; rs_roster := rs_roster s; rs_transcript_hex := rs_transcript_hex s;
     rs_day_epoch := rs_day_epoch s; rs_constitution_hash := rs_constitution_hash s; rs_phase := rs_phase s;
     rs_round1_secret := rs_round1_secret s; rs_round1_packages := f (rs_round1_packages s);
     rs_round2_secret := rs_round2_secret s; rs_round2_inbox := rs_round2_inbox s;
     rs_round2_outbound := rs_round2_outbound s; rs_old_key_package := rs_old_key_package s;
     rs_old_pubkey_package := rs_old_pubkey_package s; rs_new_key_package := rs_new_key_package s;
     rs_new_pubkey_package := rs_new_pubkey_package s |}.
Definition rs_set_round2_inbox (f : gmap Identifier Round2Package → gmap Identifier Round2Package) (s : ReshareSessionInner) : ReshareSessionInner :=
  {| rs_session_id := rs_session_id s; rs_local_node_id := rs_local_node_id s;
     rs_local_identifier := rs_local_identifier s; rs_max_signers := rs_max_signers s;
     rs_min_signers := rs_min_signers s; rs_roster := rs_roster s; rs_transcript_hex := rs_transcript_hex s;
     rs_day_epoch := rs_day_epoch s; rs_constitution_hash := rs_constitution_hash s; rs_phase := rs_phase s;
     rs_round1_secret := rs_round1_secret s; rs_round1_packages := rs_round1_packages s;
     rs_round2_secret := rs_round2_secret s; rs_round2_inbox := f (rs_round2_inbox s);
     rs_round2_outbound := rs_round2_outbound s; rs_old_key_package := rs_old_key_package s;
     rs_old_pubkey_package := rs_old_pubkey_package s; rs_new_key_package := rs_new_key_package s;
     rs_new_pubkey_package := rs_new_pubkey_package s |}.
Definition rs_set_round2_outbound (m : gmap Identifier Round2Package) (s : ReshareSessionInner) : ReshareSessionInner :=
  {| rs_session_id := rs_session_id s; rs_local_node_id := rs_local_node_id s;
     rs_local_identifier := rs_local_identifier s; rs_max_signers := rs_max_signers s;
     rs_min_signers := rs_min_signers s; rs_roster := rs_roster s; rs_transcript_hex := rs_transcript_hex s;
     rs_day_epoch := rs_day_epoch s; rs_constitution_hash := rs_constitution_hash s; rs_phase := rs_phase s;
     rs_round1_secret := rs_round1_secret s; rs_round1_packages := rs_round1_packages s;
     rs_round2_secret := rs_round2_secret s; rs_round2_inbox := rs_round2_inbox s; rs_round2_outbound := m;
     rs_old_key_package := rs_old_key_package s; rs_old_pubkey_package := rs_old_pubkey_package s;
     rs_new_key_package := rs_new_key_package s; rs_new_pubkey_package := rs_new_pubkey_package s |}.
(** The assignments after [refresh_dkg_part2]. *)
Definition rs_enter_round2 (secret : Round2Secret) (outbound : gmap Identifier Round2Package) (s : ReshareSessionInner) : ReshareSessionInner :=
  {| rs_session_id := rs_session_id s; rs_local_node_id := rs_local_node_id s;
     rs_local_identifier := rs_local_identifier s; rs_max_signers := rs_max_signers s;
     rs_min_signers := rs_min_signers s; rs_roster := rs_roster s; rs_transcript_hex := rs_transcript_hex s;
     rs_day_epoch := rs_day_epoch s; rs_constitution_hash := rs_constitution_hash s; rs_phase := ReshareRound2;
     rs_round1_secret := rs_round1_secret s; rs_round1_packages := rs_round1_packages s;
     rs_round2_secret := Some secret; rs_round2_inbox := rs_round2_inbox s; rs_round2_outbound := outbound;
     rs_old_key_package := rs_old_key_package s; rs_old_pubkey_package := rs_old_pubkey_package s;
     rs_new_key_package := rs_new_key_package s; rs_new_pubkey_package := rs_new_pubkey_package s |}.
(** The assignments of a finished refresh. *)
Definition rs_enter_complete (kp : KeyPackage) (pk : PublicKeyPackage) (s : ReshareSessionInner) : ReshareSessionInner :=
  {| rs_session_id := rs_session_id s; rs_local_node_id := rs_local_node_id s;
     rs_local_identifier := rs_local_identifier s; rs_max_signers := rs_max_signers s;
     rs_min_signers := rs_min_signers s; rs_roster := rs_roster s; rs_transcript_hex := rs_transcript_hex s;
     rs_day_epoch := rs_day_epoch s; rs_constitution_hash := rs_constitution_hash s; rs_phase := ReshareComplete;
     rs_round1_secret := rs_round1_secret s; rs_round1_packages := rs_round1_packages s; rs_round2_secret := None;
     rs_round2_inbox := rs_round2_inbox s; rs_round2_outbound := rs_round2_outbound s;
     rs_old_key_package := rs_old_key_package s; rs_old_pubkey_package := rs_old_pubkey_package s;
     rs_new_key_package := Some kp; rs_new_pubkey_package := Some pk |}.

(* ------------------------------------------------------------------ *)
(** ** Helpers *)

Definition reshare_identifier_from_u16 (v : N) : res Identifier :=
  frost_call "invalid identifier {}: {}" [show v] (id_try_from v).

(** The first byte of the identifier's encoding; encodings are not empty. *)
Fixpoint first_byte_of (id : Identifier) (l : list (string * Identifier)) : N :=
  match l with
  | [] => 0
  | (_, ident) :: r =>
      if bool_decide (ident = id) then match id_serialize ident with a :: _ => byte_n a | [] => 0 end
      else first_byte_of id r
  end.
Definition reshare_identifier_to_u16 (m : gmap string Identifier) (id : Identifier) : N := first_byte_of id (bt_iter m).

Fixpoint reshare_assign_ids (i : N) (l : list string) (m : gmap string Identifier) : res (gmap string Identifier) :=
  match l with
  | [] => Ok m
  | node :: r => id ← reshare_identifier_from_u16 (wrap16 (i + 1)); reshare_assign_ids (i + 1) r (<[node := id]> m)
  end.
Definition build_reshare_roster (roster : list string) : res (gmap string Identifier) :=
  reshare_assign_ids 0 (merge_sort String.le roster) ∅.

(** [u16::to_be_bytes]. *)
Definition be16 (n : N) : bytes := [Ascii.ascii_of_N (n / 256 mod 256); Ascii.ascii_of_N (n mod 256)].
(** The fields one after the other, with nothing in between. *)
Definition reshare_transcript_bytes (session_id : string) (day_epoch : DayEpoch) (max_signers min_signers : N)
    (roster : gmap string Identifier) (constitution_hash : string) : bytes :=
  bytes_of session_id ++ bytes_of (day_str day_epoch) ++ be16 max_signers ++ be16 min_signers ++
  concat (bytes_of <$> bt_keys roster) ++ bytes_of constitution_hash.
Definition reshare_transcript (session_id : string) (day_epoch : DayEpoch) (max_signers min_signers : N)
    (roster : gmap string Identifier) (constitution_hash : string) : string :=
  sha3_384_hex (reshare_transcript_bytes session_id day_epoch max_signers min_signers roster constitution_hash).

Definition assert_vk_preserved (old new : PublicKeyPackage) (suite : string) : res unit :=
  if negb (bool_decide (verifying_key old = verifying_key new)) then
    Err (ThresholdError (format "{} reshare changed group verifying key (deposit address would change)" [suite]))
  else Ok tt.

Definition rs_status (s : ReshareSessionInner) : WireReshareStatus :=
  {| rt_session_id := rs_session_id s;
     rt_phase := reshare_phase_str (rs_phase s);
     rt_local_node_id := rs_local_node_id s;
     rt_local_identifier := reshare_identifier_to_u16 (rs_roster s) (rs_local_identifier s);
     rt_max_signers := rs_max_signers s;
     rt_min_signers := rs_min_signers s;
     rt_transcript_hex := rs_transcript_hex s;
     rt_round1_received := N.of_nat (size (rs_round1_packages s));
     rt_round2_received := N.of_nat (size (rs_round2_inbox s));
     rt_complete := bool_decide (rs_phase s = ReshareComplete);
     rt_verifying_key_hex :=
       (λ pk, hex_encode (unwrap_or_default (vk_serialize (verifying_key pk)))) <$> rs_new_pubkey_package s |}.

(* ------------------------------------------------------------------ *)
(** ** Operations on one session, under the lock *)

Definition reshare_advance : dcmd ReshareSessionInner unit :=
  s ← get;
  let r1_received := delete (rs_local_identifier s) (rs_round1_packages s) in
  secret ← lift (ok_or (rs_round1_secret s) (ThresholdError "missing reshare round1 secret"));
  _ ← update (rs_set_round1_secret None);
  out ← lift (frost_call "frost refresh part2: {}" [] (refresh_dkg_part2 secret r1_received));
  update (rs_enter_round2 out.1 out.2).

Definition rs_round1_full (s : ReshareSessionInner) : bool :=
  (wrap16 (N.of_nat (size (rs_round1_packages s))) =? rs_max_signers s)
  && bool_decide (is_Some (rs_round1_secret s)) && bool_decide (rs_phase s = ReshareRound1).

Definition rs_ingest_round1 (msg : ReshareRound1WireMessage) : dcmd ReshareSessionInner WireReshareStatus :=
  s ← get;
  if bool_decide (rs_phase s = ReshareComplete) then mret (rs_status s)
  else if negb (rr1_max_signers msg =? rs_max_signers s) || negb (rr1_min_signers msg =? rs_min_signers s) then
    fail (ThresholdError "reshare round1 threshold drift rejected")
  else if negb (bool_decide (rr1_transcript_hex msg = rs_transcript_hex s)) then
    fail (ThresholdError "reshare round1 transcript binding mismatch")
  else
    sender_id ← lift (reshare_identifier_from_u16 (rr1_sender_identifier msg));
    expected ← lift (ok_or (rs_roster s !! rr1_sender_node_id msg)
      (ThresholdError (format "reshare late join rejected: unknown sender {}" [rr1_sender_node_id msg])));
    if negb (bool_decide (expected = sender_id)) then
      fail (ThresholdError (format "reshare sender {} identifier mismatch" [rr1_sender_node_id msg]))
    else
      b ← lift (frost_call "reshare r1 hex: {}" [] (hex_decode (rr1_package_hex msg)));
      package ← lift (frost_call "reshare r1 deserialize: {}" [] (r1_deserialize b));
      _ ← update (rs_set_round1_packages (<[sender_id := package]>));
      s' ← get;
      _ ← (if rs_round1_full s' then reshare_advance else mret tt);
      s'' ← get;
      mret (rs_status s'').

Definition rs_ingest_round2 (msg : ReshareRound2WireMessage) : dcmd ReshareSessionInner WireReshareStatus :=
  s ← get;
  if bool_decide (rs_phase s = ReshareComplete) then mret (rs_status s)
  else if negb (bool_decide (rr2_transcript_hex msg = rs_transcript_hex s)) then
    fail (ThresholdError "reshare round2 transcript binding mismatch")
  else if negb (bool_decide (rr2_recipient_node_id msg = rs_local_node_id s)) then
    fail (ThresholdError "reshare round2 package not addressed to this vault")
  else
    sender_id ← lift (reshare_identifier_from_u16 (rr2_sender_identifier msg));
    expected ← lift (ok_or (rs_roster s !! rr2_sender_node_id msg)
      (ThresholdError (format "reshare late join rejected: unknown round2 sender {}" [rr2_sender_node_id msg])));
    if negb (bool_decide (expected = sender_id)) then
      fail (ThresholdError (format "reshare sender {} identifier mismatch" [rr2_sender_node_id msg]))
    else
      b ← lift (frost_call "reshare r2 hex: {}" [] (hex_decode (rr2_package_hex msg)));
      package ← lift (frost_call "reshare r2 deserialize: {}" [] (r2_deserialize b));
      _ ← update (rs_set_round2_inbox (<[sender_id := package]>));
      s' ← get;
      mret (rs_status s').

Fixpoint reshare_round2_messages (s : ReshareSessionInner) (sid : string)
    (l : list (Identifier * Round2Package)) : res (list ReshareRound2WireMessage) :=
  match l with
  | [] => Ok []
  | (recipient_id, package) :: r =>
      recipient ← ok_or (list_find (λ p, p.2 = recipient_id) (bt_iter (rs_roster s)))
        (ThresholdError (format "unknown reshare recipient id {}" [id_debug recipient_id]));
      b ← frost_call "reshare r2 serialize: {}" [] (r2_serialize package);
      rest ← reshare_round2_messages s sid r;
      mret ({| rr2_session_id := sid;
               rr2_sender_node_id := rs_local_node_id s;
               rr2_sender_identifier := reshare_identifier_to_u16 (rs_roster s) (rs_local_identifier s);
               rr2_recipient_node_id := recipient.2.1;
               rr2_recipient_identifier := reshare_identifier_to_u16 (rs_roster s) recipient_id;
               rr2_transcript_hex := rs_transcript_hex s;
               rr2_package_hex := hex_encode b;
               rr2_envelope := None |} :: rest)
  end.
Definition rs_take_round2 (sid : string) : dcmd ReshareSessionInner (list ReshareRound2WireMessage) :=
  s ← get;
  _ ← update (rs_set_round2_outbound ∅);
  lift (reshare_round2_messages s sid (id_iter (rs_round2_outbound s))).

Definition reshare_keys (s : ReshareSessionInner) : res (KeyPackage * PublicKeyPackage) :=
  let need := sat_sub (rs_max_signers s) 1 in
  let have := N.of_nat (size (rs_round2_inbox s)) in
  if have <? need then
    Err (ThresholdError (format "reshare round2 incomplete: have {} need {}" [show have; show need]))
  else
    r2_secret ← ok_or (rs_round2_secret s) (ThresholdError "missing reshare round2 secret");
    let r1_received := delete (rs_local_identifier s) (rs_round1_packages s) in
    old_kp ← ok_or (rs_old_key_package s) (ThresholdError "missing old key package for reshare finalize");
    keys ← frost_call "frost refresh part3: {}" []
      (refresh_dkg_shares r2_secret r1_received (rs_round2_inbox s) (rs_old_pubkey_package s) old_kp);
    if negb (kp_min_signers keys.1 =? rs_min_signers s) then
      Err (ThresholdError (format "reshare threshold drift: got {} want {}"
        [show (kp_min_signers keys.1); show (rs_min_signers s)]))
    else
      _ ← assert_vk_preserved (rs_old_pubkey_package s) keys.2 "tr";
      mret keys.

(* ------------------------------------------------------------------ *)
(** ** The hub *)

Record WireReshareHub := mk_reshare_hub {
  rh_node_id : string;
  rh_sessions : gmap string ReshareSessionInner;
  rh_completed : option (KeyPackage * PublicKeyPackage * N);
}.
Definition reshare_hub_new (node : string) : WireReshareHub := mk_reshare_hub node ∅ None.
Definition rh_set_session (sid : string) (s : ReshareSessionInner) (h : WireReshareHub) : WireReshareHub :=
  mk_reshare_hub (rh_node_id h) (<[sid := s]> (rh_sessions h)) (rh_completed h).
Definition rh_with_session {A} (sid : string) (unknown : DomainError) (c : dcmd ReshareSessionInner A) :
    dcmd WireReshareHub A :=
  λ h, match rh_sessions h !! sid with
       | Some s => let '(s', r) := c s in (rh_set_session sid s' h, r)
       | None => (h, Err unknown)
       end.
Definition unknown_reshare (sid : string) : DomainError := ThresholdError (format "unknown reshare session: {}" [sid]).
Definition reshare_status (sid : string) (h : WireReshareHub) : res WireReshareStatus :=
  rs_status <$> ok_or (rh_sessions h !! sid) (unknown_reshare sid).

(** [error]'s [Display] goes into the text. *)
Definition reshare_start_check (req : ReshareStartRequest) : res (DayEpoch * gmap string Identifier * string) :=
  day_epoch ← map_err (λ e, ThresholdError (format "invalid day_epoch: {}" [fmt_error e])) (day_epoch_parse (rq_day_epoch req));
  roster ← build_reshare_roster (rq_roster req);
  if negb (wrap16 (N.of_nat (size roster)) =? rq_max_signers req) then
    Err (ThresholdError (format "roster len {} != max_signers {}"
      [show (N.of_nat (size roster)); show (rq_max_signers req)]))
  else Ok (day_epoch, roster, reshare_transcript (rq_session_id req) day_epoch (rq_max_signers req) (rq_min_signers req)
             roster (rq_constitution_hash req)).

Definition reshare_round1_message (s : ReshareSessionInner) (day package_hex : string) : ReshareRound1WireMessage :=
  {| rr1_session_id := rs_session_id s;
     rr1_sender_node_id := rs_local_node_id s;
     rr1_sender_identifier := reshare_identifier_to_u16 (rs_roster s) (rs_local_identifier s);
     rr1_max_signers := rs_max_signers s;
     rr1_min_signers := rs_min_signers s;
     rr1_day_epoch := day;
     rr1_transcript_hex := rs_transcript_hex s;
     rr1_package_hex := package_hex;
     rr1_envelope := None |}.

Definition reshare_start_existing (existing : ReshareSessionInner) (req : ReshareStartRequest)
    (roster : gmap string Identifier) (transcript : string) : res (WireReshareStatus * ReshareRound1WireMessage) :=
  if negb (bool_decide (rs_transcript_hex existing = transcript))
     || negb (rs_max_signers existing =? rq_max_signers req)
     || negb (rs_min_signers existing =? rq_min_signers req)
     || negb (bool_decide (rs_roster existing = roster)) then
    Err (ThresholdError "reshare participants/threshold frozen at round1; constitution drift rejected")
  else
    package ← ok_or (rs_round1_packages existing !! rs_local_identifier existing)
      (ThresholdError "missing local reshare round1 package");
    b ← frost_call "reshare r1 serialize: {}" [] (r1_serialize package);
    mret (rs_status existing, reshare_round1_message existing (day_str (rs_day_epoch existing)) (hex_encode b)).

Definition reshare_start_new (node : string) (req : ReshareStartRequest) (old_pubkey_package : PublicKeyPackage)
    (old_key_package : option KeyPackage) (day : DayEpoch) (roster : gmap string Identifier) (transcript : string)
    (rng : Rng) : res (ReshareSessionInner * ReshareRound1WireMessage) :=
  local_id ← ok_or (roster !! node) (ThresholdError (format "local node {} missing from reshare roster" [node]));
  sp ← frost_call "frost refresh part1: {}" []
    (refresh_dkg_part1 local_id (rq_max_signers req) (rq_min_signers req) rng);
  b ← frost_call "reshare r1 serialize: {}" [] (r1_serialize sp.2);
  let inner :=
    {| rs_session_id := rq_session_id req; rs_local_node_id := node; rs_local_identifier := local_id;
       rs_max_signers := rq_max_signers req; rs_min_signers := rq_min_signers req; rs_roster := roster;
       rs_transcript_hex := transcript; rs_day_epoch := day; rs_constitution_hash := rq_constitution_hash req;
       rs_phase := ReshareRound1; rs_round1_secret := Some sp.1; rs_round1_packages := {[local_id := sp.2]};
       rs_round2_secret := None; rs_round2_inbox := ∅; rs_round2_outbound := ∅;
       rs_old_key_package := old_key_package; rs_old_pubkey_package := old_pubkey_package;
       rs_new_key_package := None; rs_new_pubkey_package := None |} in
  mret (inner, reshare_round1_message inner (rq_day_epoch req) (hex_encode b)).

(** [start] without another start of the session in between. *)
Definition reshare_start (req : ReshareStartRequest) (old_pubkey_package : PublicKeyPackage)
    (old_key_package : option KeyPackage) (rng : Rng) :
    dcmd WireReshareHub (WireReshareStatus * ReshareRound1WireMessage) :=
  c ← lift (reshare_start_check req);
  h ← get;
  match rh_sessions h !! rq_session_id req with
  | Some existing => lift (reshare_start_existing existing req c.1.2 c.2)
  | None =>
      p ← lift (reshare_start_new (rh_node_id h) req old_pubkey_package old_key_package c.1.1 c.1.2 c.2 rng);
      _ ← update (rh_set_session (rq_session_id req) p.1);
      mret (rs_status p.1, p.2)
  end.

Definition reshare_envelope (round : string) (e : option HybridEnvelope) : res unit :=
  match e with
  | Some env => map_err (λ x, ThresholdError (format "reshare {} envelope: {}" [round; fmt_error x])) (validate_header env)
  | None => Ok tt
  end.
Definition reshare_ingest_round1 (msg : ReshareRound1WireMessage) : dcmd WireReshareHub WireReshareStatus :=
  _ ← lift (reshare_envelope "r1" (rr1_envelope msg));
  rh_with_session (rr1_session_id msg)
    (ThresholdError (format "unknown reshare session {} (start locally first)" [rr1_session_id msg]))
    (rs_ingest_round1 msg).
Definition reshare_ingest_round2 (msg : ReshareRound2WireMessage) : dcmd WireReshareHub WireReshareStatus :=
  _ ← lift (reshare_envelope "r2" (rr2_envelope msg));
  rh_with_session (rr2_session_id msg) (unknown_reshare (rr2_session_id msg)) (rs_ingest_round2 msg).
Definition reshare_take_round2 (sid : string) : dcmd WireReshareHub (list ReshareRound2WireMessage) :=
  rh_with_session sid (unknown_reshare sid) (rs_take_round2 sid).

Definition rh_complete (sid : string) (kp : KeyPackage) (pk : PublicKeyPackage) (s : ReshareSessionInner)
    (h : WireReshareHub) : WireReshareHub :=
  mk_reshare_hub (rh_node_id h) (<[sid := rs_enter_complete kp pk s]> (rh_sessions h)) (Some (kp, pk, rs_min_signers s)).
Definition reshare_finalize {T} `{!ShareStore T} (sid : string) : dcmd (WireReshareHub * T) WireReshareStatus :=
  hs ← get;
  s ← lift (ok_or (rh_sessions hs.1 !! sid) (unknown_reshare sid));
  if bool_decide (rs_phase s = ReshareComplete) then mret (rs_status s)
  else
    keys ← lift (reshare_keys s);
    b ← lift (frost_call "reshare key package serialize: {}" [] (kp_serialize keys.1));
    _ ← zoom snd (λ t p, (p.1, t)) (put_share (format "frost-tr-reshare-id-{}" [hex_encode (id_serialize (rs_local_identifier s))]) b);
    pk_bytes ← lift (frost_call "reshare pubkey serialize: {}" [] (pk_serialize keys.2));
    _ ← zoom snd (λ t p, (p.1, t)) (put_share "frost-tr-reshare-pubkey" pk_bytes);
    _ ← update (λ hs, (rh_complete sid keys.1 keys.2 s hs.1, hs.2));
    mret (rs_status (rs_enter_complete keys.1 keys.2 s)).
End hub.

(* ------------------------------------------------------------------ *)
(** ** What a hub keeps *)

Section kept.
Context `{FR : Frost, RF : !FrostRefresh FR, HX : HexCodec, S3 : Sha3}.

(** What [start] recorded. *)
Definition rs_recorded (s : ReshareSessionInner) :=
  (rs_session_id s, rs_local_node_id s, rs_local_identifier s, rs_max_signers s, rs_min_signers s, rs_roster s,
   rs_transcript_hex s, rs_old_key_package s, rs_old_pubkey_package s).
(** Not completed by this step, and nothing recorded lost. *)
Record rs_quiet (s s' : ReshareSessionInner) : Prop := {
  rq_recorded : rs_recorded s' = rs_recorded s;
  rq_complete : rs_phase s' = ReshareComplete ↔ rs_phase s = ReshareComplete;
  rq_new : rs_new_key_package s' = rs_new_key_package s ∧ rs_new_pubkey_package s' = rs_new_pubkey_package s;
}.
Lemma rs_quiet_refl s : rs_quiet s s.
Proof. by split. Qed.

Lemma reshare_advance_quiet s : rs_phase s = ReshareRound1 → rs_quiet s (reshare_advance s).1.
Proof.
  intros Hp. unfold reshare_advance, get, mbind, cmd_bind, lift, update. cbn [fst snd].
  destruct (rs_round1_secret s) as [secret|]; cbn [ok_or fst snd]; [|apply rs_quiet_refl].
  destruct (frost_call _ _ _) as [out|e]; cbn [fst snd]; split; cbn; try done; by rewrite Hp.
Qed.

Lemma rs_ingest_round1_quiet msg s : rs_quiet s (rs_ingest_round1 msg s).1.
Proof.
  unfold rs_ingest_round1, get, mbind, cmd_bind, mret, cmd_ret, fail, lift, update. cbn [fst snd].
  case_match; [apply rs_quiet_refl|]. do 2 (case_match; [apply rs_quiet_refl|]).
  destruct (reshare_identifier_from_u16 _) as [id|e]; cbn [fst snd]; [|apply rs_quiet_refl].
  destruct (rs_roster s !! _) as [x|]; cbn [ok_or fst snd]; [|apply rs_quiet_refl].
  case_match; [apply rs_quiet_refl|].
  destruct (frost_call "reshare r1 hex: {}" _ _) as [b|e]; cbn [fst snd]; [|apply rs_quiet_refl].
  destruct (frost_call "reshare r1 deserialize: {}" _ _) as [p|e]; cbn [fst snd]; [|apply rs_quiet_refl].
  set (s1 := rs_set_round1_packages _ s). assert (rs_quiet s s1) as Hq1 by done.
  destruct (rs_round1_full s1) eqn:Ef; [|done].
  assert (rs_phase s1 = ReshareRound1) as Hp by (unfold rs_round1_full in Ef; nbool; destruct_and?; by nbool).
  pose proof (reshare_advance_quiet s1 Hp) as [R C N]. destruct (reshare_advance s1) as [s2 [[]|e]]; simpl in *.
  all: split; [by rewrite R|by rewrite C|]; destruct N; split; congruence.
Qed.

Lemma rs_ingest_round2_quiet msg s : rs_quiet s (rs_ingest_round2 msg s).1.
Proof.
  unfold rs_ingest_round2, get, mbind, cmd_bind, mret, cmd_ret, fail, lift, update. cbn [fst snd].
  case_match; [apply rs_quiet_refl|]. do 2 (case_match; [apply rs_quiet_refl|]).
  destruct (reshare_identifier_from_u16 _) as [id|e]; cbn [fst snd]; [|apply rs_quiet_refl].
  destruct (rs_roster s !! _) as [x|]; cbn [ok_or fst snd]; [|apply rs_quiet_refl].
  case_match; [apply rs_quiet_refl|].
  destruct (frost_call "reshare r2 hex: {}" _ _) as [b|e]; cbn [fst snd]; [|apply rs_quiet_refl].
  destruct (frost_call "reshare r2 deserialize: {}" _ _) as [p|e]; cbn [fst snd]; [|apply rs_quiet_refl]. done.
Qed.

Lemma reshare_keys_ok s kp pk : reshare_keys s = Ok (kp, pk) →
  kp_min_signers kp = rs_min_signers s ∧ verifying_key pk = verifying_key (rs_old_pubkey_package s) ∧
  is_Some (rs_old_key_package s).
Proof.
  unfold reshare_keys. rewrite guard_ok. intros [_ H]. apply bind_ok in H as (sec & _ & H).
  apply bind_ok in H as (old & Ho & H). apply bind_ok in H as ([k p] & _ & H). rewrite guard_ok in H.
  destruct H as [Hm H]. apply bind_ok in H as (u & Hv & H). injection H as <- <-.
  unfold assert_vk_preserved in Hv. rewrite guard_ok in Hv. rewrite ok_or_ok in Ho. cbn [fst snd] in *.
  destruct Hv as [Hv _]. nbool. split; [done|]. split; [done|by eexists].
Qed.

Context {T : Type} `{ST : !ShareStore T}.

Inductive reshare_call : WireReshareHub * T → WireReshareHub * T → Prop :=
| RC_start req pk kp rng h t : reshare_call (h, t) ((reshare_start req pk kp rng h).1, t)
| RC_round1 msg h t : reshare_call (h, t) ((reshare_ingest_round1 msg h).1, t)
| RC_round2 msg h t : reshare_call (h, t) ((reshare_ingest_round2 msg h).1, t)
| RC_take sid h t : reshare_call (h, t) ((reshare_take_round2 sid h).1, t)
| RC_finalize sid p : reshare_call p (reshare_finalize sid p).1.

(** The result of a complete session. *)
Definition reshare_ok (s : ReshareSessionInner) : Prop :=
  rs_phase s = ReshareComplete → ∃ kp pk, rs_new_key_package s = Some kp ∧ rs_new_pubkey_package s = Some pk ∧
    kp_min_signers kp = rs_min_signers s ∧ verifying_key pk = verifying_key (rs_old_pubkey_package s).
Definition hub_reshare_ok (p : WireReshareHub * T) : Prop := ∀ sid s, rh_sessions p.1 !! sid = Some s → reshare_ok s.
Definition reshare_hub_le (p q : WireReshareHub * T) : Prop :=
  ∀ sid s, rh_sessions p.1 !! sid = Some s → ∃ s', rh_sessions q.1 !! sid = Some s' ∧ rs_recorded s' = rs_recorded s.

Lemma rs_quiet_ok s s' : rs_quiet s s' → reshare_ok s → reshare_ok s'.
Proof.
  intros [R C [N1 N2]] Hs Hp. destruct (Hs (proj1 C Hp)) as (kp & pk & ? & ? & ? & ?). exists kp, pk.
  unfold rs_recorded in R. split_and!; congruence.
Qed.

Lemma rh_with_session_ok {A} sid e (c : dcmd ReshareSessionInner A) h (t : T) : (∀ s, rs_quiet s (c s).1) →
  (hub_reshare_ok (h, t) → hub_reshare_ok ((rh_with_session sid e c h).1, t)) ∧
  reshare_hub_le (h, t) ((rh_with_session sid e c h).1, t).
Proof.
  intros Hc. unfold rh_with_session. destruct (rh_sessions h !! sid) as [s|] eqn:Hs; [|split; [done|intros i s Hi; by exists s]].
  specialize (Hc s). destruct (c s) as [s' r]. cbn [fst] in *. split.
  - intros Hok i x Hi. simpl in Hi. apply lookup_insert_Some in Hi as [[<- <-]|[_ Hi]].
    + eapply rs_quiet_ok; [exact Hc|]. by apply (Hok sid).
    + by apply (Hok i).
  - intros i x Hi. simpl in *. destruct (decide (i = sid)) as [->|].
    + rewrite lookup_insert_eq. exists s'. split; [done|]. destruct Hc. congruence.
    + rewrite lookup_insert_ne by done. by exists x.
Qed.

Lemma reshare_finalize_hub sid (p : WireReshareHub * T) : (reshare_finalize sid p).1.1 = p.1 ∨
  ∃ s kp pk, rh_sessions p.1 !! sid = Some s ∧ reshare_keys s = Ok (kp, pk) ∧
    (reshare_finalize sid p).1.1 = rh_complete sid kp pk s p.1.
Proof.
  unfold reshare_finalize, get, mbind, cmd_bind, mret, cmd_ret, lift, update. destruct p as [h t]. cbn [fst snd].
  destruct (rh_sessions h !! sid) as [s|] eqn:Hs; cbn [ok_or fst snd]; [|by left].
  case_match; [by left|]. destruct (reshare_keys s) as [[kp pk]|e] eqn:Hk; cbn [fst snd]; [|by left].
  destruct (frost_call _ _ (kp_serialize kp)); cbn [fst snd]; [|by left].
  unfold zoom. cbn [fst snd]. destruct (put_share _ _ t) as [t1 [[]|e]]; cbn [fst snd]; [|by left].
  destruct (frost_call _ _ (pk_serialize pk)); cbn [fst snd]; [|by left].
  destruct (put_share _ _ t1) as [t2 [[]|e]]; cbn [fst snd]; [|by left]. right. by exists s, kp, pk.
Qed.

Lemma reshare_call_ok p q : reshare_call p q → (hub_reshare_ok p → hub_reshare_ok q) ∧ reshare_hub_le p q.
Proof.
  intros [req pk kp rng h t|msg h t|msg h t|sid h t|sid [h t]].
  - unfold reshare_start, get, mbind, cmd_bind, mret, cmd_ret, lift, update. cbn [fst snd].
    destruct (reshare_start_check req) as [c|e]; cbn [fst snd]; [|split; [done|intros i s Hi; by exists s]].
    destruct (rh_sessions h !! rq_session_id req) as [x|] eqn:Hx; cbn [fst snd];
      [split; [done|intros i s Hi; by exists s]|].
    destruct (reshare_start_new _ _ _ _ _ _ _ _) as [[s w]|e] eqn:Hn; cbn [fst snd];
      [|split; [done|intros i s Hi; by exists s]]. split.
    + intros Hok i y Hi. simpl in Hi. apply lookup_insert_Some in Hi as [[<- <-]|[_ Hi]]; [|by apply (Hok i)].
      intros Hp. exfalso. unfold reshare_start_new in Hn. apply bind_ok in Hn as (lid & _ & Hn).
      apply bind_ok in Hn as (sp & _ & Hn). apply bind_ok in Hn as (b & _ & Hn). injection Hn as <- _. done.
    + intros i y Hi. simpl in *. rewrite lookup_insert_ne by (intros He; rewrite He in Hx; congruence). by exists y.
  - unfold reshare_ingest_round1, mbind, cmd_bind, lift. destruct (reshare_envelope _ _); cbn [fst snd];
      [apply rh_with_session_ok; intros; apply rs_ingest_round1_quiet|split; [done|intros i s Hi; by exists s]].
  - unfold reshare_ingest_round2, mbind, cmd_bind, lift. destruct (reshare_envelope _ _); cbn [fst snd];
      [apply rh_with_session_ok; intros; apply rs_ingest_round2_quiet|split; [done|intros i s Hi; by exists s]].
  - apply rh_with_session_ok. done.
  - destruct (reshare_finalize_hub sid (h, t)) as [He|(s & kp & pk & Hs & Hk & He)]; cbn [fst] in *;
      unfold hub_reshare_ok, reshare_hub_le; rewrite He; cbn [fst].
    + split; [done|]. intros i s Hi. by exists s.
    + apply reshare_keys_ok in Hk as (Hm & Hv & _). split.
      * intros Hok i y Hi. simpl in Hi. apply lookup_insert_Some in Hi as [[<- <-]|[_ Hi]]; [|by apply (Hok i)].
        intros _. by exists kp, pk.
      * intros i y Hi. simpl. destruct (decide (i = sid)) as [->|].
        -- rewrite lookup_insert_eq. eexists. split; [done|]. simplify_eq. done.
        -- rewrite lookup_insert_ne by done. by exists y.
Qed.

(** A wire refresh keeps the deposit address: whatever is called on a fresh hub, in whatever
    order and with whatever messages, a session never loses what its start recorded, and a
    session that is complete holds a key package of the session's threshold and a public key
    package whose verifying key is the recorded old one. *)
Theorem wire_reshare_keeps_key node t0 p q sid s :
  steps reshare_call (reshare_hub_new node, t0) p → steps reshare_call p q → rh_sessions p.1 !! sid = Some s →
  ∃ s', rh_sessions q.1 !! sid = Some s' ∧ rs_recorded s' = rs_recorded s ∧
    (rs_phase s' = ReshareComplete → ∃ kp pk, rs_new_key_package s' = Some kp ∧ rs_new_pubkey_package s' = Some pk ∧
       kp_min_signers kp = rs_min_signers s ∧ verifying_key pk = verifying_key (rs_old_pubkey_package s)).
Proof.
  intros H0 H1 Hs. assert (hub_reshare_ok q) as Hok.
  { refine (steps_invariant reshare_call hub_reshare_ok _ _ q (steps_trans _ _ _ _ H0 H1) _).
    - intros x y Hx Hc. by apply (reshare_call_ok x y Hc).
    - intros i x Hi. cbn in Hi; by rewrite lookup_empty in Hi. }
  assert (reshare_hub_le p q) as Hle.
  { refine (steps_invariant reshare_call (reshare_hub_le p) _ p q H1 _); [|intros i x Hi; by exists x].
    intros x y Hx Hc i z Hz. destruct (Hx i z Hz) as (z' & Hz' & R1).
    destruct (proj2 (reshare_call_ok x y Hc) i z' Hz') as (z2 & Hz2 & R2). exists z2. split; [done|congruence]. }
  destruct (Hle sid s Hs) as (s' & Hs' & R). exists s'. split; [done|]. split; [done|]. intros Hp.
  destruct (Hok sid s' Hs' Hp) as (kp & pk & ? & ? & Hm & Hv). exists kp, pk. unfold rs_recorded in R.
  do 2 (split; [done|]). split; congruence.
Qed.

(* ------------------------------------------------------------------ *)
(** ** Two things the hub gets wrong *)

(** Identifiers are encoded with the most significant byte first: the first byte of a small one is 0. *)
Definition big_endian_ids : Prop := ∀ id, ∃ r, id_serialize id = Ascii.zero :: r.

Lemma own_identifier_is_zero m id : big_endian_ids → reshare_identifier_to_u16 m id = 0.
Proof.
  intros Hb. unfold reshare_identifier_to_u16. induction (bt_iter m) as [|[x i] l IH]; [done|]. simpl.
  case_bool_decide; [|done]. subst. destruct (Hb id) as [r ->]. done.
Qed.

(** A message numbered 0 is refused by every session that is not complete, so no vault ever
    takes up what another announces: a refresh over the wire cannot leave round 1. *)
Lemma reshare_announcement_refused `{FC : !FrostCodec} (s s' : ReshareSessionInner) day b :
  big_endian_ids → rs_phase s' ≠ ReshareComplete →
  rs_ingest_round1 (reshare_round1_message s day b) s' = (s', (rs_ingest_round1 (reshare_round1_message s day b) s').2) ∧
  is_ok (rs_ingest_round1 (reshare_round1_message s day b) s').2 = false.
Proof.
  intros Hb Hp. unfold rs_ingest_round1, get, mbind, cmd_bind, mret, cmd_ret, fail, lift, update. cbn [fst snd].
  rewrite bool_decide_false by done. do 2 (case_match; [done|]).
  unfold reshare_round1_message. cbn [rr1_sender_identifier]. rewrite own_identifier_is_zero by done.
  unfold reshare_identifier_from_u16. destruct id_zero as [e ->]. done.
Qed.

(** A finished refresh leaves the keyset a boot loads as it was: its shares are under names of
    their own, which nothing reads. *)
Lemma reshare_not_loaded `{FS : !FrostStorage, SP : !ShareStoreSpec T, HS : !HexSpec, FSP : !FrostStorageSpec} sid
    (h : WireReshareHub) (t : T) x : working t → holds users_names x t →
  holds users_names x (reshare_finalize sid (h, t)).1.2.
Proof.
  intros Hw Hx. unfold reshare_finalize, get, mbind, cmd_bind, mret, cmd_ret, lift, update. cbn [fst snd].
  destruct (rh_sessions h !! sid) as [s|]; cbn [ok_or fst snd]; [|done]. case_match; [done|].
  destruct (reshare_keys s) as [[kp pk]|e]; cbn [fst snd]; [|done].
  destruct (frost_call _ _ (kp_serialize kp)) as [b|e]; cbn [fst snd]; [|done]. unfold zoom. cbn [fst snd].
  destruct (put_ok t (format "frost-tr-reshare-id-{}" [hex_encode (id_serialize (rs_local_identifier s))]) b Hw)
    as (t1 & E1 & W1 & G1). rewrite E1. cbn [fst snd].
  assert (holds users_names x t1) as Hx1.
  { eapply holds_ext; [|exact Hx]. intros i Hi. rewrite G1. rewrite decide_False; [done|]. intros ->.
    by destruct Hi as [E|[E|[E|[hx E]]]]; discriminate E. }
  destruct (frost_call _ _ (pk_serialize pk)) as [b'|e]; cbn [fst snd]; [|done].
  destruct (put_ok t1 "frost-tr-reshare-pubkey" b' W1) as (t2 & E2 & W2 & G2). rewrite E2. cbn [fst snd].
  eapply holds_ext; [|exact Hx1]. intros i Hi. rewrite G2. rewrite decide_False; [done|]. intros ->.
  by destruct Hi as [E|[E|[E|[hx E]]]]; discriminate E.
Qed.
End kept.
