(* ===== verification/FrostSign.v ===== *)
(** * Threshold signing: what is used of [frost-secp256k1-tr] and of the anti-nonce port

    The two rounds, aggregation and verification of the frost crate are a class,
    what the vault relies on a second one; [AntiNoncePort] ([application/ports.rs])
    is the interface of the session ledgers, with its durable implementation. *)
From S2P Require Import Prelude RustStr Errors PersistedLedger AntiNonce Frost FrostShares.
Local Open Scope N_scope.

Class FrostSign `{!Frost} := {
  SigningNonces : Type;
  SigningCommitments : Type;
  SigningPackage : Type;
  SignatureShare : Type;
  Signature : Type;
  (** [round1::commit(kp.signing_share(), rng)]. *)
  round1_commit : KeyPackage → Rng → SigningNonces * SigningCommitments;
  sc_serialize : SigningCommitments → result string bytes;
  sc_deserialize : bytes → result string SigningCommitments;
  (** [SigningPackage::new(commitments, message)]. *)
  sp_new : gmap Identifier SigningCommitments → bytes → SigningPackage;
  sp_commitments : SigningPackage → gmap Identifier SigningCommitments;
  sp_message : SigningPackage → bytes;
  sp_serialize : SigningPackage → result string bytes;
  sp_deserialize : bytes → result string SigningPackage;
  round2_sign : SigningPackage → SigningNonces → KeyPackage → result string SignatureShare;
  ss_serialize : SignatureShare → bytes;
  ss_deserialize : bytes → result string SignatureShare;
  aggregate : SigningPackage → gmap Identifier SignatureShare → PublicKeyPackage → result string Signature;
  sig_serialize : Signature → result string bytes;
  (** [verifying_key().verify(message, signature)]. *)
  vk_verify : VerifyingKey → bytes → Signature → result string unit;
}.

(** [into_even_y(None).tweak(None)]: the key-path form that signs. *)
Definition kp_signing `{!Frost, !EvenY} (kp : KeyPackage) : KeyPackage := kp_tweak (kp_even_y kp).
Definition pk_signing `{!Frost, !EvenY} (pk : PublicKeyPackage) : PublicKeyPackage := pk_tweak (pk_even_y pk).

(** Packages survive their encoding; the holders of a keyset of threshold [t], at least
    [t] of whom commit and sign the package of their commitments, produce shares that
    aggregate to a signature of the group's key. *)
Class FrostSignSpec `{!Frost, !EvenY, !FrostSign} := {
  sp_new_commitments c m : sp_commitments (sp_new c m) = c;
  sp_new_message c m : sp_message (sp_new c m) = m;
  sc_round c : ∃ b, sc_serialize c = Ok b ∧ sc_deserialize b = Ok c;
  sp_round p : ∃ b, sp_serialize p = Ok b ∧ sp_deserialize b = Ok p;
  ss_round s : ss_deserialize (ss_serialize s) = Ok s;
  sig_total s : ∃ b, sig_serialize s = Ok b;
  keyset : gmap Identifier KeyPackage → PublicKeyPackage → N → Prop;
  sign_correct kps pk t (own : gmap Identifier (SigningNonces * SigningCommitments)) m :
    keyset kps pk t → t ≤ N.of_nat (size own) →
    (∀ i nc, own !! i = Some nc → ∃ kp r, kps !! i = Some kp ∧ round1_commit (kp_signing kp) r = nc) →
    ∃ shares sg, dom shares = dom own ∧
      (∀ i nc kp, own !! i = Some nc → kps !! i = Some kp →
         ∃ s, round2_sign (sp_new (snd <$> own) m) nc.1 (kp_signing kp) = Ok s ∧ shares !! i = Some s) ∧
      aggregate (sp_new (snd <$> own) m) shares (pk_signing pk) = Ok sg ∧
      vk_verify (verifying_key (pk_signing pk)) m sg = Ok tt;
}.

(* ------------------------------------------------------------------ *)
(** ** [AntiNoncePort] *)

(** [Env] is what a call reads from outside: clock and disk. *)
Class AntiNoncePort (Env A : Type) := {
  anp_claim_session : Env → string → dcmd A unit;
  anp_is_consumed : Env → string → dcmd A bool;
  anp_prepare_remote : Env → string → dcmd A bool;
  anp_used : A → string → Prop;
}.
(** A claim succeeds only for an unused id and uses it; nothing un-uses an id. *)
Class AntiNoncePortSpec (Env A : Type) `{!AntiNoncePort Env A} : Prop := {
  anps_claim env id s s' : anp_claim_session env id s = (s', Ok tt) → ¬ anp_used s id ∧ anp_used s' id;
  anps_keep_claim env id s i : anp_used s i → anp_used (anp_claim_session env id s).1 i;
  anps_keep_consumed env id s i : anp_used s i → anp_used (anp_is_consumed env id s).1 i;
  anps_keep_prepare env id s i : anp_used s i → anp_used (anp_prepare_remote env id s).1 i;
}.

Definition observe_remote {Env A} `{!AntiNoncePort Env A} (env : Env) (session_id : string) : dcmd A unit :=
  _ ← anp_prepare_remote env session_id; mret tt.

(** [PersistedAntiNonce] behind the port: the append's outcome and two clock readings. *)
#[export] Instance persisted_anti_nonce_port : AntiNoncePort (Io * N * N) AntiNonce := {|
  anp_claim_session env := an_claim_session env.1.1;
  anp_is_consumed env := an_is_consumed env.1.2;
  anp_prepare_remote env := an_prepare_soft env.1.2 env.2;
  anp_used s id := id ∈ an_inner s;
|}.
#[export] Instance persisted_anti_nonce_port_spec : AntiNoncePortSpec (Io * N * N) AntiNonce.
Proof.
  split; intros [[io now] now'] id s; simpl;
    unfold an_claim_session, an_prepare, an_is_consumed, an_prepare_soft, session_used; unfold_monad.
  - intros s'. pose proof (append_id_inner io id s) as Ha. case_bool_decide as Hc; [done|].
    destruct (append_id io id s) as [s1 [[]|]]; [|done]. intros [= <-]. split; [done|]. simpl. set_solver.
  - intros i. pose proof (append_id_inner io id s) as Ha. case_bool_decide as Hc; [done|].
    destruct (append_id io id s) as [s1 [[]|]]; simpl in *; set_solver.
  - intros i. by case_bool_decide.
  - intros i. case_bool_decide; [done|]. simpl. by case_bool_decide.
Qed.
