(* ===== verification/Cosign.v ===== *)
(** * Taproot co-signing over the wire ([adapters/frost_wire_cosign.rs])

    Each vault holds one local share. A coordinator collects its peers' round-1
    commitments and round-2 signature shares and aggregates them; a peer keeps the
    nonces of a session between the two rounds. *)
From S2P Require Import Prelude RustStr RustParse Errors Frost HybridEnvelope WireDkg FrostShares ShareReshare FrostSign.
Local Open Scope N_scope.

Record TrCommitRequest := mk_commit_request {
  cr_session_id : string;
  cr_message_hex : string;
  cr_coordinator_node_id : string;
}.
Record TrCommitResponse := mk_commit_response {
  cs_node_id : string;
  cs_identifier_hex : string;
  cs_commitments_hex : string;
}.
Record TrSignShareRequest := mk_share_request {
  sr_session : string;
  sr_signing_package_hex : string;
  sr_participant_node_ids : list string;
}.
Record TrSignShareResponse := mk_share_response {
  ss_node_id : string;
  ss_identifier_hex : string;
  ss_signature_share_hex : string;
}.

(** [FrostTrShareSlot::snapshot]. *)
Definition tr_snapshot {A} (slot : option A) : res A := snapshot "taproot FROST shares not installed" slot.

Section cosign.
Context `{FR : Frost, EY : !EvenY, FS : !FrostStorage, SG : !FrostSign, HX : HexCodec}.
Context {Env A : Type} `{AP : !AntiNoncePort Env A}.

Record PendingTrRound := mk_pending { pr_nonces : SigningNonces; pr_message : bytes }.
Record TrCosignPeerState := mk_cosign_peer {
  cp_local_node_id : string;
  cp_shares : option FrostTrShareState;
  cp_pending : gmap string PendingTrRound;
  cp_anti_nonce : option A;
}.
Definition set_pending (f : gmap string PendingTrRound → gmap string PendingTrRound) (s : TrCosignPeerState) :
    TrCosignPeerState :=
  mk_cosign_peer (cp_local_node_id s) (cp_shares s) (f (cp_pending s)) (cp_anti_nonce s).
Definition set_anti (a : A) (s : TrCosignPeerState) : TrCosignPeerState :=
  mk_cosign_peer (cp_local_node_id s) (cp_shares s) (cp_pending s) (Some a).
Definition cosign_peer_new (node : string) (shares : option FrostTrShareState) : TrCosignPeerState :=
  mk_cosign_peer node shares ∅ None.

Definition local_key_package (snap : FrostTrShareState) : res (Identifier * KeyPackage) :=
  if negb (size (key_packages snap) =? 1)%nat then
    Err (ThresholdError (format "wire co-sign peer requires exactly 1 local TR share (have {})"
      [show (N.of_nat (size (key_packages snap)))]))
  else ok_or (head (id_iter (key_packages snap))) (ThresholdError "missing local TR share").

Definition handle_commit (rng : Rng) (req : TrCommitRequest) : dcmd TrCosignPeerState TrCommitResponse :=
  message ← lift (frost_call "co-sign message hex: {}" [] (hex_decode (trim (cr_message_hex req))));
  s ← get;
  snap ← lift (tr_snapshot (cp_shares s));
  idkp ← lift (local_key_package snap);
  let '(id, kp) := idkp in
  let '(nonces, commitments) := round1_commit (kp_signing kp) rng in
  cb ← lift (frost_call "commit serialize: {}" [] (sc_serialize commitments));
  _ ← update (set_pending (<[cr_session_id req := mk_pending nonces message]>));
  mret (mk_commit_response (cp_local_node_id s) (id_hex id) (hex_encode cb)).

(** The refusal of a consumed session; [None] when no ledger is wired. *)
Definition anti_nonce_gate (env : Env) (session_id : string) : dcmd TrCosignPeerState unit := λ s,
  match cp_anti_nonce s with
  | None => (s, Ok tt)
  | Some a =>
      let '(a', r) := (c ← anp_is_consumed env session_id;
                       if (c : bool) then fail (SessionConsumed session_id) else observe_remote env session_id) a in
      (set_anti a' s, r)
  end.

Definition handle_sign_share (env : Env) (req : TrSignShareRequest) :
    dcmd TrCosignPeerState (option TrSignShareResponse) :=
  s ← get;
  if negb (bool_decide (sr_participant_node_ids req = []))
     && negb (bool_decide (cp_local_node_id s ∈ sr_participant_node_ids req)) then
    _ ← update (set_pending (delete (sr_session req)));
    mret None
  else
    entry ← lift (ok_or (cp_pending s !! sr_session req)
      (ThresholdError (format "no pending TR co-sign round for session {}" [sr_session req])));
    _ ← update (set_pending (delete (sr_session req)));
    pkg_bytes ← lift (frost_call "signing package hex: {}" [] (hex_decode (trim (sr_signing_package_hex req))));
    package ← lift (frost_call "signing package deserialize: {}" [] (sp_deserialize pkg_bytes));
    if negb (bool_decide (sp_message package = pr_message entry)) then
      fail (ThresholdError "co-sign signing package message mismatch")
    else
      _ ← anti_nonce_gate env (sr_session req);
      snap ← lift (tr_snapshot (cp_shares s));
      idkp ← lift (local_key_package snap);
      let '(id, kp) := idkp in
      if negb (bool_decide (is_Some (sp_commitments package !! id))) then mret None
      else
        share ← lift (frost_call "frost-tr peer round2: {}" [] (round2_sign package (pr_nonces entry) (kp_signing kp)));
        mret (Some (mk_share_response (cp_local_node_id s) (id_hex id) (hex_encode (ss_serialize share)))).

(* ------------------------------------------------------------------ *)
(** ** Outbound calls *)

Class TrCosignTransport (M : Type) := {
  collect_commitments : TrCommitRequest → dcmd M (list TrCommitResponse);
  collect_signature_shares : TrSignShareRequest → dcmd M (list TrSignShareResponse);
}.

(** [HttpTrCosignTransport]: the peers in order, the first failing post ends the collection.
    [post_commit] and [post_share] are the authenticated posts. *)
Section http.
Context {M : Type} (post_commit : string → TrCommitRequest → dcmd M TrCommitResponse)
  (post_share : string → TrSignShareRequest → dcmd M TrSignShareResponse).

Definition on_error {S B} (f : DomainError → DomainError) (c : dcmd S B) : dcmd S B :=
  λ s, let '(s', r) := c s in (s', map_err f r).

Fixpoint http_commitments (peers : list string) (req : TrCommitRequest) : dcmd M (list TrCommitResponse) :=
  match peers with
  | [] => mret []
  | id :: rest =>
      resp ← on_error (λ e, ThresholdError (format "TR commit from {}: {}" [id; fmt_error e])) (post_commit id req);
      out ← http_commitments rest req;
      mret (resp :: out)
  end.
Fixpoint http_signature_shares (peers : list string) (req : TrSignShareRequest) : dcmd M (list TrSignShareResponse) :=
  match peers with
  | [] => mret []
  | id :: rest =>
      if negb (bool_decide (sr_participant_node_ids req = [])) && negb (bool_decide (id ∈ sr_participant_node_ids req))
      then http_signature_shares rest req
      else
        resp ← on_error (λ e, ThresholdError (format "TR sign-share from {}: {}" [id; fmt_error e])) (post_share id req);
        out ← http_signature_shares rest req;
        mret (resp :: out)
  end.
End http.

(* ------------------------------------------------------------------ *)
(** ** The coordinator *)

Record AttributedWireSignature := mk_attributed {
  aw_signature : Signature;
  aw_participant_node_ids : list string;
}.

(** What the peers' round-1 answers add: commitments, and the node names they give. *)
Fixpoint add_commitments (l : list TrCommitResponse) (m : gmap Identifier SigningCommitments)
    (names : gmap Identifier string) : res (gmap Identifier SigningCommitments * gmap Identifier string) :=
  match l with
  | [] => Ok (m, names)
  | peer :: rest =>
      id_bytes ← frost_call "peer identifier hex: {}" [] (hex_decode (trim (cs_identifier_hex peer)));
      id ← frost_call "peer identifier: {}" [] (id_deserialize id_bytes);
      c_bytes ← frost_call "peer commitments hex: {}" [] (hex_decode (trim (cs_commitments_hex peer)));
      c ← frost_call "peer commitments: {}" [] (sc_deserialize c_bytes);
      add_commitments rest (<[id := c]> m) (<[id := cs_node_id peer]> names)
  end.

(** [ids.sort_by_key(|i| i.serialize())]: byte-wise. *)
Definition id_bytes_le (i j : Identifier) : Prop := String.le (str_of (id_serialize i)) (str_of (id_serialize j)).
#[global] Instance id_bytes_le_dec : RelDecision id_bytes_le.
Proof. intros i j. unfold id_bytes_le. apply _. Defined.

Fixpoint keep_lowest (min : N) (local_id : Identifier) (ids : list Identifier)
    (m keep : gmap Identifier SigningCommitments) : gmap Identifier SigningCommitments :=
  match ids with
  | [] => keep
  | id :: rest =>
      if min <=? N.of_nat (size keep) then keep
      else if bool_decide (id = local_id) then keep_lowest min local_id rest m keep
      else match m !! id with
           | Some c => keep_lowest min local_id rest (delete id m) (<[id := c]> keep)
           | None => keep_lowest min local_id rest m keep
           end
  end.
(** Trim to [min] participants: the local one and the lowest of the others. *)
Definition trim_commitments (min : N) (local_id : Identifier) (local_c : SigningCommitments)
    (m : gmap Identifier SigningCommitments) : gmap Identifier SigningCommitments :=
  if min <? N.of_nat (size m) then
    let ids := merge_sort id_bytes_le (id_iter m).*1 in
    keep_lowest min local_id ids (delete local_id m) {[local_id := default local_c (m !! local_id)]}
  else m.

Definition selected_peer_nodes (names : gmap Identifier string) (m : gmap Identifier SigningCommitments) : gset string :=
  list_to_set (omap (λ p, names !! p.1) (id_iter m)).

(** The peers' shares that belong to the package, and the names of those who sent them. *)
Fixpoint add_shares (package : SigningPackage) (names : gmap Identifier string) (l : list TrSignShareResponse)
    (shares : gmap Identifier SignatureShare) (participants : list string) :
    res (gmap Identifier SignatureShare * list string) :=
  match l with
  | [] => Ok (shares, participants)
  | peer :: rest =>
      id_bytes ← frost_call "peer identifier hex: {}" [] (hex_decode (trim (ss_identifier_hex peer)));
      id ← frost_call "peer identifier: {}" [] (id_deserialize id_bytes);
      if negb (bool_decide (is_Some (sp_commitments package !! id))) then
        add_shares package names rest shares participants
      else
        s_bytes ← frost_call "peer sig share hex: {}" [] (hex_decode (trim (ss_signature_share_hex peer)));
        s ← frost_call "peer sig share: {}" [] (ss_deserialize s_bytes);
        add_shares package names rest (<[id := s]> shares)
          (match names !! id with Some n => participants ++ [n] | None => participants end)
  end.

Section coordinator.
Context {M : Type} `{TP : !TrCosignTransport M}.

Definition one_local_share (snap : FrostTrShareState) : res (Identifier * KeyPackage) :=
  if negb (size (key_packages snap) =? 1)%nat then
    Err (ThresholdError (format
      "distributed_wire TR sign requires exactly 1 local share (have {}); multi-share in-process sign is dealer_lab only"
      [show (N.of_nat (size (key_packages snap)))]))
  else ok_or (head (id_iter (key_packages snap))) (ThresholdError "missing local TR share").

Definition sign_raw_wire_attributed (slot : option FrostTrShareState) (rng : Rng)
    (local_node_id session_id : string) (message : bytes) : dcmd M AttributedWireSignature :=
  snap ← lift (tr_snapshot slot);
  idkp ← lift (one_local_share snap);
  let '(local_id, local_kp) := idkp in
  let min_signers := ts_min_signers snap in
  let '(local_nonces, local_commitments) := round1_commit (kp_signing local_kp) rng in
  peer_commits ← collect_commitments (mk_commit_request session_id (hex_encode message) local_node_id);
  cn ← lift (add_commitments peer_commits {[local_id := local_commitments]} ∅);
  let '(commitments, names) := cn in
  if N.of_nat (size commitments) <? min_signers then
    fail (FailStop (N.of_nat (size commitments)) min_signers)
  else
    let commitments := trim_commitments min_signers local_id local_commitments commitments in
    let package := sp_new commitments message in
    pkg ← lift (frost_call "signing package serialize: {}" [] (sp_serialize package));
    local_share ← lift (frost_call "frost-tr local round2: {}" [] (round2_sign package local_nonces (kp_signing local_kp)));
    peer_shares ← collect_signature_shares
      (mk_share_request session_id (hex_encode pkg) (elements (selected_peer_nodes names commitments)));
    sp ← lift (add_shares package names peer_shares {[local_id := local_share]} [local_node_id]);
    let '(shares, participants) := sp in
    if N.of_nat (size shares) <? min_signers then fail (FailStop (N.of_nat (size shares)) min_signers)
    else
      let pk := pk_signing (ts_pubkey_package snap) in
      signature ← lift (frost_call "frost-tr wire aggregate: {}" [] (aggregate package shares pk));
      _ ← lift (frost_call "frost-tr wire verify: {}" [] (vk_verify (verifying_key pk) message signature));
      mret (mk_attributed signature (vec_dedup (merge_sort String.le participants))).

Definition sign_raw_wire (slot : option FrostTrShareState) (rng : Rng) (local_node_id session_id : string)
    (message : bytes) : dcmd M Signature :=
  a ← sign_raw_wire_attributed slot rng local_node_id session_id message; mret (aw_signature a).
End coordinator.

(** [tr_state_local_only]. *)
Definition tr_state_local_only (state : FrostTrShareState) (local_identifier : Identifier) : res FrostTrShareState :=
  kp ← ok_or (key_packages state !! local_identifier)
    (ThresholdError "local TR identifier missing from key packages");
  Ok (mk_share_state {[local_identifier := kp]} (ts_pubkey_package state) (ts_min_signers state)).

(* ------------------------------------------------------------------ *)
(** ** A peer's nonces sign once *)

Inductive peer_call :=
| CallCommit (rng : Rng) (req : TrCommitRequest)
| CallSignShare (env : Env) (req : TrSignShareRequest).

(** Run calls in order: the rounds that were opened, each with its randomness, and the
    signature shares that were given out, each with the round it answers. *)
Fixpoint peer_run (calls : list peer_call) (s : TrCosignPeerState) :
    TrCosignPeerState * list (Rng * PendingTrRound) * list (PendingTrRound * TrSignShareResponse) :=
  match calls with
  | [] => (s, [], [])
  | CallCommit rng req :: rest =>
      let '(s1, r) := handle_commit rng req s in
      let '(s2, opened, answered) := peer_run rest s1 in
      (s2, match r, cp_pending s1 !! cr_session_id req with Ok _, Some e => (rng, e) :: opened | _, _ => opened end,
       answered)
  | CallSignShare env req :: rest =>
      let '(s1, r) := handle_sign_share env req s in
      let '(s2, opened, answered) := peer_run rest s1 in
      (s2, opened,
       match r, cp_pending s !! sr_session req with
       | Ok (Some resp), Some e => (e, resp) :: answered | _, _ => answered end)
  end.

Lemma handle_commit_effect rng req s s1 r : handle_commit rng req s = (s1, r) →
  s1 = s ∧ is_ok r = false
  ∨ is_ok r = true ∧
    ∃ kp m, s1 = set_pending (<[cr_session_id req := mk_pending (round1_commit (kp_signing kp) rng).1 m]>) s.
Proof.
  unfold handle_commit. unfold_monad. intros H.
  destruct (frost_call _ _ _) as [m|] eqn:Hm; [|simplify_eq; by left].
  destruct (tr_snapshot _) as [snap|]; [|simplify_eq; by left].
  destruct (local_key_package snap) as [[id kp]|]; [|simplify_eq; by left].
  destruct (round1_commit (kp_signing kp) rng) as [n c] eqn:Hc.
  destruct (frost_call _ _ (sc_serialize c)); [|simplify_eq; by left].
  simplify_eq. right. split; [done|]. exists kp, m. by rewrite Hc.
Qed.

Lemma anti_nonce_gate_pending env sid s s1 r : anti_nonce_gate env sid s = (s1, r) →
  cp_pending s1 = cp_pending s ∧ cp_shares s1 = cp_shares s ∧ cp_local_node_id s1 = cp_local_node_id s.
Proof. unfold anti_nonce_gate. intros. repeat case_match; by simplify_eq. Qed.

(** The answer was computed by signing, with the round's nonces, a package of the round's message. *)
Definition answers_round (e : PendingTrRound) (resp : TrSignShareResponse) : Prop :=
  ∃ package kp share, sp_message package = pr_message e ∧ round2_sign package (pr_nonces e) kp = Ok share ∧
    ss_signature_share_hex resp = hex_encode (ss_serialize share).

Lemma handle_sign_share_effect env req s s1 r : handle_sign_share env req s = (s1, r) →
  (cp_pending s1 = cp_pending s ∨ cp_pending s1 = delete (sr_session req) (cp_pending s)) ∧
  ∀ resp, r = Ok (Some resp) → ∃ e, cp_pending s !! sr_session req = Some e ∧
    cp_pending s1 = delete (sr_session req) (cp_pending s) ∧ answers_round e resp.
Proof.
  unfold handle_sign_share. unfold_monad. intros H. case_match eqn:Hsel.
  { simplify_eq. split; [by right|done]. }
  destruct (cp_pending s !! sr_session req) as [e|] eqn:He; simpl in H; [|simplify_eq; split; [by left|done]].
  destruct (frost_call _ _ (hex_decode _)) as [pb|]; [|simplify_eq; split; [by right|done]].
  destruct (frost_call _ _ (sp_deserialize pb)) as [package|]; [|simplify_eq; split; [by right|done]].
  destruct (bool_decide (sp_message package = pr_message e)) eqn:Hm; simpl in H; [|simplify_eq; split; [by right|done]].
  rewrite bool_decide_eq_true in Hm.
  destruct (anti_nonce_gate env _ _) as [s2 [[]|]] eqn:Hg; apply anti_nonce_gate_pending in Hg as (Hp & _ & _);
    simpl in Hp; [|simplify_eq; split; [by right|done]].
  destruct (tr_snapshot _) as [snap|]; [|simplify_eq; split; [by right|done]].
  destruct (local_key_package snap) as [[id kp]|]; [|simplify_eq; split; [by right|done]].
  match type of H with context [negb ?b] => destruct (negb b) end; [simplify_eq; split; [by right|done]|].
  destruct (frost_call _ _ (round2_sign _ _ _)) as [share|] eqn:Hs; [|simplify_eq; split; [by right|done]].
  apply frost_call_ok in Hs. simplify_eq. split; [by right|]. intros resp [= <-]. exists e. do 2 (split; [done|]).
  exists package, (kp_signing kp), share. done.
Qed.

Definition open_rounds (s : TrCosignPeerState) : list PendingTrRound := (map_to_list (cp_pending s)).*2.

Lemma open_rounds_delete (m : gmap string PendingTrRound) i : (map_to_list (delete i m)).*2 ⊆+ (map_to_list m).*2.
Proof.
  destruct (m !! i) as [e|] eqn:He; [|by rewrite delete_id].
  rewrite <- (map_to_list_delete m i e He). simpl. by apply submseteq_cons.
Qed.
Lemma open_rounds_insert (m : gmap string PendingTrRound) i e :
  (map_to_list (<[i := e]> m)).*2 ⊆+ e :: (map_to_list m).*2.
Proof.
  rewrite <- insert_delete_eq, map_to_list_insert by apply lookup_delete_eq. simpl.
  apply submseteq_skip, open_rounds_delete.
Qed.

Lemma peer_run_rounds calls s s' opened answered : peer_run calls s = (s', opened, answered) →
  answered.*1 ⊆+ open_rounds s ++ opened.*2 ∧ Forall (λ p, answers_round p.1 p.2) answered ∧
  Forall (λ p, ∃ kp, pr_nonces p.2 = (round1_commit (kp_signing kp) p.1).1) opened.
Proof.
  revert s s' opened answered. induction calls as [|[rng req|env req] calls IH]; intros s s' opened answered; simpl.
  { intros [= <- <- <-]. split; [apply submseteq_nil_l|by split]. }
  - destruct (handle_commit rng req s) as [s1 r] eqn:Hc.
    destruct (peer_run calls s1) as [[s2 op] an] eqn:Hr. intros [= <- <- <-].
    destruct (IH _ _ _ _ Hr) as (Hsub & Han & Hop).
    apply handle_commit_effect in Hc as [[-> Hno]|(Hok & kp & m & ->)]; destruct r; try done.
    simpl. rewrite lookup_insert_eq. unfold open_rounds in *. simpl in Hsub.
    set (e := mk_pending _ m) in *. split; [|split; [done|]].
    + simpl. etrans; [apply Hsub|]. etrans; [apply submseteq_skips_r, open_rounds_insert|].
      simpl. by rewrite <- Permutation_middle.
    + constructor; [by exists kp|done].
  - destruct (handle_sign_share env req s) as [s1 r] eqn:Hc.
    destruct (peer_run calls s1) as [[s2 op] an] eqn:Hr. intros [= <- <- <-].
    destruct (IH _ _ _ _ Hr) as (Hsub & Han & Hop). unfold open_rounds in *.
    apply handle_sign_share_effect in Hc as [Hp Hans].
    assert ((map_to_list (cp_pending s1)).*2 ⊆+ (map_to_list (cp_pending s)).*2) as Hle.
    { destruct Hp as [->| ->]; [done|apply open_rounds_delete]. }
    assert (an.*1 ⊆+ (map_to_list (cp_pending s)).*2 ++ op.*2) as Hkeep.
    { etrans; [apply Hsub|]. by apply submseteq_skips_r. }
    destruct r as [[resp|]|]; [|by split_and!..].
    destruct (Hans resp eq_refl) as (e & He & Hd & Hresp). rewrite He. split; [|split; [by constructor|done]].
    rewrite Hd in Hsub. rewrite <- (map_to_list_delete _ _ _ He). simpl. by apply submseteq_skip.
Qed.

(** C9 A vault's signing nonces sign at most once: along any sequence of co-sign requests at a
    peer that starts with no open round, every signature share it gives out answers a round of
    its own that it opened before (as many shares as rounds at most, whatever the session ids,
    repeats and failures), signs with that round's nonces, which were drawn when it was opened,
    and only a package of the message that was announced for it. *)
Theorem nonces_sign_once calls s s' opened answered :
  cp_pending s = ∅ → peer_run calls s = (s', opened, answered) →
  answered.*1 ⊆+ opened.*2 ∧ Forall (λ p, answers_round p.1 p.2) answered ∧
  Forall (λ p, ∃ kp, pr_nonces p.2 = (round1_commit (kp_signing kp) p.1).1) opened.
Proof.
  intros Hs H. apply peer_run_rounds in H. unfold open_rounds in H. by rewrite Hs, map_to_list_empty in H.
Qed.

(* ------------------------------------------------------------------ *)
(** ** Trimming and what a coordinator's success means *)

Lemma keep_lowest_spec min lid ids (m keep : gmap Identifier SigningCommitments) :
  NoDup ids → is_Some (keep !! lid) → keep ##ₘ m → (∀ i, is_Some (m !! i) → i ∈ ids) →
  N.of_nat (size keep) ≤ min ≤ N.of_nat (size keep + size m) →
  keep ⊆ keep_lowest min lid ids m keep ∧ keep_lowest min lid ids m keep ⊆ keep ∪ m ∧
  N.of_nat (size (keep_lowest min lid ids m keep)) = min.
Proof.
  revert m keep. induction ids as [|i ids IH]; intros m keep Hnd Hlid Hdis Hin Hsz; simpl.
  { assert (m = ∅) as ->.
    { apply map_empty. intros i. destruct (m !! i) eqn:E; [|done]. exfalso. by eapply not_elem_of_nil, Hin. }
    rewrite map_size_empty in Hsz. split; [done|]. split; [by rewrite map_union_empty|]. lia. }
  apply NoDup_cons in Hnd as [Hi Hnd]. case_match eqn:Hmin.
  { nbool. split; [done|]. split; [by apply map_union_subseteq_l|]. lia. }
  nbool. case_bool_decide as Hil.
  { subst i. apply IH; try done. intros j Hj. specialize (Hin j Hj). apply elem_of_cons in Hin as [->|]; [|done].
    destruct Hlid as [x Hx], Hj as [y Hy]. by destruct (map_disjoint_spec keep m) as [Hd _]; destruct (Hd Hdis _ _ _ Hx Hy). }
  destruct (m !! i) as [c|] eqn:Hc.
  - assert (keep !! i = None) as Hk by (by eapply map_disjoint_Some_r).
    destruct (IH (delete i m) (<[i := c]> keep)) as (H1 & H2 & H3); try done.
    + by rewrite lookup_insert_ne.
    + apply map_disjoint_insert_l. split; [apply lookup_delete_eq|]. by apply map_disjoint_delete_r.
    + intros j [x Hj]. apply lookup_delete_Some in Hj as [Hne Hj]. specialize (Hin j (ex_intro _ x Hj)).
      apply elem_of_cons in Hin as [->|]; done.
    + rewrite map_size_insert_None by done. rewrite map_size_delete_Some by by eexists.
      assert (size m ≠ 0%nat). { intros Hz%map_size_empty_iff. by rewrite Hz in Hc. } lia.
    + split; [|split; [|done]]; [etrans; [by apply insert_subseteq|done]|]. etrans; [exact H2|].
      rewrite <- insert_union_l, insert_union_r by done. by rewrite insert_delete_id.
  - apply IH; try done. intros j Hj. specialize (Hin j Hj). apply elem_of_cons in Hin as [->|]; [|done].
    rewrite Hc in Hj. by destruct Hj.
Qed.

Lemma trim_commitments_spec min lid c (m : gmap Identifier SigningCommitments) : m !! lid = Some c →
  1 ≤ min → min ≤ N.of_nat (size m) →
  trim_commitments min lid c m ⊆ m ∧ trim_commitments min lid c m !! lid = Some c ∧
  N.of_nat (size (trim_commitments min lid c m)) = min.
Proof.
  intros Hl H1 Hsz. unfold trim_commitments. case_match; nbool; [|split_and!; [done|done|lia]].
  rewrite Hl. simpl default.
  destruct (keep_lowest_spec min lid (merge_sort id_bytes_le (id_iter m).*1) (delete lid m) {[lid := c]})
    as (K1 & K2 & K3).
  - rewrite merge_sort_Permutation. unfold id_iter. rewrite merge_sort_Permutation. apply NoDup_fst_map_to_list.
  - rewrite lookup_singleton_eq. by eexists.
  - apply map_disjoint_singleton_l, lookup_delete_eq.
  - intros i [x Hi]. apply lookup_delete_Some in Hi as [_ Hi]. rewrite merge_sort_Permutation.
    apply list_elem_of_fmap. exists (i, x). split; [done|]. by apply elem_of_id_iter.
  - rewrite map_size_singleton, map_size_delete_Some by by eexists. lia.
  - split; [|split; [|done]].
    + etrans; [exact K2|]. rewrite <- insert_union_singleton_l. by rewrite insert_delete_id.
    + apply (lookup_weaken _ _ _ _ (lookup_singleton_eq lid c)), K1.
Qed.

Lemma wire_signature_verifies {M} `{!TrCosignTransport M} slot rng node sid msg (m m' : M) a :
  sign_raw_wire_attributed slot rng node sid msg m = (m', Ok a) → ∃ snap, slot = Some snap ∧
    size (key_packages snap) = 1%nat ∧
    vk_verify (verifying_key (pk_signing (ts_pubkey_package snap))) msg (aw_signature a) = Ok tt.
Proof.
  unfold sign_raw_wire_attributed. unfold_monad. intros H.
  destruct (tr_snapshot slot) as [snap|] eqn:Hs; [|done]. unfold tr_snapshot, snapshot in Hs. rewrite ok_or_ok in Hs.
  destruct (one_local_share snap) as [[lid lkp]|] eqn:H1; [|done]. exists snap. split; [done|].
  unfold one_local_share in H1. rewrite guard_ok in H1. destruct H1 as [H1 _].
  rewrite negb_false_iff, Nat.eqb_eq in H1. split; [done|].
  destruct (round1_commit _ _). destruct (collect_commitments _ _) as [? []]; [|done].
  destruct (add_commitments _ _ _) as [[commitments names]|]; [|done]. case_match; [done|].
  destruct (frost_call _ _ (sp_serialize _)); [|done]. destruct (frost_call _ _ (round2_sign _ _ _)); [|done].
  destruct (collect_signature_shares _ _) as [? []]; [|done].
  destruct (add_shares _ _ _ _ _) as [[shares participants]|]; [|done]. case_match; [done|].
  destruct (frost_call _ _ (aggregate _ _ _)) as [sg|]; [|done].
  destruct (frost_call _ _ (vk_verify _ _ _)) as [[]|] eqn:Hv; [|done]. apply frost_call_ok in Hv. by simplify_eq.
Qed.
End cosign.
