(* ===== verification/CosignMesh.v ===== *)
(** * A quorum of honest co-signers signs

    [HttpTrCosignTransport] over peers that run [TrCosignPeerState] behind the two
    routes of [adapters/http.rs], and what a coordinator obtains from them. *)
From S2P Require Import Prelude RustStr RustParse Errors Identity Frost HybridEnvelope WireDkg WireRoster.
From S2P Require Import FrostShares ShareReshare FrostSign Cosign.
Local Open Scope N_scope.

Section mesh.
Context `{FR : Frost, EY : !EvenY, FS : !FrostStorage, SG : !FrostSign, HX : HexCodec}.
Context {Env A : Type} `{AP : !AntiNoncePort Env A}.

(** The vaults that can be reached, by node id. *)
Notation Peers := (gmap string (TrCosignPeerState (A:=A))).

(** The randomness and the environment of each peer's handler; the texts of failed posts. *)
Record MeshNet := mk_mesh_net {
  mn_peers : list string;
  mn_rngs : string → Rng;
  mn_envs : string → Env;
  mn_http_error : string → DomainError → DomainError;
  mn_no_answer : string → DomainError;
}.
Context (net : MeshNet).

Definition serve {B} (id : string) (h : dcmd (TrCosignPeerState (A:=A)) B) : dcmd Peers B := λ m,
  match m !! id with
  | None => (m, Err (mn_no_answer net id))
  | Some p => let '(p', r) := h p in (<[id := p']> m, map_err (mn_http_error net id) r)
  end.
Definition post_commit (id : string) (req : TrCommitRequest) : dcmd Peers TrCommitResponse :=
  serve id (handle_commit (mn_rngs net id) req).
(** A peer outside the signing set answers a text that does not decode. *)
Definition post_sign_share (id : string) (req : TrSignShareRequest) : dcmd Peers TrSignShareResponse :=
  r ← serve id (handle_sign_share (mn_envs net id) req);
  match r with Some resp => mret resp | None => fail (mn_no_answer net id) end.

#[global] Instance http_transport : TrCosignTransport Peers := {|
  collect_commitments := http_commitments post_commit (mn_peers net);
  collect_signature_shares := http_signature_shares post_sign_share (mn_peers net);
|}.

(** Although a quorum would do, the first unreachable peer ends the collection. *)
Lemma unreachable_peer_stops_signing slot rng node sid msg (m : Peers) id :
  id ∈ mn_peers net → m !! id = None →
  is_ok (sign_raw_wire_attributed slot rng node sid msg m).2 = false.
Proof.
  intros Hin Hm.
  assert (∀ l req (m' : Peers), id ∈ l → m' !! id = None → is_ok (http_commitments post_commit l req m').2 = false) as Hc.
  { induction l as [|y l IH]; intros req m' Hl Hm'; [by apply elem_of_nil in Hl|]. simpl. unfold_monad.
    unfold on_error. unfold post_commit at 1, serve. destruct (decide (y = id)) as [->|Hne].
    { by rewrite Hm'. }
    apply elem_of_cons in Hl as [->|Hl]; [done|]. destruct (m' !! y) as [p|]; [|done].
    destruct (handle_commit _ _ _) as [p' [resp|]]; [|done]. simpl.
    specialize (IH req (<[y:=p']> m') Hl). rewrite lookup_insert_ne in IH by done. specialize (IH Hm').
    destruct (http_commitments post_commit l req (<[y:=p']> m')) as [? []]; simpl in *; done. }
  unfold sign_raw_wire_attributed. unfold_monad. destruct (tr_snapshot slot) as [snap|]; [|done].
  destruct (one_local_share snap) as [[lid lkp]|]; [|done]. destruct (round1_commit _ _). simpl.
  specialize (Hc _ (mk_commit_request sid (hex_encode msg) node) m Hin Hm).
  destruct (http_commitments _ _ _ _) as [? []]; simpl in *; done.
Qed.

(* ------------------------------------------------------------------ *)
(** ** Honest peers *)

Context `{SS : !FrostSignSpec, HS : !HexSpec, FSP : !FrostStorageSpec}.

(** The vaults: who they are, their identifiers and shares of one keyset of threshold [t]. *)
Context (local : string) (idn : string → Identifier) (kpn : string → KeyPackage) (lrng : Rng).
Context (kps : gmap Identifier KeyPackage) (pk : PublicKeyPackage) (t : N).
Notation vaults := (local :: mn_peers net).
Context (Hnd : NoDup vaults) (Hinj : ∀ x y, x ∈ vaults → y ∈ vaults → idn x = idn y → x = y).
Context (Hkeys : ∀ x, x ∈ vaults → kps !! idn x = Some (kpn x)) (Hset : keyset kps pk t).
Context (Ht : 2 ≤ t) (Htn : t ≤ N.of_nat (length vaults)).

Definition share_of (x : string) : FrostTrShareState := mk_share_state {[idn x := kpn x]} pk t.
Definition rng_of (x : string) : Rng := if decide (x = local) then lrng else mn_rngs net x.
Definition round1_of (x : string) : SigningNonces * SigningCommitments := round1_commit (kp_signing (kpn x)) (rng_of x).
(** As wired: no session ledger at the peers. *)
Definition honest_peer (x : string) (p : TrCosignPeerState (A:=A)) : Prop :=
  cp_local_node_id p = x ∧ cp_shares p = Some (share_of x) ∧ cp_anti_nonce p = None.
Definition honest_peers (m : Peers) : Prop := ∀ x, x ∈ mn_peers net → ∃ p, m !! x = Some p ∧ honest_peer x p.

Lemma head_one (kp : KeyPackage) id : head (id_iter {[id := kp]}) = Some (id, kp).
Proof. unfold id_iter. by rewrite map_to_list_singleton. Qed.
Lemma hex_trim b : trim (hex_encode b) = hex_encode b.
Proof. apply trim_plain, (plain_impl is_lower_hexdigit); [apply lower_hexdigit_plain|apply hex_lower]. Qed.

(** An honest peer's answers. *)
Definition commit_of (x : string) (r : TrCommitResponse) : Prop :=
  cs_node_id r = x ∧ cs_identifier_hex r = id_hex (idn x) ∧
  ∃ b, cs_commitments_hex r = hex_encode b ∧ sc_deserialize b = Ok (round1_of x).2.

Lemma honest_commit x p sid msg : x ∈ mn_peers net → honest_peer x p →
  ∃ r, handle_commit (mn_rngs net x) (mk_commit_request sid (hex_encode msg) local) p =
    (set_pending (<[sid := mk_pending (round1_of x).1 msg]>) p, Ok r) ∧ commit_of x r.
Proof.
  intros Hx (Hn & Hs & _). destruct (sc_round (round1_of x).2) as (b & Hb & Hb').
  assert (rng_of x = mn_rngs net x) as Hr.
  { unfold rng_of. apply NoDup_cons in Hnd as [Hl _]. rewrite decide_False; [done|]. by intros ->. }
  eexists (mk_commit_response x (id_hex (idn x)) (hex_encode b)). split; [|split_and!; [done..|by exists b]].
  unfold handle_commit. unfold_monad. simpl. rewrite hex_trim, hex_round. simpl. rewrite Hs. simpl.
  unfold local_key_package. simpl. rewrite map_size_singleton. simpl. rewrite head_one. simpl.
  unfold round1_of in *. rewrite Hr in *. destruct (round1_commit _ _) as [n c]. simpl in *. rewrite Hb. simpl. by rewrite Hn.
Qed.

Definition waiting (sid : string) (msg : bytes) (m : Peers) (x : string) : Prop :=
  ∃ p, m !! x = Some p ∧ honest_peer x p ∧ cp_pending p !! sid = Some (mk_pending (round1_of x).1 msg).

Lemma honest_commitments sid msg l : NoDup l → (∀ x, x ∈ l → x ∈ mn_peers net) → ∀ m, 
  (∀ x, x ∈ l → ∃ p, m !! x = Some p ∧ honest_peer x p) →
  ∃ m' rs, http_commitments post_commit l (mk_commit_request sid (hex_encode msg) local) m = (m', Ok rs) ∧
    Forall2 commit_of l rs ∧ (∀ x, x ∈ l → waiting sid msg m' x) ∧ (∀ x, x ∉ l → m' !! x = m !! x).
Proof.
  intros Hl Hin. induction l as [|x l IH]; intros m Hm.
  { exists m, []. split; [done|]. split; [constructor|]. split; [|done]. intros x Hx. by apply elem_of_nil in Hx. }
  apply NoDup_cons in Hl as [Hx Hl]. destruct (Hm x) as (p & Hp & Hh); [by left|].
  destruct (honest_commit x p sid msg) as (r & Hr & Hc); [apply Hin; by left|done|].
  set (p' := set_pending _ p) in Hr.
  destruct (IH Hl (λ y Hy, Hin y (list_elem_of_further y x l Hy)) (<[x := p']> m)) as (m' & rs & Hrun & Hrs & Hw & Hf).
  { intros y Hy. rewrite lookup_insert_ne by (by intros ->). apply Hm. by right. }
  exists m', (r :: rs). simpl. unfold_monad. unfold on_error. unfold post_commit at 1, serve. rewrite Hp, Hr. simpl.
  rewrite Hrun. split; [done|]. split; [by constructor|]. split.
  - intros y [->|Hy]%elem_of_cons; [|by apply Hw]. exists p'. rewrite Hf by done.
    rewrite lookup_insert_eq. split; [done|]. split; [exact Hh|]. apply lookup_insert_eq.
  - intros y [Hne Hy]%not_elem_of_cons. rewrite Hf by done. by rewrite lookup_insert_ne.
Qed.

(** A map built by inserting a value per vault. *)
Definition by_vault {B} (f : string → B) (l : list string) (m : gmap Identifier B) : gmap Identifier B :=
  foldl (λ m x, <[idn x := f x]> m) m l.
Lemma by_vault_out {B} (f : string → B) l m i : (∀ x, x ∈ l → idn x ≠ i) → by_vault f l m !! i = m !! i.
Proof.
  revert m. induction l as [|y l IH]; intros m H; [done|]. simpl. unfold by_vault in *. simpl.
  rewrite IH by (intros; apply H; by right). apply lookup_insert_ne, H. by left.
Qed.
Lemma by_vault_in {B} (f : string → B) l m x : NoDup l → (∀ y, y ∈ l → y ∈ vaults) → x ∈ l →
  by_vault f l m !! idn x = Some (f x).
Proof.
  revert m. induction l as [|y l IH]; intros m Hl Hv Hx; [by apply elem_of_nil in Hx|].
  apply NoDup_cons in Hl as [Hy Hl]. unfold by_vault in *. simpl. apply elem_of_cons in Hx as [->|Hx].
  - change (by_vault f l (<[idn y:=f y]> m) !! idn y = Some (f y)). rewrite by_vault_out; [apply lookup_insert_eq|].
    intros z Hz E. apply Hinj in E; [by subst|apply Hv; by right|apply Hv; by left].
  - apply IH; [done| |done]. intros z Hz. apply Hv. by right.
Qed.
Lemma by_vault_inv {B} (f : string → B) l m i v : NoDup l → (∀ y, y ∈ l → y ∈ vaults) →
  by_vault f l m !! i = Some v → (∃ x, x ∈ l ∧ idn x = i ∧ v = f x) ∨ m !! i = Some v.
Proof.
  intros Hl Hv H. destruct (decide (i ∈ idn <$> l)) as [(x & -> & Hx)%list_elem_of_fmap|Hno].
  - left. exists x. rewrite by_vault_in in H by done. by injection H as <-.
  - right. rewrite by_vault_out in H; [done|]. intros x Hx E. apply Hno, list_elem_of_fmap. by exists x.
Qed.

Lemma NoDup_peers : NoDup (mn_peers net).
Proof. by apply NoDup_cons in Hnd as [_ ?]. Qed.
Lemma peer_not_local x : x ∈ mn_peers net → x ≠ local.
Proof. apply NoDup_cons in Hnd as [Hl _]. intros Hx ->. done. Qed.
Lemma peer_vault x : x ∈ mn_peers net → x ∈ vaults.
Proof. intros. by right. Qed.

Definition all_rounds : gmap Identifier (SigningNonces * SigningCommitments) := by_vault round1_of vaults ∅.
Definition all_commitments : gmap Identifier SigningCommitments :=
  by_vault (λ x, (round1_of x).2) (mn_peers net) {[idn local := (round1_of local).2]}.
Definition all_names : gmap Identifier string := by_vault (λ x, x) (mn_peers net) ∅.

Lemma all_rounds_inv i nc : all_rounds !! i = Some nc → ∃ x, x ∈ vaults ∧ idn x = i ∧ nc = round1_of x.
Proof. intros H. apply by_vault_inv in H as [H|H]; [done|by rewrite lookup_empty in H|done|done]. Qed.
Lemma all_rounds_in x : x ∈ vaults → all_rounds !! idn x = Some (round1_of x).
Proof. intros. by apply by_vault_in. Qed.
Lemma all_commitments_rounds : all_commitments = snd <$> all_rounds.
Proof.
  apply map_eq. intros i. rewrite lookup_fmap.
  destruct (decide (i ∈ idn <$> vaults)) as [(x & -> & Hx)%list_elem_of_fmap|Hno].
  - rewrite all_rounds_in by done. simpl. apply elem_of_cons in Hx as [->|Hx].
    + unfold all_commitments. rewrite by_vault_out; [apply lookup_singleton_eq|]. intros y Hy E.
      apply Hinj in E; [|by right|by left]. by apply (peer_not_local y).
    + apply (by_vault_in (λ x, (round1_of x).2)); [apply NoDup_peers|apply peer_vault|done].
  - assert (∀ x, x ∈ vaults → idn x ≠ i) as Hne.
    { intros x Hx E. apply Hno, list_elem_of_fmap. by exists x. }
    unfold all_rounds, all_commitments. rewrite !by_vault_out; [|done|intros x Hx; apply Hne; by right].
    rewrite lookup_singleton_ne; [by rewrite lookup_empty|]. apply Hne. by left.
Qed.
Lemma size_all_commitments : size all_commitments = length vaults.
Proof.
  rewrite all_commitments_rounds, map_size_fmap, <- size_dom.
  assert (dom all_rounds = list_to_set (idn <$> vaults)) as ->.
  { apply set_eq. intros i. rewrite elem_of_dom, elem_of_list_to_set, list_elem_of_fmap. split.
    - intros [nc (x & Hx & <- & _)%all_rounds_inv]. by exists x.
    - intros (x & -> & Hx). rewrite all_rounds_in by done. by eexists. }
  rewrite size_list_to_set; [apply length_fmap|]. apply NoDup_fmap_2_strong; [|done]. intros. by apply Hinj.
Qed.
Lemma all_names_spec i x : all_names !! i = Some x ↔ x ∈ mn_peers net ∧ idn x = i.
Proof.
  split.
  - intros H. apply by_vault_inv in H as [(y & Hy & <- & ->)|H]; [done|by rewrite lookup_empty in H|apply NoDup_peers|apply peer_vault].
  - intros [Hx <-]. unfold all_names. by rewrite by_vault_in; [|apply NoDup_peers|apply peer_vault|].
Qed.

Lemma honest_add_commitments l rs : Forall2 commit_of l rs → ∀ m names,
  add_commitments rs m names = Ok (by_vault (λ x, (round1_of x).2) l m, by_vault (λ x, x) l names).
Proof.
  induction 1 as [|x r l rs (Hn & Hi & b & Hb & Hc) _ IH]; intros m names; [done|]. simpl. unfold_monad.
  rewrite Hi. unfold id_hex. rewrite hex_trim, hex_round. simpl. rewrite id_storage. simpl.
  rewrite Hb, hex_trim, hex_round. simpl. rewrite Hc. simpl. rewrite Hn. apply IH.
Qed.

(* ------------------------------------------------------------------ *)
(** ** The second round *)

Section second_round.
Context (sid : string) (msg pkg : bytes) (package : SigningPackage) (chosen : list string) (share : string → SignatureShare).
Context (Hpkg : sp_deserialize pkg = Ok package) (Hmsg : sp_message package = msg).
(** The chosen peers are those whose commitments the package holds. *)
Context (Hchosen : ∀ x, x ∈ mn_peers net → x ∈ chosen → is_Some (sp_commitments package !! idn x)).
Context (Hshare : ∀ x, x ∈ mn_peers net → x ∈ chosen →
  round2_sign package (round1_of x).1 (kp_signing (kpn x)) = Ok (share x)).
Notation share_req := (mk_share_request sid (hex_encode pkg) chosen).

Definition shares_of (x : string) (r : TrSignShareResponse) : Prop :=
  ss_identifier_hex r = id_hex (idn x) ∧ ss_signature_share_hex r = hex_encode (ss_serialize (share x)).

Lemma honest_sign_share x p env : x ∈ mn_peers net → x ∈ chosen → honest_peer x p →
  cp_pending p !! sid = Some (mk_pending (round1_of x).1 msg) →
  ∃ p' r, handle_sign_share env share_req p = (p', Ok (Some r)) ∧ shares_of x r.
Proof.
  intros Hx Hc (Hn & Hs & Ha) Hp. eexists _, (mk_share_response x (id_hex (idn x)) (hex_encode (ss_serialize (share x)))).
  split; [|done]. unfold handle_sign_share. unfold_monad. simpl. rewrite Hn.
  rewrite (bool_decide_true (x ∈ chosen)) by done. rewrite andb_false_r. rewrite Hp. simpl.
  rewrite hex_trim, hex_round. simpl. rewrite Hpkg. simpl. rewrite bool_decide_true by done. simpl.
  unfold anti_nonce_gate. simpl. rewrite Ha. simpl. rewrite Hs. simpl.
  unfold local_key_package. simpl. rewrite map_size_singleton. simpl. rewrite head_one. simpl.
  rewrite bool_decide_true by by apply Hchosen. simpl. rewrite Hshare by done. done.
Qed.

Lemma honest_signature_shares l : NoDup l → (∀ x, x ∈ l → x ∈ mn_peers net) → chosen ≠ [] → ∀ m,
  (∀ x, x ∈ l → waiting sid msg m x) →
  ∃ m' rs, http_signature_shares post_sign_share l share_req m = (m', Ok rs) ∧
    Forall2 shares_of (filter (λ x, x ∈ chosen) l) rs.
Proof.
  intros Hl Hin Hne. induction l as [|x l IH]; intros m Hm.
  { exists m, []. split; [done|]. by rewrite filter_nil. }
  apply NoDup_cons in Hl as [Hx Hl]. simpl. rewrite (bool_decide_false (chosen = [])) by done. simpl.
  assert (∀ m', (∀ y, y ∈ l → m' !! y = m !! y) → ∀ y, y ∈ l → waiting sid msg m' y) as Hrest.
  { intros m' Hm' y Hy. destruct (Hm y) as (p & Hp & Hq); [by right|]. exists p. by rewrite Hm'. }
  rewrite filter_cons. destruct (decide (x ∈ chosen)) as [Hc|Hc].
  - rewrite bool_decide_true by done. simpl. destruct (Hm x) as (p & Hp & Hh & Hw); [by left|].
    destruct (honest_sign_share x p (mn_envs net x)) as (p' & r & Hr & Hs); [apply Hin; by left|done..|].
    destruct (IH Hl (λ y Hy, Hin y (list_elem_of_further y x l Hy)) (<[x := p']> m)) as (m' & rs & Hrun & Hrs).
    { apply Hrest. intros y Hy. apply lookup_insert_ne. by intros ->. }
    exists m', (r :: rs). unfold_monad. unfold on_error. unfold post_sign_share at 1, serve. unfold_monad.
    rewrite Hp, Hr. simpl. rewrite Hrun. split; [done|]. by constructor.
  - rewrite bool_decide_false by done. simpl. apply IH; [done| |by apply Hrest]. intros y Hy. apply Hin. by right.
Qed.

Lemma honest_add_shares l rs : Forall2 shares_of l rs → (∀ x, x ∈ l → x ∈ mn_peers net ∧ x ∈ chosen) →
  ∀ m parts, add_shares package all_names rs m parts = Ok (by_vault share l m, parts ++ l).
Proof.
  induction 1 as [|x r l rs [Hi Hs] _ IH]; intros Hl m parts; [by rewrite app_nil_r|]. simpl. unfold_monad.
  destruct (Hl x) as [Hx Hc]; [by left|].
  rewrite Hi. unfold id_hex. rewrite hex_trim, hex_round. simpl. rewrite id_storage. simpl.
  rewrite bool_decide_true by by apply Hchosen. simpl. rewrite Hs, hex_trim, hex_round. simpl.
  rewrite ss_round. simpl. rewrite (proj2 (all_names_spec (idn x) x)) by done.
  rewrite IH by (intros; apply Hl; by right). by rewrite <- app_assoc.
Qed.
End second_round.

(* ------------------------------------------------------------------ *)
(** ** The quorum signs *)

Section quorum.
Context (msg : bytes).
Notation chosen_commitments := (trim_commitments t (idn local) (round1_of local).2 all_commitments).
Definition package_of : SigningPackage := sp_new chosen_commitments msg.
Definition chosen_nodes : list string := elements (selected_peer_nodes all_names chosen_commitments).
Definition signers : list string := filter (λ x, x ∈ chosen_nodes) (mn_peers net).

Lemma chosen_spec : chosen_commitments ⊆ all_commitments ∧ is_Some (chosen_commitments !! idn local) ∧
  N.of_nat (size chosen_commitments) = t.
Proof.
  destruct (trim_commitments_spec t (idn local) (round1_of local).2 all_commitments) as (H1 & H2 & H3).
  - rewrite all_commitments_rounds, lookup_fmap, all_rounds_in by by left. done.
  - lia.
  - by rewrite size_all_commitments.
  - split_and!; [done|by eexists|done].
Qed.

Lemma chosen_nodes_spec x : x ∈ chosen_nodes ↔ x ∈ mn_peers net ∧ is_Some (chosen_commitments !! idn x).
Proof.
  unfold chosen_nodes, selected_peer_nodes. rewrite elem_of_elements, elem_of_list_to_set, list_elem_of_omap. split.
  - intros ([i c] & Hi & Hn). apply elem_of_id_iter in Hi. simpl in Hn. apply all_names_spec in Hn as [Hx <-].
    split; [done|]. by eexists.
  - intros [Hx [c Hc]]. exists (idn x, c). split; [by apply elem_of_id_iter|]. by apply all_names_spec.
Qed.
Lemma elem_of_signers x : x ∈ signers ↔ x ∈ mn_peers net ∧ is_Some (chosen_commitments !! idn x).
Proof. unfold signers. rewrite list_elem_of_filter, chosen_nodes_spec. naive_solver. Qed.

Lemma chosen_vault i c : chosen_commitments !! i = Some c → ∃ x, x ∈ local :: signers ∧ idn x = i ∧ c = (round1_of x).2.
Proof.
  intros Hi. destruct chosen_spec as (Hsub & _ & _). pose proof (lookup_weaken _ _ _ _ Hi Hsub) as Ha.
  rewrite all_commitments_rounds, lookup_fmap in Ha. apply fmap_Some in Ha as (nc & (x & Hx & <- & ->)%all_rounds_inv & ->).
  exists x. split; [|done]. apply elem_of_cons in Hx as [->|Hx]; [by left|]. right. apply elem_of_signers. split; [done|]. by eexists.
Qed.

Lemma signers_vaults x : x ∈ local :: signers → x ∈ vaults.
Proof. intros [->|[Hx _]%elem_of_signers]%elem_of_cons; [by left|by right]. Qed.
Lemma NoDup_signers : NoDup (local :: signers).
Proof.
  apply NoDup_cons. split; [intros [Hx _]%elem_of_signers; by apply (peer_not_local local)|].
  apply NoDup_filter, NoDup_peers.
Qed.
Lemma size_signers {B} (m : gmap Identifier B) :
  (∀ x, x ∈ local :: signers → is_Some (m !! idn x)) → (∀ i, is_Some (m !! i) → ∃ x, x ∈ local :: signers ∧ idn x = i) →
  size m = length (local :: signers).
Proof.
  intros Hin Hout. rewrite <- size_dom.
  assert (dom m = list_to_set (idn <$> local :: signers)) as ->.
  { apply set_eq. intros i. rewrite elem_of_dom, elem_of_list_to_set, list_elem_of_fmap. split.
    - intros (x & Hx & <-)%Hout. by exists x.
    - intros (x & -> & Hx). by apply Hin. }
  rewrite size_list_to_set; [by rewrite length_fmap|]. apply NoDup_fmap_2_strong; [|apply NoDup_signers].
  intros x y Hx Hy. apply Hinj; by apply signers_vaults.
Qed.
Lemma length_signers : N.of_nat (length (local :: signers)) = t.
Proof.
  destruct chosen_spec as (_ & Hl & <-). f_equal. symmetry. apply size_signers.
  - by intros x [->|[_ Hx]%elem_of_signers]%elem_of_cons.
  - intros i [c (x & Hx & <- & _)%chosen_vault]. by exists x.
Qed.
Lemma some_chosen : chosen_nodes ≠ [].
Proof.
  intros E. pose proof length_signers as Hl. unfold signers in Hl. rewrite E in Hl.
  assert (filter (λ x : string, x ∈ []) (mn_peers net) = []) as Hf.
  { clear. generalize (mn_peers net) as l. induction l as [|y l IH]; [done|].
    by rewrite filter_cons_False by apply not_elem_of_nil. }
  rewrite Hf in Hl. simpl in Hl. lia.
Qed.

(** What [sign_correct] gives for the trimmed quorum. *)
Lemma quorum_shares : ∃ shares sg,
  (∀ x, x ∈ local :: signers → ∃ s,
     round2_sign package_of (round1_of x).1 (kp_signing (kpn x)) = Ok s ∧ shares !! idn x = Some s) ∧
  (∀ i, is_Some (shares !! i) → ∃ x, x ∈ local :: signers ∧ idn x = i) ∧
  aggregate package_of shares (pk_signing pk) = Ok sg ∧ vk_verify (verifying_key (pk_signing pk)) msg sg = Ok tt.
Proof.
  destruct chosen_spec as (Hsub & Hloc & Hsz).
  set (own := filter (λ p, is_Some (chosen_commitments !! p.1)) all_rounds).
  assert (snd <$> own = chosen_commitments) as Hown.
  { apply map_eq. intros i. rewrite lookup_fmap. destruct (chosen_commitments !! i) as [c|] eqn:Hc.
    - destruct (chosen_vault i c Hc) as (x & Hx & <- & ->).
      assert (own !! idn x = Some (round1_of x)) as ->; [|done].
      apply map_lookup_filter_Some. split; [|by eexists]. by apply all_rounds_in, signers_vaults.
    - destruct (own !! i) eqn:Ho; [|done]. apply map_lookup_filter_Some in Ho as [_ [? Ho]]. simpl in Ho. by rewrite Hc in Ho. }
  assert (∀ x, x ∈ local :: signers → own !! idn x = Some (round1_of x)) as Hin.
  { intros x Hx. apply map_lookup_filter_Some. split; [by apply all_rounds_in, signers_vaults|].
    by apply elem_of_cons in Hx as [->|[_ Hx]%elem_of_signers]. }
  destruct (sign_correct kps pk t own msg Hset) as (shares & sg & Hdom & Hsh & Hagg & Hver).
  - by rewrite <- (map_size_fmap snd own), Hown, Hsz.
  - intros i nc Hi. apply map_lookup_filter_Some in Hi as [(x & Hx & <- & ->)%all_rounds_inv _].
    exists (kpn x), (rng_of x). split; [by apply Hkeys|done].
  - rewrite Hown in *. exists shares, sg. split; [|split; [|done]].
    + intros x Hx. apply (Hsh (idn x) (round1_of x) (kpn x)); [by apply Hin|by apply Hkeys, signers_vaults].
    + intros i Hi. apply elem_of_dom in Hi. rewrite Hdom in Hi. apply elem_of_dom in Hi as [nc Hi].
      assert (is_Some (chosen_commitments !! i)) as [c Hc] by (rewrite <- Hown, lookup_fmap, Hi; by eexists).
      destruct (chosen_vault i c Hc) as (x & Hx & Hi' & _). by exists x.
Qed.
End quorum.

(** C21 A quorum of honest vaults signs: when every configured peer is reachable and holds its one
    share of a keyset of threshold [t ≥ 2], and the local share is of the same keyset, a
    coordinator that asks for a signature obtains one that verifies under the group's key-path
    key, attributed to exactly [t] distinct vaults, itself among them. *)
Theorem wire_quorum_signs slot sid msg (m : Peers) : slot = Some (share_of local) → honest_peers m →
  ∃ m' a, sign_raw_wire_attributed slot lrng local sid msg m = (m', Ok a) ∧
    vk_verify (verifying_key (pk_signing pk)) msg (aw_signature a) = Ok tt ∧
    NoDup (aw_participant_node_ids a) ∧ N.of_nat (length (aw_participant_node_ids a)) = t ∧
    local ∈ aw_participant_node_ids a ∧ (∀ x, x ∈ aw_participant_node_ids a → x ∈ vaults).
Proof.
  intros -> Hm.
  destruct (honest_commitments sid msg (mn_peers net) NoDup_peers (λ _ H, H) m Hm) as (m1 & rs & Hrun & Hrs & Hw & _).
  destruct (quorum_shares msg) as (shares & sg & Hsh & Hdom & Hagg & Hver).
  destruct (Hsh local) as (ls & Hls & Hl); [by left|].
  set (share := λ x, default ls (shares !! idn x)).
  assert (∀ x, x ∈ signers → round2_sign (package_of msg) (round1_of x).1 (kp_signing (kpn x)) = Ok (share x)
    ∧ shares !! idn x = Some (share x)) as Hshare.
  { intros x Hx. destruct (Hsh x) as (s & H1 & H2); [by right|]. unfold share. by rewrite H2. }
  destruct (sp_round (package_of msg)) as (pkg & Hser & Hde).
  destruct (honest_signature_shares sid msg pkg (package_of msg) chosen_nodes share Hde (sp_new_message _ _))
    with (l := mn_peers net) (m := m1) as (m2 & ss & Hrun2 & Hss).
  { intros x Hx [_ Hc]%chosen_nodes_spec. unfold package_of. by rewrite sp_new_commitments. }
  { intros x Hx Hc. apply Hshare. unfold signers. by apply list_elem_of_filter. }
  { apply NoDup_peers. }
  { done. }
  { apply some_chosen. }
  { done. }
  fold signers in Hss.
  assert (by_vault share signers {[idn local := ls]} = shares) as Hmap.
  { apply map_eq. intros i. destruct (decide (i ∈ idn <$> signers)) as [(x & -> & Hx)%list_elem_of_fmap|Hno].
    - rewrite by_vault_in; [symmetry; by apply Hshare| | |done].
      + pose proof NoDup_signers as Hn. by apply NoDup_cons in Hn as [_ ?].
      + intros y Hy. apply signers_vaults. by right.
    - rewrite by_vault_out by (intros x Hx E; apply Hno, list_elem_of_fmap; by exists x).
      destruct (decide (i = idn local)) as [->|Hne]; [by rewrite lookup_singleton_eq|].
      rewrite lookup_singleton_ne by done. symmetry. apply eq_None_not_Some. intros Hi.
      destruct (Hdom i Hi) as (x & [->|Hx]%elem_of_cons & <-); [done|]. apply Hno, list_elem_of_fmap. by exists x. }
  set (parts := vec_dedup (merge_sort String.le (local :: signers))).
  assert (parts ≡ₚ local :: signers) as Hparts.
  { apply NoDup_Permutation; [|apply NoDup_signers|].
    - apply vec_dedup_NoDup. apply StronglySorted_merge_sort; apply _.
    - intros x. unfold parts. by rewrite vec_dedup_elem, merge_sort_Permutation. }
  exists m2, (mk_attributed sg parts). split; [|split; [done|]].
  - unfold sign_raw_wire_attributed. unfold_monad. simpl.
    unfold one_local_share. simpl. rewrite map_size_singleton. simpl. rewrite head_one. simpl.
    assert (round1_commit (kp_signing (kpn local)) lrng = ((round1_of local).1, (round1_of local).2)) as ->.
    { unfold round1_of, rng_of. rewrite decide_True by done. by destruct (round1_commit _ _). }
    rewrite Hrun. rewrite (honest_add_commitments _ _ Hrs). fold all_commitments all_names.
    rewrite (proj2 (N.ltb_ge _ _)) by (rewrite size_all_commitments; exact Htn).
    fold (package_of msg). rewrite Hser. simpl. rewrite Hls. simpl. fold chosen_nodes. rewrite Hrun2.
    rewrite (honest_add_shares (package_of msg) chosen_nodes share) with (l := signers);
      [|by intros x Hx [_ Hc]%chosen_nodes_spec; unfold package_of; rewrite sp_new_commitments|done
       |intros x [Hx Hc]%elem_of_signers; split; [done|by apply chosen_nodes_spec]].
    rewrite Hmap. rewrite (proj2 (N.ltb_ge _ _)); [|rewrite (size_signers shares); [by rewrite length_signers| |done]; intros x Hx;
      destruct (Hsh x Hx) as (? & _ & ->); by eexists].
    rewrite Hagg. simpl. rewrite Hver. done.
  - simpl. rewrite Hparts. split; [apply NoDup_signers|]. split; [apply length_signers|]. split; [by left|].
    intros x Hx. apply signers_vaults. by rewrite <- Hparts.
Qed.
End mesh.
