(* ===== verification/TrSign.v ===== *)
(** * Bitcoin signing with the Taproot keysets ([adapters/frost_tr_bitcoin.rs], second part)

    [FrostTrBitcoinOrchestrator]: a session id is burned, the day is checked, the PSBT
    must meet the transaction policy and pay the intent, and only inputs locked to the
    mesh's deposit key are signed, by the wire quorum or, in the lab, in process. *)
From S2P Require Import Prelude RustStr Errors Identity DayEpoch Bucket Psbt PersistedLedger AntiNonce DailyRotation.
From S2P Require Import Frost HybridEnvelope WireDkg FrostShares ShareReshare FrostSign Cosign.
Local Open Scope N_scope.

(** The parts of the [bitcoin] crate that are used beyond [Psbt]'s fields. *)
Class TaprootLib := {
  XOnly : Type;
  xonly_from_slice : bytes → result string XOnly;
  xonly_serialize : XOnly → bytes;
  (** [tap_tweak(secp, None)]'s output key. *)
  tap_tweak : XOnly → XOnly;
  (** [ScriptBuf::new_p2tr_tweaked], [is_p2tr], [Address::p2tr_tweaked]. *)
  p2tr_script : XOnly → bytes;
  is_p2tr : bytes → bool;
  p2tr_address : XOnly → BitcoinNetwork → string;
  (** [Psbt::from_str] and [to_string]. *)
  psbt_parse : string → result string Psbt;
  psbt_text : Psbt → string;
  (** [taproot_key_spend_signature_hash(idx, Prevouts::All(prevouts), Default)]. *)
  taproot_sighash : Psbt → nat → list TxOut → result string bytes;
  (** [schnorr::Signature::from_slice]. *)
  schnorr_from_slice : bytes → result string bytes;
}.

Record BitcoinSighashSignature := mk_sighash_signature {
  bs_session_id : string; bs_day_epoch : string; bs_signature_hex : string; bs_participants : N; bs_scheme : string }.
Record InputSignature := mk_input_signature { is_input_index : nat; is_sighash_hex : string; is_signature_hex : string }.
Record SignedPsbtResult := mk_signed_psbt {
  sp_session_id : string; sp_day_epoch : string; sp_signed_psbt : string; sp_signatures : list InputSignature;
  sp_participants : N; sp_scheme : string }.
Record FinancialQuorumProof := mk_quorum_proof {
  qp_signature_hex : string; qp_verifying_key_hex : string; qp_participant_node_ids : list string; qp_required_threshold : N }.
Record DepositInfo := mk_deposit_info {
  di_network : string; di_xonly_pubkey_hex : string; di_output_pubkey_hex : string; di_address : string;
  di_descriptor : string; di_scheme : string }.
Definition tr_scheme : string := "frost-secp256k1-tr-v3".

Definition deposit_info_json (d : DepositInfo) : string :=
  format (q "{{`network`:`{}`,`xonly_pubkey`:`{}`,`output_pubkey`:`{}`,`address`:`{}`,`descriptor`:`{}`,`scheme`:`{}`}}")
    [di_network d; di_xonly_pubkey_hex d; di_output_pubkey_hex d; di_address d; di_descriptor d; di_scheme d].
Definition sighash_signature_json (b : BitcoinSighashSignature) : string :=
  format (q "{{`session_id`:`{}`,`day_epoch`:`{}`,`signature`:`{}`,`participants`:{},`scheme`:`{}`}}")
    [bs_session_id b; bs_day_epoch b; bs_signature_hex b; show (bs_participants b); bs_scheme b].
Definition signed_psbt_json (r : SignedPsbtResult) : string :=
  let sigs := map (λ s, format (q "{{`input_index`:{},`sighash`:`{}`,`signature`:`{}`}}")
    [show (N.of_nat (is_input_index s)); is_sighash_hex s; is_signature_hex s]) (sp_signatures r) in
  format (q "{{`session_id`:`{}`,`day_epoch`:`{}`,`signed_psbt`:`{}`,`signatures`:[{}],`participants`:{},`scheme`:`{}`}}")
    [sp_session_id r; sp_day_epoch r; sp_signed_psbt r; join "," sigs; show (sp_participants r); sp_scheme r].

(** [collect_prevouts]. *)
Fixpoint collect_prevouts (i : N) (ins : list PsbtIn) : res (list TxOut) :=
  match ins with
  | [] => Ok []
  | p :: rest =>
      o ← match witness_utxo p with
          | Some utxo => Ok utxo
          | None =>
              match non_witness_utxo p with
              | Some prev => ok_or (prev !! N.to_nat (prev_vout p)) (ThresholdError (format "missing prevout {}" [show i]))
              | None => Err (ThresholdError (format "psbt input {} missing witness_utxo" [show i]))
              end
          end;
      out ← collect_prevouts (i + 1) rest;
      Ok (o :: out)
  end.

Section sign.
Context `{FR : Frost, EY : !EvenY, FS : !FrostStorage, SG : !FrostSign, HX : HexCodec, SH : Sha256}.
Context `{BL : TaprootLib, AL : AddressLib, TWt : TxWeight}.
Context {AEnv A M : Type} `{AP : !AntiNoncePort AEnv A, TP : !TrCosignTransport M}.

Record FrostTrBitcoinOrchestrator := mk_orchestrator {
  o_shares : option FrostTrShareState;
  o_network : BitcoinNetwork;
  o_allow_local_multisign : bool;
  o_local_node_id : string;
  o_cosign : bool;  (** whether a transport is configured *)
  o_psbt_policy : PsbtPolicy;
}.
(** What the calls change: the session ledger, the day ledger, the peers. *)
Record SignNode := mk_sign_node { sg_anti : A; sg_rotation : Rotation; sg_net : M }.
Definition on_anti {B} : dcmd A B → dcmd SignNode B :=
  zoom sg_anti (λ a s, mk_sign_node a (sg_rotation s) (sg_net s)).
Definition on_rotation {B} : dcmd Rotation B → dcmd SignNode B :=
  zoom sg_rotation (λ r s, mk_sign_node (sg_anti s) r (sg_net s)).
Definition on_net {B} : dcmd M B → dcmd SignNode B :=
  zoom sg_net (λ m s, mk_sign_node (sg_anti s) (sg_rotation s) m).
(** Readings of one call: the ledger's environment, the clock twice, randomness per input. *)
Record SignEnv := mk_sign_env {
  se_anti : AEnv; se_now : N; se_now' : N; se_wire_rng : nat → Rng; se_rng : nat → Identifier → Rng }.

Context (o : FrostTrBitcoinOrchestrator).

Definition xonly_from_verifying_key (vk : VerifyingKey) : res XOnly :=
  b ← frost_call "verifying key serialize: {}" [] (vk_serialize vk);
  xonly ← (if len b =? 32 then Ok b else if len b =? 33 then Ok (drop 1 b)
           else Err (ThresholdError (format "unexpected verifying key length {}" [show (len b)])));
  frost_call "xonly: {}" [] (xonly_from_slice xonly).
Definition our_output_key (snap : FrostTrShareState) : res XOnly :=
  internal ← xonly_from_verifying_key (verifying_key (ts_pubkey_package snap)); Ok (tap_tweak internal).

Definition deposit_info : res DepositInfo :=
  snap ← tr_snapshot (o_shares o);
  internal ← xonly_from_verifying_key (verifying_key (ts_pubkey_package snap));
  let output := tap_tweak internal in
  let out_hex := hex_encode (xonly_serialize output) in
  Ok (mk_deposit_info (network_str (o_network o)) (hex_encode (xonly_serialize internal)) out_hex
        (p2tr_address output (o_network o)) (format "tr({})" [out_hex]) tr_scheme).

(** [hex::encode(sha2_first_16(message))]. *)
Definition sha2_first_16_hex (message : bytes) : string := str_of (take 32 (bytes_of (sha256_hex message))).

(** Round 1 of the local signers, in identifier order. *)
Fixpoint local_round1 (rng : Identifier → Rng) (l : list (Identifier * KeyPackage))
    (m : gmap Identifier (SigningNonces * SigningCommitments)) : gmap Identifier (SigningNonces * SigningCommitments) :=
  match l with
  | [] => m
  | (id, kp) :: rest => local_round1 rng rest (<[id := round1_commit (kp_signing kp) (rng id)]> m)
  end.
Fixpoint local_round2 (kps : gmap Identifier KeyPackage) (package : SigningPackage)
    (l : list (Identifier * (SigningNonces * SigningCommitments))) (m : gmap Identifier SignatureShare) :
    res (gmap Identifier SignatureShare) :=
  match l with
  | [] => Ok m
  | (id, nc) :: rest =>
      kp ← ok_or (kps !! id) (ThresholdError "missing key package");
      share ← frost_call "frost-tr round2: {}" [] (round2_sign package nc.1 (kp_signing kp));
      local_round2 kps package rest (<[id := share]> m)
  end.
Definition sign_local (snap : FrostTrShareState) (rng : Identifier → Rng) (message : bytes) : res Signature :=
  let identifiers := id_iter (key_packages snap) in
  if len identifiers <? ts_min_signers snap then Err (FailStop (len identifiers) (ts_min_signers snap))
  else
    let own := local_round1 rng (take (N.to_nat (ts_min_signers snap)) identifiers) ∅ in
    let package := sp_new (snd <$> own) message in
    shares ← local_round2 (key_packages snap) package (id_iter own) ∅;
    let pk := pk_signing (ts_pubkey_package snap) in
    signature ← frost_call "frost-tr aggregate: {}" [] (aggregate package shares pk);
    _ ← frost_call "frost-tr verify: {}" [] (vk_verify (verifying_key pk) message signature);
    Ok signature.

Definition sign_raw_quorum (env : SignEnv) (k : nat) (message : bytes) : dcmd M Signature :=
  snap ← lift (tr_snapshot (o_shares o));
  if negb (o_allow_local_multisign o) then
    if (1 <? size (key_packages snap))%nat then
      fail (ThresholdError
        "multi-share local FROST sign refused outside dealer_lab; use wire co-sign (single local share)")
    else if negb (o_cosign o) then
      fail (ThresholdError "TR wire co-sign transport not configured (distributed_wire requires peer co-sign)")
    else
      sign_raw_wire (o_shares o) (se_wire_rng env k) (o_local_node_id o)
        (format "tr-wire-{}" [sha2_first_16_hex message]) message
  else lift (sign_local snap (se_rng env k) message).

(** The start of both signing calls: burn the session, check the day. *)
Definition open_signing (env : SignEnv) (session_id : string) : dcmd SignNode DayEpoch :=
  _ ← on_anti (anp_claim_session (se_anti env) session_id);
  day_epoch ← on_rotation (current_day_epoch (se_now env));
  _ ← on_rotation (require_epoch (se_now' env) day_epoch);
  mret day_epoch.

Definition sign_sighash (env : SignEnv) (session_id : string) (sighash32 : bytes) :
    dcmd SignNode BitcoinSighashSignature :=
  if negb (len sighash32 =? 32) then fail (ThresholdError "bitcoin sighash must be exactly 32 bytes")
  else
    day_epoch ← open_signing env session_id;
    sig ← on_net (sign_raw_quorum env 0 sighash32);
    sig_bytes ← lift (frost_call "sig serialize: {}" [] (sig_serialize sig));
    snap ← lift (tr_snapshot (o_shares o));
    mret (mk_sighash_signature session_id (day_str day_epoch) (hex_encode sig_bytes) (ts_min_signers snap) tr_scheme).

Definition set_tap_key_sig (b : bytes) (p : PsbtIn) : PsbtIn :=
  {| prev_vout := prev_vout p; sequence := sequence p; witness_utxo := witness_utxo p;
     non_witness_utxo := non_witness_utxo p; tap_key_sig := Some b |}.

(** An unsigned Taproot input locked to the deposit key. *)
Definition ours (our_output : XOnly) (p : PsbtIn) : bool :=
  match witness_utxo p with
  | Some utxo => is_p2tr (out_script utxo) && bool_decide (out_script utxo = p2tr_script our_output)
                 && bool_decide (tap_key_sig p = None)
  | None => false
  end.

Fixpoint sign_inputs (env : SignEnv) (our_output : XOnly) (psbt : Psbt) (prevouts : list TxOut) (idx : nat)
    (ins : list PsbtIn) : dcmd M (list PsbtIn * list InputSignature) :=
  match ins with
  | [] => mret ([], [])
  | p :: rest =>
      if ours our_output p then
        sighash ← lift (frost_call "taproot sighash: {}" [] (taproot_sighash psbt idx prevouts));
        frost_sig ← sign_raw_quorum env idx sighash;
        sig_bytes ← lift (frost_call "sig serialize: {}" [] (sig_serialize frost_sig));
        schnorr ← lift (frost_call "schnorr decode: {}" [] (schnorr_from_slice sig_bytes));
        r ← sign_inputs env our_output psbt prevouts (S idx) rest;
        mret (set_tap_key_sig schnorr p :: r.1,
              mk_input_signature idx (hex_encode sighash) (hex_encode sig_bytes) :: r.2)
      else
        r ← sign_inputs env our_output psbt prevouts (S idx) rest;
        mret (p :: r.1, r.2)
  end.

Definition sign_psbt (env : SignEnv) (session_id psbt_b64 destination : string) (amount_sats : N) :
    dcmd SignNode SignedPsbtResult :=
  day_epoch ← open_signing env session_id;
  psbt ← lift (frost_call "invalid psbt: {}" [] (psbt_parse (trim psbt_b64)));
  if bool_decide (psbt_ins psbt = []) then fail (ThresholdError "psbt has no inputs")
  else
    _ ← lift (psbt_validate (o_psbt_policy o) psbt);
    snap ← lift (tr_snapshot (o_shares o));
    our_output ← lift (our_output_key snap);
    payment_spk ← lift (destination_script_pubkey (o_network o) destination);
    let outs := map (λ o, (out_script o, value o)) (psbt_outs psbt) in
    _ ← lift (assert_outputs_match_intent payment_spk amount_sats (Some (p2tr_script our_output)) outs);
    prevouts ← lift (collect_prevouts 0 (psbt_ins psbt));
    r ← on_net (sign_inputs env our_output psbt prevouts 0 (psbt_ins psbt));
    if bool_decide (r.2 = []) then fail (ThresholdError "no Taproot key-path inputs matched mesh deposit key")
    else
      let signed := {| psbt_ins := r.1; psbt_outs := psbt_outs psbt; lock_time := lock_time psbt |} in
      mret (mk_signed_psbt session_id (day_str day_epoch) (psbt_text signed) r.2 (ts_min_signers snap) tr_scheme).

Definition sign_financial_quorum_proof (rng : Rng) (proposal_hash : bytes) : dcmd M FinancialQuorumProof :=
  if o_allow_local_multisign o then
    fail (ThresholdError "financial quorum proof requires distributed_wire; dealer_lab is forbidden")
  else
    snap ← lift (tr_snapshot (o_shares o));
    if negb (o_cosign o) then fail (ThresholdError "financial quorum proof requires TR wire co-sign transport")
    else
      attributed ← sign_raw_wire_attributed (o_shares o) rng (o_local_node_id o)
        (format "financial-quorum-{}" [hex_encode proposal_hash]) proposal_hash;
      let pk := pk_signing (ts_pubkey_package snap) in
      signature ← lift (frost_call "signature serialize: {}" [] (sig_serialize (aw_signature attributed)));
      vk ← lift (frost_call "verifying key serialize: {}" [] (vk_serialize (verifying_key pk)));
      mret (mk_quorum_proof (hex_encode signature) (hex_encode vk) (aw_participant_node_ids attributed)
              (ts_min_signers snap)).

(* ------------------------------------------------------------------ *)
(** ** What a signature is for *)

Definition verifies (snap : FrostTrShareState) (message : bytes) (sg : Signature) : Prop :=
  vk_verify (verifying_key (pk_signing (ts_pubkey_package snap))) message sg = Ok tt.

Lemma sign_raw_quorum_verifies env k message m m' sg : sign_raw_quorum env k message m = (m', Ok sg) →
  ∃ snap, o_shares o = Some snap ∧ verifies snap message sg ∧
    (o_allow_local_multisign o = false → size (key_packages snap) = 1%nat).
Proof.
  unfold sign_raw_quorum, verifies. unfold_monad. intros H.
  destruct (tr_snapshot (o_shares o)) as [snap|] eqn:Hs; [|done]. unfold tr_snapshot, snapshot in Hs.
  rewrite ok_or_ok in Hs. exists snap. split; [done|]. destruct (o_allow_local_multisign o) eqn:Hl; simpl in H.
  - split; [|done]. injection H as <- H. unfold sign_local in H. rewrite guard_ok in H. destruct H as [_ H].
    apply bind_ok in H as (shares & _ & H). apply bind_ok in H as (sg' & _ & H).
    apply bind_ok in H as ([] & Hv & [= <-]). by apply frost_call_ok in Hv.
  - case_match; [done|]. case_match; [done|]. unfold sign_raw_wire in H. unfold_monad.
    destruct (sign_raw_wire_attributed _ _ _ _ _ _) as [m1 [a|]] eqn:Hw; [|done]. simplify_eq.
    apply wire_signature_verifies in Hw as (snap' & Hs' & Hsz & Hv). rewrite Hs in Hs'. by simplify_eq.
Qed.

(** Input [idx] of the result: untouched, or ours and given a signature of its own sighash
    that verifies under the group key. *)
Definition signed_input (snap : FrostTrShareState) (our_output : XOnly) (psbt : Psbt) (prevouts : list TxOut)
    (idx : nat) (p p' : PsbtIn) : Prop :=
  p' = p ∧ ours our_output p = false
  ∨ ours our_output p = true ∧ ∃ sighash sg b schnorr, taproot_sighash psbt idx prevouts = Ok sighash ∧
      verifies snap sighash sg ∧ sig_serialize sg = Ok b ∧ schnorr_from_slice b = Ok schnorr ∧
      p' = set_tap_key_sig schnorr p.

Fixpoint signed_inputs (snap : FrostTrShareState) (our_output : XOnly) (psbt : Psbt) (prevouts : list TxOut) (idx : nat)
    (ins ins' : list PsbtIn) : Prop :=
  match ins, ins' with
  | [], [] => True
  | p :: r, p' :: r' =>
      signed_input snap our_output psbt prevouts idx p p' ∧ signed_inputs snap our_output psbt prevouts (S idx) r r'
  | _, _ => False
  end.

Lemma sign_inputs_ok env our_output psbt prevouts snap : o_shares o = Some snap → ∀ ins idx m m' r,
  sign_inputs env our_output psbt prevouts idx ins m = (m', Ok r) →
  signed_inputs snap our_output psbt prevouts idx ins r.1 ∧ len r.2 = len (filter (λ p, ours our_output p = true) ins).
Proof.
  intros Hs. induction ins as [|p ins IH]; intros idx m m' r; simpl; unfold_monad; [by intros [= _ <-]|].
  rewrite filter_cons. destruct (ours our_output p) eqn:Ho.
  - rewrite decide_True by done. intros H.
    destruct (frost_call _ _ (taproot_sighash _ _ _)) as [h|] eqn:Hh; [|done].
    destruct (sign_raw_quorum env idx h m) as [m1 [sg|]] eqn:Hq; [|done].
    destruct (frost_call _ _ (sig_serialize sg)) as [b|] eqn:Hb; [|done].
    destruct (frost_call _ _ (schnorr_from_slice b)) as [sc|] eqn:Hsc; [|done].
    destruct (sign_inputs env our_output psbt prevouts (S idx) ins m1) as [m2 [[i s]|]] eqn:Hr; [|done].
    simplify_eq/=. apply IH in Hr as [Hr Hl]. simpl in *. rewrite !len_cons, Hl. split; [|done]. split; [|done].
    apply sign_raw_quorum_verifies in Hq as (snap' & Hs' & Hv & _). rewrite Hs in Hs'. simplify_eq.
    apply frost_call_ok in Hh, Hb, Hsc. right. split; [done|]. by exists h, sg, b, sc.
  - rewrite decide_False by done. intros H.
    destruct (sign_inputs env our_output psbt prevouts (S idx) ins m) as [m2 [[i s]|]] eqn:Hr; [|done].
    simplify_eq/=. apply IH in Hr as [Hr Hl]. simpl in *. split; [|done]. split; [|done]. by left.
Qed.

Lemma open_signing_claims `{!AntiNoncePortSpec AEnv A} env sid s s' d : open_signing env sid s = (s', Ok d) →
  ¬ anp_used (sg_anti s) sid ∧ anp_used (sg_anti s') sid ∧ sg_net s' = sg_net s.
Proof.
  unfold open_signing, on_anti, on_rotation. unfold_monad. intros H.
  destruct (anp_claim_session _ _ _) as [a [[]|]] eqn:Ha; [|done]. simpl in H. apply anps_claim in Ha as [H1 H2].
  destruct (current_day_epoch _ _) as [r1 [d1|]]; [|done]. simpl in H.
  destruct (require_epoch _ _ _) as [r2 [[]|]]; [|done]. by simplify_eq.
Qed.

Definition psbt_with_inputs (psbt : Psbt) (ins : list PsbtIn) : Psbt :=
  {| psbt_ins := ins; psbt_outs := psbt_outs psbt; lock_time := lock_time psbt |}.

(** What a successful call went through. *)
Lemma sign_psbt_inv env sid psbt_b64 dest amount s s' r : sign_psbt env sid psbt_b64 dest amount s = (s', Ok r) →
  ∃ s1 d psbt snap our_output spk prevouts m' ins sigs,
    open_signing env sid s = (s1, Ok d) ∧ psbt_parse (trim psbt_b64) = Ok psbt ∧
    psbt_validate (o_psbt_policy o) psbt = Ok tt ∧ o_shares o = Some snap ∧ our_output_key snap = Ok our_output ∧
    destination_script_pubkey (o_network o) dest = Ok spk ∧
    assert_outputs_match_intent spk amount (Some (p2tr_script our_output))
      (map (λ o, (out_script o, value o)) (psbt_outs psbt)) = Ok tt ∧
    collect_prevouts 0 (psbt_ins psbt) = Ok prevouts ∧
    sign_inputs env our_output psbt prevouts 0 (psbt_ins psbt) (sg_net s1) = (m', Ok (ins, sigs)) ∧ sigs ≠ [] ∧
    sg_anti s' = sg_anti s1 ∧ sp_signed_psbt r = psbt_text (psbt_with_inputs psbt ins).
Proof.
  unfold sign_psbt. unfold mbind, cmd_bind, lift, fail, mret, cmd_ret, on_net, zoom. intros H.
  destruct (open_signing env sid s) as [s1 [d|]] eqn:Hopen; [|done].
  destruct (frost_call _ _ (psbt_parse _)) as [psbt|] eqn:Hp; [|done]. apply frost_call_ok in Hp.
  case_bool_decide as Hins; [done|].
  destruct (psbt_validate _ psbt) as [[]|] eqn:Hval; [|done].
  destruct (tr_snapshot (o_shares o)) as [snap|] eqn:Hs; [|done]. unfold tr_snapshot, snapshot in Hs. rewrite ok_or_ok in Hs.
  destruct (our_output_key snap) as [our_output|] eqn:Hour; [|done].
  destruct (destination_script_pubkey _ dest) as [spk|] eqn:Hspk; [|done].
  destruct (assert_outputs_match_intent _ _ _ _) as [[]|] eqn:Hout; [|done].
  destruct (collect_prevouts 0 _) as [prevouts|] eqn:Hprev; [|done].
  destruct (sign_inputs _ _ _ _ _ _ _) as [m1 [[ins sigs]|]] eqn:Hsig; [|done]. cbn [fst snd] in H.
  case_bool_decide as Hne; [done|]. simplify_eq. by repeat eexists.
Qed.
(** The outputs the code accepted. *)
Lemma outputs_pay spk amount our_output psbt :
  assert_outputs_match_intent spk amount (Some (p2tr_script our_output))
    (map (λ o, (out_script o, value o)) (psbt_outs psbt)) = Ok tt →
  0 < amount ∧ payments spk (outs_of psbt) = [(spk, amount)] ∧
  ∀ out, out ∈ psbt_outs psbt → out_script out = spk ∨ out_script out = p2tr_script our_output.
Proof.
  intros (Ha & Hpay & Hall)%assert_outputs_sound. split; [done|]. split; [done|]. intros out Ho.
  destruct (Hall (out_script out, value out)) as [?|[= ?]]; [|by left|by right].
  apply list_elem_of_In, in_map_iff. exists out. split; [done|]. by apply list_elem_of_In.
Qed.

(** C1 A signed PSBT pays its intent: when [sign_psbt] succeeds, the session id was unused and is
    used from now on; the transaction pays the destination's script exactly once and exactly the
    amount, every other output goes back to the deposit key, and inputs exceed outputs by at most
    the policy's fee cap; the result is that transaction, at least one input having got a
    signature, each of which verifies under the group key for that input's own sighash, and
    inputs of other keys or already signed are left as they were. *)
Theorem signed_psbt_pays_intent `{!AntiNoncePortSpec AEnv A} env sid psbt_b64 dest amount s s' r :
  sign_psbt env sid psbt_b64 dest amount s = (s', Ok r) →
  ∃ snap our_output psbt spk prevouts ins,
    o_shares o = Some snap ∧ our_output_key snap = Ok our_output ∧ psbt_parse (trim psbt_b64) = Ok psbt ∧
    destination_script_pubkey (o_network o) dest = Ok spk ∧ collect_prevouts 0 (psbt_ins psbt) = Ok prevouts ∧
    (0 < amount ∧ payments spk (outs_of psbt) = [(spk, amount)] ∧
     ∀ out, out ∈ psbt_outs psbt → out_script out = spk ∨ out_script out = p2tr_script our_output) ∧
    (inputs_total psbt ≤ u64_max → outputs_total psbt ≤ u64_max →
     outputs_total psbt ≤ inputs_total psbt ≤ outputs_total psbt + max_fee_sats (o_psbt_policy o)) ∧
    signed_inputs snap our_output psbt prevouts 0 (psbt_ins psbt) ins ∧
    sp_signed_psbt r = psbt_text (psbt_with_inputs psbt ins) ∧
    0 < len (filter (λ p, ours our_output p = true) (psbt_ins psbt)) ∧
    ¬ anp_used (sg_anti s) sid ∧ anp_used (sg_anti s') sid.
Proof.
  intros (s1 & d & psbt & snap & our & spk & prevouts & m1 & ins & sigs & Hopen & Hp & Hval & Hs & Hour & Hspk & Hout & Hprev &
    Hsig & Hne & Hanti & Ht)%sign_psbt_inv.
  apply open_signing_claims in Hopen as (Hu & Hu' & _). apply (sign_inputs_ok _ _ _ _ snap Hs) in Hsig as [Hsi Hlen].
  cbn [fst snd] in *. exists snap, our, psbt, spk, prevouts, ins. do 5 (split; [done|]). split; [by apply outputs_pay|].
  split; [intros; by apply psbt_validate_fee|]. split; [done|]. split; [done|]. split; [|by rewrite Hanti].
  rewrite <- Hlen. destruct sigs; [done|]. rewrite len_cons. lia.
Qed.

(* ------------------------------------------------------------------ *)
(** ** One signature per session *)

Inductive sign_call :=
| CallSignPsbt (env : SignEnv) (sid psbt_b64 dest : string) (amount : N)
| CallSignSighash (env : SignEnv) (sid : string) (sighash : bytes)
| CallPrepare (env : AEnv) (sid : string)   (** a peer's prepare *)
| CallVote (r : Rotation)                   (** whatever happens to the day ledger *)
| CallPeers (m : M).                        (** and to the peers *)

Definition sign_exec (c : sign_call) (s : SignNode) : SignNode * option string :=
  match c with
  | CallSignPsbt env sid b64 dest amount =>
      let '(s', r) := sign_psbt env sid b64 dest amount s in (s', if is_ok r then Some sid else None)
  | CallSignSighash env sid h => let '(s', r) := sign_sighash env sid h s in (s', if is_ok r then Some sid else None)
  | CallPrepare env sid => ((on_anti (anp_prepare_remote env sid) s).1, None)
  | CallVote r => (mk_sign_node (sg_anti s) r (sg_net s), None)
  | CallPeers m => (mk_sign_node (sg_anti s) (sg_rotation s) m, None)
  end.
(** The session ids of the calls that signed. *)
Fixpoint sign_run (l : list sign_call) (s : SignNode) : SignNode * list string :=
  match l with
  | [] => (s, [])
  | c :: rest =>
      let '(s1, won) := sign_exec c s in
      let '(s2, ids) := sign_run rest s1 in
      (s2, match won with Some id => id :: ids | None => ids end)
  end.

Lemma sign_psbt_anti env sid b64 dest amount s :
  sg_anti (sign_psbt env sid b64 dest amount s).1 = sg_anti (open_signing env sid s).1 ∧
  (is_ok (sign_psbt env sid b64 dest amount s).2 = true → is_ok (open_signing env sid s).2 = true).
Proof.
  unfold sign_psbt. unfold mbind, cmd_bind, lift, fail, mret, cmd_ret, on_net, zoom.
  destruct (open_signing env sid s) as [s1 [d|]]; [|done]. repeat case_match; simplify_eq/=; done.
Qed.
Lemma sign_sighash_anti env sid h s :
  (sign_sighash env sid h s).1 = s ∧ is_ok (sign_sighash env sid h s).2 = false ∨
  sg_anti (sign_sighash env sid h s).1 = sg_anti (open_signing env sid s).1 ∧
  (is_ok (sign_sighash env sid h s).2 = true → is_ok (open_signing env sid s).2 = true).
Proof.
  unfold sign_sighash. case_match; [by left|]. right. unfold mbind, cmd_bind, lift, fail, mret, cmd_ret, on_net, zoom.
  destruct (open_signing env sid s) as [s1 [d|]]; [|done]. repeat case_match; simplify_eq/=; done.
Qed.

Lemma open_signing_keeps `{!AntiNoncePortSpec AEnv A} env sid s i :
  anp_used (sg_anti s) i → anp_used (sg_anti (open_signing env sid s).1) i.
Proof.
  intros Hi. apply (anps_keep_claim (se_anti env) sid) in Hi. unfold open_signing, on_anti, on_rotation. unfold_monad.
  destruct (anp_claim_session _ _ _) as [a [[]|]]; simpl; [|done].
  destruct (current_day_epoch _ _) as [r1 [d1|]]; simpl; [|done]. by destruct (require_epoch _ _ _) as [r2 [[]|]].
Qed.

Lemma sign_exec_used `{!AntiNoncePortSpec AEnv A} c s s' won : sign_exec c s = (s', won) →
  (∀ i, anp_used (sg_anti s) i → anp_used (sg_anti s') i) ∧
  ∀ id, won = Some id → ¬ anp_used (sg_anti s) id ∧ anp_used (sg_anti s') id.
Proof.
  assert (∀ env sid id, is_ok (open_signing env sid s).2 = true → sid = id →
    ¬ anp_used (sg_anti s) id ∧ anp_used (sg_anti (open_signing env sid s).1) id) as Hwin.
  { intros env sid id Hok <-. destruct (open_signing env sid s) as [s1 [d|]] eqn:Ho; [|done].
    apply open_signing_claims in Ho. tauto. }
  destruct c as [env sid b64 dest amount|env sid h|env sid|r|m]; simpl.
  - destruct (sign_psbt_anti env sid b64 dest amount s) as [Ha Hok].
    destruct (sign_psbt env sid b64 dest amount s) as [s1 r]. intros [= <- <-]. simpl in *. rewrite Ha.
    split; [intros; by apply open_signing_keeps|]. intros id. destruct (is_ok r); [|done]. intros [= <-]. auto.
  - destruct (sign_sighash_anti env sid h s) as [[Ha Hok]|[Ha Hok]];
      destruct (sign_sighash env sid h s) as [s1 r]; intros [= <- <-]; simpl in *.
    + rewrite Hok, Ha. done.
    + rewrite Ha. split; [intros; by apply open_signing_keeps|]. intros id. destruct (is_ok r); [|done]. intros [= <-]. auto.
  - intros [= <- <-]. split; [|done]. intros i Hi. unfold on_anti, zoom.
    apply (anps_keep_prepare env sid) in Hi. by destruct (anp_prepare_remote env sid (sg_anti s)).
  - by intros [= <- <-].
  - by intros [= <- <-].
Qed.

(** C22 A session id signs at most once: along any sequence of signing calls of both kinds, with
    the session prepares of peers, votes and peer changes in between, the session ids of the calls
    that succeed are distinct, and none was used before. *)
Theorem session_signs_once `{!AntiNoncePortSpec AEnv A} l s s' ids : sign_run l s = (s', ids) →
  NoDup ids ∧ ∀ id, id ∈ ids → ¬ anp_used (sg_anti s) id.
Proof.
  revert s s' ids. induction l as [|c l IH]; intros s s' ids; simpl.
  { intros [= <- <-]. split; [apply NoDup_nil_2|]. intros id Hid. by apply elem_of_nil in Hid. }
  destruct (sign_exec c s) as [s1 won] eqn:Hc. destruct (sign_run l s1) as [s2 rest] eqn:Hr. intros [= <- <-].
  apply sign_exec_used in Hc as [Hkeep Hwon]. destruct (IH _ _ _ Hr) as [Hnd Hfresh].
  assert (∀ id, id ∈ rest → ¬ anp_used (sg_anti s) id) as Hrest.
  { intros id Hid Hu. by apply (Hfresh id Hid), Hkeep. }
  destruct won as [id|]; [|done]. destruct (Hwon id eq_refl) as [Hn Hu]. split.
  - apply NoDup_cons. split; [|done]. intros Hid. by apply (Hfresh id).
  - intros i [->|Hi]%elem_of_cons; [done|]. by apply Hrest.
Qed.
End sign.
