(* ===== verification/DkgLocal.v ===== *)
(** * Key generation and signing in one process ([adapters/dkg_distributed.rs],
    [adapters/frost_dealer.rs], [adapters/frost_sign.rs] and the dealer of
    [adapters/frost_tr_bitcoin.rs])

    The laboratory forms: a whole ceremony of the [frost-secp256k1] rounds run among
    logical participants, the trusted dealer, and the orchestrator that signs for the
    off-chain proofs with shares held by one node. *)
From S2P Require Import Prelude RustStr Errors PersistedLedger DayEpoch DailyRotation AntiNonce Frost HybridEnvelope WireDkg.
From S2P Require Import FrostShares ShareReshare FrostSign Cosign TrSign.
Local Open Scope N_scope.

(* ------------------------------------------------------------------ *)
(** ** [DistributedDkgAdapter] *)

Section distributed.
Context `{FR : Frost, HX : HexCodec}.

Record FrostDistributedBundle := mk_bundle {
  fb_key_packages : gmap Identifier KeyPackage;
  fb_pubkey_package : PublicKeyPackage;
  fb_max_signers : N;
  fb_min_signers : N;
}.
Definition refuse_dealer_attempt : res unit :=
  Err (DealerForbidden "distributed DKG only; dealer single-process is lab-only (ToB 2024)").

Fixpoint dkg_identifiers (l : list N) : res (list Identifier) :=
  match l with
  | [] => Ok []
  | i :: r => id ← frost_call "frost identifier {}: {}" [show i] (id_try_from i); ids ← dkg_identifiers r; Ok (id :: ids)
  end.

(** Round 1: everyone's secret and broadcast package. *)
Fixpoint dkg_round1 (max min : N) (rngs : Identifier → Rng) (ids : list Identifier)
    (acc : gmap Identifier (Round1Secret * Round1Package)) : res (gmap Identifier (Round1Secret * Round1Package)) :=
  match ids with
  | [] => Ok acc
  | id :: r =>
      sp ← frost_call "frost dkg part1: {}" [] (part1 id max min (rngs id));
      dkg_round1 max min rngs r (<[id := sp]> acc)
  end.

(** Round 2: everyone consumes the others' packages; the inboxes are keyed by receiver. *)
Fixpoint dkg_round2 (round1_packages : gmap Identifier Round1Package) (ids : list Identifier)
    (secrets : gmap Identifier Round1Secret)
    (acc : gmap Identifier Round2Secret * gmap Identifier (gmap Identifier Round2Package)) :
    res (gmap Identifier Round2Secret * gmap Identifier (gmap Identifier Round2Package)) :=
  match ids with
  | [] => Ok acc
  | id :: r =>
      let received := delete id round1_packages in
      secret ← ok_or (secrets !! id) (ThresholdError "missing round1 secret");
      out ← frost_call "frost dkg part2: {}" [] (part2 secret received);
      dkg_round2 round1_packages r (delete id secrets) (<[id := out.1]> acc.1, deliver id out.2 acc.2)
  end.

(** The threshold and size asked for, and one group key for all. *)
Definition keeps_constitution (max min : N) (agreed : option PublicKeyPackage) (kp : KeyPackage) (pk : PublicKeyPackage) :
    res PublicKeyPackage :=
  if negb (kp_min_signers kp =? min) then
    Err (ThresholdError (format "DKG threshold mismatch (ToB): key_package.min_signers={} expected={}"
      [show (kp_min_signers kp); show min]))
  else if match pk_min_signers pk with Some m => negb (m =? min) | None => false end then
    Err (ThresholdError (format "DKG threshold mismatch (ToB): pubkey.min_signers={} expected={}"
      [show (default 0 (pk_min_signers pk)); show min]))
  else if negb (pk_max_signers pk =? max) then
    Err (ThresholdError (format "DKG n mismatch: pubkey.max_signers={} expected={}" [show (pk_max_signers pk); show max]))
  else
    match agreed with
    | Some existing =>
        if negb (bool_decide (verifying_key existing = verifying_key pk)) then
          Err (ThresholdError "DKG participants disagree on group verifying key")
        else Ok existing
    | None => Ok pk
    end.
Fixpoint dkg_round3 (max min : N) (round1_packages : gmap Identifier Round1Package)
    (round2 : gmap Identifier Round2Secret * gmap Identifier (gmap Identifier Round2Package))
    (ids : list Identifier) (acc : gmap Identifier KeyPackage * option PublicKeyPackage) :
    res (gmap Identifier KeyPackage * option PublicKeyPackage) :=
  match ids with
  | [] => Ok acc
  | id :: r =>
      let r1_received := delete id round1_packages in
      r2_received ← ok_or (round2.2 !! id) (ThresholdError (format "missing round2 inbox for {}" [id_debug id]));
      r2_secret ← ok_or (round2.1 !! id) (ThresholdError "missing round2 secret");
      keys ← frost_call "frost dkg part3: {}" [] (part3 r2_secret r1_received r2_received);
      agreed ← keeps_constitution max min acc.2 keys.1 keys.2;
      dkg_round3 max min round1_packages round2 r (<[id := keys.1]> acc.1, Some agreed)
  end.

(** [1..=max]. *)
Definition upto (max : N) : list N := N.of_nat <$> seq 1 (N.to_nat max).
Definition run_in_process (rngs : Identifier → Rng) (max_signers min_signers : N) : res FrostDistributedBundle :=
  if (max_signers <? 2) || (min_signers <? 2) || (max_signers <? min_signers) then
    Err (ThresholdError (format "bad frost DKG params: max={} min={}" [show max_signers; show min_signers]))
  else
    identifiers ← dkg_identifiers (upto max_signers);
    round1 ← dkg_round1 max_signers min_signers rngs identifiers ∅;
    let round1_packages := snd <$> round1 in
    round2 ← dkg_round2 round1_packages identifiers (fst <$> round1) (∅, ∅);
    keys ← dkg_round3 max_signers min_signers round1_packages round2 identifiers (∅, None);
    pk ← ok_or keys.2 (ThresholdError "empty DKG result");
    Ok (mk_bundle keys.1 pk max_signers min_signers).

Section persist.
Context {T : Type} `{ST : !ShareStore T}.
Definition dkg_share_id (id : Identifier) : string := format "frost-dkg-id-{}" [hex_encode (id_serialize id)].
Fixpoint put_dkg_packages (l : list (Identifier * KeyPackage)) : dcmd T unit :=
  match l with
  | [] => mret tt
  | (id, kp) :: r =>
      b ← lift (frost_call "key package serialize: {}" [] (kp_serialize kp));
      _ ← put_share (dkg_share_id id) b;
      put_dkg_packages r
  end.
Definition persist_dkg_shares (bundle : FrostDistributedBundle) : dcmd T unit :=
  _ ← put_dkg_packages (id_iter (fb_key_packages bundle));
  pk_bytes ← lift (frost_call "pubkey package serialize: {}" [] (pk_serialize (fb_pubkey_package bundle)));
  put_share "frost-dkg-pubkey" pk_bytes.
End persist.
End distributed.

(* ------------------------------------------------------------------ *)
(** ** The trusted dealer (feature [dealer_lab]) *)

(** [keys::generate_with_dealer] over the default identifiers, and [KeyPackage::try_from]. *)
Class FrostDealer `{!Frost} := {
  SecretShare : Type;
  generate_with_dealer : N → N → Rng → result string (gmap Identifier SecretShare * PublicKeyPackage);
  kp_try_from : SecretShare → result string KeyPackage;
}.

Section dealer.
Context `{FR : Frost, FD : !FrostDealer}.

Record FrostDealerBundle := mk_dealer_bundle {
  db_shares : gmap Identifier SecretShare;
  db_pubkey_package : PublicKeyPackage;
  db_key_packages : gmap Identifier KeyPackage;
  db_max_signers : N;
  db_min_signers : N;
}.
Fixpoint dealt_packages (t : string) (form : KeyPackage → KeyPackage) (l : list (Identifier * SecretShare))
    (acc : gmap Identifier KeyPackage) : res (gmap Identifier KeyPackage) :=
  match l with
  | [] => Ok acc
  | (id, share) :: r => kp ← frost_call t [] (kp_try_from share); dealt_packages t form r (<[id := form kp]> acc)
  end.
Definition dealer_generate (rng : Rng) (max_signers min_signers : N) : res FrostDealerBundle :=
  out ← frost_call "frost dealer: {}" [] (generate_with_dealer max_signers min_signers rng);
  kps ← dealt_packages "key package: {}" (λ kp, kp) (id_iter out.1) ∅;
  Ok (mk_dealer_bundle out.1 out.2 kps max_signers min_signers).
(** The Taproot crate's, its packages brought to even Y. *)
Definition generate_tr_dealer `{EY : !EvenY} (rng : Rng) (max_signers min_signers : N) : res FrostTrShareState :=
  out ← frost_call "frost-tr dealer: {}" [] (generate_with_dealer max_signers min_signers rng);
  kps ← dealt_packages "tr key package: {}" kp_even_y (id_iter out.1) ∅;
  Ok (mk_share_state kps (pk_even_y out.2) min_signers).
End dealer.

(** The Taproot crate's refresh: the rounds of [ShareReshare.refresh_shares_in_process] at its texts. *)
Definition refresh_tr_shares_in_process `{FR : Frost, RF : !FrostRefresh FR} :
    (Identifier → Rng) → gmap Identifier KeyPackage → PublicKeyPackage → res (gmap Identifier KeyPackage * PublicKeyPackage) :=
  refresh_shares_in_process tr_suite.

(** The ports' names. *)
Inductive DkgAdapter := DealerLabAdapter | DistributedDkgAdapter | DistributedWireDkgPort.
Definition dkg_mode_name (d : DkgAdapter) : string :=
  match d with
  | DealerLabAdapter => "dealer_lab" | DistributedDkgAdapter => "distributed" | DistributedWireDkgPort => "distributed_wire"
  end.
Definition is_dealer (d : DkgAdapter) : bool := match d with DealerLabAdapter => true | _ => false end.

(* ------------------------------------------------------------------ *)
(** ** [FrostSignOrchestrator] *)

Definition bind_message (message : bytes) (session_id day_epoch : string) : bytes :=
  bytes_of "kerosene-frost-v1|" ++ bytes_of day_epoch ++ ["|"%char] ++ bytes_of session_id ++ ["|"%char] ++ message.

Record FrostAggregateResult := mk_aggregate {
  fa_session_id : string; fa_day_epoch : string; fa_signature_hex : string; fa_participants : N }.
Definition aggregate_json (r : FrostAggregateResult) : string :=
  format (q "{{`session_id`:`{}`,`day_epoch`:`{}`,`signature`:`{}`,`participants`:{},`scheme`:`frost-secp256k1-v3`}}")
    [fa_session_id r; fa_day_epoch r; fa_signature_hex r; show (fa_participants r)].

Section sign.
Context `{FR : Frost, SG : !FrostSign, HX : HexCodec}.
Context {AEnv A : Type} `{AP : !AntiNoncePort AEnv A}.

(** The shared slot is read at each call; the session ledger and the day ledger change. *)
Record FrostSignNode := mk_frost_node { fs_shares : option FrostTrShareState; fs_anti : A; fs_rotation : Rotation }.
Definition on_fs_anti {B} : dcmd A B → dcmd FrostSignNode B :=
  zoom fs_anti (λ a s, mk_frost_node (fs_shares s) a (fs_rotation s)).
Definition on_fs_rotation {B} : dcmd Rotation B → dcmd FrostSignNode B :=
  zoom fs_rotation (λ r s, mk_frost_node (fs_shares s) (fs_anti s) r).

Fixpoint quorum_round1 (rng : Identifier → Rng) (l : list (Identifier * KeyPackage))
    (m : gmap Identifier (SigningNonces * SigningCommitments)) : gmap Identifier (SigningNonces * SigningCommitments) :=
  match l with
  | [] => m
  | (id, kp) :: rest => quorum_round1 rng rest (<[id := round1_commit kp (rng id)]> m)
  end.
(** The indexing [key_packages[&id]] is of an id just taken from it. *)
Fixpoint quorum_round2 (kps : gmap Identifier KeyPackage) (package : SigningPackage)
    (l : list (Identifier * (SigningNonces * SigningCommitments))) (m : gmap Identifier SignatureShare) :
    res (gmap Identifier SignatureShare) :=
  match l with
  | [] => Ok m
  | (id, nc) :: rest =>
      match kps !! id with
      | Some kp =>
          share ← frost_call "frost round2: {}" [] (round2_sign package nc.1 kp);
          quorum_round2 kps package rest (<[id := share]> m)
      | None => Err (ThresholdError "missing key package")
      end
  end.

(** [sign_lab_quorum]: [now], [now'] are the clock's readings. *)
Definition sign_lab_quorum (env : AEnv) (now now' : N) (rng : Identifier → Rng) (session_id : string) (message : bytes) :
    dcmd FrostSignNode FrostAggregateResult :=
  _ ← on_fs_anti (anp_claim_session env session_id);
  day_epoch ← on_fs_rotation (current_day_epoch now);
  _ ← on_fs_rotation (require_epoch now' day_epoch);
  let bound_message := bind_message message session_id (day_str day_epoch) in
  s ← get;
  snap ← lift (snapshot "FROST material not installed" (fs_shares s));
  let identifiers := id_iter (key_packages snap) in
  if len identifiers <? ts_min_signers snap then fail (FailStop (len identifiers) (ts_min_signers snap))
  else
    let own := quorum_round1 rng (take (N.to_nat (ts_min_signers snap)) identifiers) ∅ in
    let package := sp_new (snd <$> own) bound_message in
    shares ← lift (quorum_round2 (key_packages snap) package (id_iter own) ∅);
    signature ← lift (frost_call "frost aggregate: {}" [] (aggregate package shares (ts_pubkey_package snap)));
    _ ← lift (frost_call "frost verify: {}" [] (vk_verify (verifying_key (ts_pubkey_package snap)) bound_message signature));
    sig_bytes ← lift (frost_call "sig serialize: {}" [] (sig_serialize signature));
    mret (mk_aggregate session_id (day_str day_epoch) (hex_encode sig_bytes) (N.of_nat (size shares))).
End sign.

(* ------------------------------------------------------------------ *)
(** ** A bundle is the ceremony's *)

Section bundles.
Context `{FR : Frost, HX : HexCodec}.

Lemma keeps_constitution_ok max min agreed kp pk pk' : keeps_constitution max min agreed kp pk = Ok pk' →
  kp_min_signers kp = min ∧ (∀ m, pk_min_signers pk = Some m → m = min) ∧ pk_max_signers pk = max ∧
  verifying_key pk' = verifying_key pk ∧ (agreed = Some pk' ∨ agreed = None ∧ pk' = pk).
Proof.
  unfold keeps_constitution. rewrite !guard_ok. intros (H1 & H2 & H3 & H). nbool.
  split; [done|]. split; [intros m Hm; rewrite Hm in H2; by nbool|]. split; [done|].
  destruct agreed as [e|]; [|injection H as <-; by auto]. rewrite guard_ok in H. destruct H as [Hv [= <-]]. nbool. auto.
Qed.

(** What the packages and the public one of a bundle carry. *)
Definition bundle_of (max min : N) (kps : gmap Identifier KeyPackage) (agreed : option PublicKeyPackage) : Prop :=
  (∀ id kp, kps !! id = Some kp → kp_min_signers kp = min) ∧
  (∀ pk, agreed = Some pk → (∀ m, pk_min_signers pk = Some m → m = min) ∧ pk_max_signers pk = max).

Lemma dkg_round3_ok max min round1 round2 ids acc out : dkg_round3 max min round1 round2 ids acc = Ok out →
  bundle_of max min acc.1 acc.2 →
  bundle_of max min out.1 out.2 ∧ dom out.1 = list_to_set ids ∪ dom acc.1.
Proof.
  revert acc. induction ids as [|id ids IH]; intros acc H Hb.
  { injection H as <-. split; [done|]. set_solver. }
  cbn [dkg_round3] in H. apply bind_ok in H as (r2 & _ & H). apply bind_ok in H as (sec & _ & H).
  apply bind_ok in H as (keys & _ & H). apply bind_ok in H as (pk & Hk & H).
  apply keeps_constitution_ok in Hk as (Hm & Hpm & Hpx & _ & Ha). destruct Hb as [Hb1 Hb2].
  apply IH in H as [Hb Hd]; cbn [fst snd] in *.
  - split; [done|]. rewrite Hd, dom_insert_L. set_solver.
  - split.
    + intros i kp Hi. apply lookup_insert_Some in Hi as [[<- <-]|[_ Hi]]; [done|by eapply Hb1].
    + intros pk' [= <-]. destruct Ha as [Ha|[_ ->]]; [by apply Hb2|done].
Qed.

(** Whatever the rounds answer, a bundle keeps the constitution: the size and threshold asked
    for, in every package and in the group's. *)
Lemma bundle_keeps_constitution rngs max min b : run_in_process rngs max min = Ok b →
  2 ≤ min ≤ max ∧ fb_max_signers b = max ∧ fb_min_signers b = min ∧
  bundle_of max min (fb_key_packages b) (Some (fb_pubkey_package b)) ∧
  ∃ ids, dkg_identifiers (upto max) = Ok ids ∧ dom (fb_key_packages b) = list_to_set ids.
Proof.
  unfold run_in_process. rewrite guard_ok. intros [Hp H]. nbool.
  apply bind_ok in H as (ids & Hi & H). apply bind_ok in H as (r1 & _ & H). apply bind_ok in H as (r2 & _ & H).
  apply bind_ok in H as ([kps pk] & H3 & H). apply bind_ok in H as (pk' & Hpk & [= <-]). rewrite ok_or_ok in Hpk.
  cbn [fst snd] in *. subst pk. apply dkg_round3_ok in H3 as [Hb Hd].
  - split; [lia|]. split; [done|]. split; [done|]. split; [done|]. exists ids. split; [done|].
    simpl in Hd |- *. rewrite Hd, dom_empty_L. set_solver.
  - split; [|done]. intros i kp Hi'. cbn in Hi'. by rewrite lookup_empty in Hi'.
Qed.

(** Delivery to an inbox. *)
Lemma deliver_lookup id out inbox r :
  default ∅ (deliver id out inbox !! r) =
  match out !! r with Some p => <[id := p]> (default ∅ (inbox !! r)) | None => default ∅ (inbox !! r) end.
Proof.
  unfold deliver. transitivity (match (list_to_map (id_iter out) : gmap Identifier Round2Package) !! r with
    | Some p => <[id := p]> (default ∅ (inbox !! r)) | None => default ∅ (inbox !! r) end).
  2: { unfold id_iter. rewrite (list_to_map_proper _ (map_to_list out)), list_to_map_to_list; [done| |by apply merge_sort_Permutation].
       rewrite merge_sort_Permutation. apply NoDup_fst_map_to_list. }
  assert (NoDup (id_iter out).*1) as Hn.
  { unfold id_iter. rewrite merge_sort_Permutation. apply NoDup_fst_map_to_list. }
  revert inbox Hn. generalize (id_iter out). clear out. intros l. induction l as [|[k p] l IH]; intros inbox Hn; [done|].
  apply NoDup_cons in Hn as [Hk Hn]. cbn [foldl fst snd]. rewrite IH by done. cbn [list_to_map foldr fst snd uncurry].
  destruct (decide (r = k)) as [->|Hne].
  - rewrite lookup_insert, (not_elem_of_list_to_map_1 _ _ Hk), lookup_insert. by rewrite !decide_True by done.
  - rewrite !lookup_insert_ne by done. done.
Qed.
Lemma dkg_identifiers_ok `{FC : !FrostCodec} (l : list N) : NoDup l → (∀ i, i ∈ l → 0 < i ≤ u16_max) →
  ∃ ids, dkg_identifiers l = Ok ids ∧ NoDup ids ∧ length ids = length l ∧
    ∀ id, id ∈ ids → ∃ i, i ∈ l ∧ id_try_from i = Ok id.
Proof.
  induction l as [|i l IH]; intros Hn Hl; [exists []; by split_and!; [|constructor|..|intros ? ?%elem_of_nil]|].
  apply NoDup_cons in Hn as [Hi Hn]. destruct IH as (ids & He & Hnd & Hlen & Hids); [done|set_solver|].
  destruct (id_total i) as [id Hid]; [apply Hl; left|]. exists (id :: ids). cbn [dkg_identifiers].
  rewrite Hid, He. split_and!; [done| |simpl; lia|].
  - constructor; [|done]. intros (j & Hj & Hjd)%Hids. assert (i = j) as ->; [|done].
    eapply id_inj; [| |exact Hid|exact Hjd]; apply Hl; [left|by right].
  - intros id' [->|(j & Hj & ?)%Hids]%elem_of_cons; [by exists i; split; [left|]|by exists j; split; [right|]].
Qed.

End bundles.

Section complete.
Context `{FR : Frost, FC : !FrostCodec, FD : !FrostDkg}.

Lemma dkg_round1_ok max min rngs ids acc : 2 ≤ min ≤ max →
  ∃ own, dkg_round1 max min rngs ids acc = Ok own ∧ dom own = list_to_set ids ∪ dom acc ∧
  ((∀ i sp, acc !! i = Some sp → ∃ r, part1 i max min r = Ok sp) → ∀ i sp, own !! i = Some sp → ∃ r, part1 i max min r = Ok sp).
Proof.
  intros Hm. revert acc. induction ids as [|id ids IH]; intros acc; [exists acc; split_and!; [done|set_solver|done]|].
  cbn [dkg_round1]. destruct (part1_ok id max min (rngs id)) as [sp Hsp]; [lia|]. rewrite Hsp. cbn.
  destruct (IH (<[id := sp]> acc)) as (own & He & Hd & Ho). exists own. split_and!; [done| |].
  - rewrite Hd, dom_insert_L. set_solver.
  - intros Ha. apply Ho. intros i sp' [[<- <-]|[_ Hi]]%lookup_insert_Some; eauto.
Qed.


Context (own : gmap Identifier (Round1Secret * Round1Package))
  (outs : gmap Identifier (Round2Secret * gmap Identifier Round2Package)) (pk : PublicKeyPackage).
Context (Hdom : dom outs = dom own)
  (Hpart2 : ∀ i sp so, own !! i = Some sp → outs !! i = Some so →
     part2 sp.1 (delete i (snd <$> own)) = Ok so ∧ dom so.2 = dom own ∖ {[i]}).

(** After the participants of [done]: their secrets, and what they addressed to each. *)
Definition round2_after (d : gset Identifier)
    (acc : gmap Identifier Round2Secret * gmap Identifier (gmap Identifier Round2Package)) : Prop :=
  (∀ i, acc.1 !! i = if decide (i ∈ d) then fst <$> outs !! i else None) ∧
  (∀ r j, default ∅ (acc.2 !! r) !! j = if decide (j ∈ d) then so ← outs !! j; so.2 !! r else None).

Lemma dkg_round2_ok ids d secrets acc : NoDup ids → (∀ i, i ∈ ids → i ∈ dom own ∧ i ∉ d) →
  (∀ i, i ∈ ids → secrets !! i = fst <$> own !! i) → round2_after d acc →
  ∃ acc', dkg_round2 (snd <$> own) ids secrets acc = Ok acc' ∧ round2_after (list_to_set ids ∪ d) acc'.
Proof.
  revert d secrets acc. induction ids as [|id ids IH]; intros d secrets acc Hn Hids Hs [H1 H2].
  { exists acc. split; [done|]. replace (list_to_set [] ∪ d) with d by set_solver. done. }
  apply NoDup_cons in Hn as [Hid Hn]. cbn [dkg_round2].
  destruct (Hids id) as [[sp Hsp]%elem_of_dom Hnd]; [left|]. rewrite Hs, Hsp by left. cbn.
  assert (is_Some (outs !! id)) as [so Hso] by (apply elem_of_dom; rewrite Hdom; by eapply elem_of_dom_2).
  destruct (Hpart2 _ _ _ Hsp Hso) as [-> _]. cbn.
  destruct (IH ({[id]} ∪ d) (delete id secrets) (<[id := so.1]> acc.1, deliver id so.2 acc.2)) as (acc' & -> & Hr); [done| | | |].
  - intros i Hi. destruct (Hids i) as [? ?]; [by right|]. split; [done|]. set_solver.
  - intros i Hi. rewrite lookup_delete_ne by (intros ->; done). apply Hs. by right.
  - split; cbn [fst snd].
    + intros i. destruct (decide (i = id)) as [->|Hne].
      * rewrite lookup_insert, !decide_True by set_solver. by rewrite Hso.
      * rewrite lookup_insert_ne, H1 by done. apply decide_ext. set_solver.
    + intros r j. rewrite deliver_lookup. destruct (decide (j = id)) as [->|Hne].
      * rewrite (decide_True (P := id ∈ {[id]} ∪ d)) by set_solver. rewrite Hso. cbn. destruct (so.2 !! r) eqn:E.
        { by rewrite lookup_insert, decide_True. } { rewrite H2. by rewrite decide_False. }
      * transitivity (default ∅ (acc.2 !! r) !! j); [destruct (so.2 !! r); [by rewrite lookup_insert_ne|done]|].
        rewrite H2. apply decide_ext. set_solver.
  - exists acc'. split; [done|]. rewrite (assoc_L (∪)), (comm_L (∪) (list_to_set ids)) in Hr. exact Hr.
Qed.

Context (max min : N) (Hmin : 2 ≤ min) (Hmax : min ≤ max).
Context (Hpart3 : ∀ i so, outs !! i = Some so → ∃ kp,
    part3 so.1 (delete i (snd <$> own)) (inbox_of outs i) = Ok (kp, pk) ∧ kp_min_signers kp = min)
  (Hpk : pk_min_signers pk = Some min ∨ pk_min_signers pk = None) (Hsize : pk_max_signers pk = max)
  (Hown : N.of_nat (size own) = max).

Lemma round2_inbox i acc : round2_after (dom own) acc → i ∈ dom own → acc.2 !! i = Some (inbox_of outs i).
Proof.
  intros [_ H2] Hi. assert (default ∅ (acc.2 !! i) = inbox_of outs i) as He.
  { apply map_eq. intros j. rewrite H2. unfold inbox_of. rewrite lookup_omap. destruct (decide (j ∈ dom own)) as [|Hj]; [done|].
    rewrite <- Hdom in Hj. apply not_elem_of_dom in Hj. by rewrite Hj. }
  destruct (acc.2 !! i) as [m|] eqn:Em; [by rewrite <- He|]. exfalso. cbn in He.
  assert (dom own ∖ {[i]} ≢ ∅) as (j & Hj)%set_choose.
  { intros Hz. apply size_empty_iff in Hz. rewrite size_difference, size_singleton, size_dom in Hz by set_solver. lia. }
  apply elem_of_difference in Hj as [[sp Hsp]%elem_of_dom Hne].
  assert (is_Some (outs !! j)) as [so Hso] by (apply elem_of_dom; rewrite Hdom; by eapply elem_of_dom_2).
  destruct (Hpart2 _ _ _ Hsp Hso) as [_ Hd].
  assert (is_Some (so.2 !! i)) as [p Hp] by (apply elem_of_dom; rewrite Hd; set_solver).
  assert (inbox_of outs i !! j = Some p) as Hx by (unfold inbox_of; by rewrite lookup_omap, Hso).
  by rewrite <- He, lookup_empty in Hx.
Qed.

Lemma dkg_round3_total ids acc round2 : (∀ i, i ∈ ids → i ∈ dom own) → round2_after (dom own) round2 →
  (acc.2 = None ∨ acc.2 = Some pk) →
  ∃ out, dkg_round3 max min (snd <$> own) round2 ids acc = Ok out ∧ (out.2 = Some pk ∨ ids = [] ∧ out.2 = acc.2).
Proof.
  revert acc. induction ids as [|id ids IH]; intros acc Hids Hr Ha; [exists acc; auto|].
  cbn [dkg_round3]. assert (id ∈ dom own) as Hid by (apply Hids; left).
  rewrite (round2_inbox id round2 Hr Hid). cbn [ok_or mbind result_bind].
  destruct Hr as [H1 H2]. rewrite H1, decide_True by done.
  assert (is_Some (outs !! id)) as [so Hso] by (apply elem_of_dom; by rewrite Hdom).
  destruct (Hpart3 _ _ Hso) as (kp & Hp3 & Hm). rewrite Hso. cbn. rewrite Hp3. cbn.
  assert (keeps_constitution max min acc.2 kp pk = Ok pk) as ->.
  { unfold keeps_constitution. rewrite Hm, Hsize, !N.eqb_refl. cbn.
    destruct Hpk as [-> | ->]; rewrite ?N.eqb_refl; cbn; destruct Ha as [-> | ->]; try done; by rewrite bool_decide_true. }
  cbn. destruct (IH (<[id := kp]> acc.1, Some pk)) as (out & -> & Ho); [set_solver|done|by right|].
  exists out. split; [done|]. left. destruct Ho as [|[_ ?]]; done.
Qed.
End complete.

Section total.
Context `{FR : Frost, FC : !FrostCodec, FD : !FrostDkg}.
(** The ceremony in one process ends with a bundle, whatever the size and the threshold. *)
Lemma run_in_process_total rngs max min : 2 ≤ min ≤ max → max ≤ u16_max →
  ∃ b, run_in_process rngs max min = Ok b.
Proof.
  intros Hm H16. unfold run_in_process.
  replace ((max <? 2) || (min <? 2) || (max <? min)) with false
    by (symmetry; rewrite !orb_false_iff, !N.ltb_ge; lia).
  destruct (dkg_identifiers_ok (upto max)) as (ids & -> & Hn & Hlen & _).
  { unfold upto. apply NoDup_fmap; [by intros ? ? ?%Nat2N.inj|]. apply NoDup_seq. }
  { unfold upto. intros i (k & -> & Hk)%list_elem_of_fmap. apply elem_of_seq in Hk. lia. }
  cbn [mbind result_bind]. destruct (dkg_round1_ok max min rngs ids ∅ Hm) as (own & -> & Hd & Ho). cbn [mbind result_bind].
  specialize (Ho ltac:(intros ? ? H; by rewrite lookup_empty in H)).
  assert (dom own = list_to_set ids) as Hdo by (rewrite Hd; set_solver).
  assert (N.of_nat (size own) = max) as Hs.
  { rewrite <- size_dom, Hdo, size_list_to_set, Hlen by done. unfold upto. rewrite length_fmap, length_seq. lia. }
  destruct (dkg_correct max min own) as (outs & pk & Hdom & H2 & H3 & Hpk & Hsz); [lia|done|done|].
  destruct (dkg_round2_ok own outs Hdom H2 ids ∅ (fst <$> own) (∅, ∅)) as (acc & -> & Hr); [done| | | |].
  { intros i Hi. rewrite Hdo. set_solver. }
  { intros i _. by rewrite lookup_fmap. }
  { split; cbn; intros; by rewrite lookup_empty, decide_False by set_solver. }
  cbn [mbind result_bind].
  replace (list_to_set ids ∪ ∅) with (dom own) in Hr by set_solver.
  destruct (dkg_round3_total own outs pk Hdom H2 max min ltac:(lia) ltac:(lia) H3 Hpk Hsz Hs ids (∅, None) acc) as (out & -> & Ho3);
    [by intros i Hi; rewrite Hdo; set_solver|done|by left|].
  destruct Ho3 as [Hp|[-> _]]; [|cbn in Hlen; unfold upto in Hlen; rewrite length_fmap, length_seq in Hlen; lia].
  cbn. rewrite Hp. cbn. eauto.
Qed.
End total.

(** The ceremony in one process: with participants that follow the protocol it ends with a
    bundle for every threshold of at least two up to its size, and whatever the crate answers a
    bundle holds one package for each identifier of [1..=max], of the very threshold and size
    asked for (no silent inflation), under one group key of that constitution. *)
Theorem in_process_ceremony `{FR : Frost, FC : !FrostCodec, FD : !FrostDkg} rngs max min : max ≤ u16_max →
  (2 ≤ min ≤ max → ∃ b, run_in_process rngs max min = Ok b) ∧
  ∀ b, run_in_process rngs max min = Ok b →
    2 ≤ min ≤ max ∧ N.of_nat (size (fb_key_packages b)) = max ∧
    bundle_of max min (fb_key_packages b) (Some (fb_pubkey_package b)) ∧
    ∀ id, is_Some (fb_key_packages b !! id) ↔ ∃ i, 1 ≤ i ≤ max ∧ id_try_from i = Ok id.
Proof.
  intros H16. split; [intros Hm; by apply run_in_process_total|].
  intros b Hb. apply bundle_keeps_constitution in Hb as (Hm & _ & _ & Hk & ids & Hi & Hd).
  destruct (dkg_identifiers_ok (upto max)) as (ids' & Hi' & Hn & Hlen & Hids).
  { unfold upto. apply NoDup_fmap; [by intros ? ? ?%Nat2N.inj|]. apply NoDup_seq. }
  { unfold upto. intros i (k & -> & Hk')%list_elem_of_fmap. apply elem_of_seq in Hk'. lia. }
  rewrite Hi in Hi'. injection Hi' as <-. split; [done|]. split; [|split; [done|]].
  { rewrite <- size_dom, Hd, size_list_to_set, Hlen by done. unfold upto. rewrite length_fmap, length_seq. lia. }
  intros id. rewrite <- elem_of_dom, Hd, elem_of_list_to_set. split.
  - intros (i & Hin & Ht)%Hids. unfold upto in Hin. apply list_elem_of_fmap in Hin as (k & -> & Hk'%elem_of_seq).
    exists (N.of_nat k). split; [lia|done].
  - intros (i & Hr & Ht). clear -Hi Hr Ht. assert (i ∈ upto max) as Hin.
    { unfold upto. apply list_elem_of_fmap. exists (N.to_nat i). split; [lia|]. apply elem_of_seq. lia. }
    clear Hr. revert ids Hi Hin. generalize (upto max). intros l. induction l as [|j l IH]; intros ids Hi Hin; [by apply elem_of_nil in Hin|].
    cbn [dkg_identifiers] in Hi. apply bind_ok in Hi as (x & Hx & Hi). apply bind_ok in Hi as (y & Hy & [= <-]).
    apply elem_of_cons in Hin as [->|Hin]; [|right; by apply (IH _ Hy)].
    rewrite Ht in Hx. injection Hx as <-. left.
Qed.

(* ------------------------------------------------------------------ *)
(** ** What a quorum signature is over *)

(** Session ids and days without a bar are told apart by the bound message. *)
Lemma bind_message_inj m m' sid sid' d d' : no_char "|"%char sid → no_char "|"%char sid' → no_char "|"%char d → no_char "|"%char d' →
  bind_message m sid d = bind_message m' sid' d' → m = m' ∧ sid = sid' ∧ d = d'.
Proof.
  assert (∀ a b x y, no_char "|"%char a → no_char "|"%char b →
    bytes_of a ++ "|"%char :: x = bytes_of b ++ "|"%char :: y → a = b ∧ x = y) as Hs.
  { intros a b x y Ha Hb He. assert (a +:+ String.String "|" (str_of x) = b +:+ String.String "|" (str_of y)) as He'.
    { apply bytes_of_inj. rewrite !bytes_of_app. simpl. by rewrite !bytes_of_str_of. }
    apply sep_split in He' as [-> He']; [|done..]. split; [done|]. apply (f_equal bytes_of) in He'. by rewrite !bytes_of_str_of in He'. }
  unfold bind_message. intros H1 H2 H3 H4 He. apply (inj _) in He.
  apply Hs in He as [-> He]; [|done..]. by apply Hs in He as [-> ->].
Qed.
(** A bar in a session id moves the boundary: two sessions bind different messages to one text. *)
Lemma bind_message_ambiguous : bind_message (bytes_of "pay") "s|x" "2026-01-01" = bind_message (bytes_of "x|pay") "s" "2026-01-01".
Proof. reflexivity. Qed.

Section signed.
Context `{FR : Frost, SG : !FrostSign, HX : HexCodec}.
Context {AEnv A : Type} `{AP : !AntiNoncePort AEnv A}.

Lemma quorum_round1_dom rng l m : dom (quorum_round1 rng l m) = list_to_set l.*1 ∪ dom m.
Proof.
  revert m. induction l as [|[id kp] l IH]; intros m; simpl; [by rewrite (left_id_L ∅ (∪))|].
  rewrite IH, dom_insert_L. set_solver.
Qed.
Lemma quorum_round2_dom kps package l m out : quorum_round2 kps package l m = Ok out → dom out = list_to_set l.*1 ∪ dom m.
Proof.
  revert m. induction l as [|[id nc] l IH]; intros m; simpl; [intros [= <-]; by rewrite (left_id_L ∅ (∪))|].
  destruct (kps !! id); [|done]. rewrite bind_ok. intros (share & _ & H). apply IH in H. rewrite H, dom_insert_L. set_solver.
Qed.
Lemma dom_id_iter {B} (m : gmap Identifier B) : list_to_set (id_iter m).*1 = dom m.
Proof.
  apply set_eq. intros i. rewrite elem_of_list_to_set, elem_of_dom, list_elem_of_fmap. split.
  - intros ([j x] & -> & Hj%elem_of_id_iter). by exists x.
  - intros [x Hx]. exists (i, x). split; [done|]. by apply elem_of_id_iter.
Qed.

(** A signature of the orchestrator burns its session, which was unused, and verifies under the
    keyset's group key over the message bound to that session and to the current day, signed by
    exactly the keyset's threshold of shares; the shares and the day stay as they were. *)
Theorem quorum_signature_bound `{!AntiNoncePortSpec AEnv A} env now now' rng sid m s s' r :
  sign_lab_quorum env now now' rng sid m s = (s', Ok r) →
  ¬ anp_used (fs_anti s) sid ∧ anp_used (fs_anti s') sid ∧ fs_shares s' = fs_shares s ∧ fs_rotation s' = fs_rotation s ∧
  fa_session_id r = sid ∧ fa_day_epoch r = day_str (current (fs_rotation s)) ∧
  day_lt (current (fs_rotation s)) (day_epoch_from_unix_secs now) = false ∧
  ∃ snap sg b, fs_shares s = Some snap ∧
    vk_verify (verifying_key (ts_pubkey_package snap)) (bind_message m sid (fa_day_epoch r)) sg = Ok tt ∧
    sig_serialize sg = Ok b ∧ fa_signature_hex r = hex_encode b ∧ fa_participants r = ts_min_signers snap.
Proof.
  unfold sign_lab_quorum, on_fs_anti, on_fs_rotation, current_day_epoch, require_epoch. unfold_monad. intros H.
  destruct (anp_claim_session env sid (fs_anti s)) as [a [[]|]] eqn:Ha; [|done]. cbn in H.
  apply anps_claim in Ha as [Hu Hu']. destruct (day_lt (current (fs_rotation s)) (day_epoch_from_unix_secs now)) eqn:Hday; [done|].
  cbn in H. rewrite bool_decide_true in H by done. cbn in H. destruct (day_lt _ (day_epoch_from_unix_secs now')); [done|]. cbn in H.
  unfold snapshot in H. destruct (fs_shares s) as [snap|] eqn:Hsn; [|done]. cbn in H.
  destruct (len _ <? _) eqn:Hlen; [done|]. apply N.ltb_ge in Hlen.
  destruct (quorum_round2 _ _ _ _) as [shares|] eqn:H2; [|done]. cbn in H.
  destruct (aggregate _ _ _) as [sg|]; [|done]. cbn in H. destruct (vk_verify _ _ sg) as [[]|] eqn:Hv; [|done]. cbn in H.
  destruct (sig_serialize sg) as [b|] eqn:Hb; [|done]. cbn in H. injection H as <- <-. cbn.
  split_and!; try done. exists snap, sg, b. split_and!; try done.
  apply quorum_round2_dom in H2. rewrite dom_id_iter, quorum_round1_dom, !dom_empty_L, !(right_id_L ∅ (∪)) in H2.
  pose proof (NoDup_id_iter (key_packages snap)) as Hnd. rewrite <- (take_drop (N.to_nat (ts_min_signers snap))) in Hnd.
  apply NoDup_app in Hnd as [Hnd _]. rewrite <- size_dom, H2, fmap_take, size_list_to_set by done.
  rewrite length_take, length_fmap. unfold len in Hlen. lia.
Qed.
End signed.
