(* ===== verification/HttpPeer.v ===== *)
(** * Outbound peer HTTP ([adapters/http_peer.rs], and the blocking retry of
    [adapters/frost_wire_cosign.rs])

    The settings of vault-to-vault calls and the two retry loops. What a request
    obtains is an argument, one outcome per attempt. *)
From S2P Require Import Prelude RustStr RustParse Errors WireDkg.
Local Open Scope N_scope.

Inductive VaultTransport := Clearnet | Tor.
#[export] Instance VaultTransport_eq_dec : EqDecision VaultTransport.
Proof. solve_decision. Defined.
Definition transport_parse (raw : string) : option VaultTransport :=
  let s := to_ascii_lowercase (trim raw) in
  if bool_decide (s ∈ ["clearnet"; "lan"; "direct"]) then Some Clearnet
  else if bool_decide (s ∈ ["tor"; "onion"; "socks"]) then Some Tor
  else None.
Definition transport_str (t : VaultTransport) : string := match t with Clearnet => "clearnet" | Tor => "tor" end.
Definition is_tor (t : VaultTransport) : bool := match t with Tor => true | Clearnet => false end.

(** Durations are milliseconds. *)
Record PeerHttpSettings := mk_peer_http {
  ph_transport : VaultTransport;
  ph_socks_proxy : option string;
  ph_timeout : N;
  ph_connect_timeout : N;
  ph_max_retries : N;
  ph_retry_base_ms : N;
  ph_retry_jitter_ms : N;
}.
Definition clearnet_defaults : PeerHttpSettings := mk_peer_http Clearnet None 30000 10000 1 100 50.
Definition tor_defaults : PeerHttpSettings :=
  mk_peer_http Tor (Some "socks5h://127.0.0.1:9050") 180000 60000 5 750 750.

Definition normalize_socks_proxy (raw : string) : string :=
  let t := trim raw in
  if existsb (λ p, starts_with p t) ["socks5h://"; "socks5://"; "socks://"; "http://"; "https://"]
  then t else "socks5h://" +:+ t.

(** [gen_range(0..=retry_jitter_ms)] is the argument [jitter]. *)
Definition backoff_delay (s : PeerHttpSettings) (attempt jitter : N) : N :=
  let exp := sat_mul64 (ph_retry_base_ms s) (wrap64 (N.shiftl 1 (N.min attempt 6))) in
  sat_add64 exp (if ph_retry_jitter_ms s =? 0 then 0 else jitter).

(** [is_server_error] or 408. *)
Definition should_retry_status (status : N) : bool := ((500 <=? status) && (status <? 600)) || (status =? 408).
(** How [StatusCode] prints: the number and the name the http crate has for it. *)
Class StatusText := status_text : N → string.
Definition is_success (status : N) : bool := (200 <=? status) && (status <? 300).

(** [trim_start_matches]: strip the pattern as often as it occurs. *)
Fixpoint strip_all (fuel : nat) (p s : string) : string :=
  match fuel with
  | O => s
  | S k => if starts_with p s then strip_all k p (drop_str (String.length p) s) else s
  end.
Definition trim_start_matches (p s : string) : string := strip_all (String.length s) p s.
Definition ends_with (p s : string) : bool :=
  starts_with (str_of (rev (bytes_of p))) (str_of (rev (bytes_of s))).
Definition peer_addr_is_onion (addr : string) : bool :=
  let no_scheme := trim_start_matches "http://" (trim_start_matches "https://" (trim addr)) in
  let host := next_or_empty (split_char ":"%char (next_or_empty (split_char "/"%char no_scheme))) in
  ends_with ".onion" host.

(** What [send] gives: a response, or a transport error. *)
Inductive SendOutcome :=
| Responded (status : N) (body : string)
| SendFailed (e : string).

(** Where a request leads: the response is returned, the call fails, or it is retried. *)
Definition is_retry (o : SendOutcome) : bool :=
  match o with Responded status _ => negb (is_success status) && should_retry_status status | SendFailed _ => true end.
Definition send_error `{ST : StatusText} (o : SendOutcome) : string :=
  match o with Responded status body => format "HTTP {}: {}" [status_text status; body] | SendFailed e => e end.

Section retry.
Context `{ST : StatusText} (settings : PeerHttpSettings) (url : string) (send : N → SendOutcome) (jitter : N → N).

(** [for attempt in 0..attempts]; the result and the delays slept. [remaining] counts the range down. *)
Fixpoint post_loop (remaining : nat) (attempt attempts : N) (last_err : string) : res (N * string) * list N :=
  match remaining with
  | O => (Err (ThresholdError (format "peer POST {}: {}" [url; last_err])), [])
  | S k =>
      let again err :=
        let '(r, delays) := post_loop k (attempt + 1) attempts err in
        (r, backoff_delay settings attempt (jitter attempt) :: delays) in
      match send attempt with
      | Responded status body =>
          if is_success status then (Ok (status, body), [])
          else
            let err := format "HTTP {}: {}" [status_text status; body] in
            if negb (should_retry_status status) || (attempts <=? attempt + 1)
            then (Err (ThresholdError (format "peer POST {}: {}" [url; err])), [])
            else again err
      | SendFailed e =>
          if attempts <=? attempt + 1 then (Err (ThresholdError (format "peer POST {}: {}" [url; e])), [])
          else again e
      end
  end.
Definition post_json_with_retry : res (N * string) * list N :=
  let attempts := N.max (ph_max_retries settings) 1 in
  post_loop (N.to_nat attempts) 0 attempts "".

(** [loop { attempt += 1; .. }] of [post_json_with_retry_blocking]; [None] when the fuel runs out. *)
Fixpoint blocking_loop (fuel : nat) (attempt : N) : option (res (N * string) * list N) :=
  match fuel with
  | O => None
  | S k =>
      let attempt := attempt + 1 in
      match send attempt with
      | Responded status body => Some (Ok (status, body), [])
      | SendFailed e =>
          if attempt <? N.max (ph_max_retries settings) 1 then
            let sleep_ms := wrap64 (ph_retry_base_ms settings + sat_mul64 attempt (ph_retry_jitter_ms settings / 2)) in
            '(r, delays) ← blocking_loop k attempt; Some (r, sleep_ms :: delays)
          else Some (Err (ThresholdError (format "TR co-sign HTTP {}: {}" [url; e])), [])
      end
  end.
Definition post_json_with_retry_blocking (fuel : nat) : option (res (N * string) * list N) := blocking_loop fuel 0.

(* ------------------------------------------------------------------ *)
(** ** Both loops end *)

Definition max_attempts : N := N.max (ph_max_retries settings) 1.

(** The outcome of a loop that ended with attempt [k]. *)
Definition decided (k : N) (r : res (N * string)) : Prop :=
  match send k with
  | Responded status body => if is_success status then r = Ok (status, body) else is_ok r = false
  | SendFailed _ => is_ok r = false
  end.

Lemma post_loop_ends remaining attempt err r delays :
  (0 < remaining)%nat → attempt + N.of_nat remaining = max_attempts →
  post_loop remaining attempt max_attempts err = (r, delays) →
  len delays < N.of_nat remaining ∧ decided (attempt + len delays) r ∧
  (∀ i, attempt ≤ i < attempt + len delays → is_retry (send i) = true) ∧
  (is_retry (send (attempt + len delays)) = true → len delays + 1 = N.of_nat remaining) ∧
  Forall (λ d, ∃ i, i < max_attempts ∧ d = backoff_delay settings i (jitter i)) delays.
Proof.
  revert attempt err r delays. induction remaining as [|k IH]; intros attempt err r delays Hpos Hsum H; [lia|].
  assert (∀ e r delays, is_retry (send attempt) = true → (max_attempts <=? attempt + 1) = false →
    (let '(r, delays) := post_loop k (attempt + 1) max_attempts e in
     (r, backoff_delay settings attempt (jitter attempt) :: delays)) = (r, delays) →
    len delays < N.of_nat (S k) ∧ decided (attempt + len delays) r ∧
    (∀ i, attempt ≤ i < attempt + len delays → is_retry (send i) = true) ∧
    (is_retry (send (attempt + len delays)) = true → len delays + 1 = N.of_nat (S k)) ∧
    Forall (λ d, ∃ i, i < max_attempts ∧ d = backoff_delay settings i (jitter i)) delays) as Hagain.
  { intros e r0 delays0 Hr Hlt H0. nbool. destruct (post_loop k (attempt + 1) max_attempts e) as [r1 d1] eqn:E.
    injection H0 as <- <-. apply IH in E as (H1 & H2 & H3 & H4 & H5); [|lia|lia]. rewrite len_cons.
    replace (attempt + (1 + len d1)) with (attempt + 1 + len d1) by lia. split_and!; [lia|done| | |].
    - intros i Hi. destruct (decide (i = attempt)) as [->|]; [done|]. apply H3. lia.
    - intros Hl. specialize (H4 Hl). lia.
    - constructor; [exists attempt; split; [lia|done]|done]. }
  assert (∀ r0, decided attempt r0 → (is_retry (send attempt) = true → attempt + 1 = max_attempts) →
    (r0, []) = (r, delays) →
    len delays < N.of_nat (S k) ∧ decided (attempt + len delays) r ∧
    (∀ i, attempt ≤ i < attempt + len delays → is_retry (send i) = true) ∧
    (is_retry (send (attempt + len delays)) = true → len delays + 1 = N.of_nat (S k)) ∧
    Forall (λ d, ∃ i, i < max_attempts ∧ d = backoff_delay settings i (jitter i)) delays) as Hstop.
  { intros r0 Hd Hl [= <- <-]. rewrite len_nil, N.add_0_r.
    split_and!; [lia|done|intros; lia|intros Hr; specialize (Hl Hr); lia|constructor]. }
  cbn [post_loop] in H. destruct (send attempt) as [status body|e] eqn:Hs.
  - destruct (is_success status) eqn:Hok.
    + apply (Hstop _) in H; [done|unfold decided; by rewrite Hs, Hok|]. simpl. by rewrite Hok.
    + destruct (negb (should_retry_status status) || (max_attempts <=? attempt + 1)) eqn:Hend.
      * apply (Hstop _) in H; [done|unfold decided; by rewrite Hs, Hok|]. simpl. rewrite Hok. simpl. intros Hr.
        rewrite Hr in Hend. simpl in Hend. nbool. lia.
      * apply orb_false_iff in Hend as [Hend Hlt]. apply Hagain in H; [done| |done].
        simpl. rewrite Hok. simpl. by rewrite negb_false_iff in Hend.
  - destruct (max_attempts <=? attempt + 1) eqn:Hlt.
    + apply (Hstop _) in H; [done|unfold decided; by rewrite Hs|]. intros _. nbool. lia.
    + by apply Hagain in H.
Qed.

Lemma backoff_bound i : ph_retry_jitter_ms settings = 0 ∨ jitter i ≤ ph_retry_jitter_ms settings →
  backoff_delay settings i (jitter i) ≤ 64 * ph_retry_base_ms settings + ph_retry_jitter_ms settings.
Proof.
  intros Hj. unfold backoff_delay.
  assert (wrap64 (N.shiftl 1 (N.min i 6)) ≤ 64) as Hp.
  { assert (N.min i 6 = 0 ∨ N.min i 6 = 1 ∨ N.min i 6 = 2 ∨ N.min i 6 = 3 ∨ N.min i 6 = 4 ∨ N.min i 6 = 5 ∨ N.min i 6 = 6)
      as H by lia. destruct H as [-> |[-> |[-> |[-> |[-> |[-> | ->]]]]]]; vm_compute; discriminate. }
  pose proof (sat_mul64_le (ph_retry_base_ms settings) (wrap64 (N.shiftl 1 (N.min i 6)))).
  unfold sat_add64. destruct (N.eqb_spec (ph_retry_jitter_ms settings) 0); nia.
Qed.

(** C39 A retried call is bounded and decided by one answer: a peer call makes at least one and at
    most [max(1, max_retries)] requests, with one pause between two requests, none longer than 64
    times the base plus the jitter; every request before the last failed in a way that is retried;
    the last one decides the result, success exactly for a success status; and the call gives up
    early only on an answer that is not retried. *)
Theorem retry_bounded r delays :
  (∀ i, jitter i ≤ ph_retry_jitter_ms settings) → post_json_with_retry = (r, delays) →
  len delays + 1 ≤ max_attempts ∧ decided (len delays) r ∧ (∀ i, i < len delays → is_retry (send i) = true) ∧
  (is_retry (send (len delays)) = true → len delays + 1 = max_attempts) ∧
  Forall (λ d, d ≤ 64 * ph_retry_base_ms settings + ph_retry_jitter_ms settings) delays.
Proof.
  intros Hj H. unfold post_json_with_retry in H. fold max_attempts in H.
  assert (1 ≤ max_attempts) by (unfold max_attempts; lia).
  apply post_loop_ends in H as (H1 & H2 & H3 & H4 & H5); [|lia|lia]. rewrite N2Nat.id in H1, H4. rewrite N.add_0_l in *.
  split_and!; [lia|done|intros; apply H3; lia|done|].
  eapply Forall_impl; [exact H5|]. intros d (i & _ & ->). apply backoff_bound. by right.
Qed.

Lemma blocking_loop_ends fuel attempt : attempt < max_attempts → max_attempts ≤ attempt + N.of_nat fuel →
  ∃ r delays, blocking_loop fuel attempt = Some (r, delays) ∧
    (∀ i, attempt < i ≤ attempt + len delays → ∃ e, send i = SendFailed e) ∧
    attempt + len delays < max_attempts ∧
    match send (attempt + len delays + 1) with
    | Responded status body => r = Ok (status, body)
    | SendFailed e => attempt + len delays + 1 = max_attempts ∧ is_ok r = false
    end.
Proof.
  revert attempt. induction fuel as [|k IH]; intros attempt Hlt Hf; [lia|]. cbn [blocking_loop]. fold max_attempts.
  destruct (send (attempt + 1)) as [status body|e] eqn:Hs.
  - eexists _, []. split; [done|]. rewrite len_nil, N.add_0_r, Hs. split; [intros; lia|done].
  - destruct (attempt + 1 <? max_attempts) eqn:Hm; nbool.
    + destruct (IH (attempt + 1)) as (r & delays & Hr & H1 & H2 & H3); [lia|lia|]. rewrite Hr. simpl.
      eexists r, (_ :: delays). split; [done|]. rewrite len_cons.
      replace (attempt + (1 + len delays)) with (attempt + 1 + len delays) by lia. split_and!; [|done|done].
      intros i Hi. destruct (decide (i = attempt + 1)) as [->|]; [by eexists|]. apply H1. lia.
    + eexists _, []. split; [done|]. rewrite len_nil, N.add_0_r, Hs. split; [intros; lia|]. split; [lia|]. split; [lia|done].
Qed.

(** C40 The unbounded loop of the co-signing calls terminates: after at most [max(1, max_retries)]
    requests it has a result, the first response the peer gives, whatever its status, or the
    failure of the last request when none of them got through. *)
Theorem blocking_retry_terminates fuel : max_attempts ≤ N.of_nat fuel →
  ∃ r delays, post_json_with_retry_blocking fuel = Some (r, delays) ∧ len delays < max_attempts ∧
    (∀ i, 1 ≤ i ≤ len delays → ∃ e, send i = SendFailed e) ∧
    match send (len delays + 1) with
    | Responded status body => r = Ok (status, body)
    | SendFailed e => len delays + 1 = max_attempts ∧ is_ok r = false
    end.
Proof.
  intros Hf. assert (1 ≤ max_attempts) by (unfold max_attempts; lia).
  destruct (blocking_loop_ends fuel 0) as (r & delays & Hr & H1 & H2 & H3); [lia|lia|]. rewrite N.add_0_l in *.
  exists r, delays. split_and!; [done|done|intros; apply H1; lia|done].
Qed.
End retry.

(** A peer that answers 503 twice, then 200: the asynchronous loop waits it out, the blocking one
    returns the first 503. *)
#[local] Instance status_number : StatusText := λ status, show status.
Definition flaky (i : N) : SendOutcome := if i <? 2 then Responded 503 "busy" else Responded 200 "ok".
Definition three_tries : PeerHttpSettings := mk_peer_http Clearnet None 30000 10000 3 100 50.
Lemma retry_bounded_witness : ∃ delays,
  post_json_with_retry three_tries "u" flaky (λ _, 50) = (Ok (200, "ok"), delays) ∧ delays = [150; 250] ∧
  len delays + 1 ≤ max_attempts three_tries.
Proof.
  exists [150; 250]. assert (post_json_with_retry three_tries "u" flaky (λ _, 50) = (Ok (200, "ok"), [150; 250])) as E
    by (vm_compute; reflexivity).
  split; [exact E|]. split; [reflexivity|].
  refine (proj1 (retry_bounded three_tries "u" flaky (λ _, 50) _ _ _ E)). intros i. vm_compute. discriminate.
Defined.
Lemma blocking_retry_terminates_witness : ∃ r delays,
  post_json_with_retry_blocking three_tries "u" flaky 3 = Some (r, delays) ∧ len delays < 3.
Proof.
  destruct (blocking_retry_terminates three_tries "u" flaky 3) as (r & delays & H & Hl & _); [vm_compute; discriminate|].
  exists r, delays. split; [exact H|exact Hl].
Defined.
Example blocking_ignores_status : post_json_with_retry_blocking three_tries "u" flaky 3 = Some (Ok (503, "busy"), []).
Proof. reflexivity. Qed.
Example onion_peers : (peer_addr_is_onion "http://abc.onion:7701", peer_addr_is_onion "xyz.onion",
  peer_addr_is_onion "vault-2:7701") = (true, true, false).
Proof. reflexivity. Qed.
