(* ===== verification/PeerTrust.v ===== *)
(** * Whom a vault trusts on the wire ([adapters/audit_keys.rs], [adapters/tls_peer_verify.rs])

    The mesh audit key allowlist, and the policy by which the certificate of a peer's
    server is accepted. Chain validation is webpki's. *)
From S2P Require Import Prelude RustStr RustParse Errors PersistedLedger HttpPeer.
Local Open Scope N_scope.

(** [split_whitespace]. *)
Fixpoint words (fuel : nat) (cur l : bytes) : list bytes :=
  match fuel, l with
  | O, _ | _, [] => [cur]
  | S k, a :: r =>
      if starts_ws ws2 ws3 l then cur :: words k [] (trim_start_b l) else words k (cur ++ [a]) r
  end.
Definition split_whitespace (s : string) : list string :=
  filter (λ w, w ≠ "") (str_of <$> words (S (String.length s)) [] (bytes_of s)).
Definition eq_ignore_ascii_case (a b : string) : bool := String.eqb (to_ascii_lowercase a) (to_ascii_lowercase b).

(* ------------------------------------------------------------------ *)
(** ** Audit keys *)

(** [BTreeSet<String>] of lowercase hex. *)
Definition MeshAuditKeyAllowlist : Type := gset string.
Definition audit_add (k : string) (keys : MeshAuditKeyAllowlist) : MeshAuditKeyAllowlist :=
  let t := to_ascii_lowercase (trim k) in if String.eqb t "" then keys else {[t]} ∪ keys.
Definition from_hex_list (keys : list string) : MeshAuditKeyAllowlist := foldl (λ acc k, audit_add k acc) ∅ keys.

(** The last word of a line, unless it is blank or a comment. *)
Definition audit_line (line : string) : string :=
  let line := trim line in
  if String.eqb line "" || starts_with "#" line then "" else default "" (last (split_whitespace line)).
Definition merge_file (keys : MeshAuditKeyAllowlist) (path : string) (file : result string bytes) :
    res MeshAuditKeyAllowlist :=
  raw ← map_err (λ e, AuthRejected (format "VAULT_AUDIT_PUBKEYS_PATH read {}: {}" [path; e])) file;
  Ok (foldl (λ acc l, audit_add (audit_line (str_of l)) acc) keys (lines raw)).
(** [csv] and [path] are the two variables, [read] the file system. *)
Definition audit_from_env (csv path : option string) (read : string → result string bytes) : res MeshAuditKeyAllowlist :=
  let keys := match csv with Some csv => from_hex_list (split_char ","%char csv) | None => ∅ end in
  match path with
  | Some p => if String.eqb p "" then Ok keys else merge_file keys p (read p)
  | None => Ok keys
  end.
Definition audit_contains (keys : MeshAuditKeyAllowlist) (pubkey_hex : string) : bool :=
  bool_decide (to_ascii_lowercase (trim pubkey_hex) ∈ keys).
Definition require_allowlisted (keys : MeshAuditKeyAllowlist) (pubkey_hex : string) : res unit :=
  if bool_decide (keys = ∅) then Err (AuthRejected
    "mesh audit pubkey allowlist empty (F8: set VAULT_AUDIT_PUBKEY_ALLOWLIST or VAULT_AUDIT_PUBKEYS_PATH)")
  else if negb (audit_contains keys pubkey_hex) then
    Err (AuthRejected (format "pubkey not on mesh audit allowlist (audit keys ≠ release ≠ settlement): {}" [pubkey_hex]))
  else Ok tt.

Lemma elem_of_from_hex_list keys t :
  t ∈ from_hex_list keys ↔ t ≠ "" ∧ t ∈ (λ k, to_ascii_lowercase (trim k)) <$> keys.
Proof.
  unfold from_hex_list. cut (∀ acc : gset string, t ∈ foldl (λ acc k, audit_add k acc) acc keys ↔
    t ∈ acc ∨ t ≠ "" ∧ t ∈ (λ k, to_ascii_lowercase (trim k)) <$> keys).
  { intros H. rewrite H. set_solver. }
  induction keys as [|k keys IH]; intros acc; simpl; [set_solver|]. rewrite IH, elem_of_cons. unfold audit_add.
  destruct (String.eqb_spec (to_ascii_lowercase (trim k)) ""); set_solver.
Qed.

(** Exactly the listed keys pass, in any case and with blanks around them. *)
Lemma require_allowlisted_spec keys pubkey_hex :
  require_allowlisted (from_hex_list keys) pubkey_hex = Ok tt ↔
  to_ascii_lowercase (trim pubkey_hex) ≠ "" ∧
  to_ascii_lowercase (trim pubkey_hex) ∈ (λ k, to_ascii_lowercase (trim k)) <$> keys.
Proof.
  unfold require_allowlisted, audit_contains. rewrite !guard_ok. nbool. rewrite elem_of_from_hex_list.
  split; [tauto|]. intros H. split; [|done]. intros E. assert (to_ascii_lowercase (trim pubkey_hex) ∈ from_hex_list keys) as Hin
    by by rewrite elem_of_from_hex_list. rewrite E in Hin. set_solver.
Qed.

(* ------------------------------------------------------------------ *)
(** ** Server certificates of peers *)

Inductive TlsPeerVerifyPolicy :=
| Hostname
| Spiffe (allowed : list string)
| OnionOrSpiffe (allowed : list string).
#[export] Instance TlsPeerVerifyPolicy_eq_dec : EqDecision TlsPeerVerifyPolicy.
Proof. solve_decision. Defined.

Definition verify_policy_parse (raw : string) (allowed_spiffe : list string) : option TlsPeerVerifyPolicy :=
  let s := to_ascii_lowercase (trim raw) in
  if bool_decide (s ∈ ["spiffe"; "onion_or_spiffe"; "onion+spiffe"; "tor"]) && bool_decide (allowed_spiffe = []) then None
  else if bool_decide (s ∈ ["hostname"; "dns"; "webpki"]) then Some Hostname
  else if String.eqb s "spiffe" then Some (Spiffe allowed_spiffe)
  else if bool_decide (s ∈ ["onion_or_spiffe"; "onion+spiffe"; "tor"]) then Some (OnionOrSpiffe allowed_spiffe)
  else None.
Definition verify_policy_parse_one (raw expected_spiffe : string) : option TlsPeerVerifyPolicy :=
  verify_policy_parse raw [expected_spiffe].
Definition verify_policy_str (p : TlsPeerVerifyPolicy) : string :=
  match p with Hostname => "hostname" | Spiffe _ => "spiffe" | OnionOrSpiffe _ => "onion_or_spiffe" end.
Definition allowed_spiffe (p : TlsPeerVerifyPolicy) : list string :=
  match p with Hostname => [] | Spiffe a | OnionOrSpiffe a => a end.
Definition expected_spiffe (p : TlsPeerVerifyPolicy) : option string := head (allowed_spiffe p).

Record OnionOrSpiffeVerifier := mk_verifier { vf_allowed_spiffe : list string; vf_require_onion_san : bool }.
Definition verifier_new (allowed : list string) (require_onion_san : bool) : res OnionOrSpiffeVerifier :=
  if bool_decide (allowed = [])
     || existsb (λ id, String.eqb (trim id) "" || negb (starts_with "spiffe://" id)) allowed
  then Err (AuthRejected "VAULT_TLS_PEER_SPIFFE_ID must be one or more spiffe:// URIs for onion/SPIFFE verify")
  else Ok (mk_verifier allowed require_onion_san).
(** The verifier a policy installs; webpki's own for [Hostname]. *)
Definition policy_verifier (p : TlsPeerVerifyPolicy) : res (option OnionOrSpiffeVerifier) :=
  match p with
  | Hostname => Ok None
  | Spiffe allowed => v ← verifier_new allowed false; Ok (Some v)
  | OnionOrSpiffe allowed => v ← verifier_new allowed true; Ok (Some v)
  end.

Definition spiffe_ok (v : OnionOrSpiffeVerifier) (uris : list string) : bool :=
  existsb (λ u, existsb (λ a, String.eqb a u) (vf_allowed_spiffe v)) uris.
Definition onion_san_ok (host : string) (dns_sans : list string) : bool :=
  ends_with ".onion" host && existsb (λ d, eq_ignore_ascii_case d host) dns_sans.
(** [identity_ok] on the names of the certificate. *)
Definition identity_ok (v : OnionOrSpiffeVerifier) (uris dns : list string) (host : string) : bool :=
  if negb (spiffe_ok v uris) then false
  else if vf_require_onion_san v && ends_with ".onion" host then onion_san_ok host dns
  else true.

(** webpki's verdict on chain and name. *)
Inductive ChainVerdict := ChainOk | NameMismatch | ChainBad.
(** [verify_server_cert]: accepted or not; [sans] is [None] when the certificate does not parse. *)
Definition verify_server_cert (v : OnionOrSpiffeVerifier) (inner : ChainVerdict)
    (sans : option (list string * list string)) (host : string) : bool :=
  match inner, sans with
  | ChainOk, Some (uris, dns) | NameMismatch, Some (uris, dns) => identity_ok v uris dns host
  | _, _ => false
  end.

(** Under a SPIFFE policy an accepted peer has a valid chain and an allowed SPIFFE id, and under
    the onion policy an onion host is also named in the certificate. *)
Theorem verified_peer_has_identity p v inner sans host :
  policy_verifier p = Ok (Some v) → verify_server_cert v inner sans host = true →
  inner ≠ ChainBad ∧ ∃ uris dns u, sans = Some (uris, dns) ∧ u ∈ uris ∧ u ∈ allowed_spiffe p ∧
    starts_with "spiffe://" u = true ∧
    (∀ a, p = OnionOrSpiffe a → ends_with ".onion" host = true → ∃ d, d ∈ dns ∧ eq_ignore_ascii_case d host = true).
Proof.
  intros Hp Hv. assert (∃ a r, v = mk_verifier a r ∧ allowed_spiffe p = a ∧ verifier_new a r = Ok v ∧
    (∀ b, p = OnionOrSpiffe b → r = true)) as (a & r & -> & Ha & Hn & Hr).
  { destruct p as [|a|a]; simpl in Hp; [done|..]; apply bind_ok in Hp as (w & Hw & [= ->]);
      pose proof Hw as Hw'; unfold verifier_new in Hw; rewrite guard_ok in Hw; destruct Hw as [_ [= <-]];
      eexists _, _; split_and!; try done. }
  unfold verifier_new in Hn. rewrite guard_ok in Hn. destruct Hn as [Hn _]. rewrite orb_false_iff in Hn. destruct Hn as [_ Hn].
  assert (∃ uris dns, sans = Some (uris, dns) ∧ inner ≠ ChainBad ∧ identity_ok (mk_verifier a r) uris dns host = true)
    as (uris & dns & -> & Hi & Hid) by (destruct inner, sans as [[uris dns]|]; naive_solver).
  split; [done|]. unfold identity_ok in Hid. destruct (spiffe_ok _ uris) eqn:Hs; [|done]. simpl in Hid.
  unfold spiffe_ok in Hs. apply existsb_exists in Hs as (u & Hu & Hs). apply existsb_exists in Hs as (u' & Hu' & ->%String.eqb_eq).
  simpl in Hu'. exists uris, dns, u. split; [done|]. split; [by apply list_elem_of_In|]. split; [rewrite Ha; by apply list_elem_of_In|].
  split.
  - destruct (starts_with "spiffe://" u) eqn:Hp'; [done|].
    assert (existsb (λ id, String.eqb (trim id) "" || negb (starts_with "spiffe://" id)) a = true) as Hx.
    { apply existsb_exists. exists u. split; [done|]. by rewrite Hp', orb_true_r. }
    by rewrite Hx in Hn.
  - intros b Hb Hh. rewrite (Hr b Hb), Hh in Hid. simpl in Hid. unfold onion_san_ok in Hid. rewrite andb_true_iff in Hid.
    destruct Hid as [_ Hid]. apply existsb_exists in Hid as (d & Hd & Hid). exists d. split; [by apply list_elem_of_In|done].
Qed.
Example onion_san_examples : (onion_san_ok "abc.onion" ["ABC.onion"; "localhost"], onion_san_ok "abc.onion" ["localhost"],
  onion_san_ok "vault-1" ["vault-1"]) = (true, false, false).
Proof. reflexivity. Qed.
