(* ===== verification/ConfigEnv.v ===== *)
(** * Configuration: its data, and reading the environment ([bootstrap/config.rs], first part)

    The process environment is a function from names to values, the compiled features
    are a record. *)
From S2P Require Import Prelude RustStr RustParse Errors Identity Bucket Psbt Constitution NodeTier Economy.
From S2P Require Import Frost HybridEnvelope WireDkg FrostShares ShareReshare HttpPeer PeerTrust.
Local Open Scope N_scope.

Inductive CeremonyMode := CmLab | CmStaging | CmProduction.
#[export] Instance CeremonyMode_eq_dec : EqDecision CeremonyMode.
Proof. solve_decision. Defined.
Definition ceremony_parse (raw : string) : option CeremonyMode :=
  let s := to_ascii_lowercase (trim raw) in
  if String.eqb s "lab" then Some CmLab
  else if String.eqb s "staging" then Some CmStaging
  else if bool_decide (s ∈ ["production"; "prod"]) then Some CmProduction
  else None.
Definition ceremony_str (m : CeremonyMode) : string :=
  match m with CmLab => "lab" | CmStaging => "staging" | CmProduction => "production" end.

Inductive AuthMode := StaticToken | MutualTls.
#[export] Instance AuthMode_eq_dec : EqDecision AuthMode.
Proof. solve_decision. Defined.
Definition auth_parse (raw : string) : option AuthMode :=
  let s := to_ascii_lowercase (trim raw) in
  if bool_decide (s ∈ ["static"; "token"; "static_token"]) then Some StaticToken
  else if bool_decide (s ∈ ["mtls"; "mutual_tls"]) then Some MutualTls
  else None.
Definition auth_str (m : AuthMode) : string := match m with StaticToken => "static_token" | MutualTls => "mtls" end.

Inductive ShareStoreMode := AeadDisk | TeeSeal.
#[export] Instance ShareStoreMode_eq_dec : EqDecision ShareStoreMode.
Proof. solve_decision. Defined.
Definition share_store_parse (raw : string) : option ShareStoreMode :=
  let s := to_ascii_lowercase (trim raw) in
  if bool_decide (s ∈ ["aead"; "disk"; "aead_disk"]) then Some AeadDisk
  else if bool_decide (s ∈ ["tee"; "tee_seal"]) then Some TeeSeal
  else None.
Definition share_store_str (m : ShareStoreMode) : string := match m with AeadDisk => "aead_disk" | TeeSeal => "tee_seal" end.

Inductive DkgMode := DealerLab | Distributed | DistributedWire.
#[export] Instance DkgMode_eq_dec : EqDecision DkgMode.
Proof. solve_decision. Defined.
Definition dkg_mode_parse (raw : string) : option DkgMode :=
  let s := to_ascii_lowercase (trim raw) in
  if bool_decide (s ∈ ["dealer"; "dealer_lab"]) then Some DealerLab
  else if bool_decide (s ∈ ["distributed"; "dkg_distributed"]) then Some Distributed
  else if bool_decide (s ∈ ["distributed_wire"; "wire"; "over_wire"]) then Some DistributedWire
  else None.
Definition dkg_mode_str (m : DkgMode) : string :=
  match m with DealerLab => "dealer_lab" | Distributed => "distributed" | DistributedWire => "distributed_wire" end.
Definition is_distributed (m : DkgMode) : bool := match m with DealerLab => false | _ => true end.

Record VaultConfig := mk_config {
  cfg_node_id : NodeId;
  cfg_node_tier : VaultNodeTier;
  cfg_tee_available : bool;
  cfg_attestation_mode : AttestationMode;
  cfg_listen_addr : string;
  cfg_lab_root : string;
  cfg_seed_peers : list (string * string);
  cfg_peer_tiers : gmap string VaultNodeTier;
  cfg_peer_tier_quotes : gmap string string;
  cfg_peer_tier_require_quote : bool;
  cfg_refuse_sim : bool;
  cfg_genesis_n : option N;
  cfg_online_count : option N;
  cfg_online_static : bool;
  cfg_psbt_policy : PsbtPolicy;
  cfg_lab_timelock_scale : N;
  cfg_lab_timelock_env_set : bool;
  cfg_lab_council_n : N;
  cfg_lab_min_rebuilds : N;
  cfg_hardened : bool;
  cfg_attestation_staging_stub : bool;
  cfg_ceremony_mode : CeremonyMode;
  cfg_open_economy : bool;
  cfg_miner_payout_cadence : MinerPayoutCadence;
  cfg_miner_payout_frequency : MinerPayoutCadence;
  cfg_seating_policy_timeout_hours : N;
  cfg_bitcoin_network : BitcoinNetwork;
  cfg_auth_mode : AuthMode;
  cfg_vault_token : option string;
  cfg_users_destination_allowlist : list string;
  cfg_miners_destination_allowlist : list string;
  cfg_allow_manual_reshare : bool;
  cfg_lab_allow_raw_sighash : bool;
  cfg_tls_cert_path : option string;
  cfg_tls_key_path : option string;
  cfg_tls_client_ca_path : option string;
  cfg_tls_client_cert_path : option string;
  cfg_tls_client_key_path : option string;
  cfg_tls_verify_policy : TlsPeerVerifyPolicy;
  cfg_audit_key_allowlist : MeshAuditKeyAllowlist;
  cfg_share_store_mode : ShareStoreMode;
  cfg_share_passphrase : option string;
  cfg_share_tpm_seal : bool;
  cfg_share_tpm_stub : bool;
  cfg_share_tpm_clear_fallback : bool;
  cfg_secure_boot_pcr_policy : option string;
  cfg_data_dir : option string;
  cfg_anti_nonce_shared_dir : option string;
  cfg_measurement_pin_hex : option string;
  cfg_dealer_requested : bool;
  cfg_dkg_mode : DkgMode;
  cfg_reshare_policy : ResharePolicy;
  cfg_governance_reward_sats : N;
  cfg_governance_reward_bps : N;
  cfg_transport : VaultTransport;
  cfg_peer_http : PeerHttpSettings;
  cfg_clearnet_publish : bool;
  cfg_admin_unix_socket_path : option string;
}.

(** The features of the build that the configuration asks for. *)
Record Features := mk_features { ft_production : bool; ft_dealer_lab : bool; ft_tee_hw : bool }.

(* ------------------------------------------------------------------ *)
(** ** Pieces of strings *)

(** [split_once]. *)
Fixpoint split_once (c : ascii) (s : string) : option (string * string) :=
  match s with
  | EmptyString => None
  | String.String a r =>
      if Ascii.eqb a c then Some (EmptyString, r)
      else '(x, y) ← split_once c r; Some (String.String a x, y)
  end.
(** [strip_suffix]. *)
Definition strip_suffix (p s : string) : option string :=
  if ends_with p s then Some (str_of (take (String.length s - String.length p) (bytes_of s))) else None.
Definition trim_end_matches (c : ascii) (s : string) : string :=
  str_of (rev ((fix go l := match l with a :: r => if Ascii.eqb a c then go r else l | [] => [] end) (rev (bytes_of s)))).

(** The nonblank entries of a comma-separated list, trimmed. *)
Definition csv_entries (raw : string) : list string := filter (λ s, s ≠ "") (trim <$> split_char ","%char raw).

Section env.
Context (vars : string → option string).

Definition var_or (name dflt : string) : string := default dflt (vars name).
Definition env_flag (name : string) : bool :=
  match vars name with Some v => bool_decide (v ∈ ["1"; "true"; "TRUE"; "yes"; "YES"]) | None => false end.
Fixpoint env_nonempty_first (names : list string) : option string :=
  match names with
  | [] => None
  | name :: rest => match vars name with
                    | Some v => if String.eqb v "" then env_nonempty_first rest else Some v
                    | None => env_nonempty_first rest
                    end
  end.
(** [var(name).ok().and_then(|s| s.parse().ok())] of an integer type. *)
Definition env_uint (max : N) (name : string) : option N := s ← vars name; parse_uint max s.
Definition env_list (name : string) : list string := match vars name with Some raw => csv_entries raw | None => [] end.

(** The loop over [id=value] entries of a variable. *)
Fixpoint env_pairs {A} (name : string) (f : string → string → A → res A) (entries : list string) (acc : A) : res A :=
  match entries with
  | [] => Ok acc
  | part :: rest =>
      '(id, v) ← ok_or (split_once "="%char part) (AttestationRejected (format "bad {} entry: {}" [name; part]));
      acc ← f id v acc;
      env_pairs name f rest acc
  end.
Definition parse_seed_peers : res (list (string * string)) :=
  env_pairs "VAULT_SEED_PEERS" (λ id addr l, Ok (l ++ [(trim id, trim addr)]))
    (csv_entries (var_or "VAULT_SEED_PEERS" "")) [].
Definition parse_peer_tiers : res (gmap string VaultNodeTier) :=
  env_pairs "VAULT_PEER_TIERS" (λ id t m,
      tier ← ok_or (tier_parse t) (AttestationRejected (format "unknown tier in VAULT_PEER_TIERS: {}" [t]));
      Ok (<[trim id := tier]> m))
    (env_list "VAULT_PEER_TIERS") ∅.
Definition parse_peer_tier_quotes : res (gmap string string) :=
  env_pairs "VAULT_PEER_TIER_QUOTES" (λ id quote m, Ok (<[trim id := trim quote]> m))
    (env_list "VAULT_PEER_TIER_QUOTES") ∅.
Definition parse_require_quote (ceremony : CeremonyMode) : bool :=
  match vars "VAULT_PEER_TIER_REQUIRE_QUOTE" with
  | Some v => bool_decide (to_ascii_lowercase v ∈ ["1"; "true"; "yes"])
  | None => negb (bool_decide (ceremony = CmLab))
  end.

Definition parse_psbt_policy : PsbtPolicy :=
  let p := psbt_lab_defaults in
  {| max_fee_sats := default (max_fee_sats p) (env_uint u64_max "VAULT_PSBT_MAX_FEE_SATS");
     max_fee_rate_sat_vb := default (max_fee_rate_sat_vb p) (env_uint u64_max "VAULT_PSBT_MAX_FEE_RATE_SAT_VB");
     max_locktime := default (max_locktime p) (env_uint u32_max "VAULT_PSBT_MAX_LOCKTIME");
     rbf := default (rbf p) (s ← vars "VAULT_PSBT_RBF_POLICY"; rbf_parse s) |}.
Definition parse_dkg_mode (ft : Features) (hardened : bool) : res DkgMode :=
  match match vars "VAULT_DKG_MODE" with Some s => Some s | None => vars "VAULT_DKG" end with
  | Some raw => ok_or (dkg_mode_parse raw) (AttestationRejected (format "unknown VAULT_DKG_MODE={}" [raw]))
  | None => Ok (if hardened then DistributedWire else if ft_dealer_lab ft then DealerLab else Distributed)
  end.
Definition parse_peer_http (transport : VaultTransport) : PeerHttpSettings :=
  let d := if is_tor transport then tor_defaults else clearnet_defaults in
  {| ph_transport := transport;
     ph_socks_proxy := match env_nonempty_first ["VAULT_SOCKS_PROXY"; "VAULT_TOR_SOCKS"] with
                       | Some socks => Some (normalize_socks_proxy socks)
                       | None => if is_tor transport then ph_socks_proxy d else None
                       end;
     ph_timeout := match env_uint u64_max "VAULT_HTTP_TIMEOUT_SECS" with
                   | Some secs => 1000 * N.max secs 1 | None => ph_timeout d end;
     ph_connect_timeout := match env_uint u64_max "VAULT_HTTP_CONNECT_TIMEOUT_SECS" with
                           | Some secs => 1000 * N.max secs 1 | None => ph_connect_timeout d end;
     ph_max_retries := match env_uint u32_max "VAULT_HTTP_MAX_RETRIES" with
                       | Some n => N.max n 1 | None => ph_max_retries d end;
     ph_retry_base_ms := default (ph_retry_base_ms d) (env_uint u64_max "VAULT_HTTP_RETRY_BASE_MS");
     ph_retry_jitter_ms := default (ph_retry_jitter_ms d) (env_uint u64_max "VAULT_HTTP_RETRY_JITTER_MS") |}.

Definition spiffe_of (trust node : string) : string := format "spiffe://{}/vault/{}" [trust; node].
Definition resolve_tls_verify_policy (transport : VaultTransport) (node_id : string)
    (seed_peers : list (string * string)) : res TlsPeerVerifyPolicy :=
  let trust := default "kerosene.lab" (env_nonempty_first ["VAULT_MTLS_TRUST_DOMAIN"]) in
  let allowed :=
    match env_nonempty_first ["VAULT_TLS_PEER_SPIFFE_ID"; "VAULT_MTLS_SPIFFE_VAULT"] with
    | Some raw => csv_entries raw
    | None => vec_dedup (merge_sort String.le
        (spiffe_of trust node_id :: (spiffe_of trust <$> seed_peers.*1) ++ [spiffe_of trust "server"]))
    end in
  let raw := var_or "VAULT_TLS_VERIFY_MODE" (if is_tor transport then "onion_or_spiffe" else "hostname") in
  ok_or (verify_policy_parse raw allowed)
    (AuthRejected (format "unknown VAULT_TLS_VERIFY_MODE={} (or empty SPIFFE allowlist)" [raw])).
End env.

(* ------------------------------------------------------------------ *)
(** ** The node directory *)

Record NodeManifestMember := mk_manifest_member { nm_member_id : string; nm_endpoint : string }.
Record NodeMembershipManifest := mk_manifest {
  nm_network_id : string; nm_plane : string; nm_members : list NodeManifestMember }.

(** [reqwest]: the request to [base/v1/membership/current] under the identity and CA files
    ([None] is a 404), and URLs. *)
Class NodeDirectory := {
  node_membership : string → string → string → res (option NodeMembershipManifest);
  node_not_found : string;  (** the 404's error text *)
  Url : Type;
  url_parse : string → option Url;
  url_scheme : Url → string;
  url_host : Url → option string;
  url_username : Url → string;
  url_password : Url → option string;
  url_query : Url → option string;
  url_fragment : Url → option string;
  (** [set_path("")], [set_port(Some(port))] and [to_string]; [None] when the port cannot be set. *)
  url_root_at : Url → N → option string;
}.

Section directory.
Context `{ND : NodeDirectory} (vars : string → option string).

Definition base32_byte (a : ascii) : bool :=
  let n := byte_n a in ((97 <=? n) && (n <=? 122)) || ((50 <=? n) && (n <=? 55)).
Definition vault_service_endpoint (node_endpoint : string) (service_port : N) : res string :=
  endpoint ← ok_or (url_parse node_endpoint) (AttestationRejected "Node returned an invalid endpoint");
  let onion_label := default "" (strip_suffix ".onion" (default "" (url_host endpoint))) in
  let is_v3_onion := (str_len onion_label =? 56) && forallb base32_byte (bytes_of onion_label) in
  if negb (String.eqb (url_scheme endpoint) "https") || negb is_v3_onion || negb (String.eqb (url_username endpoint) "")
     || bool_decide (is_Some (url_password endpoint)) || bool_decide (is_Some (url_query endpoint))
     || bool_decide (is_Some (url_fragment endpoint))
  then Err (AttestationRejected "Node returned a non-onion Vault member")
  else
    text ← ok_or (url_root_at endpoint service_port) (AttestationRejected "could not derive Vault service port");
    Ok (trim_end_matches "/"%char text).

Fixpoint service_endpoints (service_port : N) (l : list NodeManifestMember) : res (list (string * string)) :=
  match l with
  | [] => Ok []
  | m :: rest =>
      endpoint ← vault_service_endpoint (nm_endpoint m) service_port;
      out ← service_endpoints service_port rest;
      Ok ((nm_member_id m, endpoint) :: out)
  end.
Definition discover_vault_peers_from_node (staging_allows_empty : bool) : res (list (string * string)) :=
  base ← ok_or (vars "VAULT_KEROSENE_NODE_URL") (AttestationRejected "VAULT_KEROSENE_NODE_URL is required");
  identity ← ok_or (vars "VAULT_KEROSENE_NODE_CLIENT_IDENTITY_PEM")
    (AuthRejected "VAULT_KEROSENE_NODE_CLIENT_IDENTITY_PEM is required for Node mTLS");
  ca ← ok_or (vars "VAULT_KEROSENE_NODE_CA_PATH") (AuthRejected "VAULT_KEROSENE_NODE_CA_PATH is required for Node mTLS");
  response ← node_membership (trim_end_matches "/"%char base) identity ca;
  match response with
  | None =>
      if staging_allows_empty || env_flag vars "VAULT_KEROSENE_NODE_ALLOW_EMPTY" then Ok []
      else Err (AttestationRejected (format "Node membership unavailable: {}" [node_not_found]))
  | Some manifest =>
      if negb (String.eqb (nm_network_id manifest) (var_or vars "VAULT_KEROSENE_NETWORK_ID" "kerosene-staging"))
         || negb (String.eqb (nm_plane manifest) "vault")
      then Err (AttestationRejected "Node membership network or plane mismatch")
      else
        let local_member := var_or vars "VAULT_KEROSENE_NODE_MEMBER_ID" "" in
        service_port ← ok_or (parse_uint u16_max (var_or vars "VAULT_KEROSENE_SERVICE_PORT" "7801"))
          (AttestationRejected "invalid VAULT_KEROSENE_SERVICE_PORT");
        service_endpoints service_port (filter (λ m, nm_member_id m ≠ local_member) (nm_members manifest))
  end.
End directory.
