(* ===== verification/Config.v ===== *)
(** * Configuration: the gates ([bootstrap/config.rs], second part)

    [VaultConfig::from_env] and the hygiene checks that refuse lab settings outside the
    lab; what a configuration that passed them guarantees. *)
From S2P Require Import Prelude RustStr RustParse Errors Identity Bucket Psbt Constitution NodeTier Economy.
From S2P Require Import Frost HybridEnvelope WireDkg FrostShares ShareReshare HttpPeer PeerTrust ConfigEnv.
Local Open Scope N_scope.

Section checks.
Context (ft : Features) (vars : string → option string) (self : VaultConfig).

Definition not_lab : bool := match cfg_ceremony_mode self with CmLab => false | CmStaging | CmProduction => true end.
Definition production_ceremony : bool := bool_decide (cfg_ceremony_mode self = CmProduction).
Definition require (b : bool) (e : DomainError) : res unit := if b then Ok tt else Err e.
Definition refuse (b : bool) (e : DomainError) : res unit := if b then Err e else Ok tt.

Definition validate_attestation_policy : res unit :=
  refuse (cfg_refuse_sim self && is_lab_only (cfg_attestation_mode self)) SimAttestationForbidden.

Definition nonempty_path (o : option string) : option string := s ← o; if String.eqb s "" then None else Some s.
Definition require_mtls_paths : res (string * string * string) :=
  match nonempty_path (cfg_tls_cert_path self), nonempty_path (cfg_tls_key_path self),
        nonempty_path (cfg_tls_client_ca_path self) with
  | Some c, Some k, Some a => Ok (c, k, a)
  | _, _, _ => Err (AuthRejected "mTLS requires VAULT_TLS_CERT_PATH, VAULT_TLS_KEY_PATH, and VAULT_TLS_CLIENT_CA_PATH")
  end.
Definition require_mtls_client_identity : res (string * string * string) :=
  match nonempty_path (cfg_tls_client_cert_path self), nonempty_path (cfg_tls_client_key_path self),
        nonempty_path (cfg_tls_client_ca_path self) with
  | Some c, Some k, Some a => Ok (c, k, a)
  | _, _, _ => Err (AuthRejected
      "mTLS peer auth requires VAULT_TLS_CLIENT_CERT_PATH, VAULT_TLS_CLIENT_KEY_PATH, and VAULT_TLS_CLIENT_CA_PATH")
  end.

Definition validate_listen_bind : res unit :=
  let addr := trim (cfg_listen_addr self) in
  let is_all := starts_with "0.0.0.0" addr || starts_with "[::]" addr in
  let protected_staging_bind := bool_decide (cfg_ceremony_mode self = CmStaging)
    && bool_decide (cfg_auth_mode self = MutualTls) && negb (cfg_clearnet_publish self) in
  refuse (is_all && (production_ceremony || (cfg_hardened self && negb protected_staging_bind)))
    (LabFlagForbidden
      "VAULT_LISTEN_ADDR all-interface bind requires staging mTLS with no clearnet publish; production requires loopback/onion-only").

Definition lab_passphrase : string := "kerosene-vault-lab-passphrase".
Definition validate_lab_passphrase_defaults : res unit :=
  let using_default := match cfg_share_passphrase self with Some p => String.eqb p lab_passphrase | None => true end in
  let aead := bool_decide (cfg_share_store_mode self = AeadDisk) in
  _ ← refuse (using_default && aead && not_lab)
    (ShareStoreForbidden "VAULT_DATA_PASSPHRASE required outside lab (no default passphrase)");
  refuse (using_default && aead && (cfg_hardened self || ft_production ft))
    (ShareStoreForbidden "default lab passphrase refused under hardened/production").

Definition default_lab_root : string := "kerosene-lab-root".
Definition validate_lab_root_honesty : res unit :=
  refuse (String.eqb (cfg_lab_root self) default_lab_root && not_lab) (LabFlagForbidden
    "LAB_ATTESTATION_ROOT must be set explicitly outside lab (default is deterministic lab DKG entropy)").

Definition validate_tpm_seal_hygiene : res unit :=
  _ ← (if cfg_share_tpm_clear_fallback self then
         _ ← refuse (cfg_hardened self || production_ceremony || ft_production ft)
           (LabFlagForbidden "VAULT_SHARE_TPM_CLEAR_FALLBACK");
         require (cfg_share_tpm_seal self)
           (ShareStoreForbidden "VAULT_SHARE_TPM_CLEAR_FALLBACK requires VAULT_SHARE_TPM_SEAL=1")
       else Ok tt);
  _ ← (if cfg_share_tpm_stub self then
         _ ← refuse (not_lab || ft_production ft) (LabFlagForbidden "VAULT_SHARE_TPM_STUB refused outside lab");
         _ ← refuse (cfg_hardened self) (LabFlagForbidden "VAULT_SHARE_TPM_STUB");
         require (cfg_share_tpm_seal self) (ShareStoreForbidden "VAULT_SHARE_TPM_STUB requires VAULT_SHARE_TPM_SEAL=1")
       else Ok tt);
  refuse (cfg_share_tpm_seal self && negb (bool_decide (cfg_share_store_mode self = AeadDisk)))
    (ShareStoreForbidden
      "VAULT_SHARE_TPM_SEAL applies only to VAULT_SHARE_STORE=aead_disk (TEE uses tee_seal; TPM ≠ SEV)").

(** The first seed peer that is not an onion. *)
Fixpoint require_onion_peers (l : list (string * string)) : res unit :=
  match l with
  | [] => Ok tt
  | (id, addr) :: rest =>
      if peer_addr_is_onion addr then require_onion_peers rest
      else Err (AttestationRejected (format "VAULT_TRANSPORT=tor requires onion VAULT_SEED_PEERS (peer {}={})" [id; addr]))
  end.
Definition validate_transport_hygiene : res unit :=
  _ ← (if is_tor (cfg_transport self) then
         _ ← refuse (String.eqb (default "" (ph_socks_proxy (cfg_peer_http self))) "") (LabFlagForbidden
           "VAULT_TRANSPORT=tor requires VAULT_SOCKS_PROXY (e.g. socks5h://127.0.0.1:9050)");
         _ ← require_onion_peers (cfg_seed_peers self);
         _ ← refuse (not_lab && negb (bool_decide (cfg_auth_mode self = MutualTls))) (AuthRejected
           "VAULT_TRANSPORT=tor under staging/production requires VAULT_AUTH_MODE=mtls (static_token refused)");
         refuse (bool_decide (cfg_auth_mode self = MutualTls) && bool_decide (cfg_tls_verify_policy self = Hostname))
           (AuthRejected
             "VAULT_TRANSPORT=tor with mTLS requires VAULT_TLS_VERIFY_MODE=onion_or_spiffe|spiffe (not hostname-only)")
       else Ok tt);
  if production_ceremony then
    _ ← require (is_tor (cfg_transport self)) (LabFlagForbidden
      "production ceremony requires VAULT_TRANSPORT=tor (private Tor mesh; not clearnet LAN)");
    _ ← require (bool_decide (cfg_auth_mode self = MutualTls))
      (AuthRejected "production ceremony requires VAULT_AUTH_MODE=mtls");
    _ ← refuse (cfg_clearnet_publish self) (LabFlagForbidden
      "VAULT_CLEARNET_PUBLISH refused in production ceremony (do not expose vault ports on clearnet)");
    refuse (bool_decide (cfg_seed_peers self = []) && match cfg_genesis_n self with Some n => n <? 2 | None => true end)
      (AttestationRejected
        "isolated production bootstrap requires explicit VAULT_GENESIS_N>=2; otherwise configure onion VAULT_SEED_PEERS")
  else Ok tt.

Definition validate_tee_claims : res unit :=
  if is_domestic (cfg_node_tier self) && attestation_is_tee (cfg_attestation_mode self) then
    Err (AttestationRejected "domestic tier cannot advertise ATTESTATION_MODE=sev|sgx (use software)")
  else if negb (tier_is_tee (cfg_node_tier self) || attestation_is_tee (cfg_attestation_mode self)) then Ok tt
  else if cfg_attestation_staging_stub self then
    refuse (production_ceremony || ft_production ft)
      (LabFlagForbidden "ATTESTATION_STAGING_STUB cannot back a TEE claim in production")
  else if negb (cfg_tee_available self) then
    Err (AttestationRejected
      "TEE claim (VAULT_NODE_TIER or ATTESTATION_MODE=sev|sgx) without HW device; use domestic/software or set ATTESTATION_STAGING_STUB=1 for staging only")
  else refuse (ft_production ft && negb (ft_tee_hw ft)) (AttestationRejected
    "production TEE claim requires --features tee_hw (or run domestic/software ceremony)").

(** The gates of a staging or production ceremony. *)
Definition validate_ceremony : res unit :=
  _ ← refuse (cfg_dealer_requested self) (DealerForbidden "dealer DKG refused in staging/production (ToB 2024)");
  _ ← require (bool_decide (cfg_dkg_mode self = DistributedWire)) (DealerForbidden
    "staging/production ceremony requires VAULT_DKG_MODE=distributed_wire (real FROST over-wire; not dealer or in-process sim)");
  _ ← refuse (bool_decide (cfg_auth_mode self = StaticToken))
    (AuthRejected "static token refused in staging/production; use mTLS");
  _ ← refuse (production_ceremony && bool_decide (cfg_audit_key_allowlist self = ∅)
              && negb (env_flag vars "VAULT_SKIP_AUDIT_KEYS_CHECK")) (AuthRejected
    "production ceremony requires mesh audit keys (VAULT_AUDIT_PUBKEY_ALLOWLIST or VAULT_AUDIT_PUBKEYS_PATH); audit ≠ release ≠ settlement — see docs/AUDIT_KEYS.md");
  refuse (bool_decide (cfg_share_store_mode self = AeadDisk) && tier_is_tee (cfg_node_tier self))
    (TeeRequired "TEE-tier node requires VAULT_SHARE_STORE=tee_seal (not host AEAD)").

Definition validate_hygiene : res unit :=
  _ ← validate_attestation_policy;
  _ ← (if cfg_hardened self then
         _ ← refuse (is_lab_only (cfg_attestation_mode self)) (LabFlagForbidden "ATTESTATION_MODE=sim");
         refuse (cfg_lab_timelock_env_set self) (LabFlagForbidden "LAB_TIMELOCK_SCALE")
       else Ok tt);
  _ ← refuse (production_ceremony && cfg_attestation_staging_stub self)
    (LabFlagForbidden "ATTESTATION_STAGING_STUB in production ceremony");
  _ ← refuse (ft_production ft && cfg_attestation_staging_stub self)
    (LabFlagForbidden "ATTESTATION_STAGING_STUB refused under production feature");
  _ ← refuse (not_lab && is_lab_only (cfg_attestation_mode self)) (LabFlagForbidden "ATTESTATION_MODE=sim");
  _ ← validate_tee_claims;
  _ ← refuse (production_ceremony && bool_decide (cfg_attestation_mode self = Software)
              && bool_decide (cfg_measurement_pin_hex self = None)) (AttestationRejected
    "production ATTESTATION_MODE=software requires VAULT_MEASUREMENT_PIN (software ≠ TEE; pin binds measurement)");
  _ ← (if not_lab then validate_ceremony else Ok tt);
  _ ← (if bool_decide (cfg_auth_mode self = MutualTls) then
         _ ← require_mtls_paths; _ ← require_mtls_client_identity; Ok tt
       else Ok tt);
  _ ← validate_tpm_seal_hygiene;
  _ ← validate_transport_hygiene;
  _ ← validate_listen_bind;
  _ ← validate_lab_passphrase_defaults;
  validate_lab_root_honesty.

(* ------------------------------------------------------------------ *)
(** ** What the wiring asks of a configuration *)

Definition governance_reward_config : GovernanceRewardConfig :=
  {| reward_sats := cfg_governance_reward_sats self; reward_bps_of_pool := cfg_governance_reward_bps self |}.
Definition peer_tier (peer_id : string) : VaultNodeTier :=
  let claimed := default Domestic (cfg_peer_tiers self !! peer_id) in
  if negb (tier_is_tee claimed) then claimed
  else if cfg_peer_tier_require_quote self
          && negb match cfg_peer_tier_quotes self !! peer_id with Some q => negb (String.eqb (trim q) "") | None => false end
  then Domestic else claimed.
Fixpoint peer_candidates (l : list (string * string)) : res (list SeatingCandidate) :=
  match l with
  | [] => Ok []
  | (id, _) :: rest =>
      node ← node_id_new id; r ← peer_candidates rest;
      Ok ({| cand_id := node; cand_tier := peer_tier id |} :: r)
  end.
Definition seating_candidates : res (list SeatingCandidate) :=
  peers ← peer_candidates (cfg_seed_peers self);
  Ok ({| cand_id := cfg_node_id self; cand_tier := cfg_node_tier self |} :: peers).
Definition effective_genesis_n : N :=
  default (N.max (len (cfg_seed_peers self) + 1) 2) (cfg_genesis_n self).
(** [while candidates.len() < n]: the pads still missing. *)
Fixpoint pad_candidates (missing : nat) (l : list SeatingCandidate) : res (list SeatingCandidate) :=
  match missing with
  | O => Ok l
  | S k =>
      node ← node_id_new (format "vault-pad-{}" [show (len l)]);
      pad_candidates k (l ++ [{| cand_id := node; cand_tier := Domestic |}])
  end.
Definition seat_genesis : res (list NodeId) :=
  candidates ← seating_candidates;
  let n := N.to_nat effective_genesis_n in
  candidates ← pad_candidates (n - length candidates) candidates;
  Ok (seat_genesis_by_tier candidates n).

Definition effective_lab_timelock_scale : N := if cfg_hardened self then 1 else cfg_lab_timelock_scale self.
Definition lab_endpoints_enabled : bool := negb (cfg_hardened self).
Definition lab_defaults_apply : bool := bool_decide (cfg_ceremony_mode self = CmLab) && negb (cfg_hardened self).
Definition effective_vault_token : option string :=
  match cfg_vault_token self with
  | Some t => Some t | None => if lab_defaults_apply then Some "kerosene-vault-lab-only" else None end.
Definition effective_share_passphrase : option string :=
  match cfg_share_passphrase self with
  | Some p => Some p | None => if lab_defaults_apply then Some lab_passphrase else None end.
(** [PathBuf::join]. *)
Definition path_join (base file : string) : string :=
  if String.eqb base "" || ends_with "/" base then base +:+ file else base +:+ "/" +:+ file.
Definition effective_data_dir : string := default (path_join (cfg_lab_root self) "vault-data") (cfg_data_dir self).
Definition effective_anti_nonce_shared_dir : option string := cfg_anti_nonce_shared_dir self.
End checks.

(* ------------------------------------------------------------------ *)
(** ** Reading the environment *)

Section from_env.
Context `{ND : NodeDirectory}.
(** [vars] is the environment, [exists_] and [read] the file system. *)
Context (ft : Features) (vars : string → option string) (exists_ : string → bool) (read : string → result string bytes).

Definition is_production_env : bool :=
  ft_production ft || eq_ignore_ascii_case (var_or vars "KEROSENE_ENV" "lab") "production".
Definition is_staging_env : bool := eq_ignore_ascii_case (var_or vars "KEROSENE_ENV" "lab") "staging".
Definition hardened_env : bool := env_flag vars "KEROSENE_VAULT_REFUSE_SIM" || is_production_env || is_staging_env.

Definition read_ceremony_mode : res CeremonyMode :=
  let raw := var_or vars "VAULT_CEREMONY_MODE" (var_or vars "KEROSENE_ENV" "lab") in
  ok_or (ceremony_parse raw) (AttestationRejected (format "unknown VAULT_CEREMONY_MODE={}" [raw])).
Definition read_attestation_mode (tier : VaultNodeTier) (ceremony : CeremonyMode) : res AttestationMode :=
  let mode_default :=
    match tier with
    | Domestic => if bool_decide (ceremony = CmLab) && negb hardened_env then "sim" else "software"
    | TierSev => "sev"
    | TierSgx => "sgx"
    end in
  let raw := var_or vars "ATTESTATION_MODE" mode_default in
  ok_or (attestation_mode_parse raw) (AttestationRejected (format "unknown ATTESTATION_MODE={}" [raw])).
Definition read_listen_addr (ceremony : CeremonyMode) : string :=
  var_or vars "VAULT_LISTEN_ADDR"
    (if negb (bool_decide (ceremony = CmLab)) || hardened_env then "127.0.0.1:7701" else "0.0.0.0:7701").
Definition read_seed_peers (ceremony : CeremonyMode) : res (list (string * string)) :=
  match vars "VAULT_KEROSENE_NODE_URL" with
  | Some _ => discover_vault_peers_from_node vars (bool_decide (ceremony = CmStaging))
  | None => parse_seed_peers vars
  end.
Definition read_auth_mode : res AuthMode :=
  let raw := var_or vars "VAULT_AUTH_MODE" (if hardened_env then "mtls" else "static_token") in
  ok_or (auth_parse raw) (AuthRejected (format "unknown VAULT_AUTH_MODE={}" [raw])).
Definition read_share_store_mode (tier : VaultNodeTier) : res ShareStoreMode :=
  let raw := var_or vars "VAULT_SHARE_STORE"
    (match tier with Domestic => "aead_disk" | TierSev | TierSgx => if hardened_env then "tee_seal" else "aead_disk" end) in
  ok_or (share_store_parse raw) (ShareStoreForbidden (format "unknown VAULT_SHARE_STORE={}" [raw])).
Definition read_transport (ceremony : CeremonyMode) : res VaultTransport :=
  let raw := var_or vars "VAULT_TRANSPORT" (if bool_decide (ceremony = CmProduction) then "tor" else "clearnet") in
  ok_or (transport_parse raw) (AttestationRejected (format "unknown VAULT_TRANSPORT={}" [raw])).

(** [from_env] before its last check. *)
Definition read_config : res VaultConfig :=
  node_id ← node_id_new (var_or vars "VAULT_NODE_ID" "vault-local-1");
  '(node_tier, tee_available) ← resolve_node_tier exists_ (vars "VAULT_NODE_TIER");
  ceremony ← read_ceremony_mode;
  attestation ← read_attestation_mode node_tier ceremony;
  seed_peers ← read_seed_peers ceremony;
  peer_tiers ← parse_peer_tiers vars;
  peer_tier_quotes ← parse_peer_tier_quotes vars;
  let btc_raw := var_or vars "BITCOIN_NETWORK" "testnet3" in
  network ← ok_or (network_parse btc_raw) (BitcoinNetworkMismatch (format "unknown BITCOIN_NETWORK={}" [btc_raw]));
  auth_mode ← read_auth_mode;
  store_mode ← read_share_store_mode node_tier;
  dkg_mode ← parse_dkg_mode vars ft hardened_env;
  reshare_policy ← reshare_policy_from_env (vars "VAULT_RESHARE_POLICY");
  transport ← read_transport ceremony;
  verify_policy ← resolve_tls_verify_policy vars transport (node_str node_id) seed_peers;
  audit_keys ← audit_from_env (vars "VAULT_AUDIT_PUBKEY_ALLOWLIST") (vars "VAULT_AUDIT_PUBKEYS_PATH") read;
  Ok {|
    cfg_node_id := node_id;
    cfg_node_tier := node_tier;
    cfg_tee_available := tee_available;
    cfg_attestation_mode := attestation;
    cfg_listen_addr := read_listen_addr ceremony;
    cfg_lab_root := var_or vars "LAB_ATTESTATION_ROOT" default_lab_root;
    cfg_seed_peers := seed_peers;
    cfg_peer_tiers := peer_tiers;
    cfg_peer_tier_quotes := peer_tier_quotes;
    cfg_peer_tier_require_quote := parse_require_quote vars ceremony;
    cfg_refuse_sim := hardened_env;
    cfg_genesis_n := env_uint vars u64_max "VAULT_GENESIS_N";
    cfg_online_count := env_uint vars u64_max "VAULT_ONLINE_COUNT";
    cfg_online_static := env_flag vars "VAULT_ONLINE_STATIC";
    cfg_psbt_policy := parse_psbt_policy vars;
    cfg_lab_timelock_scale := default 0 (env_uint vars u64_max "LAB_TIMELOCK_SCALE");
    cfg_lab_timelock_env_set := bool_decide (is_Some (vars "LAB_TIMELOCK_SCALE"));
    cfg_lab_council_n := default 3 (env_uint vars u64_max "LAB_COUNCIL_N");
    cfg_lab_min_rebuilds := default 3 (env_uint vars u64_max "LAB_MIN_REBUILDS");
    cfg_hardened := hardened_env;
    cfg_attestation_staging_stub := env_flag vars "ATTESTATION_STAGING_STUB";
    cfg_ceremony_mode := ceremony;
    cfg_open_economy := match vars "VAULT_ECONOMY" with
                        | Some v => bool_decide (v ∈ ["open"; "OPEN"; "v1_open"]) | None => false end;
    cfg_miner_payout_cadence := default CadManual (s ← vars "VAULT_MINER_PAYOUT_CADENCE"; cadence_parse s);
    cfg_miner_payout_frequency := default CadDaily (s ← vars "VAULT_MINER_PAYOUT_FREQUENCY"; cadence_parse s);
    cfg_seating_policy_timeout_hours := default 24 (env_uint vars u64_max "VAULT_SEATING_POLICY");
    cfg_bitcoin_network := network;
    cfg_auth_mode := auth_mode;
    cfg_vault_token := env_nonempty_first vars ["VAULT_API_TOKEN"; "VAULT_TOKEN"];
    cfg_users_destination_allowlist := env_list vars "VAULT_USERS_DESTINATION_ALLOWLIST";
    cfg_miners_destination_allowlist := env_list vars "VAULT_MINERS_DESTINATION_ALLOWLIST";
    cfg_allow_manual_reshare := env_flag vars "VAULT_ALLOW_MANUAL_RESHARE";
    cfg_lab_allow_raw_sighash := env_flag vars "VAULT_LAB_ALLOW_RAW_SIGHASH";
    cfg_tls_cert_path := env_nonempty_first vars ["VAULT_TLS_CERT_PATH"];
    cfg_tls_key_path := env_nonempty_first vars ["VAULT_TLS_KEY_PATH"];
    cfg_tls_client_ca_path := env_nonempty_first vars ["VAULT_TLS_CLIENT_CA_PATH"];
    cfg_tls_client_cert_path := env_nonempty_first vars ["VAULT_TLS_CLIENT_CERT_PATH"];
    cfg_tls_client_key_path := env_nonempty_first vars ["VAULT_TLS_CLIENT_KEY_PATH"];
    cfg_tls_verify_policy := verify_policy;
    cfg_audit_key_allowlist := audit_keys;
    cfg_share_store_mode := store_mode;
    cfg_share_passphrase := env_nonempty_first vars ["VAULT_DATA_PASSPHRASE"; "VAULT_SHARE_PASSPHRASE"];
    cfg_share_tpm_seal := env_flag vars "VAULT_SHARE_TPM_SEAL";
    cfg_share_tpm_stub := env_flag vars "VAULT_SHARE_TPM_STUB";
    cfg_share_tpm_clear_fallback := env_flag vars "VAULT_SHARE_TPM_CLEAR_FALLBACK";
    cfg_secure_boot_pcr_policy := env_nonempty_first vars ["VAULT_SECURE_BOOT_PCR_POLICY"];
    cfg_data_dir := env_nonempty_first vars ["VAULT_DATA_DIR"];
    cfg_anti_nonce_shared_dir := env_nonempty_first vars ["VAULT_ANTI_NONCE_SHARED_DIR"];
    cfg_measurement_pin_hex := env_nonempty_first vars ["VAULT_MEASUREMENT_PIN"];
    cfg_dealer_requested := bool_decide (dkg_mode = DealerLab);
    cfg_dkg_mode := dkg_mode;
    cfg_reshare_policy := reshare_policy;
    cfg_governance_reward_sats := default 0 (env_uint vars u64_max "VAULT_GOVERNANCE_REWARD_SATS");
    cfg_governance_reward_bps := default 0 (env_uint vars u32_max "VAULT_GOVERNANCE_REWARD_BPS");
    cfg_transport := transport;
    cfg_peer_http := parse_peer_http vars transport;
    cfg_clearnet_publish := env_flag vars "VAULT_CLEARNET_PUBLISH";
    cfg_admin_unix_socket_path := env_nonempty_first vars ["VAULT_ADMIN_UNIX_SOCKET"];
  |}.
Definition from_env : res VaultConfig :=
  cfg ← read_config; _ ← validate_hygiene ft vars cfg; Ok cfg.

(* ------------------------------------------------------------------ *)
(** ** What the gates guarantee *)

Lemma require_ok b e : require b e = Ok tt ↔ b = true.
Proof. destruct b; naive_solver. Qed.
Lemma refuse_ok b e : refuse b e = Ok tt ↔ b = false.
Proof. destruct b; naive_solver. Qed.
Lemma unit_bind_ok (r : res unit) {B} (k : res B) x : (r ≫= λ _, k) = Ok x ↔ r = Ok tt ∧ k = Ok x.
Proof. destruct r as [[]|]; unfold mbind, result_bind; naive_solver. Qed.
Lemma if_ok (b : bool) (r : res unit) : (if b then r else Ok tt) = Ok tt ↔ (b = true → r = Ok tt).
Proof. destruct b; naive_solver. Qed.
End from_env.

#[export] Hint Rewrite require_ok refuse_ok @unit_bind_ok if_ok andb_false_iff orb_false_iff negb_true_iff negb_false_iff
  bool_decide_eq_true bool_decide_eq_false : gates.

Section gates.
Context `{ND : NodeDirectory} (ft : Features) (vars : string → option string) (exists_ : string → bool)
  (read : string → result string bytes).
Implicit Types c : VaultConfig.

Lemma from_env_ok c : from_env ft vars exists_ read = Ok c →
  read_config ft vars exists_ read = Ok c ∧ validate_hygiene ft vars c = Ok tt.
Proof.
  unfold from_env. rewrite bind_ok. intros (c' & Hr & H). apply bind_ok in H as ([] & Hv & [= <-]). done.
Qed.

(** An all-interface address. *)
Definition binds_all (addr : string) : bool := starts_with "0.0.0.0" (trim addr) || starts_with "[::]" (trim addr).

(** The paths an mTLS server and its outbound calls need. *)
Definition has_mtls_identity c : Prop := ∀ o, o ∈ [cfg_tls_cert_path c; cfg_tls_key_path c; cfg_tls_client_ca_path c;
  cfg_tls_client_cert_path c; cfg_tls_client_key_path c] → ∃ p, o = Some p ∧ p ≠ "".

Lemma nonempty_path_ok o p : nonempty_path o = Some p → o = Some p ∧ p ≠ "".
Proof.
  unfold nonempty_path. destruct o as [s|]; simpl; [|done]. destruct (String.eqb_spec s ""); [done|]. by intros [= <-].
Qed.
Lemma mtls_identity_ok c x y : require_mtls_paths c = Ok x → require_mtls_client_identity c = Ok y → has_mtls_identity c.
Proof.
  unfold require_mtls_paths, require_mtls_client_identity, has_mtls_identity.
  destruct (nonempty_path (cfg_tls_cert_path c)) as [a1|] eqn:E1, (nonempty_path (cfg_tls_key_path c)) as [a2|] eqn:E2,
    (nonempty_path (cfg_tls_client_ca_path c)) as [a3|] eqn:E3; try done. intros _.
  destruct (nonempty_path (cfg_tls_client_cert_path c)) as [a4|] eqn:E4,
    (nonempty_path (cfg_tls_client_key_path c)) as [a5|] eqn:E5; try done. intros _ o Ho.
  apply nonempty_path_ok in E1, E2, E3, E4, E5. repeat (apply elem_of_cons in Ho as [->|Ho]); eauto. by apply elem_of_nil in Ho.
Qed.

Lemma onion_peers_ok l : require_onion_peers l = Ok tt → Forall (λ p, peer_addr_is_onion p.2 = true) l.
Proof.
  induction l as [|[id addr] l IH]; simpl; [constructor|]. rewrite guard_ok_else. intros [H Hl]. constructor; [done|auto].
Qed.

(** Every check that a configuration passed. *)
Lemma hygiene_parts c : validate_hygiene ft vars c = Ok tt →
  (cfg_refuse_sim c && is_lab_only (cfg_attestation_mode c) = false) ∧
  (cfg_hardened c = true → is_lab_only (cfg_attestation_mode c) = false ∧ cfg_lab_timelock_env_set c = false) ∧
  (production_ceremony c = true → cfg_attestation_staging_stub c = false ∧
     (cfg_attestation_mode c = Software → is_Some (cfg_measurement_pin_hex c))) ∧
  (not_lab c = true → is_lab_only (cfg_attestation_mode c) = false ∧ validate_ceremony vars c = Ok tt) ∧
  (cfg_auth_mode c = MutualTls → has_mtls_identity c) ∧
  validate_tee_claims ft c = Ok tt ∧ validate_tpm_seal_hygiene ft c = Ok tt ∧ validate_transport_hygiene c = Ok tt ∧
  validate_listen_bind c = Ok tt ∧ validate_lab_passphrase_defaults ft c = Ok tt ∧ validate_lab_root_honesty c = Ok tt.
Proof.
  unfold validate_hygiene, validate_attestation_policy. rewrite !unit_bind_ok, !if_ok, !refuse_ok.
  intros (H1 & H2 & H3 & _ & H4 & H5 & H6 & H7 & H8 & H9 & H10 & H11 & H12 & H13).
  split; [done|]. split; [intros Hh; specialize (H2 Hh); by rewrite unit_bind_ok, !refuse_ok in H2|].
  split; [intros Hp; rewrite Hp in H3, H6; simpl in H3, H6; split; [done|]; intros Hs;
    rewrite bool_decide_true in H6 by done; simpl in H6; rewrite bool_decide_eq_false in H6;
    destruct (cfg_measurement_pin_hex c); [by eexists|done]|].
  split; [intros Hl; rewrite Hl in H4; split; [done|by apply H7]|].
  split; [|done]. intros Ha. rewrite bool_decide_true in H8 by done. specialize (H8 eq_refl).
  apply bind_ok in H8 as (x & Hx & H8). apply bind_ok in H8 as (y & Hy & _). by eapply mtls_identity_ok.
Qed.

Lemma production_not_lab c : cfg_ceremony_mode c = CmProduction → production_ceremony c = true ∧ not_lab c = true.
Proof. intros H. unfold production_ceremony, not_lab. rewrite H. done. Qed.

(** C6 A production ceremony is locked: whatever the environment, a configuration that [from_env]
    accepts for a production ceremony attests without simulation or stub (by hardware for a TEE
    tier, by a pinned measurement otherwise), generates keys over the wire, authenticates by
    mTLS with all certificate paths, has audit keys (or the check was skipped by name), talks to
    onion peers only, through SOCKS and with SPIFFE names, publishes and binds nothing on clear
    interfaces, seals shares by the TEE or a passphrase and lab root of its own, and uses no
    lab seal; and it was configured with peers or a genesis of two. *)
Theorem production_ceremony_locked c :
  from_env ft vars exists_ read = Ok c → cfg_ceremony_mode c = CmProduction →
  (cfg_attestation_mode c ≠ Sim ∧ cfg_attestation_staging_stub c = false ∧
   (cfg_attestation_mode c = Software → is_Some (cfg_measurement_pin_hex c)) ∧
   (tier_is_tee (cfg_node_tier c) || attestation_is_tee (cfg_attestation_mode c) = true →
      cfg_tee_available c = true ∧ tier_is_tee (cfg_node_tier c) = true)) ∧
  (cfg_dkg_mode c = DistributedWire ∧ cfg_dealer_requested c = false) ∧
  (cfg_auth_mode c = MutualTls ∧ has_mtls_identity c) ∧
  (cfg_audit_key_allowlist c ≠ ∅ ∨ env_flag vars "VAULT_SKIP_AUDIT_KEYS_CHECK" = true) ∧
  (cfg_transport c = Tor ∧ default "" (ph_socks_proxy (cfg_peer_http c)) ≠ "" ∧ cfg_tls_verify_policy c ≠ Hostname ∧
   Forall (λ p, peer_addr_is_onion p.2 = true) (cfg_seed_peers c)) ∧
  (cfg_clearnet_publish c = false ∧ binds_all (cfg_listen_addr c) = false) ∧
  (cfg_share_store_mode c = AeadDisk → is_domestic (cfg_node_tier c) = true ∧
     ∃ p, cfg_share_passphrase c = Some p ∧ p ≠ lab_passphrase) ∧
  (cfg_lab_root c ≠ default_lab_root ∧ cfg_share_tpm_stub c = false ∧ cfg_share_tpm_clear_fallback c = false) ∧
  (cfg_seed_peers c ≠ [] ∨ ∃ n, cfg_genesis_n c = Some n ∧ 2 ≤ n).
Proof.
  intros [_ Hh]%from_env_ok Hm. destruct (production_not_lab c Hm) as [Hp Hl].
  apply hygiene_parts in Hh as (_ & _ & H1 & H2 & H3 & Htee & Htpm & Htr & Hbind & Hpass & Hroot).
  destruct (H1 Hp) as [Hstub Hpin]. destruct (H2 Hl) as [Hsim Hcer].
  unfold validate_ceremony in Hcer. rewrite !unit_bind_ok, !refuse_ok, require_ok, Hp in Hcer. simpl in Hcer.
  destruct Hcer as (Hdeal & Hdkg & Hauth & Haud & Hstore). rewrite bool_decide_eq_true in Hdkg.
  unfold validate_transport_hygiene in Htr. rewrite Hp, Hl in Htr.
  rewrite !unit_bind_ok, if_ok, !unit_bind_ok, !refuse_ok, !require_ok in Htr. simpl in Htr.
  destruct Htr as (Htor & Ht & Hmtls & Hclear & Hiso). destruct (Htor Ht) as (Hsocks & Honion & _ & Hpol).
  rewrite bool_decide_eq_true in Hmtls. split_and!.
  - unfold is_lab_only in Hsim. by rewrite bool_decide_eq_false in Hsim.
  - done.
  - done.
  - intros Htc. unfold validate_tee_claims in Htee. rewrite Htc, Hstub in Htee. simpl in Htee.
    rewrite !guard_ok, negb_false_iff in Htee. destruct Htee as (Hd & Hav & _). split; [done|].
    destruct (cfg_node_tier c); [|done|done]. simpl in *. by rewrite Htc in Hd.
  - done.
  - done.
  - done.
  - by apply H3.
  - rewrite andb_false_iff, bool_decide_eq_false, negb_false_iff in Haud. tauto.
  - by destruct (cfg_transport c).
  - by destruct (String.eqb_spec (default "" (ph_socks_proxy (cfg_peer_http c))) "").
  - intros E. by rewrite Hmtls, E in Hpol.
  - by apply onion_peers_ok.
  - done.
  - unfold validate_listen_bind in Hbind. rewrite refuse_ok, Hp in Hbind. simpl in Hbind. by rewrite andb_true_r in Hbind.
  - intros Ha. rewrite bool_decide_true in Hstore by done. simpl in Hstore. split; [by destruct (cfg_node_tier c)|].
    unfold validate_lab_passphrase_defaults in Hpass. rewrite Hl, bool_decide_true, unit_bind_ok, !refuse_ok in Hpass by done.
    destruct Hpass as [Hpass _]. rewrite !andb_true_r in Hpass. destruct (cfg_share_passphrase c) as [p|]; [|done].
    exists p. split; [done|]. by destruct (String.eqb_spec p lab_passphrase).
  - unfold validate_lab_root_honesty in Hroot. rewrite Hl, andb_true_r, refuse_ok in Hroot.
    by destruct (String.eqb_spec (cfg_lab_root c) default_lab_root).
  - unfold validate_tpm_seal_hygiene in Htpm. rewrite !unit_bind_ok, !if_ok in Htpm. destruct Htpm as (_ & Hs & _).
    destruct (cfg_share_tpm_stub c); [|done]. specialize (Hs eq_refl). by rewrite Hl in Hs.
  - unfold validate_tpm_seal_hygiene in Htpm. rewrite !unit_bind_ok, !if_ok in Htpm. destruct Htpm as (Hs & _).
    destruct (cfg_share_tpm_clear_fallback c); [|done]. specialize (Hs eq_refl). rewrite Hp, orb_true_r in Hs. done.
  - rewrite andb_false_iff, bool_decide_eq_false in Hiso. destruct Hiso as [?|Hiso]; [by left|]. right.
    destruct (cfg_genesis_n c) as [n|]; [|done]. exists n. split; [done|]. by apply N.ltb_ge.
Qed.
End gates.
