(* ===== verification/HttpRoute.v ===== *)
(** * The HTTP surface: routes and who reaches them ([adapters/http.rs])

    The route table of [build_router], the middleware [require_token_mw] in front of the
    protected routes, and what a caller must be to reach each handler. Matching a path against
    a pattern is axum's; JSON printing is serde_json's. *)
From S2P Require Import Prelude RustStr RustParse Errors Identity AuthIdentity RateLimit Frost HybridEnvelope WireDkg.
From S2P Require Import FrostShares ShareReshare HttpPeer PeerTrust ConfigEnv Config.
Local Open Scope N_scope.

(** serde_json: a string as JSON text, and an object or array from printed members. *)
Class SerdeJson := {
  js_string : string → string;
  js_object : list (string * string) → string;
  js_array : list string → string;
}.

Definition Reply : Type := N * string.
Definition OK : N := 200.
Definition BAD_REQUEST : N := 400.
Definition UNAUTHORIZED : N := 401.
Definition FORBIDDEN : N := 403.
Definition NOT_FOUND : N := 404.
Definition CONFLICT : N := 409.
Definition URI_TOO_LONG : N := 414.
Definition TOO_MANY_REQUESTS : N := 429.
Definition INTERNAL_SERVER_ERROR : N := 500.
Definition NOT_IMPLEMENTED : N := 501.
Definition BAD_GATEWAY : N := 502.
Definition SERVICE_UNAVAILABLE : N := 503.

Section json.
Context `{JS : SerdeJson}.
Definition json_err (e : string) : string := js_object [("error", js_string e)].
Definition json_fail (e : DomainError) : string := json_err (fmt_error e).
End json.

(* ------------------------------------------------------------------ *)
(** ** Handlers *)

(** How a handler ends: with a reply, or with a panic of its task. *)
Inductive Exit := Replied (r : Reply) | Panicked.

Definition reject {S B} (code : N) (body : string) : cmd Exit S B := fail (Replied (code, body)).
(** [match c { Ok(x) => x, Err(e) => return (code, json_err(e)) }]. *)
Definition or_reply `{SerdeJson} {S B} (code : N) (c : dcmd S B) : cmd Exit S B :=
  λ s, let '(s', r) := c s in (s', map_err (λ e, Replied (code, json_fail e)) r).
(** [match c { Ok(x) => .., Err(e) => .. }] with both arms going on. *)
Definition attempt {S B} (c : dcmd S B) : cmd Exit S (res B) := λ s, let '(s', r) := c s in (s', Ok r).
(** [let _ = c;]. *)
Definition best_effort {S B} (c : dcmd S B) : cmd Exit S unit := λ s, ((c s).1, Ok tt).
(** [serde_json::from_slice]. *)
Definition body_or_reply `{SerdeJson} {S B} (body : result string B) : cmd Exit S B :=
  lift (map_err (λ e, Replied (BAD_REQUEST, json_err (format "invalid json: {}" [e]))) body).
(** The reply of a handler. *)
Definition handle {S} (c : cmd Exit S Reply) (s : S) : S * Exit :=
  let '(s', r) := c s in (s', match r with Ok x => Replied x | Err x => x end).

Section along.
Context `{JS : SerdeJson} {S : Type} (R : S → S → Prop) `{!PreOrder R}.
Lemma along_or_reply {B} code (c : dcmd S B) : along R c → along R (or_reply code c).
Proof. intros H s. specialize (H s). unfold or_reply. by destruct (c s). Qed.
Lemma along_reject {B} code body : along R (reject (B:=B) code body).
Proof. intros s. reflexivity. Qed.
Lemma along_best_effort {B} (c : dcmd S B) : along R c → along R (best_effort c).
Proof. intros H s. apply H. Qed.
Lemma along_body {B} (body : result string B) : along R (body_or_reply body).
Proof. intros s. reflexivity. Qed.
End along.
#[export] Hint Resolve along_or_reply along_reject along_best_effort along_body : along.

(* ------------------------------------------------------------------ *)
(** ** The table *)

Inductive Handler :=
| HSign | HFinancialQuorum | HFinancialQuorumContext | HAdminStatus | HAdminCeremony
| HIntent | HIntentReserve | HIntentRelease | HIntentCommit
| HBitcoinDeposit | HBitcoinSignSighash | HBitcoinSignPsbt
| HDkgRound1 (taproot : bool) | HDkgRound2 (taproot : bool) | HDkgRound3 (taproot : bool) | HDkgStatus (taproot : bool)
| HReshareTr | HAntiNoncePrepare | HIntentConsumePrepare
| HDayAdvance | HDayVote | HDayCurrent | HReshareTrigger | HTrCommit | HTrSignShare | HLegacy.
#[export] Instance Handler_eq_dec : EqDecision Handler.
Proof. solve_decision. Defined.

Inductive Method := GET | POST.
#[export] Instance Method_eq_dec : EqDecision Method.
Proof. solve_decision. Defined.

(** [build_router]'s protected routes: pattern, and the handler of each method. *)
Definition protected_routes : list (string * list (Method * Handler)) :=
  [("/v1/sign", [(POST, HSign)]); ("/v1/financial-quorum", [(POST, HFinancialQuorum)]);
   ("/v1/financial-quorum/context", [(GET, HFinancialQuorumContext)]);
   ("/v1/admin/status", [(GET, HAdminStatus)]); ("/v1/admin/ceremony", [(GET, HAdminCeremony)]);
   ("/v1/intent", [(POST, HIntent)]); ("/v1/intent/reserve", [(POST, HIntentReserve)]);
   ("/v1/intent/release", [(POST, HIntentRelease)]); ("/v1/intent/commit", [(POST, HIntentCommit)]);
   ("/v1/bitcoin/deposit", [(GET, HBitcoinDeposit)]); ("/v1/bitcoin/sign-sighash", [(POST, HBitcoinSignSighash)]);
   ("/v1/bitcoin/sign-psbt", [(POST, HBitcoinSignPsbt)]);
   ("/v1/dkg/round1", [(POST, HDkgRound1 false)]); ("/v1/dkg/round2", [(POST, HDkgRound2 false)]);
   ("/v1/dkg/round3", [(POST, HDkgRound3 false)]); ("/v1/dkg/status", [(GET, HDkgStatus false)]);
   ("/v1/dkg/tr/round1", [(POST, HDkgRound1 true)]); ("/v1/dkg/tr/round2", [(POST, HDkgRound2 true)]);
   ("/v1/dkg/tr/round3", [(POST, HDkgRound3 true)]); ("/v1/dkg/tr/status", [(GET, HDkgStatus true)]);
   ("/v1/reshare/tr/round1", [(POST, HReshareTr)]); ("/v1/reshare/tr/round2", [(POST, HReshareTr)]);
   ("/v1/reshare/tr/finalize", [(POST, HReshareTr)]); ("/v1/reshare/tr/status", [(GET, HReshareTr)]);
   ("/v1/anti-nonce/prepare", [(POST, HAntiNoncePrepare)]); ("/v1/anti-nonce/ingest", [(POST, HAntiNoncePrepare)]);
   ("/v1/intent/consume/prepare", [(POST, HIntentConsumePrepare)]);
   ("/v1/day/advance", [(POST, HDayAdvance)]); ("/v1/day/vote", [(POST, HDayVote)]);
   ("/v1/day/current", [(GET, HDayCurrent)]); ("/v1/reshare/trigger", [(POST, HReshareTrigger)]);
   ("/v1/frost/tr/commit", [(POST, HTrCommit)]); ("/v1/frost/tr/sign-share", [(POST, HTrSignShare)]);
   ("/health", [(GET, HLegacy)]); ("/ledger", [(GET, HLegacy)]); ("/threshold", [(GET, HLegacy)]);
   ("/economy/status", [(GET, HLegacy)]); ("/release/allowlist", [(GET, HLegacy)]);
   ("/release/{*rest}", [(GET, HLegacy); (POST, HLegacy)]); ("/epoch/{*rest}", [(POST, HLegacy)]);
   ("/sign/{*rest}", [(POST, HLegacy)]); ("/intent/{*rest}", [(POST, HLegacy)]);
   ("/profit/{*rest}", [(POST, HLegacy)]); ("/economy/{*rest}", [(POST, HLegacy)])].

(** The prefix of a pattern that ends in a catch-all. *)
Definition catch_all_prefix (pattern : string) : option string :=
  if ends_with "{*rest}" pattern then Some (str_of (take (String.length pattern - 7) (bytes_of pattern))) else None.
(** A pattern covers itself; a catch-all covers what extends its prefix. *)
Definition covers (pattern path : string) : Prop :=
  match catch_all_prefix pattern with
  | Some prefix => starts_with prefix path = true
  | None => path = pattern
  end.
(** axum: the pattern a path is served under, if any, covers it. *)
Class AxumRouter := { matched_path : list string → string → option string }.
Class AxumRouterSpec `{AX : AxumRouter} : Prop := {
  matched_covers pats path p : matched_path pats path = Some p → p ∈ pats ∧ covers p path;
}.

Definition handler_of `{AX : AxumRouter} (method : Method) (path : string) : option Handler :=
  pattern ← matched_path (protected_routes.*1) path;
  entry ← find (λ r, String.eqb r.1 pattern) protected_routes;
  snd <$> find (λ mh, bool_decide (mh.1 = method)) entry.2.

(* ------------------------------------------------------------------ *)
(** ** The middleware *)

(** [VaultAuthPort] as [VaultRuntime::build] instantiates it. *)
Inductive VaultAuth :=
| StaticAuth (a : StaticTokenAuthAdapter)
| MtlsAuth (reshare_trigger_allowed : bool).

Definition build_auth (config : VaultConfig) : res VaultAuth :=
  let lab := bool_decide (cfg_ceremony_mode config = CmLab) in
  match cfg_auth_mode config with
  | StaticToken =>
      token ← ok_or (effective_vault_token config)
        (AuthRejected "VAULT_API_TOKEN (or VAULT_TOKEN) required for static auth");
      Ok (StaticAuth (static_with_ops token lab (lab || cfg_allow_manual_reshare config)))
  | MutualTls => Ok (MtlsAuth (lab || cfg_allow_manual_reshare config))
  end.
Definition auth_authorize (auth : VaultAuth) (token : option string) : res unit :=
  match auth with StaticAuth a => static_authorize a token | MtlsAuth _ => mtls_authorize token end.
(** The port's default answer is [Ok]. *)
Definition auth_treasury_sign (auth : VaultAuth) : res unit :=
  match auth with StaticAuth a => static_authorize_treasury_sign a | MtlsAuth _ => Ok tt end.
Definition auth_reshare_trigger (auth : VaultAuth) : res unit :=
  match auth with StaticAuth a => static_authorize_reshare_trigger a | MtlsAuth b => mtls_authorize_reshare_trigger b end.

(** The URI and DNS names of a client certificate, or the error of reading them. *)
Definition PeerClientCert : Type := res (list string * list string).
Definition to_principal (cert : PeerClientCert) (local_node_id : string) (allowed : gset string) : res MeshPrincipal :=
  sans ← cert; principal_from_cert_sans sans.1 sans.2 local_node_id allowed.

Record HttpRequest := mk_request {
  rq_method : Method;
  rq_path : string;
  rq_token : option string;       (** [X-Vault-Token] *)
  rq_node : option string;        (** [X-Vault-Node-Id] *)
  rq_mtls_peer : option string;   (** [X-Vault-Mtls-Peer-Node] *)
  rq_cert : option PeerClientCert;
}.

Definition class_text (c : RouteClass) : string :=
  match c with
  | KfeSettlement => "kfe settlement only"
  | VaultPeer => "vault peer only"
  | SharedOps => "shared ops"
  | AdminRead => "vault operator read only"
  end.
Definition mesh_allowed (config : VaultConfig) : gset string :=
  mesh_allowed_node_ids (node_str (cfg_node_id config)) (cfg_seed_peers config).*1.

Section middleware.
Context `{JS : SerdeJson} (config : VaultConfig) (auth : VaultAuth).

Definition request_principal (req : HttpRequest) : result Reply MeshPrincipal :=
  let local := node_str (cfg_node_id config) in
  if bool_decide (cfg_auth_mode config = StaticToken) then Ok (principal_lab_omnipotent local)
  else match rq_cert req with
       | Some cert => map_err (λ e, (UNAUTHORIZED, json_fail e)) (to_principal cert local (mesh_allowed config))
       | None => Err (UNAUTHORIZED, json_err "auth rejected: mTLS client certificate required for mesh principal")
       end.
Definition check_route (principal : MeshPrincipal) (path : string) : result Reply unit :=
  match route_class_for_path path with
  | Some class =>
      if negb (allows_route principal class) then
        Err (FORBIDDEN, json_err (format "auth rejected: role {} cannot call {} ({})"
          [role_str (role principal); path; class_text class]))
      else Ok tt
  | None => Ok tt
  end.
(** The principal the handler gets, or the reply of the refusal; [now] is the limiter's clock. *)
Definition require_token_mw (now : N) (req : HttpRequest) : cmd Reply SlidingWindowLimiter MeshPrincipal :=
  _ ← lift (map_err (λ e, (UNAUTHORIZED, json_fail e)) (auth_authorize auth (rq_token req)));
  _ ← (λ l, let '(l', r) := check now (default (node_str (cfg_node_id config)) (rq_node req)) l in
            (l', map_err (λ e, (TOO_MANY_REQUESTS, json_fail e)) r));
  principal ← lift (request_principal req);
  _ ← lift (check_route principal (rq_path req));
  mret principal.

(** A request to a protected route: the handler it reaches and the principal it runs under;
    [None] when no route matches. *)
Definition admit_request `{AX : AxumRouter} (now : N) (req : HttpRequest) :
    cmd Reply SlidingWindowLimiter (option (Handler * MeshPrincipal)) :=
  match handler_of (rq_method req) (rq_path req) with
  | None => mret None
  | Some h => principal ← require_token_mw now req; mret (Some (h, principal))
  end.
End middleware.

(* ------------------------------------------------------------------ *)
(** ** Who reaches which handler *)

(** The class of callers each handler is meant for; the legacy dispatcher is classed by path,
    the reshare stubs not at all. *)
Definition required_class (h : Handler) : option RouteClass :=
  match h with
  | HSign | HFinancialQuorum | HFinancialQuorumContext | HIntent | HIntentReserve | HIntentRelease | HIntentCommit
  | HBitcoinDeposit | HBitcoinSignSighash | HBitcoinSignPsbt => Some KfeSettlement
  | HDkgRound1 _ | HDkgRound2 _ | HDkgRound3 _ | HDkgStatus _ | HAntiNoncePrepare | HIntentConsumePrepare | HDayVote
  | HTrCommit | HTrSignShare => Some VaultPeer
  | HAdminStatus | HAdminCeremony => Some AdminRead
  | HDayAdvance | HDayCurrent | HReshareTrigger => Some SharedOps
  | HReshareTr | HLegacy => None
  end.

(** Every exact route has the class its handler is meant for, and the catch-alls are legacy. *)
Lemma table_classes : forallb (λ r,
    match catch_all_prefix r.1 with
    | Some _ => forallb (λ mh : Method * Handler, bool_decide (mh.2 = HLegacy)) r.2
    | None => forallb (λ mh : Method * Handler, bool_decide (mh.2 = HLegacy) ||
                bool_decide (route_class_for_path r.1 = required_class mh.2)) r.2
    end) protected_routes = true.
Proof. vm_compute. reflexivity. Qed.

Lemma find_In {A} (f : A → bool) l x : find f l = Some x → In x l ∧ f x = true.
Proof. apply find_some. Qed.

Section guarded.
Context `{JS : SerdeJson, AX : AxumRouter, AXS : !AxumRouterSpec}.

Lemma handler_route m path h : handler_of m path = Some h →
  ∃ r, In r protected_routes ∧ covers r.1 path ∧ In (m, h) r.2.
Proof.
  unfold handler_of. intros (pat & Hp & Hh)%bind_Some. apply bind_Some in Hh as (r & Hr & Hh).
  apply matched_covers in Hp as [_ Hc]. apply find_In in Hr as [Hin Heq]. apply String.eqb_eq in Heq as <-.
  apply fmap_Some in Hh as ([m' h'] & Hf & ->). apply find_In in Hf as [Hmh Hm].
  apply bool_decide_eq_true in Hm as <-. eauto.
Qed.
Lemma handler_class m path h : handler_of m path = Some h → h ≠ HLegacy →
  route_class_for_path path = required_class h.
Proof.
  intros (r & Hr & Hc & Hmh)%handler_route Hl. pose proof table_classes as T. rewrite forallb_forall in T.
  specialize (T r Hr). unfold covers in Hc. destruct (catch_all_prefix r.1); rewrite forallb_forall in T;
    specialize (T _ Hmh); simpl in T; nbool; [done|]. rewrite Hc. by destruct T.
Qed.

(** What the middleware established when it let a request pass. *)
Lemma mw_passed config auth now req l l' p : require_token_mw config auth now req l = (l', Ok p) →
  auth_authorize auth (rq_token req) = Ok tt ∧ request_principal config req = Ok p ∧
  (∀ c, route_class_for_path (rq_path req) = Some c → allows_route p c = true).
Proof.
  unfold require_token_mw. intros H. cbv [mbind cmd_bind lift mret cmd_ret] in H.
  destruct (auth_authorize auth (rq_token req)) as [[]|]; [|done]. simpl in H.
  destruct (check _ _ l) as [l1 [[]|]]; [|done]. simpl in H.
  destruct (request_principal config req) as [p'|] eqn:Hp; [|done].
  unfold check_route in H. destruct (route_class_for_path (rq_path req)) as [c|] eqn:Hc.
  - destruct (allows_route p' c) eqn:Ha; simpl in H; [|done]. injection H as _ <-. split_and!; [done|done|].
    by intros ? [= <-].
  - simpl in H. injection H as _ <-. by split_and!.
Qed.
End guarded.

Lemma local_allowed config : node_str (cfg_node_id config) ∈ mesh_allowed config.
Proof.
  unfold mesh_allowed, mesh_allowed_node_ids. generalize (cfg_seed_peers config).*1 as l.
  assert (∀ (l : list string) (s : gset string) x, x ∈ s →
    x ∈ foldl (λ set id, let id := trim id in if bool_decide (id = "") then set else {[id]} ∪ set) s l) as H.
  { induction l as [|y l IH]; simpl; intros s x Hx; [done|]. apply IH. case_bool_decide; set_solver. }
  intros l. apply H. set_solver.
Qed.

(** The path segments of a SPIFFE name, after the trust domain. *)
Definition spiffe_segments (uri : string) : list string := drop 1 (split_char "/"%char (drop_str 9 (trim uri))).

(** A principal is the one its certificate names. *)
Definition named_by (uris dns : list string) (config : VaultConfig) (p : MeshPrincipal) : Prop :=
  lab_omnipotent p = false ∧
  ∃ uri, uri ∈ uris ∧ spiffe_id p = Some uri ∧
    match role p with
    | Kfe => next_or_empty (spiffe_segments uri) = "kfe"
    | Vault => next_or_empty (spiffe_segments uri) = "vault" ∧ pr_node_id p ∈ mesh_allowed config ∧
        (next_or_empty (drop 1 (spiffe_segments uri)) = pr_node_id p ∨
         next_or_empty (drop 1 (spiffe_segments uri)) = "server" ∧ pr_node_id p ∈ dns)
    end.

Lemma parse_spiffe_ok uri r id : parse_spiffe_principal uri = Ok (r, id) →
  match r with
  | Kfe => next_or_empty (spiffe_segments uri) = "kfe"
  | Vault => next_or_empty (spiffe_segments uri) = "vault" ∧
      match id with
      | Some leaf => next_or_empty (drop 1 (spiffe_segments uri)) = leaf
      | None => next_or_empty (drop 1 (spiffe_segments uri)) = "server"
      end
  end.
Proof.
  unfold parse_spiffe_principal, spiffe_segments. rewrite drop_drop. simpl (1 + 1)%nat.
  repeat case_match; nbool; naive_solver.
Qed.

Lemma known_allowed config id : known_node (node_str (cfg_node_id config)) (mesh_allowed config) id = true →
  id ∈ mesh_allowed config.
Proof. unfold known_node. nbool. intros [?| ->]; [done|apply local_allowed]. Qed.

Lemma principal_named config uris dns p :
  principal_from_cert_sans uris dns (node_str (cfg_node_id config)) (mesh_allowed config) = Ok p →
  named_by uris dns config p.
Proof.
  unfold principal_from_cert_sans. rewrite bind_ok. intros (uri & Huri & H).
  apply ok_or_ok, fmap_Some in Huri as ([i u] & Hf & ->). apply list_find_Some in Hf as (Hi & _ & _).
  apply list_elem_of_lookup_2 in Hi. simpl in *.
  apply bind_ok in H as ([r id] & Hparse & H). apply parse_spiffe_ok in Hparse.
  apply bind_ok in H as (node & Hn & [= <-]). simpl in *. split; [done|]. exists u. split; [done|]. split; [done|].
  simpl. destruct r; [done|]. destruct Hparse as [Hv Hid]. split; [done|].
  destruct id as [id|]; subst.
  - destruct (known_node _ _ _) eqn:Hk in Hn; simpl in Hn; [|done]. injection Hn as <-.
    split; [by apply known_allowed|by left].
  - destruct (filter _ dns) as [|one [|? ?]] eqn:Hf; [done| |done]. injection Hn as <-.
    assert (one ∈ filter (λ d, Is_true (known_node (node_str (cfg_node_id config)) (mesh_allowed config) d)) dns) as Hin
      by (rewrite Hf; by left).
    apply list_elem_of_filter in Hin as [Hk%Is_true_true Hd]. split; [by apply known_allowed|right; done].
Qed.

Section access.
Context `{JS : SerdeJson, AX : AxumRouter, AXS : !AxumRouterSpec}.

Lemma admit_ok config auth now req l l' h p : admit_request config auth now req l = (l', Ok (Some (h, p))) →
  handler_of (rq_method req) (rq_path req) = Some h ∧ ∃ l1, require_token_mw config auth now req l = (l1, Ok p).
Proof.
  unfold admit_request. destruct (handler_of _ _) as [h'|]; [|done].
  rewrite cmd_bind_ok. intros (l1 & p' & Hm & [_ [= <- <-]]%mret_ok). eauto.
Qed.

(** Under mTLS the principal is the one the certificate names. *)
Lemma principal_of_cert config req p : cfg_auth_mode config = MutualTls → request_principal config req = Ok p →
  ∃ uris dns, rq_cert req = Some (Ok (uris, dns)) ∧ named_by uris dns config p.
Proof.
  unfold request_principal. intros ->. simpl. destruct (rq_cert req) as [[[uris dns]|]|]; [|done..].
  unfold map_err. destruct (to_principal _ _ _) as [p1|] eqn:Ht; [|done]. intros [= ->].
  exists uris, dns. split; [done|]. by apply principal_named.
Qed.

(** C10 Handlers are reached by the callers they are meant for: when the router and the middleware
    admit a request to a handler, then under static tokens the request carries exactly the
    configured token; under mTLS it carries no token and a client certificate whose SPIFFE name
    (and, for a shared vault certificate, whose DNS names) give the principal the handler runs
    under, a kfe workload or a vault known to this mesh, and the settlement and signing handlers
    run for kfe only, the peer and admin handlers for known vaults only. *)
Theorem handlers_guarded config auth now req l l' h p :
  build_auth config = Ok auth → admit_request config auth now req l = (l', Ok (Some (h, p))) →
  match cfg_auth_mode config with
  | StaticToken => is_Some (rq_token req) ∧ rq_token req = effective_vault_token config
  | MutualTls =>
      default "" (rq_token req) = "" ∧
      (∃ uris dns, rq_cert req = Some (Ok (uris, dns)) ∧ named_by uris dns config p) ∧
      (required_class h = Some KfeSettlement → role p = Kfe) ∧
      (required_class h = Some VaultPeer ∨ required_class h = Some AdminRead →
         role p = Vault ∧ pr_node_id p ∈ mesh_allowed config)
  end.
Proof.
  intros Hauth (Hh & l1 & (Ha & Hp & Hc)%mw_passed)%admit_ok. unfold build_auth in Hauth.
  destruct (cfg_auth_mode config) eqn:Hm.
  - apply bind_ok in Hauth as (token & Ht%ok_or_ok & [= <-]). simpl in Ha. unfold static_authorize in Ha.
    destruct (rq_token req) as [t|]; [|done]. rewrite !guard_ok, negb_false_iff, bool_decide_eq_true in Ha.
    destruct Ha as (_ & Hb & _). split; [by eexists|]. rewrite Ht. simpl in Hb. f_equal.
    by rewrite <- (str_of_bytes_of t), Hb, str_of_bytes_of.
  - injection Hauth as <-. simpl in Ha. apply principal_of_cert in Hp as (uris & dns & Hcert & Hn); [|done].
    pose proof Hn as (Hlab & uri & _ & _ & Hr).
    assert (∀ c, required_class h = Some c → role p = match c with KfeSettlement => Kfe | VaultPeer | AdminRead => Vault | SharedOps => role p end) as Hrole.
    { intros c Hk. assert (h ≠ HLegacy) by (by intros ->). rewrite (handler_class _ _ _ Hh) in Hc by done.
      specialize (Hc _ Hk). unfold allows_route in Hc. rewrite Hlab in Hc. destruct c; by try apply bool_decide_eq_true in Hc. }
    split_and!; [|by exists uris, dns|by intros ?%Hrole|].
    + destruct (rq_token req) as [t|]; [|done]. simpl in Ha. by case_bool_decide.
    + intros Hk. assert (role p = Vault) as Hv by (by destruct Hk as [?%Hrole|?%Hrole]).
      split; [done|]. rewrite Hv in Hr. by destruct Hr as (_ & ? & _).
Qed.

(** The routes without a class are open to every certificate of the mesh. *)
Lemma unclassed_routes :
  filter (λ r, route_class_for_path r.1 = None) protected_routes =
    [("/v1/reshare/tr/round1", [(POST, HReshareTr)]); ("/v1/reshare/tr/round2", [(POST, HReshareTr)]);
     ("/v1/reshare/tr/finalize", [(POST, HReshareTr)]); ("/v1/reshare/tr/status", [(GET, HReshareTr)]);
     ("/profit/{*rest}", [(POST, HLegacy)])].
Proof. vm_compute. reflexivity. Qed.
End access.
