(* ===== verification/HttpTreasury.v ===== *)
(** * Money over HTTP ([adapters/http.rs], 295-640 and 1150-1320)

    The settlement and signing handlers: the intent gate around the Taproot signer. A handler
    runs to its end without interruption; bodies arrive parsed by serde, or with its error. *)
From S2P Require Import Prelude RustStr Errors Identity DayEpoch Bucket Psbt BucketLedger PersistedLedger AntiNonce DailyRotation.
From S2P Require Import Constitution Ledger Economy Gate AuthIdentity RateLimit Frost HybridEnvelope WireDkg.
From S2P Require Import FrostShares ShareReshare FrostSign Cosign TrSign HttpPeer PeerTrust ConfigEnv Config HttpRoute.
Local Open Scope N_scope.

Definition nonempty (o : option string) : option string := s ← o; if String.eqb s "" then None else Some s.

Record BitcoinPsbtBody := mk_psbt_body {
  pb_session_id : string; pb_psbt : string; pb_intent_id : option string; pb_bucket : option string;
  pb_destination : option string; pb_amount_sats : option N; pb_commit_intent : bool }.
Record BitcoinSighashBody := mk_sighash_body {
  sb_session_id : string; sb_sighash_hex : string; sb_intent_id : option string; sb_bucket : option string;
  sb_destination : option string; sb_amount_sats : option N }.
Record IntentBody := mk_intent_body {
  ib_intent_id : string; ib_bucket : string; ib_destination : string; ib_amount_sats : N;
  ib_ed25519_signature_hex : option string; ib_ml_dsa65_signature_hex : option string;
  ib_ed25519_key_id : option string; ib_ml_dsa_key_id : option string }.
Record IntentReleaseBody := mk_release_body { rb_intent_id : string; rb_bucket : string; rb_amount_sats : N }.
Record FinancialQuorumBody := mk_quorum_body {
  fb_proposal_hash : string; fb_constitution_hash : string; fb_constitution_epoch : N;
  fb_submitted_at_epoch_ms : Z; fb_expires_at_epoch_ms : Z }.

(** [has_reservation] of the bucket ledger port. *)
Class ReservationPort (Env St : Type) := { rp_has_reservation : Env → string → dcmd St bool }.
#[export] Instance mem_reservations : ReservationPort (N * N) BucketState :=
  {| rp_has_reservation env := mem_has_reservation env.1 |}.
#[export] Instance persisted_reservations : ReservationPort (N * N * Io) PState :=
  {| rp_has_reservation env := persisted_has_reservation env.1.1 |}.
Class Sha384 := sha384 : bytes → bytes.
Definition compute_canonical_hash `{Sha384} (b : bytes) : bytes := take 48 (sha384 b).

Section treasury.
Context `{JS : SerdeJson, FR : Frost, EY : !EvenY, FS : !FrostStorage, SG : !FrostSign, HX : HexCodec, SH : Sha256, S3 : Sha384}.
Context `{BL : TaprootLib, AL : AddressLib, TWt : TxWeight}.
Context {AEnv A M : Type} `{AP : !AntiNoncePort AEnv A, TP : !TrCosignTransport M}.
Context {Env St : Type} `{BP : !BucketPort Env St, RPt : !ReservationPort Env St}.

(** What the runtime fixed when it was built. *)
Record HttpRuntime := mk_http_runtime {
  hr_config : VaultConfig;
  hr_auth : VaultAuth;
  hr_frost_tr : option FrostTrBitcoinOrchestrator;
  hr_frost_tr_channels : option FrostTrBitcoinOrchestrator;
}.
(** What the handlers change: the gate's ledgers, and the signer's. *)
Record TreasuryNode := mk_treasury { tn_gate : GateNode St; tn_sign : SignNode (A:=A) (M:=M) }.
(** Readings of one call: the ledger's environment when an intent is held and when it is settled,
    the signer's, the probed number of vaults online and the threshold. *)
Record HttpEnv := mk_http_env {
  he_reserve : Env; he_settle : Env; he_sign : SignEnv (AEnv:=AEnv); he_online : N; he_need : N; he_rng : Rng }.

Definition on_gate {B} : dcmd (GateNode St) B → dcmd TreasuryNode B :=
  zoom tn_gate (λ g s, mk_treasury g (tn_sign s)).
Definition on_sign {B} : dcmd SignNode B → dcmd TreasuryNode B := zoom tn_sign (λ n s, mk_treasury (tn_gate s) n).
Definition on_ledger {B} (c : dcmd LedgerState B) : dcmd TreasuryNode B :=
  on_gate (zoom node (λ n g, {| buckets := buckets g; node := n |}) (on_led c)).
Definition has_reservation (env : Env) (id : string) : dcmd TreasuryNode bool :=
  on_gate (on_buckets (rp_has_reservation env id)).

Context (rt : HttpRuntime).
Notation network := (cfg_bitcoin_network (hr_config rt)).

Definition build_settlement_intent (intent_id bucket destination : option string) (amount_sats : option N)
    (require_shared_tr : bool) : dcmd TreasuryNode SettlementIntent :=
  id ← lift (ok_or (nonempty intent_id) (InvalidIntent "intent_id required before bitcoin sign"));
  let bucket_raw := default "USERS" bucket in
  let destination := default "" destination in
  let amount := default 0 amount_sats in
  if String.eqb destination "" || (amount =? 0) then
    fail (InvalidIntent "destination and amount_sats required for Intent gate")
  else
    _ ← lift (validate_destination network destination);
    bucket ← lift (bucket_parse bucket_raw);
    _ ← lift (if require_shared_tr then assert_shared_taproot_bucket bucket else Ok tt);
    constitution ← on_ledger ledger_constitution;
    lift (settlement_intent_new id bucket destination amount (hash constitution)).
Definition maybe_reserve_intent (env : Env) (intent_id bucket destination : option string) (amount_sats : option N)
    (require_shared_tr : bool) : dcmd TreasuryNode GateReceipt :=
  intent ← build_settlement_intent intent_id bucket destination amount_sats require_shared_tr;
  on_gate (gate_reserve env intent).
Definition maybe_gate_intent (env : Env) (intent_id bucket destination : option string) (amount_sats : option N)
    (require_shared_tr : bool) : dcmd TreasuryNode unit :=
  intent ← build_settlement_intent intent_id bucket destination amount_sats require_shared_tr;
  _ ← on_gate (gate_execute env intent);
  mret tt.

(** The keyset of the bucket. *)
Definition select_keyset (bucket : BucketKind) : cmd Exit TreasuryNode (option FrostTrBitcoinOrchestrator) :=
  match bucket with
  | Users => _ ← or_reply BAD_REQUEST (lift (assert_shared_taproot_bucket bucket)); mret (hr_frost_tr rt)
  | Channels => _ ← or_reply BAD_REQUEST (lift (assert_channels_taproot_bucket bucket)); mret (hr_frost_tr_channels rt)
  | other => reject BAD_REQUEST (json_err (format
      "bucket {} cannot spend Taproot; only USERS (shared) or CHANNELS (own key)" [bucket_str other]))
  end.

(** The hold of a request: a new one, or with [commit_intent = false] the one already there;
    what to settle or give back. *)
Definition hold_intent (env : HttpEnv) (req : BitcoinPsbtBody) (intent_id : string) (bucket : BucketKind) :
    cmd Exit TreasuryNode (BucketKind * N * string) :=
  let destination := default "" (pb_destination req) in
  let amount := default 0 (pb_amount_sats req) in
  if pb_commit_intent req then
    receipt ← or_reply BAD_REQUEST (maybe_reserve_intent (he_reserve env) (Some intent_id)
      (Some (default "USERS" (pb_bucket req))) (nonempty (Some destination)) (pb_amount_sats req)
      (bool_decide (bucket = Users)));
    mret (r_bucket receipt, r_amount_sats receipt, r_intent_id receipt)
  else
    held ← or_reply BAD_REQUEST (has_reservation (he_reserve env) intent_id);
    if negb held then
      reject BAD_REQUEST (json_err (format "commit_intent=false requires existing reservation for {}" [intent_id]))
    else if String.eqb destination "" || (amount =? 0) then
      reject BAD_REQUEST (json_err "destination and amount_sats required for PSBT bind")
    else
      _ ← or_reply BAD_REQUEST (lift (validate_destination network destination));
      mret (bucket, amount, intent_id).

Definition v1_bitcoin_sign_psbt (env : HttpEnv) (body : result string BitcoinPsbtBody) : cmd Exit TreasuryNode Reply :=
  _ ← or_reply UNAUTHORIZED (lift (auth_treasury_sign (hr_auth rt)));
  req ← body_or_reply body;
  let intent_id := default (pb_session_id req) (nonempty (pb_intent_id req)) in
  let destination := default "" (pb_destination req) in
  let amount := default 0 (pb_amount_sats req) in
  bucket ← or_reply BAD_REQUEST (lift (bucket_parse (default "USERS" (pb_bucket req))));
  tr ← select_keyset bucket;
  hold ← hold_intent env req intent_id bucket;
  let '(receipt_bucket, receipt_amount, receipt_intent_id) := hold in
  let give_back : cmd Exit TreasuryNode unit :=
    if pb_commit_intent req
    then best_effort (on_gate (gate_release (he_settle env) receipt_intent_id receipt_bucket receipt_amount))
    else mret tt in
  match tr with
  | None =>
      _ ← give_back;
      reject SERVICE_UNAVAILABLE (q "{`error`:`taproot FROST not installed for bucket`}")
  | Some tr =>
      if he_online env <? he_need env then
        _ ← give_back;
        reject BAD_REQUEST (json_err (format "fail-stop: online {} < t {}" [show (he_online env); show (he_need env)]))
      else
        r ← attempt (on_sign (sign_psbt tr (he_sign env) (pb_session_id req) (pb_psbt req) destination amount));
        match r with
        | Ok signed =>
            _ ← (if pb_commit_intent req
                 then or_reply BAD_REQUEST (on_gate (gate_commit (he_settle env) receipt_intent_id))
                 else mret tt);
            mret (OK, signed_psbt_json signed)
        | Err e => _ ← give_back; mret (BAD_REQUEST, json_fail e)
        end
  end.

Definition blank (o : option string) : bool := String.eqb (default "" o) "".

Definition v1_bitcoin_sign_sighash (env : HttpEnv) (body : result string BitcoinSighashBody) :
    cmd Exit TreasuryNode Reply :=
  _ ← or_reply UNAUTHORIZED (lift (auth_treasury_sign (hr_auth rt)));
  if negb (bool_decide (cfg_ceremony_mode (hr_config rt) = CmLab)) then
    reject FORBIDDEN (q "{`error`:`raw sighash signing refused outside lab; use Intent-bound /v1/bitcoin/sign-psbt`}")
  else if negb (cfg_lab_allow_raw_sighash (hr_config rt)) then
    reject FORBIDDEN (q "{`error`:`raw sighash signing requires VAULT_LAB_ALLOW_RAW_SIGHASH=1; prefer Intent-bound /v1/bitcoin/sign-psbt`}")
  else
    req ← body_or_reply body;
    if blank (sb_intent_id req) || blank (sb_bucket req) || blank (sb_destination req)
       || (default 0 (sb_amount_sats req) =? 0) then
      reject BAD_REQUEST (json_err
        "raw sighash requires intent_id, bucket, destination, and amount_sats (outputs still unbound -- prefer sign-psbt)")
    else
      _ ← or_reply BAD_REQUEST (maybe_gate_intent (he_reserve env) (sb_intent_id req) (sb_bucket req)
            (sb_destination req) (sb_amount_sats req) true);
      match hr_frost_tr rt with
      | None => reject SERVICE_UNAVAILABLE (q "{`error`:`taproot FROST not installed`}")
      | Some tr =>
          sighash ← lift (map_err (λ e, Replied (BAD_REQUEST, json_err (format "sighash_hex: {}" [e])))
                       (hex_decode (trim (sb_sighash_hex req))));
          sig ← or_reply BAD_REQUEST (on_sign (sign_sighash tr (he_sign env) (sb_session_id req) sighash));
          mret (OK, sighash_signature_json sig)
      end.

(** [q.bucket] of the query string. *)
Definition v1_bitcoin_deposit (bucket : option string) : cmd Exit TreasuryNode Reply :=
  kind ← or_reply BAD_REQUEST (lift (bucket_parse (default "USERS" bucket)));
  tr ← match kind with
       | Users => mret (hr_frost_tr rt)
       | Channels => mret (hr_frost_tr_channels rt)
       | other => reject BAD_REQUEST (json_err (format "bitcoin deposit Taproot key not available for bucket {}" [bucket_str other]))
       end;
  match tr with
  | None => reject SERVICE_UNAVAILABLE (q "{`error`:`taproot FROST not installed for bucket (dealer_lab / DKG required)`}")
  | Some tr => info ← or_reply BAD_REQUEST (lift (deposit_info tr)); mret (OK, deposit_info_json info)
  end.

(* ------------------------------------------------------------------ *)
(** ** The two-phase intent *)

(** The bytes of the classical signature, in its array of 64: [copy_from_slice] panics when they are fewer. *)
Definition ed25519_array {S} (b : bytes) : cmd Exit S bytes :=
  if len b <? 64 then fail Panicked
  else if negb (len b =? 64) then reject BAD_REQUEST (json_err "ed25519_sig must be 64 bytes")
  else mret b.
Definition canonical_intent (i : SettlementIntent) : string :=
  js_object [("intent_id", js_string (intent_id i)); ("bucket", js_string (bucket_str (bucket i)));
             ("destination", js_string (destination i)); ("amount_sats", show (amount_sats i));
             ("policy_hash", js_string (policy_hash i))].
(** The signature block: present when a signature is given or the downgrade policy asks for both. *)
Definition sign_intent (req : IntentBody) (require_pq : bool) (intent : SettlementIntent) :
    cmd Exit TreasuryNode SettlementIntent :=
  if bool_decide (is_Some (ib_ed25519_signature_hex req)) || bool_decide (is_Some (ib_ml_dsa65_signature_hex req))
     || require_pq then
    let ed_sig_hex := default "" (ib_ed25519_signature_hex req) in
    let ml_sig_hex := default "" (ib_ml_dsa65_signature_hex req) in
    ed ← lift (map_err (λ e, Replied (BAD_REQUEST, json_err (format "ed25519_sig hex: {}" [e]))) (hex_decode ed_sig_hex));
    ml ← (if String.eqb ml_sig_hex "" then mret []
          else lift (map_err (λ e, Replied (BAD_REQUEST, json_err (format "ml_dsa65_sig hex: {}" [e]))) (hex_decode ml_sig_hex)));
    ed_arr ← ed25519_array ed;
    let sig := {| ed25519_signature := ed_arr; ml_dsa65_signature := ml;
                  ed25519_key_id := default "" (ib_ed25519_key_id req); ml_dsa_key_id := default "" (ib_ml_dsa_key_id req);
                  canonical_hash := compute_canonical_hash (bytes_of (canonical_intent intent)) |} in
    _ ← or_reply UNAUTHORIZED (lift (validate_stub sig require_pq));
    mret (with_signature sig intent)
  else mret intent.
Definition parse_settlement_intent (body : result string IntentBody) : cmd Exit TreasuryNode SettlementIntent :=
  req ← body_or_reply body;
  _ ← or_reply BAD_REQUEST (lift (validate_destination network (ib_destination req)));
  bucket ← or_reply BAD_REQUEST (lift (bucket_parse (ib_bucket req)));
  constitution ← or_reply INTERNAL_SERVER_ERROR (on_ledger ledger_constitution);
  let require_pq := require_pq_signatures (downgrade_policy constitution)
                    && hybrid_signature_required (downgrade_policy constitution) in
  intent ← or_reply BAD_REQUEST (lift (settlement_intent_new (ib_intent_id req) bucket (ib_destination req)
             (ib_amount_sats req) (hash constitution)));
  sign_intent req require_pq intent.

Definition v1_intent (env : HttpEnv) (body : result string IntentBody) : cmd Exit TreasuryNode Reply :=
  intent ← parse_settlement_intent body;
  r ← or_reply BAD_REQUEST (on_gate (gate_execute (he_reserve env) intent));
  mret (OK, gate_receipt_json r).
Definition v1_intent_reserve (env : HttpEnv) (body : result string IntentBody) : cmd Exit TreasuryNode Reply :=
  intent ← parse_settlement_intent body;
  r ← or_reply BAD_REQUEST (on_gate (gate_reserve (he_reserve env) intent));
  mret (OK, gate_receipt_json r).
Definition v1_intent_release (env : HttpEnv) (body : result string IntentReleaseBody) : cmd Exit TreasuryNode Reply :=
  req ← body_or_reply body;
  bucket ← or_reply BAD_REQUEST (lift (bucket_parse (rb_bucket req)));
  _ ← or_reply BAD_REQUEST (on_gate (gate_release (he_settle env) (rb_intent_id req) bucket (rb_amount_sats req)));
  mret (OK, format (q "{{`intent_id`:`{}`,`bucket`:`{}`,`amount_sats`:{},`status`:`RELEASED`}}")
    [rb_intent_id req; bucket_str bucket; show (rb_amount_sats req)]).
Definition v1_intent_commit (env : HttpEnv) (body : result string string) : cmd Exit TreasuryNode Reply :=
  intent_id ← body_or_reply body;
  if String.eqb (trim intent_id) "" then reject BAD_REQUEST (json_err "intent_id required")
  else
    _ ← or_reply BAD_REQUEST (on_gate (gate_commit (he_settle env) (trim intent_id)));
    mret (OK, format (q "{{`intent_id`:`{}`,`status`:`COMMITTED`}}") [trim intent_id]).

(* ------------------------------------------------------------------ *)
(** ** The financial quorum *)

Definition v1_financial_quorum_context : cmd Exit TreasuryNode Reply :=
  epoch ← or_reply SERVICE_UNAVAILABLE (on_ledger ledger_epoch);
  mret (OK, js_object [("constitution_hash", js_string (epoch_constitution_hash epoch));
    ("constitution_epoch", show (number epoch)); ("configured_members", show (len (active_set epoch)));
    ("active_members", js_array (js_string ∘ node_str <$> active_set epoch))]).

(** 30 s of clock skew, and not expired; times are milliseconds. *)
Definition proposal_timely (now_ms : Z) (req : FinancialQuorumBody) : bool :=
  negb ((now_ms + 30000 <? fb_submitted_at_epoch_ms req)%Z || (fb_expires_at_epoch_ms req <=? now_ms)%Z
        || (fb_expires_at_epoch_ms req <=? fb_submitted_at_epoch_ms req)%Z).
Definition show_z (z : Z) : string := pretty z.
Definition quorum_text (req : FinancialQuorumBody) : string :=
  format "kerosene-financial-quorum-v1|{}|{}|{}|{}|{}"
    [fb_proposal_hash req; fb_constitution_hash req; show (fb_constitution_epoch req);
     show_z (fb_submitted_at_epoch_ms req); show_z (fb_expires_at_epoch_ms req)].
(** [digest] is the SHA-256 digest of the text: the bytes its hex names. *)
Definition v1_financial_quorum (env : HttpEnv) (now_ms : Z) (body : result string FinancialQuorumBody) :
    cmd Exit TreasuryNode Reply :=
  _ ← or_reply UNAUTHORIZED (lift (auth_treasury_sign (hr_auth rt)));
  req ← lift (map_err (λ e, Replied (BAD_REQUEST, json_err (format "invalid financial quorum json: {}" [e]))) body);
  if negb (str_len (fb_proposal_hash req) =? 64) || negb (is_ok (hex_decode (fb_proposal_hash req))) then
    reject BAD_REQUEST (json_err "proposal_hash must be 32-byte lowercase/uppercase hex")
  else if negb (proposal_timely now_ms req) then
    reject BAD_REQUEST (json_err "financial quorum proposal is expired or outside allowed clock skew")
  else
    epoch ← or_reply SERVICE_UNAVAILABLE (on_ledger ledger_epoch);
    if negb (String.eqb (fb_constitution_hash req) (epoch_constitution_hash epoch))
       || negb (fb_constitution_epoch req =? number epoch) then
      reject CONFLICT (json_err "financial quorum constitution hash/epoch mismatch")
    else
      let digest_hex := sha256_hex (bytes_of (quorum_text req)) in
      match hr_frost_tr rt with
      | None => reject SERVICE_UNAVAILABLE (json_err "USERS distributed FROST signer is unavailable")
      | Some signer =>
          digest ← lift (map_err (λ e, Panicked) (hex_decode digest_hex));
          proof ← or_reply SERVICE_UNAVAILABLE (on_sign (on_net (sign_financial_quorum_proof signer (he_rng env) digest)));
          let accepted := qp_participant_node_ids proof in
          let unavailable := filter (λ n, n ∉ accepted) (node_str <$> active_set epoch) in
          mret (OK, js_object [("decision", js_string "ACCEPTED"); ("proposal_hash", js_string (fb_proposal_hash req));
            ("constitution_hash", js_string (fb_constitution_hash req)); ("constitution_epoch", show (fb_constitution_epoch req));
            ("configured_members", show (len (active_set epoch))); ("required_threshold", show (qp_required_threshold proof));
            ("accepted_members", js_array (js_string <$> accepted)); ("rejected_members", js_array []);
            ("unavailable_members", js_array (js_string <$> unavailable)); ("aggregate_proof", js_string (qp_signature_hex proof));
            ("verifying_key", js_string (qp_verifying_key_hex proof)); ("signed_digest", js_string digest_hex);
            ("decided_at_epoch_ms", show_z now_ms)])
      end.
End treasury.
