(* ===== verification/HttpSettle.v ===== *)
(** * What the money handlers of [adapters/http.rs] guarantee

    An intent is settled once over all endpoints, and a PSBT signed over HTTP is one the
    intent gate admitted. *)
From S2P Require Import Prelude RustStr Errors Identity DayEpoch Bucket Psbt BucketLedger PersistedLedger AntiNonce DailyRotation.
From S2P Require Import Constitution Ledger Economy Gate AuthIdentity RateLimit Frost HybridEnvelope WireDkg.
From S2P Require Import FrostShares ShareReshare FrostSign Cosign TrSign HttpPeer PeerTrust ConfigEnv Config HttpRoute HttpTreasury.
Local Open Scope N_scope.

Section settle.
Context `{JS : SerdeJson, FR : Frost, EY : !EvenY, FS : !FrostStorage, SG : !FrostSign, HX : HexCodec, SH : Sha256, S3 : Sha384}.
Context `{BL : TaprootLib, AL : AddressLib, TWt : TxWeight}.
Context {AEnv A M : Type} `{AP : !AntiNoncePort AEnv A, TP : !TrCosignTransport M}.
Context {Env St : Type} `{BP : !BucketPort Env St, SP : !BucketPortSpec Env St, RPt : !ReservationPort Env St}.
Context (rt : HttpRuntime).
Implicit Types s : TreasuryNode (A:=A) (M:=M) (St:=St).

(** The probe of a hold burns nothing back. *)
Class ReservationPortSpec : Prop := {
  rps_keep env id (b : St) i : bp_burned b i → bp_burned (rp_has_reservation env id b).1 i;
}.
Context `{RPS : !ReservationPortSpec}.

Definition burned s (id : string) : Prop := bp_burned (buckets (tn_gate s)) id.
Definition keeps s s' : Prop := ∀ i, burned s i → burned s' i.
Lemma keeps_trans s1 s2 s3 : keeps s1 s2 → keeps s2 s3 → keeps s1 s3.
Proof. unfold keeps. auto. Qed.

(** A command unburns nothing; an early exit is never a success. *)
Definition exit_bad (e : Exit) : Prop := match e with Replied (code, _) => code ≠ OK | Panicked => True end.
Definition steady {E B} (bad : E → Prop) (c : cmd E (TreasuryNode (A:=A) (M:=M) (St:=St)) B) : Prop :=
  ∀ s, keeps s (c s).1 ∧ match (c s).2 with Ok _ => True | Err e => bad e end.
Notation any := (λ _, True).

Lemma steady_bind {E B C} bad (c : cmd E _ B) (f : B → cmd E _ C) :
  steady bad c → (∀ x, steady bad (f x)) → steady bad (c ≫= f).
Proof.
  intros Hc Hf s. unfold mbind, cmd_bind. destruct (Hc s) as [H1 H2]. destruct (c s) as [s1 [x|e]]; simpl in *; [|done].
  destruct (Hf x s1) as [H3 H4]. split; [by eapply keeps_trans|done].
Qed.
Lemma steady_ret {E B} bad (x : B) : steady (E:=E) bad (mret x).
Proof. intros s. by split; [intros i|]. Qed.
Lemma steady_fail {E B} (bad : E → Prop) e : bad e → steady (B:=B) bad (fail e).
Proof. intros H s. by split; [intros i|]. Qed.
Lemma steady_lift {E B} (bad : E → Prop) (r : result E B) : (∀ e, r = Err e → bad e) → steady bad (lift r).
Proof. intros H s. split; [by intros i|]. unfold lift. destruct r; simpl; auto. Qed.
Lemma steady_lift_any {B} (r : res B) : steady any (lift r).
Proof. by apply steady_lift. Qed.
Lemma steady_fail_any {E B} (e : E) : steady (B:=B) any (fail e).
Proof. by apply steady_fail. Qed.
Lemma steady_reject {B} code body : code ≠ OK → steady (B:=B) exit_bad (reject code body).
Proof. intros. by apply steady_fail. Qed.
Lemma steady_panic {B} : steady (B:=B) exit_bad (fail Panicked).
Proof. by apply steady_fail. Qed.
Lemma steady_or_reply {B} code (c : dcmd _ B) : code ≠ OK → steady any c → steady exit_bad (or_reply code c).
Proof. intros Hn Hc s. destruct (Hc s) as [H1 _]. unfold or_reply. destruct (c s) as [s' [x|e]]; by split. Qed.
Lemma steady_attempt {B} (c : dcmd _ B) : steady any c → steady exit_bad (attempt c).
Proof. intros Hc s. destruct (Hc s) as [H1 _]. unfold attempt. destruct (c s) as [s' [x|e]]; by split. Qed.
Lemma steady_best_effort {B} (c : dcmd _ B) : steady any c → steady exit_bad (best_effort c).
Proof. intros Hc s. by destruct (Hc s) as [H1 _]. Qed.
Lemma steady_body {B} (body : result string B) : steady exit_bad (body_or_reply body).
Proof. apply steady_lift. intros e. destruct body as [|e']; [done|]. by intros [= <-]. Qed.
Lemma steady_map_err {F B} (f : F → Exit) (r : result F B) : (∀ e, exit_bad (f e)) → steady exit_bad (lift (map_err f r)).
Proof. intros Hf. apply steady_lift. intros e. destruct r as [|e']; [done|]. by intros [= <-]. Qed.
Lemma steady_on_sign {B} (c : dcmd SignNode B) : steady any (on_sign c).
Proof. intros s. unfold on_sign, zoom. destruct (c (tn_sign s)) as [n r]. split; [by intros i|by destruct r]. Qed.

(** The gate's calls, and those that leave its buckets alone. *)
Lemma steady_on_gate {B} (c : dcmd (GateNode St) B) :
  (∀ g i, bp_burned (buckets g) i → bp_burned (buckets (c g).1) i) → steady any (on_gate c).
Proof.
  intros Hc s. unfold on_gate, zoom. destruct (c (tn_gate s)) as [g r] eqn:E. split; [|by destruct r]. intros i Hi.
  unfold burned. simpl. specialize (Hc (tn_gate s) i Hi). by rewrite E in Hc.
Qed.
Lemma steady_reserve env i : steady any (on_gate (gate_reserve env i)).
Proof. apply steady_on_gate. intros g j Hj. by apply (grun_keeps (GReserve env i)). Qed.
Lemma steady_execute env i : steady any (on_gate (gate_execute env i)).
Proof. apply steady_on_gate. intros g j Hj. by apply (grun_keeps (GExecute env i)). Qed.
Lemma steady_commit env id : steady any (on_gate (gate_commit env id)).
Proof. apply steady_on_gate. intros g j Hj. by apply (grun_keeps (GCommit env id)). Qed.
Lemma steady_release env id k a : steady any (on_gate (gate_release env id k a)).
Proof. apply steady_on_gate. intros g j Hj. by apply (grun_keeps (GRelease env id k a)). Qed.
Lemma steady_has_reservation env id : steady any (has_reservation env id).
Proof.
  apply steady_on_gate. intros g j Hj. rewrite (proj1 (on_buckets_fst _ _)). by apply rps_keep.
Qed.
Lemma steady_on_ledger {B} (c : dcmd LedgerState B) : steady any (on_ledger c).
Proof.
  apply steady_on_gate. intros g j Hj. unfold zoom, on_led, zoom. by destruct (c (led (node g))).
Qed.
End settle.

Create HintDb http.
#[export] Hint Resolve steady_ret steady_panic steady_fail_any steady_lift_any steady_reject steady_or_reply steady_attempt steady_best_effort
  steady_body steady_on_sign steady_reserve steady_execute steady_commit steady_release steady_has_reservation
  steady_on_ledger : http.
#[export] Hint Extern 1 (steady _ (_ ≫= _)) => (apply steady_bind; [|intros ?]) : http.
#[export] Hint Extern 1 (steady _ (lift (map_err _ _))) => (apply steady_map_err; intros ?) : http.
#[export] Hint Extern 1 (_ ≠ OK) => discriminate : http.
#[export] Hint Extern 2 (exit_bad _) => first [discriminate|exact I] : http.
#[export] Hint Extern 3 (steady _ (match ?x with _ => _ end)) => destruct x : http.

(* ------------------------------------------------------------------ *)
(** ** Every handler is steady *)

Section handlers.
Context `{JS : SerdeJson, FR : Frost, EY : !EvenY, FS : !FrostStorage, SG : !FrostSign, HX : HexCodec, SH : Sha256, S3 : Sha384}.
Context `{BL : TaprootLib, AL : AddressLib, TWt : TxWeight}.
Context {AEnv A M : Type} `{AP : !AntiNoncePort AEnv A, TP : !TrCosignTransport M}.
Context {Env St : Type} `{BP : !BucketPort Env St, SP : !BucketPortSpec Env St, RPt : !ReservationPort Env St, RPS : !ReservationPortSpec}.
Context (rt : HttpRuntime).
Notation Node := (TreasuryNode (A:=A) (M:=M) (St:=St)).
Notation HEnv := (HttpEnv (FR:=FR) (AEnv:=AEnv) (Env:=Env)).
Implicit Types s : Node.
Notation any := (λ _, True).
Notation steady := (steady (A:=A) (M:=M) (St:=St)).

Lemma steady_build i b d a sh : steady any (build_settlement_intent rt i b d a sh).
Proof. unfold build_settlement_intent. auto 20 with http. Qed.
Lemma steady_select k : steady exit_bad (select_keyset rt k).
Proof. unfold select_keyset. auto 20 with http. Qed.
#[local] Hint Resolve steady_build steady_select : http.
Lemma steady_maybe_reserve env i b d a sh : steady any (maybe_reserve_intent rt env i b d a sh).
Proof. unfold maybe_reserve_intent. auto with http. Qed.
Lemma steady_maybe_gate env i b d a sh : steady any (maybe_gate_intent rt env i b d a sh).
Proof. unfold maybe_gate_intent. auto 10 with http. Qed.
#[local] Hint Resolve steady_maybe_reserve steady_maybe_gate : http.
Lemma steady_hold (env : HEnv) req id k : steady exit_bad (hold_intent rt env req id k).
Proof. unfold hold_intent. auto 20 with http. Qed.
#[local] Hint Resolve steady_hold : http.
Lemma steady_sign_psbt (env : HEnv) body : steady exit_bad (v1_bitcoin_sign_psbt rt env body).
Proof. unfold v1_bitcoin_sign_psbt. auto 40 with http. Qed.
Lemma steady_sign_sighash (env : HEnv) body : steady exit_bad (v1_bitcoin_sign_sighash rt env body).
Proof. unfold v1_bitcoin_sign_sighash. auto 40 with http. Qed.
Lemma steady_sign_intent req pq i : steady exit_bad (sign_intent req pq i).
Proof. unfold sign_intent, ed25519_array. auto 40 with http. Qed.
#[local] Hint Resolve steady_sign_intent : http.
Lemma steady_parse body : steady exit_bad (parse_settlement_intent rt body).
Proof. unfold parse_settlement_intent. auto 40 with http. Qed.
#[local] Hint Resolve steady_parse : http.
Lemma steady_intent (env : HEnv) body : steady exit_bad (v1_intent rt env body).
Proof. unfold v1_intent. auto 20 with http. Qed.
Lemma steady_intent_reserve (env : HEnv) body : steady exit_bad (v1_intent_reserve rt env body).
Proof. unfold v1_intent_reserve. auto 20 with http. Qed.
Lemma steady_intent_release (env : HEnv) body : steady exit_bad (v1_intent_release env body).
Proof. unfold v1_intent_release. auto 20 with http. Qed.
Lemma steady_intent_commit (env : HEnv) body : steady exit_bad (v1_intent_commit env body).
Proof. unfold v1_intent_commit. auto 20 with http. Qed.
(** The id a PSBT request settles, and its amount and destination. *)
Definition psbt_intent_id (req : BitcoinPsbtBody) : string := default (pb_session_id req) (nonempty (pb_intent_id req)).
Notation dest req := (default "" (pb_destination req)).
Notation amount req := (default 0 (pb_amount_sats req)).

Lemma on_ledger_constitution s : on_ledger ledger_constitution s = (s, Ok (Ledger.constitution (led (node (tn_gate s))))).
Proof. by destruct s as [[b [e l]] sg]. Qed.

Lemma build_ok id b d a sh s s' i : build_settlement_intent rt id b d a sh s = (s', Ok i) →
  s' = s ∧ nonempty id = Some (intent_id i) ∧ bucket_parse (default "USERS" b) = Ok (bucket i) ∧
  destination i = default "" d ∧ amount_sats i = default 0 a ∧
  validate_destination (cfg_bitcoin_network (hr_config rt)) (destination i) = Ok tt.
Proof.
  unfold build_settlement_intent. rewrite cmd_bind_ok. intros (s1 & x & (-> & Hx)%lift_ok & H).
  apply ok_or_ok in Hx. cbv zeta in H. destruct (_ || _); [done|].
  rewrite cmd_bind_ok in H. destruct H as (s1 & [] & (-> & Hv)%lift_ok & H).
  rewrite cmd_bind_ok in H. destruct H as (s1 & k & (-> & Hk)%lift_ok & H).
  rewrite cmd_bind_ok in H. destruct H as (s1 & [] & (-> & Hsh)%lift_ok & H).
  rewrite cmd_bind_ok in H. destruct H as (s1 & c & Hc & (-> & Hi)%lift_ok).
  rewrite on_ledger_constitution in Hc. injection Hc as <- <-.
  unfold settlement_intent_new in Hi. rewrite !guard_ok in Hi. destruct_and?. simplify_eq. simpl. by split_and!.
Qed.

Lemma or_reply_ok {B} code (c : dcmd Node B) s s' x : or_reply code c s = (s', Ok x) → c s = (s', Ok x).
Proof. unfold or_reply. destruct (c s) as [s1 [y|e]]; simpl; [by intros [= <- <-]|done]. Qed.

(** A hold that is taken for the request: an intent the gate admitted. *)
Lemma hold_ok (env : HEnv) req k s s' rb ra rid :
  pb_commit_intent req = true → hold_intent rt env req (psbt_intent_id req) k s = (s', Ok (rb, ra, rid)) →
  ∃ i g r, gate_run (he_reserve env) i PhaseReserve (tn_gate s) = (g, Ok r) ∧ s' = mk_treasury g (tn_sign s) ∧
    rid = r_intent_id r ∧ intent_id i = psbt_intent_id req ∧ bucket_parse (default "USERS" (pb_bucket req)) = Ok (bucket i) ∧
    destination i = dest req ∧ amount_sats i = amount req.
Proof.
  intros Hc. unfold hold_intent. rewrite Hc. cbv zeta. rewrite cmd_bind_ok. intros (s1 & r & Hr%or_reply_ok & H).
  unfold mret, cmd_ret in H. injection H as <- _ _ <-.
  unfold maybe_reserve_intent in Hr. rewrite cmd_bind_ok in Hr. destruct Hr as (s0 & i & Hb & Hg).
  apply build_ok in Hb as (-> & Hid & Hk & Hd & Ha & _). unfold on_gate, zoom, gate_reserve in Hg.
  destruct (gate_run _ i _ (tn_gate s)) as [g r'] eqn:Hrun. injection Hg as <- ->. exists i, g, r.
  split; [done|]. split; [done|]. split; [done|]. unfold nonempty in Hid. simpl in Hid.
  destruct (String.eqb (psbt_intent_id req) ""); [done|]. injection Hid as ->.
  split; [done|]. split; [done|]. split; [|done]. rewrite Hd. unfold nonempty. simpl.
  destruct (String.eqb_spec (dest req) "") as [->|]; done.
Qed.
Lemma steady_financial_quorum (env : HEnv) now body : steady exit_bad (v1_financial_quorum rt env now body).
Proof. unfold v1_financial_quorum. auto 40 with http. Qed.
End handlers.

(* ------------------------------------------------------------------ *)
(** ** A PSBT signed over HTTP *)

#[local] Strategy opaque [format q signed_psbt_json fmt_error].

Section signed.
Context `{JS : SerdeJson, FR : Frost, EY : !EvenY, FS : !FrostStorage, SG : !FrostSign, HX : HexCodec, SH : Sha256, S3 : Sha384}.
Context `{BL : TaprootLib, AL : AddressLib, TWt : TxWeight}.
Context {AEnv A M : Type} `{AP : !AntiNoncePort AEnv A, TP : !TrCosignTransport M}.
Context {Env St : Type} `{BP : !BucketPort Env St, SP : !BucketPortSpec Env St, RPt : !ReservationPort Env St, RPS : !ReservationPortSpec}.
Context (rt : HttpRuntime).
Notation Node := (TreasuryNode (A:=A) (M:=M) (St:=St)).
Notation HEnv := (HttpEnv (FR:=FR) (AEnv:=AEnv) (Env:=Env)).
Implicit Types s : Node.
Notation dest req := (default "" (pb_destination req)).
Notation amount req := (default 0 (pb_amount_sats req)).

(** The keyset a bucket spends. *)
Definition keyset_of (k : BucketKind) : option FrostTrBitcoinOrchestrator :=
  match k with Users => hr_frost_tr rt | Channels => hr_frost_tr_channels rt | _ => None end.

Lemma handle_ok (c : cmd Exit Node Reply) s s' body : steady exit_bad c →
  handle c s = (s', Replied (OK, body)) → c s = (s', Ok (OK, body)).
Proof.
  intros Hc. unfold handle. destruct (Hc s) as [_ Hb]. destruct (c s) as [s1 [r|e]]; [by intros [= <- <-]|].
  intros [= -> ->]. simpl in Hb. congruence.
Qed.
Lemma select_ok k s s' tr : select_keyset rt k s = (s', Ok tr) → s' = s ∧ tr = keyset_of k.
Proof. unfold select_keyset, reject, fail. by destruct k; [intros [= <- <-]|intros [=]|intros [=]|intros [= <- <-]|intros [=]]. Qed.

Lemma sign_psbt_replied (env : HEnv) req s s' body : pb_commit_intent req = true →
  handle (v1_bitcoin_sign_psbt rt env (Ok req)) s = (s', Replied (OK, body)) →
  ∃ i g r tr sg signed g',
    auth_treasury_sign (hr_auth rt) = Ok tt ∧
    gate_run (he_reserve env) i PhaseReserve (tn_gate s) = (g, Ok r) ∧ intent_id i = psbt_intent_id req ∧
    bucket_parse (default "USERS" (pb_bucket req)) = Ok (bucket i) ∧ destination i = dest req ∧ amount_sats i = amount req ∧
    keyset_of (bucket i) = Some tr ∧ he_need env ≤ he_online env ∧
    sign_psbt tr (he_sign env) (pb_session_id req) (pb_psbt req) (dest req) (amount req) (tn_sign s) = (sg, Ok signed) ∧
    gate_commit (he_settle env) (intent_id i) g = (g', Ok tt) ∧ s' = mk_treasury g' sg ∧ body = signed_psbt_json signed.
Proof.
  intros Hc H. apply handle_ok in H; [|apply steady_sign_psbt]. unfold v1_bitcoin_sign_psbt in H.
  rewrite cmd_bind_ok in H. destruct H as (s1 & [] & (-> & Ha)%or_reply_ok%lift_ok & H).
  rewrite cmd_bind_ok in H. destruct H as (s1 & x & (-> & [= <-])%lift_ok & H). cbv zeta in H.
  rewrite cmd_bind_ok in H. destruct H as (s1 & k & (-> & Hk)%or_reply_ok%lift_ok & H).
  rewrite cmd_bind_ok in H. destruct H as (s1 & tr & (-> & ->)%select_ok & H).
  rewrite cmd_bind_ok in H. destruct H as (s1 & [[rb ra] rid] & Hh & H).
  apply hold_ok in Hh as (i & g & r & Hrun & -> & -> & Hid & Hk' & Hd & Ham); [|done].
  rewrite Hk in Hk'. injection Hk' as Hk'. subst k.
  assert (r_intent_id r = intent_id i) as Hri.
  { destruct (gate_run_buckets (he_reserve env) i PhaseReserve (tn_gate s)) as (v & _).
    unfold gate_run in Hrun. cbv [mret mbind cmd_ret cmd_bind get lift zoom on_buckets] in Hrun. cbv zeta in Hrun.
    destruct (if _ && _ then _ else _) as [eco'|er]; [|done]. destruct (bp_reserve _ _ _ _ _ _) as [b [[]|]]; [|done].
    by injection Hrun as _ <-. }
  rewrite Hc in H. destruct (keyset_of (bucket i)) as [tr|] eqn:Hkey.
  2: { rewrite cmd_bind_ok in H. by destruct H as (s1 & [] & _ & [=]). }
  destruct (he_online env <? he_need env) eqn:Hon.
  { rewrite cmd_bind_ok in H. by destruct H as (s1 & [] & _ & [=]). }
  nbool. rewrite cmd_bind_ok in H. destruct H as (s1 & sr & Hs & H). unfold attempt, on_sign, zoom in Hs. simpl in Hs.
  destruct (sign_psbt tr _ _ _ _ _ (tn_sign s)) as [sg rs] eqn:Hsign. injection Hs as <- <-. destruct rs as [signed|e].
  2: { rewrite cmd_bind_ok in H. by destruct H as (s1 & [] & _ & [=]). }
  rewrite cmd_bind_ok in H. destruct H as (s1 & [] & Hcm%or_reply_ok & (-> & Hbody%(f_equal snd))%mret_ok).
  cbn [snd] in Hbody.
  unfold on_gate, zoom in Hcm. simpl in Hcm. destruct (gate_commit _ _ g) as [g' [[]|]] eqn:Hcg; [|done].
  injection Hcm as <-. rewrite Hri in Hcg. exists i, g, r, tr, sg, signed, g'. by split_and!.
Qed.

End signed.

(* ------------------------------------------------------------------ *)
(** ** Over any calls *)

Section runs.
Context `{JS : SerdeJson, FR : Frost, EY : !EvenY, FS : !FrostStorage, SG : !FrostSign, HX : HexCodec, SH : Sha256, S3 : Sha384}.
Context `{BL : TaprootLib, AL : AddressLib, TWt : TxWeight}.
Context {AEnv A M : Type} `{AP : !AntiNoncePort AEnv A, TP : !TrCosignTransport M}.
Context {Env St : Type} `{BP : !BucketPort Env St, SP : !BucketPortSpec Env St, RPt : !ReservationPort Env St, RPS : !ReservationPortSpec}.
Context (rt : HttpRuntime).
Notation Node := (TreasuryNode (A:=A) (M:=M) (St:=St)).
Notation HEnv := (HttpEnv (FR:=FR) (AEnv:=AEnv) (Env:=Env)).
Implicit Types s : Node.

(** Requests to the money endpoints; in between the governance ledger, the economy and the
    signer's ledgers become what other handlers make of them. *)
Inductive money_call :=
| MSignPsbt (env : HEnv) (body : result string BitcoinPsbtBody)
| MSignSighash (env : HEnv) (body : result string BitcoinSighashBody)
| MIntent (env : HEnv) (body : result string IntentBody)
| MReserve (env : HEnv) (body : result string IntentBody)
| MRelease (env : HEnv) (body : result string IntentReleaseBody)
| MCommit (env : HEnv) (body : result string string)
| MQuorum (env : HEnv) (now_ms : Z) (body : result string FinancialQuorumBody)
| MOther (n : EcoNode) (sg : SignNode (A:=A) (M:=M)).

Definition money_exec (c : money_call) s : Node * Exit :=
  match c with
  | MSignPsbt env b => handle (v1_bitcoin_sign_psbt rt env b) s
  | MSignSighash env b => handle (v1_bitcoin_sign_sighash rt env b) s
  | MIntent env b => handle (v1_intent rt env b) s
  | MReserve env b => handle (v1_intent_reserve rt env b) s
  | MRelease env b => handle (v1_intent_release env b) s
  | MCommit env b => handle (v1_intent_commit env b) s
  | MQuorum env now b => handle (v1_financial_quorum rt env now b) s
  | MOther n sg => (mk_treasury {| buckets := buckets (tn_gate s); node := n |} sg, Panicked)
  end.
(** The intent a successful reply pays out: a signed PSBT that commits its intent, a raw
    signature, or an executed intent. *)
Definition paid_intent (c : money_call) (e : Exit) : option string :=
  match e with
  | Replied (code, _) =>
      if code =? OK then
        match c with
        | MSignPsbt _ (Ok req) => if pb_commit_intent req then Some (psbt_intent_id req) else None
        | MSignSighash _ (Ok req) => Some (default "" (sb_intent_id req))
        | MIntent _ (Ok req) => Some (ib_intent_id req)
        | _ => None
        end
      else None
  | Panicked => None
  end.
Fixpoint money_run (l : list money_call) s : Node * list string :=
  match l with
  | [] => (s, [])
  | c :: l =>
      let '(s', e) := money_exec c s in
      let '(s'', ids) := money_run l s' in
      (s'', match paid_intent c e with Some id => id :: ids | None => ids end)
  end.

Lemma handle_keeps (c : cmd Exit Node Reply) s : steady exit_bad c → keeps s (handle c s).1.
Proof. intros Hc. destruct (Hc s) as [H _]. unfold handle. by destruct (c s). Qed.
Lemma money_keeps c s : keeps s (money_exec c s).1.
Proof.
  destruct c; simpl; [apply handle_keeps..|by intros i].
  - apply steady_sign_psbt.
  - apply steady_sign_sighash.
  - apply steady_intent.
  - apply steady_intent_reserve.
  - apply steady_intent_release.
  - apply steady_intent_commit.
  - apply steady_financial_quorum.
Qed.

(** Executing an intent burns an id that was not burned. *)
Lemma execute_burns env i s s' r : on_gate (gate_execute env i) s = (s', Ok r) →
  ¬ burned s (intent_id i) ∧ burned s' (intent_id i).
Proof.
  unfold on_gate, zoom. destruct (gate_execute env i (tn_gate s)) as [g r'] eqn:E. intros [= <- ->].
  assert (admits (intent_id i) (GExecute env i) (tn_gate s) = true) as Ha.
  { simpl. rewrite E. by rewrite String.eqb_refl. }
  split; [by apply admits_unburned in Ha|]. unfold burned. simpl.
  pose proof (settles_burns (intent_id i) (GExecute env i) (tn_gate s) Ha) as Hb. simpl in Hb. by rewrite E in Hb.
Qed.
Lemma commit_burns env id (g g' : GateNode St) : gate_commit env id g = (g', Ok tt) → bp_burned (buckets g') id.
Proof.
  intros E. pose proof (settles_burns id (GCommit env id) g) as H. simpl in H. rewrite E, String.eqb_refl in H.
  by apply H.
Qed.

Lemma sign_intent_id (req : IntentBody) pq i s s' i' : sign_intent req pq i s = (s', Ok i') →
  keeps s s' ∧ intent_id i' = intent_id i.
Proof.
  intros H. split; [pose proof (steady_sign_intent req pq i s) as [Hk _]; by rewrite H in Hk|].
  unfold sign_intent in H. destruct (_ || _); [|by apply mret_ok in H as [_ <-]]. cbv zeta in H.
  rewrite cmd_bind_ok in H. destruct H as (s1 & ed & _ & H).
  rewrite cmd_bind_ok in H. destruct H as (s2 & ml & _ & H).
  rewrite cmd_bind_ok in H. destruct H as (s3 & arr & _ & H).
  rewrite cmd_bind_ok in H. destruct H as (s4 & [] & _ & [_ <-]%mret_ok). done.
Qed.

Lemma parse_ok (req : IntentBody) s s' i : parse_settlement_intent rt (Ok req) s = (s', Ok i) →
  keeps s s' ∧ intent_id i = ib_intent_id req.
Proof.
  intros H. unfold parse_settlement_intent in H.
  rewrite cmd_bind_ok in H. destruct H as (s1 & x & (-> & [= <-])%lift_ok & H).
  rewrite cmd_bind_ok in H. destruct H as (s1 & [] & (-> & Hv)%or_reply_ok%lift_ok & H).
  rewrite cmd_bind_ok in H. destruct H as (s1 & k & (-> & Hk)%or_reply_ok%lift_ok & H).
  rewrite cmd_bind_ok in H. destruct H as (s1 & c & Hc%or_reply_ok & H). rewrite on_ledger_constitution in Hc.
  injection Hc as <- <-. cbv zeta in H.
  rewrite cmd_bind_ok in H. destruct H as (s1 & i0 & (-> & Hi)%or_reply_ok%lift_ok & H).
  apply sign_intent_id in H as [Hkeep ->]. split; [done|].
  unfold settlement_intent_new in Hi. rewrite !guard_ok in Hi. destruct_and?. by simplify_eq.
Qed.

(** What a reply pays was not settled before, and is from then on. *)
Lemma money_pays c s s' e id : money_exec c s = (s', e) → paid_intent c e = Some id → ¬ burned s id ∧ burned s' id.
Proof.
  intros H Hp. destruct e as [[code body]|]; [|done]. unfold paid_intent in Hp. destruct (code =? OK) eqn:Hcode; [|done].
  apply N.eqb_eq in Hcode as ->. destruct c as [env [req|]|env [req|]|env [req|]| | | | |]; try done; simpl in H.
  - destruct (pb_commit_intent req) eqn:Hc; [|done]. injection Hp as <-.
    apply sign_psbt_replied in H as (i & g & r & tr & sg & signed & g' & _ & Hrun & <- & _ & _ & _ & _ & _ & _ & Hcm & -> & _);
      [|done]. split; [|by apply commit_burns in Hcm].
    apply (admits_unburned _ (GReserve (he_reserve env) i)). simpl. unfold gate_reserve. by rewrite Hrun, String.eqb_refl.
  - injection Hp as <-. apply handle_ok in H; [|apply steady_sign_sighash]. unfold v1_bitcoin_sign_sighash in H.
    rewrite cmd_bind_ok in H. destruct H as (s1 & [] & (-> & Ha)%or_reply_ok%lift_ok & H).
    destruct (negb _); [done|]. destruct (negb _); [done|].
    rewrite cmd_bind_ok in H. destruct H as (s1 & x & (-> & [= <-])%lift_ok & H).
    destruct (_ || _); [done|]. rewrite cmd_bind_ok in H. destruct H as (s1 & [] & Hg%or_reply_ok & H).
    unfold maybe_gate_intent in Hg. rewrite cmd_bind_ok in Hg. destruct Hg as (s0 & i & (-> & Hid & _)%build_ok & Hg).
    rewrite cmd_bind_ok in Hg. destruct Hg as (s2 & r & Hx & (-> & _)%mret_ok). apply execute_burns in Hx as [Hn Hb].
    assert (default "" (sb_intent_id req) = intent_id i) as ->.
    { destruct (sb_intent_id req) as [x|]; [|done]. unfold nonempty in Hid. simpl in *.
      destruct (String.eqb x ""); [done|]. by injection Hid. }
    split; [done|]. destruct (hr_frost_tr rt) as [tr|]; [|done].
    rewrite cmd_bind_ok in H. destruct H as (s3 & h & (-> & _)%lift_ok & H).
    rewrite cmd_bind_ok in H. destruct H as (s3 & sg & Hs%or_reply_ok & (-> & _)%mret_ok).
    pose proof (steady_on_sign (sign_sighash tr (he_sign env) (sb_session_id req) h) s2) as [Hk _].
    rewrite Hs in Hk. by apply Hk.
  - injection Hp as <-. apply handle_ok in H; [|apply steady_intent]. unfold v1_intent in H.
    rewrite cmd_bind_ok in H. destruct H as (s1 & i & (Hk & <-)%parse_ok & H).
    rewrite cmd_bind_ok in H. destruct H as (s2 & r & Hx%or_reply_ok & (-> & _)%mret_ok).
    apply execute_burns in Hx as [Hn Hb]. split; [|done]. intros Hb0. by apply Hn, Hk.
Qed.

End runs.

(** The ledgers' probes burn nothing back. *)
#[export] Instance mem_reservations_spec : ReservationPortSpec (Env:=N * N) (St:=BucketState).
Proof. split. intros env id s i Hi. by apply (exec_consumed_mono (OpHasReservation env.1 id) s). Qed.
#[export] Instance persisted_reservations_spec : ReservationPortSpec (Env:=N * N * Io) (St:=PState).
Proof.
  split. intros [[now now'] io] id p i Hi. unfold rp_has_reservation, persisted_reservations, persisted_has_reservation.
  rewrite locked_eq. simpl.
  by apply (exec_consumed_mono (OpHasReservation now id) (mem p)).
Qed.
