(* ===== verification/Health.v ===== *)
(** * Health, liveness and metrics

    [domain/health.rs], [application/health.rs], [online_probe.rs], [ping_peer.rs],
    [metrics.rs], [adapters/attestation_sim.rs], and the handlers of [adapters/http.rs] that
    print them. Whether a dial or a probe succeeds is the network's answer. *)
From S2P Require Import Prelude RustStr Errors Identity Bucket Constitution Ledger NodeTier AuthIdentity Frost HybridEnvelope WireDkg.
From S2P Require Import FrostShares ShareReshare HttpPeer PeerTrust ConfigEnv Config HttpRoute.
Local Open Scope N_scope.

(* ------------------------------------------------------------------ *)
(** ** [SimAttestationAdapter] *)

Section attestation.
Context `{SH : Sha256}.
Record SimAttestationAdapter := mk_sim_attestation { sa_mode : AttestationMode; sa_lab_root : bytes }.
Definition sim_with_mode (mode : AttestationMode) (lab_root_material : bytes) : SimAttestationAdapter :=
  mk_sim_attestation (if is_software_measurement mode then mode else Sim) lab_root_material.
Definition sim_mac (a : SimAttestationAdapter) (m : Measurement) : bytes :=
  let tag := match sa_mode a with Software => "kerosene-vault-software-v1" | _ => "kerosene-vault-sim-v1" end in
  bytes_of (as_hex (measurement_from_bytes (bytes_of tag ++ sa_lab_root a ++ bytes_of (as_hex m)))).
Definition issue_quote (a : SimAttestationAdapter) (m : Measurement) : res AttestationQuote :=
  Ok {| quote_mode := sa_mode a; quote_measurement := m; quote_blob := sim_mac a m |}.
Definition verify_quote (a : SimAttestationAdapter) (quote : AttestationQuote) : res unit :=
  if negb (bool_decide (quote_mode quote = sa_mode a)) then
    Err (AttestationRejected (format "{} adapter only accepts {} quotes"
      [attestation_mode_str (sa_mode a); attestation_mode_str (sa_mode a)]))
  else if negb (bool_decide (sim_mac a (quote_measurement quote) = quote_blob quote)) then
    Err (AttestationRejected "software/sim quote mac mismatch")
  else Ok tt.

(** A ping: the peer is in the directory, and the local quote checks out. *)
Record PingReport := mk_ping_report { pr_peer_id : NodeId; pr_ok : bool; pr_verified_attestation : bool; pr_at_unix_secs : N }.
Definition ping_peer (peers : gmap string PeerInfo) (a : SimAttestationAdapter) (local_measurement : Measurement)
    (now : N) (peer : NodeId) : res PingReport :=
  _ ← ping peers peer;
  quote ← issue_quote a local_measurement;
  _ ← verify_quote a quote;
  Ok (mk_ping_report peer true true now).
End attestation.

(* ------------------------------------------------------------------ *)
(** ** Who is online *)

Section health.
(** Name resolution and a TCP connect within 80 ms; a GET that answers with success. *)
Context (dials : string → bool) (probe_url : string → bool).

Definition cheap_tcp_reachable (addr : string) : bool :=
  let trimmed := trim addr in
  if String.eqb trimmed "" || contains_str ".onion" trimmed then false
  else dials (if contains_char ":"%char trimmed then trimmed else format "{}:7701" [trimmed]).

Record ProbedOnlineCount := mk_probed {
  po_peers : gmap string PeerInfo;
  po_peer_health_urls : list string;
  po_max_online : option N;
  po_lab_static : option N;
}.
Definition lab_static (count : N) : ProbedOnlineCount := mk_probed ∅ [] None (Some count).
Definition tally {A} (p : A → bool) (l : list A) : N := len (filter (λ x, p x = true) l).
Definition online_count (o : ProbedOnlineCount) : N :=
  match po_lab_static o with
  | Some n => n
  | None =>
      let online := 1 + (if bool_decide (po_peer_health_urls o ≠ []) then tally probe_url (po_peer_health_urls o)
                         else tally (λ p, cheap_tcp_reachable (address (endpoint p))) (list_peers (po_peers o))) in
      match po_max_online o with Some max => N.min online max | None => online end
  end.

(* ------------------------------------------------------------------ *)
(** ** [GetHealth] *)

Inductive HealthStatus := Starting | Ready | Degraded.
Definition health_status_str (s : HealthStatus) : string :=
  match s with Starting => "starting" | Ready => "ready" | Degraded => "degraded" end.
Inductive PeerReachability := NoPeers | DirectoryOnly | Probed (reachable configured : N).
Definition reachability_str (r : PeerReachability) : string :=
  match r with NoPeers => "none" | DirectoryOnly => "directory_only" | Probed _ _ => "probed" end.

Record NodeHealth := mk_node_health {
  nh_node_id : NodeId; nh_status : HealthStatus; nh_node_tier : string; nh_attestation_mode : string;
  nh_tee_available : bool; nh_peer_count : N; nh_genesis_roster : list string; nh_peer_reachability : PeerReachability;
  nh_peers_reachable : option N; nh_configured_members : N; nh_required_threshold : N;
  nh_local_ready : bool; nh_financial_ready : bool }.

Record GetHealth := mk_get_health {
  gh_node_id : NodeId; gh_peers : gmap string PeerInfo; gh_attestation_mode : AttestationMode; gh_node_tier : VaultNodeTier;
  gh_tee_available : bool; gh_genesis_roster : list string; gh_probe_peers : bool; gh_configured_members : N;
  gh_required_threshold : N; gh_online : option ProbedOnlineCount }.
Definition health_with_roster (node_id : NodeId) (peers : gmap string PeerInfo) (mode : AttestationMode)
    (tier : VaultNodeTier) (tee : bool) (roster : list string) : GetHealth :=
  mk_get_health node_id peers mode tier tee roster false 1 1 None.
Definition with_peer_probe (enabled : bool) (g : GetHealth) : GetHealth :=
  mk_get_health (gh_node_id g) (gh_peers g) (gh_attestation_mode g) (gh_node_tier g) (gh_tee_available g)
    (gh_genesis_roster g) enabled (gh_configured_members g) (gh_required_threshold g) (gh_online g).
Definition with_constitution (configured_members required_threshold : N) (g : GetHealth) : GetHealth :=
  let members := N.max configured_members 1 in
  mk_get_health (gh_node_id g) (gh_peers g) (gh_attestation_mode g) (gh_node_tier g) (gh_tee_available g)
    (gh_genesis_roster g) (gh_probe_peers g) members (N.min (N.max required_threshold 1) members) (gh_online g).
Definition with_online_status (o : ProbedOnlineCount) (g : GetHealth) : GetHealth :=
  mk_get_health (gh_node_id g) (gh_peers g) (gh_attestation_mode g) (gh_node_tier g) (gh_tee_available g)
    (gh_genesis_roster g) (gh_probe_peers g) (gh_configured_members g) (gh_required_threshold g) (Some o).

Definition get_health (g : GetHealth) : NodeHealth :=
  let peers := list_peers (gh_peers g) in
  let reach :=
    if bool_decide (peers = []) then (NoPeers, None, Starting)
    else if gh_probe_peers g then
      let reachable := tally (λ p, cheap_tcp_reachable (address (endpoint p))) peers in
      (Probed reachable (len peers), Some reachable, if reachable =? 0 then Degraded else Ready)
    else (DirectoryOnly, None, Ready) in
  {| nh_node_id := gh_node_id g; nh_status := reach.2; nh_node_tier := tier_str (gh_node_tier g);
     nh_attestation_mode := attestation_mode_str (gh_attestation_mode g); nh_tee_available := gh_tee_available g;
     nh_peer_count := len peers; nh_genesis_roster := gh_genesis_roster g; nh_peer_reachability := reach.1.1;
     nh_peers_reachable := reach.1.2; nh_configured_members := gh_configured_members g;
     nh_required_threshold := gh_required_threshold g; nh_local_ready := true;
     nh_financial_ready := match gh_online g with Some o => gh_required_threshold g <=? online_count o | None => false end |}.

Definition to_public_json (h : NodeHealth) : string :=
  format (q "{{`status`:`{}`,`local_ready`:{},`financial_ready`:{},`peer_count`:{},`configured_members`:{},`required_threshold`:{},`peer_reachability`:`{}`}}")
    [health_status_str (nh_status h); show_bool (nh_local_ready h); show_bool (nh_financial_ready h); show (nh_peer_count h);
     show (nh_configured_members h); show (nh_required_threshold h); reachability_str (nh_peer_reachability h)].
Definition health_json `{SerdeJson} (h : NodeHealth) : string :=
  format (q "{{`node_id`:{},`status`:`{}`,`local_ready`:{},`financial_ready`:{},`node_tier`:{},`attestation_mode`:{},`tee_available`:{},`peer_count`:{},`configured_members`:{},`required_threshold`:{},`genesis_roster`:[{}],`peer_reachability`:`{}`,`peers_reachable`:{}}}")
    [js_string (node_str (nh_node_id h)); health_status_str (nh_status h); show_bool (nh_local_ready h);
     show_bool (nh_financial_ready h); js_string (nh_node_tier h); js_string (nh_attestation_mode h);
     show_bool (nh_tee_available h); show (nh_peer_count h); show (nh_configured_members h); show (nh_required_threshold h);
     join "," (js_string <$> nh_genesis_roster h); reachability_str (nh_peer_reachability h);
     match nh_peers_reachable h with Some n => show n | None => "null" end].
End health.

(* ------------------------------------------------------------------ *)
(** ** [GetMetrics] *)

Record MetricsCounters := mk_counters {
  mc_peer_connected : N; mc_frost_sign_total : N; mc_frost_sign_fail_total : N; mc_reshare_total : N; mc_psbt_rejected_total : N }.
Definition counters_new : MetricsCounters := mk_counters 0 0 0 0 0.
Definition line_feed : string := String.String (Ascii.ascii_of_N 10) "".

(** [pending] is the buckets' count of intents, when they are wired. *)
Definition get_metrics (node : NodeId) (m : MetricsCounters) (pending : option (res N)) : dcmd LedgerState string :=
  epoch ← ledger_epoch;
  buckets ← lift (match pending with Some r => r | None => Ok 0 end);
  let node := node_str node in
  mret (String.concat "" ((λ l, l +:+ line_feed) <$>
    ["# HELP vault_mesh_health Vault mesh health gauge (1=ready)";
     "# TYPE vault_mesh_health gauge";
     format (q "vault_mesh_health{{node_id=`{}`}} 1") [node];
     "# HELP vault_frost_sign_total Total FROST sign operations";
     "# TYPE vault_frost_sign_total counter";
     format (q "vault_frost_sign_total{{node_id=`{}`,status=`ok`}} {}") [node; show (mc_frost_sign_total m)];
     format (q "vault_frost_sign_total{{node_id=`{}`,status=`fail`}} {}") [node; show (mc_frost_sign_fail_total m)];
     "# HELP vault_frost_sign_duration_seconds FROST sign duration histogram placeholder";
     "# TYPE vault_frost_sign_duration_seconds gauge";
     format (q "vault_frost_sign_duration_seconds{{node_id=`{}`}} 0.0") [node];
     "# HELP vault_reshare_total Total reshare events";
     "# TYPE vault_reshare_total counter";
     format (q "vault_reshare_total{{node_id=`{}`}} {}") [node; show (mc_reshare_total m)];
     "# HELP vault_day_epoch Current day epoch";
     "# TYPE vault_day_epoch gauge";
     format (q "vault_day_epoch{{node_id=`{}`}} {}") [node; show (number epoch)];
     "# HELP vault_peer_connected Connected peers count";
     "# TYPE vault_peer_connected gauge";
     format (q "vault_peer_connected{{node_id=`{}`}} {}") [node; show (mc_peer_connected m)];
     "# HELP vault_intent_consumed_total Intents consumed";
     "# TYPE vault_intent_consumed_total counter";
     format (q "vault_intent_consumed_total{{node_id=`{}`,bucket=`all`}} {}") [node; show buckets];
     "# HELP vault_psbt_policy_rejected_total PSBT rejections by reason";
     "# TYPE vault_psbt_policy_rejected_total counter";
     format (q "vault_psbt_policy_rejected_total{{node_id=`{}`,reason=`policy`}} {}") [node; show (mc_psbt_rejected_total m)]])).

(* ------------------------------------------------------------------ *)
(** ** The handlers *)

Section handlers.
Context `{JS : SerdeJson} (config : VaultConfig) (dials probe_url : string → bool).

Definition v1_health {S} (g : GetHealth) : cmd Exit S Reply := mret (OK, to_public_json (get_health dials probe_url g)).
Definition v1_metrics (m : MetricsCounters) (pending : option (res N)) : cmd Exit LedgerState Reply :=
  body ← or_reply INTERNAL_SERVER_ERROR (get_metrics (cfg_node_id config) m pending);
  mret (OK, body).

(** The [X-Request-Id] header, when it is text of 1 to 128 bytes. *)
Definition admin_request_id (header : option string) : string :=
  match header with
  | Some v => if negb (String.eqb v "") && (str_len v <=? 128) then v else "vault-admin"
  | None => "vault-admin"
  end.
Definition v1_admin_status {S} (header : option string) (g : GetHealth) : cmd Exit S Reply :=
  let health := get_health dials probe_url g in
  mret (OK, js_object [("contract_version", js_string "0.1.0"); ("request_id", js_string (admin_request_id header));
    ("local_ready", show_bool (nh_local_ready health)); ("financial_ready", show_bool (nh_financial_ready health));
    ("node_id", js_string (node_str (cfg_node_id config)));
    ("ceremony_mode", js_string (ceremony_str (cfg_ceremony_mode config)));
    ("bitcoin_network", js_string (network_str (cfg_bitcoin_network config)))]).
(** [online] and [online'] are two readings of the online count, [t] the group's threshold. *)
Definition v1_admin_ceremony {S} (header : option string) (genesis_members online online' t : N) : cmd Exit S Reply :=
  mret (OK, js_object [("contract_version", js_string "0.1.0"); ("request_id", js_string (admin_request_id header));
    ("mode", js_string (ceremony_str (cfg_ceremony_mode config)));
    ("node_id", js_string (node_str (cfg_node_id config))); ("genesis_members", show genesis_members);
    ("online_members", show online); ("required_threshold", show t); ("financial_ready", show_bool (t <=? online'))]).
End handlers.

(* ------------------------------------------------------------------ *)
(** ** What the reports are worth *)

(** A quote verifies exactly when the adapter would issue it. *)
Lemma verify_quote_spec `{SH : Sha256} a quote : verify_quote a quote = Ok tt ↔ issue_quote a (quote_measurement quote) = Ok quote.
Proof.
  unfold verify_quote, issue_quote. rewrite !guard_ok, !negb_false_iff, !bool_decide_eq_true.
  destruct quote as [m me b]. simpl. split; [by intros (-> & <- & _)|]. intros [= <- <-]. done.
Qed.

Section liveness.
Context (dials probe_url : string → bool).
Lemma cheap_tcp_dialled addr : cheap_tcp_reachable dials addr = true →
  contains_str ".onion" (trim addr) = false ∧ ∃ target, dials target = true.
Proof.
  unfold cheap_tcp_reachable. destruct (contains_str _ _); [by rewrite orb_true_r|]. rewrite orb_false_r.
  destruct (String.eqb _ _); [done|]. eauto.
Qed.

(** Readiness is never claimed from a directory: a node that is not pinned to a laboratory count
    reports itself ready for financial work only when all but one of its required threshold just
    answered: their health URL, or, where none is configured, a TCP dial of a peer whose address
    is no onion's. *)
Theorem financial_ready_honest g o members threshold :
  gh_online g = Some o → po_lab_static o = None →
  let h := get_health dials probe_url (with_constitution members threshold g) in
  nh_financial_ready h = true →
  nh_required_threshold h = N.min (N.max threshold 1) (N.max members 1) ∧
  (if bool_decide (po_peer_health_urls o ≠ [])
   then nh_required_threshold h ≤ 1 + len (filter (λ u, probe_url u = true) (po_peer_health_urls o))
   else nh_required_threshold h ≤ 1 + len (filter (λ p, contains_str ".onion" (trim (address (endpoint p))) = false ∧
          cheap_tcp_reachable dials (address (endpoint p)) = true) (list_peers (po_peers o)))).
Proof.
  intros Ho Hl h. unfold h, get_health, with_constitution. simpl. rewrite Ho. unfold online_count, tally. rewrite Hl.
  intros H%N.leb_le. split; [done|].
  assert (∀ a b c, match po_max_online o with Some max => N.min a max | None => a end = b → c ≤ b → c ≤ a) as Hmax
    by (intros a b c <-; destruct (po_max_online o); lia).
  specialize (Hmax _ _ _ eq_refl H). destruct (bool_decide _); [done|].
  erewrite list_filter_iff; [exact Hmax|]. simpl.
  intros p. split; [by intros []|]. intros Hp. split; [|done]. by apply cheap_tcp_dialled in Hp as [? _].
Qed.
End liveness.
