(* ===== verification/HttpMesh.v ===== *)
(** * The vault-to-vault handlers ([adapters/http.rs], 640-1150 and the reshare trigger)

    Session and intent prepares, the day's votes, the rounds of both key generations. Bodies
    arrive parsed by serde, or with its error; the posts of a fan-out are an outcome. *)
From S2P Require Import Prelude RustStr RustParse Errors Identity DayEpoch Bucket BucketLedger PersistedLedger AntiNonce IntentConsume.
From S2P Require Import DailyRotation QuorumClaim Constitution Ledger Economy AuthIdentity RateLimit Frost HybridEnvelope WireDkg TrWire.
From S2P Require Import FrostShares ShareReshare FrostSign Cosign HttpPeer PeerTrust ConfigEnv Config HttpRoute.
Local Open Scope N_scope.

(** serde_json over the hubs' messages ([derive(Serialize)]), and [Debug] of a list of names. *)
Class MeshJson := {
  js_status : WireDkgStatus → string;
  js_round1 : Round1WireMessage → string;
  js_round2 : list Round2WireMessage → string;
  debug_strings : list string → string;
}.

Section mesh.
Context `{JS : SerdeJson, MJ : MeshJson}.
Context (config : VaultConfig) (auth : VaultAuth).
Notation local := (node_str (cfg_node_id config)).

(* ------------------------------------------------------------------ *)
(** ** Prepares *)

(** A limiter beside what it guards. *)
Definition Limited (S : Type) : Type := SlidingWindowLimiter * S.
Definition limited {S B} : dcmd S B → dcmd (Limited S) B := zoom snd (λ s p, (p.1, s)).
(** Every caller is counted under this vault's own name. *)
Definition limit_prepare {S} (now : N) : cmd Exit (Limited S) unit :=
  or_reply TOO_MANY_REQUESTS (zoom fst (λ l p, (l, p.2)) (check now local)).
Definition already_reply (b : bool) : Reply := (OK, format (q "{{`ok`:true,`already_seen`:{}}}") [show_bool b]).

Record PrepareBody := mk_prepare_body { pp_session_id : string; pp_intent_id : string; pp_durable : bool }.
(** [now], [now'] and the outcome of the append are the ledger's readings. *)
Definition v1_anti_nonce_prepare (clock now now' : N) (io : Io) (body : result string PrepareBody) :
    cmd Exit (Limited AntiNonce) Reply :=
  req ← body_or_reply body;
  _ ← limit_prepare clock;
  _ ← or_reply BAD_REQUEST (lift (bind_session_to_intent (pp_session_id req) (pp_intent_id req)));
  seen ← or_reply BAD_REQUEST (limited
    (if pp_durable req then an_prepare io (pp_session_id req)
     else an_prepare_remote_bound now now' (pp_session_id req) (pp_intent_id req)));
  mret (already_reply seen).

Definition v1_intent_consume_prepare (clock now now' : N) (io : Io) (body : result string (string * bool)) :
    cmd Exit (Limited (Stores PState)) Reply :=
  req ← body_or_reply body;
  _ ← limit_prepare clock;
  seen ← or_reply BAD_REQUEST (limited
    (if req.2 : bool then quorum_prepare_remote_durable local io req.1 else quorum_prepare_remote local now now' req.1));
  mret (already_reply seen).

(* ------------------------------------------------------------------ *)
(** ** The day *)

Definition v1_day_current (now : N) : cmd Exit Rotation Reply :=
  d ← or_reply CONFLICT (current_day_epoch now);
  mret (OK, format (q "{{`day_epoch`:`{}`}}") [day_str d]).

Record VoteBody := mk_vote_body { vb_voter : option string; vb_day_epoch : string }.
Definition v1_day_vote (wv : result string unit) (req : HttpRequest) (principal : MeshPrincipal)
    (body : result string VoteBody) : cmd Exit Rotation Reply :=
  vote ← body_or_reply body;
  target ← or_reply BAD_REQUEST (lift (day_epoch_parse (vb_day_epoch vote)));
  voter ← or_reply BAD_REQUEST (lift (resolve_mesh_caller_identity_with_principal local (mesh_allowed config)
            (rq_node req) (vb_voter vote) (rq_mtls_peer req) (Some principal)));
  _ ← or_reply BAD_REQUEST (record_vote wv voter target);
  mret (OK, format (q "{{`ok`:true,`voter`:`{}`,`self_voter`:`{}`,`self_day_epoch`:`{}`}}") [voter; local; day_str target]).

Definition v1_day_advance (env : DailyRotation.Env) (now : N) : cmd Exit Rotation Reply :=
  d ← or_reply CONFLICT (advance env now);
  mret (OK, format (q "{{`day_epoch`:`{}`,`advanced`:true}}") [day_str d]).

(* ------------------------------------------------------------------ *)
(** ** Key generation *)

Section dkg.
Context `{FR : Frost, FS : !FrostStorage, EY : !EvenY, HX : HexCodec, SH : Sha256} {T : Type} `{ST : !ShareStore T}.

(** The plain and the Taproot hub, and the share store both write to. *)
Record DkgNode := mk_dkg_node { dn_plain : WireDkgHub; dn_tr : WireDkgHub; dn_store : T }.
Definition hub_at (taproot : bool) (s : DkgNode) : WireDkgHub := if taproot then dn_tr s else dn_plain s.
Definition set_hub (taproot : bool) (h : WireDkgHub) (s : DkgNode) : DkgNode :=
  if taproot then mk_dkg_node (dn_plain s) h (dn_store s) else mk_dkg_node h (dn_tr s) (dn_store s).
Definition at_hub {B} (taproot : bool) : dcmd WireDkgHub B → dcmd DkgNode B := zoom (hub_at taproot) (set_hub taproot).
Definition at_hub_store {B} (taproot : bool) : dcmd (WireDkgHub * T) B → dcmd DkgNode B :=
  zoom (λ s, (hub_at taproot s, dn_store s))
    (λ ht s, let s := set_hub taproot ht.1 s in mk_dkg_node (dn_plain s) (dn_tr s) ht.2).
Definition suite_of (taproot : bool) : WireSuite := if taproot then tr_suite else plain_suite.

Record Round1Body := mk_round1_body {
  b1_session_id : string; b1_roster : option (list string); b1_max_signers : option N; b1_min_signers : option N;
  b1_fanout : bool; b1_sender_node_id : option string; b1_sender_identifier : option N;
  b1_transcript_hex : option string; b1_package_hex : option string }.
Record Round2Body := mk_round2_body {
  b2_session_id : string; b2_deliver : bool; b2_fanout : bool; b2_sender_node_id : option string;
  b2_sender_identifier : option N; b2_recipient_node_id : option string; b2_recipient_identifier : option N;
  b2_transcript_hex : option string; b2_package_hex : option string }.

(** The roster of a start, [None] when it is refused: outside the lab only the seated one. *)
Definition start_roster (seated : list string) (given : option (list string)) : option (list string) :=
  match given with
  | None => Some seated
  | Some [] => Some seated
  | Some r =>
      let provided := merge_sort String.le r in
      let expected := merge_sort String.le seated in
      if negb (bool_decide (provided = expected)) && not_lab config then None
      else Some (if (length r =? length seated)%nat then seated else r)
  end.
(** [((max * 2).div_ceil(3)).max(2).min(max) as u16]. *)
Definition default_min_signers (max : N) : N := wrap16 (N.min (N.max (div_ceil (max * 2) 3) 2) max).

Definition dkg_start (taproot : bool) (seated : list string) (rng : Rng) (fanout : res unit) (req : Round1Body) :
    cmd Exit DkgNode Reply :=
  match start_roster seated (b1_roster req) with
  | None => reject BAD_REQUEST (format (q "{{`error`:`DKG roster must match seated genesis roster {} (got {})`}}")
              [debug_strings seated; debug_strings (default [] (b1_roster req))])
  | Some roster =>
      if len roster <? 2 then
        reject BAD_REQUEST (q "{`error`:`genesis_roster empty; set VAULT_SEED_PEERS + VAULT_GENESIS_N`}")
      else
        let max := default (wrap16 (len roster)) (b1_max_signers req) in
        let min := default (default_min_signers max) (b1_min_signers req) in
        out ← or_reply BAD_REQUEST (at_hub taproot
          (start (suite_of taproot) (mk_start (b1_session_id req) max min roster) rng));
        match fanout with
        | Err e =>
            if b1_fanout req then
              reject BAD_GATEWAY (js_object [("error", js_string (fmt_error e)); ("status", js_status out.1)])
            else mret (OK, js_object [("status", js_status out.1); ("round1", js_round1 out.2)])
        | Ok _ => mret (OK, js_object [("status", js_status out.1); ("round1", js_round1 out.2)])
        end
  end.

(** [sender_node_id] must be the authenticated peer. *)
Definition bound_sender (principal : MeshPrincipal) (sender : string) : cmd Exit DkgNode unit :=
  or_reply UNAUTHORIZED (lift (bind_dkg_sender_to_peer sender (Some principal)
    (bool_decide (cfg_auth_mode config = StaticToken)))).

Definition dkg_round1_impl (taproot : bool) (seated : list string) (rng : Rng) (fanout : res unit)
    (principal : MeshPrincipal) (body : result string Round1Body) : cmd Exit DkgNode Reply :=
  req ← body_or_reply body;
  match b1_package_hex req with
  | None => dkg_start taproot seated rng fanout req
  | Some package_hex =>
      let sender := default "" (b1_sender_node_id req) in
      _ ← bound_sender principal sender;
      status ← or_reply BAD_REQUEST (at_hub taproot (ingest_round1 (suite_of taproot)
        (mk_r1m (b1_session_id req) sender (default 0 (b1_sender_identifier req)) (default 0 (b1_max_signers req))
           (default 0 (b1_min_signers req)) (default "" (b1_transcript_hex req)) package_hex None)));
      mret (OK, js_status status)
  end.

Definition dkg_round2_impl (taproot : bool) (fanout : res unit) (principal : MeshPrincipal)
    (body : result string Round2Body) : cmd Exit DkgNode Reply :=
  req ← body_or_reply body;
  if b2_deliver req then
    msgs ← or_reply BAD_REQUEST (at_hub taproot (take_round2_outbound (suite_of taproot) (b2_session_id req)));
    match fanout with
    | Err e => if b2_fanout req then reject BAD_GATEWAY (json_fail e)
               else mret (OK, js_object [("outbound", js_round2 msgs)])
    | Ok _ => mret (OK, js_object [("outbound", js_round2 msgs)])
    end
  else
    match b2_package_hex req with
    | None => reject BAD_REQUEST (q "{`error`:`round2 requires package_hex (ingest) or deliver=true`}")
    | Some package_hex =>
        let sender := default "" (b2_sender_node_id req) in
        _ ← bound_sender principal sender;
        status ← or_reply BAD_REQUEST (at_hub taproot (ingest_round2 (suite_of taproot)
          (mk_r2m (b2_session_id req) sender (default 0 (b2_sender_identifier req)) (default "" (b2_recipient_node_id req))
             (default 0 (b2_recipient_identifier req)) (default "" (b2_transcript_hex req)) package_hex None)));
        mret (OK, js_status status)
    end.

(** [session_id] and [finalize] of the body. *)
Definition dkg_round3_impl (taproot : bool) (body : result string (string * bool)) : cmd Exit DkgNode Reply :=
  req ← body_or_reply body;
  if negb req.2 then
    h ← get;
    status ← or_reply BAD_REQUEST (lift (hub_status (suite_of taproot) req.1 (hub_at taproot h)));
    mret (OK, js_status status)
  else
    status ← or_reply BAD_REQUEST (at_hub_store taproot
      (if taproot then tr_finalize_round3 req.1 else finalize_round3 plain_suite req.1));
    mret (OK, js_status status).

Definition dkg_status_impl (taproot : bool) (session_id : option string) : cmd Exit DkgNode Reply :=
  match session_id with
  | None => reject BAD_REQUEST (q "{`error`:`session_id query required`}")
  | Some session_id =>
      h ← get;
      status ← or_reply BAD_REQUEST (lift (hub_status (suite_of taproot) session_id (hub_at taproot h)));
      mret (OK, js_status status)
  end.
End dkg.
End mesh.

(* ------------------------------------------------------------------ *)
(** ** The manual reshare *)

Section reshare.
Context (FP FT : Frost) {RP : FrostRefresh FP} {RT : FrostRefresh FT} {FS : @FrostStorage FT}.
Context `{JS : SerdeJson, HX : HexCodec, SH : Sha256} {T : Type} `{ST : !ShareStore T}.

(** [reason] of the body; a body that does not parse is no body. *)
Definition v1_reshare_trigger (auth : VaultAuth) (hook : PolicyReshareHook) (rng : HookRng FP FT)
    (body : result string (option string)) : cmd Exit (HookState FP FT) Reply :=
  _ ← or_reply FORBIDDEN (lift (auth_reshare_trigger auth));
  let reason := match body with Ok r => default "manual" r | Err _ => "manual" end in
  _ ← or_reply CONFLICT (trigger_manual FP FT hook rng reason);
  mret (OK, js_object [("reshared", "true"); ("policy", js_string (reshare_policy_str (rh_policy hook)));
                       ("reason", js_string reason)]).

(** The wire reshare has no hub behind its routes. *)
Definition v1_reshare_tr_round1 {S} : cmd Exit S Reply :=
  mret (NOT_IMPLEMENTED, json_err "WireReshareHub not yet wired into VaultRuntime; see bootstrap/wiring.rs").
Definition v1_reshare_tr_round2 {S} : cmd Exit S Reply := mret (NOT_IMPLEMENTED, json_err "WireReshareHub not yet wired").
Definition v1_reshare_tr_finalize {S} : cmd Exit S Reply := mret (NOT_IMPLEMENTED, json_err "WireReshareHub not yet wired").
Definition v1_reshare_tr_status {S} : cmd Exit S Reply := mret (NOT_IMPLEMENTED, json_err "WireReshareHub not yet wired").
End reshare.

(* ------------------------------------------------------------------ *)
(** ** Co-signing *)

(** serde_json over the co-signer's answers. *)
Class CosignJson := { js_commit : TrCommitResponse → string; js_share : TrSignShareResponse → string }.

Section cosign.
Context `{FR : Frost, EY : !EvenY, FS : !FrostStorage, SG : !FrostSign, HX : HexCodec, JS : SerdeJson, CJ : CosignJson}.
Context {Env A : Type} `{AP : !AntiNoncePort Env A}.

Definition v1_frost_tr_commit (rng : Rng) (body : result string TrCommitRequest) :
    cmd Exit (TrCosignPeerState (A := A)) Reply :=
  req ← body_or_reply body;
  resp ← or_reply BAD_REQUEST (handle_commit rng req);
  mret (OK, js_commit resp).

Definition v1_frost_tr_sign_share (env : Env) (body : result string TrSignShareRequest) :
    cmd Exit (TrCosignPeerState (A := A)) Reply :=
  req ← body_or_reply body;
  resp ← or_reply BAD_REQUEST (handle_sign_share env req);
  mret (OK, match resp with
            | Some resp => js_share resp
            | None => q "{`skipped`:true,`reason`:`not in signing set`}"
            end).
End cosign.
