(* ===== verification/HttpDkg.v ===== *)
(** * Who feeds a key generation over HTTP

    Requests to [/v1/dkg] and [/v1/dkg/tr] through router, middleware and handlers, and where
    everything a session holds comes from; what a reply of success leaves behind. *)
From S2P Require Import Prelude RustStr RustParse Errors Identity AuthIdentity RateLimit Frost HybridEnvelope WireDkg WireRoster WireHub TrWire.
From S2P Require Import FrostShares ShareReshare HttpPeer PeerTrust ConfigEnv Config HttpRoute HttpMesh.
Local Open Scope N_scope.

(** serde_json over the request bodies. *)
Class DkgBodies := {
  parse_round1 : bytes → result string Round1Body;
  parse_round2 : bytes → result string Round2Body;
  parse_round3 : bytes → result string (string * bool);
}.
(** A request, and what its handling draws: the clock, the randomness, the fan-out's outcome. *)
Record DkgRequest := mk_dkg_request {
  dq_http : HttpRequest; dq_body : bytes; dq_query : option string; dq_now : N; dq_fanout : res unit }.

Section serve.
Context `{JS : SerdeJson, MJ : MeshJson, AX : AxumRouter, DB : DkgBodies}.
Context `{FR : Frost, FS : !FrostStorage, EY : !EvenY, HX : HexCodec, SH : Sha256} {T : Type} `{ST : !ShareStore T}.
Context (config : VaultConfig) (auth : VaultAuth) (seated : list string).
Notation Node := (DkgNode (T:=T)).

Definition route_dkg (h : Handler) (rng : Rng) (q : DkgRequest) (p : MeshPrincipal) : option (cmd Exit Node Reply) :=
  match h with
  | HDkgRound1 b => Some (dkg_round1_impl config b seated rng (dq_fanout q) p (parse_round1 (dq_body q)))
  | HDkgRound2 b => Some (dkg_round2_impl config b (dq_fanout q) p (parse_round2 (dq_body q)))
  | HDkgRound3 b => Some (dkg_round3_impl b (parse_round3 (dq_body q)))
  | HDkgStatus b => Some (dkg_status_impl b (dq_query q))
  | _ => None
  end.
(** One request, from the socket to the reply; [None] when it is not a key generation's. *)
Definition serve_dkg (rng : Rng) (q : DkgRequest) : cmd Exit (Limited Node) (option Reply) :=
  admitted ← (zoom fst (λ l p, (l, p.2)) (λ l,
      let '(l', r) := admit_request config auth (dq_now q) (dq_http q) l in (l', map_err Replied r)) :
    cmd Exit (Limited Node) (option (Handler * MeshPrincipal)));
  match admitted with
  | None => mret None
  | Some (h, p) =>
      match route_dkg h rng q p with
      | Some c => reply ← zoom snd (λ n s, (s.1, n)) c; mret (Some reply)
      | None => mret None
      end
  end.
Fixpoint serve_all (reqs : list (Rng * DkgRequest)) (s : Limited Node) : Limited Node :=
  match reqs with
  | [] => s
  | (rng, q) :: reqs => serve_all reqs (serve_dkg rng q s).1
  end.

(* ------------------------------------------------------------------ *)
(** ** What a request does to a hub *)

(** The certificate of the request names the vault at [node]. *)
Definition from_vault (q : DkgRequest) (node : string) : Prop :=
  ∃ uris dns p, rq_cert (dq_http q) = Some (Ok (uris, dns)) ∧ named_by uris dns config p ∧
    role p = Vault ∧ pr_node_id p = node.
(** The request posts [package_hex] to the session, as [node]. *)
Definition posts1 (taproot : bool) (sid node package_hex : string) (q : DkgRequest) : Prop :=
  from_vault q node ∧ handler_of (rq_method (dq_http q)) (rq_path (dq_http q)) = Some (HDkgRound1 taproot) ∧
  ∃ body, parse_round1 (dq_body q) = Ok body ∧ b1_session_id body = sid ∧ b1_package_hex body = Some package_hex.
Definition posts2 (taproot : bool) (sid node package_hex : string) (q : DkgRequest) : Prop :=
  from_vault q node ∧ handler_of (rq_method (dq_http q)) (rq_path (dq_http q)) = Some (HDkgRound2 taproot) ∧
  ∃ body, parse_round2 (dq_body q) = Ok body ∧ b2_session_id body = sid ∧ b2_package_hex body = Some package_hex.

Inductive hub_move (b : bool) (q : DkgRequest) (h : WireDkgHub) : WireDkgHub → Prop :=
| M_same : hub_move b q h h
| M_new req s : sr_roster req = seated → sessions h !! sr_session_id req = None →
    fresh_session (suite_of b) (hub_node_id h) req s → hub_move b q h (set_session (sr_session_id req) s h)
| M_round1 msg s s1 : sessions h !! r1m_session_id msg = Some s → ingest1_effect (suite_of b) msg s s1 →
    posts1 b (r1m_session_id msg) (trim (r1m_sender_node_id msg)) (r1m_package_hex msg) q →
    hub_move b q h (set_session (r1m_session_id msg) s1 h)
| M_round2 msg s s1 : sessions h !! r2m_session_id msg = Some s → ingest2_effect (suite_of b) msg s s1 →
    posts2 b (r2m_session_id msg) (trim (r2m_sender_node_id msg)) (r2m_package_hex msg) q →
    hub_move b q h (set_session (r2m_session_id msg) s1 h)
| M_take sid s : sessions h !! sid = Some s → hub_move b q h (set_session sid (set_round2_outbound ∅ s) h)
| M_done sid s kp pk : sessions h !! sid = Some s → hub_move b q h (complete_session sid kp pk s h).

Lemma at_hub_eq {B} b (c : dcmd WireDkgHub B) (s : Node) : at_hub b c s = (set_hub b (c (hub_at b s)).1 s, (c (hub_at b s)).2).
Proof. unfold at_hub, zoom. by destruct (c (hub_at b s)). Qed.
Lemma hub_at_set b b' h (s : Node) : hub_at b' (set_hub b h s) = if Bool.eqb b b' then h else hub_at b' s.
Proof. by destruct b, b'. Qed.

(** A step of one hub: the other hub keeps. *)
Definition moves {E B} (b : bool) (q : DkgRequest) (c : cmd E Node B) : Prop :=
  ∀ s, hub_move b q (hub_at b s) (hub_at b (c s).1) ∧ hub_at (negb b) (c s).1 = hub_at (negb b) s.
(** A step of no hub. *)
Definition still {E B} (c : cmd E Node B) : Prop := ∀ s, (c s).1 = s.

Lemma moves_still {E B} b q (c : cmd E Node B) : still c → moves b q c.
Proof. intros H s. rewrite H. split; [apply M_same|done]. Qed.
Lemma moves_bind_still {E B C} b q (c : cmd E Node B) (f : B → cmd E Node C) :
  still c → (∀ x s, c s = (s, Ok x) → moves b q (f x)) → moves b q (c ≫= f).
Proof.
  intros Hc Hf s. unfold mbind, cmd_bind. specialize (Hc s). destruct (c s) as [s1 [x|e]] eqn:E1; simpl in *; subst.
  - by apply (Hf x s).
  - split; [apply M_same|done].
Qed.
Lemma moves_bind {E B C} b q (c : cmd E Node B) (f : B → cmd E Node C) :
  moves b q c → (∀ x, still (f x)) → moves b q (c ≫= f).
Proof.
  intros Hc Hf s. unfold mbind, cmd_bind. specialize (Hc s). destruct (c s) as [s1 [x|e]]; simpl in *; [|done].
  by rewrite Hf.
Qed.
Lemma moves_or_reply {B} b q code (c : dcmd Node B) : moves b q c → moves b q (or_reply code c).
Proof. intros H s. specialize (H s). unfold or_reply. by destruct (c s). Qed.
Lemma moves_at_hub {B} b q (c : dcmd WireDkgHub B) : (∀ h, hub_move b q h (c h).1) → moves b q (at_hub b c).
Proof. intros H s. rewrite at_hub_eq. simpl. rewrite !hub_at_set. destruct b; simpl; by split; [apply H|]. Qed.
Lemma still_lift {E B} (r : result E B) : still (lift r).
Proof. done. Qed.
Lemma still_or_reply {B} code (c : dcmd Node B) : still c → still (or_reply code c).
Proof. intros H s. specialize (H s). unfold or_reply. by destruct (c s). Qed.
Lemma still_bind {E B C} (c : cmd E Node B) (f : B → cmd E Node C) : still c → (∀ x, still (f x)) → still (c ≫= f).
Proof. intros Hc Hf s. unfold mbind, cmd_bind. specialize (Hc s). destruct (c s) as [s1 [x|e]]; simpl in *; subst; [apply Hf|done]. Qed.

(* ------------------------------------------------------------------ *)
(** ** Every request is a move *)

Context (Hmtls : cfg_auth_mode config = MutualTls) (Hnotlab : not_lab config = true).

Lemma start_roster_seated given r : start_roster config seated given = Some r → r = seated.
Proof.
  unfold start_roster. destruct given as [[|x l]|]; [by intros [= <-]| |by intros [= <-]].
  rewrite Hnotlab, andb_true_r. destruct (bool_decide _) eqn:E; [|done]. apply bool_decide_eq_true in E. cbn [negb].
  assert (length (x :: l) = length seated) as El.
  { by rewrite <- (Permutation_length (merge_sort_Permutation String.le (x :: l))), E, merge_sort_Permutation. }
  apply Nat.eqb_eq in El. rewrite El. by intros [= <-].
Qed.

Lemma bound_sender_ok p sender (s s' : Node) : lab_omnipotent p = false →
  bound_sender config p sender s = (s', Ok tt) → role p = Vault ∧ pr_node_id p = trim sender.
Proof.
  intros Hp. unfold bound_sender, or_reply, lift, bind_dkg_sender_to_peer. rewrite Hmtls. simpl.
  case_bool_decide; simpl; [done|]. rewrite Hp.
  case_bool_decide; simpl; [|done]. case_bool_decide; simpl; [|done]. done.
Qed.

Lemma with_session_move {B} b q sid e (c : dcmd SessionInner B) h :
  (∀ s, sessions h !! sid = Some s → hub_move b q h (set_session sid (c s).1 h)) →
  hub_move b q h (with_session sid e c h).1.
Proof. intros Hc. destruct (with_session_effect sid e c h) as [->|(s & Hs & ->)]; [apply M_same|by apply Hc]. Qed.

Lemma dkg_start_moves b q rng req : moves b q (dkg_start config b seated rng (dq_fanout q) req).
Proof.
  unfold dkg_start. destruct (start_roster config seated (b1_roster req)) as [r|] eqn:Hr; [|by apply moves_still].
  apply start_roster_seated in Hr as ->. destruct (len seated <? 2); [by apply moves_still|].
  apply moves_bind.
  - apply moves_or_reply, moves_at_hub. intros h.
    match goal with |- context [start ?w ?r ?g h] => destruct (start_has_effect w r g h) as [| |x st msg Hn Hf Ha] end;
      [apply M_same..|]. by eapply M_new.
  - intros [st msg] s. destruct (dq_fanout q); [done|]. by destruct (b1_fanout req).
Qed.

Lemma route_moves h rng q p c : lab_omnipotent p = false → handler_of (rq_method (dq_http q)) (rq_path (dq_http q)) = Some h →
  (role p = Vault → from_vault q (pr_node_id p)) → route_dkg h rng q p = Some c →
  ∃ b, moves b q c.
Proof.
  intros Hlab Hh Hp. destruct h as [| | | | | | | | | | | |b|b|b|b| | | | | | | | | |]; try done; intros [= <-]; exists b.
  - unfold dkg_round1_impl. apply moves_bind_still; [apply still_lift|]. intros req s [_ Hb]%lift_ok.
    destruct (parse_round1 (dq_body q)) as [req'|] eqn:Hparse; [|done]. injection Hb as ->.
    destruct (b1_package_hex req) as [pkg|] eqn:Hpkg; [|apply dkg_start_moves].
    apply moves_bind_still; [by apply still_or_reply, still_lift|]. intros [] s1 Hs.
    apply bound_sender_ok in Hs as [Hv Hn]; [|done].
    apply moves_bind; [|done]. apply moves_or_reply, moves_at_hub. intros hub.
    unfold ingest_round1, mbind, cmd_bind, lift. destruct (check_envelope _ _ _); [|apply M_same].
    apply with_session_move. intros x Hx.
    eapply (M_round1 _ _ _ _ x); [done|apply session_ingest_round1_effect|]. simpl. split; [|eauto].
    rewrite <- Hn. by apply Hp.
  - unfold dkg_round2_impl. apply moves_bind_still; [apply still_lift|]. intros req s [_ Hb]%lift_ok.
    destruct (parse_round2 (dq_body q)) as [req'|] eqn:Hparse; [|done]. injection Hb as ->.
    destruct (b2_deliver req).
    + apply moves_bind.
      * apply moves_or_reply, moves_at_hub. intros hub. destruct (take_has_effect (suite_of b) (b2_session_id req) hub);
          [apply M_same|by apply M_take].
      * intros msgs s1. destruct (dq_fanout q); [done|]. by destruct (b2_fanout req).
    + destruct (b2_package_hex req) as [pkg|] eqn:Hpkg; [|by apply moves_still].
      apply moves_bind_still; [by apply still_or_reply, still_lift|]. intros [] s1 Hs.
      apply bound_sender_ok in Hs as [Hv Hn]; [|done].
      apply moves_bind; [|done]. apply moves_or_reply, moves_at_hub. intros hub.
      unfold ingest_round2, mbind, cmd_bind, lift. destruct (check_envelope _ _ _); [|apply M_same].
      apply with_session_move. intros x Hx.
      eapply (M_round2 _ _ _ _ x); [done|apply session_ingest_round2_effect|]. simpl. split; [|eauto].
      rewrite <- Hn. by apply Hp.
  - unfold dkg_round3_impl. apply moves_bind_still; [apply still_lift|]. intros req s _.
    destruct (negb req.2).
    + apply moves_still, still_bind; [done|]. intros x. apply still_bind; [by apply still_or_reply, still_lift|done].
    + apply moves_bind; [|done]. apply moves_or_reply. intros s1. unfold at_hub_store, zoom.
      destruct b.
      * pose proof (finalize_has_effect tr_suite tr_sink kp_even_y pk_even_y tr_sink_form req.1 (hub_at true s1, dn_store s1)) as H.
        fold tr_finalize_round3 in H. destruct (tr_finalize_round3 req.1 _) as [[h' t'] r]. simpl in *. split; [|done].
        destruct H; [apply M_same|by apply M_done].
      * pose proof (finalize_has_effect plain_suite plain_sink id id plain_sink_form req.1 (hub_at false s1, dn_store s1)) as H.
        fold (finalize_round3 (T:=T) plain_suite) in H. destruct (finalize_round3 plain_suite req.1 _) as [[h' t'] r]. simpl in *. split; [|done].
        destruct H; [apply M_same|by apply M_done].
  - unfold dkg_status_impl. apply moves_still. destruct (dq_query q); [|done].
    apply still_bind; [done|]. intros x. apply still_bind; [by apply still_or_reply, still_lift|done].
Qed.

(** A request moves either hub. *)
Lemma serve_moves r q (s : Limited Node) b : hub_move b q (hub_at b s.2) (hub_at b (serve_dkg r q s).1.2).
Proof.
  unfold serve_dkg, mbind, cmd_bind, zoom.
  destruct (admit_request config auth (dq_now q) (dq_http q) s.1) as [l' [adm|e]] eqn:Ha; cbn; [|apply M_same].
  destruct adm as [[h p]|]; [|apply M_same]. destruct (route_dkg h r q p) as [c|] eqn:Hc; [|apply M_same].
  apply admit_ok in Ha as (Hh & l1 & (_ & Hp & _)%mw_passed). apply principal_of_cert in Hp as (uris & dns & Hcert & Hn); [|done].
  destruct (route_moves h r q p c) as [b' Hb]; [apply Hn|done| |done|].
  { intros Hv. by exists uris, dns, p. }
  cbn. destruct (Hb s.2) as [H1 H2]. destruct (c s.2) as [n' x]. cbn in *.
  destruct (decide (b = b')) as [->|Hne]; [by destruct x|]. assert (b = negb b') as -> by (by destruct b, b').
  destruct x; cbn; rewrite H2; apply M_same.
Qed.

(* ------------------------------------------------------------------ *)
(** ** Where a session's inputs come from *)

Context `{FC : !FrostCodec}.
Implicit Types past reqs : list (Rng * DkgRequest).

(** A foreign package was posted, in the clear of its hex, by the vault its identifier belongs to. *)
Definition posted {P} (posts : string → string → DkgRequest → Prop) (deserialize : bytes → result string P)
    (s : SessionInner) (past : list (Rng * DkgRequest)) (i : Identifier) (p : P) : Prop :=
  ∃ r q node hex b, (r, q) ∈ past ∧ posts node hex q ∧ roster s !! node = Some i ∧
    hex_decode hex = Ok b ∧ deserialize b = Ok p.
Record sourced (b : bool) (past : list (Rng * DkgRequest)) (sid : string) (s : SessionInner) : Prop := {
  so_roster : build_roster (suite_of b) seated = Ok (roster s);
  so_round1 i p : round1_packages s !! i = Some p → i ≠ local_identifier s →
    posted (posts1 b sid) r1_deserialize s past i p;
  so_round2 i p : round2_inbox s !! i = Some p → posted (posts2 b sid) r2_deserialize s past i p;
}.
Definition hub_sourced (b : bool) (past : list (Rng * DkgRequest)) (h : WireDkgHub) : Prop :=
  ∀ sid s, sessions h !! sid = Some s → sourced b past sid s.

Lemma posted_mono {P} posts (des : bytes → result string P) s s' past past' i p : roster s' = roster s → past ⊆ past' →
  posted posts des s past i p → posted posts des s' past' i p.
Proof. intros Hr Hs (r & q & node & hex & b & Hin & H). exists r, q, node, hex, b. rewrite Hr. split; [by apply Hs|done]. Qed.
(** A session whose inputs only shrank. *)
Lemma sourced_le b past past' sid s s' : roster s' = roster s → local_identifier s' = local_identifier s →
  round1_packages s' = round1_packages s → round2_inbox s' = round2_inbox s → past ⊆ past' →
  sourced b past sid s → sourced b past' sid s'.
Proof.
  intros E1 E2 E3 E4 Hs [Hr H1 H2]. split; [by rewrite E1| |]; rewrite ?E2, ?E3, ?E4; intros;
    (eapply posted_mono; [exact E1|exact Hs|]); auto.
Qed.
Lemma hub_sourced_set b past past' sid s h : past ⊆ past' → hub_sourced b past h → sourced b past' sid s →
  hub_sourced b past' (set_session sid s h).
Proof.
  intros Hs Hh Hn sid' s' Hl. cbn in Hl. destruct (decide (sid = sid')) as [<-|Hne].
  - rewrite lookup_insert_eq in Hl. by injection Hl as <-.
  - rewrite lookup_insert_ne in Hl by done. eapply sourced_le; eauto.
Qed.

Lemma sourced_round1 b past r q msg s s1 : (r, q) ∈ past → ingest1_effect (suite_of b) msg s s1 →
  posts1 b (r1m_session_id msg) (trim (r1m_sender_node_id msg)) (r1m_package_hex msg) q →
  sourced b past (r1m_session_id msg) s → sourced b past (r1m_session_id msg) s1.
Proof.
  intros Hin He Hq Hs. pose proof (so_roster _ _ _ _ Hs) as [_ Hwf]%build_roster_keys.
  assert (∀ id p, accepts_round1 (suite_of b) msg s id p →
    sourced b past (r1m_session_id msg) (set_round1_packages <[id := p]> s)) as Hadd.
  { intros id p Ha. split; [apply Hs| |apply Hs]. intros i p' Hl Hi. cbn in Hl, Hi.
    destruct (decide (id = i)) as [<-|Hne].
    - rewrite lookup_insert_eq in Hl. injection Hl as ->. destruct (a1_package _ _ _ _ _ Ha) as (bs & Hd & Hp).
      pose proof (a1_sender _ _ _ _ _ Ha) as Hr. exists r, q, (trim (r1m_sender_node_id msg)), (r1m_package_hex msg), bs.
      split_and!; [done|done| |done|done]. cbn. rewrite (rw_trimmed _ Hwf); eauto.
    - rewrite lookup_insert_ne in Hl by done. by apply (so_round1 _ _ _ _ Hs). }
  destruct He as [|id p Ha _|id p secret out Ha _ _ _|id p secret e Ha _ _ _]; [done|by apply Hadd| |];
    (eapply sourced_le; [..|by apply (Hadd id p)]; done).
Qed.
Lemma sourced_round2 b past r q msg s s1 : (r, q) ∈ past → ingest2_effect (suite_of b) msg s s1 →
  posts2 b (r2m_session_id msg) (trim (r2m_sender_node_id msg)) (r2m_package_hex msg) q →
  sourced b past (r2m_session_id msg) s → sourced b past (r2m_session_id msg) s1.
Proof.
  intros Hin He Hq Hs. pose proof (so_roster _ _ _ _ Hs) as [_ Hwf]%build_roster_keys.
  destruct He as [|id p Ha]; [done|]. split; [apply Hs|apply Hs|]. intros i p' Hl. cbn in Hl.
  destruct (decide (id = i)) as [<-|Hne].
  - rewrite lookup_insert_eq in Hl. injection Hl as ->. destruct (a2_package _ _ _ _ _ Ha) as (bs & Hd & Hp).
    pose proof (a2_sender _ _ _ _ _ Ha) as Hr. exists r, q, (trim (r2m_sender_node_id msg)), (r2m_package_hex msg), bs.
    split_and!; [done|done| |done|done]. cbn. rewrite (rw_trimmed _ Hwf); eauto.
  - rewrite lookup_insert_ne in Hl by done. by apply (so_round2 _ _ _ _ Hs).
Qed.

Lemma start_check_roster w req R t : start_check w req = Ok (R, t) → build_roster w (sr_roster req) = Ok R.
Proof.
  unfold start_check. rewrite guard_ok. intros [_ (R1 & Hb & Hs)%bind_ok]. rewrite guard_ok in Hs.
  destruct Hs as [_ [= -> _]]. done.
Qed.

Lemma move_sourced b past r q h h' : hub_move b q h h' → hub_sourced b past h → hub_sourced b (past ++ [(r, q)]) h'.
Proof.
  intros Hm Hh. assert (past ⊆ past ++ [(r, q)]) as Hsub by set_solver.
  assert ((r, q) ∈ past ++ [(r, q)]) as Hin by set_solver.
  destruct Hm as [|req s Hr Hn Hf|msg s s1 Hl He Hq|msg s s1 Hl He Hq|sid s Hl|sid s kp pk Hl].
  - intros sid s Hl. eapply sourced_le; eauto.
  - eapply hub_sourced_set; [done..|]. destruct Hf as (R & t & id & sp & g & Hc & _ & _ & ->).
    apply start_check_roster in Hc. rewrite Hr in Hc. split; simpl; [done| |by intros i p; rewrite lookup_empty].
    intros i p Hl Hi. destruct (decide (id = i)) as [->|Hne]; [done|]. by rewrite lookup_singleton_ne in Hl.
  - eapply hub_sourced_set; [done..|]. eapply sourced_round1; [exact Hin|done..|].
    eapply sourced_le; [..|by apply Hh]; done.
  - eapply hub_sourced_set; [done..|]. eapply sourced_round2; [exact Hin|done..|].
    eapply sourced_le; [..|by apply Hh]; done.
  - eapply hub_sourced_set; [done..|]. eapply sourced_le; [..|by apply Hh]; done.
  - change (hub_sourced b (past ++ [(r, q)]) (set_session sid (enter_complete kp pk s) h)).
    eapply hub_sourced_set; [done..|]. eapply sourced_le; [..|by apply Hh]; done.
Qed.

Lemma serve_sourced past r q (s : Limited Node) :
  (∀ b, hub_sourced b past (hub_at b s.2)) → ∀ b, hub_sourced b (past ++ [(r, q)]) (hub_at b (serve_dkg r q s).1.2).
Proof. intros Hs b. eapply move_sourced; [apply serve_moves|done]. Qed.

(** C5 Key generation over HTTP takes its inputs from the seated vaults alone: outside the lab,
    under mTLS, whatever requests reach a node that starts without sessions, in whatever order
    and with whatever bodies, every session of either ceremony has exactly the numbered roster
    of the seated vaults; every foreign round-1 package it holds and every round-2 package of
    its inbox was posted to it, on that ceremony's route, by a request whose client certificate
    names the vault whose identifier the package is filed under. *)
Theorem dkg_inputs_authenticated reqs (s : Limited Node) taproot sid x :
  (∀ b, sessions (hub_at b s.2) = ∅) →
  sessions (hub_at taproot (serve_all reqs s).2) !! sid = Some x →
  build_roster (suite_of taproot) seated = Ok (roster x) ∧
  (∀ i p, round1_packages x !! i = Some p → i ≠ local_identifier x →
     posted (posts1 taproot sid) r1_deserialize x reqs i p) ∧
  (∀ i p, round2_inbox x !! i = Some p → posted (posts2 taproot sid) r2_deserialize x reqs i p).
Proof.
  intros Hempty Hx.
  assert (∀ past s, (∀ b, hub_sourced b past (hub_at b s.2)) →
    ∀ b, hub_sourced b (past ++ reqs) (hub_at b (serve_all reqs s).2)) as G.
  { clear Hempty Hx s. induction reqs as [|[r q] reqs IH]; intros past s Hs b; [by rewrite app_nil_r|].
    rewrite cons_middle, app_assoc. apply IH. by apply serve_sourced. }
  destruct (G [] s) with taproot sid x as [Hr H1 H2]; [|done|by split_and!].
  intros b sid' x' Hl. by rewrite Hempty, lookup_empty in Hl.
Qed.
End serve.

(* ------------------------------------------------------------------ *)
(** ** What a request leaves behind *)

Section answers.
Context `{JS : SerdeJson, MJ : MeshJson, AX : AxumRouter, DB : DkgBodies}.
Context `{FR : Frost, FS : !FrostStorage, EY : !EvenY, HX : HexCodec, SH : Sha256} {T : Type} `{ST : !ShareStore T}.
Context (config : VaultConfig) (auth : VaultAuth) (seated : list string).
Notation Node := (DkgNode (T:=T)).

Definition hub_grows (h h' : WireDkgHub) : Prop :=
  ∀ sid s, sessions h !! sid = Some s → ∃ s', sessions h' !! sid = Some s' ∧ grows s s'.
Lemma set_session_grows sid s s' h : sessions h !! sid = Some s → grows s s' → hub_grows h (set_session sid s' h).
Proof.
  intros Hs Hg sid' x Hx. cbn. destruct (decide (sid = sid')) as [<-|Hne].
  - rewrite lookup_insert_eq. rewrite Hs in Hx. injection Hx as ->. eauto.
  - rewrite lookup_insert_ne by done. exists x. by split.
Qed.
Lemma move_grows b q h h' : hub_move config seated b q h h' → hub_grows h h'.
Proof.
  intros [|req s _ Hn _|msg s s1 Hl He _|msg s s1 Hl He _|sid s Hl|sid s kp pk Hl].
  - intros sid s Hs. exists s. by split.
  - intros sid x Hx. cbn. rewrite lookup_insert_ne by (intros E; by rewrite E, Hx in Hn). exists x. by split.
  - eapply set_session_grows; [done|by eapply ingest1_grows].
  - eapply set_session_grows; [done|by eapply ingest2_grows].
  - by eapply set_session_grows.
  - change (hub_grows h (set_session sid (enter_complete kp pk s) h)). by eapply set_session_grows.
Qed.

(** The messages the bodies of a package carry. *)
Definition round1_posted (body : Round1Body) (package_hex : string) : Round1WireMessage :=
  mk_r1m (b1_session_id body) (default "" (b1_sender_node_id body)) (default 0 (b1_sender_identifier body))
    (default 0 (b1_max_signers body)) (default 0 (b1_min_signers body)) (default "" (b1_transcript_hex body)) package_hex None.
Definition round2_posted (body : Round2Body) (package_hex : string) : Round2WireMessage :=
  mk_r2m (b2_session_id body) (default "" (b2_sender_node_id body)) (default 0 (b2_sender_identifier body))
    (default "" (b2_recipient_node_id body)) (default 0 (b2_recipient_identifier body)) (default "" (b2_transcript_hex body)) package_hex None.

(** The caller sees a success; a panic drops the connection. *)
Definition replied_well (r : result Exit Reply) : Prop :=
  match r with Ok x | Err (Replied x) => is_success x.1 = true | Err Panicked => False end.
Definition served_well (r : result Exit (option Reply)) : Prop :=
  match r with Ok (Some x) | Err (Replied x) => is_success x.1 = true | _ => False end.

Lemma principal_refused req rep : request_principal config req = Err rep → is_success rep.1 = false.
Proof.
  unfold request_principal. case_match; [done|]. destruct (rq_cert req) as [cert|]; [|by intros [= <-]].
  destruct (to_principal cert _ _); by intros [= <-].
Qed.
Lemma route_refused p path rep : check_route p path = Err rep → is_success rep.1 = false.
Proof. unfold check_route. repeat case_match; by intros [= <-]. Qed.
(** The middleware refuses with an error code. *)
Lemma mw_refused now req l l' rep : require_token_mw config auth now req l = (l', Err rep) → is_success rep.1 = false.
Proof.
  unfold require_token_mw, mbind, cmd_bind, lift. destruct (auth_authorize auth _) as [[]|e]; cbn; [|by intros [= _ <-]].
  destruct (check _ _ l) as [l1 [[]|e]]; cbn; [|by intros [= _ <-]].
  destruct (request_principal config req) as [p|e] eqn:Hp; [|intros [= _ <-]; by eapply principal_refused].
  destruct (check_route p (rq_path req)) as [[]|e] eqn:Hr; cbn; [done|]. intros [= _ <-]. by eapply route_refused.
Qed.

(** A request for key generation that succeeds went through its handler, which replied with success. *)
Lemma serve_succeeds r q (s : Limited Node) h : handler_of (rq_method (dq_http q)) (rq_path (dq_http q)) = Some h →
  served_well (serve_dkg config auth seated r q s).2 →
  ∃ p c, route_dkg config seated h r q p = Some c ∧ (serve_dkg config auth seated r q s).1.2 = (c s.2).1 ∧ replied_well (c s.2).2.
Proof.
  intros Hh. unfold serve_dkg, mbind, cmd_bind, zoom.
  destruct (admit_request config auth (dq_now q) (dq_http q) s.1) as [l' [adm|e]] eqn:Ha; cbn.
  - destruct adm as [[h' p]|]; [|done]. apply admit_ok in Ha as (Hh' & _). rewrite Hh in Hh'. injection Hh' as <-.
    destruct (route_dkg config seated h r q p) as [c|] eqn:Hc; [|done]. cbn.
    destruct (c s.2) as [n' x] eqn:Ec. cbn. intros Hs. exists p, c. rewrite Ec. split_and!; [done|by destruct x|by destruct x].
  - unfold admit_request in Ha. rewrite Hh in Ha. unfold mbind, cmd_bind in Ha.
    destruct (require_token_mw _ _ _ _ _) as [l1 [p|e']] eqn:Hm; [done|]. injection Ha as <- <-.
    apply mw_refused in Hm. cbn. congruence.
Qed.

Lemma serve_elsewhere r q (s s' : Limited Node) h : handler_of (rq_method (dq_http q)) (rq_path (dq_http q)) = Some h →
  serve_dkg config auth seated r q s = (s', Ok None) → ∃ p, route_dkg config seated h r q p = None.
Proof.
  intros Hh H. unfold serve_dkg in H. apply cmd_bind_ok in H as (s1 & adm & Ha & H). unfold zoom in Ha.
  unfold admit_request in Ha. rewrite Hh in Ha. unfold mbind, cmd_bind in Ha.
  destruct (require_token_mw _ _ _ _ _) as [l1 [p|e']]; [|done]. injection Ha as <- <-. exists p.
  destruct (route_dkg config seated h r q p) as [c|]; [|done]. by apply cmd_bind_ok in H as (? & x & _ & ?).
Qed.

Lemma or_reply_well {S B} code (c : dcmd S B) (f : B → cmd Exit S Reply) s r : is_success code = false →
  replied_well r.2 → (or_reply code c ≫= f) s = r → ∃ s' y, c s = (s', Ok y) ∧ f y s' = r.
Proof. intros Hc Hr <-. unfold mbind, cmd_bind, or_reply in *. destruct (c s) as [s' [y|e]]; cbn in *; [eauto|congruence]. Qed.
Lemma with_session_ok {A} sid e (c : dcmd SessionInner A) h h' y : with_session sid e c h = (h', Ok y) →
  ∃ s s', sessions h !! sid = Some s ∧ c s = (s', Ok y) ∧ sessions h' !! sid = Some s'.
Proof.
  unfold with_session. destruct (sessions h !! sid) as [s|]; [|done]. destruct (c s) as [s' r] eqn:E. intros [= <- ->].
  exists s, s'. split_and!; [done..|]. cbn. apply lookup_insert_eq.
Qed.

(** Binding the sender and handing over the message, in both rounds. *)
Lemma hand_over_well {M} b p sender sid e (c : dcmd SessionInner M) (check : res unit) (g : M → Reply) (n : Node) r :
  replied_well r.2 →
  (_ ← bound_sender config p sender;
   status ← or_reply BAD_REQUEST (at_hub b (_ ← lift check; with_session sid e c));
   mret (g status)) n = r →
  ∃ s x y, c s = (x, Ok y) ∧ sessions (hub_at b r.1) !! sid = Some x.
Proof.
  intros Hr H. apply (or_reply_well UNAUTHORIZED) in H as (n1 & [] & [-> _]%lift_ok & H); [|done..].
  apply (or_reply_well BAD_REQUEST) in H as (n2 & st & Hi & <-); [|done..].
  rewrite at_hub_eq in Hi. injection Hi as <- Hi.
  match type of Hi with (?k ?h).2 = _ => destruct (k h) as [h' r'] eqn:Hh end.
  cbn in Hi. subst r'. apply cmd_bind_ok in Hh as (? & ? & [-> _]%lift_ok & Hh).
  apply with_session_ok in Hh as (s & x & _ & Hc & Hx). exists s, x, st. split; [done|]. cbn. by rewrite hub_at_set, eqb_reflx.
Qed.
Lemma round1_well b rng fanout p body hex (n : Node) r : b1_package_hex body = Some hex → replied_well r.2 →
  dkg_round1_impl config b seated rng fanout p (Ok body) n = r →
  ∃ x, sessions (hub_at b r.1) !! b1_session_id body = Some x ∧ took_round1 (round1_posted body hex) x.
Proof.
  intros Hh Hr H. cbv [dkg_round1_impl body_or_reply mbind cmd_bind lift map_err] in H. rewrite Hh in H.
  eapply hand_over_well in H as (s & x & y & Hc & Hx); [|done]. exists x. split; [exact Hx|]. by eapply session_ingest_round1_took.
Qed.
Lemma round2_well b fanout p body hex (n : Node) r : b2_deliver body = false → b2_package_hex body = Some hex → replied_well r.2 →
  dkg_round2_impl config b fanout p (Ok body) n = r →
  ∃ x, sessions (hub_at b r.1) !! b2_session_id body = Some x ∧ took_round2 (round2_posted body hex) x.
Proof.
  intros Hd Hh Hr H. cbv [dkg_round2_impl body_or_reply mbind cmd_bind lift map_err] in H. rewrite Hd, Hh in H.
  eapply hand_over_well in H as (s & x & y & Hc & Hx); [|done]. exists x. split; [exact Hx|]. by eapply session_ingest_round2_took.
Qed.
End answers.
