(* ===== verification/HttpLegacy.v ===== *)
(** * The legacy dispatcher ([adapters/http.rs], [dispatch_legacy] and [v1_sign])

    The old path-encoded routes over the use cases of the ledger, the laboratory signer,
    releases, the intent gate and the economy; what any sequence of them keeps. *)
From S2P Require Import Prelude RustStr RustParse Errors Identity Bucket BucketLedger Constitution Ledger NodeTier Economy Gate Release LabField Threshold.
From S2P Require Import AuthIdentity Frost HybridEnvelope WireDkg FrostShares ShareReshare HttpPeer PeerTrust ConfigEnv Config HttpRoute Health.
Local Open Scope N_scope.

(* ------------------------------------------------------------------ *)
(** ** Paths *)

(** [splitn]: at most [n] pieces. *)
Fixpoint splitn (n : nat) (c : ascii) (s : string) : list string :=
  match n with
  | O => []
  | S O => [s]
  | S n => match split_once c s with Some (x, y) => x :: splitn n c y | None => [s] end
  end.
(** The [i]th piece of what follows the prefix. *)
Definition segment (prefix path : string) (n i : nat) : string :=
  default "" (splitn n "/"%char (trim_start_matches prefix path) !! i).
(** A comma-separated council: trimmed, without blanks. *)
Definition council_of (csv : string) : gset string := list_to_set (csv_entries csv).

Definition status_from_str (s : string) : N :=
  let w := default "500" (head (split_whitespace s)) in
  if String.eqb w "200" then OK else if String.eqb w "400" then BAD_REQUEST else if String.eqb w "403" then FORBIDDEN
  else if String.eqb w "404" then NOT_FOUND else if String.eqb w "414" then URI_TOO_LONG else INTERNAL_SERVER_ERROR.
Notation ok_200 := (status_from_str "200 OK").
Notation bad_400 := (status_from_str "400 Bad Request").
Notation forbidden_403 := (status_from_str "403 Forbidden").
Notation not_found_404 := (status_from_str "404 Not Found").
Notation internal_500 := (status_from_str "500 Internal Server Error").

Section legacy.
Context `{JS : SerdeJson, SH : Sha256, AL : AddressLib}.
Context {Env St : Type} `{BP : !BucketPort Env St}.

Record LegacyRuntime := mk_legacy_runtime {
  lr_config : VaultConfig;
  lr_auth : VaultAuth;
  lr_health : GetHealth;
}.
Record LegacyNode := mk_legacy { lg_gate : GateNode St; lg_mesh : ReleaseMesh; lg_threshold : TState }.
(** Readings of one request: the clock twice, the ledger's environment, who is online and who answers. *)
Record LegacyEnv := mk_legacy_env {
  le_now : N; le_now' : N; le_bucket : Env; le_online : nat; le_dials : string → bool; le_probe : string → bool }.

Definition lg_on_gate {B} : dcmd (GateNode St) B → dcmd LegacyNode B :=
  zoom lg_gate (λ g s, mk_legacy g (lg_mesh s) (lg_threshold s)).
Definition lg_on_eco {B} (c : dcmd EcoNode B) : dcmd LegacyNode B :=
  lg_on_gate (zoom node (λ n g, {| buckets := buckets g; node := n |}) c).
Definition lg_on_rel {B} : dcmd RelNode B → dcmd LegacyNode B :=
  zoom (λ s, {| mesh := lg_mesh s; enode := node (lg_gate s) |})
    (λ r s, mk_legacy {| buckets := buckets (lg_gate s); node := enode r |} (mesh r) (lg_threshold s)).
Definition lg_on_threshold {B} : dcmd TState B → dcmd LegacyNode B :=
  zoom lg_threshold (λ t s, mk_legacy (lg_gate s) (lg_mesh s) t).

Context (rt : LegacyRuntime) (env : LegacyEnv).
Notation local := (cfg_node_id (lr_config rt)).
Notation governance := (Some (local, governance_reward_config (lr_config rt))).
Notation Legacy := (cmd Exit LegacyNode Reply).
(** [match c { Ok(x) => ("200 OK", f(x)), Err(e) => (code, json_err(e)) }]. *)
Definition answer {B} (code : N) (c : dcmd LegacyNode B) (f : B → string) : Legacy :=
  x ← or_reply code c; mret (ok_200, f x).
Definition usage (text : string) : Legacy := reject bad_400 text.

Definition legacy_health : Legacy :=
  mret (ok_200, health_json (get_health (le_dials env) (le_probe env) (lr_health rt))).
Definition legacy_threshold : Legacy :=
  s ← get;
  let g := group (lg_threshold s) in
  mret (ok_200, format (q "{{`n`:{},`t`:{},`commitment`:`{}`,`scheme`:`lab-shamir-threshold-v1`,`online`:{}}}")
    [show (N.of_nat (gk_n g)); show (N.of_nat (gk_t g)); gk_commitment g; show (N.of_nat (le_online env))]).
Definition legacy_allowlist : Legacy :=
  answer internal_500 (lg_on_rel (on_mesh get_allowlist)) (λ l, "[" +:+ join "," (allowlist_entry_json <$> l) +:+ "]").
Definition legacy_check_hb (path : string) : Legacy :=
  hb ← or_reply bad_400 (lift (content_hash_parse (trim_start_matches "/release/check-hb/" path)));
  answer forbidden_403 (lg_on_rel (require_hb hb)) (λ _, q "{`allowlisted`:true}").
Definition legacy_get_release (path : string) : Legacy :=
  answer not_found_404 (lg_on_rel (on_mesh (get_candidate (trim_start_matches "/release/" path)))) release_candidate_json.
Definition legacy_economy_status : Legacy :=
  answer internal_500 (lg_on_eco (get_economy_status (governance_reward_config (lr_config rt))
    (cfg_miner_payout_cadence (lr_config rt)) (cfg_node_tier (lr_config rt)) (cfg_attestation_mode (lr_config rt))
    (cfg_tee_available (lr_config rt)))) economy_status_json.

Definition legacy_propose_epoch (path : string) : Legacy :=
  answer bad_400 (lg_on_eco (on_led (propose_epoch_advance local (trim_start_matches "/epoch/propose/" path)))) proposal_to_json.
Definition legacy_vote_epoch (path : string) : Legacy :=
  answer bad_400 (lg_on_eco (on_led (vote_epoch_advance local (trim_start_matches "/epoch/vote/" path)))) proposal_to_json.

Definition lab_sign (session_id message_hash : string) : Legacy :=
  answer bad_400 (lg_on_threshold (run_lab_quorum_sign (le_online env) session_id message_hash)) combined_json.
Definition legacy_sign (path : string) : Legacy :=
  let session_id := segment "/sign/" path 2 0 in
  let message_hash := segment "/sign/" path 2 1 in
  if String.eqb session_id "" || String.eqb message_hash "" then
    usage (q "{`error`:`usage /sign/{session_id}/{message_hash}`}")
  else lab_sign session_id message_hash.
(** [session_id] and [message_hash] of the body. *)
Definition v1_sign (body : result string (string * string)) : Legacy :=
  _ ← or_reply UNAUTHORIZED (lift (auth_treasury_sign (lr_auth rt)));
  req ← body_or_reply body;
  sig ← or_reply BAD_REQUEST (lg_on_threshold (run_lab_quorum_sign (le_online env) req.1 req.2));
  mret (OK, combined_json sig).

Definition legacy_propose_tampered (path : string) : Legacy :=
  let p := "/release/propose-tampered/" in
  if negb (lab_endpoints_enabled (lr_config rt)) then
    reject forbidden_403 (q "{`error`:`lab flag forbidden outside lab: propose-tampered`}")
  else
    let id := segment p path 4 0 in
    let source_label := segment p path 4 1 in
    let evil_hb := segment p path 4 2 in
    let council_csv := segment p path 4 3 in
    if String.eqb id "" || String.eqb source_label "" || String.eqb evil_hb "" || String.eqb council_csv "" then
      usage (q "{`error`:`usage /release/propose-tampered/{id}/{source}/{evil_hb}/{council}`}")
    else
      let hs := content_hash_from_bytes (bytes_of source_label) in
      _ ← best_effort (lg_on_rel (on_mesh (blob_put hs (bytes_of source_label))));
      hb ← or_reply bad_400 (lift (content_hash_parse evil_hb));
      answer bad_400 (lg_on_rel (propose_with_hashes (le_now env) id hs hb (council_of council_csv))) release_candidate_json.
Definition legacy_propose_release (path : string) : Legacy :=
  let p := "/release/propose/" in
  let id := segment p path 3 0 in
  let source_label := segment p path 3 1 in
  let council_csv := segment p path 3 2 in
  if String.eqb id "" || String.eqb source_label "" || String.eqb council_csv "" then
    usage (q "{`error`:`usage /release/propose/{id}/{source_label}/{council_csv}`}")
  else
    answer bad_400 (lg_on_rel (propose_release (le_now env) id (bytes_of source_label) (council_of council_csv)))
      release_candidate_json.
Definition legacy_rebuild (path : string) : Legacy :=
  vault ← or_reply bad_400 (lift (node_id_new (segment "/release/rebuild/" path 2 1)));
  answer bad_400 (lg_on_rel (rebuild_release (segment "/release/rebuild/" path 2 0) vault)) release_candidate_json.
Definition legacy_cosign (path : string) : Legacy :=
  answer bad_400 (lg_on_rel (cosign_release (le_now env) governance local (trim_start_matches "/release/cosign/" path)))
    release_candidate_json.
Definition legacy_activate (path : string) : Legacy :=
  answer bad_400 (lg_on_rel (activate_release (le_now env) (le_now' env) governance
    (trim_start_matches "/release/activate/" path))) allowlist_entry_json.

Definition legacy_gate_intent (path : string) : Legacy :=
  let p := "/intent/gate/" in
  let id := segment p path 4 0 in
  let bucket_raw := segment p path 4 1 in
  let destination := segment p path 4 2 in
  let amount_raw := segment p path 4 3 in
  if String.eqb id "" || String.eqb bucket_raw "" || String.eqb destination "" || String.eqb amount_raw "" then
    usage (q "{`error`:`usage /intent/gate/{id}/{bucket}/{destination}/{amount}`}")
  else
    _ ← or_reply bad_400 (lift (validate_destination (cfg_bitcoin_network (lr_config rt)) destination));
    bucket ← or_reply bad_400 (lift (bucket_parse bucket_raw));
    match parse_uint u64_max amount_raw with
    | None => usage (q "{`error`:`amount must be u64 sats`}")
    | Some amount =>
        c ← or_reply internal_500 (lg_on_eco (on_led ledger_constitution));
        intent ← or_reply bad_400 (lift (settlement_intent_new id bucket destination amount (hash c)));
        answer bad_400 (lg_on_gate (gate_execute (le_bucket env) intent)) gate_receipt_json
    end.

Definition legacy_allocate (path : string) : Legacy :=
  match parse_uint u64_max (trim_start_matches "/profit/allocate/" path) with
  | Some amount => answer bad_400 (lg_on_eco (on_led (allocate_profit amount))) profit_allocation_json
  | None => usage (q "{`error`:`usage /profit/allocate/{profit_sats}`}")
  end.
Definition legacy_accrue (path : string) : Legacy :=
  match parse_uint u64_max (trim_start_matches "/economy/accrue/" path) with
  | Some amount => answer bad_400 (lg_on_eco (accrue_miner_rewards local amount)) accrue_receipt_json
  | None => usage (q "{`error`:`usage /economy/accrue/{profit_sats}`}")
  end.
Definition legacy_upsert_miner (path : string) : Legacy :=
  let p := "/economy/miner/upsert/" in
  let id := segment p path 6 0 in
  let destination := segment p path 6 1 in
  let waiting_raw := default "0" (splitn 6 "/"%char (trim_start_matches p path) !! 5%nat) in
  if String.eqb id "" || String.eqb destination "" then
    usage (q "{`error`:`usage /economy/miner/upsert/{id}/{dest}/{uptime}/{streak}/{bond}/{waiting}`}")
  else
    node_id ← or_reply bad_400 (lift (node_id_new id));
    answer bad_400 (lg_on_eco (on_eco (upsert_operator
      {| op_node_id := node_id; payout_destination := destination;
         uptime_bps_30d := default 0 (parse_uint u32_max (segment p path 6 2));
         attestation_streak_days := default 0 (parse_uint u32_max (segment p path 6 3));
         bond_sats := default 0 (parse_uint u64_max (segment p path 6 4));
         waiting := bool_decide (waiting_raw ∈ ["1"; "true"; "TRUE"; "waiting"]) |})))
      (λ _, q "{`status`:`upserted`}").
Definition legacy_propose_payouts (path : string) : Legacy :=
  let p := "/economy/payout/propose/" in
  let prefix := default "miner-pay" (splitn 2 "/"%char (trim_start_matches p path) !! 1%nat) in
  match parse_uint u64_max (segment p path 2 0) with
  | Some amount =>
      answer bad_400 (lg_on_eco (propose_miner_payouts (cfg_miner_payout_cadence (lr_config rt)) (le_now env) amount prefix))
        payout_proposal_json
  | None => usage (q "{`error`:`usage /economy/payout/propose/{amount}/{prefix}`}")
  end.

Definition legacy_get (path : string) : option Legacy :=
  if bool_decide (path ∈ ["/"; "/health"; "/v1/health"]) then Some legacy_health
  else if String.eqb path "/ledger" then
    Some (answer internal_500 (lg_on_eco (on_led get)) ledger_snapshot_json)
  else if String.eqb path "/threshold" then Some legacy_threshold
  else if String.eqb path "/release/allowlist" then Some legacy_allowlist
  else if starts_with "/release/check-hb/" path then Some (legacy_check_hb path)
  else if starts_with "/release/" path then Some (legacy_get_release path)
  else if String.eqb path "/economy/status" then Some legacy_economy_status
  else None.
(** The arms in their order. *)
Definition legacy_post_arms : list (string * (string → Legacy)) :=
  [("/epoch/propose/", legacy_propose_epoch); ("/epoch/vote/", legacy_vote_epoch); ("/sign/", legacy_sign);
   ("/release/propose-tampered/", legacy_propose_tampered); ("/release/propose/", legacy_propose_release);
   ("/release/rebuild/", legacy_rebuild); ("/release/cosign/", legacy_cosign); ("/release/activate/", legacy_activate);
   ("/intent/gate/", legacy_gate_intent); ("/profit/allocate/", legacy_allocate); ("/economy/accrue/", legacy_accrue);
   ("/economy/miner/upsert/", legacy_upsert_miner); ("/economy/payout/propose/", legacy_propose_payouts)].
Definition legacy_post (path : string) : option Legacy :=
  (λ arm, arm.2 path) <$> find (λ arm, starts_with arm.1 path) legacy_post_arms.

Definition dispatch_legacy (method path : string) : Legacy :=
  if 512 <? str_len path then reject URI_TOO_LONG (q "{`error`:`request rejected: path too long`}")
  else if contains_str ".." path then reject BAD_REQUEST (q "{`error`:`request rejected: path traversal`}")
  else
    let arm := if String.eqb method "GET" then legacy_get path
               else if String.eqb method "POST" then legacy_post path else None in
    match arm with
    | Some c => c
    | None => reject not_found_404 (q "{`error`:`not found`}")
    end.
End legacy.

(* ------------------------------------------------------------------ *)
(** ** What no request breaks *)

Section ledgers.
Context `{SH : Sha256}.

(** The ledger stays well formed under the same constitution. *)
Definition led_kept (l l' : LedgerState) : Prop := ledger_inv l → ledger_inv l' ∧ Ledger.constitution l' = Ledger.constitution l.
#[global] Instance led_kept_preorder : PreOrder led_kept.
Proof. split; unfold led_kept; [done|]. intros x y z H1 H2 Hx. destruct (H1 Hx) as [Hy E]. rewrite <- E. by apply H2. Qed.
Definition eco_kept (n n' : EcoNode) : Prop := led_kept (led n) (led n').
#[global] Instance eco_kept_preorder : PreOrder eco_kept.
Proof. unfold eco_kept. split; [intros x; reflexivity|intros x y z H1 H2; by etrans]. Qed.
Definition rel_kept (n n' : RelNode) : Prop := eco_kept (enode n) (enode n').
#[global] Instance rel_kept_preorder : PreOrder rel_kept.
Proof. unfold rel_kept. split; [intros x; reflexivity|intros x y z H1 H2; by etrans]. Qed.

Lemma event_kept n k pl w : along led_kept (append_event n k pl w).
Proof. intros s Hs. pose proof (append_event_inv n k pl w s Hs) as H. destruct (append_event n k pl w s). simpl. tauto. Qed.
Lemma propose_kept node id : along led_kept (propose_epoch_advance node id).
Proof. intros s Hs. pose proof (propose_inv node id s Hs) as H. destruct (propose_epoch_advance node id s). simpl. tauto. Qed.
Lemma vote_kept node id : along led_kept (vote_epoch_advance node id).
Proof. intros s Hs. pose proof (vote_inv node id s Hs) as H. destruct (vote_epoch_advance node id s). simpl. tauto. Qed.
Lemma constitution_kept : along led_kept ledger_constitution.
Proof. intros s. reflexivity. Qed.
Lemma epoch_kept : along led_kept ledger_epoch.
Proof. intros s. reflexivity. Qed.
Lemma on_led_kept {A} (c : dcmd LedgerState A) : along led_kept c → along eco_kept (on_led c).
Proof. intros Hc. apply (along_zoom _ led_kept); [auto|]. by intros s t Ht. Qed.
Lemma on_eco_kept {A} (c : dcmd EconomyState A) : along eco_kept (on_eco c).
Proof. apply (along_zoom _ (λ _ _, True)); [done|]. by intros s t _ Hs. Qed.
Lemma on_mesh_kept {A} (c : dcmd ReleaseMesh A) : along rel_kept (on_mesh c).
Proof. apply (along_zoom _ (λ _ _, True)); [done|]. by intros s t _ Hs. Qed.
Lemma on_enode_kept {A} (c : dcmd EcoNode A) : along eco_kept c → along rel_kept (on_enode c).
Proof. intros Hc. apply (along_zoom _ eco_kept); [auto|]. by intros s t Ht. Qed.
End ledgers.
#[export] Hint Resolve event_kept propose_kept vote_kept constitution_kept epoch_kept on_led_kept on_eco_kept on_mesh_kept
  on_enode_kept : along.

Section use_cases.
Context `{SH : Sha256}.
Lemma allocate_kept p : along led_kept (allocate_profit p).
Proof. intros s. reflexivity. Qed.
Lemma accrue_kept w p : along eco_kept (accrue_miner_rewards w p).
Proof. unfold accrue_miner_rewards. go_along. Qed.
Lemma gov_work_kept w cfg job parts ctx : along eco_kept (accrue_governance_work w cfg job parts ctx).
Proof. unfold accrue_governance_work. go_along. Qed.
Lemma payouts_kept cad now a p : along eco_kept (propose_miner_payouts cad now a p).
Proof. unfold propose_miner_payouts. go_along. Qed.
Lemma status_kept gr cad tier mode tee : along eco_kept (get_economy_status gr cad tier mode tee).
Proof. unfold get_economy_status. go_along. Qed.
Lemma reward_kept gov job parts ctx : along rel_kept (governance_reward gov job parts ctx).
Proof. pose proof gov_work_kept. unfold governance_reward. go_along. Qed.
End use_cases.
#[export] Hint Resolve allocate_kept accrue_kept gov_work_kept payouts_kept status_kept reward_kept : along.

Section releases.
Context `{SH : Sha256}.
(** A node of the release calls: vetted releases over a well-formed ledger. *)
Definition rel_ok (p : ReleasePolicy) (chash : string) (n : RelNode) : Prop := rel_inv p chash n ∧ ledger_inv (led (enode n)).
Definition rel_steady (n n' : RelNode) : Prop := ∀ p chash, rel_ok p chash n → rel_ok p chash n'.
#[global] Instance rel_steady_preorder : PreOrder rel_steady.
Proof. split; [by intros n p ch|]. intros x y z H1 H2 p ch H. by apply H2, H1. Qed.

Lemma rel_constitution_kept : along rel_kept rel_constitution.
Proof. unfold rel_constitution. go_along. Qed.
Lemma candidate_kept now id hs hb sigs : along rel_kept (propose_candidate now id hs hb sigs).
Proof. unfold propose_candidate. pose proof rel_constitution_kept. go_along. Qed.
Lemma rrun_kept c n : rel_kept n (rrun c n).
Proof.
  pose proof rel_constitution_kept as Hc. pose proof candidate_kept as Hp. revert n.
  destruct c as [now id source sigs|now id hs hb sigs|id vault|now gov node id|now now' gov id|h b]; simpl.
  - change (along rel_kept (propose_release now id source sigs)). unfold propose_release. go_along.
  - change (along rel_kept (propose_with_hashes now id hs hb sigs)). unfold propose_with_hashes. go_along.
  - change (along rel_kept (rebuild_release id vault)). unfold rebuild_release. go_along.
  - change (along rel_kept (cosign_release now gov node id)). unfold cosign_release. go_along.
  - change (along rel_kept (activate_release now now' gov id)). unfold activate_release. go_along.
  - change (along rel_kept (on_mesh (blob_put h b))). go_along.
Qed.
Lemma rrun_steady c n : rel_steady n (rrun c n).
Proof. intros p ch [Hr Hl]. split; [by apply rrun_inv|]. by apply (rrun_kept c n). Qed.
(** An economy call under the releases. *)
Lemma eco_steady m (e e' : EcoNode) : eco_kept e e' → rel_steady {| mesh := m; enode := e |} {| mesh := m; enode := e' |}.
Proof. intros He p ch [(Hm & Hc & Hp) Hl]. destruct (He Hl) as [Hl' Hc']. split; [|done]. split; [done|]. simpl in *. by rewrite Hc'. Qed.
End releases.

Section surface.
Context `{JS : SerdeJson, SH : Sha256, AL : AddressLib}.
Context {Env St : Type} `{BP : !BucketPort Env St, BS : !BucketPortSpec Env St}.
Notation Node := (LegacyNode (St:=St)).
Notation request := (LegacyEnv (Env:=Env) * string * string)%type.

Definition releases_of (s : Node) : RelNode := {| mesh := lg_mesh s; enode := node (lg_gate s) |}.
(** Releases and ledger stay in order; what was burned stays burned. *)
Definition orderly (s s' : Node) : Prop :=
  rel_steady (releases_of s) (releases_of s') ∧
  ∀ i, bp_burned (buckets (lg_gate s)) i → bp_burned (buckets (lg_gate s')) i.
#[global] Instance orderly_preorder : PreOrder orderly.
Proof. split; [intros s; by split|]. intros x y z [R1 B1] [R2 B2]. split; [by etrans|auto]. Qed.

Lemma rel_orderly {B} (c : dcmd RelNode B) : along rel_steady c → along orderly (lg_on_rel c).
Proof. intros Hc. apply (along_zoom _ rel_steady); [intros s; exact (Hc _)|]. intros s [m e] Ht. by split. Qed.
Lemma eco_orderly {B} (c : dcmd EcoNode B) : along eco_kept c → along orderly (lg_on_eco c).
Proof.
  intros Hc s. unfold lg_on_eco, lg_on_gate, zoom. specialize (Hc (node (lg_gate s))).
  destruct (c (node (lg_gate s))) as [e r]. split; [by apply eco_steady|done].
Qed.
Lemma threshold_orderly {B} (c : dcmd TState B) : along orderly (lg_on_threshold c).
Proof. apply (along_zoom _ (λ _ _, True)); [done|]. intros s t _. by split. Qed.
Lemma execute_node env i : along (λ g g' : GateNode St, node g' = node g) (gate_execute env i).
Proof.
  intros g. unfold gate_execute, gate_run, on_buckets. unfold_monad. repeat case_match; simplify_eq/=; done.
Qed.
Lemma execute_orderly env i : along orderly (lg_on_gate (gate_execute env i)).
Proof.
  intros s. unfold lg_on_gate, zoom. pose proof (execute_node env i (lg_gate s)) as Hn.
  assert (∀ j, bp_burned (buckets (lg_gate s)) j → bp_burned (buckets (gate_execute env i (lg_gate s)).1) j) as Hb
    by (intros j; apply (grun_keeps (GExecute env i))).
  destruct (gate_execute env i (lg_gate s)) as [g r]. simpl in *. split; [|exact Hb].
  unfold releases_of. simpl. rewrite Hn. reflexivity.
Qed.
Lemma rrun_along c : along rel_steady (λ n, (rrun c n, Ok (E:=DomainError) tt)).
Proof. intros n. apply rrun_steady. Qed.
Lemma answer_along (R : Node → Node → Prop) `{!PreOrder R} {B} code (c : dcmd Node B) f : along R c → along R (answer code c f).
Proof. intros Hc. unfold answer. go_along. Qed.
Lemma usage_along (R : Node → Node → Prop) `{!PreOrder R} text : along R (usage text).
Proof. apply along_fail; apply _. Qed.
End surface.
#[export] Hint Resolve rel_orderly eco_orderly threshold_orderly execute_orderly answer_along usage_along : along.
#[export] Hint Extern 2 (along rel_steady (on_mesh (blob_put ?h ?b))) => exact (rrun_steady (RBlob h b)) : along.
#[export] Hint Extern 2 (along rel_steady (propose_with_hashes ?n ?i ?s ?b ?c)) => exact (rrun_steady (RProposeHashes n i s b c)) : along.
#[export] Hint Extern 2 (along rel_steady (propose_release ?n ?i ?s ?c)) => exact (rrun_steady (RPropose n i s c)) : along.
#[export] Hint Extern 2 (along rel_steady (rebuild_release ?i ?v)) => exact (rrun_steady (RRebuild i v)) : along.
#[export] Hint Extern 2 (along rel_steady (cosign_release ?n ?g ?l ?i)) => exact (rrun_steady (RCosign n g l i)) : along.
#[export] Hint Extern 2 (along rel_steady (activate_release ?n ?m ?g ?i)) => exact (rrun_steady (RActivate n m g i)) : along.

Section theorems.
Context `{JS : SerdeJson, SH : Sha256, AL : AddressLib}.
Context {Env St : Type} `{BP : !BucketPort Env St, BS : !BucketPortSpec Env St}.
Notation Node := (LegacyNode (St:=St)).
Context (rt : LegacyRuntime).

Lemma post_orderly env path c : legacy_post rt env path = Some c → along (S:=Node) orderly c.
Proof.
  unfold legacy_post. intros ([p f] & (Hin & _)%find_some & ->)%fmap_Some. simpl in *.
  repeat (destruct Hin as [[= <- <-]|Hin];
    [unfold legacy_propose_epoch, legacy_vote_epoch, legacy_sign, lab_sign, legacy_propose_tampered, legacy_propose_release,
       legacy_rebuild, legacy_cosign, legacy_activate, legacy_gate_intent, legacy_allocate, legacy_accrue,
       legacy_upsert_miner, legacy_propose_payouts; cbv zeta; go_along|]). done.
Qed.

(** Reads. *)
Lemma zoom_pure {E S T A} (prj : S → T) (upd : T → S → S) (c : cmd E T A) :
  (∀ s, upd (prj s) s = s) → along eq c → along eq (zoom prj upd c).
Proof. intros Hu Hc s. unfold zoom. specialize (Hc (prj s)). destruct (c (prj s)) as [t r]. simpl in *. by rewrite <- Hc, Hu. Qed.
Lemma lg_rel_pure {B} (c : dcmd RelNode B) : along eq c → along eq (lg_on_rel (St:=St) c).
Proof. apply zoom_pure. by intros [[] ? ?]. Qed.
Lemma lg_eco_pure {B} (c : dcmd EcoNode B) : along eq c → along eq (lg_on_eco (St:=St) c).
Proof. intros Hc. unfold lg_on_eco, lg_on_gate. apply zoom_pure; [by intros []|]. by apply zoom_pure; [intros []|]. Qed.
Lemma on_led_pure {B} (c : dcmd LedgerState B) : along eq c → along eq (on_led c).
Proof. apply zoom_pure. by intros []. Qed.
Lemma on_eco_pure {B} (c : dcmd EconomyState B) : along eq c → along eq (on_eco c).
Proof. apply zoom_pure. by intros []. Qed.
Lemma on_mesh_pure {B} (c : dcmd ReleaseMesh B) : along eq c → along eq (on_mesh c).
Proof. apply zoom_pure. by intros []. Qed.
Lemma constitution_pure : along eq ledger_constitution.
Proof. by intros s. Qed.

Lemma get_pure (env : LegacyEnv (Env:=Env)) path c : legacy_get rt env path = Some c → along (S:=Node) eq c.
Proof.
  pose proof (@lg_rel_pure). pose proof (@lg_eco_pure). pose proof (@on_led_pure). pose proof (@on_eco_pure).
  pose proof (@on_mesh_pure). pose proof constitution_pure.
  unfold legacy_get. intros H'. repeat case_match; simplify_eq; try done;
    unfold legacy_health, legacy_threshold, legacy_allowlist, legacy_check_hb, legacy_get_release, legacy_economy_status;
    unfold get_economy_status, require_hb, is_allowlisted_hb, get_allowlist, get_candidate; cbv zeta; go_along.
Qed.

Definition legacy_run (reqs : list (LegacyEnv (Env:=Env) * string * string)) (s : Node) : Node :=
  foldl (λ s r, (dispatch_legacy rt r.1.1 r.1.2 r.2 s).1) s reqs.

(** C11 The old routes cannot be used to damage the node. A GET, and any request that is not a GET or a
    POST, changes nothing. Over any sequence of requests with any paths, clock readings and
    outcomes, from a node whose releases are vetted and whose ledger is well formed, the
    allowlist stays vetted against the same constitution and policy, the ledger stays a
    well-formed chain of active writers, and no intent that was burned becomes payable again. *)
Theorem legacy_surface_safe :
  (∀ (env : LegacyEnv (Env:=Env)) method path (s : Node), method ≠ "POST" → (dispatch_legacy rt env method path s).1 = s) ∧
  ∀ reqs p chash (s : Node), rel_inv p chash (releases_of s) → ledger_inv (led (node (lg_gate s))) →
    let s' := legacy_run reqs s in
    rel_inv p chash (releases_of s') ∧ ledger_inv (led (node (lg_gate s'))) ∧
    ∀ i, bp_burned (buckets (lg_gate s)) i → bp_burned (buckets (lg_gate s')) i.
Proof.
  split.
  - intros env method path s Hm. unfold dispatch_legacy. do 2 (case_match; [done|]).
    destruct (String.eqb_spec method "GET") as [_|_].
    + destruct (legacy_get rt env path) as [c|] eqn:Hg; [|done]. symmetry. by apply (get_pure _ _ _ Hg).
    + by rewrite (proj2 (String.eqb_neq _ _) Hm).
  - intros reqs p ch s Hr Hl.
    assert (orderly s (legacy_run reqs s)) as [H1 H2]; [|destruct (H1 p ch) as [? ?]; by split_and?].
    unfold legacy_run. clear p ch Hr Hl. revert s. induction reqs as [|[[env method] path] reqs IH]; intros s; [reflexivity|].
    simpl. etrans; [|apply IH]. unfold dispatch_legacy. do 2 (case_match; [reflexivity|]).
    match goal with |- context [match ?arm with Some _ => _ | None => _ end] => destruct arm as [c|] eqn:Ha end; [|reflexivity].
    destruct (String.eqb method "GET").
    + rewrite <- (get_pure _ _ _ Ha s). reflexivity.
    + destruct (String.eqb method "POST"); [|done]. by apply (post_orderly _ _ _ Ha).
Qed.
End theorems.
