(* ===== verification/SignerIpc.v ===== *)
(** * The signing daemon's IPC protocol ([vault-signer]: [ipc.rs], [SignerError] of [signer.rs])

    Messages of a Unix socket: a big-endian [u32] length and a JSON body. A stream
    is the bytes its peer has sent, and what has been written to it. *)
From S2P Require Import Prelude RustStr Errors HybridEnvelope.
Local Open Scope N_scope.

Inductive SignerError :=
| InsufficientShares (have need : N)
| InvalidKeyPackage (msg : string)
| RoundError (msg : string)
| SessionNotFound
| SessionAlreadyCompleted
| DuplicateCommitment
| SignatureVerificationFailed
| Internal (msg : string).
#[export] Instance SignerError_eq_dec : EqDecision SignerError.
Proof. solve_decision. Defined.

(** [impl Display for SignerError]. *)
Definition fmt_signer_error (e : SignerError) : string :=
  match e with
  | InsufficientShares have need => format "insufficient shares: have {}, need {}" [show have; show need]
  | InvalidKeyPackage msg => format "invalid key package: {}" [msg]
  | RoundError msg => format "round error: {}" [msg]
  | SessionNotFound => "session not found"
  | SessionAlreadyCompleted => "session already completed"
  | DuplicateCommitment => "duplicate commitment"
  | SignatureVerificationFailed => "signature verification failed"
  | Internal msg => format "internal: {}" [msg]
  end.

(** Keep every [format!] text folded under [simpl]. *)
Definition internal (t : string) (args : list string) : SignerError := Internal (format t args).
#[global] Opaque internal.
#[global] Strategy opaque [internal].

Definition MAX_MESSAGE_SIZE : N := 1048576.

(** [Json] is a [serde_json::Value]. *)
Inductive SignerRequest (Json : Type) :=
| CreateSession (message : string) (participants : list bytes) (min_signers : N)
| InstallKeyPackages (pubkey_package : Json)
| SubmitCommitments (session_id : string) (commitments : Json)
| SubmitSignatureShare (session_id : string) (share : Json)
| GetSignature (session_id : string)
| SessionStatus (session_id : string)
| Health.
Arguments CreateSession {Json} _ _ _.
Arguments InstallKeyPackages {Json} _.
Arguments SubmitCommitments {Json} _ _.
Arguments SubmitSignatureShare {Json} _ _.
Arguments GetSignature {Json} _.
Arguments SessionStatus {Json} _.
Arguments Health {Json}.

Inductive SignerResponse :=
| SessionCreated (session_id : string)
| CommitmentsAccepted
| KeyPackagesInstalled
| SignatureShareAccepted
| SignatureReady (signature : bytes)
| SessionStatusIs (state : string) (commitments_count shares_count min_signers : N)
| HealthIs (status : string) (active_sessions : N)
| ErrorResponse (message : string).
#[export] Instance SignerResponse_eq_dec : EqDecision SignerResponse.
Proof. solve_decision. Defined.

(** [serde_json] of the two message types; errors are their [Display] texts. *)
Class IpcJson := {
  Json : Type;
  request_to_vec : SignerRequest Json → result string bytes;
  request_from_slice : bytes → result string (SignerRequest Json);
  response_to_vec : SignerResponse → result string bytes;
  response_from_slice : bytes → result string SignerResponse;
}.
(** No JSON text is empty. *)
Class IpcJsonSpec `{!IpcJson} : Prop := {
  request_text r b : request_to_vec r = Ok b → b ≠ [];
  request_round r b : request_to_vec r = Ok b → request_from_slice b = Ok r;
  response_text r b : response_to_vec r = Ok b → b ≠ [];
  response_round r b : response_to_vec r = Ok b → response_from_slice b = Ok r;
}.

(** [read_exact] and [write_all] of a stream. *)
Record Stream := mk_stream {
  st_in : bytes;                      (** what the peer has sent, up to the end of file *)
  st_out : bytes;                     (** what has been written *)
  st_broken : option string;          (** why writes fail, if they do *)
}.
Notation io := (cmd SignerError Stream).
Definition read_exact (what : string) (n : N) : io bytes := λ s,
  if n <=? len (st_in s) then
    (mk_stream (drop (N.to_nat n) (st_in s)) (st_out s) (st_broken s), Ok (take (N.to_nat n) (st_in s)))
  else (mk_stream [] (st_out s) (st_broken s), Err (internal what ["failed to fill whole buffer"])).
Definition write_all (what : string) (b : bytes) : io unit := λ s,
  match st_broken s with
  | Some e => (s, Err (internal what [e]))
  | None => (mk_stream (st_in s) (st_out s ++ b) None, Ok tt)
  end.

Section ipc.
Context `{IJ : IpcJson}.

Definition frame (too_large : SignerError) (json : bytes) : result SignerError bytes :=
  if MAX_MESSAGE_SIZE <? len json then Err too_large else Ok (be32 (len json mod 4294967296) ++ json).
Definition encode_message (msg : SignerResponse) : result SignerError bytes :=
  json ← map_err (λ e, internal "serialization: {}" [e]) (response_to_vec msg);
  frame (internal "message too large" []) json.
Definition encode_request (msg : SignerRequest Json) : result SignerError bytes :=
  json ← map_err (λ e, internal "serialization: {}" [e]) (request_to_vec msg);
  frame (internal "request too large" []) json.
Definition decode_message (data : bytes) : result SignerError (SignerRequest Json) :=
  if len data <? 4 then Err (internal "message too short" [])
  else
    let n := from_be32 (take 4 data) in
    if (MAX_MESSAGE_SIZE <? n) || (len data <? 4 + n) then Err (internal "invalid message length" [])
    else map_err (λ e, internal "deserialization: {}" [e]) (request_from_slice (take (N.to_nat n) (drop 4 data))).

(** The handler runs on a state [T]; a panic of it ends the process. *)
Inductive Fault := Failed (e : SignerError) | Panicked (why : string).
Definition handling {T} (c : io T) {U} : cmd Fault (Stream * U) T :=
  λ s, let '(t, r) := c s.1 in ((t, s.2), map_err Failed r).

Section server.
Context {U : Type} (handler : SignerRequest Json → cmd string U SignerResponse).

Definition invalid_length : cmd Fault (Stream * U) unit :=
  response ← lift (map_err Failed (encode_message (ErrorResponse "invalid message length")));
  _ ← ignore (handling (write_all "{}" response));
  fail (Failed (internal "invalid message length" [])).
Definition run_handler (request : SignerRequest Json) : cmd Fault (Stream * U) SignerResponse :=
  λ s, let '(u, r) := handler request s.2 in ((s.1, u), map_err Panicked r).
Definition handle_connection : cmd Fault (Stream * U) unit :=
  len_buf ← handling (read_exact "read length: {}" 4);
  let msg_len := from_be32 len_buf in
  if (MAX_MESSAGE_SIZE <? msg_len) || (msg_len =? 0) then invalid_length
  else
    body ← handling (read_exact "read body: {}" msg_len);
    request ← lift (map_err (λ e, Failed (internal "deserialize: {}" [e])) (request_from_slice body));
    response ← run_handler request;
    encoded ← lift (map_err Failed (encode_message response));
    handling (write_all "write response: {}" encoded).

(** The accept loop: an error of a connection is printed, a panic stops it. What
    each connection leaves written, and whether the daemon still runs. *)
Fixpoint serve_blocking (u : U) (conns : list Stream) : U * list Stream * bool :=
  match conns with
  | [] => (u, [], true)
  | s :: rest =>
      match handle_connection (s, u) with
      | (s', u', Err (Panicked _)) => (u', [s'], false)
      | (s', u', _) => let '(v, out, up) := serve_blocking u' rest in (v, s' :: out, up)
      end
  end.
End server.

(** The client half: what is sent, and the reply read from [s]. *)
Definition read_response : io SignerResponse :=
  len_buf ← read_exact "read response length: {}" 4;
  let msg_len := from_be32 len_buf in
  if (MAX_MESSAGE_SIZE <? msg_len) || (msg_len =? 0) then fail (internal "invalid response length" [])
  else
    body ← read_exact "read response body: {}" msg_len;
    lift (map_err (λ e, internal "deserialize response: {}" [e]) (response_from_slice body)).
(** [peer] is the other end: from what is sent and its state, its new state and what it writes back. *)
Definition converse {U} (peer : bytes → U → U * bytes) (encoded : bytes) : cmd SignerError U SignerResponse :=
  λ u, let '(v, reply) := peer encoded u in (v, (read_response (mk_stream reply [] None)).2).
Definition send_request {U} (peer : bytes → U → U * bytes) (connected : option string)
    (request : SignerRequest Json) : cmd SignerError U SignerResponse :=
  _ ← match connected with None => mret tt | Some e => fail (internal "connect: {}" [e]) end;
  encoded ← lift (encode_request request);
  converse peer encoded.

(* ------------------------------------------------------------------ *)
(** ** Framing *)

Lemma frame_ok e json b : frame e json = Ok b ↔ len json ≤ MAX_MESSAGE_SIZE ∧ b = be32 (len json) ++ json.
Proof.
  unfold frame, MAX_MESSAGE_SIZE. destruct (_ <? _) eqn:H.
  - split; [done|]. intros [? _]. nlia.
  - rewrite N.mod_small by nlia. split; [intros [= <-]; split; [nlia|done]|]. by intros [_ ->].
Qed.

Lemma read_exact_app what b rest out br :
  read_exact what (len b) (mk_stream (b ++ rest) out br) = (mk_stream rest out br, Ok b).
Proof.
  unfold read_exact. cbn [st_in st_out st_broken]. rewrite len_app.
  destruct (_ <=? _) eqn:H; [|nlia]. unfold len. rewrite Nat2N.id, take_app_length, drop_app_length. done.
Qed.

Lemma read_be32 what n rest out br : n < 4294967296 →
  read_exact what 4 (mk_stream (be32 n ++ rest) out br) = (mk_stream rest out br, Ok (be32 n)).
Proof. intros. by apply (read_exact_app what (be32 n)). Qed.

Lemma body_len_ok {A} (b : list A) : b ≠ [] → len b ≤ MAX_MESSAGE_SIZE → (MAX_MESSAGE_SIZE <? len b) || (len b =? 0) = false.
Proof. intros Hb Hl. destruct b; [done|]. rewrite len_cons in *. unfold MAX_MESSAGE_SIZE in *. nlia. Qed.

(** What the client sends is one read of the request by the server. *)
Lemma encode_request_ok r b : encode_request r = Ok b ↔
  ∃ json, request_to_vec r = Ok json ∧ len json ≤ MAX_MESSAGE_SIZE ∧ b = be32 (len json) ++ json.
Proof. unfold encode_request. rewrite bind_ok. setoid_rewrite frame_ok. destruct (request_to_vec r); naive_solver. Qed.
Lemma encode_message_ok r b : encode_message r = Ok b ↔
  ∃ json, response_to_vec r = Ok json ∧ len json ≤ MAX_MESSAGE_SIZE ∧ b = be32 (len json) ++ json.
Proof. unfold encode_message. rewrite bind_ok. setoid_rewrite frame_ok. destruct (response_to_vec r); naive_solver. Qed.

Lemma request_decodes `{!IpcJsonSpec} r b junk : encode_request r = Ok b → decode_message (b ++ junk) = Ok r.
Proof.
  rewrite encode_request_ok. intros (json & Hj & Hl & ->). unfold decode_message.
  rewrite <- !app_assoc, !len_app. change (len (be32 (len json))) with 4.
  change (take 4 (be32 (len json) ++ json ++ junk)) with (be32 (len json)).
  change (drop 4 (be32 (len json) ++ json ++ junk)) with (json ++ junk).
  rewrite from_be32_be32 by (unfold MAX_MESSAGE_SIZE in *; lia).
  destruct (_ <? 4) eqn:H1; [nlia|]. destruct (_ || _) eqn:H2; [nlia|].
  unfold len. rewrite Nat2N.id, take_app_length. by rewrite (request_round r json Hj).
Qed.

Lemma read_response_ok `{!IpcJsonSpec} r b out br : encode_message r = Ok b →
  (read_response (mk_stream b out br)).2 = Ok r.
Proof.
  rewrite encode_message_ok. intros (json & Hj & Hl & ->).
  unfold read_response, mbind, cmd_bind at 1. rewrite read_be32 by (unfold MAX_MESSAGE_SIZE in *; lia).
  rewrite from_be32_be32 by (unfold MAX_MESSAGE_SIZE in *; lia).
  rewrite body_len_ok by eauto using response_text.
  unfold cmd_bind. rewrite <- (app_nil_r json) at 2. rewrite read_exact_app. unfold lift. cbn [snd].
  by rewrite (response_round r json Hj).
Qed.

(** The server's side of one request. *)
Lemma handle_connection_ok {U} `{!IpcJsonSpec} (handler : SignerRequest Json → cmd string U SignerResponse)
    r b rest u v resp eb :
  encode_request r = Ok b → handler r u = (v, Ok resp) → encode_message resp = Ok eb →
  handle_connection handler (mk_stream (b ++ rest) [] None, u) = ((mk_stream rest eb None, v), Ok tt).
Proof.
  rewrite encode_request_ok. intros (json & Hj & Hl & ->) Hh He.
  rewrite <- app_assoc. unfold handle_connection, mbind, cmd_bind at 1, handling at 1. cbn [fst snd].
  rewrite read_be32 by (unfold MAX_MESSAGE_SIZE in *; lia). cbn [map_err].
  rewrite from_be32_be32 by (unfold MAX_MESSAGE_SIZE in *; lia).
  rewrite body_len_ok by eauto using request_text.
  unfold cmd_bind at 1, handling at 1. cbn [fst snd]. rewrite read_exact_app. cbn [map_err].
  unfold cmd_bind at 1, lift at 1. rewrite (request_round r json Hj). cbn [map_err].
  unfold cmd_bind at 1, run_handler. cbn [fst snd]. rewrite Hh. cbn [map_err].
  unfold cmd_bind, lift. rewrite He. done.
Qed.
End ipc.

(** The server as the client's peer: one connection of the accept loop. *)
Definition served `{IJ : IpcJson} {U} (handler : SignerRequest Json → cmd string U SignerResponse)
    (sent : bytes) (u : U) : U * bytes :=
  let s := (handle_connection handler (mk_stream sent [] None, u)).1 in (s.2, st_out s.1).

(** C20 (refinement). One exchange over the socket is the handler applied to the
    request, with the JSON and the framing in between invisible, whenever both
    messages fit a frame: the client gets the handler's response and the daemon's
    state moves by the handler alone. No message larger than [MAX_MESSAGE_SIZE] is
    ever put in a frame. *)
Theorem ipc_exchange `{IpcJsonSpec} {U} (handler : SignerRequest Json → cmd string U SignerResponse) r u v resp b eb :
  encode_request r = Ok b → handler r u = (v, Ok resp) → encode_message resp = Ok eb →
  send_request (served handler) None r u = (v, Ok resp) ∧
  decode_message b = Ok r ∧ len b ≤ 4 + MAX_MESSAGE_SIZE ∧ len eb ≤ 4 + MAX_MESSAGE_SIZE.
Proof.
  intros Hb Hh He.
  pose proof (handle_connection_ok handler r b [] u v resp eb Hb Hh He) as Hc. rewrite app_nil_r in Hc.
  pose proof (request_decodes r b [] Hb) as Hd. rewrite app_nil_r in Hd.
  split; [|split; [done|]].
  - unfold send_request, mbind, cmd_bind, mret, cmd_ret, lift. rewrite Hb. unfold converse, served. rewrite Hc.
    cbn [fst snd st_out]. by rewrite (read_response_ok resp).
  - apply encode_request_ok in Hb as (j & _ & ? & ->). apply encode_message_ok in He as (j' & _ & ? & ->).
    rewrite !len_app. change (len (be32 (len j))) with 4. change (len (be32 (len j'))) with 4. lia.
Qed.
