(* ===== verification/SignerDaemon.v ===== *)
(** * The signing daemon ([vault-signer]: [session.rs], [signer.rs], [main.rs])

    Signing sessions, their manager, the key store and the request handler. The
    FROST calls are those of the source; [frost-secp256k1] is external. *)
From S2P Require Import Prelude RustStr Errors Frost FrostSign SignerIpc.
Local Open Scope N_scope.

(** What the daemon calls of [frost-secp256k1] beyond the class, and the JSON of its types. *)
Class SignerFrost `{!Frost, !FrostSign, !IpcJson} := {
  frost_commit : KeyPackage → Rng → SigningNonces * SigningCommitments;
  frost_round2_sign : KeyPackage → SigningNonces → gmap Identifier SigningCommitments → bytes → result string SignatureShare;
  frost_aggregate : gmap Identifier SigningCommitments → gmap Identifier SignatureShare → PublicKeyPackage → bytes →
    result string Signature;
  group_verify : PublicKeyPackage → bytes → Signature → bool;
  kp_identifier : KeyPackage → Identifier;
  json_pubkey : Json → result string PublicKeyPackage;
  (** A [BTreeMap<u16, SigningCommitments>], by increasing key. *)
  json_commitments : Json → result string (list (N * SigningCommitments));
  json_share : Json → result string (N * SignatureShare);
  pubkey_text : PublicKeyPackage → result string string;
  pubkey_from_text : string → result string PublicKeyPackage;
  signature_json : Signature → result string bytes;
}.

Inductive SessionState := AwaitingCommitments | AwaitingSignatureShares | Complete | FailedSession (why : string).
#[export] Instance SessionState_eq_dec : EqDecision SessionState.
Proof. solve_decision. Defined.

(** What a call reads from outside: two clock readings in nanoseconds and 64 random bits. *)
Record Now := mk_now { now_ns : N; id_ns : N; id_random : N }.
Definition session_id_new (e : Now) : string := format "session-{}-{}" [show_hex (id_ns e); show_hex (id_random e)].

Section signer.
Context `{FR : !Frost, FS : !FrostSign, IJ : !IpcJson, SF : !SignerFrost}.

(* ------------------------------------------------------------------ *)
(** ** [SigningSession] *)

Record SigningSession := mk_session {
  ss_id : string;
  ss_message : bytes;
  ss_state : SessionState;
  ss_commitments : gmap Identifier SigningCommitments;
  ss_shares : gmap Identifier SignatureShare;
  ss_expected_participants : list Identifier;
  ss_min_signers : N;
  ss_created_at : N;
}.
Definition session_new (e : Now) (message : bytes) (expected : list Identifier) (min_signers : N) : SigningSession :=
  mk_session (session_id_new e) message AwaitingCommitments ∅ ∅ expected min_signers (now_ns e).
Definition with_commitments (c : gmap Identifier SigningCommitments) (st : SessionState) (s : SigningSession) : SigningSession :=
  mk_session (ss_id s) (ss_message s) st c (ss_shares s) (ss_expected_participants s) (ss_min_signers s) (ss_created_at s).
Definition with_shares (sh : gmap Identifier SignatureShare) (st : SessionState) (s : SigningSession) : SigningSession :=
  mk_session (ss_id s) (ss_message s) st (ss_commitments s) sh (ss_expected_participants s) (ss_min_signers s) (ss_created_at s).
Definition count_of {A} (m : gmap Identifier A) : N := N.of_nat (size m).

Definition add_commitments (identifier : Identifier) (commitments : SigningCommitments) (s : SigningSession) :
    result SignerError SigningSession :=
  if negb (bool_decide (ss_state s = AwaitingCommitments)) then Err SessionAlreadyCompleted
  else if bool_decide (is_Some (ss_commitments s !! identifier)) then Err DuplicateCommitment
  else
    let m := <[identifier := commitments]> (ss_commitments s) in
    Ok (with_commitments m (if ss_min_signers s <=? count_of m then AwaitingSignatureShares else ss_state s) s).
Definition add_signature_share (identifier : Identifier) (share : SignatureShare) (s : SigningSession) :
    result SignerError SigningSession :=
  if bool_decide (ss_state s = Complete) then Err SessionAlreadyCompleted
  else if bool_decide (ss_state s = AwaitingCommitments) then Err (RoundError "still awaiting commitments")
  else
    let m := <[identifier := share]> (ss_shares s) in
    Ok (with_shares m (if ss_min_signers s <=? count_of m then Complete else ss_state s) s).

(* ------------------------------------------------------------------ *)
(** ** [SigningSessionManager]. The map's keys are the session identifiers. *)

Record SigningSessionManager := mk_manager { sm_sessions : gmap string SigningSession; sm_max_sessions : N }.
Definition manager_new (max_sessions : N) : SigningSessionManager := mk_manager ∅ max_sessions.
Definition active_count (m : SigningSessionManager) : N := N.of_nat (size (sm_sessions m)).
Definition put_session (id : string) (s : SigningSession) (m : SigningSessionManager) : SigningSessionManager :=
  mk_manager (<[id := s]> (sm_sessions m)) (sm_max_sessions m).
Definition create_session (e : Now) (message : bytes) (expected : list Identifier) (min_signers : N) :
    cmd SignerError SigningSessionManager string := λ m,
  if sm_max_sessions m <=? active_count m then (m, Err (Internal "max concurrent sessions reached"))
  else
    let session := session_new e message expected min_signers in
    (put_session (ss_id session) session m, Ok (ss_id session)).
Definition get_session (id : string) (m : SigningSessionManager) : result SignerError SigningSession :=
  ok_or (sm_sessions m !! id) SessionNotFound.
Definition remove_session (id : string) (m : SigningSessionManager) : SigningSessionManager * option SigningSession :=
  (mk_manager (delete id (sm_sessions m)) (sm_max_sessions m), sm_sessions m !! id).
(** [u128] arithmetic; [now] in nanoseconds. *)
Definition cleanup_expired (now max_age_secs : N) (m : SigningSessionManager) : SigningSessionManager :=
  mk_manager (filter (λ p, (sat_sub now (ss_created_at p.2) <? max_age_secs * 1000000000) = true) (sm_sessions m))
    (sm_max_sessions m).

(* ------------------------------------------------------------------ *)
(** ** [FrostSigner] *)

Record FrostSigner := mk_signer { fs_key_package : KeyPackage; fs_min_signers : N; fs_total : N; fs_identifier : Identifier }.
Definition signer_new (kp : KeyPackage) (min_signers total : N) : result SignerError FrostSigner :=
  Ok (mk_signer kp min_signers total (kp_identifier kp)).
Definition preprocess (s : FrostSigner) (rng : Rng) : result SignerError (SigningNonces * SigningCommitments) :=
  Ok (frost_commit (fs_key_package s) rng).
Definition signer_sign (s : FrostSigner) (message : bytes) (nonces : SigningNonces)
    (commitments : gmap Identifier SigningCommitments) : result SignerError SignatureShare :=
  map_err (λ e, RoundError (format "round2 sign: {}" [e])) (frost_round2_sign (fs_key_package s) nonces commitments message).
Definition signer_aggregate (commitments : gmap Identifier SigningCommitments) (shares : gmap Identifier SignatureShare)
    (pk : PublicKeyPackage) (message : bytes) : result SignerError Signature :=
  map_err (λ e, RoundError (format "aggregate: {}" [e])) (frost_aggregate commitments shares pk message).
Definition signer_verify (sg : Signature) (pk : PublicKeyPackage) (message : bytes) : result SignerError bool :=
  Ok (group_verify pk message sg).

(* ------------------------------------------------------------------ *)
(** ** [KeyStore] and its file *)

Record KeyStore := mk_key_store { ks_file : option string; ks_pubkey_package : option PublicKeyPackage }.
(** [readable] and [writable] say what the file system answers; [None] is success. *)
Definition load_from_disk (readable : option string) : cmd SignerError KeyStore unit := λ ks,
  match ks_file ks with
  | None => (ks, Ok tt)
  | Some data =>
      match readable with
      | Some e => (ks, Err (Internal (format "read pubkey: {}" [e])))
      | None =>
          match pubkey_from_text data with
          | Err e => (ks, Err (Internal (format "deserialize pubkey: {}" [e])))
          | Ok pk => (mk_key_store (ks_file ks) (Some pk), Ok tt)
          end
      end
  end.
Definition save_to_disk (writable : option string) : cmd SignerError KeyStore unit := λ ks,
  match ks_pubkey_package ks with
  | None => (ks, Ok tt)
  | Some pk =>
      match pubkey_text pk with
      | Err e => (ks, Err (Internal (format "serialize pubkey: {}" [e])))
      | Ok data =>
          match writable with
          | Some e => (ks, Err (Internal (format "write pubkey: {}" [e])))
          | None => (mk_key_store (Some data) (ks_pubkey_package ks), Ok tt)
          end
      end
  end.

(* ------------------------------------------------------------------ *)
(** ** [main] and [handle_request] *)

Record Daemon := mk_daemon { dm_sessions : SigningSessionManager; dm_keys : KeyStore }.
Record Outside := mk_outside { out_now : Now; out_readable : option string; out_writable : option string }.
Definition daemon_start (e : Outside) (file : option string) : Daemon :=
  mk_daemon (manager_new 64) (load_from_disk (out_readable e) (mk_key_store file None)).1.

(** Errors of the handler are panics; every refusal is an [ErrorResponse]. *)
Notation handler := (cmd string Daemon SignerResponse).
Definition reply_err (e : SignerError) : SignerResponse := ErrorResponse (fmt_signer_error e).

(** The identifier of a participant: two big-endian bytes, or one; [b[0]] of no byte panics. *)
Definition participant_id (b : bytes) : option (result string Identifier) :=
  match b with
  | b0 :: b1 :: _ => Some (id_try_from (byte_n b0 * 256 + byte_n b1))
  | [b0] => Some (id_try_from (byte_n b0))
  | [] => None
  end.
(** [collect] stops at the first error; [None] is the panic. *)
Fixpoint participant_ids (l : list bytes) : option (result string (list Identifier)) :=
  match l with
  | [] => Some (Ok [])
  | b :: rest =>
      match participant_id b with
      | None => None
      | Some (Err e) => Some (Err e)
      | Some (Ok i) => (λ r, r ≫= λ ids, Ok (i :: ids)) <$> participant_ids rest
      end
  end.

Definition set_sessions (m : SigningSessionManager) (d : Daemon) : Daemon := mk_daemon m (dm_keys d).
Definition set_keys (k : KeyStore) (d : Daemon) : Daemon := mk_daemon (dm_sessions d) k.

Definition req_install (e : Outside) (pubkey_package : Json) : handler := λ d,
  match json_pubkey pubkey_package with
  | Err m => (d, Ok (ErrorResponse (format "invalid pubkey package: {}" [m])))
  | Ok pk => (set_keys (save_to_disk (out_writable e) (mk_key_store (ks_file (dm_keys d)) (Some pk))).1 d, Ok KeyPackagesInstalled)
  end.

Definition req_create `{!HexCodec} (e : Outside) (message : string) (participants : list bytes) (min_signers : N) : handler := λ d,
  match hex_decode message with
  | Err m => (d, Ok (ErrorResponse (format "invalid hex: {}" [m])))
  | Ok msg_bytes =>
      match participant_ids participants with
      | None => (d, Err "index out of bounds: the len is 0 but the index is 0")
      | Some (Err m) => (d, Ok (ErrorResponse (format "invalid identifier: {}" [m])))
      | Some (Ok identifiers) =>
          match create_session (out_now e) msg_bytes identifiers min_signers (dm_sessions d) with
          | (mgr, Ok id) => (set_sessions mgr d, Ok (SessionCreated id))
          | (mgr, Err x) => (set_sessions mgr d, Ok (reply_err x))
          end
      end
  end.

(** The loop over the parsed commitments: what was added before an error stays. *)
Fixpoint add_all (parsed : list (N * SigningCommitments)) (s : SigningSession) : SigningSession * SignerResponse :=
  match parsed with
  | [] => (s, CommitmentsAccepted)
  | (id_val, comm) :: rest =>
      match id_try_from id_val with
      | Err e => (s, ErrorResponse (format "invalid identifier {}: {}" [show id_val; e]))
      | Ok identifier =>
          match add_commitments identifier comm s with
          | Err e => (s, ErrorResponse (format "add commitment: {}" [fmt_signer_error e]))
          | Ok s' => add_all rest s'
          end
      end
  end.
Definition req_commitments (session_id : string) (commitments : Json) : handler := λ d,
  match get_session session_id (dm_sessions d) with
  | Err e => (d, Ok (reply_err e))
  | Ok s =>
      match json_commitments commitments with
      | Err e => (d, Ok (ErrorResponse (format "invalid commitments format: {}" [e])))
      | Ok [] => (d, Ok (ErrorResponse "no commitments provided"))
      | Ok parsed =>
          let '(s', resp) := add_all parsed s in
          (set_sessions (put_session session_id s' (dm_sessions d)) d, Ok resp)
      end
  end.

Definition req_share (session_id : string) (share : Json) : handler := λ d,
  match get_session session_id (dm_sessions d) with
  | Err e => (d, Ok (reply_err e))
  | Ok s =>
      match json_share share with
      | Err e => (d, Ok (ErrorResponse (format "invalid share format: {}" [e])))
      | Ok (id_val, sh) =>
          match id_try_from id_val with
          | Err e => (d, Ok (ErrorResponse (format "invalid identifier {}: {}" [show id_val; e])))
          | Ok identifier =>
              match add_signature_share identifier sh s with
              | Err e => (d, Ok (ErrorResponse (format "add signature share: {}" [fmt_signer_error e])))
              | Ok s' => (set_sessions (put_session session_id s' (dm_sessions d)) d, Ok SignatureShareAccepted)
              end
          end
      end
  end.

Definition signature_of (d : Daemon) (session_id : string) : SignerResponse :=
  match get_session session_id (dm_sessions d) with
  | Err e => reply_err e
  | Ok s =>
      if negb (bool_decide (ss_state s = Complete)) then ErrorResponse "session not yet complete"
      else
        match ks_pubkey_package (dm_keys d) with
        | None => ErrorResponse "key packages not installed"
        | Some pk =>
            if count_of (ss_commitments s) <? ss_min_signers s then
              ErrorResponse (format "insufficient commitments: have {}, need {}"
                [show (count_of (ss_commitments s)); show (ss_min_signers s)])
            else if count_of (ss_shares s) <? ss_min_signers s then
              ErrorResponse (format "insufficient signature shares: have {}, need {}"
                [show (count_of (ss_shares s)); show (ss_min_signers s)])
            else
              match signer_aggregate (ss_commitments s) (ss_shares s) pk (ss_message s) with
              | Err e => ErrorResponse (format "aggregation failed: {}" [fmt_signer_error e])
              | Ok sg =>
                  match signature_json sg with
                  | Err e => ErrorResponse (format "signature serialization failed: {}" [e])
                  | Ok b => SignatureReady b
                  end
              end
        end
  end.

Definition session_state_str (st : SessionState) : string :=
  match st with
  | AwaitingCommitments => "awaiting_commitments"
  | AwaitingSignatureShares => "awaiting_signature_shares"
  | Complete => "complete"
  | FailedSession _ => "failed"
  end.
Definition status_of (d : Daemon) (session_id : string) : SignerResponse :=
  match get_session session_id (dm_sessions d) with
  | Err e => reply_err e
  | Ok s => SessionStatusIs (session_state_str (ss_state s)) (count_of (ss_commitments s)) (count_of (ss_shares s)) (ss_min_signers s)
  end.

Definition handle_request `{!HexCodec} (e : Outside) (request : SignerRequest Json) : handler :=
  match request with
  | Health => λ d, (d, Ok (HealthIs "ok" (active_count (dm_sessions d))))
  | InstallKeyPackages pk => req_install e pk
  | CreateSession message participants min_signers => req_create e message participants min_signers
  | SubmitCommitments id c => req_commitments id c
  | SubmitSignatureShare id sh => req_share id sh
  | GetSignature id => λ d, (d, Ok (signature_of d id))
  | SessionStatus id => λ d, (d, Ok (status_of d id))
  end.
End signer.

(* ------------------------------------------------------------------ *)
(** ** The session machine *)

Section machine.
Context `{FR : !Frost, FS : !FrostSign, IJ : !IpcJson, SF : !SignerFrost, HC : !HexCodec}.

(** How many commitments, and shares, a session takes. *)
Definition quota (s : SigningSession) : N := N.max (ss_min_signers s) 1.
Definition session_ok (s : SigningSession) : Prop :=
  match ss_state s with
  | AwaitingCommitments => count_of (ss_commitments s) < quota s ∧ count_of (ss_shares s) = 0
  | AwaitingSignatureShares => count_of (ss_commitments s) = quota s ∧ count_of (ss_shares s) < quota s
  | Complete => count_of (ss_commitments s) = quota s ∧ count_of (ss_shares s) = quota s
  | FailedSession _ => False
  end.
Definition stage (st : SessionState) : nat :=
  match st with AwaitingCommitments => 0 | AwaitingSignatureShares => 1 | Complete => 2 | FailedSession _ => 3 end.
(** What never changes: the message, the commitments already made, the shares of a complete session. *)
Record session_le (s t : SigningSession) : Prop := {
  le_id : ss_id t = ss_id s;
  le_message : ss_message t = ss_message s;
  le_expected : ss_expected_participants t = ss_expected_participants s;
  le_min : ss_min_signers t = ss_min_signers s;
  le_stage : (stage (ss_state s) ≤ stage (ss_state t))%nat;
  le_commitments : ss_commitments s ⊆ ss_commitments t;
  le_locked : ss_state s ≠ AwaitingCommitments → ss_commitments t = ss_commitments s;
  le_complete : ss_state s = Complete → t = s;
}.
#[export] Instance session_le_preorder : PreOrder session_le.
Proof.
  split.
  - intros s. by split.
  - intros s t u [] []. split; try congruence; [lia|by etrans| |].
    + intros H. rewrite le_locked1; [by auto|]. intros E. rewrite E in *. destruct (ss_state s); simpl in *; [done|lia..].
    + intros H. assert (t = s) as -> by auto. by auto.
Qed.

Lemma count_insert {A} (m : gmap Identifier A) i x :
  count_of (<[i := x]> m) = match m !! i with Some _ => count_of m | None => count_of m + 1 end.
Proof. unfold count_of. rewrite map_size_insert. destruct (m !! i); simpl; lia. Qed.

Lemma add_commitments_ok i c s t : session_ok s → add_commitments i c s = Ok t → session_ok t ∧ session_le s t.
Proof.
  unfold add_commitments, session_ok. intros Hs. case_bool_decide as Hst; [|done]. simpl.
  case_bool_decide as Hi; [done|]. intros [= <-]. rewrite Hst in Hs. destruct Hs as [Hc Hsh].
  assert (ss_commitments s !! i = None) as Hn by (by apply eq_None_not_Some).
  split.
  - simpl. rewrite count_insert, Hn. unfold quota in *. simpl in *.
    destruct (_ <=? _) eqn:H; [|rewrite Hst]; simpl; split; try done; nlia.
  - split; simpl; try done; try congruence; [|by apply insert_subseteq].
    rewrite Hst. simpl. lia.
Qed.

Lemma add_signature_share_ok i x s t : session_ok s → add_signature_share i x s = Ok t → session_ok t ∧ session_le s t.
Proof.
  unfold add_signature_share, session_ok. intros Hs. case_bool_decide as H1; [done|].
  case_bool_decide as H2; [done|]. intros [= <-].
  destruct (ss_state s) eqn:Hst; try done. destruct Hs as [Hc Hsh].
  assert (count_of (<[i:=x]> (ss_shares s)) ≤ count_of (ss_shares s) + 1) as Hle.
  { rewrite count_insert. destruct (_ !! i); lia. }
  assert (1 ≤ count_of (<[i:=x]> (ss_shares s))) as Hge.
  { unfold count_of. assert (size (<[i:=x]> (ss_shares s)) ≠ 0%nat); [|lia].
    rewrite map_size_empty_iff. apply insert_non_empty. }
  split.
  - simpl. unfold quota in *. simpl in *. destruct (_ <=? _) eqn:H; simpl; split; try done; nlia.
  - split; simpl; try done; try congruence. rewrite Hst. by destruct (_ <=? _); simpl; lia.
Qed.

Lemma add_all_ok l s : session_ok s → session_ok (add_all l s).1 ∧ session_le s (add_all l s).1.
Proof.
  revert s. induction l as [|[n c] l IH]; intros s Hs; simpl; [done|].
  destruct (id_try_from n) as [i|e]; [|done].
  destruct (add_commitments i c s) as [t|e] eqn:H; [|done].
  destruct (add_commitments_ok _ _ _ _ Hs H) as [Ht Hle]. destruct (IH t Ht) as [Hu Hle'].
  split; [done|]. by etrans.
Qed.

(* ------------------------------------------------------------------ *)
(** ** The daemon *)

Record daemon_ok (d : Daemon) : Prop := {
  dk_sessions : map_Forall (λ id s, ss_id s = id ∧ session_ok s) (sm_sessions (dm_sessions d));
  dk_bound : active_count (dm_sessions d) ≤ sm_max_sessions (dm_sessions d);
}.
(** One request, with whatever the clock, the disk and the client supply. *)
Inductive daemon_step : Daemon → Daemon → Prop :=
| on_request e r d : daemon_step d (handle_request e r d).1.
(** No session is dropped or taken back, and no new one has the identifier of another. *)
Definition daemon_le (d d' : Daemon) : Prop :=
  sm_max_sessions (dm_sessions d') = sm_max_sessions (dm_sessions d) ∧
  active_count (dm_sessions d) ≤ active_count (dm_sessions d').
#[export] Instance daemon_le_preorder : PreOrder daemon_le.
Proof. split; [done|]. intros a b c [E1 L1] [E2 L2]. split; [congruence|lia]. Qed.

Lemma put_active id s m : active_count (put_session id s m) =
  match sm_sessions m !! id with Some _ => active_count m | None => active_count m + 1 end.
Proof. unfold active_count, put_session. simpl. rewrite map_size_insert. destruct (_ !! id); simpl; lia. Qed.

(** A session put back where it was. *)
Lemma put_back id s t d : daemon_ok d → sm_sessions (dm_sessions d) !! id = Some s → session_ok t → session_le s t →
  daemon_ok (set_sessions (put_session id t (dm_sessions d)) d) ∧
  daemon_le d (set_sessions (put_session id t (dm_sessions d)) d).
Proof.
  intros [Hs Hb] Hid Ht Hle. pose proof (put_active id t (dm_sessions d)) as Ha. rewrite Hid in Ha.
  split; [split|split]; simpl; try rewrite Ha; try done.
  apply map_Forall_insert_2; [|done]. split; [|done]. rewrite (le_id _ _ Hle). by apply (Hs id s).
Qed.

Lemma get_session_ok id m s : get_session id m = Ok s ↔ sm_sessions m !! id = Some s.
Proof. apply ok_or_ok. Qed.

Lemma session_new_ok e msg ids t : session_ok (session_new e msg ids t).
Proof. unfold session_ok, session_new, quota, count_of. simpl. rewrite !map_size_empty. simpl. lia. Qed.

(** A session added while there is room. *)
Lemma put_new s d : daemon_ok d → session_ok s → active_count (dm_sessions d) < sm_max_sessions (dm_sessions d) →
  daemon_ok (set_sessions (put_session (ss_id s) s (dm_sessions d)) d) ∧
  daemon_le d (set_sessions (put_session (ss_id s) s (dm_sessions d)) d).
Proof.
  intros [Hs Hb] Ho Hr. pose proof (put_active (ss_id s) s (dm_sessions d)) as Ha.
  split; [split|split]; cbn [set_sessions dm_sessions]; try done.
  - apply map_Forall_insert_2; done.
  - rewrite Ha. cbn [put_session sm_max_sessions]. destruct (_ !! ss_id s); lia.
  - rewrite Ha. destruct (_ !! ss_id s); lia.
Qed.

Lemma handle_request_ok e r d : daemon_ok d → daemon_ok (handle_request e r d).1 ∧ daemon_le d (handle_request e r d).1.
Proof.
  intros Hd. assert (daemon_ok d ∧ daemon_le d d) as Hsame by done.
  destruct r as [msg ps t|pk|id c|id sh|id|id|]; try done; simpl.
  - unfold req_create. destruct (hex_decode msg) as [m|]; [|done].
    destruct (participant_ids ps) as [[ids|]|]; [|done..].
    unfold create_session. destruct (_ <=? _) eqn:H; [by destruct d as [[] ?]|].
    apply put_new; [done|apply session_new_ok|nlia].
  - unfold req_install. destruct (json_pubkey pk); [|done]. cbn [fst].
    by destruct Hd as [Hs Hb]; split; [split|split].
  - unfold req_commitments. destruct (get_session id (dm_sessions d)) as [s|] eqn:Hg; [|done].
    apply get_session_ok in Hg. destruct (json_commitments c) as [[|p l]|]; [done| |done].
    pose proof (add_all_ok (p :: l) s (proj2 (dk_sessions d Hd id s Hg))) as [Ho Hle].
    destruct (add_all (p :: l) s) as [s' resp]. by apply (put_back id s s').
  - unfold req_share. destruct (get_session id (dm_sessions d)) as [s|] eqn:Hg; [|done].
    apply get_session_ok in Hg. destruct (json_share sh) as [[n x]|]; [|done].
    destruct (id_try_from n) as [i|]; [|done].
    destruct (add_signature_share i x s) as [s'|] eqn:Ha; [|done].
    destruct (add_signature_share_ok i x s s' (proj2 (dk_sessions d Hd id s Hg)) Ha). by apply (put_back id s s').
Qed.

Lemma daemon_start_ok e file : daemon_ok (daemon_start e file).
Proof. split; simpl; [apply map_Forall_empty|]. unfold active_count. simpl. rewrite map_size_empty. lia. Qed.

Lemma daemon_reach d d' : daemon_ok d → steps daemon_step d d' → daemon_ok d' ∧ daemon_le d d'.
Proof.
  intros Hd Hr. induction Hr as [|s t u [e r ?] _ IH]; [done|].
  destruct (handle_request_ok e r d Hd) as [Ho Hle]. destruct (IH Ho) as [? ?]. split; [done|]. by etrans.
Qed.

Lemma signature_of_ready d id b : signature_of d id = SignatureReady b →
  ∃ s pk sg, sm_sessions (dm_sessions d) !! id = Some s ∧ ss_state s = Complete ∧
    ks_pubkey_package (dm_keys d) = Some pk ∧
    frost_aggregate (ss_commitments s) (ss_shares s) pk (ss_message s) = Ok sg ∧ signature_json sg = Ok b.
Proof.
  unfold signature_of, reply_err. destruct (get_session id (dm_sessions d)) as [s|] eqn:Hg; [|done].
  apply get_session_ok in Hg. case_bool_decide; [|done]. simpl.
  destruct (ks_pubkey_package _) as [pk|]; [|done]. destruct (_ <? _); [done|]. destruct (_ <? _); [done|].
  unfold signer_aggregate. destruct (frost_aggregate _ _ _ _) as [sg|] eqn:Ha; [|done]. cbn [map_err].
  destruct (signature_json sg) as [b'|] eqn:Hj; [|done]. intros [= ->]. eauto 10.
Qed.

(** A session of the daemon is only ever advanced. *)
Lemma session_advances e r d id s : daemon_ok d → sm_sessions (dm_sessions d) !! id = Some s →
  (∀ m p t, r = CreateSession m p t → session_id_new (out_now e) ≠ id) →
  ∃ t, sm_sessions (dm_sessions (handle_request e r d).1) !! id = Some t ∧ session_le s t.
Proof.
  intros Hd Hid Hfresh. assert (∃ t, sm_sessions (dm_sessions d) !! id = Some t ∧ session_le s t) as Hsame by by eexists.
  assert (∀ k u t, sm_sessions (dm_sessions d) !! k = Some u → session_le u t →
    ∃ t0, <[k := t]> (sm_sessions (dm_sessions d)) !! id = Some t0 ∧ session_le s t0) as Hput.
  { intros k u t Hk Hle. destruct (decide (k = id)) as [->|Hne].
    - rewrite lookup_insert_eq. assert (u = s) by congruence. subst. by eexists.
    - rewrite lookup_insert_ne by done. by eexists. }
  destruct r as [msg ps t|pk|k c|k sh|k|k|]; try done; simpl.
  - unfold req_create. destruct (hex_decode msg) as [m|]; [|done].
    destruct (participant_ids ps) as [[ids|]|]; [|done..].
    unfold create_session. destruct (_ <=? _); [done|]. simpl.
    rewrite lookup_insert_ne by (by eapply Hfresh). by eexists.
  - unfold req_install. by destruct (json_pubkey pk).
  - unfold req_commitments. destruct (get_session k (dm_sessions d)) as [u|] eqn:Hg; [|done].
    apply get_session_ok in Hg. destruct (json_commitments c) as [[|p l]|]; [done| |done].
    pose proof (add_all_ok (p :: l) u (proj2 (dk_sessions d Hd k u Hg))) as [Ho Hle].
    destruct (add_all (p :: l) u) as [u' resp]. by apply (Hput k u).
  - unfold req_share. destruct (get_session k (dm_sessions d)) as [u|] eqn:Hg; [|done].
    apply get_session_ok in Hg. destruct (json_share sh) as [[n x]|]; [|done].
    destruct (id_try_from n) as [i|]; [|done].
    destruct (add_signature_share i x u) as [u'|] eqn:Ha; [|done].
    destruct (add_signature_share_ok i x u u' (proj2 (dk_sessions d Hd k u Hg)) Ha). by apply (Hput k u).
Qed.

(** Nothing in the handler removes a session or calls [cleanup_expired]: once [max_sessions]
    have been created, every later [CreateSession] that parses is refused. *)
Lemma sessions_exhausted d d' e msg ps t m ids :
  daemon_ok d → steps daemon_step d d' → active_count (dm_sessions d) = sm_max_sessions (dm_sessions d) →
  hex_decode msg = Ok m → participant_ids ps = Some (Ok ids) →
  (handle_request e (CreateSession msg ps t) d').2 = Ok (reply_err (Internal "max concurrent sessions reached")).
Proof.
  intros Hd Hr Hfull Hm Hps. destruct (daemon_reach d d' Hd Hr) as [[_ Hb] [Em Hle]].
  simpl. unfold req_create, create_session. rewrite Hm, Hps.
  destruct (_ <=? _) eqn:H; [done|]. nlia.
Qed.

(** Who may take part is recorded and never consulted: with a threshold of one, any
    identifier's commitment fills the session. *)
Lemma outsider_fills i c e msg expected : i ∉ expected →
  ∃ s, add_commitments i c (session_new e msg expected 1) = Ok s ∧ ss_state s = AwaitingSignatureShares.
Proof.
  intros _. unfold add_commitments, session_new. simpl. rewrite lookup_empty.
  case_bool_decide as H; [by destruct H|]. eexists. split; [reflexivity|]. simpl.
  rewrite count_insert, lookup_empty. done.
Qed.

(** C19 (invariant). In every state the daemon reaches from its start, at most 64
    sessions are held, and each is in the stage its contributions put it in: it takes
    exactly [max(min_signers, 1)] commitments before any share, and as many shares
    before it is complete. A signature it returns is the aggregation of a complete
    session's commitments and shares, over that session's message, under the
    installed group key. A later request never changes a session's message, its
    commitments once shares are awaited, or anything of a complete session. *)
Theorem signing_sessions_sound out file d :
  steps daemon_step (daemon_start out file) d →
  active_count (dm_sessions d) ≤ 64 ∧
  map_Forall (λ _ s, session_ok s) (sm_sessions (dm_sessions d)) ∧
  (∀ e id b, (handle_request e (GetSignature id) d).2 = Ok (SignatureReady b) →
     ∃ s pk sg, sm_sessions (dm_sessions d) !! id = Some s ∧ ss_state s = Complete ∧
       count_of (ss_commitments s) = quota s ∧ count_of (ss_shares s) = quota s ∧
       ks_pubkey_package (dm_keys d) = Some pk ∧
       frost_aggregate (ss_commitments s) (ss_shares s) pk (ss_message s) = Ok sg ∧ signature_json sg = Ok b) ∧
  (∀ e r id s, sm_sessions (dm_sessions d) !! id = Some s →
     (∀ m p t, r = CreateSession m p t → session_id_new (out_now e) ≠ id) →
     ∃ t, sm_sessions (dm_sessions (handle_request e r d).1) !! id = Some t ∧ session_le s t).
Proof.
  intros Hr. destruct (daemon_reach _ _ (daemon_start_ok out file) Hr) as [Hd [Em _]].
  assert (map_Forall (λ _ s, session_ok s) (sm_sessions (dm_sessions d))) as Hok.
  { intros id s Hs. apply (dk_sessions d Hd id s Hs). }
  split; [|split; [done|split]].
  - pose proof (dk_bound d Hd) as Hb. rewrite Em in Hb. done.
  - intros e id b. simpl. intros [= H].
    destruct (signature_of_ready d id b H) as (s & pk & sg & Hs & Hc & ?).
    exists s, pk, sg. pose proof (Hok id s Hs) as Hso. unfold session_ok in Hso. rewrite Hc in Hso. naive_solver.
  - intros e r id s. apply session_advances. done.
Qed.
End machine.
