(* ===== verification/KeyIdentity.v ===== *)
(** * Key material of a vault ([vault-identity-core])

    [error.rs], the [VaultIdentity] trait of [lib.rs], its two implementations
    ([ed25519_identity.rs], [ml_dsa_identity.rs]) and the hybrid key pair with its
    stored form ([hybrid_identity.rs]). The signature crates are external. *)
From S2P Require Import Prelude RustStr RustParse Errors HybridEnvelope.
Local Open Scope N_scope.

Inductive IdentityError :=
| KeyGenerationFailed (msg : string)
| SigningFailed (msg : string)
| VerificationFailed (msg : string)
| InvalidKeyMaterial (msg : string)
| IdentityNotFound
| RotationFailed (msg : string)
| SerializationFailed (msg : string)
| DeserializationFailed (msg : string)
| SpiffeIssuanceFailed (msg : string)
| CertificateError (msg : string)
| InternalError (msg : string).
#[export] Instance IdentityError_eq_dec : EqDecision IdentityError.
Proof. solve_decision. Defined.
Definition fmt_identity_error (e : IdentityError) : string :=
  match e with
  | KeyGenerationFailed msg => format "key generation failed: {}" [msg]
  | SigningFailed msg => format "signing failed: {}" [msg]
  | VerificationFailed msg => format "verification failed: {}" [msg]
  | InvalidKeyMaterial msg => format "invalid key material: {}" [msg]
  | IdentityNotFound => "identity not found"
  | RotationFailed msg => format "identity rotation failed: {}" [msg]
  | SerializationFailed msg => format "serialization failed: {}" [msg]
  | DeserializationFailed msg => format "deserialization failed: {}" [msg]
  | SpiffeIssuanceFailed msg => format "SPIFFE SVID issuance failed: {}" [msg]
  | CertificateError msg => format "certificate error: {}" [msg]
  | InternalError msg => format "internal error: {}" [msg]
  end.

(* ------------------------------------------------------------------ *)
(** ** Little-endian integers and slices *)

(** [to_le_bytes] on [k] bytes, and [from_le_bytes]. *)
Fixpoint le_bytes (k : nat) (n : N) : bytes :=
  match k with O => [] | S k => Ascii.ascii_of_N (n mod 256) :: le_bytes k (n / 256) end.
Definition from_le (l : bytes) : N := foldr (λ a acc, byte_n a + 256 * acc) 0 l.

Lemma length_le_bytes k n : length (le_bytes k n) = k.
Proof. revert n. induction k as [|k IH]; intros n; simpl; [done|]. by rewrite IH. Qed.
Lemma len_le_bytes k n : len (le_bytes k n) = N.of_nat k.
Proof. unfold len. by rewrite length_le_bytes. Qed.
Lemma from_le_bytes k n : n < 256 ^ N.of_nat k → from_le (le_bytes k n) = n.
Proof.
  revert n. induction k as [|k IH]; intros n Hn.
  - simpl in *. lia.
  - cbn [le_bytes from_le foldr]. fold (from_le (le_bytes k (n / 256))).
    rewrite byte_n_ascii by (apply N.mod_lt; lia). rewrite IH.
    + pose proof (N.div_mod n 256). lia.
    + apply N.Div0.div_lt_upper_bound. rewrite Nat2N.inj_succ, N.pow_succ_r' in Hn. lia.
Qed.

(** Leaving by an error, or by a panic: a slice out of its buffer. *)
Inductive Stop := Refused (e : IdentityError) | Panics.
Definition slice (a b : N) (l : bytes) : result Stop bytes :=
  if (a <=? b) && (b <=? len l) then Ok (take (N.to_nat (b - a)) (drop (N.to_nat a) l)) else Err Panics.
Definition refuse {A} (r : result IdentityError A) : result Stop A := map_err Refused r.

Lemma slice_mid a b x y z l : l = x ++ y ++ z → a = len x → b = len x + len y → slice a b l = Ok y.
Proof.
  intros -> -> ->. unfold slice. rewrite !len_app.
  destruct (_ && _) eqn:H; [|nlia]. f_equal. unfold len.
  rewrite N.add_comm, N.add_sub, !Nat2N.id, drop_app_length, take_app_length. done.
Qed.
Lemma slice_inside a b l : a ≤ b → b ≤ len l → ∃ x, slice a b l = Ok x ∧ len x = b - a.
Proof.
  intros Ha Hb. unfold slice. destruct (_ && _) eqn:H; [|nlia]. eexists. split; [done|].
  unfold len in *. rewrite length_take, length_drop. lia.
Qed.

(* ------------------------------------------------------------------ *)
(** ** [VaultIdentity]. Arrays and vectors are byte lists; [generate] draws on the bytes it is given. *)

Class VaultIdentity (T : Type) := {
  generate : bytes → result IdentityError T;
  from_secret : bytes → result IdentityError T;
  public_key : T → bytes;
  secret_key : T → bytes;
  sign : T → bytes → result IdentityError bytes;
  verify : bytes → bytes → bytes → result IdentityError bool;
  to_bytes : T → bytes;
  from_bytes : bytes → result IdentityError T;
}.
(** What the hybrid pair relies on: a stored form of one width that is read back. *)
Class VaultIdentitySpec (T : Type) `{!VaultIdentity T} := {
  sound : T → Prop;
  entropy_ok : bytes → Prop;
  width : N;
  generate_sound e k : entropy_ok e → generate e = Ok k → sound k;
  to_bytes_width k : sound k → len (to_bytes k) = width;
  from_to_bytes k : sound k → from_bytes (to_bytes k) = Ok k;
}.

(* ------------------------------------------------------------------ *)
(** ** Ed25519: what is called of [ed25519-dalek] *)

Class Ed25519Lib := {
  EdVk : Type;
  EdVk_eq_dec :: EqDecision EdVk;
  EdSig : Type;
  ed_vk_of_seed : bytes → EdVk;
  ed_vk_from : bytes → result string EdVk;
  ed_vk_bytes : EdVk → bytes;
  ed_sig_from : bytes → result string EdSig;
  ed_sign : bytes → bytes → bytes;
  ed_verify : EdVk → bytes → EdSig → bool;
}.
Class Ed25519Spec `{!Ed25519Lib} : Prop := {
  ed_vk_len v : len (ed_vk_bytes v) = 32;
  ed_vk_round v : ed_vk_from (ed_vk_bytes v) = Ok v;
  ed_sign_verifies s m : ∃ sg, ed_sig_from (ed_sign s m) = Ok sg ∧ ed_verify (ed_vk_of_seed s) m sg = true;
}.

Record Ed25519Identity := mk_ed { secret_bytes : bytes; public_bytes : bytes }.

Section ed25519.
Context `{EL : Ed25519Lib}.
Definition ed_checked (mismatch : string) (bad : string → string) (secret public : bytes) : result IdentityError Ed25519Identity :=
  vk ← map_err (λ e, InvalidKeyMaterial (bad e)) (ed_vk_from public);
  if bool_decide (ed_vk_of_seed secret = vk) then Ok (mk_ed secret public) else Err (InvalidKeyMaterial mismatch).
Definition ed_from_raw (secret public : bytes) : result IdentityError Ed25519Identity :=
  ed_checked "ed25519 secret/public key mismatch" (λ e, format "invalid ed25519 public key: {}" [e]) secret public.
Definition ed_of_seed (seed : bytes) : Ed25519Identity := mk_ed seed (ed_vk_bytes (ed_vk_of_seed seed)).

#[global] Instance ed25519_identity : VaultIdentity Ed25519Identity := {|
  generate seed := Ok (ed_of_seed seed);
  from_secret secret := Ok (ed_of_seed secret);
  public_key := public_bytes;
  secret_key := secret_bytes;
  sign k m := Ok (ed_sign (secret_bytes k) m);
  verify public m sg :=
    vk ← map_err (λ e, InvalidKeyMaterial (format "invalid ed25519 public key: {}" [e])) (ed_vk_from public);
    s ← map_err (λ e, InvalidKeyMaterial (format "invalid ed25519 signature: {}" [e])) (ed_sig_from sg);
    Ok (ed_verify vk m s);
  to_bytes k := secret_bytes k ++ public_bytes k;
  from_bytes b :=
    if len b <? 64 then Err (InvalidKeyMaterial "ed25519 key material too short")
    else ed_checked "ed25519 key material mismatch" (λ _, "invalid ed25519 public key bytes") (take 32 b) (take 32 (drop 32 b));
|}.

#[global] Instance ed25519_spec `{ES : !Ed25519Spec} : VaultIdentitySpec Ed25519Identity.
Proof.
  refine {| sound := λ k, len (secret_bytes k) = 32 ∧ public_bytes k = ed_vk_bytes (ed_vk_of_seed (secret_bytes k));
            entropy_ok := λ e, len e = 32; width := 64 |}.
  - intros e k He [= <-]. done.
  - intros [s p] [Hs Hp]. simpl in *. rewrite len_app, Hs, Hp, ed_vk_len. done.
  - intros [s p] [Hs Hp]. simpl in *. subst p. pose proof (ed_vk_len (ed_vk_of_seed s)) as Hv.
    rewrite len_app, Hs, Hv. simpl. unfold len in *.
    assert (length s = 32%nat) as Hs' by lia. assert (length (ed_vk_bytes (ed_vk_of_seed s)) = 32%nat) as Hv' by lia.
    rewrite take_app_le, (take_ge s), drop_app_ge, Hs', drop_0, take_ge by lia.
    unfold ed_checked. rewrite ed_vk_round. simpl. by rewrite bool_decide_true.
Defined.
End ed25519.

(* ------------------------------------------------------------------ *)
(** ** ML-DSA-65: what is called of [ml-dsa] *)

Class MlDsaLib := {
  MlSk : Type;
  MlVk : Type;
  MlSig : Type;
  (** [try_generate_from_rng]: the expanded secret key and the encoded public key. *)
  ml_keygen : bytes → result string (bytes * bytes);
  ml_sk_from : bytes → MlSk;
  ml_vk_of_sk : MlSk → bytes;
  ml_vk_from : bytes → MlVk;
  ml_try_sign : MlSk → bytes → result string bytes;
  ml_sig_from : bytes → option MlSig;
  ml_verify_internal : MlVk → bytes → MlSig → bool;
}.
Definition ML_DSA_65_SECRET_KEY_LEN : N := 4032.
Definition ML_DSA_65_PUBLIC_KEY_LEN : N := 1952.
Definition ML_DSA_65_SIGNATURE_LEN : N := 3309.
Class MlDsaSpec `{!MlDsaLib} : Prop := {
  ml_keygen_len e s p : ml_keygen e = Ok (s, p) → len s = ML_DSA_65_SECRET_KEY_LEN ∧ len p = ML_DSA_65_PUBLIC_KEY_LEN;
}.

Record MlDsa65Identity := mk_ml { ml_secret_key : bytes; ml_public_key : bytes }.

Section ml_dsa.
Context `{ML : MlDsaLib}.
Definition ml_expect (what : string) (n : N) (b : bytes) : result IdentityError unit :=
  if len b =? n then Ok tt else Err (InvalidKeyMaterial (format "{} {} bytes, got {}" [what; show n; show (len b)])).
Definition ml_from_raw (secret public : bytes) : result IdentityError MlDsa65Identity :=
  _ ← ml_expect "ML-DSA-65 secret key: expected" ML_DSA_65_SECRET_KEY_LEN secret;
  _ ← ml_expect "ML-DSA-65 public key: expected" ML_DSA_65_PUBLIC_KEY_LEN public;
  Ok (mk_ml secret public).
(** [try_from] of a slice: the length must be the array's. *)
Definition load_expanded_sk (k : MlDsa65Identity) : result IdentityError MlSk :=
  if len (ml_secret_key k) =? ML_DSA_65_SECRET_KEY_LEN then Ok (ml_sk_from (ml_secret_key k))
  else Err (InvalidKeyMaterial "bad expanded SK length").
Definition load_vk (k : MlDsa65Identity) : result IdentityError MlVk :=
  if len (ml_public_key k) =? ML_DSA_65_PUBLIC_KEY_LEN then Ok (ml_vk_from (ml_public_key k))
  else Err (InvalidKeyMaterial "bad VK length").

#[global] Instance ml_dsa_identity : VaultIdentity MlDsa65Identity := {|
  generate e :=
    sp ← map_err (λ e, KeyGenerationFailed (format "ML-DSA-65 keygen: {}" [e])) (ml_keygen e);
    Ok (mk_ml sp.1 sp.2);
  from_secret secret :=
    _ ← ml_expect "ML-DSA-65 from_secret: expected" ML_DSA_65_SECRET_KEY_LEN secret;
    Ok (mk_ml secret (ml_vk_of_sk (ml_sk_from secret)));
  public_key := ml_public_key;
  secret_key := ml_secret_key;
  sign k m :=
    sk ← load_expanded_sk k;
    map_err (λ e, SigningFailed (format "ML-DSA-65 sign: {}" [e])) (ml_try_sign sk m);
  verify public m sg :=
    if negb (len public =? ML_DSA_65_PUBLIC_KEY_LEN) then
      Err (InvalidKeyMaterial (format "ML-DSA-65 verify: expected {} byte public key, got {}"
        [show ML_DSA_65_PUBLIC_KEY_LEN; show (len public)]))
    else if negb (len sg =? ML_DSA_65_SIGNATURE_LEN) then Ok false
    else
      s ← ok_or (ml_sig_from sg) (InvalidKeyMaterial "invalid signature bytes");
      Ok (ml_verify_internal (ml_vk_from public) m s);
  to_bytes k := ml_secret_key k ++ ml_public_key k;
  from_bytes b :=
    let expected := ML_DSA_65_SECRET_KEY_LEN + ML_DSA_65_PUBLIC_KEY_LEN in
    if len b <? expected then
      Err (InvalidKeyMaterial (format "ML-DSA-65 from_bytes: expected {} bytes, got {}" [show expected; show (len b)]))
    else Ok (mk_ml (take (N.to_nat ML_DSA_65_SECRET_KEY_LEN) b)
                   (take (N.to_nat ML_DSA_65_PUBLIC_KEY_LEN) (drop (N.to_nat ML_DSA_65_SECRET_KEY_LEN) b)));
|}.

#[global] Instance ml_dsa_spec `{MS : !MlDsaSpec} : VaultIdentitySpec MlDsa65Identity.
Proof.
  refine {| sound := λ k, len (ml_secret_key k) = ML_DSA_65_SECRET_KEY_LEN ∧ len (ml_public_key k) = ML_DSA_65_PUBLIC_KEY_LEN;
            entropy_ok := λ _, True; width := ML_DSA_65_SECRET_KEY_LEN + ML_DSA_65_PUBLIC_KEY_LEN |}.
  - intros e k _ H. simpl in H. destruct (ml_keygen e) as [[s p]|] eqn:He; [|done]. cbn in H. injection H as <-.
    by eapply ml_keygen_len.
  - intros [s p] [Hs Hp]. simpl in *. by rewrite len_app, Hs, Hp.
  - intros [s p] [Hs Hp]. cbn [from_bytes to_bytes ml_dsa_identity ml_secret_key ml_public_key] in *.
    rewrite len_app, Hs, Hp, N.ltb_irrefl. unfold len in *.
    rewrite <- Hs, <- Hp, !Nat2N.id, take_app_length, drop_app_length, take_ge by done. done.
Defined.
End ml_dsa.

(* ------------------------------------------------------------------ *)
(** ** [HybridKeyPair] *)

Record HybridSignature := mk_hybrid_sig { hs_ed25519 : bytes; hs_ml_dsa65 : bytes }.
Record HybridKeyPair := mk_hybrid {
  hk_ed25519 : Ed25519Identity;
  hk_ml_dsa65 : MlDsa65Identity;
  hk_node_id : string;
  hk_created_at : N;
  hk_expires_at : N;
}.

Section hybrid.
Context `{EL : Ed25519Lib, ML : MlDsaLib}.

(** The entropy of each scheme, and the clock. *)
Record Entropy := mk_entropy { en_ed : bytes; en_ml : bytes; en_now : N }.
Definition generate_hybrid (e : Entropy) (node_id : string) : result IdentityError HybridKeyPair :=
  ed ← generate (en_ed e);
  ml ← generate (en_ml e);
  Ok (mk_hybrid ed ml node_id (en_now e) 0).
Definition sign_hybrid (k : HybridKeyPair) (message : bytes) : result IdentityError HybridSignature :=
  ed_sig ← sign (hk_ed25519 k) message;
  ml_sig ← sign (hk_ml_dsa65 k) message;
  Ok (mk_hybrid_sig ed_sig ml_sig).
Definition verify_hybrid (ed_pub ml_pub message : bytes) (sg : HybridSignature) : result IdentityError bool :=
  ed_ok ← verify (T:=Ed25519Identity) ed_pub message (hs_ed25519 sg);
  if negb ed_ok then Ok false else verify (T:=MlDsa65Identity) ml_pub message (hs_ml_dsa65 sg).

Definition hybrid_to_bytes (k : HybridKeyPair) : bytes :=
  to_bytes (hk_ed25519 k) ++ to_bytes (hk_ml_dsa65 k)
  ++ le_bytes 4 (len (bytes_of (hk_node_id k)) mod 4294967296) ++ bytes_of (hk_node_id k)
  ++ le_bytes 8 (hk_created_at k) ++ le_bytes 8 (hk_expires_at k).

Definition truncated (why : string) : Stop := Refused (DeserializationFailed why).
(** The [try_into]s of slices of the array's own length cannot fail. *)
Definition hybrid_from_bytes (b : bytes) : result Stop HybridKeyPair :=
  let ed_len := 64 in
  let ml_len := 4032 + 1952 in
  if len b <? ed_len + ml_len + 4 then Err (truncated "hybrid key material too short")
  else
    ed_b ← slice 0 ed_len b;
    ed ← refuse (from_bytes ed_b);
    ml_b ← slice ed_len (ed_len + ml_len) b;
    ml ← refuse (from_bytes ml_b);
    let offset := ed_len + ml_len in
    name_len_b ← slice offset (offset + 4) b;
    let name_len := from_le name_len_b in
    let offset := offset + 4 in
    if len b <? offset + name_len + 16 then Err (truncated "hybrid key material truncated")
    else
      node_b ← slice offset (offset + name_len) b;
      node_id ← ok_or (from_utf8 node_b) (truncated "invalid node_id utf8");
      let offset := offset + name_len in
      created_b ← slice offset (offset + 8) b;
      expires_b ← slice (offset + 8) (offset + 16) b;
      Ok (mk_hybrid ed ml node_id (from_le created_b) (from_le expires_b)).

(** Both schemes must accept. *)
Lemma verify_hybrid_both ed_pub ml_pub m sg : verify_hybrid ed_pub ml_pub m sg = Ok true ↔
  verify (T:=Ed25519Identity) ed_pub m (hs_ed25519 sg) = Ok true ∧ verify (T:=MlDsa65Identity) ml_pub m (hs_ml_dsa65 sg) = Ok true.
Proof.
  unfold verify_hybrid. rewrite bind_ok. split.
  - intros ([] & He & Hm); simpl in Hm; [done|discriminate].
  - intros [He Hm]. by exists true.
Qed.

(** The types' own invariants: arrays have their length, integers their width, strings are UTF-8. *)
Record hybrid_wf `{ES : !Ed25519Spec, MS : !MlDsaSpec} (k : HybridKeyPair) : Prop := {
  hw_ed : sound (hk_ed25519 k);
  hw_ml : sound (hk_ml_dsa65 k);
  hw_node : valid_utf8 (bytes_of (hk_node_id k)) = true ∧ len (bytes_of (hk_node_id k)) < 4294967296;
  hw_times : hk_created_at k ≤ u64_max ∧ hk_expires_at k ≤ u64_max;
}.

Section round_trip.
Context `{ES : !Ed25519Spec, MS : !MlDsaSpec}.

Lemma generate_hybrid_wf e node_id k :
  len (en_ed e) = 32 → en_now e ≤ u64_max → valid_utf8 (bytes_of node_id) = true → len (bytes_of node_id) < 4294967296 →
  generate_hybrid e node_id = Ok k → hybrid_wf k ∧ hk_node_id k = node_id ∧ hk_created_at k = en_now e.
Proof.
  intros He Hn Hu Hl. unfold generate_hybrid. rewrite bind_ok. intros (ed & Hed & H).
  rewrite bind_ok in H. destruct H as (ml & Hml & [= <-]). split; [|done].
  split; [exact (generate_sound (T:=Ed25519Identity) _ _ He Hed)|exact (generate_sound (T:=MlDsa65Identity) _ _ I Hml)|done|].
  unfold u64_max in *. simpl. lia.
Qed.

(** What is stored is read back, and no slice of any buffer panics. *)
Lemma hybrid_round_trip k : hybrid_wf k → hybrid_from_bytes (hybrid_to_bytes k) = Ok k.
Proof.
  intros [Hed Hml [Hu Hn] [Hc He]]. destruct k as [ed ml node created expires].
  cbn [hk_ed25519 hk_ml_dsa65 hk_node_id hk_created_at hk_expires_at] in *.
  pose proof (to_bytes_width ed Hed) as Led. pose proof (to_bytes_width ml Hml) as Lml.
  change (width (T:=Ed25519Identity)) with 64 in Led.
  change (width (T:=MlDsa65Identity)) with (4032 + 1952) in Lml.
  unfold hybrid_from_bytes, hybrid_to_bytes. cbn [hk_ed25519 hk_ml_dsa65 hk_node_id hk_created_at hk_expires_at].
  rewrite N.mod_small by done.
  set (E := to_bytes ed) in *. set (M := to_bytes ml) in *. set (name := bytes_of node) in *.
  set (L := le_bytes 4 (len name)). set (C := le_bytes 8 created). set (X := le_bytes 8 expires).
  set (b := E ++ M ++ L ++ name ++ C ++ X).
  assert (len L = 4) as LL by apply len_le_bytes. assert (len C = 8) as LC by apply len_le_bytes.
  assert (len X = 8) as LX by apply len_le_bytes.
  assert (len b = 64 + (4032 + 1952) + 4 + len name + 16) as Lb by (unfold b; rewrite !len_app; lia).
  destruct (_ <? _) eqn:H1; [nlia|]. clear H1.
  rewrite (slice_mid 0 64 [] E (M ++ L ++ name ++ C ++ X)) by (done || (rewrite len_nil; lia)).
  unfold mbind, result_bind. unfold E at 1. rewrite (from_to_bytes ed Hed). cbn [refuse map_err].
  rewrite (slice_mid 64 (64 + (4032 + 1952)) E M (L ++ name ++ C ++ X)) by (done || lia).
  unfold M at 1. rewrite (from_to_bytes ml Hml). cbn [refuse map_err].
  rewrite (slice_mid (64 + (4032 + 1952)) (64 + (4032 + 1952) + 4) (E ++ M) L (name ++ C ++ X))
    by (rewrite ?len_app; (by unfold b; rewrite <- ?app_assoc) || lia).
  assert (from_le L = len name) as -> by (by apply from_le_bytes).
  destruct (_ <? _) eqn:H2; [nlia|]. clear H2.
  rewrite (slice_mid _ _ (E ++ M ++ L) name (C ++ X)) by (rewrite ?len_app; (by unfold b; rewrite <- ?app_assoc) || lia).
  unfold from_utf8. rewrite Hu. cbn [ok_or]. replace (str_of name) with node by (symmetry; apply str_of_bytes_of).
  rewrite (slice_mid _ _ (E ++ M ++ L ++ name) C X) by (rewrite ?len_app; (by unfold b; rewrite <- ?app_assoc) || lia).
  rewrite (slice_mid _ _ (E ++ M ++ L ++ name ++ C) X []) by
    (rewrite ?len_app; (by unfold b; rewrite <- ?app_assoc, ?app_nil_r) || lia).
  unfold C, X. rewrite !from_le_bytes by (unfold u64_max in *; simpl; lia). done.
Qed.
End round_trip.

Lemma hybrid_from_bytes_total b : hybrid_from_bytes b ≠ Err Panics.
Proof.
  unfold hybrid_from_bytes. destruct (_ <? _) eqn:H1; [done|]. apply N.ltb_ge in H1.
  destruct (slice_inside 0 64 b) as (e & -> & _); [lia..|]. unfold mbind, result_bind.
  destruct (from_bytes e) as [ed|]; [|done]. cbn [refuse map_err].
  destruct (slice_inside 64 (64 + (4032 + 1952)) b) as (m & -> & _); [lia..|].
  destruct (from_bytes m) as [ml|]; [|done]. cbn [refuse map_err].
  destruct (slice_inside (64 + (4032 + 1952)) (64 + (4032 + 1952) + 4) b) as (l & -> & _); [lia..|].
  destruct (_ <? _) eqn:H2; [done|]. apply N.ltb_ge in H2.
  set (off := 64 + (4032 + 1952) + 4) in *.
  destruct (slice_inside off (off + from_le l) b) as (nb & -> & _); [lia..|].
  destruct (from_utf8 nb); [|done]. cbn [ok_or].
  destruct (slice_inside (off + from_le l) (off + from_le l + 8) b) as (c & -> & _); [lia..|].
  destruct (slice_inside (off + from_le l + 8) (off + from_le l + 16) b) as (x & -> & _); [lia..|].
  done.
Qed.
End hybrid.
