(* ===== verification/IdentityDaemon.v ===== *)
(** * The identity daemon ([vault-identityd]: [lib.rs])

    The stored identity: sealing, the atomic write, loading, rotation and the
    archive's cleanup. The store directory is a map from file names to files; which
    system calls fail, and how far a failing write got, is the environment's answer. *)
From S2P Require Import Prelude RustStr RustParse Errors Identity HybridEnvelope KeyIdentity.
Local Open Scope N_scope.

Definition AEAD_NONCE_SIZE : N := 12.
Definition AEAD_SALT_SIZE : N := 16.
Definition ARGON_MEMORY : N := 19456.
Definition ARGON_ITERATIONS : N := 3.
Definition ARGON_PARALLELISM : N := 1.
Definition ARCHIVE_RETENTION_SECS : N := 2592000.
Definition MAX_IDENTITY_FILE_SIZE : N := 16777216.
Definition AEAD_AAD_CONTEXT : bytes := bytes_of "kerosene-vault-identity-aead-v1".

(** [argon2] with 32 bytes of output, and AES-256-GCM of [aes-gcm] under a key, a nonce and additional data. *)
Class AeadLib := {
  argon2id : N → N → N → bytes → bytes → result string bytes;
  gcm_encrypt : bytes → bytes → bytes → bytes → option bytes;
  gcm_decrypt : bytes → bytes → bytes → bytes → option bytes;
}.
(** Decryption inverts encryption, and a tag of 16 bytes is all that is added. *)
Class AeadSpec `{!AeadLib} : Prop := {
  gcm_round k n a m c : gcm_encrypt k n a m = Some c → gcm_decrypt k n a c = Some m;
  gcm_len k n a m c : gcm_encrypt k n a m = Some c → len c = len m + 16;
}.

Record File := mk_file { f_bytes : bytes; f_mode : N; f_mtime : N }.
Notation Disk := (gmap string File).

(** What a call reads from outside. [None] of an error field: the call succeeds. *)
Record IdEnv := mk_id_env {
  ie_now : N;
  ie_salt : bytes;
  ie_nonce : bytes;
  ie_entropy : Entropy;
  ie_open : option string;
  ie_write : option (string * nat);        (** the error, and how many bytes had been written *)
  ie_fsync : option string;
  ie_rename : option string;
  ie_read : option string;
  ie_archive : option string;
  ie_listing : bool;                       (** [read_dir] works *)
  ie_unremovable : list string;            (** files whose metadata or removal fails *)
}.

(** The daemon's configuration, and what it changes: the directory and the loaded identity. *)
Record IdentityDaemon := mk_daemon { dm_node_id : string; dm_file_id : string; dm_passphrase : string }.
Record IdState := mk_id_state { is_disk : Disk; is_identity : option HybridKeyPair }.
Notation idc := (cmd Stop IdState).
Definition stop (e : IdentityError) : Stop := Refused e.

(** Rejects traversal patterns. *)
Definition sanitize_node_id (node_id : string) : result IdentityError string :=
  let trimmed := trim node_id in
  if String.eqb trimmed "" then Err (InternalError "node_id must not be empty")
  else if contains_str ".." trimmed then Err (InternalError "node_id path traversal detected: '..'")
  else if contains_char "/"%char trimmed || contains_char "\"%char trimmed then
    Err (InternalError "node_id path traversal detected: separator character")
  else if starts_with "." trimmed then Err (InternalError "node_id must not start with '.'")
  else if contains_char "000"%char trimmed then Err (InternalError "node_id contains null byte")
  else if 256 <? str_len trimmed then Err (InternalError "node_id too long (max 256 chars)")
  else Ok trimmed.

Section daemon.
Context `{SH : Sha256, AL : AeadLib, EL : Ed25519Lib, ML : MlDsaLib}.

(** [mkdir]: why creating the store failed, if it did; [env_passphrase]: the environment variable. *)
Definition daemon_new (node_id : string) (mkdir env_passphrase : option string) : result IdentityError IdentityDaemon :=
  sanitized ← sanitize_node_id node_id;
  match mkdir with
  | Some e => Err (InternalError (format "failed to create store dir: {}" [e]))
  | None => Ok (mk_daemon node_id (sha256_hex (bytes_of sanitized))
                  (default "kerosene-vault-identity-default" env_passphrase))
  end.
Definition identity_path (d : IdentityDaemon) : string := format "identity-{}.enc" [dm_file_id d].
(** [path.with_extension("tmp")]. *)
Definition tmp_path (d : IdentityDaemon) : string := format "identity-{}.tmp" [dm_file_id d].
Definition archive_path (d : IdentityDaemon) (now_secs : N) : string := format "identity-{}.old.{}" [dm_file_id d; show now_secs].

(* ------------------------------------------------------------------ *)
(** ** Sealing *)

Definition derive_key (d : IdentityDaemon) (salt : bytes) : result IdentityError bytes :=
  map_err (λ e, InternalError (format "argon2: {}" [e]))
    (argon2id ARGON_MEMORY ARGON_ITERATIONS ARGON_PARALLELISM (bytes_of (dm_passphrase d)) salt).
Definition encrypt_bytes (d : IdentityDaemon) (e : IdEnv) (plaintext : bytes) : result IdentityError bytes :=
  key ← derive_key d (ie_salt e);
  ciphertext ← ok_or (gcm_encrypt key (ie_nonce e) AEAD_AAD_CONTEXT plaintext) (InternalError "AEAD encrypt failed");
  Ok (ie_salt e ++ ie_nonce e ++ ciphertext).
Definition decrypt_bytes (d : IdentityDaemon) (blob : bytes) : result Stop bytes :=
  if len blob <? AEAD_SALT_SIZE + AEAD_NONCE_SIZE + 1 then Err (stop (DeserializationFailed "encrypted blob too short"))
  else
    salt ← slice 0 AEAD_SALT_SIZE blob;
    nonce ← slice AEAD_SALT_SIZE (AEAD_SALT_SIZE + AEAD_NONCE_SIZE) blob;
    ciphertext ← slice (AEAD_SALT_SIZE + AEAD_NONCE_SIZE) (len blob) blob;
    key ← refuse (derive_key d salt);
    ok_or (gcm_decrypt key nonce AEAD_AAD_CONTEXT ciphertext)
      (stop (DeserializationFailed "AEAD decrypt failed: wrong key or tampered data")).

(* ------------------------------------------------------------------ *)
(** ** Files *)

Definition on_disk (f : Disk → Disk) : idc unit := update (λ s, mk_id_state (f (is_disk s)) (is_identity s)).
Definition fails_with (o : option string) (what : string → IdentityError) : idc unit :=
  match o with Some e => fail (stop (what e)) | None => mret tt end.

(** Open for truncation with mode 0600 (an existing file keeps its mode), write, fsync, rename. *)
Definition atomic_write (d : IdentityDaemon) (e : IdEnv) (path : string) (data : bytes) : idc unit :=
  let tmp := tmp_path d in
  _ ← fails_with (ie_open e) (λ x, InternalError (format "open tmp with O_NOFOLLOW: {}" [x]));
  s ← get;
  let mode := match is_disk s !! tmp with Some f => f_mode f | None => 384 end in
  _ ← on_disk <[tmp := mk_file (match ie_write e with Some (_, n) => take n data | None => data end) mode (ie_now e)]>;
  _ ← fails_with (fst <$> ie_write e) (λ x, InternalError (format "write tmp: {}" [x]));
  _ ← fails_with (ie_fsync e) (λ x, InternalError (format "fsync tmp: {}" [x]));
  _ ← fails_with (ie_rename e) (λ x, InternalError (format "rename: {}" [x]));
  on_disk (λ m, match m !! tmp with Some f => <[path := f]> (delete tmp m) | None => m end).

Definition read_identity_blob (e : IdEnv) (path : string) : idc bytes :=
  s ← get;
  file ← lift (ok_or (is_disk s !! path) (stop (DeserializationFailed "open identity: No such file or directory (os error 2)")));
  if MAX_IDENTITY_FILE_SIZE <? len (f_bytes file) then fail (stop (DeserializationFailed "identity file exceeds max size"))
  else if negb (N.land (N.land (f_mode file) 511) 63 =? 0) then
    fail (stop (DeserializationFailed "identity file has overly permissive permissions"))
  else
    _ ← fails_with (ie_read e) (λ x, DeserializationFailed (format "read: {}" [x]));
    mret (f_bytes file).

(* ------------------------------------------------------------------ *)
(** ** Loading and rotation *)

Definition set_identity (k : HybridKeyPair) : idc unit := update (λ s, mk_id_state (is_disk s) (Some k)).
(** A fresh pair, sealed and written. *)
Definition generate_and_store (d : IdentityDaemon) (e : IdEnv) : idc HybridKeyPair :=
  kp ← lift (refuse (generate_hybrid (ie_entropy e) (dm_node_id d)));
  encrypted ← lift (refuse (encrypt_bytes d e (hybrid_to_bytes kp)));
  _ ← atomic_write d e (identity_path d) encrypted;
  _ ← set_identity kp;
  mret kp.
Definition load_identity (d : IdentityDaemon) (e : IdEnv) : idc HybridKeyPair :=
  encrypted ← read_identity_blob e (identity_path d);
  plaintext ← lift (decrypt_bytes d encrypted);
  kp ← lift (hybrid_from_bytes plaintext);
  _ ← set_identity kp;
  mret kp.
Definition load_or_generate_identity (d : IdentityDaemon) (e : IdEnv) : idc HybridKeyPair :=
  s ← get;
  match is_identity s with
  | Some id => mret id
  | None => if bool_decide (is_Some (is_disk s !! identity_path d)) then load_identity d e else generate_and_store d e
  end.
Definition current_identity (s : IdState) : result IdentityError HybridKeyPair := ok_or (is_identity s) IdentityNotFound.

(** [name.ends_with(".old.")] with the prefix test. *)
Definition ends_with (suffix s : string) : bool :=
  bool_decide (drop (String.length s - String.length suffix) (bytes_of s) = bytes_of suffix).
Definition is_archive (name : string) : bool := starts_with "identity-" name && ends_with ".old." name.
Definition expired (e : IdEnv) (name : string) (f : File) : bool :=
  is_archive name && negb (bool_decide (name ∈ ie_unremovable e))
  && (f_mtime f <=? ie_now e) && (ARCHIVE_RETENTION_SECS <? ie_now e - f_mtime f).
Definition cleanup (e : IdEnv) (m : Disk) : Disk :=
  if ie_listing e then filter (λ p, expired e p.1 p.2 = false) m else m.
Definition archive_old (d : IdentityDaemon) (e : IdEnv) : idc unit :=
  s ← get;
  match is_disk s !! identity_path d with
  | None => mret tt
  | Some f =>
      _ ← fails_with (ie_archive e) (λ x, RotationFailed (format "archive old identity: {}" [x]));
      _ ← on_disk (λ m, <[archive_path d (ie_now e) := f]> (delete (identity_path d) m));
      on_disk (cleanup e)
  end.
Definition rotate_identity (d : IdentityDaemon) (e : IdEnv) : idc HybridKeyPair :=
  _ ← archive_old d e;
  generate_and_store d e.
Definition daemon_sign (s : IdState) (message : bytes) : result IdentityError HybridSignature :=
  id ← current_identity s;
  sign_hybrid id message.
End daemon.
#[global] Arguments identity_path : simpl never.
#[global] Arguments tmp_path : simpl never.
#[global] Arguments archive_path : simpl never.

(* ------------------------------------------------------------------ *)
(** ** The names of the files *)

Section files.
Context `{SH : Sha256, AL : AeadLib, EL : Ed25519Lib, ML : MlDsaLib}.

Lemma identity_path_eq d : identity_path d = "identity-" +:+ dm_file_id d +:+ ".enc".
Proof. reflexivity. Qed.
Lemma tmp_path_eq d : tmp_path d = "identity-" +:+ dm_file_id d +:+ ".tmp".
Proof. reflexivity. Qed.
Lemma archive_path_eq d n : archive_path d n = "identity-" +:+ dm_file_id d +:+ ".old." +:+ show n.
Proof. unfold archive_path. cbn [format]. by rewrite string_app_nil. Qed.
Lemma string_app_cancel a x y : a +:+ x = a +:+ y → x = y.
Proof. intros H. apply (f_equal bytes_of) in H. rewrite !bytes_of_app in H. apply bytes_of_inj. by eapply app_inv_head. Qed.
Lemma tmp_not_identity d : tmp_path d ≠ identity_path d.
Proof. rewrite tmp_path_eq, identity_path_eq. intros H. by do 2 apply string_app_cancel in H. Qed.
Lemma archive_not_identity d n : archive_path d n ≠ identity_path d.
Proof. rewrite archive_path_eq, identity_path_eq. intros H. by do 2 apply string_app_cancel in H. Qed.
Lemma archive_not_tmp d n : archive_path d n ≠ tmp_path d.
Proof. rewrite archive_path_eq, tmp_path_eq. intros H. by do 2 apply string_app_cancel in H. Qed.

(** [.old.] is looked for at the end of names that go on with the time: nothing is an archive. *)
Lemma ends_with_last p s a : last (bytes_of p) = Some a → ends_with p s = true → last (bytes_of s) = Some a.
Proof.
  unfold ends_with. intros Hp Hs. apply bool_decide_eq_true in Hs.
  rewrite <- (take_drop (String.length s - String.length p) (bytes_of s)), Hs, last_app, Hp. done.
Qed.
Lemma archive_kept d n : is_archive (archive_path d n) = false.
Proof.
  unfold is_archive. apply andb_false_iff. right. apply not_true_is_false. intros H.
  apply (ends_with_last _ _ "."%char) in H; [|done].
  rewrite archive_path_eq, !bytes_of_app, !last_app in H.
  pose proof (show_digits n) as Hd. destruct (last (bytes_of (show n))) as [a|] eqn:Ha.
  - injection H as ->. apply last_Some_elem_of, list_elem_of_In in Ha. rewrite forallb_forall in Hd. by apply Hd in Ha.
  - apply last_None in Ha. by apply (show_nonempty n), bytes_of_inj.
Qed.

(* ------------------------------------------------------------------ *)
(** ** The identity file is whole *)

Context `{AS : !AeadSpec, ES : !Ed25519Spec, MS : !MlDsaSpec}.

Definition private (f : File) : Prop := N.land (N.land (f_mode f) 511) 63 = 0.
(** A file that holds the pair [k], sealed. *)
Definition holds_key (d : IdentityDaemon) (f : File) (k : HybridKeyPair) : Prop :=
  private f ∧ len (f_bytes f) ≤ MAX_IDENTITY_FILE_SIZE ∧ hybrid_wf k ∧
  ∃ p, decrypt_bytes d (f_bytes f) = Ok p ∧ hybrid_from_bytes p = Ok k.
Record id_inv (d : IdentityDaemon) (s : IdState) : Prop := {
  ii_file f : is_disk s !! identity_path d = Some f → ∃ k, holds_key d f k;
  ii_tmp f : is_disk s !! tmp_path d = Some f → private f;
}.
(** Arrays have their length, the clock its width. *)
Definition env_wf (e : IdEnv) : Prop :=
  len (ie_salt e) = AEAD_SALT_SIZE ∧ len (ie_nonce e) = AEAD_NONCE_SIZE ∧
  len (en_ed (ie_entropy e)) = 32 ∧ en_now (ie_entropy e) ≤ u64_max.
(** A node id is a string, and not of megabytes. *)
Definition node_wf (d : IdentityDaemon) : Prop :=
  valid_utf8 (bytes_of (dm_node_id d)) = true ∧ len (bytes_of (dm_node_id d)) ≤ 65536.

Lemma decrypt_encrypt d e m c : env_wf e → encrypt_bytes d e m = Ok c →
  decrypt_bytes d c = Ok m ∧ len c = len m + 44.
Proof.
  intros (Hs & Hn & _). unfold encrypt_bytes. rewrite bind_ok. intros (key & Hk & H).
  rewrite bind_ok in H. destruct H as (ct & Hc & [= <-]). apply ok_or_ok in Hc.
  pose proof (gcm_len _ _ _ _ _ Hc) as Hl. unfold AEAD_SALT_SIZE, AEAD_NONCE_SIZE in *.
  assert (len (ie_salt e ++ ie_nonce e ++ ct) = len m + 44) as Ht by (rewrite !len_app; lia).
  split; [|done]. unfold decrypt_bytes, AEAD_SALT_SIZE, AEAD_NONCE_SIZE. rewrite Ht.
  destruct (_ <? _) eqn:H1; [nlia|].
  rewrite (slice_mid 0 16 [] (ie_salt e) (ie_nonce e ++ ct)) by (done || (rewrite len_nil; lia)).
  unfold mbind, result_bind.
  rewrite (slice_mid 16 (16 + 12) (ie_salt e) (ie_nonce e) ct) by (done || lia).
  rewrite (slice_mid (16 + 12) (len m + 44) (ie_salt e ++ ie_nonce e) ct [])
    by (rewrite ?app_nil_r, ?len_app, <- ?app_assoc; done || lia).
  rewrite Hk. cbn [refuse map_err]. by rewrite (gcm_round _ _ _ _ _ Hc).
Qed.

Lemma hybrid_len k : hybrid_wf k → len (hybrid_to_bytes k) = 6068 + len (bytes_of (hk_node_id k)).
Proof.
  intros [Hed Hml _ _]. unfold hybrid_to_bytes. rewrite !len_app, !len_le_bytes.
  rewrite (to_bytes_width _ Hed), (to_bytes_width _ Hml).
  change (width (T:=Ed25519Identity)) with 64. change (width (T:=MlDsa65Identity)) with (4032 + 1952). simpl. lia.
Qed.

(** A sealed fresh pair. *)
Lemma sealed_key d e kp c f : env_wf e → node_wf d →
  generate_hybrid (ie_entropy e) (dm_node_id d) = Ok kp → encrypt_bytes d e (hybrid_to_bytes kp) = Ok c →
  f_bytes f = c → private f → holds_key d f kp.
Proof.
  intros He [Hu Hn] Hg Hc Hf Hp.
  assert (hybrid_wf kp ∧ hk_node_id kp = dm_node_id d) as [Hw Hid].
  { destruct He as (_ & _ & ? & ?). apply generate_hybrid_wf in Hg as (? & ? & _); try done. lia. }
  destruct (decrypt_encrypt d e _ _ He Hc) as [Hd Hl]. rewrite (hybrid_len kp Hw), Hid in Hl. subst c.
  split; [done|]. split; [unfold MAX_IDENTITY_FILE_SIZE; lia|]. split; [done|].
  eexists. split; [done|]. by apply hybrid_round_trip.
Qed.

(** Whatever fails, the file under [path] is the old one or the whole new one. *)
Lemma atomic_write_whole d e path data s : path ≠ tmp_path d →
  let r := atomic_write d e path data s in
  is_identity r.1 = is_identity s ∧
  (∀ n, n ≠ path → n ≠ tmp_path d → is_disk r.1 !! n = is_disk s !! n) ∧
  (∀ f, is_disk r.1 !! tmp_path d = Some f → f_mode f = match is_disk s !! tmp_path d with Some g => f_mode g | None => 384 end) ∧
  (if is_ok r.2 then ∃ f, is_disk r.1 !! path = Some f ∧ f_bytes f = data ∧
       f_mode f = match is_disk s !! tmp_path d with Some g => f_mode g | None => 384 end
   else is_disk r.1 !! path = is_disk s !! path).
Proof.
  intros Hp. unfold atomic_write, fails_with, on_disk. unfold_monad. destruct s as [m id]. cbn [is_disk is_identity].
  destruct (ie_open e); cbn; [by repeat split; intros f Hf; rewrite Hf|].
  destruct (ie_write e) as [[x n]|]; cbn.
  { repeat split; [intros n' H1 H2; by rewrite lookup_insert_ne| |by rewrite lookup_insert_ne].
    intros f. rewrite lookup_insert_eq. by intros [= <-]. }
  destruct (ie_fsync e); [|destruct (ie_rename e)]; cbn.
  1-2: repeat split; [intros n' H1 H2; by rewrite lookup_insert_ne| |by rewrite lookup_insert_ne];
    intros f; rewrite lookup_insert_eq; by intros [= <-].
  rewrite lookup_insert_eq. repeat split.
  - intros n H1 H2. rewrite lookup_insert_ne, lookup_delete_ne, lookup_insert_ne by done. done.
  - intros f. rewrite lookup_insert_ne by done. by rewrite lookup_delete_eq.
  - eexists. rewrite lookup_insert_eq. done.
Qed.

Lemma private_384 f : f_mode f = 384 → private f.
Proof. unfold private. by intros ->. Qed.

Lemma lift_bind {E S A B} (r : result E A) (f : A → cmd E S B) s :
  (lift r ≫= f) s = match r with Ok a => f a s | Err e => (s, Err e) end.
Proof. by destruct r. Qed.

(** Generation: on failure nothing but the temporary file changes. *)
Lemma generate_and_store_ok d e s : env_wf e → node_wf d → id_inv d s →
  let r := generate_and_store d e s in
  id_inv d r.1 ∧
  (∀ k, r.2 = Ok k → is_identity r.1 = Some k ∧ ∃ f, is_disk r.1 !! identity_path d = Some f ∧ holds_key d f k).
Proof.
  intros He Hn [Hf Ht]. assert (id_inv d s) as Hs by by split.
  unfold generate_and_store. cbn zeta. rewrite lift_bind.
  destruct (generate_hybrid _ _) as [kp|] eqn:Hg; [|done]. cbn [refuse map_err]. rewrite lift_bind.
  destruct (encrypt_bytes _ _ _) as [c|] eqn:Hc; [|done]. cbn [refuse map_err].
  unfold mbind, cmd_bind.
  pose proof (atomic_write_whole d e (identity_path d) c s (not_eq_sym (tmp_not_identity d))) as (Hid & Hfr & Htm & Hw).
  destruct (atomic_write d e (identity_path d) c s) as [s1 [[]|x]]; cbn [fst snd is_ok] in *.
  - destruct Hw as (f & Hd & Hb & Hm).
    assert (private f) as Hp.
    { destruct (is_disk s !! tmp_path d) as [g|] eqn:Hg1; [|by apply private_384]. unfold private. rewrite Hm. by apply (Ht g). }
    assert (holds_key d f kp) as Hk by by eapply sealed_key.
    unfold set_identity, update, mret, cmd_ret. cbn [fst snd is_disk is_identity].
    split; [split; cbn [is_disk]|].
    + intros g Hg1. exists kp. by assert (g = f) as -> by congruence.
    + intros g Hg1. apply Htm in Hg1.
      destruct (is_disk s !! tmp_path d) as [g'|] eqn:Hg2; [|by apply private_384]. unfold private. rewrite Hg1. by apply (Ht g').
    + intros k [= <-]. split; [done|]. by exists f.
  - split; [split|done].
    + rewrite Hw. apply Hf.
    + intros g Hg1. apply Htm in Hg1.
      destruct (is_disk s !! tmp_path d) as [g'|] eqn:Hg2; [|by apply private_384]. unfold private. rewrite Hg1. by apply (Ht g').
Qed.

Lemma holds_key_unique d f k k' : holds_key d f k → holds_key d f k' → k = k'.
Proof. intros (_ & _ & _ & p & H1 & H2) (_ & _ & _ & p' & H3 & H4). congruence. Qed.

(** A stored pair is loaded by a daemon that starts. *)
Lemma stored_key_loads d e s f k : is_disk s !! identity_path d = Some f → holds_key d f k → ie_read e = None → is_identity s = None →
  load_or_generate_identity d e s = (mk_id_state (is_disk s) (Some k), Ok k).
Proof.
  intros Hf (Hp & Hl & _ & p & Hd & Hh) Hr Hi.
  unfold load_or_generate_identity, get, mbind, cmd_bind at 1. rewrite Hi, Hf, bool_decide_true by done.
  unfold load_identity, read_identity_blob, fails_with. unfold_monad. rewrite Hf, Hr. cbn [ok_or].
  destruct (_ <? _) eqn:H1; [nlia|]. unfold private in Hp. rewrite Hp. cbn.
  rewrite Hd, Hh. done.
Qed.

Lemma load_disk d e s : is_disk (load_identity d e s).1 = is_disk s.
Proof.
  unfold load_identity, read_identity_blob, fails_with, set_identity. unfold_monad.
  destruct (is_disk s !! _) as [f|]; cbn [ok_or]; [|done]. destruct (_ <? _); [done|]. destruct (negb _); [done|].
  destruct (ie_read e); [done|]. destruct (decrypt_bytes d _) as [p|]; [|done]. by destruct (hybrid_from_bytes p).
Qed.

Lemma cleanup_lookup e m n : is_archive n = false → cleanup e m !! n = m !! n.
Proof.
  intros Hn. unfold cleanup. destruct (ie_listing e); [|done].
  destruct (m !! n) as [f|] eqn:Hf.
  - apply map_lookup_filter_Some. split; [done|]. unfold expired. simpl. by rewrite Hn.
  - apply map_lookup_filter_None. by left.
Qed.
Lemma not_archive d : is_archive (identity_path d) = false ∧ is_archive (tmp_path d) = false.
Proof.
  unfold is_archive. rewrite !andb_false_iff. split; right; apply not_true_is_false; intros H;
    apply (ends_with_last _ _ "."%char) in H; try done;
    rewrite ?identity_path_eq, ?tmp_path_eq, !bytes_of_app, !last_app in H; done.
Qed.

Lemma archive_old_ok d e s : id_inv d s → id_inv d (archive_old d e s).1.
Proof.
  intros Hs. unfold archive_old, fails_with, on_disk. unfold_monad.
  destruct (is_disk s !! identity_path d) as [f|] eqn:Hf; [|done].
  destruct (ie_archive e); [done|]. cbn. destruct (not_archive d) as [Hi Ht]. split; cbn [is_disk]; intros g.
  - rewrite cleanup_lookup, lookup_insert_ne, lookup_delete_eq by (done || apply archive_not_identity). done.
  - rewrite cleanup_lookup, lookup_insert_ne, lookup_delete_ne; [apply (ii_tmp d s Hs)|..]; try done;
      [apply not_eq_sym, tmp_not_identity|apply archive_not_tmp].
Qed.

(** The daemon's life: loads, rotations and restarts, with any failures. *)
Inductive id_step (d : IdentityDaemon) : IdState → IdState → Prop :=
| step_load e s : env_wf e → id_step d s (load_or_generate_identity d e s).1
| step_rotate e s : env_wf e → id_step d s (rotate_identity d e s).1
| step_restart s : id_step d s (mk_id_state (is_disk s) None).

Lemma load_or_generate_eq d e s : load_or_generate_identity d e s =
  match is_identity s with
  | Some id => (s, Ok id)
  | None => if bool_decide (is_Some (is_disk s !! identity_path d)) then load_identity d e s else generate_and_store d e s
  end.
Proof. unfold load_or_generate_identity. unfold_monad. destruct (is_identity s); [done|]. by case_bool_decide. Qed.

Lemma load_step_ok d e s : env_wf e → node_wf d → id_inv d s →
  let r := load_or_generate_identity d e s in id_inv d r.1 ∧
  (is_identity s = None → ∀ k, r.2 = Ok k → ∃ f, is_disk r.1 !! identity_path d = Some f ∧ holds_key d f k).
Proof.
  intros He Hn Hs. cbn zeta. rewrite load_or_generate_eq.
  destruct (is_identity s) as [k0|] eqn:Hi; [done|]. case_bool_decide as Hf.
  - pose proof (load_disk d e s) as Hl. split.
    + destruct Hs as [H1 H2]. split; rewrite Hl; done.
    + intros _ k Hk. destruct Hf as [f Hf]. destruct (ii_file d s Hs f Hf) as [k' Hk'].
      rewrite Hl. exists f. split; [done|].
      assert (k = k') as ->; [|done]. revert Hk. destruct Hk' as (_ & _ & _ & p & Hd & Hh).
      unfold load_identity, read_identity_blob, fails_with, set_identity. unfold_monad. rewrite Hf. cbn [ok_or].
      destruct (_ <? _); [done|]. destruct (negb _); [done|]. destruct (ie_read e); [done|].
      rewrite Hd, Hh. by intros [= ->].
  - destruct (generate_and_store_ok d e s He Hn Hs) as [H1 H2]. split; [done|]. intros _ k Hk. by apply H2.
Qed.

Lemma rotate_step_ok d e s : env_wf e → node_wf d → id_inv d s →
  let r := rotate_identity d e s in id_inv d r.1 ∧
  (∀ k, r.2 = Ok k → ∃ f, is_disk r.1 !! identity_path d = Some f ∧ holds_key d f k).
Proof.
  intros He Hn Hs. unfold rotate_identity, mbind, cmd_bind. pose proof (archive_old_ok d e s Hs) as Ha.
  destruct (archive_old d e s) as [s1 [[]|x]]; cbn [fst snd] in *; [|done].
  destruct (generate_and_store_ok d e s1 He Hn Ha) as [H1 H2]. split; [done|]. intros k Hk. by apply H2.
Qed.

Lemma id_step_inv d s t : node_wf d → id_step d s t → id_inv d s → id_inv d t.
Proof.
  intros Hn Hst Hs. destruct Hst as [e s He|e s He|s].
  - by apply load_step_ok.
  - by apply rotate_step_ok.
  - by destruct Hs.
Qed.

(** C17 (invariant). Starting from a directory without an identity, and through any
    number of loads, rotations and restarts, whichever opens, writes, fsyncs,
    renames or reads fail on the way: an identity file that exists is private and
    holds one whole key pair, sealed, which every daemon that then starts loads
    as long as the read works. A rotation or a first load that reports a key pair
    has left exactly that pair in the file. No slice of any buffer panics. *)
Theorem identity_file_whole d m s : node_wf d →
  m !! identity_path d = None → m !! tmp_path d = None → steps (id_step d) (mk_id_state m None) s →
  (∀ f, is_disk s !! identity_path d = Some f → private f ∧ ∃ k, hybrid_wf k ∧
     ∀ e, ie_read e = None → (load_or_generate_identity d e (mk_id_state (is_disk s) None)).2 = Ok k) ∧
  (∀ e k s', env_wf e →
     rotate_identity d e s = (s', Ok k) ∨ (is_identity s = None ∧ load_or_generate_identity d e s = (s', Ok k)) →
     ∀ e', ie_read e' = None → (load_or_generate_identity d e' (mk_id_state (is_disk s') None)).2 = Ok k) ∧
  (∀ b, hybrid_from_bytes b ≠ Err Panics).
Proof.
  intros Hn Hm1 Hm2 Hr. assert (id_inv d s) as Hs.
  { refine (steps_invariant _ (id_inv d) _ _ _ Hr _).
    - intros a b Ha Hab. by eapply id_step_inv.
    - split; simpl; intros f Hf; congruence. }
  split; [|split; [|apply hybrid_from_bytes_total]].
  - intros f Hf. destruct (ii_file d s Hs f Hf) as [k Hk]. split; [apply Hk|]. exists k. split; [apply Hk|].
    intros e He. by rewrite (stored_key_loads d e (mk_id_state (is_disk s) None) f k).
  - intros e k s' He H e' He'.
    assert (∃ f, is_disk s' !! identity_path d = Some f ∧ holds_key d f k) as (f & Hf & Hk).
    { destruct H as [H|[Hi H]].
      - destruct (rotate_step_ok d e s He Hn Hs) as [_ H2]. rewrite H in H2. by apply H2.
      - destruct (load_step_ok d e s He Hn Hs) as [_ H2]. rewrite H in H2. by apply H2. }
    by rewrite (stored_key_loads d e' (mk_id_state (is_disk s') None) f k).
Qed.

(** A rotation that fails after archiving leaves no identity: the daemon goes on with the
    pair in memory, and the next one to start generates another. *)
Lemma failed_rotation_orphans d e s f x : is_disk s !! identity_path d = Some f → ie_archive e = None → ie_open e = Some x →
  is_disk (rotate_identity d e s).1 !! identity_path d = None ∧ is_identity (rotate_identity d e s).1 = is_identity s.
Proof.
  intros Hf Ha Ho.
  assert (archive_old d e s = (mk_id_state (cleanup e (<[archive_path d (ie_now e) := f]> (delete (identity_path d) (is_disk s)))) (is_identity s), Ok tt)) as E.
  { unfold archive_old, fails_with, on_disk. unfold_monad. by rewrite Hf, Ha. }
  assert (is_disk (archive_old d e s).1 !! identity_path d = None) as Hgone.
  { rewrite E. cbn [fst is_disk]. rewrite cleanup_lookup by apply not_archive.
    rewrite lookup_insert_ne by apply archive_not_identity. apply lookup_delete_eq. }
  unfold rotate_identity, mbind, cmd_bind. rewrite E in *. cbn [fst] in *.
  unfold generate_and_store, mbind, cmd_bind, lift.
  destruct (generate_hybrid _ _); [|done]. cbn [refuse map_err].
  destruct (encrypt_bytes _ _ _); [|done]. cbn [refuse map_err].
  unfold atomic_write, fails_with. rewrite Ho. done.
Qed.
End files.
