(* ===== verification/IdentityServer.v ===== *)
(** * The identity daemon's endpoints ([vault-identityd]: [lib.rs], [main.rs])

    The router with its authentication layer, the handlers, and the commands. A
    reply's JSON is the value that is serialised. *)
From S2P Require Import Prelude RustStr RustParse Errors Identity HybridEnvelope KeyIdentity Frost IdentityDaemon.
Local Open Scope N_scope.

Record IdentityInfo := mk_info {
  ii_node_id : string; ii_ed25519_public : string; ii_ml_dsa65_public : string; ii_created_at : N; ii_expires_at : N }.
Record SvidInfo := mk_svid { sv_note : string; sv_spiffe_id : string; sv_ed25519_public : string; sv_ml_dsa65_public : string }.
Record SignEndpointResponse := mk_sign_response { sr_message : string; sr_ed25519_signature : string; sr_ml_dsa65_signature : string }.
Record HealthResponse := mk_health { hr_status : string; hr_node_id : string; hr_has_identity : bool; hr_identity_created_at : option N }.
Inductive Body :=
| BError (error : string)
| BInfo (info : IdentityInfo)
| BSvid (svid : SvidInfo)
| BSigned (r : SignEndpointResponse)
| BHealth (h : HealthResponse)
| BText (t : string).
Record Reply := mk_reply { rp_status : N; rp_body : Body }.

Definition AUTH_HEADER : string := "X-Vault-Auth-Token".
Definition MAX_SIGN_MESSAGE_BYTES : N := 32768.
Definition DOMAIN_SEP_IDENTITY : string := "kerosene-identity-sign-v1".
Definition DOMAIN_SEP_AUDIT : string := "kerosene-audit-sign-v1".

Inductive SignOp := OpIdentity | OpAudit.
Definition from_label (label : string) : option SignOp :=
  if String.eqb label "identity" then Some OpIdentity else if String.eqb label "audit" then Some OpAudit else None.
Definition domain_sep (op : SignOp) : string := match op with OpIdentity => DOMAIN_SEP_IDENTITY | OpAudit => DOMAIN_SEP_AUDIT end.

Record SignEndpointBody := mk_sign_body {
  sb_message : string;
  sb_op_type : string;
  sb_policy_hash : option string;
  sb_caller_id : option string;
  sb_nonce : string;
  sb_timestamp_secs : N;
}.

(** The message that is signed. *)
Definition bar : bytes := bytes_of "|".
Definition bound_message (op : SignOp) (req : SignEndpointBody) (nonce_bytes message_bytes : bytes) : bytes :=
  bytes_of (domain_sep op) ++ bar ++ bytes_of (sb_op_type req) ++ bar ++ nonce_bytes ++ bar
  ++ le_bytes 8 (sb_timestamp_secs req) ++ bar ++ bytes_of (default "none" (sb_policy_hash req)) ++ bar
  ++ bytes_of (default "unknown" (sb_caller_id req)) ++ bar ++ message_bytes.

Section server.
Context `{SH : Sha256, AL : AeadLib, EL : Ed25519Lib, ML : MlDsaLib, HC : HexCodec}.

(** A handler over the daemon's state; an error is a panic. *)
Definition ok_reply (b : Body) : Reply := mk_reply 200 b.
Definition server_error (e : IdentityError) : Reply := mk_reply 500 (BError (fmt_identity_error e)).
Definition info_of (id : HybridKeyPair) : IdentityInfo :=
  mk_info (hk_node_id id) (hex_encode (public_key (hk_ed25519 id))) (hex_encode (public_key (hk_ml_dsa65 id)))
    (hk_created_at id) (hk_expires_at id).
(** The daemon's operation under the lock; its key pair, described. *)
Definition keyed (c : cmd Stop IdState HybridKeyPair) : cmd string IdState Reply := λ s,
  match c s with
  | (t, Ok id) => (t, Ok (ok_reply (BInfo (info_of id))))
  | (t, Err (Refused e)) => (t, Ok (server_error e))
  | (t, Err Panics) => (t, Err "range end index out of range")
  end.
Definition handle_generate (d : IdentityDaemon) (e : IdEnv) := keyed (load_or_generate_identity d e).
Definition handle_rotate (d : IdentityDaemon) (e : IdEnv) := keyed (rotate_identity d e).
Definition current_reply (s : IdState) (f : HybridKeyPair → Body) : Reply :=
  match current_identity s with
  | Ok id => ok_reply (f id)
  | Err IdentityNotFound => mk_reply 404 (BError "identity not found")
  | Err e => server_error e
  end.
Definition handle_current (s : IdState) : Reply := current_reply s (λ id, BInfo (info_of id)).
Definition handle_certificate (s : IdState) : Reply := current_reply s (λ id, BSvid
  {| sv_note := "SPIFFE SVID certificate — placeholder (wire to SPIRE agent for full x509)";
     sv_spiffe_id := format "spiffe://kerosene.lab/vault/{}" [hk_node_id id];
     sv_ed25519_public := hex_encode (public_key (hk_ed25519 id));
     sv_ml_dsa65_public := hex_encode (public_key (hk_ml_dsa65 id)) |}).
Definition handle_health (d : IdentityDaemon) (s : IdState) : Reply :=
  let '(has, created) := match current_identity s with Ok id => (true, Some (hk_created_at id)) | Err _ => (false, None) end in
  ok_reply (BHealth (mk_health "ok" (dm_node_id d) has created)).

Definition bad_request (t : string) (args : list string) : Reply := mk_reply 400 (BError (format t args)).
Definition handle_sign (now_secs : N) (req : SignEndpointBody) (s : IdState) : Reply :=
  if MAX_SIGN_MESSAGE_BYTES <? str_len (sb_message req) then
    mk_reply 413 (BError (format "message too large: {} bytes (max {})" [show (str_len (sb_message req)); show MAX_SIGN_MESSAGE_BYTES]))
  else
    match from_label (to_ascii_lowercase (sb_op_type req)) with
    | None => bad_request "invalid sign op_type '{}'; allowed: identity, audit" [sb_op_type req]
    | Some op =>
        if String.eqb (trim (sb_nonce req)) "" then bad_request "nonce is required for replay protection" []
        else
          match hex_decode (trim (sb_nonce req)) with
          | Err _ => bad_request "nonce must be 8-64 hex-encoded bytes" []
          | Ok nonce_bytes =>
              if negb ((8 <=? len nonce_bytes) && (len nonce_bytes <=? 64)) then
                bad_request "nonce must be 8-64 hex-encoded bytes" []
              else
                let ts_lower := sat_sub now_secs 300 in
                let ts_upper := sat_add64 now_secs 300 in
                if (sb_timestamp_secs req <? ts_lower) || (ts_upper <? sb_timestamp_secs req) then
                  bad_request "timestamp {} is outside allowed clock skew ({} to {})"
                    [show (sb_timestamp_secs req); show ts_lower; show ts_upper]
                else
                  match hex_decode (sb_message req) with
                  | Err e => bad_request "invalid hex message: {}" [e]
                  | Ok message_bytes =>
                      match daemon_sign s (bound_message op req nonce_bytes message_bytes) with
                      | Err e => server_error e
                      | Ok sg => ok_reply (BSigned
                          {| sr_message := format "signed with domain separation ({})" [domain_sep op];
                             sr_ed25519_signature := hex_encode (hs_ed25519 sg);
                             sr_ml_dsa65_signature := hex_encode (hs_ml_dsa65 sg) |})
                      end
                  end
          end
    end.

(* ------------------------------------------------------------------ *)
(** ** The router *)

Inductive Route := RGenerate | RCurrent | RRotate | RCertificate | RSign | RHealth.
Definition routes : list (string * string * Route) :=
  [("POST", "/v1/identities/generate", RGenerate); ("GET", "/v1/identities/current", RCurrent);
   ("POST", "/v1/identities/rotate", RRotate); ("GET", "/v1/identities/certificate", RCertificate);
   ("POST", "/v1/identities/sign", RSign); ("GET", "/v1/health", RHealth)].
(** Routes under the [route_layer]. *)
Definition protected (r : Route) : bool := match r with RHealth => false | _ => true end.

Record Request := mk_request {
  rq_method : string;
  rq_path : string;
  rq_auth : option string;         (** the header's value, when it is there and a string *)
  rq_body : bytes;
}.
(** [parse]: the [Json] extractor, with the status and text of its rejections. *)
Record Server := mk_server { sv_daemon : IdentityDaemon; sv_auth_token : string }.
Definition server_new (d : IdentityDaemon) (auth_token : option string) : result string Server :=
  match auth_token with
  | Some t => Ok (mk_server d t)
  | None => Err "FATAL: VAULT_IDENTITY_AUTH_TOKEN is required. The identity daemon will NOT start without an auth token (fail-closed). Set VAULT_IDENTITY_AUTH_TOKEN in the environment."
  end.
Definition check_auth (sv : Server) (auth : option string) : result N unit :=
  match auth with
  | Some token => if String.eqb token (sv_auth_token sv) then Ok tt else Err 401
  | None => Err 401
  end.
Definition unauthorized : Reply := mk_reply 401 (BError "unauthorized").
Definition pure_reply (f : IdState → Reply) : cmd string IdState Reply := λ s, (s, Ok (f s)).
Definition call_route (sv : Server) (parse : bytes → result (N * string) SignEndpointBody) (e : IdEnv) (r : Route) (body : bytes) :
    cmd string IdState Reply :=
  match r with
  | RGenerate => handle_generate (sv_daemon sv) e
  | RCurrent => pure_reply handle_current
  | RRotate => handle_rotate (sv_daemon sv) e
  | RCertificate => pure_reply handle_certificate
  | RSign => pure_reply (λ s, match parse body with Ok req => handle_sign (ie_now e) req s | Err rej => mk_reply rej.1 (BText rej.2) end)
  | RHealth => pure_reply (handle_health (sv_daemon sv))
  end.
Definition find_route (method path : string) : result N Route :=
  match filter (λ r, r.1.2 = path) routes with
  | [] => Err 404
  | here => match List.find (λ r, String.eqb r.1.1 method) here with Some r => Ok r.2 | None => Err 405 end
  end.
(** The layer runs on every matched path, the method's fallback included. *)
Definition path_protected (path : string) : bool := existsb (λ r, String.eqb r.1.2 path && protected r.2) routes.
Definition serve (sv : Server) (parse : bytes → result (N * string) SignEndpointBody) (e : IdEnv) (rq : Request) : cmd string IdState Reply :=
  if path_protected (rq_path rq) && negb (is_ok (check_auth sv (rq_auth rq))) then pure_reply (λ _, unauthorized)
  else
    match find_route (rq_method rq) (rq_path rq) with
    | Err code => pure_reply (λ _, mk_reply code (BText ""))
    | Ok r => call_route sv parse e r (rq_body rq)
    end.

(* ------------------------------------------------------------------ *)
(** ** The commands of [main.rs]: the lines printed and the exit code; an error is a panic *)

Inductive Command :=
| Serve (socket store_path : string) (auth_token : option string) (node_id : string)
| GenerateIdentity (node_id store_path : string)
| RotateIdentity (node_id store_path : string)
| Status (socket : string).
(** [mkdir], [env_passphrase]: as in [daemon_new]; [exits]: why the server's loop ended, if with an error;
    [health]: the answer of [http://localhost/v1/health], the socket notwithstanding. *)
Record Outer := mk_outer { ou_mkdir : option string; ou_passphrase : option string; ou_exits : option string; ou_health : result string string }.
Definition start_daemon (o : Outer) (node_id : string) : result string IdentityDaemon :=
  map_err (λ x, format "failed to initialize identity daemon: {}" [fmt_identity_error x]) (daemon_new node_id (ou_mkdir o) (ou_passphrase o)).
Definition print_key (verb ed ml : string) (c : cmd Stop IdState HybridKeyPair) : cmd string IdState (list string * N) := λ s,
  match c s with
  | (t, Ok id) => (t, Ok ([format "Identity {} for node: {}" [verb; hk_node_id id];
      format "{} public key: {}" [ed; hex_encode (public_key (hk_ed25519 id))];
      format "{} public key: {}" [ml; hex_encode (public_key (hk_ml_dsa65 id))]], 0))
  | (t, Err (Refused x)) => (t, Ok ([format "Failed to {} identity: {}" [if String.eqb verb "rotated" then "rotate" else "generate"; fmt_identity_error x]], 1))
  | (t, Err Panics) => (t, Err "range end index out of range")
  end.
Definition run_command (o : Outer) (e : IdEnv) (c : Command) : cmd string IdState (list string * N) :=
  match c with
  | Serve _ _ auth_token node_id =>
      d ← lift (start_daemon o node_id);
      _ ← lift (server_new d auth_token);
      mret match ou_exits o with Some x => ([format "identity daemon exited with error: {}" [x]], 1) | None => ([], 0) end
  | GenerateIdentity node_id _ =>
      d ← lift (start_daemon o node_id);
      print_key "generated" "Ed25519" "ML-DSA-65" (load_or_generate_identity d e)
  | RotateIdentity node_id _ =>
      d ← lift (start_daemon o node_id);
      print_key "rotated" "New Ed25519" "New ML-DSA-65" (rotate_identity d e)
  | Status socket =>
      mret match ou_health o with
           | Ok body => ([format "Daemon status: {}" [body]], 0)
           | Err x => ([format "Failed to query daemon at {}: {}" [socket; x]], 1)
           end
  end.

(* ------------------------------------------------------------------ *)
(** ** What the endpoints give *)

Lemma find_route_in method path r : find_route method path = Ok r → (method, path, r) ∈ routes.
Proof.
  unfold find_route. destruct (filter _ routes) as [|x l] eqn:Hf; [done|].
  destruct (List.find _ (x :: l)) as [[[m p] r']|] eqn:Hr; [|done]. intros [= <-].
  apply find_some in Hr as [Hin Hm]. apply String.eqb_eq in Hm. simpl in Hm. subst m.
  rewrite <- Hf in Hin. apply list_elem_of_In, list_elem_of_filter in Hin as [Hp Hin]. simpl in Hp. by subst p.
Qed.
Lemma route_protected method path r : (method, path, r) ∈ routes → protected r = true → path_protected path = true.
Proof.
  intros Hin Hp. unfold path_protected. apply existsb_exists. exists (method, path, r).
  split; [by apply list_elem_of_In|]. simpl. by rewrite String.eqb_refl.
Qed.

Definition authorized (sv : Server) (rq : Request) : Prop := rq_auth rq = Some (sv_auth_token sv).
Lemma check_auth_ok sv auth : is_ok (check_auth sv auth) = true ↔ auth = Some (sv_auth_token sv).
Proof.
  unfold check_auth. destruct auth as [t|]; [|done]. destruct (String.eqb t _) eqn:H.
  - apply String.eqb_eq in H. naive_solver.
  - apply String.eqb_neq in H. naive_solver.
Qed.

(** What a reply of the layer and the routes is. *)
Lemma serve_cases sv parse e rq s :
  (path_protected (rq_path rq) = true ∧ ¬ authorized sv rq ∧ serve sv parse e rq s = (s, Ok unauthorized)) ∨
  (∃ code, serve sv parse e rq s = (s, Ok (mk_reply code (BText "")))) ∨
  (∃ r, (rq_method rq, rq_path rq, r) ∈ routes ∧ (protected r = true → authorized sv rq) ∧
     serve sv parse e rq s = call_route sv parse e r (rq_body rq) s).
Proof.
  unfold serve. destruct (path_protected (rq_path rq)) eqn:Hp; simpl.
  - destruct (is_ok (check_auth sv (rq_auth rq))) eqn:Ha; simpl.
    + apply check_auth_ok in Ha. right. destruct (find_route _ _) as [r|c] eqn:Hr; [right|left; by eexists].
      apply find_route_in in Hr. by exists r.
    + left. split; [done|]. split; [|done]. intros H%check_auth_ok. congruence.
  - right. destruct (find_route _ _) as [r|c] eqn:Hr; [right|left; by eexists].
    apply find_route_in in Hr. exists r. split; [done|]. split; [|done]. intros H.
    rewrite (route_protected _ _ _ Hr H) in Hp. done.
Qed.

Lemma keyed_unsigned c s t rep r : keyed c s = (t, Ok rep) → rp_body rep ≠ BSigned r.
Proof. unfold keyed. by destruct (c s) as [t' [id|[x|]]]; intros; simplify_eq. Qed.

(** The requests the endpoint signs. *)
Record signs (now : N) (s : IdState) (req : SignEndpointBody) (op : SignOp) (nonce msg : bytes) (sg : HybridSignature) : Prop := {
  sg_op : from_label (to_ascii_lowercase (sb_op_type req)) = Some op;
  sg_size : str_len (sb_message req) ≤ MAX_SIGN_MESSAGE_BYTES;
  sg_nonce : hex_decode (trim (sb_nonce req)) = Ok nonce ∧ 8 ≤ len nonce ≤ 64;
  sg_fresh : now ≤ sb_timestamp_secs req + 300 ∧ sb_timestamp_secs req ≤ now + 300;
  sg_message : hex_decode (sb_message req) = Ok msg;
  sg_signature : ∃ id, is_identity s = Some id ∧ sign_hybrid id (bound_message op req nonce msg) = Ok sg;
}.
Lemma handle_sign_signs now req s r : rp_body (handle_sign now req s) = BSigned r →
  ∃ op nonce msg sg, signs now s req op nonce msg sg ∧
    r = {| sr_message := format "signed with domain separation ({})" [domain_sep op];
           sr_ed25519_signature := hex_encode (hs_ed25519 sg); sr_ml_dsa65_signature := hex_encode (hs_ml_dsa65 sg) |}.
Proof.
  unfold handle_sign. destruct (_ <? _) eqn:Hsize; [done|].
  destruct (from_label _) as [op|] eqn:Hop; [|done]. destruct (String.eqb _ ""); [done|].
  destruct (hex_decode (trim _)) as [nonce|] eqn:Hn; [|done]. destruct (negb _) eqn:Hlen; [done|].
  destruct (_ || _) eqn:Ht; [done|]. destruct (hex_decode (sb_message req)) as [msg|] eqn:Hm; [|done].
  unfold daemon_sign, current_identity. destruct (is_identity s) as [id|] eqn:Hi; [|done]. cbn [ok_or].
  unfold mbind, result_bind. destruct (sign_hybrid id _) as [sg|] eqn:Hsg; [|done]. cbn [rp_body ok_reply]. intros [= <-].
  exists op, nonce, msg, sg. split; [|done]. unfold sat_sub, sat_add64 in *.
  apply negb_false_iff in Hlen. split; try done; try nlia; [split; [done|nlia]|by exists id].
Qed.

(** The nonce is asked for and forgotten: within the window the same request is signed again. *)
Lemma replay_accepted now now' req s r :
  rp_body (handle_sign now req s) = BSigned r → now' ≤ sb_timestamp_secs req + 300 → sb_timestamp_secs req ≤ now' + 300 →
  sb_timestamp_secs req ≤ u64_max → rp_body (handle_sign now' req s) = BSigned r.
Proof.
  unfold handle_sign. destruct (_ <? _) eqn:Hsize; [done|].
  destruct (from_label _) as [op|] eqn:Hop; [|done]. destruct (String.eqb _ ""); [done|].
  destruct (hex_decode (trim _)) as [nonce|] eqn:Hn; [|done]. destruct (negb _) eqn:Hlen; [done|].
  destruct ((_ <? sat_sub now 300) || _); [done|]. intros H H1 H2 H3.
  destruct (_ || _) eqn:Ht; [|done]. unfold sat_sub, sat_add64 in Ht. nlia.
Qed.
(** The fields are joined by bars that they may contain. *)
Lemma bound_message_ambiguous op ty nonce ts m n : ∃ a b,
  a ≠ b ∧ bound_message op (mk_sign_body m ty (Some "p|c") (Some "d") nonce ts) n a = bound_message op (mk_sign_body m ty (Some "p") (Some "c|d") nonce ts) n a
  ∧ bound_message op (mk_sign_body m ty (Some "p") (Some "c") nonce ts) n (bytes_of "d|" ++ a) = bound_message op (mk_sign_body m ty (Some "p") (Some "c|d") nonce ts) n a.
Proof. exists [], (bytes_of "x"). split; [done|]. by unfold bound_message. Qed.

End server.
