(* ===== verification/SeedStore.v ===== *)
(** * A mesh node's hybrid identity and its seeds ([adapters/identity_hybrid.rs])

    Genesis of the signing and transport keys, the roster entry, and the seeds in a
    share store. The random bytes and the clock are arguments. *)
From S2P Require Import Prelude RustStr Errors Identity HybridEnvelope KeyIdentity Frost.
Local Open Scope N_scope.

(** [domain/peer.rs]. *)
Record PeerIdentity := mk_peer_identity {
  pi_node_id : NodeId; pi_ed25519_public : bytes; pi_ml_dsa65_public : bytes; pi_x25519_public : bytes;
  pi_ml_kem768_public : bytes; pi_created_at : N }.
Record HybridIdentity := mk_hybrid_identity {
  hi_node_id : NodeId;
  hi_ed25519_public : bytes; hi_ed25519_secret : bytes;
  hi_ml_dsa65_public : bytes; hi_ml_dsa65_secret : bytes;
  hi_x25519_public : bytes; hi_x25519_secret : bytes;
  hi_ml_kem768_public : bytes; hi_ml_kem768_secret : bytes;
  hi_created_at : N; hi_expires_at : N }.

(** [x25519_dalek::PublicKey::from]. *)
Class X25519Lib := x25519_public : bytes → bytes.

(** What genesis draws: the signing keys' entropy, 32 random bytes, the ephemeral
    secret of the X25519 key, and the two ML-KEM blobs. *)
Record GenesisDraw := mk_draw { gd_ed : bytes; gd_ml : bytes; gd_x_bytes : bytes; gd_x_ephemeral : bytes; gd_kem_pub : bytes; gd_kem_sec : bytes }.

Section seeds.
Context `{EL : Ed25519Lib, ML : MlDsaLib, XL : X25519Lib}.

(** [now]: the clock, with the error's default. *)
Definition genesis (node_id : NodeId) (g : GenesisDraw) (now : N) : res HybridIdentity :=
  ed_id ← map_err (λ e, ThresholdError (format "ed25519 genesis: {}" [fmt_identity_error e])) (generate (gd_ed g));
  ml_id ← map_err (λ e, ThresholdError (format "ml-dsa65 genesis: {}" [fmt_identity_error e])) (generate (gd_ml g));
  Ok {| hi_node_id := node_id;
        hi_ed25519_public := public_key (T:=Ed25519Identity) ed_id; hi_ed25519_secret := secret_key (T:=Ed25519Identity) ed_id;
        hi_ml_dsa65_public := public_key (T:=MlDsa65Identity) ml_id; hi_ml_dsa65_secret := secret_key (T:=MlDsa65Identity) ml_id;
        hi_x25519_public := x25519_public (gd_x_ephemeral g); hi_x25519_secret := gd_x_bytes g;
        hi_ml_kem768_public := gd_kem_pub g; hi_ml_kem768_secret := gd_kem_sec g;
        hi_created_at := now; hi_expires_at := 0 |}.
Definition to_peer_identity (k : HybridIdentity) : PeerIdentity :=
  mk_peer_identity (hi_node_id k) (hi_ed25519_public k) (hi_ml_dsa65_public k) (hi_x25519_public k) (hi_ml_kem768_public k) (hi_created_at k).

Definition seed_share_id (node_id label : string) : string := format "identity/{}/{}" [label; node_id].
Definition seed_aad (share_id node_id : string) (key_epoch : N) : bytes :=
  bytes_of "kerosene-vault-seed-aad-v1|" ++ bytes_of share_id ++ bytes_of "|" ++ bytes_of node_id ++ bytes_of "|" ++ le_bytes 8 key_epoch.

Section store.
Context {T : Type} `{ST : !ShareStore T}.

(** [for (label, data) in ..]: the seeds written, in order; the epoch is not used. *)
Definition seeds_of (k : HybridIdentity) : list (string * bytes) :=
  [("ed25519", hi_ed25519_secret k); ("ml-dsa65", hi_ml_dsa65_secret k); ("x25519", hi_x25519_secret k);
   ("ml-kem768", hi_ml_kem768_secret k); ("ed25519-pub", hi_ed25519_public k); ("x25519-pub", hi_x25519_public k)].
Fixpoint put_seeds (nid : string) (l : list (string * bytes)) : dcmd T unit :=
  match l with
  | [] => mret tt
  | (label, data) :: rest => _ ← put_share (seed_share_id nid label) data; put_seeds nid rest
  end.
Definition persist_seeds (k : HybridIdentity) (key_epoch : N) : dcmd T unit := put_seeds (node_str (hi_node_id k)) (seeds_of k).

Definition seed_min_len (label : string) : N :=
  if String.eqb label "ed25519" || String.eqb label "x25519" then 32
  else if String.eqb label "ml-dsa65" then 4032 else if String.eqb label "ml-kem768" then 2400 else 1.
(** An error of the store is "no seed", unless its text names one of two variants. *)
Definition load_seed (nid label : string) (key_epoch : N) : dcmd T (option bytes) := λ s,
  match get_share (seed_share_id nid label) s with
  | (t, Ok data) =>
      if len data <? seed_min_len label then
        (t, Err (ShareStoreForbidden (format "loaded seed {} is too short: {} < {}" [label; show (len data); show (seed_min_len label)])))
      else (t, Ok (Some data))
  | (t, Err e) =>
      if contains_str "TeeRequired" (fmt_error e) || contains_str "TpmRequired" (fmt_error e) then (t, Err e) else (t, Ok None)
  end.

(** The first 32 bytes as an array: [[..32]] of a shorter vector panics, reported as [None]. *)
Definition array_32 (v : bytes) : option bytes := if 32 <=? len v then Some (take 32 v) else None.
(** [None]: a panic. *)
Definition assemble (node_id : NodeId) (now : N) (ed ml x kem ed_pub x_pub : bytes) : option HybridIdentity :=
  ed_pub' ← array_32 ed_pub;
  x_pub' ← array_32 x_pub;
  ed' ← array_32 ed;
  x' ← array_32 x;
  Some (mk_hybrid_identity node_id ed_pub' ed' [] ml x_pub' x' [] kem now 0).
(** The seeds of these labels, or [None] at the first that is missing. *)
Fixpoint load_all (nid : string) (key_epoch : N) (labels : list string) : dcmd T (option (list bytes)) :=
  match labels with
  | [] => mret (Some [])
  | label :: rest =>
      o ← load_seed nid label key_epoch;
      match o with
      | None => mret None
      | Some v => l ← load_all nid key_epoch rest; mret ((λ vs, v :: vs) <$> l)
      end
  end.
Definition load_seeds (node_id : NodeId) (key_epoch now : N) : dcmd T (option (option HybridIdentity)) :=
  l ← load_all (node_str node_id) key_epoch ["ed25519"; "ml-dsa65"; "x25519"; "ml-kem768"; "ed25519-pub"; "x25519-pub"];
  mret match l with
       | Some [ed; ml; x; kem; ed_pub; x_pub] => Some <$> assemble node_id now ed ml x kem ed_pub x_pub
       | _ => Some None
       end.

(* ------------------------------------------------------------------ *)
(** ** What is read back *)

Context `{SS : !ShareStoreSpec T}.

Lemma seed_share_id_eq nid a : seed_share_id nid a = "identity/" +:+ (a +:+ ("/" +:+ (nid +:+ ""))).
Proof. reflexivity. Qed.
Lemma seed_id_inj nid a b : seed_share_id nid a = seed_share_id nid b → a = b.
Proof.
  rewrite !seed_share_id_eq. intros H. apply (f_equal bytes_of) in H. rewrite !(bytes_of_app "identity/") in H.
  apply app_inv_head in H. rewrite !(bytes_of_app a), !(bytes_of_app b) in H.
  apply app_inv_tail in H. by apply bytes_of_inj.
Qed.

Lemma put_seeds_holds nid l s : working s → NoDup l.*1 →
  ∃ t, put_seeds nid l s = (t, Ok tt) ∧ working t ∧
    (∀ label data, (label, data) ∈ l → share_at t (seed_share_id nid label) = Some data) ∧
    (∀ id, (∀ label, label ∈ l.*1 → id ≠ seed_share_id nid label) → share_at t id = share_at s id).
Proof.
  revert s. induction l as [|[a x] l IH]; intros s Hs Hnd; cbn [put_seeds].
  - exists s. split; [done|]. split; [done|]. split; [|done]. intros label data H. by apply elem_of_nil in H.
  - apply NoDup_cons in Hnd as [Ha Hnd]. destruct (put_ok s (seed_share_id nid a) x Hs) as (s1 & E & Hs1 & Hat).
    destruct (IH s1 Hs1 Hnd) as (t & E' & Ht & Hin & Hout).
    unfold mbind, cmd_bind. rewrite E. exists t. split; [exact E'|]. split; [done|]. split.
    + intros label data. rewrite elem_of_cons. intros [[= -> ->]|H]; [|by apply Hin].
      rewrite Hout, Hat, decide_True; [done|done|]. intros b Hb Hab. apply seed_id_inj in Hab. by subst b.
    + intros id Hid. rewrite Hout, Hat, decide_False; [done| |].
      * apply Hid. by left.
      * intros b Hb. apply Hid. by right.
Qed.

Lemma load_seed_ok nid label ep s data : share_at s (seed_share_id nid label) = Some data → seed_min_len label ≤ len data →
  load_seed nid label ep s = (s, Ok (Some data)).
Proof. intros Hd Hl. unfold load_seed. rewrite (get_ok s _ _ Hd). destruct (_ <? _) eqn:H; [nlia|done]. Qed.

Lemma load_all_ok nid ep l s : (∀ label data, (label, data) ∈ l →
    share_at s (seed_share_id nid label) = Some data ∧ seed_min_len label ≤ len data) →
  load_all nid ep l.*1 s = (s, Ok (Some l.*2)).
Proof.
  induction l as [|[a x] l IH]; intros Hl; [done|]. cbn [fmap list_fmap fst snd load_all].
  destruct (Hl a x) as [Hd Hm]; [by left|]. unfold mbind, cmd_bind. rewrite (load_seed_ok _ _ _ _ _ Hd Hm).
  rewrite IH; [done|]. intros b y Hb. apply Hl. by right.
Qed.

(** The public keys of the post-quantum schemes are not among the seeds, and the times are not kept. *)
Definition reloaded (k : HybridIdentity) (now : N) : HybridIdentity :=
  mk_hybrid_identity (hi_node_id k) (hi_ed25519_public k) (hi_ed25519_secret k) [] (hi_ml_dsa65_secret k)
    (hi_x25519_public k) (hi_x25519_secret k) [] (hi_ml_kem768_secret k) now 0.
Definition seeds_sized (k : HybridIdentity) : Prop :=
  len (hi_ed25519_secret k) = 32 ∧ len (hi_x25519_secret k) = 32 ∧ len (hi_ed25519_public k) = 32 ∧ len (hi_x25519_public k) = 32
  ∧ 4032 ≤ len (hi_ml_dsa65_secret k) ∧ 2400 ≤ len (hi_ml_kem768_secret k).
Lemma array_32_ok v : len v = 32 → array_32 v = Some v.
Proof. intros H. unfold array_32. rewrite H. simpl. f_equal. apply take_ge. unfold len in H. lia. Qed.

Lemma seeds_reload k ep ep' now s : working s → seeds_sized k →
  ∃ t, persist_seeds k ep s = (t, Ok tt) ∧ working t ∧
    load_seeds (hi_node_id k) ep' now t = (t, Ok (Some (Some (reloaded k now)))).
Proof.
  intros Hs (H1 & H2 & H3 & H4 & H5 & H6).
  destruct (put_seeds_holds (node_str (hi_node_id k)) (seeds_of k) s Hs) as (t & E & Ht & Hin & _).
  { apply (bool_decide_unpack _). vm_compute. exact I. }
  exists t. split; [exact E|]. split; [done|].
  unfold load_seeds. change ["ed25519"; "ml-dsa65"; "x25519"; "ml-kem768"; "ed25519-pub"; "x25519-pub"] with (seeds_of k).*1.
  unfold mbind at 1, cmd_bind. rewrite load_all_ok.
  - cbn [seeds_of fmap list_fmap snd]. unfold assemble. rewrite !array_32_ok by done. done.
  - intros a x Ha. split; [by apply Hin|]. unfold seeds_of in Ha. rewrite !elem_of_cons in Ha.
    destruct Ha as [H|[H|[H|[H|[H|[H|H]]]]]]; [injection H as -> ->; vm_compute (seed_min_len _); lia..|by apply elem_of_nil in H].
Qed.

(** The texts of the two errors name no variant: a store whose TEE or TPM refuses reads as one without seeds. *)
Lemma refusing_store_is_empty nid label ep s t : get_share (seed_share_id nid label) s = (t, Err (TeeRequired "sealing key unavailable")) ∨
  get_share (seed_share_id nid label) s = (t, Err (TpmRequired "sealing key unavailable")) → load_seed nid label ep s = (t, Ok None).
Proof. unfold load_seed. by intros [-> | ->]. Qed.
(** Genesis: the X25519 secret kept is not the one of the public key. *)
Lemma genesis_x25519_unrelated node_id g now k : genesis node_id g now = Ok k →
  hi_x25519_secret k = gd_x_bytes g ∧ hi_x25519_public k = x25519_public (gd_x_ephemeral g).
Proof.
  unfold genesis. rewrite bind_ok. intros (ed & _ & H). rewrite bind_ok in H. by destruct H as (ml & _ & [= <-]).
Qed.
End store.
End seeds.
