(* ===== verification/TeeAttestation.v ===== *)
(** * Attestation by a trusted execution environment ([adapters/attestation_tee])

    The quote envelope ([quote.rs]), the SEV-SNP and SGX report paths ([sev_snp.rs],
    [sgx.rs]) and the adapter ([mod.rs]). The features of the build are an argument;
    the guest device and [sev-snp-utilities] are external. *)
From S2P Require Import Prelude RustStr RustParse Errors Identity HybridEnvelope Frost ConfigEnv.
Local Open Scope N_scope.

(* ------------------------------------------------------------------ *)
(** ** [HwQuoteEnvelope] *)

Definition QUOTE_MAGIC : bytes := bytes_of "KVAQTEE1".
Definition QUOTE_VERSION : N := 1.
Definition PLATFORM_SEV : N := 1.
Definition PLATFORM_SGX : N := 2.
Record HwQuoteEnvelope := mk_hw_quote { he_platform : N; he_measurement : Measurement; he_report : bytes }.

Definition looks_like (blob : bytes) : bool := (8 <=? len blob) && bool_decide (take 8 blob = QUOTE_MAGIC).
Definition byte_of (n : N) : ascii := Ascii.ascii_of_N n.
Definition hw_encode (e : HwQuoteEnvelope) : bytes :=
  QUOTE_MAGIC ++ [byte_of QUOTE_VERSION; byte_of (he_platform e)] ++ bytes_of (as_hex (he_measurement e))
  ++ be32 (len (he_report e) mod 4294967296) ++ he_report e.
(** The byte at an index below the length checked first. *)
Definition nth_byte (i : nat) (b : bytes) : N := byte_n (nth i b "000"%char).
Definition rejected {A} (t : string) (args : list string) : res A := Err (AttestationRejected (format t args)).
Definition hw_decode (blob : bytes) : res HwQuoteEnvelope :=
  if len blob <? 8 + 1 + 1 + 64 + 4 then rejected "HW quote envelope too short" []
  else if negb (bool_decide (take 8 blob = QUOTE_MAGIC)) then rejected "HW quote magic mismatch" []
  else if negb (nth_byte 8 blob =? QUOTE_VERSION) then rejected "unsupported HW quote version {}" [show (nth_byte 8 blob)]
  else
    let platform := nth_byte 9 blob in
    if negb (platform =? PLATFORM_SEV) && negb (platform =? PLATFORM_SGX) then rejected "unknown HW quote platform {}" [show platform]
    else
      meas_hex ← ok_or (from_utf8 (take 64 (drop 10 blob))) (AttestationRejected "HW quote measurement not ascii hex");
      measurement ← measurement_from_hex meas_hex;
      let report_len := from_be32 (take 4 (drop 74 blob)) in
      if negb (len blob =? 78 + report_len) then rejected "HW quote report length mismatch" []
      else Ok (mk_hw_quote platform measurement (drop 78 blob)).

(* ------------------------------------------------------------------ *)
(** ** SEV-SNP: what is called of the guest device and of [sev-snp-utilities] *)

Class SnpLib := {
  SnpReport : Type;
  snp_device : bool;                                    (** [/dev/sev-guest] exists *)
  snp_request_raw : bytes → result string bytes;
  snp_from_reader : bytes → result string SnpReport;
  snp_report_data : SnpReport → bytes;
  snp_verify : SnpReport → result string bool;          (** certificate chain and signature *)
  snp_derived_key : result string bytes;
}.

(** [Sha384::digest], its 48 bytes. *)
Class Sha384Raw := sha384_raw : bytes → bytes.
(** Reached by no code. *)
Definition measurement_report_data_bind `{!Sha384Raw} (constitution_bytes : bytes) (measurement : Measurement) : res bytes :=
  Ok (sha384_raw (constitution_bytes ++ bytes_of (as_hex measurement)) ++ replicate 16 "000"%char).

Section sev.
Context `{HC : HexCodec, SL : SnpLib}.

(** [measurement_report_data]: the digest, then 32 zeros. *)
Definition measurement_report_data (measurement : Measurement) : res bytes :=
  digest ← map_err (λ e, AttestationRejected (format "SEV-SNP measurement hex decode: {}" [e])) (hex_decode (as_hex measurement));
  if negb (len digest =? 32) then rejected "SEV-SNP measurement must be 32-byte SHA-256" []
  else Ok (digest ++ replicate 32 "000"%char).
Definition sev_issue_report (ft : Features) (measurement : Measurement) : res bytes :=
  if ft_tee_hw ft then
    if negb snp_device then Err (TeeRequired "SEV-SNP quote issue: /dev/sev-guest missing (fail-closed without HW)")
    else
      user_data ← measurement_report_data measurement;
      map_err (λ e, AttestationRejected (format "SEV-SNP request_raw failed: {}" [e])) (snp_request_raw user_data)
  else rejected "SEV-SNP hardware quote unavailable: rebuild with --features tee_hw (CI fail-closed without HW)" [].
Definition sev_verify_report_structure (measurement : Measurement) (report : bytes) : res unit :=
  match report with
  | [] => rejected "SEV-SNP report empty" []
  | _ =>
      parsed ← map_err (λ e, AttestationRejected (format "SEV-SNP report parse failed: {}" [e])) (snp_from_reader report);
      expected ← measurement_report_data measurement;
      if (len (snp_report_data parsed) <? 32) || negb (bool_decide (take 32 (snp_report_data parsed) = take 32 expected)) then
        rejected "SEV-SNP REPORT_DATA measurement mismatch" []
      else
        verified ← map_err (λ e, AttestationRejected (format "SEV-SNP verify failed: {}" [e])) (snp_verify parsed);
        if negb verified then rejected "SEV-SNP report verification failed" [] else Ok tt
  end.
Definition sev_verify_report (ft : Features) (measurement : Measurement) (report : bytes) : res unit :=
  if ft_tee_hw ft then sev_verify_report_structure measurement report
  else rejected "SEV-SNP hardware verify unavailable: rebuild with --features tee_hw (CI fail-closed without HW)" [].

(** [SevTcbVersion] and its check; the violations are listed in this order. *)
Record SevTcbVersion := mk_sev_tcb { boot_loader : N; tee : N; snp : N; microcode : N }.
Definition SEV_MINIMUM : SevTcbVersion := mk_sev_tcb 0 0 0 0.
Definition sev_violations (reported minimum : SevTcbVersion) : list string :=
  (if boot_loader reported <? boot_loader minimum then ["boot_loader"] else [])
  ++ (if tee reported <? tee minimum then ["tee"] else [])
  ++ (if snp reported <? snp minimum then ["snp"] else [])
  ++ (if microcode reported <? microcode minimum then ["microcode"] else []).
Definition sev_tcb_debug (v : SevTcbVersion) : string :=
  format "SevTcbVersion {{ boot_loader: {}, tee: {}, snp: {}, microcode: {} }}" [show (boot_loader v); show (tee v); show (snp v); show (microcode v)].
Definition validate_tcb_version (reported minimum : SevTcbVersion) : res unit :=
  match sev_violations reported minimum with
  | [] => Ok tt
  | v => rejected "SEV-SNP TCB version rollback: {} (reported={} < minimum={})" [join ", " v; sev_tcb_debug reported; sev_tcb_debug minimum]
  end.
Definition vcek_chain_url (product chip_id : string) : string := format "https://kdsintf.amd.com/vcek/v1/{}/{}" [product; chip_id].
End sev.

(* ------------------------------------------------------------------ *)
(** ** SGX: fails closed with and without the feature *)

Definition sgx_issue_report (ft : Features) (measurement : Measurement) : res bytes :=
  if ft_tee_hw ft then
    rejected "SGX quote issue: tee_hw compiled but DCAP quote generation not linked (fail-closed). Requires SGX SDK + DCAP driver. See Item 2.4 in VAULT_IMPLEMENTATION_PLAN.md." []
  else rejected "SGX hardware quote unavailable: rebuild with --features tee_hw (CI fail-closed without HW)" [].
Definition sgx_verify_report (ft : Features) (measurement : Measurement) (report : bytes) : res unit :=
  if ft_tee_hw ft then
    match report with
    | [] => rejected "SGX quote empty" []
    | _ => rejected "SGX quote verify: tee_hw path structured but DCAP/QE collateral verify not linked (fail-closed). See VAULT_IMPLEMENTATION_PLAN.md Item 2.4 for integration requirements." []
    end
  else rejected "SGX hardware verify unavailable: rebuild with --features tee_hw (CI fail-closed without HW)" [].
Record SgxTcbVersion := mk_sgx_tcb { cpu_svn : list N; pce_svn : N; qe_svn : N }.
Definition SGX_MINIMUM : SgxTcbVersion := mk_sgx_tcb (replicate 16 0) 0 0.
(** The loop over the zipped arrays, from index [i]. *)
Fixpoint cpu_svn_check (i : N) (reported minimum : list N) : res unit :=
  match reported, minimum with
  | r :: rs, m :: ms =>
      if r <? m then rejected "SGX TCB cpu_svn[{}] rollback: reported={} < minimum={}" [show i; show r; show m]
      else cpu_svn_check (i + 1) rs ms
  | _, _ => Ok tt
  end.
Definition validate_sgx_tcb (reported minimum : SgxTcbVersion) : res unit :=
  _ ← cpu_svn_check 0 (cpu_svn reported) (cpu_svn minimum);
  if pce_svn reported <? pce_svn minimum then
    rejected "SGX TCB pce_svn rollback: reported={} < minimum={}" [show (pce_svn reported); show (pce_svn minimum)]
  else if qe_svn reported <? qe_svn minimum then
    rejected "SGX TCB qe_svn rollback: reported={} < minimum={}" [show (qe_svn reported); show (qe_svn minimum)]
  else Ok tt.
Definition INTEL_PCS_BASE_URL : string := "https://api.trustedservices.intel.com/sgx/certification/v4".
Definition INTEL_PCS_TCB_PATH : string := "/tcb".
Definition INTEL_PCS_PCKCERT_PATH : string := "/pckcert".
Definition intel_pcs_tcb_url (fmspc : string) : string := format "{}{}?fmspc={}" [INTEL_PCS_BASE_URL; INTEL_PCS_TCB_PATH; fmspc].

(* ------------------------------------------------------------------ *)
(** ** [TeeAttestationAdapter] *)

Record TeeAttestationAdapter := mk_tee {
  ta_mode : AttestationMode;
  ta_staging_stub : bool;
  ta_refuse_stub : bool;
  ta_platform_root : bytes;
  ta_pinned_measurement : Measurement;
  ta_allowlisted_hbs : list ContentHash;
}.
Definition tee_with_policy (mode : AttestationMode) (staging_stub refuse_stub : bool) (platform_root : bytes)
    (pinned : Measurement) (allowlisted_hbs : list ContentHash) : res TeeAttestationAdapter :=
  if negb (attestation_is_tee mode) then rejected "TeeAttestationAdapter requires sev or sgx mode" []
  else if refuse_stub && staging_stub then Err (LabFlagForbidden "ATTESTATION_STAGING_STUB in production ceremony")
  else Ok (mk_tee mode staging_stub refuse_stub platform_root pinned allowlisted_hbs).
Definition tee_new (mode : AttestationMode) (staging_stub : bool) (platform_root : bytes) (pinned : Measurement) : res TeeAttestationAdapter :=
  tee_with_policy mode staging_stub false platform_root pinned [].
Definition set_allowlisted_hbs (hbs : list ContentHash) (a : TeeAttestationAdapter) : TeeAttestationAdapter :=
  mk_tee (ta_mode a) (ta_staging_stub a) (ta_refuse_stub a) (ta_platform_root a) (ta_pinned_measurement a) hbs.

Section adapter.
Context `{SH : Sha256, HC : HexCodec, SL : SnpLib}.

Definition stub_tag (a : TeeAttestationAdapter) : string :=
  match ta_mode a with AttSev => "kerosene-vault-sev-stub-v1" | AttSgx => "kerosene-vault-sgx-stub-v1" | _ => "invalid" end.
Definition stub_mac (a : TeeAttestationAdapter) (measurement : Measurement) : bytes :=
  bytes_of (as_hex (measurement_from_bytes (bytes_of (stub_tag a) ++ ta_platform_root a ++ bytes_of (as_hex measurement)
    ++ bytes_of "|pin|" ++ bytes_of (as_hex (ta_pinned_measurement a))))).
Definition enforce_measurement (a : TeeAttestationAdapter) (measurement : Measurement) : res unit :=
  if negb (admits_attestation_measurement measurement (ta_pinned_measurement a) (ta_allowlisted_hbs a)) then
    if negb (bool_decide (measurement = ta_pinned_measurement a)) then Err MeasurementMismatch
    else Err (NotAllowlisted (as_hex measurement))
  else Ok tt.
Definition platform_code (a : TeeAttestationAdapter) : N :=
  match ta_mode a with AttSev => PLATFORM_SEV | AttSgx => PLATFORM_SGX | _ => 0 end.
Definition issue_hw_quote (ft : Features) (a : TeeAttestationAdapter) (measurement : Measurement) : res AttestationQuote :=
  report ← match ta_mode a with
           | AttSev => sev_issue_report ft measurement
           | AttSgx => sgx_issue_report ft measurement
           | _ => Err SimAttestationForbidden
           end;
  Ok {| quote_mode := ta_mode a; quote_measurement := measurement;
        quote_blob := hw_encode (mk_hw_quote (platform_code a) measurement report) |}.
Definition verify_hw_quote (ft : Features) (a : TeeAttestationAdapter) (quote : AttestationQuote) : res unit :=
  env ← hw_decode (quote_blob quote);
  if negb (he_platform env =? platform_code a) then
    rejected "HW quote platform byte {} != adapter {}" [show (he_platform env); attestation_mode_str (ta_mode a)]
  else if negb (bool_decide (he_measurement env = quote_measurement quote)) then
    rejected "HW quote envelope measurement != quote.measurement" []
  else
    _ ← enforce_measurement a (he_measurement env);
    match ta_mode a with
    | AttSev => sev_verify_report ft (he_measurement env) (he_report env)
    | AttSgx => sgx_verify_report ft (he_measurement env) (he_report env)
    | _ => Err SimAttestationForbidden
    end.
Definition stub_path_allowed (a : TeeAttestationAdapter) : bool := ta_staging_stub a && negb (ta_refuse_stub a).
Definition tee_issue_quote (ft : Features) (a : TeeAttestationAdapter) (measurement : Measurement) : res AttestationQuote :=
  _ ← enforce_measurement a measurement;
  if stub_path_allowed a then
    Ok {| quote_mode := ta_mode a; quote_measurement := measurement; quote_blob := stub_mac a measurement |}
  else if ta_refuse_stub a then issue_hw_quote ft a measurement
  else rejected "{} hardware quote unavailable (set ATTESTATION_STAGING_STUB=1 for staging only; production requires --features tee_hw + platform)"
         [attestation_mode_str (ta_mode a)].
Definition tee_verify_quote (ft : Features) (a : TeeAttestationAdapter) (quote : AttestationQuote) : res unit :=
  if is_software_measurement (quote_mode quote) then rejected "TEE adapter rejects software/sim quotes" []
  else if negb (bool_decide (quote_mode quote = ta_mode a)) then
    rejected "quote mode {} != adapter {}" [attestation_mode_str (quote_mode quote); attestation_mode_str (ta_mode a)]
  else
    _ ← enforce_measurement a (quote_measurement quote);
    if looks_like (quote_blob quote) then verify_hw_quote ft a quote
    else if negb (stub_path_allowed a) then
      if ta_refuse_stub a then Err (LabFlagForbidden "ATTESTATION_STAGING_STUB in production ceremony")
      else rejected "{} hardware verify unavailable (CI fail-closed without --features tee_hw; staging may set ATTESTATION_STAGING_STUB=1)"
             [attestation_mode_str (ta_mode a)]
    else if negb (bool_decide (stub_mac a (quote_measurement quote) = quote_blob quote)) then
      rejected "TEE staging stub quote mac mismatch" []
    else Ok tt.

(* ------------------------------------------------------------------ *)
(** ** The envelope is read back *)

Lemma measurement_from_hex_own m : str_len (as_hex m) = 64 → forallb is_lower_hexdigit (bytes_of (as_hex m)) = true →
  measurement_from_hex (as_hex m) = Ok m.
Proof.
  intros Hl Hx. unfold measurement_from_hex. rewrite Hl.
  assert (forallb is_ascii_hexdigit (bytes_of (as_hex m)) = true) as ->.
  { rewrite forallb_forall in *. intros x Hin. by apply lower_is_hexdigit, Hx. }
  simpl. f_equal. destruct m as [h]. simpl in *. f_equal. unfold to_ascii_lowercase.
  rewrite <- (str_of_bytes_of h) at 2. f_equal. rewrite <- (map_id (bytes_of h)) at 2. apply map_ext_in.
  intros a Ha. rewrite forallb_forall in Hx. by apply lower_char_lower, Hx.
Qed.

(** What the types guarantee of an envelope. *)
Record hw_wf (e : HwQuoteEnvelope) : Prop := {
  hw_platform : he_platform e = PLATFORM_SEV ∨ he_platform e = PLATFORM_SGX;
  hw_hex : str_len (as_hex (he_measurement e)) = 64 ∧ forallb is_lower_hexdigit (bytes_of (as_hex (he_measurement e))) = true;
  hw_len : len (he_report e) < 4294967296;
}.

Lemma hw_round_trip e : hw_wf e → hw_decode (hw_encode e) = Ok e ∧ looks_like (hw_encode e) = true.
Proof.
  intros [Hp [Hl Hx] Hr]. destruct e as [p m r]. simpl in *. unfold hw_encode. cbn [he_platform he_measurement he_report].
  rewrite N.mod_small by done. set (h := bytes_of (as_hex m)) in *.
  assert (length h = 64%nat) as Hh by (unfold h; rewrite length_bytes_of; unfold str_len in Hl; lia).
  assert (∀ t : bytes, looks_like (QUOTE_MAGIC ++ t) = true) as Hlook.
  { intros t. unfold looks_like. rewrite len_app. change (len QUOTE_MAGIC) with 8.
    rewrite (proj2 (N.leb_le 8 _)) by lia. change (take 8 (QUOTE_MAGIC ++ t)) with QUOTE_MAGIC. by rewrite bool_decide_true. }
  split; [|apply Hlook]. set (b := QUOTE_MAGIC ++ [byte_of QUOTE_VERSION; byte_of p] ++ h ++ be32 (len r) ++ r).
  assert (len b = 78 + len r) as Hb.
  { unfold b. rewrite !len_app. change (len QUOTE_MAGIC) with 8. change (len [byte_of QUOTE_VERSION; byte_of p]) with 2.
    change (len (be32 (len r))) with 4. unfold len at 1. rewrite Hh. lia. }
  unfold hw_decode. rewrite Hb. destruct (_ <? _) eqn:H1; [nlia|]. clear H1.
  change (take 8 b) with QUOTE_MAGIC. rewrite bool_decide_true by done.
  change (nth_byte 8 b =? QUOTE_VERSION) with true. cbn [negb].
  assert (nth_byte 9 b = p) as ->.
  { change (nth_byte 9 b) with (byte_n (byte_of p)). apply byte_n_ascii. unfold PLATFORM_SEV, PLATFORM_SGX in Hp. lia. }
  destruct (negb (p =? PLATFORM_SEV) && negb (p =? PLATFORM_SGX)) eqn:H2; [by destruct Hp as [-> | ->]|].
  change (drop 10 b) with (h ++ be32 (len r) ++ r). rewrite (take_app_length' _ _ _ (eq_sym Hh)).
  unfold mbind, result_bind.
  replace (from_utf8 h) with (Some (as_hex m))
    by (symmetry; apply from_utf8_plain, (plain_impl is_lower_hexdigit); [apply lower_hexdigit_plain|exact Hx]).
  cbn [ok_or]. rewrite measurement_from_hex_own by done.
  change (drop 74 b) with (drop 64 (h ++ be32 (len r) ++ r)). change (drop 78 b) with (drop 68 (h ++ be32 (len r) ++ r)).
  rewrite (drop_app_length' h _ 64 (eq_sym Hh)). change (take 4 (be32 (len r) ++ r)) with (be32 (len r)).
  rewrite from_be32_be32, N.eqb_refl by done. cbn [negb].
  rewrite drop_app_ge, Hh by lia. done.
Qed.

Lemma rejected_ok {A} t args (x : A) : rejected t args ≠ Ok x.
Proof. done. Qed.
Lemma enforce_ok a m : enforce_measurement a m = Ok tt ↔
  m = ta_pinned_measurement a ∧ (ta_allowlisted_hbs a = [] ∨ ∃ hb, hb ∈ ta_allowlisted_hbs a ∧ ch_str hb = as_hex m).
Proof.
  unfold enforce_measurement, admits_attestation_measurement. case_bool_decide as Hm; simpl; [|naive_solver].
  destruct (ta_allowlisted_hbs a) as [|x l]; [naive_solver|].
  destruct (existsb _ (x :: l)) eqn:He; cbn [negb].
  - apply existsb_exists in He as (hb & Hin & Heq). apply String.eqb_eq in Heq. split; [|done]. intros _. split; [done|].
    right. exists hb. split; [by apply list_elem_of_In|done].
  - split; [done|]. intros [_ [?|(hb & Hin & Heq)]]; [done|].
    apply not_true_iff_false in He. destruct He. apply existsb_exists. exists hb.
    split; [by apply list_elem_of_In|]. rewrite Heq. apply String.eqb_refl.
Qed.

Definition report_bound (m : Measurement) (report : bytes) : Prop :=
  ∃ parsed expected, snp_from_reader report = Ok parsed ∧ measurement_report_data m = Ok expected ∧
    32 ≤ len (snp_report_data parsed) ∧ take 32 (snp_report_data parsed) = take 32 expected ∧ snp_verify parsed = Ok true.
Lemma sev_verify_ok ft m report : sev_verify_report ft m report = Ok tt ↔ ft_tee_hw ft = true ∧ report ≠ [] ∧ report_bound m report.
Proof.
  unfold sev_verify_report, report_bound. destruct (ft_tee_hw ft); [|naive_solver].
  unfold sev_verify_report_structure. destruct report as [|x r]; [naive_solver|].
  split.
  - intros H. apply bind_ok in H as (parsed & Hp & H). apply bind_ok in H as (expected & He & H).
    split; [done|]. split; [done|]. exists parsed, expected.
    destruct (snp_from_reader (x :: r)); [|done]. injection Hp as ->.
    destruct (_ || _) eqn:Hc; [done|]. apply orb_false_iff in Hc as [H1 H2]. apply negb_false_iff, bool_decide_eq_true in H2.
    destruct (snp_verify parsed) as [[]|]; [|done..]. split_and!; try done; nlia.
  - intros (_ & _ & parsed & expected & Hp & He & Hl & Ht & Hv). unfold mbind, result_bind.
    rewrite Hp. cbn [map_err]. rewrite He, Ht, bool_decide_true, Hv by done.
    destruct (_ <? 32) eqn:H1; [nlia|done].
Qed.
Lemma sgx_verify_never ft m report : sgx_verify_report ft m report ≠ Ok tt.
Proof. unfold sgx_verify_report. destruct (ft_tee_hw ft); [|done]. by destruct report. Qed.

Lemma verify_hw_ok ft a q : verify_hw_quote ft a q = Ok tt →
  ta_mode a = AttSev ∧ ft_tee_hw ft = true ∧ ∃ env, hw_decode (quote_blob q) = Ok env ∧ he_platform env = PLATFORM_SEV ∧
    he_measurement env = quote_measurement q ∧ report_bound (quote_measurement q) (he_report env).
Proof.
  unfold verify_hw_quote. rewrite bind_ok. intros (env & He & H).
  destruct (negb (_ =? _)) eqn:Hp; [done|]. apply negb_false_iff, N.eqb_eq in Hp.
  destruct (negb (bool_decide _)) eqn:Hm; [done|]. apply negb_false_iff, bool_decide_eq_true in Hm.
  apply bind_ok in H as ([] & _ & H). unfold platform_code in Hp.
  destruct (ta_mode a); [done..| |by apply sgx_verify_never in H].
  apply sev_verify_ok in H as (Hf & _ & Hr). rewrite Hm in Hr. split; [done|]. split; [done|]. by exists env.
Qed.

(** A stub's code is the text of a digest, and no envelope. *)
Lemma stub_not_envelope `{SS : !Sha256Spec} a m : looks_like (stub_mac a m) = false.
Proof.
  unfold looks_like, stub_mac. set (h := measurement_from_bytes _). apply andb_false_iff. right.
  apply bool_decide_eq_false. intros H.
  assert (forallb is_lower_hexdigit (bytes_of (as_hex h)) = true) as Hx by apply sha256_hex_lower.
  destruct (bytes_of (as_hex h)) as [|x l]; [done|]. injection H as -> _. done.
Qed.

(** What the library promises of reports of this guest. *)
Class SnpSpec : Prop := {
  snp_own_report d r : snp_request_raw d = Ok r → r ≠ [] ∧ len r < 4294967296 ∧
    ∃ p, snp_from_reader r = Ok p ∧ snp_report_data p = d ∧ snp_verify p = Ok true;
}.

Lemma issue_verifies `{SS : !Sha256Spec, SP : !SnpSpec} ft a m q :
  str_len (as_hex (ta_pinned_measurement a)) = 64 → forallb is_lower_hexdigit (bytes_of (as_hex (ta_pinned_measurement a))) = true →
  tee_issue_quote ft a m = Ok q → attestation_is_tee (ta_mode a) = true → tee_verify_quote ft a q = Ok tt.
Proof.
  intros Hl Hx Hi Ht. unfold tee_issue_quote in Hi. apply bind_ok in Hi as ([] & He & Hi).
  assert (m = ta_pinned_measurement a) as Hm by (by apply enforce_ok in He as [? _]).
  assert (is_software_measurement (ta_mode a) = false) as Hs by (by destruct (ta_mode a)).
  unfold tee_verify_quote. destruct (stub_path_allowed a) eqn:Hst.
  - injection Hi as <-. cbn [quote_mode quote_measurement quote_blob]. rewrite Hs, bool_decide_true by done. cbn [negb].
    unfold mbind, result_bind. rewrite He, stub_not_envelope. cbn [negb]. by rewrite bool_decide_true.
  - destruct (ta_refuse_stub a); [|done]. unfold issue_hw_quote in Hi. apply bind_ok in Hi as (report & Hr & [= <-]).
    cbn [quote_mode quote_measurement quote_blob]. rewrite Hs, bool_decide_true by done. cbn [negb].
    unfold mbind at 1, result_bind at 1. rewrite He.
    destruct (ta_mode a) eqn:Hmode; [done..| |by unfold sgx_issue_report in Hr; destruct (ft_tee_hw ft)].
    unfold sev_issue_report in Hr. destruct (ft_tee_hw ft) eqn:Hf; [|done]. destruct (negb snp_device); [done|].
    apply bind_ok in Hr as (d & Hd & Hr). destruct (snp_request_raw d) as [r|] eqn:Hq; [|done]. injection Hr as ->.
    destruct (snp_own_report d report Hq) as (Hne & Hlen & p & Hp & Hpd & Hv).
    destruct (hw_round_trip (mk_hw_quote (platform_code a) m report)) as [Hdec Hlook].
    { split; simpl; [left; unfold platform_code; by rewrite Hmode|by rewrite Hm|done]. }
    rewrite Hlook. unfold verify_hw_quote. cbn [quote_blob quote_measurement]. rewrite Hdec.
    unfold mbind, result_bind. cbn [he_platform he_measurement he_report]. rewrite N.eqb_refl, bool_decide_true by done.
    cbn [negb]. rewrite He, Hmode. apply sev_verify_ok. split; [done|]. split; [done|].
    exists p, d. rewrite Hpd. split_and!; try done.
    unfold measurement_report_data in Hd. apply bind_ok in Hd as (dg & _ & Hd).
    destruct (negb (len dg =? 32)) eqn:Hn; [done|]. injection Hd as <-. rewrite len_app. nlia.
Qed.

(** C14 (safety). The TEE adapter accepts a quote only in its own mode, for exactly the
    pinned measurement, which must be allowlisted when there is an allowlist, and
    either as a staging stub's code (never when stubs are refused, as in a production
    ceremony) or as an SEV-SNP report, in a build with hardware support, whose
    signature verifies and whose report data is the measurement's digest. Quotes it
    issues itself it accepts; SGX quotes and builds without hardware support fail closed. *)
Theorem tee_quotes_bound `{SS : !Sha256Spec, SP : !SnpSpec} ft mode staging refuse root pin hbs a q :
  tee_with_policy mode staging refuse root pin hbs = Ok a →
  str_len (as_hex pin) = 64 → forallb is_lower_hexdigit (bytes_of (as_hex pin)) = true →
  (tee_verify_quote ft a q = Ok tt →
     quote_mode q = mode ∧ quote_measurement q = pin ∧ (hbs = [] ∨ ∃ hb, hb ∈ hbs ∧ ch_str hb = as_hex pin) ∧
     ((staging = true ∧ refuse = false ∧ quote_blob q = stub_mac a pin) ∨
      (mode = AttSev ∧ ft_tee_hw ft = true ∧ ∃ env, hw_decode (quote_blob q) = Ok env ∧ he_platform env = PLATFORM_SEV ∧
         he_measurement env = pin ∧ report_bound pin (he_report env)))) ∧
  (∀ m, tee_issue_quote ft a m = Ok q → tee_verify_quote ft a q = Ok tt).
Proof.
  intros Ha Hl Hx. unfold tee_with_policy in Ha. destruct (negb (attestation_is_tee mode)) eqn:Ht; [done|].
  apply negb_false_iff in Ht. destruct (refuse && staging) eqn:Hrs; [done|]. injection Ha as <-.
  split; [|intros m Hm; by eapply issue_verifies].
  unfold tee_verify_quote. destruct (is_software_measurement _); [done|].
  destruct (negb (bool_decide _)) eqn:Hmode; [done|]. apply negb_false_iff, bool_decide_eq_true in Hmode. simpl in Hmode.
  rewrite bind_ok. intros ([] & He & H). apply enforce_ok in He as [Hm Hh]. simpl in Hm, Hh. rewrite Hm in *.
  split; [done|]. split; [done|]. split; [done|]. destruct (looks_like (quote_blob q)).
  - right. apply verify_hw_ok in H as (H1 & H2 & env & H3 & H4 & H5 & H6). rewrite Hm in *. simpl in H1. split; [done|]. split; [done|]. by exists env.
  - left. destruct (stub_path_allowed _) eqn:Hst; cbn [negb] in H; [|by destruct (ta_refuse_stub _)].
    unfold stub_path_allowed in Hst. simpl in Hst. apply andb_true_iff in Hst as [-> Hr]. apply negb_true_iff in Hr.
    destruct (negb (bool_decide _)) eqn:Hmac; [done|]. by apply negb_false_iff, bool_decide_eq_true in Hmac.
Qed.

(** The TCB checks: every component at least its minimum. *)
Lemma validate_tcb_version_spec r m : validate_tcb_version r m = Ok tt ↔
  boot_loader m ≤ boot_loader r ∧ tee m ≤ tee r ∧ snp m ≤ snp r ∧ microcode m ≤ microcode r.
Proof.
  unfold validate_tcb_version, sev_violations.
  destruct (boot_loader r <? boot_loader m) eqn:H1, (tee r <? tee m) eqn:H2, (snp r <? snp m) eqn:H3, (microcode r <? microcode m) eqn:H4;
    simpl; (split; [intros H; try done; nlia|intros H; try done; exfalso; nlia]).
Qed.
(** The minimum of the source is zero everywhere: no version is refused. *)
Lemma sev_minimum_admits_all r : validate_tcb_version r SEV_MINIMUM = Ok tt.
Proof. apply validate_tcb_version_spec. simpl. lia. Qed.
Lemma cpu_svn_check_ok i r m : cpu_svn_check i r m = Ok tt ↔ ∀ k a b, r !! k = Some a → m !! k = Some b → b ≤ a.
Proof.
  revert i m. induction r as [|x r IH]; intros i m; [simpl; split; [intros _ k a b Ha; by rewrite lookup_nil in Ha|done]|].
  destruct m as [|y m]; [simpl; split; [intros _ k a b _ Hb; by rewrite lookup_nil in Hb|done]|].
  cbn [cpu_svn_check]. unfold rejected. rewrite guard_ok, IH. nbool. split.
  - intros [Hx H] [|k] a b Ha Hb; simpl in Ha, Hb; [by simplify_eq|by eapply H].
  - intros H. split; [by apply (H 0%nat)|]. intros k a b. apply (H (S k)).
Qed.
Lemma validate_sgx_tcb_ok r m : validate_sgx_tcb r m = Ok tt ↔
  (∀ k a b, cpu_svn r !! k = Some a → cpu_svn m !! k = Some b → b ≤ a) ∧ pce_svn m ≤ pce_svn r ∧ qe_svn m ≤ qe_svn r.
Proof.
  unfold validate_sgx_tcb. rewrite bind_ok. split.
  - intros ([] & H1 & H2). pose proof (proj1 (cpu_svn_check_ok _ _ _) H1) as H1'. unfold rejected in H2. rewrite !guard_ok in H2. nbool.
    destruct H2 as (? & ? & _). done.
  - intros (H1 & H2 & H3). exists tt. split; [by apply (cpu_svn_check_ok 0)|]. unfold rejected. rewrite !guard_ok. nbool. done.
Qed.
End adapter.
