(* ===== verification/DurableFs.v ===== *)
(** * Durable writes ([adapters/durable_fs.rs])

    One directory of files together with what a crash may leave of it: the entries
    the directory had since it was last synced, the contents a file had since it was.
    Which calls fail, and how far a failing write got, is the environment's answer. A
    crash inside a write is a failure at that call followed by [crash]. [write_snapshot]
    is the writers' use of it. *)
From S2P Require Import Prelude RustStr Errors.
Local Open Scope N_scope.

(* ------------------------------------------------------------------ *)
(** ** The file system *)

Record Content := mk_content { cached : bytes; earlier : list bytes }.
Record Fs := mk_fs {
  fs_root : option bool;             (** the directory: absent, or whether its own entry is durable *)
  fs_dir : gmap string N;            (** names to inodes *)
  fs_older : list (gmap string N);   (** entries a crash may bring back *)
  fs_data : gmap N Content;
}.
Definition fs_read (s : Fs) (name : string) : option bytes := i ← fs_dir s !! name; cached <$> fs_data s !! i.
Definition set_data (i : N) (c : Content) (s : Fs) : Fs := mk_fs (fs_root s) (fs_dir s) (fs_older s) (<[i := c]> (fs_data s)).

(** [create_dir_all]: nothing makes the new directory's own entry durable. *)
Definition fs_mkdir (s : Fs) : Fs :=
  match fs_root s with None => mk_fs (Some false) (fs_dir s) (fs_older s) (fs_data s) | Some _ => s end.
(** [OpenOptions]: create, write, truncate. The handle is the inode. *)
Definition fs_open (name : string) (s : Fs) : N * Fs :=
  match fs_dir s !! name with
  | Some i => (i, match fs_data s !! i with
                  | Some c => set_data i (mk_content [] (cached c :: earlier c)) s
                  | None => s
                  end)
  | None =>
      let i := fresh (dom (fs_data s)) in
      (i, mk_fs (fs_root s) (<[name := i]> (fs_dir s)) (fs_dir s :: fs_older s) (<[i := mk_content [] []]> (fs_data s)))
  end.
Definition prefixes (b : bytes) : list bytes := (λ n, take n b) <$> seq 0 (length b).
(** Until it is synced a file may hold any part of what was written. *)
Definition fs_write (i : N) (b : bytes) (s : Fs) : Fs :=
  match fs_data s !! i with Some c => set_data i (mk_content b (prefixes b ++ cached c :: earlier c)) s | None => s end.
Definition fs_sync (i : N) (s : Fs) : Fs :=
  match fs_data s !! i with Some c => set_data i (mk_content (cached c) []) s | None => s end.
Definition fs_rename (a b : string) (s : Fs) : Fs :=
  match fs_dir s !! a with
  | Some i => mk_fs (fs_root s) (<[b := i]> (delete a (fs_dir s))) (fs_dir s :: fs_older s) (fs_data s)
  | None => s
  end.
Definition fs_sync_dir (s : Fs) : Fs := mk_fs (fs_root s) (fs_dir s) [] (fs_data s).

(** After a crash: one of the directories and, file by file, one of the contents; a
    directory whose own entry is not durable may be gone with all it held. *)
Inductive crash : Fs → Fs → Prop :=
| crash_to s d (c : N → bytes) : d ∈ fs_dir s :: fs_older s →
    (∀ i x, fs_data s !! i = Some x → c i ∈ cached x :: earlier x) →
    crash s (mk_fs (fs_root s) d [] (map_imap (λ i _, Some (mk_content (c i) [])) (fs_data s)))
| crash_lost s : fs_root s ≠ Some true → crash s (mk_fs None ∅ [] ∅).

(* ------------------------------------------------------------------ *)
(** ** [atomic_write_fsync] *)

(** [None]: the call succeeds. *)
Record FsEnv := mk_fs_env {
  fe_mkdir : option string; fe_open : option string; fe_write : option (string * nat); fe_fsync : option string;
  fe_rename : option string; fe_open_dir : option string; fe_fsync_dir : option string }.
Definition fs_works : FsEnv := mk_fs_env None None None None None None None.

(** [Path::with_extension] on a file name: what follows its last dot, a leading one apart. *)
Fixpoint after_char (c : ascii) (l : bytes) : option bytes :=
  match l with [] => None | x :: r => if Ascii.eqb x c then Some r else after_char c r end.
Definition file_stem (name : string) : string :=
  match after_char "."%char (rev (bytes_of name)) with Some (x :: r) => str_of (rev (x :: r)) | _ => name end.
Definition with_extension (ext name : string) : string := file_stem name +:+ "." +:+ ext.
Definition is_tmp (name : string) : bool := bool_decide (drop (String.length name - 4) (bytes_of name) = bytes_of ".tmp").

Definition forbidden {S A} (t : string) (args : list string) : dcmd S A := fail (ShareStoreForbidden (format t args)).
Definition fs_check {S} (o : option string) (t : string) (args : list string) : dcmd S unit :=
  match o with Some e => forbidden t (args ++ [e]) | None => mret tt end.

Definition fsync_parent (root : string) (e : FsEnv) : dcmd Fs unit :=
  if String.eqb root "" then mret tt
  else
    _ ← fs_check (fe_open_dir e) "open parent {}: {}" [root];
    _ ← fs_check (fe_fsync_dir e) "fsync parent: {}" [];
    update fs_sync_dir.
(** [root.join(name)] is the path; its parent is [root]. *)
Definition atomic_write_fsync (root name : string) (e : FsEnv) (data : bytes) : dcmd Fs unit :=
  _ ← fs_check (fe_mkdir e) "mkdir {}: {}" [root];
  _ ← update fs_mkdir;
  let tmp := with_extension "tmp" name in
  _ ← fs_check (fe_open e) "open tmp with O_NOFOLLOW: {}" [];
  s ← get;
  let '(f, s1) := fs_open tmp s in
  _ ← put s1;
  _ ← update (fs_write f (match fe_write e with Some (_, n) => take n data | None => data end));
  _ ← fs_check (fst <$> fe_write e) "write tmp: {}" [];
  _ ← fs_check (fe_fsync e) "fsync tmp: {}" [];
  _ ← update (fs_sync f);
  _ ← fs_check (fe_rename e) "rename: {}" [];
  _ ← update (fs_rename tmp name);
  fsync_parent root e.

(* ------------------------------------------------------------------ *)
(** ** Names *)

Lemma is_tmp_with_extension name : is_tmp (with_extension "tmp" name) = true.
Proof.
  apply bool_decide_eq_true. unfold with_extension. set (a := file_stem name).
  rewrite !string_length_app, !bytes_of_app. change (String.length "." + String.length "tmp")%nat with 4%nat.
  change (bytes_of "." ++ bytes_of "tmp") with (bytes_of ".tmp").
  rewrite drop_app_length'; [done|]. rewrite length_bytes_of. lia.
Qed.
Lemma not_tmp_suffix (s suffix : string) : String.length suffix = 4%nat → suffix ≠ ".tmp" → is_tmp (s +:+ suffix) = false.
Proof.
  intros Hl Hn. apply bool_decide_eq_false. rewrite string_length_app, bytes_of_app, drop_app_length'.
  - intros He. apply Hn. by rewrite <- (str_of_bytes_of suffix), He.
  - rewrite length_bytes_of. lia.
Qed.
Lemma name_mid_inj (p x y t : string) : p +:+ (x +:+ t) = p +:+ (y +:+ t) → x = y.
Proof.
  intros H. apply (f_equal bytes_of) in H. rewrite !(bytes_of_app p) in H. apply app_inv_head in H.
  rewrite (bytes_of_app x), (bytes_of_app y) in H. apply app_inv_tail in H.
  by rewrite <- (str_of_bytes_of x), H, str_of_bytes_of.
Qed.
#[global] Arguments with_extension : simpl never.
#[global] Arguments is_tmp : simpl never.

(** Names lead to files; an open file is the one its name leads to. *)
Definition fs_sane (s : Fs) : Prop := ∀ name i, fs_dir s !! name = Some i → is_Some (fs_data s !! i).
Lemma fs_open_handle name s i s' : fs_sane s → fs_open name s = (i, s') → fs_dir s' !! name = Some i ∧ is_Some (fs_data s' !! i).
Proof.
  intros H Ho. unfold fs_open in Ho. destruct (fs_dir s !! name) as [j|] eqn:E.
  - destruct (H name j E) as [c Hc]. rewrite Hc in Ho. simplify_eq. simpl. by rewrite lookup_insert_eq.
  - simplify_eq. simpl. by rewrite !lookup_insert_eq.
Qed.
Lemma fs_sane_mkdir s : fs_sane s → fs_sane (fs_mkdir s).
Proof. unfold fs_mkdir. by destruct (fs_root s). Qed.

(* ------------------------------------------------------------------ *)
(** ** What holds of the files whatever fails *)

(** [W name b]: [b] was to be written as [name]. *)
Section whole.
Context (W : string → bytes → Prop).

Record fs_ok (s : Fs) : Prop := {
  ok_whole d name i : d ∈ fs_dir s :: fs_older s → d !! name = Some i → is_tmp name = false →
    ∃ b, fs_data s !! i = Some (mk_content b []) ∧ W name b;
  ok_data d name i : d ∈ fs_dir s :: fs_older s → d !! name = Some i → is_Some (fs_data s !! i);
  ok_inj d a b i : d ∈ fs_dir s :: fs_older s → d !! a = Some i → d !! b = Some i → a = b;
  ok_apart d tmp name i : d ∈ fs_dir s :: fs_older s → fs_dir s !! tmp = Some i → is_tmp tmp = true →
    d !! name = Some i → is_tmp name = true;
}.

Lemma fs_ok_empty root : fs_ok (mk_fs root ∅ [] ∅).
Proof.
  split; simpl; intros d; [intros ? ?|intros ? ?|intros ? ? ?|intros ? ? ?];
    intros ->%list_elem_of_singleton; rewrite ?lookup_empty; done.
Qed.
Lemma fs_ok_root s root : fs_ok s → fs_ok (mk_fs root (fs_dir s) (fs_older s) (fs_data s)).
Proof. intros []. by split. Qed.
Lemma fs_ok_mkdir s : fs_ok s → fs_ok (fs_mkdir s).
Proof. intros H. unfold fs_mkdir. destruct (fs_root s); [done|by apply fs_ok_root]. Qed.

(** A temporary file's contents are no one else's. *)
Lemma fs_ok_set_tmp s tmp i c : fs_ok s → fs_dir s !! tmp = Some i → is_tmp tmp = true → fs_ok (set_data i c s).
Proof.
  intros [Hw Hd Hi Ha] Ht Htmp. split; simpl; [| |done|done].
  - intros d name j Hin Hj Hn. rewrite lookup_insert_ne; [by eapply Hw|]. intros ->.
    by rewrite (Ha d tmp name j Hin Ht Htmp Hj) in Hn.
  - intros d name j Hin Hj. destruct (decide (i = j)) as [->|]; [by rewrite lookup_insert_eq|].
    rewrite lookup_insert_ne by done. by eapply Hd.
Qed.

Lemma fs_ok_sane s : fs_ok s → fs_sane s.
Proof. intros H name i Hi. eapply ok_data; [done|by left|done]. Qed.
Lemma fs_ok_open s tmp i s' : fs_ok s → is_tmp tmp = true → fs_open tmp s = (i, s') →
  fs_ok s' ∧ fs_dir s' !! tmp = Some i ∧ is_Some (fs_data s' !! i).
Proof.
  intros H Ht Ho. unfold fs_open in Ho. destruct (fs_dir s !! tmp) as [j|] eqn:E.
  - destruct (ok_data s H (fs_dir s) tmp j) as [c Hc]; [by left|done|]. rewrite Hc in Ho. simplify_eq.
    split; [by eapply fs_ok_set_tmp|]. simpl. by rewrite lookup_insert_eq.
  - simplify_eq. set (j := fresh _). assert (fs_data s !! j = None) as Hj by apply not_elem_of_dom, is_fresh.
    destruct H as [Hw Hd Hi Ha].
    assert (∀ d name, d ∈ fs_dir s :: fs_older s → d !! name ≠ Some j) as Hno.
    { intros d name Hin He. destruct (Hd d name j Hin He) as [c Hc]. congruence. }
    split; [|simpl; by rewrite !lookup_insert_eq]. split; simpl.
    + intros d name k [-> | Hin]%elem_of_cons Hk Hn.
      * rewrite lookup_insert_ne in Hk by (intros <-; congruence).
        rewrite lookup_insert_ne by (intros <-; by eapply Hno; [left|]). eapply Hw; [by left|done|done].
      * rewrite lookup_insert_ne by (intros <-; by eapply Hno). by eapply Hw.
    + intros d name k [-> | Hin]%elem_of_cons Hk.
      * destruct (decide (j = k)) as [->|]; [by rewrite lookup_insert_eq|]. rewrite lookup_insert_ne by done.
        apply lookup_insert_Some in Hk as [[_ ?]|[_ Hk]]; [done|]. eapply Hd; [by left|done].
      * destruct (Hd d name k Hin Hk) as [c Hc]. rewrite lookup_insert_ne by congruence. by exists c.
    + intros d a b k [-> | Hin]%elem_of_cons Hka Hkb; [|by eapply Hi].
      apply lookup_insert_Some in Hka as [[<- <-]|[Hna Hka]]; apply lookup_insert_Some in Hkb as [[<- E']|[Hnb Hkb]]; try done.
      * exfalso. by apply (Hno (fs_dir s) b); [left|].
      * subst k. exfalso. by apply (Hno (fs_dir s) a); [left|].
      * eapply Hi; [by left|done|done].
    + intros d t name k Hin Hk Htt Hname.
      apply lookup_insert_Some in Hk as [[<- <-]|[Hne Hk]]; apply elem_of_cons in Hin as [-> | Hin].
      * apply lookup_insert_Some in Hname as [[<- _]|[_ Hname]]; [done|]. exfalso. by apply (Hno (fs_dir s) name); [left|].
      * exfalso. by apply (Hno d name).
      * apply lookup_insert_Some in Hname as [[<- _]|[_ Hname]]; [done|]. by apply (Ha (fs_dir s) t name k); [left| | |].
      * by apply (Ha d t name k).
Qed.

Lemma fs_ok_rename s tmp name i b : fs_ok s → is_tmp tmp = true → is_tmp name = false →
  fs_dir s !! tmp = Some i → fs_data s !! i = Some (mk_content b []) → W name b → fs_ok (fs_rename tmp name s).
Proof.
  intros [Hw Hd Hi Ha] Ht Hn Hti Hc HW. unfold fs_rename. rewrite Hti.
  assert (fs_dir s ∈ fs_dir s :: fs_older s) as Hcur by by left.
  split; simpl.
  - intros d x k [-> | Hin]%elem_of_cons Hk Hx; [|by eapply Hw].
    apply lookup_insert_Some in Hk as [[<- <-]|[_ Hk]]; [by exists b|].
    apply lookup_delete_Some in Hk as [_ Hk]. by eapply Hw.
  - intros d x k [-> | Hin]%elem_of_cons Hk; [|by eapply Hd].
    apply lookup_insert_Some in Hk as [[<- <-]|[_ Hk]]; [by eexists|].
    apply lookup_delete_Some in Hk as [_ Hk]. by eapply Hd.
  - intros d x y k [-> | Hin]%elem_of_cons Hx Hy; [|by eapply Hi].
    apply lookup_insert_Some in Hx as [[<- <-]|[Hnx Hx]]; apply lookup_insert_Some in Hy as [[<- E]|[Hny Hy]]; try done.
    + apply lookup_delete_Some in Hy as [Hne Hy]. exfalso. apply Hne. by eapply Hi.
    + subst k. apply lookup_delete_Some in Hx as [Hne Hx]. exfalso. apply Hne. by eapply Hi.
    + apply lookup_delete_Some in Hx as [_ Hx]. apply lookup_delete_Some in Hy as [_ Hy]. by eapply Hi.
  - intros d t x k Hin Hk Htt Hx.
    apply lookup_insert_Some in Hk as [[<- _]|[_ Hk]]; [congruence|]. apply lookup_delete_Some in Hk as [Hne Hk].
    apply elem_of_cons in Hin as [-> | Hin]; [|by eapply Ha].
    apply lookup_insert_Some in Hx as [[<- <-]|[_ Hx]]; [exfalso; apply Hne; by eapply Hi|].
    apply lookup_delete_Some in Hx as [_ Hx]. by apply (Ha (fs_dir s) t x k).
Qed.
Lemma fs_ok_sync_dir s : fs_ok s → fs_ok (fs_sync_dir s).
Proof.
  intros [Hw Hd Hi Ha]. assert (∀ d, d ∈ [fs_dir s] → d ∈ fs_dir s :: fs_older s) as Hs
    by (intros d ->%list_elem_of_singleton; by left).
  split; simpl; intros d; [intros ? ? ?%Hs|intros ? ? ?%Hs|intros ? ? ? ?%Hs|intros ? ? ? ?%Hs]; eauto.
Qed.
Lemma fs_ok_crash s s' : fs_ok s → crash s s' → fs_ok s'.
Proof.
  intros [Hw Hd Hi Ha] Hc. destruct Hc as [s d c Hin Hcs|s _]; [|apply fs_ok_empty].
  split; simpl; intros d'; [intros x i|intros x i|intros a b i|intros t x i]; intros ->%list_elem_of_singleton Hx.
  - intros Hn. destruct (Hw d x i Hin Hx Hn) as (b & Hb & HW). exists b. rewrite map_lookup_imap, Hb. simpl.
    specialize (Hcs i _ Hb). apply list_elem_of_singleton in Hcs. simpl in Hcs. by rewrite Hcs.
  - destruct (Hd d x i Hin Hx) as [y Hy]. rewrite map_lookup_imap, Hy. by eexists.
  - by eapply Hi.
  - intros Ht Hx'. by rewrite <- (Hi d t x i Hin Hx Hx').
Qed.

(* ------------------------------------------------------------------ *)
(** ** A write, with its failures *)

(** How far a write got: the directory at most made; the temporary file opened and
    holding something; renamed; renamed and synced. *)
Inductive write_effect (root name : string) (data : bytes) (s : Fs) : Fs → res unit → Prop :=
| we_start s' x : s' = s ∨ s' = fs_mkdir s → write_effect root name data s s' (Err x)
| we_written i s2 c x : fs_open (with_extension "tmp" name) (fs_mkdir s) = (i, s2) →
    write_effect root name data s (set_data i c s2) (Err x)
| we_renamed i s2 r : fs_open (with_extension "tmp" name) (fs_mkdir s) = (i, s2) → (r = Ok tt → root = "") →
    write_effect root name data s (fs_rename (with_extension "tmp" name) name (set_data i (mk_content data []) s2)) r
| we_done i s2 : fs_open (with_extension "tmp" name) (fs_mkdir s) = (i, s2) →
    write_effect root name data s
      (fs_sync_dir (fs_rename (with_extension "tmp" name) name (set_data i (mk_content data []) s2))) (Ok tt).

Lemma fs_check_run {S} (o : option string) t args (s : S) :
  fs_check o t args s = (s, match o with Some e => Err (ShareStoreForbidden (format t (args ++ [e]))) | None => Ok tt end).
Proof. by destruct o. Qed.
Lemma bind_run {S A B} (c : dcmd S A) (f : A → dcmd S B) s s1 (r : res A) : c s = (s1, r) →
  (c ≫= f) s = match r with Ok a => f a s1 | Err e => (s1, Err e) end.
Proof. intros H. unfold mbind, cmd_bind. rewrite H. by destruct r. Qed.

Lemma set_data_again i c c' s : set_data i c (set_data i c' s) = set_data i c s.
Proof. unfold set_data. simpl. by rewrite insert_insert_eq. Qed.
Lemma fs_write_set i b s c : fs_data s !! i = Some c →
  fs_write i b s = set_data i (mk_content b (prefixes b ++ cached c :: earlier c)) s.
Proof. intros H. unfold fs_write. by rewrite H. Qed.
Lemma fs_sync_set i b old s : fs_sync i (set_data i (mk_content b old) s) = set_data i (mk_content b []) s.
Proof. unfold fs_sync. simpl. rewrite lookup_insert_eq. simpl. apply set_data_again. Qed.

Lemma atomic_write_has_effect root name e data s : fs_ok s →
  write_effect root name data s (atomic_write_fsync root name e data s).1 (atomic_write_fsync root name e data s).2.
Proof.
  intros H. unfold atomic_write_fsync. erewrite bind_run by apply fs_check_run.
  destruct (fe_mkdir e); [by apply we_start; left|]. erewrite bind_run by reflexivity. cbv beta iota.
  erewrite bind_run by apply fs_check_run. destruct (fe_open e); [by apply we_start; right|].
  erewrite bind_run by reflexivity. cbv beta iota. destruct (fs_open _ (fs_mkdir s)) as [i s2] eqn:Ho.
  destruct (fs_ok_open (fs_mkdir s) _ i s2 (fs_ok_mkdir s H) (is_tmp_with_extension name) Ho) as (_ & _ & c & Hc).
  erewrite bind_run by reflexivity. cbv beta iota. erewrite bind_run by reflexivity. cbv beta iota.
  rewrite (fs_write_set _ _ _ c Hc). erewrite bind_run by apply fs_check_run.
  destruct (fe_write e) as [[x n]|]; simpl fmap; cbv beta iota; [by apply we_written|].
  erewrite bind_run by apply fs_check_run. destruct (fe_fsync e); [by apply we_written|].
  erewrite bind_run by reflexivity. cbv beta iota. rewrite fs_sync_set.
  erewrite bind_run by apply fs_check_run. destruct (fe_rename e); [by apply we_written|].
  erewrite bind_run by reflexivity. cbv beta iota. unfold fsync_parent.
  destruct (String.eqb_spec root ""); [by apply we_renamed|].
  erewrite bind_run by apply fs_check_run. destruct (fe_open_dir e); [by apply we_renamed|].
  erewrite bind_run by apply fs_check_run. destruct (fe_fsync_dir e); [by apply we_renamed|]. by apply we_done.
Qed.

Lemma write_effect_ok root name data s s' r : fs_ok s → is_tmp name = false → W name data →
  write_effect root name data s s' r → fs_ok s'.
Proof.
  intros H Hn HW He. pose proof (is_tmp_with_extension name) as Ht.
  destruct He as [s' x [-> | ->]|i s2 c x Ho|i s2 r Ho _|i s2 Ho]; [done|by apply fs_ok_mkdir|..];
    destruct (fs_ok_open _ _ _ _ (fs_ok_mkdir s H) Ht Ho) as (H2 & Hi & _); [by eapply fs_ok_set_tmp|..];
    try apply fs_ok_sync_dir; (eapply fs_ok_rename; [by eapply fs_ok_set_tmp|done|done|done| |done]);
    simpl; by rewrite lookup_insert_eq.
Qed.

(** [name] holds [b], and nothing a crash brings back says otherwise. *)
Definition settled (name : string) (b : bytes) (s : Fs) : Prop :=
  ∀ d, d ∈ fs_dir s :: fs_older s → ∃ i, d !! name = Some i ∧ fs_data s !! i = Some (mk_content b []).

Lemma settled_read name b s : settled name b s → fs_read s name = Some b.
Proof. intros H. destruct (H (fs_dir s)) as (i & Hi & Hb); [by left|]. unfold fs_read. rewrite Hi. simpl. by rewrite Hb. Qed.
Lemma settled_crash name b s s' : fs_root s = Some true → settled name b s → crash s s' → settled name b s' ∧ fs_root s' = Some true.
Proof.
  intros Hr Hs Hc. destruct Hc as [s d c Hin Hcs|s Hl]; [|done]. split; [|done]. intros d' ->%list_elem_of_singleton. simpl.
  destruct (Hs d Hin) as (i & Hi & Hb). exists i. split; [done|]. rewrite map_lookup_imap, Hb. simpl.
  specialize (Hcs i _ Hb). apply list_elem_of_singleton in Hcs. by rewrite Hcs.
Qed.
Lemma settled_mkdir name b s : settled name b s → settled name b (fs_mkdir s).
Proof. unfold fs_mkdir. by destruct (fs_root s). Qed.
Lemma settled_open name b s tmp i s' : fs_ok s → is_tmp tmp = true → is_tmp name = false → settled name b s →
  fs_open tmp s = (i, s') → settled name b s' ∧ ∀ c, settled name b (set_data i c s').
Proof.
  intros H Ht Hn Hs Ho. destruct (fs_ok_open _ _ _ _ H Ht Ho) as (H' & Hi & _).
  assert (settled name b s') as Hs'.
  - unfold fs_open in Ho. destruct (fs_dir s !! tmp) as [j|] eqn:E.
    + destruct (fs_data s !! j) as [c|] eqn:Ec; simplify_eq; [|done]. intros d Hd.
      destruct (Hs d Hd) as (k & Hk & Hb). exists k. split; [done|]. simpl. rewrite lookup_insert_ne; [done|]. intros <-.
      by rewrite (ok_apart s H d tmp name i Hd E Ht Hk) in Hn.
    + simplify_eq. set (j := fresh _). assert (fs_data s !! j = None) as Hj by apply not_elem_of_dom, is_fresh.
      intros d Hd. simpl in Hd. apply elem_of_cons in Hd as [-> | Hd].
      * destruct (Hs (fs_dir s)) as (k & Hk & Hb); [by left|]. exists k. simpl.
        rewrite !lookup_insert_ne by congruence. done.
      * destruct (Hs d Hd) as (k & Hk & Hb). exists k. simpl. rewrite lookup_insert_ne by congruence. done.
  - split; [done|]. intros c d Hd. destruct (Hs' d Hd) as (k & Hk & Hb). exists k. split; [done|]. simpl.
    rewrite lookup_insert_ne; [done|]. intros <-. by rewrite (ok_apart s' H' d tmp name i Hd Hi Ht Hk) in Hn.
Qed.
Lemma settled_rename name b s tmp name' : tmp ≠ name → name' ≠ name → settled name b s → settled name b (fs_rename tmp name' s).
Proof.
  intros Ht Hn Hs. unfold fs_rename. destruct (fs_dir s !! tmp) as [i|]; [|done].
  intros d Hd. simpl in Hd. apply elem_of_cons in Hd as [-> | Hd]; [|by apply Hs]. simpl.
  rewrite lookup_insert_ne, lookup_delete_ne by done. apply Hs. by left.
Qed.
Lemma settled_sync_dir name b s : settled name b s → settled name b (fs_sync_dir s).
Proof. intros H d ->%list_elem_of_singleton. apply H. by left. Qed.

Lemma write_effect_settled root name name' b data s s' r : fs_ok s → is_tmp name = false → name' ≠ name →
  settled name b s → write_effect root name' data s s' r → settled name b s'.
Proof.
  intros H Hn Hne Hs He. pose proof (is_tmp_with_extension name') as Ht.
  assert (with_extension "tmp" name' ≠ name) as Htn by (intros E; congruence).
  destruct He as [s' x [-> | ->]|i s2 c x Ho|i s2 r Ho _|i s2 Ho]; [done|by apply settled_mkdir|..];
    destruct (settled_open name b _ _ _ _ (fs_ok_mkdir s H) Ht Hn (settled_mkdir _ _ _ Hs) Ho) as [_ Hd]; [done|..];
    try apply settled_sync_dir; by apply settled_rename.
Qed.
Lemma write_done_settled root name data s s' : fs_ok s → root ≠ "" → write_effect root name data s s' (Ok tt) → settled name data s'.
Proof.
  intros H Hr He. remember (Ok tt) as r eqn:Er. destruct He as [| |i s2 r Ho Hx|i s2 Ho]; [done|done|by rewrite (Hx Er) in Hr|].
  destruct (fs_ok_open _ _ _ _ (fs_ok_mkdir s H) (is_tmp_with_extension name) Ho) as (_ & Hi & _).
  intros d ->%list_elem_of_singleton. unfold fs_rename. simpl. rewrite Hi. simpl. exists i. by rewrite !lookup_insert_eq.
Qed.
Lemma fs_root_effect root name data s s' r : write_effect root name data s s' r → fs_root s = Some true → fs_root s' = Some true.
Proof.
  intros He Hr. assert (fs_mkdir s = s) as Hm by (unfold fs_mkdir; by rewrite Hr).
  assert (∀ tmp i s2, fs_open tmp s = (i, s2) → fs_root s2 = Some true) as Hopen.
  { intros tmp i s2 Ho. unfold fs_open in Ho. destruct (fs_dir s !! tmp); [destruct (fs_data s !! _)|]; by simplify_eq. }
  destruct He as [s' x [-> | ->]|i s2 c x Ho|i s2 r Ho _|i s2 Ho]; rewrite ?Hm in *; [done|done|..];
    apply Hopen in Ho; [done|..]; unfold fs_rename, fs_sync_dir; simpl; destruct (fs_dir s2 !! _); done.
Qed.

(** A life of the directory: writes, failing anywhere, and crashes. *)
Inductive fs_step (root : string) : Fs → Fs → Prop :=
| fs_write_step s name e data : is_tmp name = false → W name data → fs_step root s (atomic_write_fsync root name e data s).1
| fs_mkdir_step s : fs_step root s (fs_mkdir s)
| fs_crash_step s s' : crash s s' → fs_step root s s'.
(** The same, no write going to [kept]. *)
Inductive fs_other_step (root kept : string) : Fs → Fs → Prop :=
| fs_other_write s name e data : is_tmp name = false → W name data → name ≠ kept →
    fs_other_step root kept s (atomic_write_fsync root name e data s).1
| fs_other_mkdir s : fs_other_step root kept s (fs_mkdir s)
| fs_other_crash s s' : crash s s' → fs_other_step root kept s s'.

Lemma fs_step_ok root s s' : fs_ok s → fs_step root s s' → fs_ok s'.
Proof.
  intros H Hs. destruct Hs as [s name e data Hn HW|s|s s' Hc]; [|by apply fs_ok_mkdir|by eapply fs_ok_crash].
  eapply write_effect_ok; [done|exact Hn|exact HW|by apply atomic_write_has_effect].
Qed.
Lemma settled_stays root name b s s' : is_tmp name = false → fs_ok s → fs_root s = Some true → settled name b s →
  steps (fs_other_step root name) s s' → fs_ok s' ∧ fs_root s' = Some true ∧ settled name b s'.
Proof.
  intros Hn H Hr Hs Hst. refine (steps_invariant _ (λ s, fs_ok s ∧ fs_root s = Some true ∧ settled name b s) _ s s' Hst _); [|done].
  clear -Hn. intros s t (H & Hr & Hs) Hstep. destruct Hstep as [s x e data Hx HW Hne|s|s s' Hc].
  - pose proof (atomic_write_has_effect root x e data s H) as He.
    split; [by eapply write_effect_ok|]. split; [by eapply fs_root_effect|]. eapply write_effect_settled; [done..| |done|done].
    done.
  - split; [by apply fs_ok_mkdir|]. split; [unfold fs_mkdir; by rewrite Hr|by apply settled_mkdir].
  - destruct (settled_crash name b s s' Hr Hs Hc) as [? ?]. split; [by eapply fs_ok_crash|done].
Qed.
End whole.

(** When nothing fails the write is done. *)
Lemma atomic_write_works (W : string → bytes → Prop) root name data s : fs_ok W s → root ≠ "" → ∃ s',
  atomic_write_fsync root name fs_works data s = (s', Ok tt).
Proof.
  intros H Hr. unfold atomic_write_fsync. do 3 (erewrite bind_run by reflexivity; cbv beta iota).
  erewrite bind_run by reflexivity. cbv beta iota. destruct (fs_open _ (fs_mkdir s)) as [i s2].
  do 7 (erewrite bind_run by reflexivity; cbv beta iota). unfold fsync_parent.
  rewrite (proj2 (String.eqb_neq root "") Hr). do 2 (erewrite bind_run by reflexivity; cbv beta iota). by eexists.
Qed.

(** Files written by [atomic_write_fsync] survive crashes. Start from an empty
    directory and let any writes be made in it, each failing wherever it may, and the
    machine crash at any point of any of them. Then every file but a temporary one is
    absent or holds, whole, some data that was to be written under that very name. And
    once the directory itself is durable, a write that returned success stays: whatever
    else is written, fails or crashes, the file reads back until its name is written again. *)
Theorem durable_writes_survive (W : string → bytes → Prop) exists_ root s :
  root ≠ "" → steps (fs_step W root) (mk_fs exists_ ∅ [] ∅) s →
  (∀ name b, is_tmp name = false → fs_read s name = Some b → W name b) ∧
  (∀ name e b s1 s2, is_tmp name = false → W name b → fs_root s = Some true →
     atomic_write_fsync root name e b s = (s1, Ok tt) → steps (fs_other_step W root name) s1 s2 → fs_read s2 name = Some b).
Proof.
  intros Hroot Hs. assert (fs_ok W s) as H.
  { refine (steps_invariant _ (fs_ok W) _ _ _ Hs (fs_ok_empty W exists_)). intros a b Ha Hab. by eapply fs_step_ok. }
  split.
  - intros name b Hn Hr. unfold fs_read in Hr. destruct (fs_dir s !! name) as [i|] eqn:E; [|done]. simpl in Hr.
    destruct (ok_whole W s H (fs_dir s) name i) as (b' & Hb & HW); [by left|done|done|].
    rewrite Hb in Hr. by injection Hr as <-.
  - intros name e b s1 s2 Hn HW Hr Hw Hst. pose proof (atomic_write_has_effect W root name e b s H) as He. rewrite Hw in He.
    apply settled_read. eapply settled_stays; [exact Hn| | | |exact Hst].
    + by eapply write_effect_ok.
    + by eapply fs_root_effect.
    + by eapply write_done_settled.
Qed.

(** A crash that leaves the directory [d] and the contents written last. *)
Definition power_cut (d : gmap string N) (s : Fs) : Fs :=
  mk_fs (fs_root s) d [] (map_imap (λ i _, Some (mk_content (default [] (cached <$> fs_data s !! i)) [])) (fs_data s)).
Lemma crash_power_cut d s : d ∈ fs_dir s :: fs_older s → crash s (power_cut d s).
Proof. intros Hd. apply (crash_to s d (λ i, default [] (cached <$> fs_data s !! i))); [done|]. intros i x ->. by left. Qed.

Definition toy_dir : Fs := mk_fs (Some true) ∅ [] ∅.
Definition toy_writes (name : string) (b : bytes) : Prop := name = "a.bin" ∨ name = "b.bin".
(** [a.bin] is written, written again with the rename failing, and the machine crashes. *)
Definition toy_written : Fs :=
  (atomic_write_fsync "d" "a.bin" (mk_fs_env None None None None (Some "no") None None) (bytes_of "2")
    (atomic_write_fsync "d" "a.bin" fs_works (bytes_of "1") toy_dir).1).1.

Lemma durable_writes_survive_witness :
  fs_read toy_written "a.bin" = Some (bytes_of "1") ∧ toy_writes "a.bin" (bytes_of "1")
  ∧ ∃ s1 s2, atomic_write_fsync "d" "b.bin" fs_works (bytes_of "3") toy_written = (s1, Ok tt)
      ∧ crash s1 s2 ∧ fs_read s2 "b.bin" = Some (bytes_of "3").
Proof.
  assert (steps (fs_step toy_writes "d") toy_dir toy_written) as Hs.
  { eapply steps_cons; [apply (fs_write_step _ _ toy_dir "a.bin" fs_works (bytes_of "1")); [reflexivity|by left]|].
    apply steps_one, (fs_write_step _ _ _ "a.bin" (mk_fs_env None None None None (Some "no") None None) (bytes_of "2"));
      [reflexivity|by left]. }
  assert (fs_read toy_written "a.bin" = Some (bytes_of "1")) as Hr by (vm_compute; reflexivity).
  assert ("d" ≠ "") as Hd by discriminate.
  pose proof (durable_writes_survive toy_writes (Some true) "d" toy_written Hd Hs) as [H1 H2].
  split; [exact Hr|]. split; [by apply H1|].
  set (s1 := (atomic_write_fsync "d" "b.bin" fs_works (bytes_of "3") toy_written).1).
  assert (crash s1 (power_cut (fs_dir s1) s1)) as Hc by (apply crash_power_cut; by left).
  eexists s1, _. split; [vm_compute; reflexivity|]. split; [exact Hc|].
  apply (H2 "b.bin" fs_works (bytes_of "3") s1); [reflexivity|by right|reflexivity|vm_compute; reflexivity|].
  apply steps_one, fs_other_crash, Hc.
Defined.

(* ------------------------------------------------------------------ *)
(** ** What it does not ensure *)

(** The first write makes the directory, returns success, and is lost: the directory's own
    entry is synced by no one. *)
Lemma first_write_may_be_lost : ∃ s1 s2, atomic_write_fsync "d" "a.bin" fs_works (bytes_of "1") (mk_fs None ∅ [] ∅) = (s1, Ok tt)
  ∧ fs_read s1 "a.bin" = Some (bytes_of "1") ∧ crash s1 s2 ∧ fs_read s2 "a.bin" = None.
Proof.
  eexists _, _. split; [vm_compute; reflexivity|]. split; [vm_compute; reflexivity|]. split; [by apply crash_lost|reflexivity].
Qed.
(** A parent that is a bare name's, the empty path, is not synced: the rename may be undone. *)
Lemma bare_name_not_synced : ∃ s1 s2,
  atomic_write_fsync "" "a.bin" fs_works (bytes_of "1") (mk_fs (Some true) ∅ [] ∅) = (s1, Ok tt) ∧ crash s1 s2 ∧ fs_read s2 "a.bin" = None.
Proof.
  set (s1 := (atomic_write_fsync "" "a.bin" fs_works (bytes_of "1") (mk_fs (Some true) ∅ [] ∅)).1).
  exists s1, (power_cut ∅ s1). split; [vm_compute; reflexivity|]. split; [|vm_compute; reflexivity].
  apply crash_power_cut. vm_compute. right. right. left.
Qed.
(** Two writes of one name at once share the temporary file: the second's open empties what the
    first is about to rename. *)
Lemma racing_writes_truncate : ∃ i j s1 s2,
  fs_open "a.tmp" toy_dir = (i, s1) ∧ fs_open "a.tmp" (fs_sync i (fs_write i (bytes_of "1") s1)) = (j, s2) ∧
  fs_read (fs_rename "a.tmp" "a.bin" s2) "a.bin" = Some [].
Proof. eexists _, _, _, _. split; [vm_compute; reflexivity|]. split; vm_compute; reflexivity. Qed.

(* ------------------------------------------------------------------ *)
(** ** Snapshot files

    A store that keeps its whole state as one text in one file, rewritten by
    [atomic_write_fsync] at every change: whatever fails in the writes, the file is absent or
    holds the text of some state, and of the last one once its write has succeeded. *)

(** [map_err(|e| DomainError::ThresholdError(format!(t, e)))]. *)
Definition as_threshold {S A} (t : string) (c : dcmd S A) : dcmd S A :=
  λ s, let '(s', r) := c s in (s', map_err (λ e, ThresholdError (format t [fmt_error e])) r).
Lemma ok_bind {E A B} (x : A) (f : A → result E B) : Ok x ≫= f = f x.
Proof. done. Qed.

Section snapshot.
Context {St : Type} (root name : string) (text : St → string) (wf : St → Prop) (Hname : is_tmp name = false).

(** What the snapshot file may hold. *)
Definition snapshot_text (n : string) (b : bytes) : Prop := ∃ m, wf m ∧ n = name ∧ b = bytes_of (text m).
Definition write_snapshot (e : FsEnv) (m : St) : dcmd Fs unit := atomic_write_fsync root name e (bytes_of (text m)).

Lemma snapshot_whole r : fs_ok snapshot_text r → fs_read r name = None ∨ ∃ m, wf m ∧ fs_read r name = Some (bytes_of (text m)).
Proof.
  intros Hr. destruct (fs_read r name) as [raw|] eqn:E; [right|by left].
  unfold fs_read in E. apply bind_Some in E as (i & Hi & E). apply fmap_Some in E as (x & Hx & ->).
  destruct (ok_whole _ _ Hr (fs_dir r) name i) as (w & Hw & (m & Hm & _ & ->)); [by left|done|done|].
  rewrite Hx in Hw. simplify_eq. by exists m.
Qed.
Lemma write_snapshot_ok e m s : wf m → fs_ok snapshot_text s → fs_ok snapshot_text (write_snapshot e m s).1.
Proof.
  intros Hm Hs. pose proof (atomic_write_has_effect snapshot_text root name e (bytes_of (text m)) s Hs) as He.
  eapply write_effect_ok; [done|exact Hname| |exact He]. by exists m.
Qed.
(** A write that succeeded in a durable directory is what any crash leaves. *)
Lemma snapshot_settled e m s s1 r : root ≠ "" → fs_ok snapshot_text s → fs_root s = Some true →
  write_snapshot e m s = (s1, Ok tt) → crash s1 r → fs_read r name = Some (bytes_of (text m)).
Proof.
  intros Hroot Hs Hd Hw Hc. pose proof (atomic_write_has_effect snapshot_text root name e (bytes_of (text m)) s Hs) as He.
  unfold write_snapshot in Hw. rewrite Hw in He. apply settled_read. eapply settled_crash; [|by eapply write_done_settled|exact Hc].
  by eapply fs_root_effect.
Qed.
End snapshot.
