(* ===== verification/Json.v ===== *)
(** * JSON values ([serde_json::Value])

    Values as the snapshot readers take them apart, the text the hand-written
    writers produce of a value, and [serde_json::from_str] with the part of its
    behaviour the snapshots rely on. A small parser of such texts is the
    instance concrete runs use. *)
From S2P Require Import Prelude RustStr RustParse.
Local Open Scope N_scope.

Inductive Value :=
| JNull | JBool (b : bool) | JNum (n : N) | JOther (text : string)     (** a number that is no [u64] *)
| JStr (s : string) | JArr (l : list Value) | JObj (l : list (string * Value)).

Section value_ind.
Context (P : Value → Prop) (Hnull : P JNull) (Hbool : ∀ b, P (JBool b)) (Hnum : ∀ n, P (JNum n)) (Hother : ∀ t, P (JOther t))
  (Hstr : ∀ s, P (JStr s)) (Harr : ∀ l, Forall P l → P (JArr l)) (Hobj : ∀ l, Forall (λ kv, P kv.2) l → P (JObj l)).
Fixpoint value_rect' (v : Value) : P v :=
  match v with
  | JNull => Hnull | JBool b => Hbool b | JNum n => Hnum n | JOther t => Hother t | JStr s => Hstr s
  | JArr l => Harr l ((fix go l : Forall P l := match l with [] => Forall_nil_2 P | x :: r => Forall_cons_2 P x r (value_rect' x) (go r) end) l)
  | JObj l => Hobj l ((fix go l : Forall (λ kv, P kv.2) l :=
      match l with [] => Forall_nil_2 _ | kv :: r => Forall_cons_2 (λ kv, P kv.2) kv r (value_rect' kv.2) (go r) end) l)
  end.
End value_ind.

(* ------------------------------------------------------------------ *)
(** ** Taking a value apart: [get], [v["k"]], [as_str], [as_u64], [as_bool], [as_array] *)

Definition get_member (k : string) (v : Value) : option Value :=
  match v with JObj l => snd <$> find (λ kv, String.eqb kv.1 k) l | _ => None end.
Definition at_key (k : string) (v : Value) : Value := default JNull (get_member k v).
Definition as_str (v : Value) : option string := match v with JStr s => Some s | _ => None end.
Definition as_u64 (v : Value) : option N := match v with JNum n => Some n | _ => None end.
Definition as_bool (v : Value) : option bool := match v with JBool b => Some b | _ => None end.
Definition as_array (v : Value) : option (list Value) := match v with JArr l => Some l | _ => None end.
(** [v[k].as_str().unwrap_or(d)] and the like. *)
Definition str_or (d k : string) (v : Value) : string := default d (as_str (at_key k v)).
Definition u64_or (d : N) (k : string) (v : Value) : N := default d (as_u64 (at_key k v)).
Definition bool_or (d : bool) (k : string) (v : Value) : bool := default d (as_bool (at_key k v)).
(** [if let Some(arr) = v[k].as_array()]: what the loop goes over. *)
Definition array_at (k : string) (v : Value) : list Value := default [] (as_array (at_key k v)).

(* ------------------------------------------------------------------ *)
(** ** The compact text of a value, followed by [k]

    Of a string only backslashes and double quotes are escaped. *)

Definition dquote : ascii := Ascii.ascii_of_N 34.
Definition quote_k (s k : string) : string := String.String dquote (escape_json s +:+ String.String dquote k).
Fixpoint print_k (v : Value) (k : string) {struct v} : string :=
  match v with
  | JNull => "null" +:+ k
  | JBool b => show_bool b +:+ k
  | JNum n => show n +:+ k
  | JOther t => t +:+ k
  | JStr s => quote_k s k
  | JArr l => "[" +:+ (fix go l k := match l with [] => k | x :: r => print_k x (match r with [] => k | _ => "," +:+ go r k end) end) l ("]" +:+ k)
  | JObj l => "{" +:+ (fix go l k := match l with
                       | [] => k
                       | kv :: r => quote_k kv.1 (":" +:+ print_k kv.2 (match r with [] => k | _ => "," +:+ go r k end))
                       end) l ("}" +:+ k)
  end.
Definition print_json (v : Value) : string := print_k v "".
Fixpoint print_items (l : list Value) (k : string) : string :=
  match l with [] => k | x :: r => print_k x (match r with [] => k | _ => "," +:+ print_items r k end) end.
Fixpoint print_members (l : list (string * Value)) (k : string) : string :=
  match l with
  | [] => k
  | kv :: r => quote_k kv.1 (":" +:+ print_k kv.2 (match r with [] => k | _ => "," +:+ print_members r k end))
  end.

Lemma print_arr l k : print_k (JArr l) k = "[" +:+ print_items l ("]" +:+ k).
Proof. reflexivity. Qed.
Lemma print_obj l k : print_k (JObj l) k = "{" +:+ print_members l ("}" +:+ k).
Proof. reflexivity. Qed.

Lemma quote_k_app s k : quote_k s k = quote_k s "" +:+ k.
Proof.
  unfold quote_k. change (String.String dquote (escape_json s +:+ String.String dquote "") +:+ k)
    with (String.String dquote ((escape_json s +:+ String.String dquote "") +:+ k)). by rewrite string_app_assoc.
Qed.
Lemma print_k_app v : ∀ k, print_k v k = print_json v +:+ k.
Proof.
  unfold print_json. induction v as [|b|n|t|s|l IH|l IH] using value_rect'; intros k.
  1-4: cbn [print_k]; by rewrite ?string_app_nil.
  - apply quote_k_app.
  - rewrite !print_arr, string_app_assoc. f_equal. change ("]" +:+ k) with (("]" +:+ "") +:+ k). generalize ("]" +:+ ""). intros t. revert t.
    induction l as [|x l IHl]; intros t; [done|]. apply Forall_cons in IH as [Hx IH]. cbn [print_items].
    rewrite (Hx (match l with [] => t +:+ k | _ => _ end)), (Hx (match l with [] => t | _ => _ end)), string_app_assoc. f_equal.
    destruct l as [|y l]; [done|]. rewrite (IHl IH). by rewrite string_app_assoc.
  - rewrite !print_obj, string_app_assoc. f_equal. change ("}" +:+ k) with (("}" +:+ "") +:+ k). generalize ("}" +:+ ""). intros t. revert t.
    induction l as [|[n x] l IHl]; intros t; [done|]. apply Forall_cons in IH as [Hx IH]. cbn [print_members fst snd].
    rewrite (quote_k_app n (":" +:+ print_k x (match l with [] => t +:+ k | _ => _ end))),
      (quote_k_app n (":" +:+ print_k x (match l with [] => t | _ => _ end))), string_app_assoc. f_equal. rewrite string_app_assoc. f_equal.
    simpl in Hx. rewrite (Hx (match l with [] => t +:+ k | _ => _ end)), (Hx (match l with [] => t | _ => _ end)), string_app_assoc. f_equal.
    destruct l as [|y l]; [done|]. rewrite (IHl IH). by rewrite string_app_assoc.
Qed.
(** An array of printed items, joined by commas. *)
Lemma print_items_join {A} (f : A → Value) (l : list A) k : print_items (map f l) k = join "," (map (λ x, print_json (f x)) l) +:+ k.
Proof.
  induction l as [|x l IH]; [done|]. destruct l as [|y l].
  - cbn [map print_items]. by rewrite print_k_app.
  - change (map f (x :: y :: l)) with (f x :: map f (y :: l)). change (map (λ x, print_json (f x)) (x :: y :: l))
      with (print_json (f x) :: map (λ x, print_json (f x)) (y :: l)).
    cbn [print_items]. rewrite print_k_app. set (t := map f (y :: l)) in *. change t with (f y :: map f l). cbv beta iota.
    change (f y :: map f l) with t. rewrite IH. cbn [map join String.concat]. rewrite string_app_assoc. done.
Qed.

Lemma join_ext {A} (f g : A → string) l : (∀ x, f x = g x) → join "," (map f l) = join "," (map g l).
Proof. intros H. f_equal. by apply map_ext. Qed.
Lemma print_arr_join {A} (f : A → Value) (l : list A) k :
  print_k (JArr (map f l)) k = "[" +:+ (join "," (map (λ x, print_json (f x)) l) +:+ ("]" +:+ k)).
Proof. by rewrite print_arr, print_items_join. Qed.

(* ------------------------------------------------------------------ *)
(** ** Reading a text *)

(** [serde_json::from_str] into a [Value]. *)
Class JsonRead := json_from_str : string → result string Value.

(** Values whose text is JSON: no control characters in strings, numbers of 64 bits, members
    named apart, nested less deep than serde_json reads. *)
Definition plain_str (s : string) : Prop := valid_utf8 (bytes_of s) = true ∧ forallb (λ a, 32 <=? byte_n a) (bytes_of s) = true.
Fixpoint json_depth (v : Value) : nat :=
  match v with
  | JArr l => S (foldr (λ x n, Nat.max (json_depth x) n) 0 l)%nat
  | JObj l => S (foldr (λ kv n, Nat.max (json_depth kv.2) n) 0 l)%nat
  | _ => 0%nat
  end.
Inductive json_wf : Value → Prop :=
| wf_null : json_wf JNull
| wf_bool b : json_wf (JBool b)
| wf_num n : n ≤ u64_max → json_wf (JNum n)
| wf_str s : plain_str s → json_wf (JStr s)
| wf_arr l : Forall json_wf l → json_wf (JArr l)
| wf_obj l : Forall (λ kv, plain_str kv.1 ∧ json_wf kv.2) l → NoDup l.*1 → json_wf (JObj l).
Class JsonSpec `{!JsonRead} : Prop := {
  json_reads v : json_wf v → (json_depth v < 128)%nat → json_from_str (print_json v) = Ok v }.

(* ------------------------------------------------------------------ *)
(** ** Building such values, and taking them apart again *)

Lemma bs_iter_set (s : gset string) : list_to_set (bs_iter s) = s.
Proof. apply set_eq. intros x. by rewrite elem_of_list_to_set, elem_of_bs_iter. Qed.
Lemma bt_iter_map {A} (m : gmap string A) : list_to_map (bt_iter m) = m.
Proof.
  rewrite <- (list_to_map_to_list m) at 2. apply list_to_map_proper; [|apply bt_iter_perm].
  rewrite bt_iter_perm. apply NoDup_fst_map_to_list.
Qed.
Lemma insert_into_rest {A} k (x : A) (l : list (string * A)) (acc : gmap string A) : k ∉ l.*1 →
  list_to_map l ∪ <[k := x]> acc = list_to_map ((k, x) :: l) ∪ acc.
Proof. intros Hk. cbn [list_to_map foldr fst snd]. rewrite <- insert_union_r by by apply not_elem_of_list_to_map_1. by rewrite insert_union_l. Qed.
Lemma strings_wf (l : list string) : (∀ s, s ∈ l → plain_str s) → json_wf (JArr (map JStr l)).
Proof. intros H. constructor. apply Forall_forall. intros v (s & -> & Hs)%list_elem_of_fmap. by constructor; apply H. Qed.
Lemma depth_items {A} (f : A → Value) (n : nat) (l : list A) : (∀ x, json_depth (f x) ≤ n)%nat → (json_depth (JArr (map f l)) ≤ S n)%nat.
Proof. intros H. cbn [json_depth]. apply le_n_S. induction l as [|x l IH]; cbn [map foldr]; [lia|]. specialize (H x). lia. Qed.
Lemma max_le a b n : (a ≤ n → b ≤ n → Nat.max a b ≤ n)%nat.
Proof. lia. Qed.
Lemma plain_plain_str s : plain s → plain_str s.
Proof.
  intros H. split; [by apply valid_utf8_plain|]. unfold plain in H. rewrite forallb_forall in *.
  intros a Ha. specialize (H a Ha). apply in_range_spec in H. apply N.leb_le. lia.
Qed.
Lemma plain_const s : valid_utf8 (bytes_of s) && forallb (λ a, 32 <=? byte_n a) (bytes_of s) = true → plain_str s.
Proof. intros [H1 H2]%andb_true_iff. by split. Qed.
Lemma omap_strings l : omap as_str (map JStr l) = l.
Proof. induction l as [|s l IH]; [done|]. cbn. by rewrite IH. Qed.
Ltac wf_object := apply wf_obj; [repeat apply Forall_cons_2; try apply Forall_nil_2; (split; [by apply plain_const|]) | by apply (bool_decide_unpack _); vm_compute].

(* ------------------------------------------------------------------ *)
(** ** Such a text is valid UTF-8 *)

Lemma escape_cons a s : escape_json (String.String a s) =
  (if Ascii.eqb a "\"%char then "\\" else if Ascii.eqb a dquote then String.String "\" (String.String dquote "") else String.String a "") +:+ escape_json s.
Proof.
  unfold escape_json. cbn [replace_char]. change (Ascii.ascii_of_N 34) with dquote.
  assert (∀ c b x y, replace_char c b (x +:+ y) = replace_char c b x +:+ replace_char c b y) as Happ.
  { intros c b x y. induction x as [|z x IH]; [done|]. change (String.String z x +:+ y) with (String.String z (x +:+ y)). cbn [replace_char].
    rewrite IH. destruct (Ascii.eqb z c); [by rewrite string_app_assoc|done]. }
  destruct (Ascii.eqb a "\"%char) eqn:E; [rewrite Happ; reflexivity|].
  cbn [replace_char]. destruct (Ascii.eqb a dquote); [reflexivity|]. reflexivity.
Qed.

(** The first character of a valid text. *)
Lemma utf8_chunk l : valid_utf8 l = true → l ≠ [] → ∃ h r, l = h ++ r ∧ h ≠ [] ∧ valid_utf8 r = true ∧
  (∀ t, valid_utf8 (h ++ t) = valid_utf8 t) ∧ ((∃ a, h = [a] ∧ byte_n a < 128) ∨ Forall (λ a, 128 ≤ byte_n a) h).
Proof.
  intros Hv Hne. destruct l as [|a r]; [done|]. cbn [valid_utf8] in Hv. destruct (byte_n a <? 128) eqn:Ea.
  { exists [a], r. split_and!; [done..| |]; [intros t; cbn; by rewrite Ea|]. left. exists a. split; [done|nlia]. }
  assert (∀ lo hi b, 128 ≤ lo → in_range lo hi b = true → 128 ≤ byte_n b) as Hr.
  { intros lo hi b Hlo Hb%in_range_spec. lia. }
  assert (∀ b, is_cont b = true → 128 ≤ byte_n b) as Hcont by (intros b; by apply Hr).
  assert (128 ≤ byte_n a) as Ha by nlia.
  destruct r as [|b r]; [done|]. destruct (in_range 194 223 a) eqn:E2.
  { apply andb_true_iff in Hv as [Hb Hv]. exists [a; b], r. split_and!; [done..| |].
    - intros t. cbn. by rewrite Ea, E2, Hb.
    - right. rewrite !Forall_cons. split_and!; [done|by apply Hcont|done]. }
  destruct r as [|c r]; [done|]. destruct (in_range 224 239 a) eqn:E3.
  { rewrite !andb_true_iff in Hv. destruct Hv as [[Hb Hc] Hv]. exists [a; b; c], r. split_and!; [done..| |].
    - intros t. cbn. by rewrite Ea, E2, E3, Hb, Hc.
    - right. rewrite !Forall_cons. split_and!; [done| |by apply Hcont|done]. eapply Hr; [|exact Hb]. destruct (_ =? _); lia. }
  destruct r as [|d r]; [done|]. rewrite !andb_true_iff in Hv. destruct Hv as [[[[E4 Hb] Hc] Hd] Hv].
  exists [a; b; c; d], r. split_and!; [done..| |].
  - intros t. cbn. by rewrite Ea, E2, E3, E4, Hb, Hc, Hd.
  - right. rewrite !Forall_cons. split_and!; [done| |by apply Hcont..|done]. eapply Hr; [|exact Hb]. destruct (_ =? _); lia.
Qed.
Lemma utf8_ind (P : bytes → Prop) : P [] →
  (∀ h r, h ≠ [] → (∀ t, valid_utf8 (h ++ t) = valid_utf8 t) → ((∃ a, h = [a] ∧ byte_n a < 128) ∨ Forall (λ a, 128 ≤ byte_n a) h) →
     valid_utf8 r = true → P r → P (h ++ r)) → ∀ l, valid_utf8 l = true → P l.
Proof.
  intros Hnil Hcons l. induction (Nat.lt_wf_0_projected length l) as [[|a x] _ IH]; intros Hv; [done|]. destruct (utf8_chunk (a :: x) Hv) as (h & r & E & Hh & Hr & Hc & Hk); [done|].
  rewrite E. apply Hcons; [done..|]. apply IH; [|done]. rewrite E, length_app. destruct h; [done|]. simpl. lia.
Qed.
Lemma valid_utf8_app a b : valid_utf8 a = true → valid_utf8 (a ++ b) = valid_utf8 b.
Proof. revert a. apply (utf8_ind (λ a, valid_utf8 (a ++ b) = valid_utf8 b)); [done|]. intros h r _ Hh _ _ IH. by rewrite <- app_assoc, Hh. Qed.

Definition escaped (a : ascii) : bytes := if Ascii.eqb a "\"%char then ["\"%char; "\"%char] else if Ascii.eqb a dquote then ["\"%char; dquote] else [a].
Lemma escape_bytes s : bytes_of (escape_json s) = flat_map escaped (bytes_of s).
Proof.
  induction s as [|a s IH]; [done|]. rewrite escape_cons, bytes_of_app, IH. change (bytes_of (String.String a s)) with (a :: bytes_of s).
  cbn [flat_map]. f_equal. unfold escaped. destruct (Ascii.eqb a "\"); [done|]. by destruct (Ascii.eqb a dquote).
Qed.
Lemma valid_utf8_escape s : valid_utf8 (bytes_of s) = true → valid_utf8 (bytes_of (escape_json s)) = true.
Proof.
  rewrite escape_bytes. generalize (bytes_of s). apply utf8_ind; [done|]. intros h r _ Hh Hk _ IH.
  rewrite flat_map_app. rewrite valid_utf8_app; [done|]. destruct Hk as [(a & -> & Ha)|Hk].
  - cbn [flat_map app]. rewrite app_nil_r. unfold escaped. destruct (Ascii.eqb a "\"); [done|]. destruct (Ascii.eqb a dquote); [done|].
    cbn. by rewrite (proj2 (N.ltb_lt _ _) Ha).
  - replace (flat_map escaped h) with h; [by rewrite <- (app_nil_r h), Hh|]. clear -Hk. induction Hk as [|a h Ha _ IH]; [done|].
    cbn [flat_map]. rewrite <- IH. unfold escaped. destruct (Ascii.eqb_spec a "\"); [by subst|]. by destruct (Ascii.eqb_spec a dquote); [subst|].
Qed.
Lemma valid_utf8_quote s k : valid_utf8 (bytes_of s) = true → valid_utf8 (bytes_of (quote_k s k)) = valid_utf8 (bytes_of k).
Proof.
  intros Hs. unfold quote_k. change (bytes_of (String.String ?a ?t)) with (a :: bytes_of t). change (valid_utf8 (dquote :: ?t)) with (valid_utf8 t).
  by rewrite bytes_of_app, valid_utf8_app by by apply valid_utf8_escape.
Qed.
Lemma valid_utf8_print v : json_wf v → ∀ k, valid_utf8 (bytes_of k) = true → valid_utf8 (bytes_of (print_k v k)) = true.
Proof.
  induction v as [|b|n|t|s|l IH|l IH] using value_rect'; intros Hwf k Hk.
  - by cbn [print_k]; rewrite bytes_of_app, valid_utf8_app.
  - by destruct b; cbn [print_k]; rewrite bytes_of_app, valid_utf8_app.
  - cbn [print_k]. rewrite bytes_of_app, valid_utf8_app; [done|]. apply valid_utf8_plain, show_plain.
  - by inversion Hwf.
  - inversion Hwf as [| | |? [Hs _]| |]; subst. cbn [print_k]. by rewrite valid_utf8_quote.
  - inversion Hwf as [| | | |? Hl|]; subst. rewrite print_arr, bytes_of_app, valid_utf8_app by done.
    assert (valid_utf8 (bytes_of ("]" +:+ k)) = true) as Hk' by done. clear Hk Hwf. revert Hk'. generalize ("]" +:+ k). intros t Ht.
    induction l as [|x l IHl]; [done|]. apply Forall_cons in IH as [Hx IH]. apply Forall_cons in Hl as [Hwx Hl]. cbn [print_items].
    apply Hx; [done|]. destruct l; [done|]. rewrite bytes_of_app, valid_utf8_app by done. by apply IHl.
  - inversion Hwf as [| | | | |? Hl _]; subst. rewrite print_obj, bytes_of_app, valid_utf8_app by done.
    assert (valid_utf8 (bytes_of ("}" +:+ k)) = true) as Hk' by done. clear Hk Hwf. revert Hk'. generalize ("}" +:+ k). intros t Ht.
    induction l as [|[n x] l IHl]; [done|]. apply Forall_cons in IH as [Hx IH]. apply Forall_cons in Hl as [[[Hn _] Hwx] Hl]. cbn [print_members fst snd] in *.
    rewrite valid_utf8_quote, bytes_of_app, valid_utf8_app by done.
    apply Hx; [done|]. destruct l; [done|]. rewrite bytes_of_app, valid_utf8_app by done. by apply IHl.
Qed.

(* ------------------------------------------------------------------ *)
(** ** A parser of such texts *)

Fixpoint strip_bytes (p l : bytes) : option bytes :=
  match p, l with
  | [], _ => Some l
  | a :: p, b :: l => if Ascii.eqb a b then strip_bytes p l else None
  | _, [] => None
  end.
(** The rest of a string, up to its closing quote. *)
Fixpoint unquote (l : bytes) : option (bytes * bytes) :=
  match l with
  | [] => None
  | a :: r =>
      if Ascii.eqb a dquote then Some ([], r)
      else if Ascii.eqb a "\"%char then
        match r with
        | b :: r' => if Ascii.eqb b dquote || Ascii.eqb b "\"%char then '(s, t) ← unquote r'; Some (b :: s, t) else None
        | [] => None
        end
      else if byte_n a <? 32 then None
      else '(s, t) ← unquote r; Some (a :: s, t)
  end.
Fixpoint span_digits (l : bytes) : bytes * bytes :=
  match l with a :: r => if is_ascii_digit a then let '(d, t) := span_digits r in (a :: d, t) else ([], l) | [] => ([], []) end.
Fixpoint parse_value (fuel : nat) (l : bytes) : option (Value * bytes) :=
  match fuel with
  | O => None
  | S fuel =>
      match l with
      | [] => None
      | a :: r =>
          if Ascii.eqb a "n" then t ← strip_bytes (bytes_of "ull") r; Some (JNull, t)
          else if Ascii.eqb a "t" then t ← strip_bytes (bytes_of "rue") r; Some (JBool true, t)
          else if Ascii.eqb a "f" then t ← strip_bytes (bytes_of "alse") r; Some (JBool false, t)
          else if Ascii.eqb a dquote then '(s, t) ← unquote r; Some (JStr (str_of s), t)
          else if Ascii.eqb a "[" then
            match r with
            | b :: t => if Ascii.eqb b "]" then Some (JArr [], t) else '(vs, t) ← parse_items fuel r; Some (JArr vs, t)
            | [] => None
            end
          else if Ascii.eqb a "{" then
            match r with
            | b :: t => if Ascii.eqb b "}" then Some (JObj [], t) else '(ms, t) ← parse_members fuel r; Some (JObj ms, t)
            | [] => None
            end
          else let '(d, t) := span_digits l in n ← parse_uint u64_max (str_of d); Some (JNum n, t)
      end
  end
with parse_items (fuel : nat) (l : bytes) : option (list Value * bytes) :=
  match fuel with
  | O => None
  | S fuel =>
      '(v, t) ← parse_value fuel l;
      match t with
      | a :: r => if Ascii.eqb a "," then '(vs, u) ← parse_items fuel r; Some (v :: vs, u)
                  else if Ascii.eqb a "]" then Some ([v], r) else None
      | [] => None
      end
  end
with parse_members (fuel : nat) (l : bytes) : option (list (string * Value) * bytes) :=
  match fuel with
  | O => None
  | S fuel =>
      match l with
      | a :: r =>
          if Ascii.eqb a dquote then
            '(s, t) ← unquote r;
            match t with
            | c :: t =>
                if Ascii.eqb c ":" then
                  '(v, t) ← parse_value fuel t;
                  match t with
                  | b :: r => if Ascii.eqb b "," then '(ms, u) ← parse_members fuel r; Some ((str_of s, v) :: ms, u)
                              else if Ascii.eqb b "}" then Some ([(str_of s, v)], r) else None
                  | [] => None
                  end
                else None
            | [] => None
            end
          else None
      | [] => None
      end
  end.
#[local] Instance toy_json : JsonRead := λ s,
  match parse_value (S (2 * String.length s)) (bytes_of s) with Some (v, []) => Ok v | _ => Err "not read" end.

Lemma unquote_escape s t : forallb (λ a, 32 <=? byte_n a) (bytes_of s) = true →
  unquote (bytes_of (escape_json s) ++ dquote :: t) = Some (bytes_of s, t).
Proof.
  induction s as [|a s IH]; [done|]. change (bytes_of (String.String a s)) with (a :: bytes_of s).
  intros [Ha Hs]%andb_true_iff. rewrite escape_cons, bytes_of_app, <- app_assoc. specialize (IH Hs).
  destruct (Ascii.eqb a "\"%char) eqn:E.
  { apply Ascii.eqb_eq in E as ->. cbn [bytes_of String.list_ascii_of_string app unquote].
    change (Ascii.eqb "\"%char dquote) with false. change (Ascii.eqb "\"%char "\"%char) with true. cbv beta iota. cbn [orb]. by rewrite IH. }
  destruct (Ascii.eqb a dquote) eqn:E2.
  { apply Ascii.eqb_eq in E2 as ->. change (bytes_of (String.String "\" (String.String dquote ""))) with ["\"%char; dquote].
    cbn [app unquote]. change (Ascii.eqb "\"%char dquote) with false. change (Ascii.eqb "\"%char "\"%char) with true. change (Ascii.eqb dquote dquote) with true.
    cbn [orb]. by rewrite IH. }
  change (bytes_of (String.String a "")) with [a]. cbn [app unquote]. rewrite E2, E. destruct (byte_n a <? 32) eqn:E3; [nlia|]. by rewrite IH.
Qed.
Lemma span_digits_app d t : forallb is_ascii_digit d = true → match t with a :: _ => is_ascii_digit a = false | [] => True end →
  span_digits (d ++ t) = (d, t).
Proof.
  intros Hd Ht. induction d as [|a d IH]; [destruct t as [|b t]; [done|]; simpl; by rewrite Ht|].
  simpl in *. apply andb_true_iff in Hd as [-> Hd]. by rewrite IH.
Qed.
(** What may follow a value. *)
Definition follows (k : string) : Prop := match bytes_of k with a :: _ => is_ascii_digit a = false | [] => True end.

Lemma quote_bytes s k : bytes_of (quote_k s k) = dquote :: bytes_of (escape_json s) ++ dquote :: bytes_of k.
Proof. unfold quote_k. change (bytes_of (String.String ?a ?s)) with (a :: bytes_of s). by rewrite bytes_of_app. Qed.

Lemma print_length v k : (String.length k ≤ String.length (print_k v k))%nat.
Proof. rewrite print_k_app, string_length_app. lia. Qed.
(** No value starts like the end of an array or an object. *)
Lemma print_first v k : json_wf v → ∃ a t, bytes_of (print_k v k) = a :: t ∧ Ascii.eqb a "]" = false ∧ Ascii.eqb a "}" = false.
Proof.
  intros Hwf. destruct v as [|b|n|t|s|l|l].
  - by eexists _, _.
  - by destruct b; eexists _, _.
  - cbn [print_k]. rewrite bytes_of_app. inversion Hwf as [| |? Hn| | |]; subst. pose proof (show_digits n) as Hd.
    destruct (bytes_of (show n)) as [|a d] eqn:E.
    { exfalso. pose proof (parse_show u64_max n Hn) as Hp. by rewrite <- (str_of_bytes_of (show n)), E in Hp. }
    exists a, (d ++ bytes_of k). split; [done|]. simpl in Hd. apply andb_true_iff in Hd as [Hd _]. split; apply Ascii.eqb_neq; intros ->; done.
  - by inversion Hwf.
  - cbn [print_k]. rewrite quote_bytes. by eexists _, _.
  - rewrite print_arr. by eexists _, _.
  - rewrite print_obj. by eexists _, _.
Qed.

Definition parses (v : Value) : Prop := ∀ k fuel, follows k → (2 * String.length (print_k v k) < fuel)%nat →
  parse_value fuel (bytes_of (print_k v k)) = Some (v, bytes_of k).

Lemma parse_print_items l k : l ≠ [] → Forall parses l → ∀ fuel, (2 * String.length (print_items l ("]" +:+ k)) + 1 < fuel)%nat →
  parse_items fuel (bytes_of (print_items l ("]" +:+ k))) = Some (l, bytes_of k).
Proof.
  induction l as [|x l IH]; [done|]. intros _ [Hx Hl]%Forall_cons fuel Hf. destruct fuel as [|fuel]; [lia|].
  cbn [print_items] in *. pose proof (print_length x (match l with [] => "]" +:+ k | _ => "," +:+ print_items l ("]" +:+ k) end)) as Hlen.
  cbn [parse_items]. destruct l as [|y l].
  - rewrite Hx; [reflexivity|done|lia].
  - rewrite Hx; [|done|lia]. set (r := print_items (y :: l) ("]" +:+ k)) in *.
    change (bytes_of ("," +:+ r)) with (","%char :: bytes_of r). change (String.length ("," +:+ r)) with (S (String.length r)) in Hlen.
    cbn [mbind option_bind]. change (Ascii.eqb "," ",") with true. cbv beta iota. unfold r in *. rewrite IH; [reflexivity|done|done|lia].
Qed.
Lemma quote_length s k : (S (String.length k) ≤ String.length (quote_k s k))%nat.
Proof. unfold quote_k. cbn [String.length]. rewrite string_length_app. cbn [String.length]. lia. Qed.
Lemma parse_print_members l k : l ≠ [] → Forall (λ kv, plain_str kv.1 ∧ parses kv.2) l →
  ∀ fuel, (2 * String.length (print_members l ("}" +:+ k)) + 1 < fuel)%nat →
  parse_members fuel (bytes_of (print_members l ("}" +:+ k))) = Some (l, bytes_of k).
Proof.
  induction l as [|[n x] l IH]; [done|]. intros _ [[[_ Hn] Hx] Hl]%Forall_cons fuel Hf. destruct fuel as [|fuel]; [lia|].
  cbn [print_members fst snd] in *. set (rest := match l with [] => "}" +:+ k | _ => "," +:+ print_members l ("}" +:+ k) end) in *.
  pose proof (quote_length n (":" +:+ print_k x rest)) as Hq. pose proof (print_length x rest) as Hlen.
  change (String.length (":" +:+ print_k x rest)) with (S (String.length (print_k x rest))) in Hq.
  rewrite quote_bytes. cbn [parse_members]. change (Ascii.eqb dquote dquote) with true. cbv beta iota.
  rewrite unquote_escape by done. cbn [mbind option_bind]. change (bytes_of (":" +:+ print_k x rest)) with (":"%char :: bytes_of (print_k x rest)).
  cbv beta iota. change (Ascii.eqb ":" ":") with true. cbv beta iota.
  rewrite Hx; [|by unfold rest; destruct l|lia]. cbn [mbind option_bind]. rewrite str_of_bytes_of. unfold rest in *. destruct l as [|y l].
  - reflexivity.
  - set (r := print_members (y :: l) ("}" +:+ k)) in *.
    change (bytes_of ("," +:+ r)) with (","%char :: bytes_of r). change (String.length ("," +:+ r)) with (S (String.length r)) in Hlen.
    cbv beta iota. change (Ascii.eqb "," ",") with true. cbv beta iota. unfold r in *. rewrite IH; [reflexivity|done|done|lia].
Qed.

Lemma parse_print v : json_wf v → parses v.
Proof.
  induction v as [|b|n|t|s|l IH|l IH] using value_rect'; intros Hwf k fuel Hk Hf; (destruct fuel as [|fuel]; [lia|]).
  - reflexivity.
  - by destruct b.
  - inversion Hwf as [| |? Hn| | |]; subst. cbn [print_k]. rewrite bytes_of_app.
    pose proof (show_digits n) as Hd. destruct (bytes_of (show n)) as [|a d] eqn:E.
    { exfalso. pose proof (parse_show u64_max n Hn) as Hp. rewrite <- (str_of_bytes_of (show n)), E in Hp. done. }
    cbn [app parse_value]. rewrite app_comm_cons.
    assert (is_ascii_digit a = true) as Ha by (simpl in Hd; by apply andb_true_iff in Hd as [? _]).
    assert (∀ c, is_ascii_digit c = false → Ascii.eqb a c = false) as Hne.
    { intros c Hc. apply Ascii.eqb_neq. congruence. }
    rewrite !Hne by done. rewrite <- E in *. rewrite span_digits_app by done. rewrite str_of_bytes_of, parse_show by done. done.
  - by inversion Hwf.
  - inversion Hwf as [| | |? [_ Hs]| |]; subst. cbn [print_k]. rewrite quote_bytes. cbn [parse_value].
    rewrite unquote_escape by done. cbn [mbind option_bind]. by rewrite str_of_bytes_of.
  - inversion Hwf as [| | | |? Hl|]; subst. rewrite print_arr in *. set (t := print_items l ("]" +:+ k)) in *.
    change (bytes_of ("[" +:+ t)) with ("["%char :: bytes_of t). change (String.length ("[" +:+ t)) with (S (String.length t)) in Hf.
    destruct l as [|x l]; [reflexivity|]. cbn [parse_value]. change (Ascii.eqb "[" "[") with true. cbv beta iota.
    apply Forall_cons in Hl as Hxl. destruct (print_first x (match l with [] => "]" +:+ k | _ => "," +:+ print_items l ("]" +:+ k) end)) as (a & u & E & Ha & _); [apply Hxl|].
    assert (bytes_of t = a :: u) as Et by exact E. rewrite Et. cbn -[parse_items]. rewrite Ha, <- Et. unfold t in *.
    rewrite parse_print_items; [reflexivity|done| |lia]. rewrite Forall_forall in IH, Hl. apply Forall_forall. intros y Hy. by apply IH, Hl.
  - inversion Hwf as [| | | | |? Hl _]; subst. rewrite print_obj in *. set (t := print_members l ("}" +:+ k)) in *.
    change (bytes_of ("{" +:+ t)) with ("{"%char :: bytes_of t). change (String.length ("{" +:+ t)) with (S (String.length t)) in Hf.
    destruct l as [|[n x] l]; [reflexivity|]. cbn [parse_value]. change (Ascii.eqb "{" "{") with true. cbv beta iota.
    assert (∃ b u, bytes_of t = b :: u ∧ Ascii.eqb b "}" = false) as (b & u & Et & Hb)
      by (unfold t; cbn [print_members fst]; rewrite quote_bytes; by eexists _, _).
    rewrite Et. cbn -[parse_members]. rewrite Hb, <- Et. unfold t in *.
    rewrite parse_print_members; [reflexivity|done| |lia]. rewrite Forall_forall in IH, Hl. apply Forall_forall. intros y Hy.
    split; [by apply Hl|]. by apply IH, Hl.
Qed.
#[local] Instance toy_json_spec : JsonSpec.
Proof.
  split. intros v Hv _. unfold json_from_str, toy_json. unfold print_json. rewrite parse_print; [done|done|done|lia].
Qed.
