(* ===== verification/PeerFanout.v ===== *)
(** * Asking the peers over HTTP

    The loops by which [HttpAntiNonceTransport] ([adapters/session_persist.rs]),
    [HttpIntentConsumeTransport] ([adapters/intent_consume.rs]) and [HttpDayVoteTransport]
    ([adapters/daily_rotation.rs]) put a question to every peer, and what a claim made
    through them is: a run of the mesh of [QuorumClaim]. *)
From S2P Require Import Prelude RustStr Errors Identity DayEpoch BucketLedger PersistedLedger QuorumClaim AntiNonce IntentConsume DailyRotation HttpPeer Json.
Local Open Scope N_scope.

(** serde_json: the text of a value, and the bodies the transports read ([PrepResp], [VoteResp]). *)
Class PeerJson := {
  json_text : Value → string;
  prep_resp : string → option bool;
  vote_resp : string → option (option string * option string);
}.

Record PeerRequest := mk_peer_request { pr_url : string; pr_headers : list (string * string); pr_body : string }.

(* ------------------------------------------------------------------ *)
(** ** The loop over attempts and the loop over peers *)

Section fan_out.
(** [W]: everything outside, the peers included. [send] is one request to one peer. *)
Context {W : Type} (settings : PeerHttpSettings) (send : PeerRequest → N → W → W * SendOutcome).

Section ask.
Context {A : Type} (req : PeerRequest) (parse : string → res A).
(** [for attempt in 0..attempts]; the pauses between the requests leave no trace. [remaining] counts the range down. *)
Fixpoint ask_loop (remaining : nat) (attempt attempts : N) : dcmd W (option A) := λ w,
  match remaining with
  | O => (w, Ok None)
  | S k =>
      let '(w, o) := send req attempt w in
      match o with
      | Responded status body =>
          if is_success status then (w, a ← parse body; Ok (Some a))
          else if negb (should_retry_status status) || (attempts <=? attempt + 1) then (w, Ok None)
          else ask_loop k (attempt + 1) attempts w
      | SendFailed _ => if attempts <=? attempt + 1 then (w, Ok None) else ask_loop k (attempt + 1) attempts w
      end
  end.
Definition ask_peer : dcmd W (option A) :=
  let attempts := N.max (ph_max_retries settings) 1 in ask_loop (N.to_nat attempts) 0 attempts.
End ask.

(** The peers in turn; those without an answer are left out, an answer that cannot be read ends the call. *)
Fixpoint ask_peers {P A} (req : P → PeerRequest) (parse : P → string → res A) (peers : list P) : dcmd W (list A) :=
  match peers with
  | [] => mret []
  | p :: rest =>
      ack ← ask_peer (req p) (parse p);
      acks ← ask_peers req parse rest;
      mret (match ack with Some a => a :: acks | None => acks end)
  end.
(** [client]: building the HTTP client, not tried when there are no peers. *)
Definition fan_out {P A} (client : res unit) (req : P → PeerRequest) (parse : P → string → res A) (peers : list P) : dcmd W (list A) :=
  match peers with [] => mret [] | _ => _ ← lift client; ask_peers req parse peers end.
End fan_out.

(* ------------------------------------------------------------------ *)
(** ** The transports *)

(** [with_peer_http] and [with_mtls]: under mTLS no token is sent. *)
Record PeerTransport (P : Type) := mk_peer_transport {
  pt_peers : list P;
  pt_auth_token : option string;
  pt_peer_http : PeerHttpSettings;
  pt_tls : bool;
}.
#[global] Arguments mk_peer_transport {P}.
#[global] Arguments pt_peers {P}.
#[global] Arguments pt_auth_token {P}.
#[global] Arguments pt_peer_http {P}.
Definition with_peer_http {P} (peers : list P) (auth_token : option string) (peer_http : PeerHttpSettings) : PeerTransport P :=
  mk_peer_transport peers auth_token peer_http false.
(** [tls]: the outcome of [build_mtls_rustls_client_config]. *)
Definition with_mtls {P} (tls : res unit) (peers : list P) (peer_http : PeerHttpSettings) : res (PeerTransport P) :=
  _ ← tls; Ok (mk_peer_transport peers None peer_http true).
(** [HttpAntiNonceTransport::new]: one attempt, one limit of time (milliseconds). *)
Definition anti_nonce_transport_new (urls : list string) (auth_token : option string) (timeout : N) : PeerTransport string :=
  let h := clearnet_defaults in
  with_peer_http urls auth_token
    (mk_peer_http (ph_transport h) (ph_socks_proxy h) timeout timeout 1 (ph_retry_base_ms h) (ph_retry_jitter_ms h)).

Definition token_header (token : option string) : list (string * string) :=
  match token with Some t => [("X-Vault-Token", t)] | None => [] end.
(** [build_blocking_client]; [client]: what parsing the proxy's URL and building the client say. *)
Definition build_blocking_client (what : string) (h : PeerHttpSettings) (client : result string unit * result string unit) : res unit :=
  _ ← match ph_socks_proxy h with
      | Some _ => map_err (λ e, AttestationRejected (format "VAULT_SOCKS_PROXY invalid: {}" [e])) client.1
      | None => Ok tt
      end;
  map_err (λ e, ThresholdError (format "{} http client: {}" [what; e])) client.2.

Section transports.
Context `{PJ : PeerJson} {W : Type} (send : PeerRequest → N → W → W * SendOutcome).
Context (client : result string unit * result string unit).

Definition intent_prepare_request (t : PeerTransport string) (intent_id : string) (durable : bool) (url : string) : PeerRequest :=
  mk_peer_request url (("Content-Type", "application/json") :: token_header (pt_auth_token t))
    (json_text (JObj [("intent_id", JStr intent_id); ("durable", JBool durable)])).
Definition intent_already_seen (body : string) : res bool :=
  ok_or (prep_resp body) (ThresholdError "intent-consume peer response missing already_seen (fail-closed)").
Definition post_prepare (t : PeerTransport string) (durable : bool) (intent_id : string) : dcmd W (list bool) :=
  fan_out (pt_peer_http t) send (build_blocking_client "intent-consume" (pt_peer_http t) client) (intent_prepare_request t intent_id durable)
    (λ _, intent_already_seen) (pt_peers t).
Definition http_prepare_on_peers (t : PeerTransport string) : string → dcmd W (list bool) := post_prepare t false.
Definition http_durable_prepare_on_peers (t : PeerTransport string) : string → dcmd W (list bool) := post_prepare t true.

Definition session_prepare_request (t : PeerTransport string) (session_id url : string) : PeerRequest :=
  mk_peer_request url (("Content-Type", "application/json") :: token_header (pt_auth_token t))
    (json_text (JObj [("session_id", JStr session_id); ("intent_id", JStr session_id); ("durable", JBool true)])).
Definition session_already_seen (body : string) : res bool :=
  ok_or (prep_resp body) (ThresholdError "anti-nonce peer response missing already_seen (fail-closed)").
Definition http_prepare_session (t : PeerTransport string) (session_id : string) : dcmd W (list bool) :=
  fan_out (pt_peer_http t) send (build_blocking_client "anti-nonce" (pt_peer_http t) client) (session_prepare_request t session_id)
    (λ _, session_already_seen) (pt_peers t).

Definition parse_peer_self_day (body : string) : option DayEpoch :=
  '(self_day, day) ← vote_resp body;
  raw ← match self_day with Some d => Some d | None => day end;
  match day_epoch_parse raw with Ok d => Some d | Err _ => None end.
Definition day_vote_request (t : PeerTransport (string * string)) (local_voter : string) (target : DayEpoch) (peer : string * string) : PeerRequest :=
  mk_peer_request peer.2 (("Content-Type", "application/json") :: ("X-Vault-Node-Id", local_voter) :: token_header (pt_auth_token t))
    (json_text (JObj [("day_epoch", JStr (day_str target)); ("voter", JStr local_voter)])).
(** Whatever a peer answers with success is its vote, for the day asked about when it names none. *)
Definition peer_day_vote (target : DayEpoch) (peer : string * string) (body : string) : res PeerDayVote :=
  Ok {| pv_voter := peer.1; pv_day_epoch := default target (parse_peer_self_day body) |}.
Definition exchange_with_peers (t : PeerTransport (string * string)) (local_voter : string) (target : DayEpoch) : dcmd W (list PeerDayVote) :=
  fan_out (pt_peer_http t) send (build_blocking_client "day-vote" (pt_peer_http t) client) (day_vote_request t local_voter target) (peer_day_vote target) (pt_peers t).
End transports.

(** The in-memory transports: every peer in order, the first error ends the call ([prepare_on_peers] of [QuorumClaim]
    is the durable one). [now]: the clock readings of a peer's soft reservation. *)
Fixpoint memory_prepare_soft (peers : list (string * (N * N))) (id : string) : dcmd (Stores PState) (list bool) :=
  match peers with
  | [] => mret []
  | (p, now) :: rest =>
      b ← at_node p (PeerNotFound p) (prepare_soft now.1 now.2 id);
      bs ← memory_prepare_soft rest id;
      mret (b :: bs)
  end.
(** Each peer records the caller's vote and one of its own. [io]: the outcome of its writes of the votes. *)
Fixpoint memory_exchange (peers : list (string * (result string unit * result string unit))) (local_voter : string) (target : DayEpoch) :
    dcmd (gmap string Rotation) (list PeerDayVote) :=
  match peers with
  | [] => mret []
  | (p, io) :: rest =>
      _ ← at_node p (PeerNotFound p) (record_vote io.1 local_voter target);
      _ ← at_node p (PeerNotFound p) (record_vote io.2 p target);
      votes ← memory_exchange rest local_voter target;
      mret ({| pv_voter := p; pv_day_epoch := target |} :: votes)
  end.
(** [NoopDayVoteTransport], [NoopReshareHook], [RecordingReshareHook]. *)
Definition noop_exchange (local_voter : string) (target : DayEpoch) : res (list PeerDayVote) := Ok [].
Definition noop_on_day_advance (from to : DayEpoch) (participants : list NodeId) : res unit := Ok tt.
Definition recording_on_day_advance (from to : DayEpoch) (participants : list NodeId) : dcmd (list (string * string)) unit :=
  update (λ l, l ++ [(day_str from, day_str to)]).
(** [LedgerDayEpochStub]: its own vote is enough. *)
Definition ledger_stub_new (now : N) : Rotation := rotation_open now 1 "local" false None None.

(* ------------------------------------------------------------------ *)
(** ** What an answer is *)

Section answers.
Context {W A : Type} (settings : PeerHttpSettings) (send : PeerRequest → N → W → W * SendOutcome) (req : PeerRequest) (parse : string → res A).
Context (attempts : N).

(** The attempts, each with the state it leaves, up to the one that ends the loop. *)
Inductive asked_to : N → W → W → res (option A) → Prop :=
| asked_success attempt w w' status body : send req attempt w = (w', Responded status body) → is_success status = true →
    asked_to attempt w w' (a ← parse body; Ok (Some a))
| asked_stop attempt w w' o : send req attempt w = (w', o) → match o with Responded status _ => is_success status = false | _ => True end →
    asked_to attempt w w' (Ok None)
| asked_again attempt w w1 w' r o : send req attempt w = (w1, o) → is_retry o = true → attempt + 1 < attempts →
    asked_to (attempt + 1) w1 w' r → asked_to attempt w w' r.

Lemma ask_loop_asked remaining attempt w : (0 < remaining)%nat → attempt + N.of_nat remaining = attempts →
  asked_to attempt w (ask_loop send req parse remaining attempt attempts w).1 (ask_loop send req parse remaining attempt attempts w).2.
Proof.
  revert attempt w. induction remaining as [|k IH]; intros attempt w Hpos Hsum; [lia|]. cbn [ask_loop].
  destruct (send req attempt w) as [w1 o] eqn:Hs.
  assert (is_retry o = true → (attempts <=? attempt + 1) = false →
    asked_to attempt w (ask_loop send req parse k (attempt + 1) attempts w1).1 (ask_loop send req parse k (attempt + 1) attempts w1).2) as Hagain.
  { intros Hr Hlt. nbool. eapply asked_again; [done..|]. apply IH; lia. }
  destruct o as [status body|e].
  - destruct (is_success status) eqn:Hok; [by eapply asked_success|]. destruct (negb (should_retry_status status)) eqn:Hr; [by eapply asked_stop|].
    destruct (attempts <=? attempt + 1) eqn:Hl; [by eapply asked_stop|]. apply Hagain; [|done]. simpl. rewrite Hok. simpl. by rewrite negb_false_iff in Hr.
  - destruct (attempts <=? attempt + 1) eqn:Hl; [by eapply asked_stop|]. by apply Hagain.
Qed.
End answers.
Lemma ask_peer_asked {W A} settings send req (parse : string → res A) (w : W) :
  asked_to send req parse (N.max (ph_max_retries settings) 1) 0 w (ask_peer settings send req parse w).1 (ask_peer settings send req parse w).2.
Proof. apply ask_loop_asked; lia. Qed.

(* ------------------------------------------------------------------ *)
(** ** Claims over HTTP are claims of the mesh *)

(** The reply to a prepare ([HttpMesh.already_reply]) reads back. *)
Definition prep_text (b : bool) : string := format (q "{{`ok`:true,`already_seen`:{}}}") [show_bool b].
Class PeerJsonSpec `{!PeerJson} : Prop := { prep_text_reads b : prep_resp (prep_text b) = Some b }.

(** What becomes of one request: it does not arrive, something on the way answers it, or the peer handles it
    ([io]: its durable write) and its answer arrives or is lost. *)
Inductive Fate := Unreached (e : string) | Refused (status : N) (body : string) | Handled (io : Io) (lost : option string).

Section claims.
Context {S : Type} `{!PrepareStore S} `{PJ : PeerJson}.

(** The network of one claim of [id]: the peers' durable prepares. *)
Definition peer_send (name_of : string → string) (id : string) (fates : string → N → Fate) :
    PeerRequest → N → Stores S → Stores S * SendOutcome := λ req attempt m,
  let p := name_of (pr_url req) in
  match fates p attempt with
  | Unreached e => (m, SendFailed e)
  | Refused status body => (m, Responded status body)
  | Handled io lost =>
      match m !! p with
      | None => (m, SendFailed "unreachable")
      | Some s =>
          let '(s', r) := st_prepare io id s in
          (<[p := s']> m,
           match lost, r with
           | Some e, _ => SendFailed e
           | None, Ok b => Responded 200 (prep_text b)
           | None, Err e => Responded 400 (fmt_error e)
           end)
      end
  end.
(** Nothing on the way answers in a peer's place. *)
Definition honest_fates (fates : string → N → Fate) : Prop :=
  ∀ p i status body, fates p i = Refused status body → is_success status = true → prep_resp body = None.

Context (nodes : gset string) (peers_of : string → list string).
Notation mstep := (Mesh.step nodes peers_of).
Context `{!PrepareStoreSpec S, !PeerJsonSpec}.
Context (name_of : string → string) (id : string) (fates : string → N → Fate) (Hfates : honest_fates fates).
Notation send := (peer_send name_of id fates).

(** One request: the stores stay, or the peer's takes a prepare. *)
Lemma peer_send_cases req i m m' o : send req i m = (m', o) →
  (m' = m ∧ ∀ status body, o = Responded status body → is_success status = true → prep_resp body = None) ∨
  ∃ s s' io r, m !! name_of (pr_url req) = Some s ∧ st_prepare io id s = (s', r) ∧ m' = <[name_of (pr_url req) := s']> m ∧
    ∀ status body, o = Responded status body → is_success status = true → ∃ b, r = Ok b ∧ body = prep_text b.
Proof.
  unfold peer_send. destruct (fates (name_of (pr_url req)) i) as [e|status body|io lost] eqn:Hf.
  - intros [= <- <-]. left. by split.
  - intros [= <- <-]. left. split; [done|]. intros ? ? [= <- <-]. by eapply Hfates.
  - destruct (m !! name_of (pr_url req)) as [s|] eqn:Hs; [|intros [= <- <-]; left; by split].
    destruct (st_prepare io id s) as [s' r] eqn:Hp. intros [= <- <-]. right. exists s, s', io, r. split_and!; [done..|].
    intros status body Ho Hok. destruct lost; [done|]. destruct r as [b|e]; injection Ho as <- <-; [by exists b|done].
Qed.

Lemma ask_simulated parse fail_read cs i c p ps req attempts attempt m m' r :
  (∀ body, parse body = ok_or (prep_resp body) fail_read) → name_of (pr_url req) = p →
  cs !! i = Some c → Mesh.at_phase c = Mesh.Asking → Mesh.todo c = p :: ps → Mesh.cid c = id →
  asked_to send req parse attempts attempt m m' r →
  steps mstep (m, cs) (m', <[i := match r with
                                  | Ok ack => Mesh.after_peer ack c
                                  | Err e => Mesh.set_phase (Mesh.Finished (Err e)) c
                                  end]> cs).
Proof.
  intros Hparse Hname Hi Hph Ht Hid. induction 1 as [attempt m m' status body Hs Hok|attempt m m' o Hs Ho|attempt m m1 m' r o Hs _ _ _ IH].
  - apply peer_send_cases in Hs as [[-> Hr]|(s & s' & io & r & Hm & Hp & -> & Hr)].
    + rewrite Hparse, (Hr status body) by done. cbn. apply steps_one. by apply Mesh.transport_fails.
    + destruct (Hr status body) as (b & -> & ->); [done..|]. rewrite Hparse, prep_text_reads. cbn. rewrite Hname in *.
      apply steps_one. eapply Mesh.peer_answers; [done..|]. by rewrite Hid.
  - apply peer_send_cases in Hs as [[-> Hr]|(s & s' & io & r & Hm & Hp & -> & Hr)].
    + apply steps_one. by eapply Mesh.peer_unreachable.
    + rewrite Hname in *. apply steps_one. eapply Mesh.peer_answer_lost; [done..|]. by rewrite Hid.
  - apply peer_send_cases in Hs as [[-> Hr]|(s & s' & io & r1 & Hm & Hp & -> & Hr)]; [done|].
    eapply steps_cons; [|exact IH]. eapply Mesh.other; [done|]. intros x. by apply (prepare_mono _ _ _ _ _ x Hp).
Qed.

(** The whole loop: the claim has asked everyone, or the transport failed it. *)
Lemma ask_peers_simulated {P} settings (parse : P → string → res bool) fail_read (req : P → PeerRequest) (peers : list P) cs i c m :
  (∀ p body, parse p body = ok_or (prep_resp body) fail_read) →
  cs !! i = Some c → Mesh.at_phase c = Mesh.Asking → Mesh.todo c = map (λ p, name_of (pr_url (req p))) peers → Mesh.cid c = id →
  ∃ c', steps mstep (m, cs) ((ask_peers settings send req parse peers m).1, <[i := c']> cs) ∧ Mesh.home c' = Mesh.home c ∧ Mesh.cid c' = id ∧
    match (ask_peers settings send req parse peers m).2 with
    | Ok acks => Mesh.at_phase c' = Mesh.Asking ∧ Mesh.todo c' = [] ∧ (Mesh.asked c').*2 = (Mesh.asked c).*2 ++ acks
    | Err e => Mesh.at_phase c' = Mesh.Finished (Err e)
    end.
Proof.
  intros Hparse. revert cs c m. induction peers as [|p peers IH]; intros cs c m Hi Hph Ht Hid.
  { exists c. rewrite list_insert_id by done. split; [apply steps_refl|]. cbn. by rewrite app_nil_r. }
  cbn [ask_peers]. cbn [map] in Ht. pose proof (ask_peer_asked settings send (req p) (parse p) m) as Ha.
  eapply ask_simulated in Ha; [|apply Hparse|reflexivity|done..].
  unfold mbind, cmd_bind. destruct (ask_peer settings send (req p) (parse p) m) as [m1 r1] eqn:Hr1. cbn [fst snd] in Ha.
  destruct r1 as [ack|e]; [|eexists; split; [exact Ha|by split_and!]].
  set (c1 := Mesh.after_peer ack c) in *.
  destruct (IH (<[i := c1]> cs) c1 m1) as (c' & Hst & Hhome & Hcid & Hr).
  { apply list_lookup_insert_eq. by eapply lookup_lt_Some. }
  { done. }
  { unfold c1, Mesh.after_peer. cbn. by rewrite Ht. }
  { done. }
  rewrite list_insert_insert_eq in Hst. exists c'.
  destruct (ask_peers settings send req parse peers m1) as [m2 r2]. cbn [fst snd] in *.
  assert (steps mstep (m, cs) (m2, <[i := c']> cs)) as Hall by (eapply steps_trans; [exact Ha|exact Hst]).
  destruct r2 as [acks|e]; cbn [fst snd mret cmd_ret]; [|by split_and!].
  split; [done|]. split; [done|]. split; [done|]. destruct Hr as (H1 & H2 & H3). split; [done|]. split; [done|].
  rewrite H3. unfold c1, Mesh.after_peer. cbn. rewrite Ht. destruct ack as [b|]; [|done]. rewrite fmap_app, <- app_assoc. done.
Qed.

Lemma fan_out_simulated {P} settings client (parse : P → string → res bool) fail_read (req : P → PeerRequest) (peers : list P) cs i c m :
  (∀ p body, parse p body = ok_or (prep_resp body) fail_read) →
  cs !! i = Some c → Mesh.at_phase c = Mesh.Asking → Mesh.todo c = map (λ p, name_of (pr_url (req p))) peers → Mesh.cid c = id →
  ∃ c', steps mstep (m, cs) ((fan_out settings send client req parse peers m).1, <[i := c']> cs) ∧ Mesh.home c' = Mesh.home c ∧ Mesh.cid c' = id ∧
    match (fan_out settings send client req parse peers m).2 with
    | Ok acks => Mesh.at_phase c' = Mesh.Asking ∧ Mesh.todo c' = [] ∧ (Mesh.asked c').*2 = (Mesh.asked c).*2 ++ acks
    | Err e => Mesh.at_phase c' = Mesh.Finished (Err e)
    end.
Proof.
  intros Hparse Hi Hph Ht Hid. assert (∃ c', steps mstep (m, cs) ((ask_peers settings send req parse peers m).1, <[i := c']> cs) ∧ Mesh.home c' = Mesh.home c ∧ Mesh.cid c' = id ∧
    match (ask_peers settings send req parse peers m).2 with
    | Ok acks => Mesh.at_phase c' = Mesh.Asking ∧ Mesh.todo c' = [] ∧ (Mesh.asked c').*2 = (Mesh.asked c).*2 ++ acks
    | Err e => Mesh.at_phase c' = Mesh.Finished (Err e)
    end) as Hask by (eapply ask_peers_simulated; done).
  destruct peers as [|p peers]; [exact Hask|]. unfold fan_out. destruct client as [[]|e]; [exact Hask|].
  eexists. split; [apply steps_one; by eapply (Mesh.transport_fails _ _ _ _ _ _ e)|]. by split_and!.
Qed.

(** A claim whose peers are asked over HTTP is one claim of the mesh, wherever the requests and
    answers get lost and however often they are repeated. *)
Lemma http_claim_simulated {P} settings client (parse : P → string → res bool) fail_read (req : P → PeerRequest) (peers : list P)
    local_err seen_err node io cs m m' r :
  (∀ p body, parse p body = ok_or (prep_resp body) fail_read) → map (λ p, name_of (pr_url (req p))) peers = peers_of node →
  node ∈ nodes → is_Some (m !! node) →
  quorum_claim local_err seen_err (quorum_of (Mesh.peer_count nodes)) node io (λ _, fan_out settings send client req parse peers) id m = (m', r) →
  ∃ c, steps mstep (m, cs) (m', cs ++ [c]) ∧ Mesh.home c = node ∧ Mesh.cid c = id ∧
    ∃ v, Mesh.at_phase c = Mesh.Finished v ∧ (v = Ok tt ↔ r = Ok tt).
Proof.
  intros Hparse Hpeers Hnode [s Hs] Hq. unfold quorum_claim, at_node in Hq. cbv [mbind cmd_bind] in Hq. rewrite Hs in Hq.
  destruct (st_prepare io id s) as [s' r1] eqn:Hp. set (c0 := Mesh.begin node id (peers_of node)).
  assert ((cs ++ [c0]) !! length cs = Some c0) as H0 by (rewrite lookup_app_r by lia; by rewrite Nat.sub_diag).
  assert (∀ x, <[length cs := x]> (cs ++ [c0]) = cs ++ [x]) as Hins.
  { intros x. rewrite insert_app_r_alt by lia. by rewrite Nat.sub_diag. }
  assert (mstep (m, cs) (m, cs ++ [c0])) as Hstart by by apply Mesh.start.
  assert (mstep (m, cs ++ [c0]) (<[node := s']> m, cs ++ [match r1 with
      | Ok false => Mesh.after_local c0
      | Ok true => Mesh.set_phase (Mesh.Finished (Err (IntentReplay id))) c0
      | Err e => Mesh.set_phase (Mesh.Finished (Err e)) c0 end])) as Hburn.
  { pose proof (Mesh.local_burn nodes peers_of m _ (length cs) c0 s s' io r1 H0 eq_refl Hs Hp) as Hb. rewrite Hins in Hb. exact Hb. }
  destruct r1 as [[]|e].
  - injection Hq as <- <-. eexists. split; [eapply steps_cons; [exact Hstart|apply steps_one, Hburn]|]. do 2 (split; [done|]). by eexists.
  - cbn [mret cmd_ret fail] in Hq. set (c1 := Mesh.after_local c0) in *.
    destruct (fan_out_simulated settings client parse fail_read req peers (cs ++ [c1]) (length cs) c1 (<[node := s']> m)) as (c2 & Hst & Hh & Hid & Hr);
      [done| |done|by cbn|done|].
    { rewrite lookup_app_r by lia. by rewrite Nat.sub_diag. }
    rewrite insert_app_r_alt, Nat.sub_diag in Hst by lia. cbn [list_insert] in Hst.
    destruct (fan_out settings send client req parse peers (<[node := s']> m)) as [m2 r2]. cbn [fst snd] in *.
    destruct r2 as [acks|e].
    + destruct Hr as (H1 & H2 & H3). unfold lift in Hq. injection Hq as <- <-.
      set (v := decide_claim (IntentReplay (Mesh.cid c2)) (quorum_of (Mesh.peer_count nodes)) (Mesh.asked c2).*2).
      exists (Mesh.set_phase (Mesh.Finished v) c2). split_and!.
      * eapply steps_cons; [exact Hstart|]. eapply steps_cons; [exact Hburn|]. eapply steps_trans; [exact Hst|].
        apply steps_one. pose proof (Mesh.conclude nodes peers_of m2 (cs ++ [c2]) (length cs) c2) as Hc.
        rewrite insert_app_r_alt, Nat.sub_diag in Hc by lia. apply Hc; [|done|done]. rewrite lookup_app_r by lia. by rewrite Nat.sub_diag.
      * done.
      * done.
      * exists v. split; [done|]. unfold v. cbn in H3. rewrite H3. cbn. by rewrite !decide_claim_ok.
    + injection Hq as <- <-. eexists. split; [|do 2 (split; [done|]); by eexists].
      eapply steps_cons; [exact Hstart|]. eapply steps_cons; [exact Hburn|exact Hst].
  - injection Hq as <- <-. eexists. split; [eapply steps_cons; [exact Hstart|apply steps_one, Hburn]|]. do 2 (split; [done|]). by eexists.
Qed.
End claims.

(* ------------------------------------------------------------------ *)
(** ** A mesh that claims over HTTP *)

(** One call of a node's ledger: its own durable write, what becomes of its requests, its settings and client. *)
Record HttpClaim := mk_http_claim {
  hc_node : string;
  hc_id : string;
  hc_io : Io;
  hc_fates : string → N → Fate;
  hc_auth_token : option string;
  hc_peer_http : PeerHttpSettings;
  hc_client : result string unit * result string unit;
}.

Section http_mesh.
Context `{PJ : PeerJson, PS : !PeerJsonSpec} (nodes : gset string) (peers_of : string → list string).
(** Every node reaches a peer under an address of its own. *)
Context (url_of name_of : string → string) (Hurl : ∀ p, name_of (url_of p) = p).

Section ledger.
Context {S : Type} `{ST : !PrepareStore S, SS : !PrepareStoreSpec S}.
Context (claim : HttpClaim → dcmd (Stores S) unit).
(** Calls one after another, anywhere in the mesh. *)
Fixpoint run_claims (calls : list HttpClaim) (m : Stores S) : Stores S * list (res unit) :=
  match calls with
  | [] => (m, [])
  | c :: rest => let '(m, r) := claim c m in let '(m, rs) := run_claims rest m in (m, r :: rs)
  end.

Definition claim_in_mesh : Prop := ∀ c cs m m' r, honest_fates (hc_fates c) → hc_node c ∈ nodes → is_Some (m !! hc_node c) →
  claim c m = (m', r) → ∃ d, steps (Mesh.step nodes peers_of) (m, cs) (m', cs ++ [d]) ∧ Mesh.cid d = hc_id c ∧
    ∃ v, Mesh.at_phase d = Mesh.Finished v ∧ (v = Ok tt ↔ r = Ok tt).

Lemma mesh_keeps_nodes st st' p : is_Some (st.1 !! p) → steps (Mesh.step nodes peers_of) st st' → is_Some (st'.1 !! p).
Proof.
  intros Hp Hs. revert Hp. refine (steps_invariant _ (λ st, is_Some (st.1 !! p)) _ _ _ Hs). clear. intros st st' Hp Hs.
  assert (∀ (m : Stores S) q s, is_Some (m !! p) → is_Some (<[q := s]> m !! p)) as Hins.
  { intros m q s [x Hx]. destruct (decide (q = p)) as [->|]; [rewrite lookup_insert_eq|rewrite lookup_insert_ne by done]; by eexists. }
  destruct Hs; cbn [fst] in *; by try apply Hins.
Qed.
(** A claim of the mesh that ended as the call did. *)
Definition ended (d : Mesh.Claim) (c : HttpClaim) (r : res unit) : Prop :=
  Mesh.cid d = hc_id c ∧ ∃ v, Mesh.at_phase d = Mesh.Finished v ∧ (v = Ok tt ↔ r = Ok tt).
Lemma run_claims_in_mesh calls cs m m' rs : claim_in_mesh → (∀ p, p ∈ nodes → is_Some (m !! p)) →
  Forall (λ c, honest_fates (hc_fates c) ∧ hc_node c ∈ nodes) calls → run_claims calls m = (m', rs) →
  ∃ ds, steps (Mesh.step nodes peers_of) (m, cs) (m', cs ++ ds) ∧
    ∀ i r, rs !! i = Some r → ∃ d c, ds !! i = Some d ∧ calls !! i = Some c ∧ ended d c r.
Proof.
  intros Hin Hm Hall. revert cs m m' rs Hm. induction Hall as [|c calls [Hf Hn] _ IH]; intros cs m m' rs Hm Hrun; cbn [run_claims] in Hrun.
  { injection Hrun as <- <-. exists []. rewrite app_nil_r. split; [apply steps_refl|]. intros i r Hi. by rewrite lookup_nil in Hi. }
  destruct (claim c m) as [m1 r1] eqn:Hc. destruct (run_claims calls m1) as [m2 rs2] eqn:Hr2. injection Hrun as <- <-.
  destruct (Hin c cs m m1 r1 Hf Hn (Hm _ Hn) Hc) as (d & Hd & Hid & v & Hv & Hvr).
  destruct (IH (cs ++ [d]) m1 m2 rs2) as (ds & Hds & Hres); [|done|].
  { intros p Hp. exact (mesh_keeps_nodes (m, cs) (m1, cs ++ [d]) p (Hm p Hp) Hd). }
  exists (d :: ds). split.
  - eapply steps_trans; [exact Hd|]. by rewrite <- app_assoc in Hds.
  - intros [|i] r Hi; cbn in Hi; [|by apply Hres]. injection Hi as <-. exists d, c. do 2 (split; [done|]). split; [done|]. by exists v.
Qed.
Lemma claims_win_once m calls m' rs i j ci cj : claim_in_mesh → Mesh.full_mesh nodes peers_of →
  1 ≤ N.of_nat (size nodes) < 9223372036854775808 → (∀ p, p ∈ nodes → is_Some (m !! p)) →
  Forall (λ c, honest_fates (hc_fates c) ∧ hc_node c ∈ nodes) calls → run_claims calls m = (m', rs) →
  calls !! i = Some ci → calls !! j = Some cj → hc_id ci = hc_id cj → rs !! i = Some (Ok tt) → rs !! j = Some (Ok tt) → i = j.
Proof.
  intros Hin Hf Hsz Hm Hall Hrun Hi Hj Hid Hri Hrj. destruct (run_claims_in_mesh calls [] m m' rs Hin Hm Hall Hrun) as (ds & Hs & Hres).
  destruct (Hres i _ Hri) as (di & ci' & Hdi & Hci & Hidi & vi & Hvi & [_ Hoki]). destruct (Hres j _ Hrj) as (dj & cj' & Hdj & Hcj & Hidj & vj & Hvj & [_ Hokj]).
  rewrite Hoki in Hvi by done. rewrite Hokj in Hvj by done.
  eapply (Mesh.inv_single_winner nodes peers_of m' ds i j di dj); [done|done|by eapply Mesh.inv_reached|done|done| |done|done]. congruence.
Qed.
End ledger.

(** The two ledgers: [QuorumAntiNonce::claim_session] and [QuorumBucketLedger::claim_consume] over their HTTP transports. *)
Definition claim_transport (c : HttpClaim) : PeerTransport string :=
  with_peer_http (map url_of (peers_of (hc_node c))) (hc_auth_token c) (hc_peer_http c).
Definition http_claim_session (c : HttpClaim) : dcmd (Stores AntiNonce) unit :=
  quorum_claim_session (Mesh.peer_count nodes) (hc_node c) (hc_io c)
    (http_prepare_session (peer_send name_of (hc_id c) (hc_fates c)) (hc_client c) (claim_transport c)) (hc_id c).
Definition http_claim_consume (c : HttpClaim) : dcmd (Stores PState) unit :=
  claim_consume (Mesh.peer_count nodes) (hc_node c) (hc_io c)
    (http_durable_prepare_on_peers (peer_send name_of (hc_id c) (hc_fates c)) (hc_client c) (claim_transport c)) (hc_id c).

Lemma names_of_urls l (req : string → PeerRequest) : (∀ u, pr_url (req u) = u) → map (λ u, name_of (pr_url (req u))) (map url_of l) = l.
Proof. intros Hr. induction l as [|p l IH]; [done|]. cbn. by rewrite Hr, Hurl, IH. Qed.
Lemma session_claims_in_mesh : claim_in_mesh http_claim_session.
Proof.
  intros c cs m m' r Hf Hn Hs Hc. unfold http_claim_session, quorum_claim_session in Hc.
  destruct (http_claim_simulated nodes peers_of name_of (hc_id c) (hc_fates c) Hf (hc_peer_http c) (build_blocking_client "anti-nonce" (hc_peer_http c) (hc_client c))
    (λ _ : string, session_already_seen) _ (session_prepare_request (claim_transport c) (hc_id c)) (map url_of (peers_of (hc_node c)))
    _ _ (hc_node c) (hc_io c) cs m m' r (λ _ _, eq_refl) (names_of_urls _ (session_prepare_request (claim_transport c) (hc_id c)) (λ _, eq_refl)) Hn Hs Hc)
    as (d & Hst & _ & Hid & Hv). by exists d.
Qed.
Lemma intent_claims_in_mesh : claim_in_mesh http_claim_consume.
Proof.
  intros c cs m m' r Hf Hn Hs Hc. unfold http_claim_consume, claim_consume in Hc.
  destruct (http_claim_simulated nodes peers_of name_of (hc_id c) (hc_fates c) Hf (hc_peer_http c) (build_blocking_client "intent-consume" (hc_peer_http c) (hc_client c))
    (λ _ : string, intent_already_seen) _ (intent_prepare_request (claim_transport c) (hc_id c) true) (map url_of (peers_of (hc_node c)))
    _ _ (hc_node c) (hc_io c) cs m m' r (λ _ _, eq_refl) (names_of_urls _ (intent_prepare_request (claim_transport c) (hc_id c) true) (λ _, eq_refl)) Hn Hs Hc)
    as (d & Hst & _ & Hid & Hv). by exists d.
Qed.

(** C4. Session ids and intent ids claimed over HTTP are single-use across the mesh. In a full mesh of
    vaults, whatever is claimed by whom in whatever order, and whatever becomes of each request of each
    claim (it does not arrive, it is turned away, its answer is lost and it is sent again, the peer's own write fails), no
    session id and no intent id is claimed with success twice. *)
Theorem http_claims_single_use (an : Stores AntiNonce) (bl : Stores PState) calls : Mesh.full_mesh nodes peers_of →
  1 ≤ N.of_nat (size nodes) < 9223372036854775808 → (∀ p, p ∈ nodes → is_Some (an !! p) ∧ is_Some (bl !! p)) →
  Forall (λ c, honest_fates (hc_fates c) ∧ hc_node c ∈ nodes) calls →
  ∀ i j ci cj, calls !! i = Some ci → calls !! j = Some cj → hc_id ci = hc_id cj →
  ((run_claims http_claim_session calls an).2 !! i = Some (Ok tt) → (run_claims http_claim_session calls an).2 !! j = Some (Ok tt) → i = j) ∧
  ((run_claims http_claim_consume calls bl).2 !! i = Some (Ok tt) → (run_claims http_claim_consume calls bl).2 !! j = Some (Ok tt) → i = j).
Proof.
  intros Hf Hsz Hm Hall i j ci cj Hi Hj Hid. split; intros Hri Hrj.
  - apply (claims_win_once http_claim_session an calls _ _ i j ci cj session_claims_in_mesh Hf Hsz (λ p Hp, proj1 (Hm p Hp)) Hall (surjective_pairing _)); done.
  - apply (claims_win_once http_claim_consume bl calls _ _ i j ci cj intent_claims_in_mesh Hf Hsz (λ p Hp, proj2 (Hm p Hp)) Hall (surjective_pairing _)); done.
Qed.
End http_mesh.

(* ------------------------------------------------------------------ *)
(** ** Day votes over HTTP *)

Section day_votes.
Context `{PJ : PeerJson} {W : Type} (send : PeerRequest → N → W → W * SendOutcome).

(** Peers that answer with success and name no day have voted for the day asked about: reachability is consent. *)
Lemma exchange_counts_answers (t : PeerTransport (string * string)) voter target w :
  (∀ req i w, ∃ w' status body, send req i w = (w', Responded status body) ∧ is_success status = true ∧ parse_peer_self_day body = None) →
  (exchange_with_peers send (Ok tt, Ok tt) t voter target w).2 =
    Ok (map (λ p, {| pv_voter := p.1; pv_day_epoch := target |}) (pt_peers t)).
Proof.
  intros Hs. unfold exchange_with_peers. assert (∀ peers w, (ask_peers (pt_peer_http t) send (day_vote_request t voter target) (peer_day_vote target) peers w).2 =
    Ok (map (λ p, {| pv_voter := p.1; pv_day_epoch := target |}) peers)) as Hask.
  { clear w. intros peers. induction peers as [|p peers IH]; intros w; [done|]. cbn [ask_peers].
    assert (∃ w', ask_peer (pt_peer_http t) send (day_vote_request t voter target p) (peer_day_vote target p) w =
      (w', Ok (Some {| pv_voter := p.1; pv_day_epoch := target |}))) as [w' Hp].
    { unfold ask_peer. destruct (N.to_nat (N.max (ph_max_retries (pt_peer_http t)) 1)) as [|k] eqn:E; [lia|]. cbn [ask_loop].
      destruct (Hs (day_vote_request t voter target p) 0 w) as (w' & status & body & -> & -> & Hb). exists w'.
      unfold peer_day_vote. by rewrite Hb. }
    unfold mbind, cmd_bind. rewrite Hp. specialize (IH w'). destruct (ask_peers _ _ _ _ peers w') as [w2 r2]. cbn [snd] in IH. by rewrite IH. }
  unfold fan_out, build_blocking_client. destruct (pt_peers t) as [|p peers]; [done|]. destruct (ph_socks_proxy _); exact (Hask (p :: peers) w).
Qed.
End day_votes.
