(* ===== verification/PeerLink.v ===== *)
(** * The links between vaults ([adapters/auth_mtls.rs], [tls_peer_verify.rs], [tls_mtls_acceptor.rs]
    and the outbound halves of [dkg_wire.rs], [dkg_tr_wire.rs], [reshare_wire.rs], [frost_wire_cosign.rs])

    The TLS configurations of both sides, the HTTP clients, the fan-outs of the key
    ceremonies over them, and what a fan-out of a key generation among serving vaults reaches. PEM parsing and handshakes are rustls', the requests reqwest's. *)
From S2P Require Import Prelude RustStr RustParse Errors Identity PersistedLedger Frost HybridEnvelope WireDkg WireHub FrostShares ShareReshare FrostSign Cosign HttpPeer PeerTrust.
From S2P Require Import ConfigEnv Config AuthIdentity RateLimit HttpRoute HttpMesh HttpDkg PeerFanout.
Local Open Scope N_scope.

(* ------------------------------------------------------------------ *)
(** ** TLS configurations *)

(** The alternative names of a certificate, as [x509_parser] gives them. *)
Inductive GeneralName := GnUri (u : string) | GnDns (d : string) | GnOther.

(** rustls, rustls-pemfile and x509-parser. [pem_certs]: the certificates of a PEM text in order,
    each with the error of reading it; [alt_names]: [None] without a readable extension. *)
Class TlsLib := {
  Certificate : Type;
  PrivateKey : Type;
  pem_certs : bytes → list (result string Certificate);
  pem_private_key : bytes → result string (option PrivateKey);
  root_add : Certificate → result string unit;
  server_verifier_build : list Certificate → result string unit;
  client_verifier_build : list Certificate → result string unit;
  single_cert : list Certificate → PrivateKey → result string unit;
  client_auth_cert : list Certificate → PrivateKey → result string unit;
  alt_names : Certificate → result string (option (list GeneralName));
}.

Section tls.
Context `{TL : TlsLib}.
(** [std::fs::read]. *)
Context (read : string → result string bytes).

Definition rejected_with (what : string) (args : list string) (e : string) : DomainError :=
  AuthRejected (format what (args ++ [e])).
Definition read_pem (var path : string) : res bytes :=
  map_err (rejected_with "read {} {}: {}" [var; path]) (read path).
(** [collect::<Result<Vec<_>, _>>]. *)
Fixpoint collect_certs (what : string) (l : list (result string Certificate)) : res (list Certificate) :=
  match l with
  | [] => Ok []
  | c :: rest =>
      c ← map_err (rejected_with what []) c;
      cs ← collect_certs what rest;
      Ok (c :: cs)
  end.
(** The loop that fills a [RootCertStore]. *)
Fixpoint add_roots (parse add : string) (l : list (result string Certificate)) (roots : list Certificate) : res (list Certificate) :=
  match l with
  | [] => Ok roots
  | ca :: rest =>
      ca ← map_err (rejected_with parse []) ca;
      _ ← map_err (rejected_with add []) (root_add ca);
      add_roots parse add rest (roots ++ [ca])
  end.
Definition nonempty_certs (var : string) (l : list Certificate) : res (list Certificate) :=
  if bool_decide (len l = 0) then Err (AuthRejected (format "{} contains no certificates" [var])) else Ok l.
Definition private_key (what var : string) (pem : bytes) : res PrivateKey :=
  key ← map_err (rejected_with what []) (pem_private_key pem);
  ok_or key (AuthRejected (format "{} contains no private key" [var])).

(** [rustls::ServerConfig] with a client certificate verifier. *)
Record ServerConfig := mk_server_config {
  sc_client_roots : list Certificate;
  sc_certs : list Certificate;
  sc_key : PrivateKey;
  sc_alpn : list string;
}.
Definition build_mtls_server_config (cert_path key_path client_ca_path : string) : res ServerConfig :=
  cert_pem ← read_pem "VAULT_TLS_CERT_PATH" cert_path;
  key_pem ← read_pem "VAULT_TLS_KEY_PATH" key_path;
  ca_pem ← read_pem "VAULT_TLS_CLIENT_CA_PATH" client_ca_path;
  certs ← collect_certs "parse server cert PEM: {}" (pem_certs cert_pem);
  certs ← nonempty_certs "VAULT_TLS_CERT_PATH" certs;
  key ← private_key "parse server key PEM: {}" "VAULT_TLS_KEY_PATH" key_pem;
  roots ← add_roots "parse client CA PEM: {}" "add client CA: {}" (pem_certs ca_pem) [];
  roots ← nonempty_certs "VAULT_TLS_CLIENT_CA_PATH" roots;
  _ ← map_err (rejected_with "client cert verifier: {}" []) (client_verifier_build roots);
  _ ← map_err (rejected_with "mTLS server cert/key: {}" []) (single_cert certs key);
  Ok (mk_server_config roots certs key ["h2"; "http/1.1"]).

Definition load_root_store (ca_path : string) : res (list Certificate) :=
  ca_pem ← read_pem "VAULT_TLS_CLIENT_CA_PATH" ca_path;
  roots ← add_roots "parse peer CA PEM: {}" "add peer CA: {}" (pem_certs ca_pem) [];
  nonempty_certs "VAULT_TLS_CLIENT_CA_PATH" roots.
Definition load_client_identity (cert_path key_path : string) : res (list Certificate * PrivateKey) :=
  cert_pem ← read_pem "VAULT_TLS_CLIENT_CERT_PATH" cert_path;
  key_pem ← read_pem "VAULT_TLS_CLIENT_KEY_PATH" key_path;
  certs ← collect_certs "parse client cert PEM: {}" (pem_certs cert_pem);
  certs ← nonempty_certs "VAULT_TLS_CLIENT_CERT_PATH" certs;
  key ← private_key "parse client key PEM: {}" "VAULT_TLS_CLIENT_KEY_PATH" key_pem;
  Ok (certs, key).

(** [rustls::ClientConfig]: webpki's verifier when [cc_verifier] is [None]. *)
Record ClientConfig := mk_client_config {
  cc_roots : list Certificate;
  cc_verifier : option OnionOrSpiffeVerifier;
  cc_certs : list Certificate;
  cc_key : PrivateKey;
}.
Definition build_mtls_rustls_client_config (cert_path key_path ca_path : string) (verify : TlsPeerVerifyPolicy) : res ClientConfig :=
  roots ← load_root_store ca_path;
  '(certs, key) ← load_client_identity cert_path key_path;
  verifier ← policy_verifier verify;
  _ ← map_err (rejected_with "peer TLS verifier: {}" []) (server_verifier_build roots);
  _ ← map_err (rejected_with "mTLS client identity: {}" []) (client_auth_cert certs key);
  Ok (mk_client_config roots verifier certs key).

Definition extract_sans (leaf : Certificate) : res (list string * list string) :=
  names ← map_err (λ e, AuthRejected (format "parse peer cert for SAN: {}" [e])) (alt_names leaf);
  Ok (omap (λ n, match n with GnUri u => Some u | _ => None end) (default [] names),
      omap (λ n, match n with GnDns d => Some d | _ => None end) (default [] names)).
(** [PeerCertAcceptor::accept]: what the handlers see of the certificates the handshake verified. *)
Definition accepted_leaf (peer_certificates : option (list Certificate)) : option Certificate :=
  certs ← peer_certificates; head certs.
End tls.

(* ------------------------------------------------------------------ *)
(** ** The clients of the ceremony hubs *)

(** [WireDkgPeerAuth], and [WireResharePeerAuth] of the reshare hub. *)
Inductive WireDkgPeerAuth :=
| WireStaticToken (token : string)
| WireMutualTls (client_cert_path client_key_path ca_path : string) (verify : TlsPeerVerifyPolicy).
Definition is_mtls (a : WireDkgPeerAuth) : bool := match a with WireMutualTls _ _ _ _ => true | WireStaticToken _ => false end.
Definition apply_peer_auth_headers (a : WireDkgPeerAuth) : list (string * string) :=
  match a with WireStaticToken token => [("X-Vault-Token", token)] | WireMutualTls _ _ _ _ => [] end.

(** [PeerHttpSettings::apply_builder]; [proxy]: what parsing the proxy's URL says. *)
Record ClientBuilder := mk_builder { cb_timeout : N; cb_connect_timeout : N; cb_proxy : option string }.
Definition apply_builder (h : PeerHttpSettings) (proxy : string → result string unit) : res ClientBuilder :=
  _ ← match ph_socks_proxy h with
      | Some url => map_err (λ e, AttestationRejected (format "VAULT_SOCKS_PROXY invalid: {}" [e])) (proxy url)
      | None => Ok tt
      end;
  Ok (mk_builder (ph_timeout h) (ph_connect_timeout h) (ph_socks_proxy h)).

Section clients.
Context `{TL : TlsLib}.
Context (read : string → result string bytes) (proxy : string → result string unit) (build : result string unit).

(** [reqwest::Client]. *)
Record HttpClient := mk_client { hc_builder : ClientBuilder; hc_tls : option ClientConfig }.
Definition finish_client (plain mtls : string) (builder : ClientBuilder) (auth : WireDkgPeerAuth) : res HttpClient :=
  match auth with
  | WireStaticToken _ =>
      _ ← map_err (λ e, ThresholdError (format plain [e])) build; Ok (mk_client builder None)
  | WireMutualTls cert key ca verify =>
      tls ← build_mtls_rustls_client_config read cert key ca verify;
      _ ← map_err (λ e, ThresholdError (format mtls [e])) build; Ok (mk_client builder (Some tls))
  end.
Definition build_http_client (auth : WireDkgPeerAuth) (h : PeerHttpSettings) : res HttpClient :=
  builder ← apply_builder h proxy;
  finish_client "dkg http client: {}" "dkg mTLS http client: {}" builder auth.
Definition build_tr_http_client (auth : WireDkgPeerAuth) (h : PeerHttpSettings) : res HttpClient :=
  builder ← apply_builder h proxy;
  finish_client "tr dkg http client: {}" "tr dkg mTLS http client: {}" builder auth.
(** Its timeout comes from the backoff delay, and the proxy of the settings is not applied. *)
Definition build_reshare_http_client (jitter : N) (auth : WireDkgPeerAuth) (h : PeerHttpSettings) : res HttpClient :=
  finish_client "reshare http client: {}" "reshare mTLS http: {}"
    (mk_builder (3 * backoff_delay h 0 jitter) 10000 None) auth.
End clients.

Definition peer_base_url (addr : string) (mtls : bool) : string :=
  if starts_with "http://" addr || starts_with "https://" addr then
    if mtls && starts_with "http://" addr then "https://" +:+ trim_start_matches "http://" addr else addr
  else if mtls then "https://" +:+ addr else "http://" +:+ addr.
Definition reshare_base_url (addr : string) (mtls : bool) : string :=
  if mtls then "https://" +:+ addr else "http://" +:+ addr.

(* ------------------------------------------------------------------ *)
(** ** The fan-outs *)

(** The configuration of a hub; what its three kinds say differently. *)
Record HubLink := mk_link {
  lk_local_node_id : string;
  lk_peer_addrs : gmap string string;
  lk_peer_auth : WireDkgPeerAuth;
  lk_peer_http : PeerHttpSettings;
}.
Record FanoutRoutes := mk_routes {
  fr_base : string → bool → string;
  fr_round1 : string; fr_round2 : string;   (** paths *)
  fr_what1 : string; fr_what2 : string;     (** names of the rounds in errors *)
  fr_no_peer : string;
}.
Definition dkg_routes : FanoutRoutes := mk_routes peer_base_url "/v1/dkg/round1" "/v1/dkg/round2"
  "round1" "round2" "no peer addr for {}".
Definition tr_dkg_routes : FanoutRoutes := mk_routes peer_base_url "/v1/dkg/tr/round1" "/v1/dkg/tr/round2"
  "tr round1" "tr round2" "no TR peer addr for {}".
Definition reshare_routes : FanoutRoutes := mk_routes reshare_base_url "/v1/reshare/tr/round1" "/v1/reshare/tr/round2"
  "reshare r1" "reshare r2" "unknown reshare peer: {}".

Section fanout.
Context `{ST : StatusText}.
(** [W]: everything outside, the peers included. [send] is one request. *)
Context {W : Type} (send : PeerRequest → N → W → W * SendOutcome) (jitter : N → N).

(** [post_json_with_retry] of [HttpPeer] with the world in between; the pauses leave no trace in it. *)
Fixpoint post_attempts (req : PeerRequest) (remaining : nat) (attempt attempts : N) (last_err : string) : dcmd W (N * string) := λ w,
  match remaining with
  | O => (w, Err (ThresholdError (format "peer POST {}: {}" [pr_url req; last_err])))
  | S k =>
      let '(w, o) := send req attempt w in
      match o with
      | Responded status body =>
          if is_success status then (w, Ok (status, body))
          else
            let err := format "HTTP {}: {}" [status_text status; body] in
            if negb (should_retry_status status) || (attempts <=? attempt + 1)
            then (w, Err (ThresholdError (format "peer POST {}: {}" [pr_url req; err])))
            else post_attempts req k (attempt + 1) attempts err w
      | SendFailed e =>
          if attempts <=? attempt + 1 then (w, Err (ThresholdError (format "peer POST {}: {}" [pr_url req; e])))
          else post_attempts req k (attempt + 1) attempts e w
      end
  end.
Definition post_json (h : PeerHttpSettings) (req : PeerRequest) : dcmd W (N * string) :=
  let attempts := N.max (ph_max_retries h) 1 in post_attempts req (N.to_nat attempts) 0 attempts "".

Context (routes : FanoutRoutes) (hub : HubLink).
Definition link_request (path addr body : string) : PeerRequest :=
  mk_peer_request (fr_base routes addr (is_mtls (lk_peer_auth hub)) +:+ path)
    (("Content-Type", "application/json") :: apply_peer_auth_headers (lk_peer_auth hub)) body.
(** One post of a fan-out: the response must be a success. *)
Definition post_to_peer (what path peer addr body : string) : dcmd W unit :=
  r ← on_error (λ e, ThresholdError (format "{} fanout to {}: {}" [what; peer; fmt_error e]))
        (post_json (lk_peer_http hub) (link_request path addr body));
  if is_success r.1 then mret tt
  else fail (ThresholdError (format "{} fanout to {} failed: {}" [what; peer; r.2])).

Fixpoint round1_to (peers : list (string * string)) (body : string) : dcmd W unit :=
  match peers with
  | [] => mret tt
  | (peer, addr) :: rest =>
      if bool_decide (peer = lk_local_node_id hub) then round1_to rest body
      else _ ← post_to_peer (fr_what1 routes) (fr_round1 routes) peer addr body; round1_to rest body
  end.
Definition fanout_round1 (body : string) : dcmd W unit := round1_to (bt_iter (lk_peer_addrs hub)) body.

(** The messages of round 2: each with its recipient and its text. *)
Fixpoint fanout_round2 (messages : list (string * string)) : dcmd W unit :=
  match messages with
  | [] => mret tt
  | (recipient, body) :: rest =>
      addr ← lift (ok_or (lk_peer_addrs hub !! recipient) (ThresholdError (format (fr_no_peer routes) [recipient])));
      _ ← post_to_peer (fr_what2 routes) (fr_round2 routes) recipient addr body;
      fanout_round2 rest
  end.
End fanout.

(* ------------------------------------------------------------------ *)
(** ** The posts of a co-signature *)

Section cosign_posts.
Context `{TL : TlsLib, ST : StatusText} (read : string → result string bytes) (proxy : string → result string unit) (build : result string unit).
Context {W : Type} (send : PeerRequest → N → W → W * SendOutcome).

Record HttpTrCosignTransport := mk_tr_transport {
  ht_peers : list (string * string);
  ht_auth_token : option string;
  ht_peer_http : PeerHttpSettings;
  ht_tls : option ClientConfig;
}.
Definition cosign_with_peer_http (peers : list (string * string)) (auth_token : option string) (h : PeerHttpSettings) :
    HttpTrCosignTransport := mk_tr_transport peers auth_token h None.
Definition cosign_with_mtls (peers : list (string * string)) (h : PeerHttpSettings) (cert key ca : string)
    (verify : TlsPeerVerifyPolicy) : res HttpTrCosignTransport :=
  tls ← build_mtls_rustls_client_config read cert key ca verify;
  Ok (mk_tr_transport peers None h (Some tls)).
Definition cosign_client (t : HttpTrCosignTransport) : res HttpClient :=
  builder ← apply_builder (ht_peer_http t) proxy;
  _ ← map_err (λ e, ThresholdError (format "TR co-sign http client: {}" [e])) build;
  Ok (mk_client builder (ht_tls t)).

(** [post_json_with_retry_blocking] of [HttpPeer] with the world in between. *)
Fixpoint blocking_attempts (h : PeerHttpSettings) (req : PeerRequest) (remaining : nat) (attempt : N) : dcmd W (N * string) := λ w,
  match remaining with
  | O => (w, Err (ThresholdError (format "TR co-sign HTTP {}: {}" [pr_url req; ""])))
  | S k =>
      let attempt := attempt + 1 in
      let '(w, o) := send req attempt w in
      match o with
      | Responded status body => (w, Ok (status, body))
      | SendFailed e =>
          if attempt <? N.max (ph_max_retries h) 1 then blocking_attempts h req k attempt w
          else (w, Err (ThresholdError (format "TR co-sign HTTP {}: {}" [pr_url req; e])))
      end
  end.
Definition cosign_post {R} (t : HttpTrCosignTransport) (decode : string → result string R) (base path body : string) : dcmd W R :=
  let url := base +:+ path in
  _ ← lift (cosign_client t);
  r ← blocking_attempts (ht_peer_http t)
        (mk_peer_request url (("Content-Type", "application/json") :: token_header (ht_auth_token t)) body)
        (N.to_nat (N.max (ph_max_retries (ht_peer_http t)) 1)) 0;
  if negb (is_success r.1) then
    fail (ThresholdError (format "TR co-sign peer {} failed ({}): {}" [url; status_text r.1; r.2]))
  else lift (map_err (λ e, ThresholdError (format "TR co-sign peer decode: {}" [e])) (decode r.2)).
End cosign_posts.

(* ------------------------------------------------------------------ *)
(** ** What the clients check *)

Section configs.
Context `{TL : TlsLib} (read : string → result string bytes).

Lemma collect_certs_ok what l cs : collect_certs what l = Ok cs ↔ l = Ok <$> cs.
Proof.
  split.
  - revert cs. induction l as [|[c|e] l IH]; intros cs; cbn; [by intros [= <-]| |done].
    destruct (collect_certs what l) as [cs'|e] eqn:E; cbn; [intros [= <-]|done]. cbn. by rewrite (IH cs').
  - intros ->. induction cs as [|c cs IH]; [done|]. cbn. by rewrite IH.
Qed.

Lemma add_roots_ok parse add l roots r :
  add_roots parse add l roots = Ok r → ∃ cs, l = Ok <$> cs ∧ r = roots ++ cs ∧ Forall (λ c, is_ok (root_add c) = true) cs.
Proof.
  revert roots. induction l as [|[c|e] l IH]; intros roots; cbn; [|destruct (root_add c) as [[]|] eqn:Hc; cbn|done].
  - intros [= <-]. exists []. by rewrite (right_id_L [] (++)).
  - intros (cs & -> & -> & Hcs)%IH. exists (c :: cs). rewrite <- (assoc_L (++)). split_and!; [done..|].
    constructor; [by rewrite Hc|done].
  - done.
Qed.

Lemma nonempty_certs_ok var l r : nonempty_certs var l = Ok r ↔ l ≠ [] ∧ r = l.
Proof. unfold nonempty_certs. destruct l; case_bool_decide as H; cbn in *; unfold len in *; cbn in *; naive_solver lia. Qed.

(** The certificates and the key of two files. *)
Definition identity_in (cert_path key_path : string) (certs : list Certificate) (key : PrivateKey) : Prop :=
  certs ≠ [] ∧ (∃ pem, read cert_path = Ok pem ∧ pem_certs pem = Ok <$> certs) ∧
  ∃ pem, read key_path = Ok pem ∧ pem_private_key pem = Ok (Some key).
(** The certification authorities of a file. *)
Definition roots_in (ca_path : string) (roots : list Certificate) : Prop :=
  roots ≠ [] ∧ ∃ pem, read ca_path = Ok pem ∧ pem_certs pem = Ok <$> roots.

Lemma map_err_ok {E F A} (f : E → F) (r : result E A) x : map_err f r = Ok x ↔ r = Ok x.
Proof. destruct r; cbn; naive_solver. Qed.
Lemma private_key_ok what var pem key : private_key what var pem = Ok key → pem_private_key pem = Ok (Some key).
Proof. unfold private_key. rewrite bind_ok. intros (k & Hk%map_err_ok & ->%ok_or_ok). done. Qed.
Lemma load_root_store_ok path roots : load_root_store read path = Ok roots → roots_in path roots.
Proof.
  unfold load_root_store, read_pem. rewrite bind_ok. intros (pem & Hp%map_err_ok & H).
  apply bind_ok in H as (r & (cs & Hcs & -> & _)%add_roots_ok & [Hne ->]%nonempty_certs_ok). split; [done|]. by exists pem.
Qed.
Lemma load_client_identity_ok cert key cs k : load_client_identity read cert key = Ok (cs, k) → identity_in cert key cs k.
Proof.
  unfold load_client_identity, read_pem. rewrite bind_ok. intros (cp & Hc%map_err_ok & H).
  apply bind_ok in H as (kp & Hk%map_err_ok & H). apply bind_ok in H as (cs' & Hcs%collect_certs_ok & H).
  apply bind_ok in H as (cs'' & [Hne ->]%nonempty_certs_ok & H). apply bind_ok in H as (k' & Hk'%private_key_ok & [= <- <-]).
  repeat split; eauto.
Qed.

(** An mTLS server verifies clients against exactly the authorities of its CA file, of which there is one, and
    presents the chain and key of its own files. *)
Lemma server_config_ok cert key ca c : build_mtls_server_config read cert key ca = Ok c →
  roots_in ca (sc_client_roots c) ∧ identity_in cert key (sc_certs c) (sc_key c).
Proof.
  unfold build_mtls_server_config, read_pem. rewrite bind_ok. intros (cp & Hc%map_err_ok & H).
  apply bind_ok in H as (kp & Hk%map_err_ok & H). apply bind_ok in H as (ap & Ha%map_err_ok & H).
  apply bind_ok in H as (cs' & Hcs%collect_certs_ok & H). apply bind_ok in H as (cs'' & [Hne ->]%nonempty_certs_ok & H).
  apply bind_ok in H as (k' & Hk'%private_key_ok & H). apply bind_ok in H as (r & (rs & Hrs & -> & _)%add_roots_ok & H).
  apply bind_ok in H as (r' & [Hner ->]%nonempty_certs_ok & H). apply bind_ok in H as ([] & _ & H).
  apply bind_ok in H as ([] & _ & [= <-]). cbn. repeat split; eauto.
Qed.

(** An mTLS client trusts the authorities of its CA file, shows the identity of its own files and checks its peers
    by the policy. *)
Lemma client_config_ok cert key ca verify c : build_mtls_rustls_client_config read cert key ca verify = Ok c →
  roots_in ca (cc_roots c) ∧ identity_in cert key (cc_certs c) (cc_key c) ∧ policy_verifier verify = Ok (cc_verifier c).
Proof.
  unfold build_mtls_rustls_client_config. rewrite bind_ok. intros (roots & Hr%load_root_store_ok & H).
  apply bind_ok in H as ([cs k] & Hi%load_client_identity_ok & H). apply bind_ok in H as (v & Hv & H).
  apply bind_ok in H as ([] & _ & H). apply bind_ok in H as ([] & _ & [= <-]). done.
Qed.

Context (proxy : string → result string unit) (build : result string unit).
(** The TLS side of a client is what the authentication asks for. *)
Definition tls_for (auth : WireDkgPeerAuth) (tls : option ClientConfig) : Prop :=
  match auth with
  | WireStaticToken _ => tls = None
  | WireMutualTls cert key ca verify => ∃ c, tls = Some c ∧ roots_in ca (cc_roots c) ∧
      identity_in cert key (cc_certs c) (cc_key c) ∧ policy_verifier verify = Ok (cc_verifier c)
  end.
Lemma finish_client_ok plain mtls b auth cl : finish_client read build plain mtls b auth = Ok cl →
  hc_builder cl = b ∧ tls_for auth (hc_tls cl).
Proof.
  destruct auth as [tok|cert key ca v]; cbn; rewrite bind_ok.
  - intros ([] & _ & [= <-]). done.
  - intros (c & Hc%client_config_ok & H). apply bind_ok in H as ([] & _ & [= <-]). split; [done|]. by exists c.
Qed.
Lemma apply_builder_ok h b : apply_builder h proxy = Ok b → b = mk_builder (ph_timeout h) (ph_connect_timeout h) (ph_socks_proxy h).
Proof. unfold apply_builder. rewrite bind_ok. by intros ([] & _ & [= <-]). Qed.

(** The client of a key-generation hub goes through the configured proxy, and its TLS is what the
    authentication asks for; the reshare hub's has the same TLS and no proxy. *)
Lemma build_http_client_ok auth h cl : build_http_client read proxy build auth h = Ok cl →
  cb_proxy (hc_builder cl) = ph_socks_proxy h ∧ tls_for auth (hc_tls cl).
Proof. unfold build_http_client. rewrite bind_ok. by intros (b & ->%apply_builder_ok & [-> ?]%finish_client_ok). Qed.
Lemma build_tr_http_client_ok auth h cl : build_tr_http_client read proxy build auth h = Ok cl →
  cb_proxy (hc_builder cl) = ph_socks_proxy h ∧ tls_for auth (hc_tls cl).
Proof. unfold build_tr_http_client. rewrite bind_ok. by intros (b & ->%apply_builder_ok & [-> ?]%finish_client_ok). Qed.
(** Finding: with the settings of Tor the reshare client still connects directly, and gives up after
    three times the pause between attempts. *)
Lemma reshare_client_direct jitter auth h cl : build_reshare_http_client read build jitter auth h = Ok cl →
  cb_proxy (hc_builder cl) = None ∧ cb_timeout (hc_builder cl) = 3 * backoff_delay h 0 jitter ∧ tls_for auth (hc_tls cl).
Proof. unfold build_reshare_http_client. by intros [-> ?]%finish_client_ok. Qed.
End configs.

(** Under the Tor defaults a reshare request has 4.5 seconds at most, where the settings say 180. *)
Example reshare_timeout_tor : 3 * backoff_delay tor_defaults 0 750 = 4500 ∧ ph_timeout tor_defaults = 180000.
Proof. done. Qed.

(* ------------------------------------------------------------------ *)
(** ** Where requests go *)

Lemma starts_with_app p s : starts_with p (p +:+ s) = true.
Proof.
  unfold starts_with. induction p as [|a p IH]; [by destruct s|].
  change (String a p +:+ s) with (String a (p +:+ s)). cbn. by destruct (Ascii.ascii_dec a a).
Qed.
Lemma starts_with_extend p s t : starts_with p s = true → starts_with p (s +:+ t) = true.
Proof.
  unfold starts_with. revert s. induction p as [|a p IH]; intros s; [by destruct (s +:+ t)|].
  destruct s as [|b s]; [done|]. change (String b s +:+ t) with (String b (s +:+ t)). cbn.
  destruct (Ascii.ascii_dec a b); [apply IH|done].
Qed.
Lemma peer_base_https addr : starts_with "https://" (peer_base_url addr true) = true.
Proof.
  unfold peer_base_url. destruct (starts_with "http://" addr) eqn:Hh; cbn [orb andb].
  - apply starts_with_app.
  - destruct (starts_with "https://" addr) eqn:Hs; [done|]. apply starts_with_app.
Qed.

Section reach.
Context `{ST : StatusText} {W : Type} (send : PeerRequest → N → W → W * SendOutcome) (routes : FanoutRoutes) (hub : HubLink).

(** The posts a hub may make: to the configured addresses, on the routes of its rounds. *)
Definition confined (r : PeerRequest) : Prop :=
  ∃ peer addr path body, lk_peer_addrs hub !! peer = Some addr ∧ path ∈ [fr_round1 routes; fr_round2 routes] ∧
    r = link_request routes hub path addr body.

Section keeps.
Context (I : W → Prop) (HI : ∀ r a w, confined r → I w → I (send r a w).1).
Local Notation R := (λ w w', I w → I w').
#[local] Instance keeps_preorder : PreOrder R.
Proof. split; [by intros ??|]. intros x y z H1 H2 Hx. auto. Qed.

Lemma post_attempts_keeps r remaining attempt attempts err : confined r →
  along R (post_attempts send r remaining attempt attempts err).
Proof.
  intros Hr. revert attempt err. induction remaining as [|k IH]; intros a err w; cbn; [done|].
  destruct (send r a w) as [w' o] eqn:E. intros Hw. assert (I w') as Hw' by (specialize (HI r a w Hr Hw); by rewrite E in HI).
  destruct o as [st b|e]; repeat case_match; cbn; eauto; by apply IH.
Qed.
Lemma post_to_peer_keeps what path peer addr body : lk_peer_addrs hub !! peer = Some addr →
  path ∈ [fr_round1 routes; fr_round2 routes] → along R (post_to_peer send routes hub what path peer addr body).
Proof.
  intros Hp Hpath. apply along_bind; [typeclasses eauto| |intros [st b]; cbn; destruct (is_success st); auto with along].
  intros w. unfold on_error. destruct (post_json _ _ _ w) as [w' r] eqn:E. cbn.
  pose proof (post_attempts_keeps (link_request routes hub path addr body)
    (N.to_nat (N.max (ph_max_retries (lk_peer_http hub)) 1)) 0 (N.max (ph_max_retries (lk_peer_http hub)) 1) "") as K.
  unfold post_json in E. specialize (K ltac:(by exists peer, addr, path, body) w). by rewrite E in K.
Qed.
Lemma round1_to_keeps peers body : (∀ p a, (p, a) ∈ peers → lk_peer_addrs hub !! p = Some a) →
  along R (round1_to send routes hub peers body).
Proof.
  induction peers as [|[p a] peers IH]; intros H; cbn; [auto with along|].
  assert (along R (round1_to send routes hub peers body)) by (apply IH; intros; apply H; by right).
  case_bool_decide; [done|]. apply along_bind; [typeclasses eauto| |done].
  apply post_to_peer_keeps; [apply H; left|left].
Qed.
End keeps.

(** Requests leave only for configured peers. *)
Lemma fanout_round1_confined (I : W → Prop) body : (∀ r a w, confined r → I w → I (send r a w).1) →
  ∀ w, I w → I (fanout_round1 send routes hub body w).1.
Proof. intros HI w. apply (round1_to_keeps I HI). intros p a. by rewrite elem_of_bt_iter. Qed.
Lemma fanout_round2_confined (I : W → Prop) messages : (∀ r a w, confined r → I w → I (send r a w).1) →
  ∀ w, I w → I (fanout_round2 send routes hub messages w).1.
Proof.
  intros HI. change (along (λ w w', I w → I w') (fanout_round2 send routes hub messages)).
  induction messages as [|[p body] l IH]; cbn; [intros w; done|].
  destruct (lk_peer_addrs hub !! p) as [a|] eqn:Hp; [|intros w; done].
  change (along (λ w w', I w → I w') (_ ← post_to_peer send routes hub (fr_what2 routes) (fr_round2 routes) p a body;
    fanout_round2 send routes hub l)).
  apply (along_bind _ (PreOrder0 := keeps_preorder I)); [|intros []; exact IH].
  apply (post_to_peer_keeps I HI); [done|right; left].
Qed.

(** [Q r]: the world remembers that the peer answered [r] with success. *)
Section delivers.
Context (Q : PeerRequest → W → Prop).
Context (Hest : ∀ r a w st b, (send r a w).2 = Responded st b → is_success st = true → Q r (send r a w).1).
Context (Hstab : ∀ r r' a w, Q r w → Q r (send r' a w).1).

Lemma post_attempts_stable r r' remaining attempt attempts err w : Q r w →
  Q r (post_attempts send r' remaining attempt attempts err w).1.
Proof.
  revert attempt err w. induction remaining as [|k IH]; intros a err w Hw; cbn; [done|].
  pose proof (Hstab r r' a w Hw) as Hw'. destruct (send r' a w) as [w' [st b|e]]; cbn in Hw'; repeat case_match; cbn; auto.
Qed.
Lemma post_to_peer_stable r what path peer addr body w : Q r w →
  Q r (post_to_peer send routes hub what path peer addr body w).1.
Proof.
  intros Hw. unfold post_to_peer, mbind, cmd_bind, on_error, post_json.
  pose proof (post_attempts_stable r (link_request routes hub path addr body)
    (N.to_nat (N.max (ph_max_retries (lk_peer_http hub)) 1)) 0 (N.max (ph_max_retries (lk_peer_http hub)) 1) "" w Hw) as K.
  destruct (post_attempts _ _ _ _ _ _ w) as [w' [[st b]|e]]; cbn in *; [|done]. by destruct (is_success st).
Qed.
Lemma round1_to_stable r peers body w : Q r w → Q r (round1_to send routes hub peers body w).1.
Proof.
  revert w. induction peers as [|[p a] peers IH]; intros w Hw; cbn; [done|]. case_bool_decide; [auto|].
  unfold mbind, cmd_bind. pose proof (post_to_peer_stable r (fr_what1 routes) (fr_round1 routes) p a body w Hw) as K.
  destruct (post_to_peer _ _ _ _ _ _ _ _ w) as [w' [[]|e]]; cbn in *; auto.
Qed.
Lemma fanout_round2_stable r messages w : Q r w → Q r (fanout_round2 send routes hub messages w).1.
Proof.
  revert w. induction messages as [|[p body] l IH]; intros w Hw; cbn; [done|].
  destruct (lk_peer_addrs hub !! p) as [a|]; [|done]. unfold mbind, cmd_bind, lift; cbn.
  pose proof (post_to_peer_stable r (fr_what2 routes) (fr_round2 routes) p a body w Hw) as K.
  destruct (post_to_peer _ _ _ _ _ _ _ _ w) as [w' [[]|e]]; cbn in *; auto.
Qed.

Lemma post_attempts_answered r remaining attempt attempts err w w' x :
  post_attempts send r remaining attempt attempts err w = (w', Ok x) → Q r w' ∧ is_success x.1 = true.
Proof.
  revert attempt err w. induction remaining as [|k IH]; intros a err w; cbn; [done|].
  pose proof (Hest r a w) as He. destruct (send r a w) as [w1 [st b|e]]; cbn in He.
  - destruct (is_success st) eqn:Hs; [intros [= <- <-]; eauto|]. case_match; [done|]. apply IH.
  - case_match; [done|]. apply IH.
Qed.
Lemma post_to_peer_answered what path peer addr body w w' :
  post_to_peer send routes hub what path peer addr body w = (w', Ok tt) → Q (link_request routes hub path addr body) w'.
Proof.
  unfold post_to_peer, mbind, cmd_bind, on_error, post_json.
  destruct (post_attempts _ _ _ _ _ _ w) as [w1 [[st b]|e]] eqn:E; cbn; [|done].
  apply post_attempts_answered in E as [HQ _]. destruct (is_success st); [by intros [= <-]|done].
Qed.

(** A first fan-out that succeeds was answered with success by every other configured peer. *)
Lemma fanout_round1_delivers body w w' : fanout_round1 send routes hub body w = (w', Ok tt) →
  ∀ peer addr, lk_peer_addrs hub !! peer = Some addr → peer ≠ lk_local_node_id hub →
  Q (link_request routes hub (fr_round1 routes) addr body) w'.
Proof.
  unfold fanout_round1. intros H peer addr Hp Hne. apply elem_of_bt_iter in Hp. revert w H Hp.
  induction (bt_iter (lk_peer_addrs hub)) as [|[p a] l IH]; intros w H Hp; [by apply not_elem_of_nil in Hp|].
  cbn in H. apply elem_of_cons in Hp as [[= -> ->]|Hp].
  - rewrite bool_decide_eq_false_2 in H by done. apply cmd_bind_ok in H as (w1 & [] & H1%post_to_peer_answered & H).
    pose proof (round1_to_stable _ l body w1 H1) as K. by rewrite H in K.
  - case_bool_decide; [eauto|]. apply cmd_bind_ok in H as (w1 & [] & _ & H). eauto.
Qed.
(** A second one reached the recipient of every message. *)
Lemma fanout_round2_delivers messages w w' : fanout_round2 send routes hub messages w = (w', Ok tt) →
  ∀ recipient body, (recipient, body) ∈ messages → ∃ addr, lk_peer_addrs hub !! recipient = Some addr ∧
  Q (link_request routes hub (fr_round2 routes) addr body) w'.
Proof.
  revert w. induction messages as [|[p bd] l IH]; intros w H r body Hr; [by apply not_elem_of_nil in Hr|].
  cbn in H. apply cmd_bind_ok in H as (w1 & a & [-> Ha%ok_or_ok]%lift_ok & H).
  apply cmd_bind_ok in H as (w2 & [] & H1%post_to_peer_answered & H). apply elem_of_cons in Hr as [[= -> ->]|Hr]; [|eauto].
  exists a. split; [done|]. pose proof (fanout_round2_stable _ l w2 H1) as K. by rewrite H in K.
Qed.
End delivers.
End reach.

(** Under mTLS no token leaves, and what leaves goes over TLS. *)
Lemma mtls_request_tls routes hub path addr body : is_mtls (lk_peer_auth hub) = true → fr_base routes = peer_base_url →
  starts_with "https://" (pr_url (link_request routes hub path addr body)) = true ∧
  "X-Vault-Token" ∉ (pr_headers (link_request routes hub path addr body)).*1.
Proof.
  intros Hm Hb. unfold link_request. rewrite Hm, Hb. cbn [pr_url pr_headers]. split.
  - apply starts_with_extend, peer_base_https.
  - destruct (lk_peer_auth hub); [done|]. cbn. set_solver.
Qed.
(** Finding: the reshare hub puts a scheme in front of an address that has one. *)
Example reshare_base_doubles : reshare_base_url "https://vault-2:7701" true = "https://https://vault-2:7701" ∧
  peer_base_url "https://vault-2:7701" true = "https://vault-2:7701".
Proof. done. Qed.

(** The retry of [HttpPeer], where the outcomes of the attempts are an argument, is this one in a world
    that answers by them. *)
Lemma post_json_outcomes `{ST : StatusText} {W} (send : PeerRequest → N → W → W * SendOutcome) (f : N → SendOutcome) h req jitter w :
  (∀ a w, send req a w = (w, f a)) → post_json send h req w = (w, (post_json_with_retry h (pr_url req) f jitter).1).
Proof.
  intros Hf. unfold post_json, post_json_with_retry. generalize (N.max (ph_max_retries h) 1) as attempts. intros attempts.
  generalize (N.to_nat attempts) as k, 0, "". induction k as [|k IH]; intros a err; [done|]. cbn. rewrite Hf.
  destruct (f a) as [st b|e]; [destruct (is_success st); [done|]|]; case_match; try done; rewrite IH.
  all: by destruct (post_loop _ _ _ _ k _ _ _).
Qed.
Lemma blocking_attempts_outcomes `{ST : StatusText} {W} (send : PeerRequest → N → W → W * SendOutcome) (f : N → SendOutcome) h req w :
  (∀ a w, send req a w = (w, f a)) →
  ∃ r delays, post_json_with_retry_blocking h (pr_url req) f (N.to_nat (N.max (ph_max_retries h) 1)) = Some (r, delays) ∧
    blocking_attempts send h req (N.to_nat (N.max (ph_max_retries h) 1)) 0 w = (w, r).
Proof.
  intros Hf. unfold post_json_with_retry_blocking.
  assert (∀ k a, (N.max (ph_max_retries h) 1 = a + N.of_nat k)%N → (0 < k)%nat → ∃ r delays,
    blocking_loop h (pr_url req) f k a = Some (r, delays) ∧ blocking_attempts send h req k a w = (w, r)) as H.
  { induction k as [|k IH]; intros a Ha Hk; [lia|]. cbn. rewrite Hf. destruct (f (a + 1)) as [st b|e]; [by eexists _, _|].
    destruct (N.ltb_spec (a + 1) (N.max (ph_max_retries h) 1)); [|by eexists _, _].
    destruct (IH (a + 1)) as (r & d & -> & ->); [lia..|]. by eexists _, _. }
  apply H; lia.
Qed.

(* ------------------------------------------------------------------ *)
(** ** A fan-out among vaults that serve requests *)

Section ceremony.
Context `{JS : SerdeJson, MJ : MeshJson, AX : AxumRouter, DB : DkgBodies, TX : StatusText}.
Context `{FR : Frost, FS : !FrostStorage, EY : !EvenY, HX : HexCodec, SH : Sha256} {T : Type} `{ST : !ShareStore T}.
Notation Node := (DkgNode (T:=T)).
(** Every vault has its own configuration, and names its seats itself. *)
Context (config_of : string → VaultConfig) (auth_of : string → VaultAuth) (seated_of : string → list string).
Notation serve node := (serve_dkg (config_of node) (auth_of node) (seated_of node)).

(** The vaults, and how many requests have left so far. *)
Notation Vaults := (gmap string (Limited Node)).
Notation World := (Vaults * N)%type.
Definition visit (node : string) (r : Rng) (q : DkgRequest) (vs : Vaults) : Vaults * option (result Exit (option Reply)) :=
  match vs !! node with
  | Some s => let '(s', res) := serve node r q s in (<[node := s']> vs, Some res)
  | None => (vs, None)
  end.
Definition traffic (l : list (string * (Rng * DkgRequest))) (vs : Vaults) : Vaults :=
  foldl (λ vs x, (visit x.1 x.2.1 x.2.2 vs).1) vs l.

(** What befalls a request: whatever else the vaults serve first; whether it arrives, and what its handling
    draws; whether the answer arrives. *)
Record Weather := mk_weather {
  we_before : list (string * (Rng * DkgRequest)); we_arrives : option (Rng * N * res unit); we_answered : bool }.
(** [heard_as]: the vault a request reaches, and what its server makes of it; [elsewhere]: the answers of
    other handlers. *)
Context (heard_as : PeerRequest → option (string * HttpRequest * bytes)) (weather : N → Weather)
  (elsewhere : PeerRequest → SendOutcome).
Definition answer_of (req : PeerRequest) (res : option (result Exit (option Reply))) : SendOutcome :=
  match res with
  | Some (Ok (Some reply)) | Some (Err (Replied reply)) => Responded reply.1 reply.2
  | Some (Ok None) => elsewhere req
  | Some (Err Panicked) | None => SendFailed "connection closed"
  end.
Definition dkg_send (req : PeerRequest) (attempt : N) (w : World) : World * SendOutcome :=
  let we := weather w.2 in
  let vs := traffic (we_before we) w.1 in
  match heard_as req, we_arrives we with
  | Some (node, http, body), Some (r, now, fanout) =>
      let '(vs, res) := visit node r (mk_dkg_request http body None now fanout) vs in
      ((vs, w.2 + 1), if we_answered we then answer_of req res else SendFailed "timed out")
  | _, _ => ((vs, w.2 + 1), SendFailed "timed out")
  end.

(** A vault's session of this name satisfies [P]. *)
Definition settled (b : bool) (sid : string) (P : SessionInner → Prop) (node : string) (vs : Vaults) : Prop :=
  ∃ s x, vs !! node = Some s ∧ sessions (hub_at b s.2) !! sid = Some x ∧ P x.
(** The request posts the package to that session, as the vault it reaches understands it. *)
Definition arrives1 (b : bool) (req : PeerRequest) (node sid : string) (msg : Round1WireMessage) : Prop :=
  ∃ http bytes body hex, heard_as req = Some (node, http, bytes) ∧
    handler_of (rq_method http) (rq_path http) = Some (HDkgRound1 b) ∧ parse_round1 bytes = Ok body ∧
    b1_package_hex body = Some hex ∧ b1_session_id body = sid ∧ msg = round1_posted body hex.
Definition arrives2 (b : bool) (req : PeerRequest) (node sid : string) (msg : Round2WireMessage) : Prop :=
  ∃ http bytes body hex, heard_as req = Some (node, http, bytes) ∧
    handler_of (rq_method http) (rq_path http) = Some (HDkgRound2 b) ∧ parse_round2 bytes = Ok body ∧
    b2_deliver body = false ∧ b2_package_hex body = Some hex ∧ b2_session_id body = sid ∧ msg = round2_posted body hex.
Definition routes_of (b : bool) : FanoutRoutes := if b then tr_dkg_routes else dkg_routes.

Context (Hmtls : ∀ node, cfg_auth_mode (config_of node) = MutualTls) (Hnotlab : ∀ node, not_lab (config_of node) = true).

Section stable.
Context (b : bool) (sid : string) (P : SessionInner → Prop) (HP : ∀ x x', grows x x' → P x → P x') (node : string).
Lemma visit_settled n r q vs : settled b sid P node vs → settled b sid P node (visit n r q vs).1.
Proof.
  intros (s & x & Hs & Hx & HPx). unfold visit. destruct (vs !! n) as [sn|] eqn:Hn; [|by exists s, x].
  pose proof (move_grows _ _ _ _ _ _ (serve_moves (config_of n) (auth_of n) (seated_of n) (Hmtls n) (Hnotlab n) r q sn b)) as G.
  destruct (serve n r q sn) as [s' res]. cbn in G |- *. destruct (decide (n = node)) as [E|Hne].
  - subst n. pose proof (eq_trans (eq_sym Hn) Hs) as [= ->]. destruct (G sid x Hx) as (x' & Hx' & Hg). exists s', x'. rewrite lookup_insert_eq. eauto.
  - exists s, x. by rewrite lookup_insert_ne.
Qed.
Lemma traffic_settled l vs : settled b sid P node vs → settled b sid P node (traffic l vs).
Proof. revert vs. induction l as [|[n [r q]] l IH]; intros vs H; [done|]. by apply IH, visit_settled. Qed.
Lemma send_settled req attempt w : settled b sid P node w.1 → settled b sid P node (dkg_send req attempt w).1.1.
Proof.
  intros H%(traffic_settled (we_before (weather w.2))). unfold dkg_send.
  destruct (heard_as req) as [[[n http] body]|]; [|done]. destruct (we_arrives _) as [[[r now] fanout]|]; [|done].
  apply (visit_settled n r (mk_dkg_request http body None now fanout)) in H. by destruct (visit _ _ _ _).
Qed.
End stable.

(** What a successful answer tells of the vault that gave it. *)
Lemma send_answered req attempt w st text node http body h : (dkg_send req attempt w).2 = Responded st text → is_success st = true →
  heard_as req = Some (node, http, body) → handler_of (rq_method http) (rq_path http) = Some h →
  (∀ r q p, route_dkg (config_of node) (seated_of node) h r q p ≠ None) →
  ∃ r now fanout p c s, route_dkg (config_of node) (seated_of node) h r (mk_dkg_request http body None now fanout) p = Some c ∧
    replied_well (c s).2 ∧ ∃ l, (dkg_send req attempt w).1.1 !! node = Some (l, (c s).1).
Proof.
  intros Hr Hst Hheard Hh Hdkg. unfold dkg_send in *. rewrite Hheard in *. destruct (we_arrives _) as [[[r now] fanout]|]; [|done].
  unfold visit in *. destruct (traffic _ _ !! node) as [s|] eqn:Hs; [|by destruct (we_answered _)].
  pose proof (serve_succeeds (config_of node) (auth_of node) (seated_of node) r (mk_dkg_request http body None now fanout) s h Hh) as K.
  destruct (serve node r _ s) as [s' res] eqn:E. cbn in Hr, K |- *. destruct (we_answered _); [|done].
  destruct K as (p & c & Hc & Hs' & Hw).
  { destruct res as [[x|]|[x|]]; cbn in *; try done; try congruence. apply serve_elsewhere with (h := h) in E as [p Hp]; [|done]. by destruct (Hdkg _ _ _ Hp). }
  exists r, now, fanout, p, c, s.2. split_and!; [done..|]. exists s'.1. rewrite lookup_insert_eq, <- Hs'. by destruct s'.
Qed.

Lemma send_round1 b req attempt w st text node sid msg : (dkg_send req attempt w).2 = Responded st text → is_success st = true →
  arrives1 b req node sid msg → settled b sid (took_round1 msg) node (dkg_send req attempt w).1.1.
Proof.
  intros Hr Hst (http & bytes & body & hex & Hq & Hh & Hb & Hp & <- & ->).
  destruct (send_answered _ _ _ _ _ _ _ _ _ Hr Hst Hq Hh) as (r & now & fanout & p & c & s & [= <-] & Hw & l & Hl); [done|].
  cbn in Hw, Hl. rewrite Hb in Hw, Hl. eapply round1_well in Hw as (x & Hx & Ht); [|done..]. eexists _, x. split; [exact Hl|]. by split.
Qed.
Lemma send_round2 b req attempt w st text node sid msg : (dkg_send req attempt w).2 = Responded st text → is_success st = true →
  arrives2 b req node sid msg → settled b sid (took_round2 msg) node (dkg_send req attempt w).1.1.
Proof.
  intros Hr Hst (http & bytes & body & hex & Hq & Hh & Hb & Hd & Hp & <- & ->).
  destruct (send_answered _ _ _ _ _ _ _ _ _ Hr Hst Hq Hh) as (r & now & fanout & p & c & s & [= <-] & Hw & l & Hl); [done|].
  cbn in Hw, Hl. rewrite Hb in Hw, Hl. eapply round2_well in Hw as (x & Hx & Ht); [|done..]. eexists _, x. split; [exact Hl|]. by split.
Qed.

End ceremony.
