(* ===== verification/ReleaseStore.v ===== *)
(** * The durable release mesh ([adapters/release_persist.rs])

    The in-memory mesh of [Release] with its snapshot and its blobs on disk, written by
    [atomic_write_fsync] and read back at start. *)
From S2P Require Import Prelude RustStr RustParse Errors Identity Release DurableFs Json.
Local Open Scope N_scope.

(** The mesh, the release directory and the blob directory under it. *)
Record PersistedReleaseMesh := mk_persisted_mesh { pm_inner : ReleaseMesh; pm_root : Fs; pm_blobs : Fs }.
Definition on_inner {A} : dcmd ReleaseMesh A → dcmd PersistedReleaseMesh A :=
  zoom pm_inner (λ m p, mk_persisted_mesh m (pm_root p) (pm_blobs p)).
Definition on_root {A} : dcmd Fs A → dcmd PersistedReleaseMesh A :=
  zoom pm_root (λ f p, mk_persisted_mesh (pm_inner p) f (pm_blobs p)).
Definition on_blobs {A} : dcmd Fs A → dcmd PersistedReleaseMesh A :=
  zoom pm_blobs (λ f p, mk_persisted_mesh (pm_inner p) (pm_root p) f).

(* ------------------------------------------------------------------ *)
(** ** Writing *)

Definition quoted_strings (l : list string) : string := join "," (map (λ s, format (q "`{}`") [escape_json s]) l).
Definition candidate_json (c : ReleaseCandidate) : string :=
  let reject := match reject_reason c with Some s => format (q "`{}`") [escape_json s] | None => "null" end in
  format (q "{{`id`:`{}`,`hs`:`{}`,`hb`:`{}`,`constitution_hash`:`{}`,`created_at_secs`:{},`phase`:`{}`,`reject_reason`:{},`council_sigs`:[{}],`cosigns`:[{}],`rebuilds`:[{}]}}")
    [escape_json (rel_id c); escape_json (ch_str (hs c)); escape_json (ch_str (hb c)); escape_json (rel_constitution_hash c);
     show (created_at_secs c); phase_str (phase c); reject; quoted_strings (bs_iter (council_sigs c)); quoted_strings (bs_iter (cosigns c));
     join "," (map (λ kv, format (q "{{`node`:`{}`,`hb`:`{}`}}") [escape_json kv.1; escape_json (ch_str kv.2)]) (bt_iter (rebuilds c)))].
Definition entry_json (e : AllowlistEntry) : string :=
  format (q "{{`release_id`:`{}`,`hs`:`{}`,`hb`:`{}`,`activated_at_secs`:{},`constitution_hash`:`{}`}}")
    [escape_json (al_release_id e); escape_json (ch_str (al_hs e)); escape_json (ch_str (al_hb e)); show (activated_at_secs e);
     escape_json (al_constitution_hash e)].
Definition list_candidate_jsons (m : ReleaseMesh) : list string := map candidate_json (bt_values (candidates m)).
Definition meta_json (m : ReleaseMesh) : string :=
  let policy := rel_policy m in
  format (q "{{`version`:1,`policy`:{{`council_n`:{},`min_rebuilds`:{},`vault_n`:{},`timelock_secs`:{},`lab_timelock_scale`:{}}},`candidates`:[{}],`allowlist`:[{}]}}")
    [show (council_n policy); show (min_rebuilds policy); show (vault_n policy); show (timelock_secs policy); show (lab_timelock_scale policy);
     join "," (list_candidate_jsons m); join "," (map entry_json (allowlist m))].
Definition meta_name : string := "release_meta.json".

Section mesh.
Context (root : string).

Definition persist_meta (e : FsEnv) : dcmd PersistedReleaseMesh unit :=
  p ← get;
  as_threshold "release meta persist: {}" (on_root (atomic_write_fsync root meta_name e (bytes_of (meta_json (pm_inner p))))).
Definition persist_blob (e : FsEnv) (h : ContentHash) (b : bytes) : dcmd PersistedReleaseMesh unit :=
  as_threshold "release blob persist: {}" (on_blobs (atomic_write_fsync (root +:+ "/blobs") (ch_str h) e b)).
Definition persisted_blob_put (e : FsEnv) (h : ContentHash) (b : bytes) : dcmd PersistedReleaseMesh unit :=
  _ ← on_inner (blob_put h b); persist_blob e h b.
Definition persisted_put_candidate (e : FsEnv) (c : ReleaseCandidate) : dcmd PersistedReleaseMesh unit :=
  _ ← on_inner (put_candidate c); persist_meta e.
Definition persisted_save_candidate (e : FsEnv) (c : ReleaseCandidate) : dcmd PersistedReleaseMesh unit :=
  _ ← on_inner (save_candidate c); persist_meta e.
Definition persisted_put_allowlist (e : FsEnv) (a : AllowlistEntry) : dcmd PersistedReleaseMesh unit :=
  _ ← on_inner (put_allowlist a); persist_meta e.
End mesh.

(* ------------------------------------------------------------------ *)
(** ** Reading *)

Definition phase_of (s : string) : ReleasePhase :=
  if String.eqb s "cosigning" then RelCosigning else if String.eqb s "allowlisted" then RelAllowlisted
  else if String.eqb s "rejected" then RelRejected else RelProposed.
Definition strings_at (k : string) (v : Value) : gset string := list_to_set (omap as_str (array_at k v)).
Fixpoint read_rebuilds (acc : gmap string ContentHash) (l : list Value) : res (gmap string ContentHash) :=
  match l with
  | [] => Ok acc
  | r :: rest =>
      match as_str (at_key "node" r), as_str (at_key "hb" r) with
      | Some node, Some h => h ← content_hash_parse h; read_rebuilds (<[node := h]> acc) rest
      | _, _ => read_rebuilds acc rest
      end
  end.
Definition read_candidate (c : Value) : res ReleaseCandidate :=
  hs ← content_hash_parse (str_or "" "hs" c);
  hb ← content_hash_parse (str_or "" "hb" c);
  cand ← release_candidate_new (str_or "" "id" c) hs hb (str_or "" "constitution_hash" c) (strings_at "council_sigs" c)
           (u64_or 0 "created_at_secs" c);
  rebuilds ← read_rebuilds ∅ (array_at "rebuilds" c);
  Ok {| rel_id := rel_id cand; hs := hs; hb := hb; rel_constitution_hash := rel_constitution_hash cand;
        council_sigs := council_sigs cand; rebuilds := rebuilds; cosigns := strings_at "cosigns" c;
        created_at_secs := created_at_secs cand; phase := phase_of (str_or "proposed" "phase" c);
        reject_reason := as_str (at_key "reject_reason" c) |}.
Fixpoint read_candidates (l : list Value) : dcmd ReleaseMesh unit :=
  match l with
  | [] => mret tt
  | c :: rest => cand ← lift (read_candidate c); _ ← ignore (put_candidate cand); read_candidates rest
  end.
Definition read_entry (e : Value) : res AllowlistEntry :=
  hs ← content_hash_parse (str_or "" "hs" e);
  hb ← content_hash_parse (str_or "" "hb" e);
  Ok {| al_release_id := str_or "" "release_id" e; al_hs := hs; al_hb := hb;
        activated_at_secs := u64_or 0 "activated_at_secs" e; al_constitution_hash := str_or "" "constitution_hash" e |}.
Fixpoint read_allowlist (l : list Value) : dcmd ReleaseMesh unit :=
  match l with [] => mret tt | e :: rest => entry ← lift (read_entry e); _ ← put_allowlist entry; read_allowlist rest end.

Section open.
Context `{JR : !JsonRead}.

Definition hydrate_meta (raw : bytes) : dcmd ReleaseMesh unit :=
  raw ← lift (ok_or (from_utf8 raw) (ThresholdError "release meta read: stream did not contain valid UTF-8"));
  v ← lift (map_err (λ e, ThresholdError (format "release meta json: {}" [e])) (json_from_str raw));
  _ ← read_candidates (array_at "candidates" v);
  read_allowlist (array_at "allowlist" v).
(** The blobs of the directory's listing, by file name; other names are passed over. *)
Fixpoint read_blobs (l : list (string * bytes)) : dcmd ReleaseMesh unit :=
  match l with
  | [] => mret tt
  | (name, b) :: rest =>
      _ ← match content_hash_parse name with Ok h => ignore (blob_put h b) | Err _ => mret tt end;
      read_blobs rest
  end.
Definition listing (f : Fs) : list (string * bytes) :=
  omap (λ p, c ← fs_data f !! p.2; Some (p.1, cached c)) (map_to_list (fs_dir f)).
(** [mkdir], [fails]: why making the directories or reading the snapshot failed, if it did. *)
Definition release_open (mkdir fails : option string) (policy : ReleasePolicy) (root blobs : Fs) : res PersistedReleaseMesh :=
  match mkdir with
  | Some e => Err (ThresholdError (format "release mkdir: {}" [e]))
  | None =>
      let mesh := release_mesh_new policy in
      let '(mesh, r) :=
        match fs_read root meta_name with
        | None => (mesh, Ok tt)
        | Some raw => match fails with
                      | Some e => (mesh, Err (ThresholdError (format "release meta read: {}" [e])))
                      | None => hydrate_meta raw mesh
                      end
        end in
      _ ← r;
      Ok (mk_persisted_mesh (read_blobs (listing blobs) mesh).1 (fs_mkdir root) (fs_mkdir blobs))
  end.
End open.

(* ------------------------------------------------------------------ *)
(** ** The snapshot is the text of a value *)

Definition rebuild_value (kv : string * ContentHash) : Value := JObj [("node", JStr kv.1); ("hb", JStr (ch_str kv.2))].
Definition candidate_value (c : ReleaseCandidate) : Value :=
  JObj [("id", JStr (rel_id c)); ("hs", JStr (ch_str (hs c))); ("hb", JStr (ch_str (hb c)));
        ("constitution_hash", JStr (rel_constitution_hash c)); ("created_at_secs", JNum (created_at_secs c));
        ("phase", JStr (phase_str (phase c))); ("reject_reason", match reject_reason c with Some s => JStr s | None => JNull end);
        ("council_sigs", JArr (map JStr (bs_iter (council_sigs c)))); ("cosigns", JArr (map JStr (bs_iter (cosigns c))));
        ("rebuilds", JArr (map rebuild_value (bt_iter (rebuilds c))))].
Definition entry_value (e : AllowlistEntry) : Value :=
  JObj [("release_id", JStr (al_release_id e)); ("hs", JStr (ch_str (al_hs e))); ("hb", JStr (ch_str (al_hb e)));
        ("activated_at_secs", JNum (activated_at_secs e)); ("constitution_hash", JStr (al_constitution_hash e))].
Definition policy_value (p : ReleasePolicy) : Value :=
  JObj [("council_n", JNum (council_n p)); ("min_rebuilds", JNum (min_rebuilds p)); ("vault_n", JNum (vault_n p));
        ("timelock_secs", JNum (timelock_secs p)); ("lab_timelock_scale", JNum (lab_timelock_scale p))].
Definition meta_value (m : ReleaseMesh) : Value :=
  JObj [("version", JNum 1); ("policy", policy_value (rel_policy m));
        ("candidates", JArr (map candidate_value (bt_values (candidates m)))); ("allowlist", JArr (map entry_value (allowlist m)))].

Lemma quoted_strings_print l : quoted_strings l = join "," (map (λ s, print_json (JStr s)) l).
Proof. apply join_ext. reflexivity. Qed.

Lemma candidate_text c : candidate_json c = print_json (candidate_value c).
Proof.
  unfold candidate_json, candidate_value, print_json. cbv zeta. rewrite !quoted_strings_print, print_obj. cbn [print_members fst snd].
  rewrite (join_ext _ (λ x, print_json (rebuild_value x)) (bt_iter (rebuilds c))) by reflexivity.
  rewrite (print_arr_join rebuild_value), !(print_arr_join JStr).
  generalize (join "," (map (λ x, print_json (rebuild_value x)) (bt_iter (rebuilds c)))).
  generalize (join "," (map (λ s, print_json (JStr s)) (bs_iter (council_sigs c)))).
  generalize (join "," (map (λ s, print_json (JStr s)) (bs_iter (cosigns c)))). intros x y z.
  destruct (reject_reason c) as [r|]; [rewrite (print_k_app (JStr r))|]; destruct (phase c); reflexivity.
Qed.
Lemma entry_text e : entry_json e = print_json (entry_value e).
Proof. reflexivity. Qed.
Lemma meta_text m : meta_json m = print_json (meta_value m).
Proof.
  unfold meta_json, meta_value, print_json, list_candidate_jsons. cbv zeta. rewrite print_obj. cbn [print_members fst snd].
  rewrite (print_arr_join entry_value), (print_arr_join candidate_value).
  rewrite (join_ext _ (λ x, print_json (candidate_value x)) (bt_values (candidates m))) by apply candidate_text.
  rewrite (join_ext _ (λ x, print_json (entry_value x)) (allowlist m)) by apply entry_text.
  generalize (join "," (map (λ x, print_json (candidate_value x)) (bt_values (candidates m)))).
  generalize (join "," (map (λ x, print_json (entry_value x)) (allowlist m))). intros x y. reflexivity.
Qed.

(* ------------------------------------------------------------------ *)
(** ** What is written reads back *)

Definition ch_wf (h : ContentHash) : Prop := content_hash_parse (ch_str h) = Ok h.
Record candidate_wf (c : ReleaseCandidate) : Prop := {
  cw_id : plain_str (rel_id c);
  cw_named : (str_len (trim (rel_id c)) =? 0) = false;
  cw_hs : ch_wf (hs c);
  cw_hb : ch_wf (hb c);
  cw_constitution : plain_str (rel_constitution_hash c);
  cw_sigs : council_sigs c ≠ ∅ ∧ ∀ s, s ∈ council_sigs c → plain_str s;
  cw_cosigns s : s ∈ cosigns c → plain_str s;
  cw_rebuilds k h : rebuilds c !! k = Some h → plain_str k ∧ ch_wf h;
  cw_created : created_at_secs c ≤ u64_max;
  cw_reason r : reject_reason c = Some r → plain_str r;
}.
Record entry_wf (e : AllowlistEntry) : Prop := {
  ew_id : plain_str (al_release_id e);
  ew_hs : ch_wf (al_hs e);
  ew_hb : ch_wf (al_hb e);
  ew_at : activated_at_secs e ≤ u64_max;
  ew_constitution : plain_str (al_constitution_hash e);
}.
(** What the types and the use cases guarantee of a mesh whose texts hold no control characters. *)
Record mesh_wf (m : ReleaseMesh) : Prop := {
  mw_policy : Forall (λ n, n ≤ u64_max) [council_n (rel_policy m); min_rebuilds (rel_policy m); vault_n (rel_policy m);
                timelock_secs (rel_policy m); lab_timelock_scale (rel_policy m)];
  mw_candidates k c : candidates m !! k = Some c → rel_id c = k ∧ candidate_wf c;
  mw_allowlist : Forall entry_wf (allowlist m);
  mw_once : NoDup (al_release_id <$> allowlist m);
}.

Lemma hexdigit_plain a : is_ascii_hexdigit a = true → is_plain a = true.
Proof.
  unfold is_ascii_hexdigit. cbv zeta. rewrite !orb_true_iff. intros [[H|H]|H]; [by apply digit_plain|..];
    rewrite andb_true_iff, !N.leb_le in H; apply in_range_spec; lia.
Qed.
Lemma ch_wf_plain h : ch_wf h → plain_str (ch_str h).
Proof.
  unfold ch_wf, content_hash_parse. rewrite bind_ok. intros (m & Hm & _). unfold measurement_from_hex in Hm.
  destruct (_ || _) eqn:E; [done|]. apply orb_false_iff in E as [_ E%negb_false_iff].
  apply plain_plain_str. eapply plain_impl; [exact hexdigit_plain|done].
Qed.

(** The snapshot is JSON. *)

Lemma rebuild_value_wf kv : plain_str kv.1 → ch_wf kv.2 → json_wf (rebuild_value kv).
Proof. intros H1 H2. wf_object; cbn [fst snd]; constructor; [done|by apply ch_wf_plain]. Qed.
Lemma candidate_value_wf c : candidate_wf c → json_wf (candidate_value c).
Proof.
  intros [? ? ? ? ? [_ Hs] Hc Hr ? Hw]. wf_object; cbn [fst snd].
  1-4: constructor; by try apply ch_wf_plain.
  - by constructor.
  - constructor. by destruct (phase c); apply plain_const.
  - destruct (reject_reason c) as [r|]; constructor. by apply Hw.
  - apply strings_wf. intros s Hin. by apply Hs, elem_of_bs_iter.
  - apply strings_wf. intros s Hin. by apply Hc, elem_of_bs_iter.
  - constructor. apply Forall_forall. intros v ([k h] & -> & Hin)%list_elem_of_fmap. apply elem_of_bt_iter in Hin.
    destruct (Hr _ _ Hin). by apply rebuild_value_wf.
Qed.
Lemma entry_value_wf e : entry_wf e → json_wf (entry_value e).
Proof. intros [? ? ? ? ?]. wf_object; cbn [fst snd]; constructor; by try apply ch_wf_plain. Qed.
Lemma meta_value_wf m : mesh_wf m → json_wf (meta_value m).
Proof.
  intros [Hp Hc Ha _]. wf_object; cbn [fst snd].
  - by constructor.
  - rewrite !Forall_cons in Hp. destruct Hp as (? & ? & ? & ? & ? & _). wf_object; cbn [fst snd]; by constructor.
  - constructor. apply Forall_forall. intros v (c & -> & (k & Hk)%elem_of_bt_values)%list_elem_of_fmap.
    by apply candidate_value_wf, (Hc k).
  - constructor. apply Forall_fmap. eapply Forall_impl; [exact Ha|]. apply entry_value_wf.
Qed.
Lemma candidate_depth c : (json_depth (candidate_value c) ≤ 3)%nat.
Proof.
  unfold candidate_value. cbn [json_depth foldr snd]. apply le_n_S.
  repeat apply max_le; try (cbn [json_depth]; lia).
  - destruct (reject_reason c); cbn [json_depth]; lia.
  - etrans; [apply (depth_items JStr 0)|]; [done|lia].
  - etrans; [apply (depth_items JStr 0)|]; [done|lia].
  - apply (depth_items rebuild_value 1). done.
Qed.
Lemma meta_depth m : (json_depth (meta_value m) < 128)%nat.
Proof.
  apply (Nat.le_lt_trans _ 6); [|lia]. unfold meta_value. cbn [json_depth foldr snd]. apply le_n_S.
  repeat apply max_le; try (cbn [json_depth foldr snd policy_value]; lia).
  - etrans; [apply (depth_items candidate_value 3), candidate_depth|lia].
  - etrans; [apply (depth_items entry_value 1)|lia]. done.
Qed.

(** Reading each part back. *)

Lemma read_rebuilds_back l acc : NoDup l.*1 → Forall (λ kv, ch_wf kv.2) l →
  read_rebuilds acc (map rebuild_value l) = Ok (list_to_map l ∪ acc).
Proof.
  revert acc. induction l as [|[k h] l IH]; intros acc; [by intros; cbn; rewrite (left_id_L ∅ (∪))|].
  cbn [fmap list_fmap fst]. intros [Hk Hd]%NoDup_cons [Hh Hl]%Forall_cons.
  cbn [map read_rebuilds rebuild_value]. cbn -[read_rebuilds content_hash_parse]. rewrite Hh. cbn -[read_rebuilds].
  rewrite IH by done. f_equal. by apply insert_into_rest.
Qed.
Lemma phase_of_str p : phase_of (phase_str p) = p.
Proof. by destruct p. Qed.

Lemma read_candidate_back c : candidate_wf c → read_candidate (candidate_value c) = Ok c.
Proof.
  intros [Hid Hn Hs Hb Hc [Hne _] _ Hr _ _]. unfold read_candidate.
  change (str_or "" "hs" (candidate_value c)) with (ch_str (hs c)). change (str_or "" "hb" (candidate_value c)) with (ch_str (hb c)).
  change (str_or "" "id" (candidate_value c)) with (rel_id c). change (str_or "" "constitution_hash" (candidate_value c)) with (rel_constitution_hash c).
  change (strings_at "council_sigs" (candidate_value c)) with (list_to_set (omap as_str (map JStr (bs_iter (council_sigs c)))) : gset string).
  change (strings_at "cosigns" (candidate_value c)) with (list_to_set (omap as_str (map JStr (bs_iter (cosigns c)))) : gset string).
  change (u64_or 0 "created_at_secs" (candidate_value c)) with (created_at_secs c).
  change (array_at "rebuilds" (candidate_value c)) with (map rebuild_value (bt_iter (rebuilds c))).
  change (str_or "proposed" "phase" (candidate_value c)) with (phase_str (phase c)).
  rewrite !omap_strings, !bs_iter_set, phase_of_str.
  unfold ch_wf in *. rewrite Hs, ok_bind, Hb, ok_bind. unfold release_candidate_new. rewrite Hn.
  rewrite bool_decide_eq_false_2 by done. rewrite ok_bind, read_rebuilds_back, ok_bind; [|apply NoDup_bt_keys|].
  - rewrite bt_iter_map, (right_id_L ∅ (∪)). cbn [rel_id rel_constitution_hash council_sigs created_at_secs].
    change (as_str (at_key "reject_reason" (candidate_value c))) with (as_str (match reject_reason c with Some s => JStr s | None => JNull end)).
    destruct c as [? ? ? ? ? ? ? ? ? [r|]]; reflexivity.
  - apply Forall_forall. intros [k h] Hk%elem_of_bt_iter. by apply (Hr k).
Qed.
Lemma read_candidates_back (l : list (string * ReleaseCandidate)) m : NoDup l.*1 → Forall (λ kc, rel_id kc.2 = kc.1 ∧ candidate_wf kc.2) l →
  (∀ k, k ∈ l.*1 → candidates m !! k = None) →
  read_candidates (map candidate_value l.*2) m = (set_candidates (λ s, list_to_map l ∪ s) m, Ok tt).
Proof.
  revert m. induction l as [|[k c] l IH]; intros m; [intros _ _ _; destruct m; unfold set_candidates; cbn; by rewrite (left_id_L ∅ (∪))|].
  cbn [fmap list_fmap fst snd]. intros [Hk Hd]%NoDup_cons [[Hid Hc] Hl]%Forall_cons Hm. cbn [fst snd] in Hid. cbn [map read_candidates].
  rewrite (bind_run _ _ m m (Ok c)) by by unfold lift; rewrite read_candidate_back.
  assert (put_candidate c m = (set_candidates (<[k := c]>) m, Ok tt)) as Hput.
  { unfold put_candidate. rewrite (bind_run _ _ m m (Ok m)) by done. rewrite Hid, bool_decide_eq_false_2; [done|].
    rewrite Hm by by left. by intros []. }
  rewrite (bind_run _ _ m (set_candidates (<[k := c]>) m) (Ok tt)) by by unfold ignore; rewrite Hput.
  rewrite IH; [|done|done|].
  - unfold set_candidates. cbn [candidates rel_policy blobs allowlist]. do 2 f_equal. by apply insert_into_rest.
  - intros j Hj. cbn [candidates set_candidates]. rewrite lookup_insert_ne by by intros ->. apply Hm. by right.
Qed.
Lemma read_entry_back e : entry_wf e → read_entry (entry_value e) = Ok e.
Proof.
  intros [_ Hs Hb _ _]. unfold read_entry, ch_wf in *.
  change (str_or "" "hs" (entry_value e)) with (ch_str (al_hs e)). change (str_or "" "hb" (entry_value e)) with (ch_str (al_hb e)).
  rewrite Hs, ok_bind, Hb, ok_bind. by destruct e.
Qed.
Lemma filter_absent (l : list AllowlistEntry) id : id ∉ al_release_id <$> l → filter (λ x, al_release_id x ≠ id) l = l.
Proof.
  induction l as [|x l IH]; [done|]. cbn [fmap list_fmap]. intros [Hx Hl]%not_elem_of_cons.
  rewrite filter_cons_True by congruence. by rewrite IH.
Qed.
Lemma read_allowlist_back l m : NoDup (al_release_id <$> (allowlist m ++ l)) → Forall entry_wf l →
  read_allowlist (map entry_value l) m = (set_allowlist (λ a, a ++ l) m, Ok tt).
Proof.
  revert m. induction l as [|e l IH]; intros m; [intros; cbn; unfold set_allowlist; rewrite app_nil_r; by destruct m|].
  intros Hd [He Hl]%Forall_cons. cbn [map read_allowlist].
  rewrite (bind_run _ _ m m (Ok e)) by by unfold lift; rewrite read_entry_back.
  assert (put_allowlist e m = (set_allowlist (λ a, a ++ [e]) m, Ok tt)) as Hput.
  { unfold put_allowlist, update, set_allowlist. rewrite filter_absent; [done|]. rewrite fmap_app in Hd.
    apply NoDup_app in Hd as (_ & Hd & _). intros H. by apply (Hd _ H); left. }
  rewrite (bind_run _ _ m _ (Ok tt) Hput). rewrite IH; [|by cbn [allowlist set_allowlist]; rewrite <- app_assoc|done].
  unfold set_allowlist. cbn [allowlist rel_policy blobs candidates]. by rewrite <- app_assoc.
Qed.

(* ------------------------------------------------------------------ *)
(** ** A life of the store *)

Definition policy_wf (p : ReleasePolicy) : Prop :=
  Forall (λ n, n ≤ u64_max) [council_n p; min_rebuilds p; vault_n p; timelock_secs p; lab_timelock_scale p].
Lemma mesh_wf_new p : policy_wf p → mesh_wf (release_mesh_new p).
Proof. intros Hp. split; [done|by intros ? ?|by constructor|by constructor]. Qed.
Lemma mesh_wf_put m k c : mesh_wf m → rel_id c = k → candidate_wf c → mesh_wf (set_candidates (<[k := c]>) m).
Proof.
  intros [? Hc ? ?] Hk Hw. split; [done| |done|done]. intros j d Hj. cbn [candidates set_candidates] in Hj.
  apply lookup_insert_Some in Hj as [[<- <-]|[_ Hj]]; [done|by apply Hc].
Qed.
Lemma mesh_wf_allow m e : mesh_wf m → entry_wf e → mesh_wf (put_allowlist e m).1.
Proof.
  intros [? ? Ha Hn] He. split; [done|done| |].
  - cbn. apply Forall_app. split; [|by apply Forall_singleton]. rewrite Forall_forall in *. intros x [_ Hx]%list_elem_of_filter. by apply Ha.
  - cbn [allowlist set_allowlist put_allowlist update fst]. rewrite fmap_app. apply NoDup_app. split_and!.
    + eapply sublist_NoDup; [exact Hn|]. apply fmap_sublist, sublist_filter.
    + intros i (x & -> & [Hx _]%list_elem_of_filter)%list_elem_of_fmap. cbn. intros ?%list_elem_of_singleton. done.
    + apply NoDup_singleton.
Qed.
Lemma read_blobs_keeps l m : ∃ f, (read_blobs l m).1 = set_blobs f m.
Proof.
  revert m. induction l as [|[n b] l IH]; intros m; [exists id; by destruct m|]. cbn [read_blobs].
  destruct (content_hash_parse n) as [h|x].
  - destruct (IH (set_blobs (<[ch_str h := b]>) m)) as [f Hf]. exists (λ s, f (<[ch_str h := b]> s)). exact Hf.
  - exact (IH m).
Qed.
Lemma mesh_wf_blobs f m : mesh_wf m → mesh_wf (set_blobs f m).
Proof. intros []. by split. Qed.

Inductive release_op := OpPut (c : ReleaseCandidate) | OpSave (c : ReleaseCandidate) | OpAllow (a : AllowlistEntry).
Definition op_wf (o : release_op) : Prop := match o with OpPut c | OpSave c => candidate_wf c | OpAllow a => entry_wf a end.
Definition op_run (root : string) (e : FsEnv) (o : release_op) : dcmd PersistedReleaseMesh unit :=
  match o with
  | OpPut c => persisted_put_candidate root e c
  | OpSave c => persisted_save_candidate root e c
  | OpAllow a => persisted_put_allowlist root e a
  end.
Definition op_inner (o : release_op) : dcmd ReleaseMesh unit :=
  match o with OpPut c => put_candidate c | OpSave c => save_candidate c | OpAllow a => put_allowlist a end.
Lemma op_inner_wf o m : op_wf o → mesh_wf m → mesh_wf (op_inner o m).1.
Proof.
  intros Ho Hm. destruct o as [c|c|a]; cbn [op_inner op_wf] in *; [| |by apply mesh_wf_allow].
  - unfold put_candidate. rewrite (bind_run _ _ m m (Ok m)) by done. case_bool_decide; [done|]. by apply mesh_wf_put.
  - unfold save_candidate. rewrite (bind_run _ _ m m (Ok m)) by done. case_bool_decide; [by apply mesh_wf_put|done].
Qed.
Notation mesh_snapshot := (snapshot_text meta_name meta_json mesh_wf).
Notation write_meta root := (write_snapshot root meta_name meta_json).
(** An operation that gets past the mesh writes the snapshot of what the mesh became. *)
Lemma op_run_spec root e o p :
  (∃ x, op_run root e o p = (mk_persisted_mesh (op_inner o (pm_inner p)).1 (pm_root p) (pm_blobs p), Err x)) ∨
  (let m := (op_inner o (pm_inner p)).1 in
   let w := write_meta root e m (pm_root p) in
   (op_run root e o p).1 = mk_persisted_mesh m w.1 (pm_blobs p) ∧ ((op_run root e o p).2 = Ok tt → w.2 = Ok tt)).
Proof.
  assert (op_run root e o = (_ ← on_inner (op_inner o); persist_meta root e)) as -> by by destruct o.
  assert (on_inner (op_inner o) p = (mk_persisted_mesh (op_inner o (pm_inner p)).1 (pm_root p) (pm_blobs p), (op_inner o (pm_inner p)).2)) as Hi
    by (unfold on_inner, zoom; by destruct (op_inner o (pm_inner p))).
  rewrite (bind_run _ _ _ _ _ Hi). destruct (op_inner o (pm_inner p)) as [m [[]|x]]; [right|left; by exists x].
  cbn [fst]. unfold persist_meta. set (q := mk_persisted_mesh m _ _). rewrite (bind_run _ _ q q (Ok q)) by done.
  unfold as_threshold, on_root, zoom. cbn [pm_inner pm_root pm_blobs q].
  unfold write_snapshot. destruct (atomic_write_fsync _ _ _ _ (pm_root p)) as [w [[]|x]]; done.
Qed.

Section life.
Context {JR : JsonRead} {JS : JsonSpec} (root : string).

Definition mesh_data (m : ReleaseMesh) : gmap string ReleaseCandidate * list AllowlistEntry := (candidates m, allowlist m).
Lemma hydrate_snapshot m policy : mesh_wf m → ∃ m', hydrate_meta (bytes_of (meta_json m)) (release_mesh_new policy) = (m', Ok tt) ∧
  mesh_data m' = mesh_data m ∧ rel_policy m' = policy.
Proof.
  intros Hm. assert (json_wf (meta_value m)) as Hwf by by apply meta_value_wf.
  unfold hydrate_meta. rewrite meta_text. set (m0 := release_mesh_new policy).
  assert (from_utf8 (bytes_of (print_json (meta_value m))) = Some (print_json (meta_value m))) as Hu.
  { unfold from_utf8, print_json. rewrite valid_utf8_print by done. by rewrite str_of_bytes_of. }
  rewrite (bind_run _ _ m0 m0 (Ok (print_json (meta_value m)))) by by unfold lift; rewrite Hu.
  rewrite (bind_run _ _ m0 m0 (Ok (meta_value m))) by (unfold lift; by rewrite json_reads by (done || apply meta_depth)).
  change (array_at "candidates" (meta_value m)) with (map candidate_value (bt_values (candidates m))).
  change (array_at "allowlist" (meta_value m)) with (map entry_value (allowlist m)).
  destruct Hm as [Hp Hc Ha Hn]. unfold bt_values.
  rewrite (bind_run _ _ _ _ _ (read_candidates_back (bt_iter (candidates m)) m0 (NoDup_bt_keys _) ltac:(apply Forall_forall; intros [k c] Hk%elem_of_bt_iter; by apply Hc) ltac:(done))).
  rewrite read_allowlist_back by done. eexists. split; [done|]. split; [|done].
  unfold mesh_data. cbn. by rewrite bt_iter_map, (right_id_L ∅ (∪)).
Qed.
Lemma open_snapshot m policy r b : mesh_wf m → policy_wf policy → fs_read r meta_name = Some (bytes_of (meta_json m)) →
  ∃ p, release_open None None policy r b = Ok p ∧ mesh_data (pm_inner p) = mesh_data m ∧ rel_policy (pm_inner p) = policy ∧
    pm_root p = fs_mkdir r.
Proof.
  intros Hm Hp Hr. unfold release_open. rewrite Hr. destruct (hydrate_snapshot m policy Hm) as (m' & -> & Hd & Hpol).
  rewrite ok_bind. eexists. split; [done|]. cbn [pm_inner pm_root]. destruct (read_blobs_keeps (listing b) m') as [f ->]. by split_and!.
Qed.
Lemma mesh_wf_data m m' : mesh_wf m → mesh_data m' = mesh_data m → policy_wf (rel_policy m') → mesh_wf m'.
Proof. intros [_ Hc Ha Hn] [= Hdc Hda] Hp. split; [done|rewrite Hdc; done|by rewrite Hda|by rewrite Hda]. Qed.

(** The directory is whole: the node starts, with what some snapshot held or with nothing. *)
Lemma open_whole policy r b : policy_wf policy → fs_ok mesh_snapshot r →
  ∃ p, release_open None None policy r b = Ok p ∧ mesh_wf (pm_inner p) ∧ rel_policy (pm_inner p) = policy ∧ pm_root p = fs_mkdir r.
Proof.
  intros Hp Hr. destruct (snapshot_whole meta_name _ _ eq_refl r Hr) as [E|(m & Hm & E)].
  - unfold release_open. rewrite E, ok_bind. eexists. split; [done|]. cbn [pm_inner pm_root].
    destruct (read_blobs_keeps (listing b) (release_mesh_new policy)) as [f ->]. split_and!; [|done|done].
    by apply mesh_wf_blobs, mesh_wf_new.
  - destruct (open_snapshot m policy r b Hm Hp E) as (p & Ho & Hd & Hpol & Hroot).
    exists p. split_and!; [done| |done|done]. eapply mesh_wf_data; [done..|by rewrite Hpol].
Qed.

(** Operations, failing anywhere in their writes, and restarts after crashes. *)
Inductive release_step : PersistedReleaseMesh → PersistedReleaseMesh → Prop :=
| release_op_step e o p : op_wf o → release_step p (op_run root e o p).1
| release_blob_step e h b p : release_step p (persisted_blob_put root e h b p).1
| release_restart_step policy r b p p' : policy_wf policy → crash (pm_root p) r → crash (pm_blobs p) b →
    release_open None None policy r b = Ok p' → release_step p p'.
Definition release_ok (p : PersistedReleaseMesh) : Prop := mesh_wf (pm_inner p) ∧ fs_ok mesh_snapshot (pm_root p).

Lemma release_step_ok p p' : release_ok p → release_step p p' → release_ok p'.
Proof.
  intros [Hm Hf] Hs. destruct Hs as [e o p Ho|e h b p|policy r b p p' Hp Hr Hb Hopen].
  - pose proof (op_inner_wf o _ Ho Hm) as Hm'.
    destruct (op_run_spec root e o p) as [[x ->]|[-> _]]; [done|]. split; [done|]. by apply write_snapshot_ok.
  - unfold persisted_blob_put. erewrite bind_run by reflexivity. cbv beta iota.
    unfold persist_blob, as_threshold, on_blobs, zoom. destruct (atomic_write_fsync _ _ _ _ _) as [w r]. split; [by apply mesh_wf_blobs|done].
  - assert (fs_ok mesh_snapshot r) as Hr' by by eapply fs_ok_crash.
    destruct (open_whole policy r b Hp Hr') as (q & Hq & Hqm & _ & Hqr). rewrite Hopen in Hq. simplify_eq.
    split; [done|]. rewrite Hqr. by apply fs_ok_mkdir.
Qed.

(** After any sequence of operations on the release store, each failing anywhere in its writes, and of
    crashes, the node reads its snapshot and starts again; and when the operation was the last and succeeded
    in a directory whose own entry is durable, it starts with exactly the candidates and the
    allowlist the mesh had, under the policy it is started with. *)
Theorem release_survives_restart policy0 exists_ dir p0 p : root ≠ "" → policy_wf policy0 →
  release_open None None policy0 (mk_fs exists_ ∅ [] ∅) dir = Ok p0 → steps release_step p0 p →
  ∀ policy, policy_wf policy →
  (∀ r b, crash (pm_root p) r → ∃ p', release_open None None policy r b = Ok p') ∧
  (∀ e o p1 r b, op_wf o → op_run root e o p = (p1, Ok tt) → fs_root (pm_root p) = Some true → crash (pm_root p1) r →
     ∃ p', release_open None None policy r b = Ok p' ∧ mesh_data (pm_inner p') = mesh_data (pm_inner p1) ∧
       rel_policy (pm_inner p') = policy).
Proof.
  intros Hroot Hp0 Ho Hs policy Hp.
  assert (release_ok p) as [Hm Hf].
  { eapply (steps_invariant _ release_ok release_step_ok _ _ Hs).
    destruct (open_whole policy0 (mk_fs exists_ ∅ [] ∅) dir Hp0 (fs_ok_empty _ _)) as (q & Hq & Hqm & _ & Hqr).
    rewrite Ho in Hq. simplify_eq. split; [done|]. rewrite Hqr. apply fs_ok_mkdir, fs_ok_empty. }
  split.
  - intros r b Hr. destruct (open_whole policy r b Hp) as (q & Hq & _); [by eapply fs_ok_crash|by exists q].
  - intros e o p1 r b Hw Hop Hdur Hr. pose proof (op_inner_wf o _ Hw Hm) as Hm'.
    destruct (op_run_spec root e o p) as [[x Hx]|[H1 H2]]; [congruence|]. rewrite Hop in H1, H2. specialize (H2 eq_refl).
    cbn [fst snd] in H1. subst p1. cbn [pm_root pm_inner] in *.
    destruct (write_meta root e _ (pm_root p)) as [s1 r1] eqn:Hwr. cbn [fst snd] in *. subst r1.
    destruct (open_snapshot _ policy r b Hm' Hp (snapshot_settled _ _ _ _ _ _ _ _ _ Hroot Hf Hdur Hwr Hr)) as (p' & ? & ? & ? & _). by exists p'.
Qed.
End life.
