(* ===== verification/EconomyStore.v ===== *)
(** * The durable economy ([adapters/economy_memory.rs])

    The economy of [Economy] with its snapshot on disk: written by [atomic_write_fsync] at every
    change, and read back at start ([load_economy]). *)
From S2P Require Import Prelude RustStr RustParse Errors Identity Bucket Constitution Economy DurableFs Json.
Local Open Scope N_scope.

(* ------------------------------------------------------------------ *)
(** ** Writing *)

Definition serialize_operator (o : MinerOperator) : string :=
  format (q "{{`node_id`:`{}`,`payout_destination`:`{}`,`uptime_bps_30d`:{},`attestation_streak_days`:{},`bond_sats`:{},`waiting`:{}}}")
    [escape_json (node_str (op_node_id o)); escape_json (payout_destination o); show (uptime_bps_30d o);
     show (attestation_streak_days o); show (bond_sats o); show_bool (waiting o)].
Definition serialize_credit (kv : string * N) : string :=
  format (q "{{`node_id`:`{}`,`sats`:{}}}") [escape_json kv.1; show kv.2].
Definition serialize_economy (s : EconomyState) : string :=
  let ops := map serialize_operator (bt_values (operators s)) in
  let credits := map serialize_credit (bt_iter (governance_credits s)) in
  format (q "{{`version`:1,`miner_pool_sats`:{},`channels_pool_sats`:{},`infra_pool_sats`:{},`accrued_profit_sats`:{},`pending_governance_reward_sats`:{},`crypto_suite_id_pq`:`{}`,`last_miner_payout_at_secs`:{},`last_miner_payout_epoch`:{},`policy`:{{`min_uptime_bps_30d`:{},`min_attestation_streak_days`:{},`min_bond_sats`:{},`waiting_pool_share_bps`:{}}},`operators`:[{}],`governance_credits`:[{}]}}")
    [show (miner_pool_sats s); show (channels_pool_sats s); show (infra_pool_sats s); show (accrued_profit_sats s);
     show (pending_governance_reward_sats s); escape_json (crypto_suite_id_pq s);
     show_opt (last_miner_payout_at_secs s); show_opt (last_miner_payout_epoch s);
     show (min_uptime_bps_30d (policy s)); show (min_attestation_streak_days (policy s)); show (min_bond_sats (policy s));
     show (waiting_pool_share_bps (policy s)); join "," ops; join "," credits].

Section economy.
Context (root name : string).

(** The state in memory and the directory the snapshot is in. *)
Record PersistedEconomy := mk_persisted_economy { eco_inner : EconomyState; eco_dir : Fs }.
Definition on_eco_inner {A} : dcmd EconomyState A → dcmd PersistedEconomy A :=
  zoom eco_inner (λ i s, mk_persisted_economy i (eco_dir s)).
Definition on_eco_dir {A} : dcmd Fs A → dcmd PersistedEconomy A := zoom eco_dir (λ d s, mk_persisted_economy (eco_inner s) d).
Definition eco_persist (e : FsEnv) : dcmd PersistedEconomy unit :=
  s ← get;
  as_threshold "economy persist: {}" (on_eco_dir (write_snapshot root name serialize_economy e (eco_inner s))).
(** A mutating method: the domain operation, then [persist]. *)
Definition persisted_op {A} (e : FsEnv) (op : dcmd EconomyState A) : dcmd PersistedEconomy A :=
  a ← on_eco_inner op;
  _ ← eco_persist e;
  mret a.

(* ------------------------------------------------------------------ *)
(** ** Reading *)

(** [as u32]. *)
Definition wrap32 (n : N) : N := n mod 4294967296.
Definition read_operator (o : Value) : option MinerOperator :=
  match node_id_new (str_or "" "node_id" o) with
  | Ok node_id =>
      Some {| op_node_id := node_id; payout_destination := str_or "" "payout_destination" o;
              uptime_bps_30d := wrap32 (u64_or 0 "uptime_bps_30d" o);
              attestation_streak_days := wrap32 (u64_or 0 "attestation_streak_days" o);
              bond_sats := u64_or 0 "bond_sats" o; waiting := bool_or false "waiting" o |}
  | Err _ => None
  end.
(** The operators in turn, those without a node id or refused by [upsert_operator] passed over. *)
Fixpoint read_operators (l : list Value) (s : EconomyState) : EconomyState :=
  match l with
  | [] => s
  | o :: rest => read_operators rest (match read_operator o with Some op => (upsert_operator op s).1 | None => s end)
  end.
Definition read_credit (c : Value) : option (string * N) :=
  id ← as_str (at_key "node_id" c); sats ← as_u64 (at_key "sats" c); Some (id, sats).
Definition read_credits (l : list Value) : gmap string N :=
  foldl (λ m c, match read_credit c with Some (id, sats) => <[id := sats]> m | None => m end) ∅ l.
Definition read_policy (p : Value) : RewardPolicy :=
  {| min_uptime_bps_30d := wrap32 (u64_or 9500 "min_uptime_bps_30d" p);
     min_attestation_streak_days := wrap32 (u64_or 1 "min_attestation_streak_days" p);
     min_bond_sats := u64_or 0 "min_bond_sats" p; waiting_pool_share_bps := wrap32 (u64_or 0 "waiting_pool_share_bps" p) |}.
Definition read_economy (v : Value) : EconomyState :=
  let s := economy_new_open in
  let s := {|
    policy := match get_member "policy" v with Some p => read_policy p | None => policy s end;
    operators := operators s;
    miner_pool_sats := u64_or 0 "miner_pool_sats" v; channels_pool_sats := u64_or 0 "channels_pool_sats" v;
    infra_pool_sats := u64_or 0 "infra_pool_sats" v; accrued_profit_sats := u64_or 0 "accrued_profit_sats" v;
    pending_governance_reward_sats := u64_or 0 "pending_governance_reward_sats" v;
    governance_credits := governance_credits s;
    crypto_suite_id_pq := str_or (crypto_suite_id_pq s) "crypto_suite_id_pq" v;
    last_miner_payout_at_secs := as_u64 (at_key "last_miner_payout_at_secs" v);
    last_miner_payout_epoch := as_u64 (at_key "last_miner_payout_epoch" v) |} in
  let s := read_operators (array_at "operators" v) s in
  set_rewards (miner_pool_sats s) (pending_governance_reward_sats s) (read_credits (array_at "governance_credits" v)) s.
Definition load_economy `{!JsonRead} (fails : option string) (raw : bytes) : res EconomyState :=
  _ ← match fails with Some e => Err (ThresholdError (format "economy read: {}" [e])) | None => Ok tt end;
  raw ← ok_or (from_utf8 raw) (ThresholdError "economy read: stream did not contain valid UTF-8");
  v ← map_err (λ e, ThresholdError (format "economy json: {}" [e])) (json_from_str raw);
  Ok (read_economy v).
(** [PersistedEconomy::open] in the directory: what is there or a new economy, written back at once. *)
Definition economy_open `{!JsonRead} (fails : option string) (e : FsEnv) : dcmd Fs EconomyState :=
  d ← get;
  s ← lift (match fs_read d name with Some raw => load_economy fails raw | None => Ok economy_new_open end);
  _ ← as_threshold "economy persist: {}" (write_snapshot root name serialize_economy e s);
  mret s.
End economy.

(* ------------------------------------------------------------------ *)
(** ** The snapshot is the text of a value, and reads back *)

Definition operator_value (o : MinerOperator) : Value :=
  JObj [("node_id", JStr (node_str (op_node_id o))); ("payout_destination", JStr (payout_destination o));
        ("uptime_bps_30d", JNum (uptime_bps_30d o)); ("attestation_streak_days", JNum (attestation_streak_days o));
        ("bond_sats", JNum (bond_sats o)); ("waiting", JBool (waiting o))].
Definition credit_value (kv : string * N) : Value := JObj [("node_id", JStr kv.1); ("sats", JNum kv.2)].
Definition opt_value (o : option N) : Value := match o with Some n => JNum n | None => JNull end.
Definition reward_policy_value (p : RewardPolicy) : Value :=
  JObj [("min_uptime_bps_30d", JNum (min_uptime_bps_30d p)); ("min_attestation_streak_days", JNum (min_attestation_streak_days p));
        ("min_bond_sats", JNum (min_bond_sats p)); ("waiting_pool_share_bps", JNum (waiting_pool_share_bps p))].
Definition economy_value (s : EconomyState) : Value :=
  JObj [("version", JNum 1); ("miner_pool_sats", JNum (miner_pool_sats s)); ("channels_pool_sats", JNum (channels_pool_sats s));
        ("infra_pool_sats", JNum (infra_pool_sats s)); ("accrued_profit_sats", JNum (accrued_profit_sats s));
        ("pending_governance_reward_sats", JNum (pending_governance_reward_sats s));
        ("crypto_suite_id_pq", JStr (crypto_suite_id_pq s)); ("last_miner_payout_at_secs", opt_value (last_miner_payout_at_secs s));
        ("last_miner_payout_epoch", opt_value (last_miner_payout_epoch s)); ("policy", reward_policy_value (policy s));
        ("operators", JArr (map operator_value (bt_values (operators s))));
        ("governance_credits", JArr (map credit_value (bt_iter (governance_credits s))))].

Lemma operator_text o : serialize_operator o = print_json (operator_value o).
Proof. by destruct o as [? ? ? ? ? []]. Qed.
Lemma economy_text s : serialize_economy s = print_json (economy_value s).
Proof.
  unfold serialize_economy, economy_value, print_json. cbv zeta. rewrite print_obj. cbn [print_members fst snd].
  rewrite (print_arr_join operator_value), (print_arr_join credit_value).
  rewrite (join_ext _ (λ x, print_json (operator_value x)) (bt_values (operators s))) by apply operator_text.
  rewrite (join_ext _ (λ x, print_json (credit_value x)) (bt_iter (governance_credits s))) by reflexivity.
  generalize (join "," (map (λ x, print_json (operator_value x)) (bt_values (operators s)))).
  generalize (join "," (map (λ x, print_json (credit_value x)) (bt_iter (governance_credits s)))). intros x y.
  destruct (last_miner_payout_at_secs s), (last_miner_payout_epoch s); reflexivity.
Qed.

Definition legal_destination (s : string) : bool := negb (contains_str ".." s || contains_char "/"%char s || contains_char "\"%char s).
Record operator_wf (o : MinerOperator) : Prop := {
  ow_node : node_id_wf (op_node_id o) ∧ plain_str (node_str (op_node_id o));
  ow_destination : plain_str (payout_destination o);
  ow_legal : legal_destination (payout_destination o) = true;
  ow_32 : uptime_bps_30d o ≤ u32_max ∧ attestation_streak_days o ≤ u32_max;
  ow_bond : bond_sats o ≤ u64_max;
}.
(** What the types and the operations guarantee of an economy whose texts hold no control characters. *)
Record economy_wf (s : EconomyState) : Prop := {
  sw_sats : Forall (λ n, n ≤ u64_max) [miner_pool_sats s; channels_pool_sats s; infra_pool_sats s; accrued_profit_sats s;
              pending_governance_reward_sats s; min_bond_sats (policy s)];
  sw_32 : Forall (λ n, n ≤ u32_max) [min_uptime_bps_30d (policy s); min_attestation_streak_days (policy s); waiting_pool_share_bps (policy s)];
  sw_suite : plain_str (crypto_suite_id_pq s);
  sw_last n : last_miner_payout_at_secs s = Some n ∨ last_miner_payout_epoch s = Some n → n ≤ u64_max;
  sw_operators k o : operators s !! k = Some o → node_str (op_node_id o) = k ∧ operator_wf o;
  sw_credits k n : governance_credits s !! k = Some n → plain_str k ∧ n ≤ u64_max;
}.

Lemma u32_u64 n : n ≤ u32_max → n ≤ u64_max.
Proof. unfold u32_max, u64_max. lia. Qed.
Lemma wrap32_small n : n ≤ u32_max → wrap32 n = n.
Proof. unfold u32_max, wrap32. intros. apply N.mod_small. lia. Qed.
Lemma operator_value_wf o : operator_wf o → json_wf (operator_value o).
Proof. intros [[_ ?] ? _ [?%u32_u64 ?%u32_u64] ?]. wf_object; cbn [fst snd]; by constructor. Qed.
Lemma economy_value_wf s : economy_wf s → json_wf (economy_value s).
Proof.
  intros [Hs Hp Hpq Hl Ho Hc]. rewrite !Forall_cons in Hs; rewrite !Forall_cons in Hp. destruct Hs as (? & ? & ? & ? & ? & ? & _), Hp as (? & ? & ? & _).
  assert (∀ o, (∀ n, o = Some n → n ≤ u64_max) → json_wf (opt_value o)) as Hopt by (intros [n|] Hn; constructor; by apply Hn).
  wf_object; cbn [fst snd]; try (by constructor).
  - apply Hopt. intros n Hn. apply Hl. by left.
  - apply Hopt. intros n Hn. apply Hl. by right.
  - wf_object; cbn [fst snd]; constructor; first [done | by apply u32_u64].
  - constructor. apply Forall_forall. intros v (o & -> & (k & Hk)%elem_of_bt_values)%list_elem_of_fmap. by apply operator_value_wf, (Ho k).
  - constructor. apply Forall_forall. intros v ([k n] & -> & Hk%elem_of_bt_iter)%list_elem_of_fmap. destruct (Hc _ _ Hk).
    wf_object; cbn [fst snd]; by constructor.
Qed.
Lemma economy_depth s : (json_depth (economy_value s) < 128)%nat.
Proof.
  apply (Nat.le_lt_trans _ 3); [|lia]. unfold economy_value. cbn [json_depth foldr snd]. apply le_n_S.
  repeat apply max_le; try (cbn [json_depth foldr snd reward_policy_value]; lia).
  - destruct (last_miner_payout_at_secs s); cbn [json_depth opt_value]; lia.
  - destruct (last_miner_payout_epoch s); cbn [json_depth opt_value]; lia.
  - by apply (depth_items operator_value 1).
  - by apply (depth_items credit_value 1).
Qed.

Lemma upsert_legal o s : legal_destination (payout_destination o) = true →
  upsert_operator o s = (set_operators (<[node_str (op_node_id o) := o]>) s, Ok tt).
Proof. unfold legal_destination, upsert_operator. intros H%negb_true_iff. by rewrite H. Qed.
Lemma read_operator_back o : operator_wf o → read_operator (operator_value o) = Some o.
Proof.
  intros [[Hn _] _ _ [Hu Ha] _]. unfold read_operator.
  change (str_or "" "node_id" (operator_value o)) with (node_str (op_node_id o)). rewrite node_id_new_roundtrip by done.
  change (u64_or 0 "uptime_bps_30d" (operator_value o)) with (uptime_bps_30d o).
  change (u64_or 0 "attestation_streak_days" (operator_value o)) with (attestation_streak_days o).
  rewrite !wrap32_small by done. by destruct o.
Qed.
Lemma read_operators_back (l : list (string * MinerOperator)) s : NoDup l.*1 →
  Forall (λ ko, node_str (op_node_id ko.2) = ko.1 ∧ operator_wf ko.2) l →
  read_operators (map operator_value l.*2) s = set_operators (λ m, list_to_map l ∪ m) s.
Proof.
  revert s. induction l as [|[k o] l IH]; intros s.
  { intros _ _. destruct s. unfold set_operators. cbn. by rewrite (left_id_L ∅ (∪)). }
  cbn [fmap list_fmap fst snd]. intros [Hk Hd]%NoDup_cons [[Hid Ho] Hl]%Forall_cons. cbn [fst snd] in Hid.
  cbn [map read_operators]. rewrite read_operator_back, upsert_legal by (done || apply Ho). cbn [fst]. rewrite Hid, IH by done.
  unfold set_operators. cbn. f_equal. by apply insert_into_rest.
Qed.
Lemma read_credits_back (l : list (string * N)) (m : gmap string N) : NoDup l.*1 →
  foldl (λ (m : gmap string N) c, match read_credit c with Some (id, sats) => <[id := sats]> m | None => m end) m (map credit_value l) = list_to_map l ∪ m.
Proof.
  revert m. induction l as [|[k n] l IH]; intros m; [intros _; cbn; by rewrite (left_id_L ∅ (∪))|].
  cbn [fmap list_fmap fst snd]. intros [Hk Hd]%NoDup_cons. cbn [map foldl].
  change (read_credit (credit_value (k, n))) with (Some (k, n)). cbv beta iota. rewrite IH by done. by apply insert_into_rest.
Qed.
Lemma read_policy_back p : min_uptime_bps_30d p ≤ u32_max → min_attestation_streak_days p ≤ u32_max → waiting_pool_share_bps p ≤ u32_max →
  read_policy (reward_policy_value p) = p.
Proof.
  intros H1 H2 H3. destruct p as [a b c d]. unfold read_policy.
  change (u64_or 9500 "min_uptime_bps_30d" _) with a. change (u64_or 1 "min_attestation_streak_days" _) with b.
  change (u64_or 0 "min_bond_sats" _) with c. change (u64_or 0 "waiting_pool_share_bps" _) with d. by rewrite !wrap32_small.
Qed.
Lemma opt_value_back o : as_u64 (opt_value o) = o.
Proof. by destruct o. Qed.
Lemma read_economy_back s : economy_wf s → read_economy (economy_value s) = s.
Proof.
  intros [_ Hp _ _ Ho _]. rewrite !Forall_cons in Hp. destruct Hp as (? & ? & ? & _). unfold read_economy. cbv zeta.
  change (array_at "operators" (economy_value s)) with (map operator_value (bt_iter (operators s)).*2).
  change (array_at "governance_credits" (economy_value s)) with (map credit_value (bt_iter (governance_credits s))).
  change (get_member "policy" (economy_value s)) with (Some (reward_policy_value (policy s))). cbv beta iota. rewrite read_policy_back by done.
  change (at_key "last_miner_payout_at_secs" (economy_value s)) with (opt_value (last_miner_payout_at_secs s)).
  change (at_key "last_miner_payout_epoch" (economy_value s)) with (opt_value (last_miner_payout_epoch s)). rewrite !opt_value_back.
  rewrite read_operators_back; [|apply NoDup_bt_keys|apply Forall_forall; intros [k o] Hk%elem_of_bt_iter; by apply Ho].
  unfold read_credits. rewrite read_credits_back by apply NoDup_bt_keys. rewrite !bt_iter_map, !(right_id_L ∅ (∪)).
  unfold set_operators, set_rewards. cbn. rewrite ?(right_id_L ∅ (∪)). by destruct s.
Qed.

(* ------------------------------------------------------------------ *)
(** ** A life of the economy *)

(** The mutating methods of the port. *)
Inductive eco_op :=
| OpUpsert (o : MinerOperator)
| OpProfit (profit p_reward_bps : N)
| OpSplits (profit : N) (splits : ProfitSplits)
| OpGovernance (job : GovernanceJobKind) (parts : list NodeId) (config : GovernanceRewardConfig)
| OpDebit (amount : N)
| OpPayout (at_secs : N) (epoch : option N).
Definition eco_op_cmd (o : eco_op) : dcmd EconomyState unit :=
  match o with
  | OpUpsert o => upsert_operator o
  | OpProfit profit bps => _ ← accrue_from_profit profit bps; mret tt
  | OpSplits profit splits => _ ← accrue_profit_splits profit splits; mret tt
  | OpGovernance job parts config => _ ← accrue_governance_job job parts config; mret tt
  | OpDebit amount => debit_pool amount
  | OpPayout at_secs epoch => record_miner_payout at_secs epoch
  end.
Definition eco_op_wf (o : eco_op) : Prop :=
  match o with
  | OpUpsert o => node_id_wf (op_node_id o) ∧ plain_str (node_str (op_node_id o)) ∧ plain_str (payout_destination o) ∧
      uptime_bps_30d o ≤ u32_max ∧ attestation_streak_days o ≤ u32_max ∧ bond_sats o ≤ u64_max
  | OpPayout at_secs epoch => at_secs ≤ u64_max ∧ ∀ n, epoch = Some n → n ≤ u64_max
  | _ => True
  end.

Lemma economy_new_wf : economy_wf economy_new_open.
Proof.
  split.
  1, 2: repeat apply Forall_cons_2; try apply Forall_nil_2; apply N.leb_le; reflexivity.
  - by apply plain_const.
  - by intros n [?|?].
  - by intros k o ?.
  - by intros k n ?.
Qed.
Lemma set_pools_wf a b c d s : economy_wf s → a ≤ u64_max → b ≤ u64_max → c ≤ u64_max → d ≤ u64_max → economy_wf (set_pools a b c d s).
Proof. intros [Hs ? ? ? ? ?] ? ? ? ?. split; try done. rewrite !Forall_cons in *. cbn. naive_solver. Qed.
Lemma set_rewards_wf a b g s : economy_wf s → a ≤ u64_max → b ≤ u64_max → (∀ k n, g !! k = Some n → plain_str k ∧ n ≤ u64_max) →
  economy_wf (set_rewards a b g s).
Proof. intros [Hs ? ? ? ? ?] ? ? ?. split; try done. rewrite !Forall_cons in *. cbn. naive_solver. Qed.
Lemma set_operators_wf k o s : economy_wf s → node_str (op_node_id o) = k → operator_wf o → economy_wf (set_operators (<[k := o]>) s).
Proof.
  intros [? ? ? ? Ho ?] Hk Hw. split; try done. intros j d Hj. cbn in Hj. apply lookup_insert_Some in Hj as [[<- <-]|[_ Hj]]; [done|by apply Ho].
Qed.
Lemma splits_wf s profit splits : economy_wf s → economy_wf (accrue_profit_splits profit splits s).1.
Proof.
  intros Hs. unfold accrue_profit_splits. rewrite (bind_run _ _ s s (splits_validate splits)) by done.
  destruct (splits_validate splits) as [[]|]; [|done]. destruct (allocate splits profit) as [[m c] i].
  cbn. apply set_pools_wf; [done|apply sat_add64_le..].
Qed.
(** Credits go to operators. *)
Lemma credits_wf (g : gmap string N) (l : list (NodeId * N)) : (∀ k n, g !! k = Some n → plain_str k ∧ n ≤ u64_max) →
  Forall (λ i, plain_str (node_str i)) l.*1 → ∀ k n, foldl credit g l !! k = Some n → plain_str k ∧ n ≤ u64_max.
Proof.
  revert g. induction l as [|[i v] l IH]; intros g Hg; [done|]. intros [Hi Hl]%Forall_cons. cbn [foldl]. apply IH; [|done].
  intros k n Hk. unfold credit in Hk. cbn [fst snd] in Hk. apply lookup_insert_Some in Hk as [[<- <-]|[_ Hk]]; [|by apply Hg].
  split; [done|apply wrap64_le].
Qed.
Lemma governance_wf s job parts config : economy_wf s → economy_wf (accrue_governance_job job parts config s).1.
Proof.
  intros Hs. unfold accrue_governance_job. cbv zeta. rewrite (bind_run _ _ s s (Ok s)) by done.
  destruct (bounty_sats config (miner_pool_sats s) =? 0); [done|]. cbn [fst mbind cmd_bind update]. 
  apply set_rewards_wf; [done|apply sat_add64_le..|]. apply credits_wf; [apply Hs|].
  set (l := eligible_participants _ _). assert (Forall (λ i, plain_str (node_str i)) l) as Hl.
  { apply Forall_forall. intros i [Hi _]%list_elem_of_filter. destruct (operators s !! node_str i) as [o|] eqn:E; [|done].
    apply (sw_operators _ Hs) in E as [<- Ho]. apply Ho. }
  destruct l as [|x l]; [constructor|]. unfold equal_split. by rewrite share_loop_fst.
Qed.
Lemma eco_op_keeps_wf o s : eco_op_wf o → economy_wf s → economy_wf (eco_op_cmd o s).1.
Proof.
  intros Ho Hs. destruct o as [o|profit bps|profit splits|job parts config|amount|at_secs epoch]; cbn [eco_op_cmd eco_op_wf] in *.
  - destruct (legal_destination (payout_destination o)) eqn:E.
    + rewrite upsert_legal by done. apply set_operators_wf; [done..|]. destruct Ho as (? & ? & ? & ? & ? & ?). by split.
    + unfold upsert_operator. apply negb_false_iff in E. by rewrite E.
  - unfold mbind, cmd_bind, accrue_from_profit. destruct (splits_open_with_reward bps) as [splits|]; [|done].
    pose proof (splits_wf s profit splits Hs). by destruct (accrue_profit_splits profit splits s) as [s' []].
  - pose proof (splits_wf s profit splits Hs). unfold mbind, cmd_bind. by destruct (accrue_profit_splits profit splits s) as [s' []].
  - pose proof (governance_wf s job parts config Hs). unfold mbind, cmd_bind. by destruct (accrue_governance_job job parts config s) as [s' []].
  - unfold debit_pool. rewrite (bind_run _ _ s s (Ok s)) by done. destruct (miner_pool_sats s <? amount); [done|].
    cbn. pose proof (sw_sats _ Hs) as Hn. rewrite !Forall_cons in Hn. destruct Hn as (? & _ & _ & _ & ? & _).
    apply set_rewards_wf; [done|lia..|apply Hs].
  - cbn. destruct Hs as [? ? ? Hl ? ?]. split; try done. cbn. destruct Ho as [Ha He]. intros n [[= <-]|Hn]; [exact Ha|].
    destruct epoch as [e|]; [by apply He|]. apply Hl. by right.
Qed.

Section life.
Context {JR : JsonRead} {JS : JsonSpec} (root name : string) (Hname : is_tmp name = false).
Notation eco_snapshot := (snapshot_text name serialize_economy economy_wf).
Notation write_economy := (write_snapshot root name serialize_economy).

(** The process, or the directory it left. *)
Inductive EcoProcess := EcoUp (p : PersistedEconomy) | EcoDown (dir : Fs).
Inductive eco_step : EcoProcess → EcoProcess → Prop :=
| eco_op_step e o p : eco_op_wf o → eco_step (EcoUp p) (EcoUp (persisted_op root name e (eco_op_cmd o) p).1)
| eco_crash_step p d : crash (eco_dir p) d → eco_step (EcoUp p) (EcoDown d)
| eco_crash_down_step d d' : crash d d' → eco_step (EcoDown d) (EcoDown d')
| eco_open_step fails e d d' r : economy_open root name fails e d = (d', r) →
    eco_step (EcoDown d) (match r with Ok s => EcoUp (mk_persisted_economy s d') | Err _ => EcoDown d' end).
Definition eco_ok (p : EcoProcess) : Prop :=
  match p with EcoUp p => economy_wf (eco_inner p) ∧ fs_ok eco_snapshot (eco_dir p) | EcoDown d => fs_ok eco_snapshot d end.

Lemma load_snapshot s : economy_wf s → load_economy None (bytes_of (serialize_economy s)) = Ok s.
Proof.
  intros Hs. pose proof (economy_value_wf s Hs) as Hw. unfold load_economy. rewrite ok_bind, economy_text.
  unfold from_utf8, print_json. rewrite valid_utf8_print by done. rewrite str_of_bytes_of. cbn [ok_or]. rewrite ok_bind.
  fold (print_json (economy_value s)). rewrite json_reads by (done || apply economy_depth). cbn [map_err]. rewrite ok_bind.
  by rewrite read_economy_back.
Qed.
(** Opening writes back what it found. *)
Lemma open_writes fails e d : fs_ok eco_snapshot d →
  (∃ x, economy_open root name fails e d = (d, Err x)) ∨
  ∃ s, economy_wf s ∧ (fs_read d name = Some (bytes_of (serialize_economy s)) ∨ fs_read d name = None) ∧
    (economy_open root name fails e d).1 = (write_economy e s d).1 ∧
    (economy_open root name fails e d).2 = match (write_economy e s d).2 with Ok _ => Ok s | Err x => Err (ThresholdError (format "economy persist: {}" [fmt_error x])) end.
Proof.
  intros Hd. assert (∀ s, (economy_wf s ∧ (fs_read d name = Some (bytes_of (serialize_economy s)) ∨ fs_read d name = None)) →
    match fs_read d name with Some raw => load_economy fails raw | None => Ok economy_new_open end = Ok s →
    ∃ s, economy_wf s ∧ (fs_read d name = Some (bytes_of (serialize_economy s)) ∨ fs_read d name = None) ∧
    (economy_open root name fails e d).1 = (write_economy e s d).1 ∧
    (economy_open root name fails e d).2 = match (write_economy e s d).2 with Ok _ => Ok s | Err x => Err (ThresholdError (format "economy persist: {}" [fmt_error x])) end) as Hgo.
  { intros s [Hs Hr] Hl. exists s. split_and!; [done..| |];
      unfold economy_open; rewrite (bind_run _ _ d d (Ok d)) by done; rewrite Hl; rewrite (bind_run _ _ d d (Ok s)) by done;
      unfold mbind, cmd_bind, as_threshold; by destruct (write_economy e s d) as [d' [[]|x]]. }
  destruct (snapshot_whole name _ _ Hname d Hd) as [E|(s & Hs & E)].
  - right. apply (Hgo economy_new_open); [split; [apply economy_new_wf|by right]|by rewrite E].
  - destruct fails as [x|].
    + left. unfold economy_open. rewrite (bind_run _ _ d d (Ok d)) by done. rewrite E. by eexists.
    + right. apply (Hgo s); [split; [done|by left]|]. by rewrite E, load_snapshot.
Qed.
Lemma persisted_op_spec e o p : let s := (eco_op_cmd o (eco_inner p)).1 in
  (∃ x, persisted_op root name e (eco_op_cmd o) p = (mk_persisted_economy s (eco_dir p), Err x)) ∨
  ((persisted_op root name e (eco_op_cmd o) p).1 = mk_persisted_economy s (write_economy e s (eco_dir p)).1 ∧
   ((persisted_op root name e (eco_op_cmd o) p).2 = Ok tt → (write_economy e s (eco_dir p)).2 = Ok tt)).
Proof.
  cbv zeta. unfold persisted_op.
  assert (on_eco_inner (eco_op_cmd o) p = (mk_persisted_economy (eco_op_cmd o (eco_inner p)).1 (eco_dir p), (eco_op_cmd o (eco_inner p)).2)) as Hi
    by (unfold on_eco_inner, zoom; by destruct (eco_op_cmd o (eco_inner p))).
  rewrite (bind_run _ _ _ _ _ Hi). destruct (eco_op_cmd o (eco_inner p)) as [s [[]|x]]; cbn [fst snd]; [right|left; by exists x].
  unfold eco_persist, as_threshold, on_eco_dir, zoom, get, mbind, cmd_bind. cbn [eco_inner eco_dir].
  by destruct (write_economy e s (eco_dir p)) as [d' [[]|x]].
Qed.
Lemma eco_step_ok p p' : eco_ok p → eco_step p p' → eco_ok p'.
Proof.
  intros Hok Hs. destruct Hs as [e o p Ho|p d Hc|d d' Hc|fails e d d' r Hopen]; cbn [eco_ok] in *.
  - destruct Hok as [Hw Hf]. pose proof (eco_op_keeps_wf o _ Ho Hw) as Hw'.
    destruct (persisted_op_spec e o p) as [[x ->]|[-> _]]; [done|]. split; [done|]. by apply write_snapshot_ok.
  - eapply fs_ok_crash; [apply Hok|done].
  - by eapply fs_ok_crash.
  - destruct (open_writes fails e d Hok) as [[x Hx]|(s & Hs & _ & H1 & H2)]; [rewrite Hopen in Hx; by simplify_eq|].
    rewrite Hopen in H1, H2. cbn [fst snd] in *. pose proof (write_snapshot_ok root name serialize_economy economy_wf Hname e s d Hs Hok) as Hd'. rewrite <- H1 in Hd'.
    rewrite H2. by destruct (write_economy e s d).2.
Qed.
Lemma open_works d : root ≠ "" → fs_ok eco_snapshot d → ∃ d' s, economy_open root name None fs_works d = (d', Ok s) ∧ economy_wf s ∧
  (fs_read d name = Some (bytes_of (serialize_economy s)) ∨ fs_read d name = None).
Proof.
  intros Hroot Hd. destruct (open_writes None fs_works d Hd) as [[x Hx]|(s & Hs & Hr & H1 & H2)].
  - exfalso. unfold economy_open in Hx. rewrite (bind_run _ _ d d (Ok d)) in Hx by done.
    destruct (snapshot_whole name _ _ Hname d Hd) as [E|(s & Hs & E)]; rewrite E in Hx; [|rewrite load_snapshot in Hx by done].
    + rewrite (bind_run _ _ d d (Ok economy_new_open)) in Hx by done.
      destruct (atomic_write_works eco_snapshot root name (bytes_of (serialize_economy economy_new_open)) d Hd Hroot) as [d' Hw].
      unfold mbind, cmd_bind, as_threshold, write_snapshot in Hx. by rewrite Hw in Hx.
    + rewrite (bind_run _ _ d d (Ok s)) in Hx by done.
      destruct (atomic_write_works eco_snapshot root name (bytes_of (serialize_economy s)) d Hd Hroot) as [d' Hw].
      unfold mbind, cmd_bind, as_threshold, write_snapshot in Hx. by rewrite Hw in Hx.
  - destruct (atomic_write_works eco_snapshot root name (bytes_of (serialize_economy s)) d Hd Hroot) as [d' Hw].
    fold (write_snapshot root name serialize_economy fs_works s) in Hw. rewrite Hw in H1, H2. cbn [fst snd] in *.
    exists d', s. split; [|done]. by rewrite <- H1, <- H2, <- surjective_pairing.
Qed.

End life.
