(* ===== verification/SealedStore.v ===== *)
(** * Sealed share stores on a durable directory

    What the two stores of [adapters/share_aead.rs] and [adapters/share_tee.rs] have in
    common: a share is sealed into one file of its own, written by [atomic_write_fsync]. The
    sealing is a record of operations with its laws; a store that keeps them is a
    crash-safe register per share. *)
From S2P Require Import Prelude RustStr Errors DurableFs.
Local Open Scope N_scope.

(** [argon2] with 32 bytes of output ([memory], [iterations], [lanes], password, salt), and
    ChaCha20-Poly1305 under a key, a nonce and additional data. *)
Class SealLib := {
  argon2_32 : N → N → N → bytes → bytes → result string bytes;
  chacha_encrypt : bytes → bytes → bytes → bytes → option bytes;
  chacha_decrypt : bytes → bytes → bytes → bytes → option bytes;
}.
(** Decryption inverts encryption; the tag has 16 bytes; the additional data goes into the
    tag alone, so a ciphertext has one message under its key and nonce. *)
Class SealSpec `{!SealLib} : Prop := {
  chacha_round k n a m c : chacha_encrypt k n a m = Some c → chacha_decrypt k n a c = Some m;
  chacha_len k n a m c : chacha_encrypt k n a m = Some c → len c = len m + 16;
  chacha_message k n a a' m m' c : chacha_encrypt k n a m = Some c → chacha_decrypt k n a' c = Some m' → m' = m;
}.


(** What a call draws and what fails in it. *)
Record PutEnv := mk_put_env { pe_mkdir : option string; pe_salt : bytes; pe_nonce : bytes; pe_fs : FsEnv }.
Definition put_env_wf (e : PutEnv) : Prop := length (pe_salt e) = 16%nat ∧ length (pe_nonce e) = 12%nat.

(** [fs::read]; [fails]: an error other than a missing file. *)
Definition read_file (t : string) (fails : option string) (name : string) : dcmd Fs bytes :=
  s ← get;
  match fails with
  | Some e => forbidden t [e]
  | None => lift (ok_or (fs_read s name) (ShareStoreForbidden (format t ["No such file or directory (os error 2)"])))
  end.

(* ------------------------------------------------------------------ *)
(** ** A store: its gates, its files, its sealing *)

Record SealedStore := mk_sealed_store {
  ss_root : string;
  ss_put_gate : res unit;                               (** what a put checks first *)
  ss_get_gate : res unit;
  ss_mkdir_text : string;
  ss_read_text : string;
  ss_file : string → string;
  ss_seal : PutEnv → string → bytes → res bytes;
  ss_open : string → bytes → res bytes;
}.
(** What is sealed opens, under its id, to what it was, and to nothing else under any id;
    no share's file is a temporary one. *)
Class SealedLaws (S : SealedStore) : Prop := {
  ss_round e id pt b : put_env_wf e → ss_seal S e id pt = Ok b → ss_open S id b = Ok pt;
  ss_only e id pt b id' v : put_env_wf e → ss_seal S e id pt = Ok b → ss_open S id' b = Ok v → v = pt;
  ss_not_tmp id : is_tmp (ss_file S id) = false;
}.
Definition sealed_put (S : SealedStore) (e : PutEnv) (share_id : string) (plaintext : bytes) : dcmd Fs unit :=
  _ ← lift (ss_put_gate S);
  _ ← fs_check (pe_mkdir e) (ss_mkdir_text S) [];
  _ ← update fs_mkdir;
  out ← lift (ss_seal S e share_id plaintext);
  atomic_write_fsync (ss_root S) (ss_file S share_id) (pe_fs e) out.
Definition sealed_get (S : SealedStore) (fails : option string) (share_id : string) : dcmd Fs bytes :=
  _ ← lift (ss_get_gate S);
  blob ← read_file (ss_read_text S) fails (ss_file S share_id);
  lift (ss_open S share_id blob).

Lemma sealed_get_ok (S : SealedStore) fails id s s' v : sealed_get S fails id s = (s', Ok v) ↔
  s' = s ∧ ss_get_gate S = Ok tt ∧ fails = None ∧ ∃ b, fs_read s (ss_file S id) = Some b ∧ ss_open S id b = Ok v.
Proof.
  unfold sealed_get. rewrite (bind_run _ _ s s (ss_get_gate S)) by done. destruct (ss_get_gate S) as [[]|x]; [|naive_solver].
  unfold read_file. rewrite cmd_bind_ok. split.
  - intros (s1 & b & H & Ho). apply cmd_bind_ok in H as (s2 & x & [= <- <-] & H). destruct fails; [done|].
    apply lift_ok in H as [-> H]. apply ok_or_ok in H. apply lift_ok in Ho as [-> Ho]. do 3 (split; [done|]). by exists b.
  - intros (-> & _ & -> & b & Hb & Ho). exists s, b. split; [|by apply lift_ok]. apply cmd_bind_ok. exists s, s. split; [done|].
    apply lift_ok. by rewrite Hb.
Qed.

Lemma steps_through {St} (R Q : St → St → Prop) s s' : (∀ a b, R a b → steps Q a b) → steps R s s' → steps Q s s'.
Proof. intros HR H. induction H as [|a b c Hab _ IH]; [apply steps_refl|]. eapply steps_trans; [by apply HR|done]. Qed.

Section life.
Context (S : SealedStore) `{SL : !SealedLaws S} (Stored : string → bytes → Prop).

Inductive sealed_step : Fs → Fs → Prop :=
| sealed_put_step s e id pt : put_env_wf e → Stored id pt → sealed_step s (sealed_put S e id pt s).1
| sealed_crash_step s s' : crash s s' → sealed_step s s'.
(** The same, no put going to the file of [kept]. *)
Inductive sealed_other_step (kept : string) : Fs → Fs → Prop :=
| sealed_other_put s e id pt : put_env_wf e → Stored id pt → ss_file S id ≠ ss_file S kept →
    sealed_other_step kept s (sealed_put S e id pt s).1
| sealed_other_crash s s' : crash s s' → sealed_other_step kept s s'.

(** What a file of the store may hold. *)
Definition sealed_as (name : string) (b : bytes) : Prop :=
  ∃ id pt e, name = ss_file S id ∧ Stored id pt ∧ put_env_wf e ∧ ss_seal S e id pt = Ok b.

(** A put makes the directory and, when it can seal, writes the file. *)
Lemma sealed_put_run e id pt s :
  (∃ s' x, sealed_put S e id pt s = (s', Err x) ∧ (s' = s ∨ s' = fs_mkdir s)) ∨
  (∃ out, ss_seal S e id pt = Ok out ∧
     sealed_put S e id pt s = atomic_write_fsync (ss_root S) (ss_file S id) (pe_fs e) out (fs_mkdir s)).
Proof.
  unfold sealed_put. erewrite bind_run by reflexivity. destruct (ss_put_gate S) as [[]|x].
  2: { left. eexists _, _. split; [done|by left]. }
  erewrite bind_run by apply fs_check_run. destruct (pe_mkdir e).
  { left. eexists _, _. split; [done|by left]. }
  erewrite bind_run by reflexivity. cbv beta iota. erewrite bind_run by reflexivity.
  destruct (ss_seal S e id pt) as [out|x]; [right; by exists out|left]. eexists _, _. split; [done|by right].
Qed.
Lemma sealed_step_fs s s' : sealed_step s s' → steps (fs_step sealed_as (ss_root S)) s s'.
Proof.
  intros [s0 e id pt He Hp|s0 s1 Hc]; [|by apply steps_one, fs_crash_step].
  destruct (sealed_put_run e id pt s0) as [(s1 & x & -> & [-> | ->])|(out & Ho & ->)]; simpl.
  - apply steps_refl.
  - apply steps_one, fs_mkdir_step.
  - eapply steps_cons; [apply fs_mkdir_step|]. apply steps_one, fs_write_step; [apply ss_not_tmp|].
    by exists id, pt, e.
Qed.
Lemma sealed_other_step_fs kept s s' : sealed_other_step kept s s' → steps (fs_other_step sealed_as (ss_root S) (ss_file S kept)) s s'.
Proof.
  intros [s0 e id pt He Hp Hne|s0 s1 Hc]; [|by apply steps_one, fs_other_crash].
  destruct (sealed_put_run e id pt s0) as [(s1 & x & -> & [-> | ->])|(out & Ho & ->)]; simpl.
  - apply steps_refl.
  - apply steps_one, fs_other_mkdir.
  - eapply steps_cons; [apply fs_other_mkdir|]. apply steps_one, fs_other_write; [apply ss_not_tmp| |done].
    by exists id, pt, e.
Qed.
(** From an empty directory: a share that reads back was to be stored, under its id or another
    of the same file; a put that succeeded in a durable directory stays. *)
Lemma sealed_survives exists_ s : ss_root S ≠ "" → steps sealed_step (mk_fs exists_ ∅ [] ∅) s →
  (∀ fails id v s', sealed_get S fails id s = (s', Ok v) → ∃ id', ss_file S id' = ss_file S id ∧ Stored id' v) ∧
  (∀ e id pt s1 s2, put_env_wf e → Stored id pt → fs_root s = Some true → ss_get_gate S = Ok tt →
     sealed_put S e id pt s = (s1, Ok tt) → steps (sealed_other_step id) s1 s2 → sealed_get S None id s2 = (s2, Ok pt)).
Proof.
  intros Hroot Hs. apply (steps_through _ (fs_step sealed_as (ss_root S))) in Hs; [|by apply sealed_step_fs]. split.
  - intros fails id v s' H. apply sealed_get_ok in H as (_ & _ & _ & b & Hb & Ho).
    destruct (durable_writes_survive _ _ _ _ Hroot Hs) as [H1 _].
    destruct (H1 _ b (ss_not_tmp id) Hb) as (id' & pt & e & Hn & Hp & He & Hsl).
    exists id'. split; [done|]. by rewrite (ss_only e id' pt b id v He Hsl Ho).
  - intros e id pt s1 s2 He Hp Hr Hg Hput Hst. destruct (sealed_put_run e id pt s) as [(? & x & H & _)|(out & Ho & Hw)]; [congruence|].
    rewrite Hput in Hw. symmetry in Hw.
    assert (fs_mkdir s = s) as Hm by (unfold fs_mkdir; by rewrite Hr). rewrite Hm in Hw.
    assert (fs_read s2 (ss_file S id) = Some out) as Hread.
    { eapply (proj2 (durable_writes_survive sealed_as _ _ _ Hroot Hs)); [apply ss_not_tmp|by exists id, pt, e|done|exact Hw|].
      eapply steps_through; [|exact Hst]. intros a b. apply sealed_other_step_fs. }
    apply sealed_get_ok. do 3 (split; [done|]). exists out. split; [done|]. by eapply ss_round.
Qed.
End life.
