(* ===== verification/ShareAead.v ===== *)
(** * The encrypted share store on disk ([adapters/share_aead.rs])

    A share is sealed under a passphrase and written by [atomic_write_fsync]. The
    random bytes of a call and its failures are arguments of it. *)
From S2P Require Import Prelude RustStr RustParse Errors Identity HybridEnvelope KeyIdentity DurableFs SealedStore.
Local Open Scope N_scope.

(* ------------------------------------------------------------------ *)
(** ** Seeds *)

Inductive SeedKind := FrostTr | FrostIntent | SkEd25519 | SkMlDsa65 | SkX25519 | SkMlKem768.
Definition seed_label (k : SeedKind) : string :=
  match k with
  | FrostTr => "frost-tr" | FrostIntent => "frost-intent" | SkEd25519 => "ed25519"
  | SkMlDsa65 => "ml-dsa65" | SkX25519 => "x25519" | SkMlKem768 => "ml-kem768"
  end.
Definition is_secret (k : SeedKind) : bool := true.
Definition seed_visibility (k : SeedKind) : string := "sec".
Definition build_seed_share_id (k : SeedKind) (node_id : string) : string := format "identity/{}/{}" [seed_label k; node_id].
Definition build_seed_aad (share_id node_id : string) (key_epoch : N) : bytes :=
  bytes_of "kerosene-vault-seed-aad-v1|" ++ bytes_of share_id ++ bytes_of "|" ++ bytes_of node_id ++ bytes_of "|" ++ le_bytes 8 key_epoch.

(* ------------------------------------------------------------------ *)
(** ** [ShareEnvelope], written and read by [serde_json] *)

Record ShareEnvelope := mk_share_envelope {
  sv_format_version : N; sv_suite_id : string; sv_share_id : string; sv_node_id : string; sv_key_epoch : string;
  sv_share_kind : string; sv_nonce_hex : string; sv_ciphertext_hex : string; sv_aad_hash_hex : string }.
Definition CURRENT_FORMAT : N := 1.
Definition share_envelope_new (suite_id share_id node_id key_epoch share_kind : string) : ShareEnvelope :=
  mk_share_envelope CURRENT_FORMAT suite_id share_id node_id key_epoch share_kind "" "" "".
Class EnvelopeJson := {
  envelope_to_vec : ShareEnvelope → option bytes;
  envelope_from_slice : bytes → result string ShareEnvelope;
}.
Definition share_envelope_to_bytes `{!EnvelopeJson} (e : ShareEnvelope) : bytes := default [] (envelope_to_vec e).
Definition share_envelope_from_bytes `{!EnvelopeJson} (b : bytes) : res ShareEnvelope :=
  map_err (λ e, ShareStoreForbidden (format "share envelope: {}" [e])) (envelope_from_slice b).

(* ------------------------------------------------------------------ *)
(** ** The store *)

Record AeadDiskShareStore := mk_aead_store { as_root : string; as_passphrase : string; as_tpm_sealed : bool }.
Definition aead_new (root passphrase : string) : AeadDiskShareStore := mk_aead_store root passphrase false.
Definition aead_store_kind (st : AeadDiskShareStore) : string := if as_tpm_sealed st then "aead_disk_tpm" else "aead_disk".

Section store.
Context `{SH : Sha256, SL : SealLib}.

Definition share_file (share_id : string) : string := format "share-{}.bin" [sha256_hex (bytes_of share_id)].
Definition share_aad (share_id : string) : bytes := bytes_of "kerosene-vault-share-aead-v1|" ++ bytes_of share_id.
Definition derive_share_key (st : AeadDiskShareStore) (salt : bytes) : res bytes :=
  map_err (λ e, ShareStoreForbidden (format "argon2: {}" [e])) (argon2_32 19456 2 1 (bytes_of (as_passphrase st)) salt).

Definition seal_share (st : AeadDiskShareStore) (e : PutEnv) (share_id : string) (plaintext : bytes) : res bytes :=
  key ← derive_share_key st (pe_salt e);
  ciphertext ← ok_or (chacha_encrypt key (pe_nonce e) (share_aad share_id) plaintext) (ShareStoreForbidden "encrypt failed");
  Ok (pe_salt e ++ pe_nonce e ++ ciphertext).
Definition aead_put (st : AeadDiskShareStore) (e : PutEnv) (share_id : string) (plaintext : bytes) : dcmd Fs unit :=
  _ ← fs_check (pe_mkdir e) "mkdir: {}" [];
  _ ← update fs_mkdir;
  out ← lift (seal_share st e share_id plaintext);
  atomic_write_fsync (as_root st) (share_file share_id) (pe_fs e) out.

Definition open_share (st : AeadDiskShareStore) (share_id : string) (blob : bytes) : res bytes :=
  if len blob <? 16 + 12 + 16 then Err (ShareStoreForbidden "share blob too short")
  else
    key ← derive_share_key st (take 16 blob);
    ok_or (chacha_decrypt key (take 12 (drop 16 blob)) (share_aad share_id) (drop 28 blob)) (ShareStoreForbidden "decrypt failed").
Definition aead_get (st : AeadDiskShareStore) (fails : option string) (share_id : string) : dcmd Fs bytes :=
  blob ← read_file "read share: {}" fails (share_file share_id);
  lift (open_share st share_id blob).

(* ------------------------------------------------------------------ *)
(** ** Sealing and opening *)

Context `{SP : !SealSpec}.

Lemma share_aad_inj a b : share_aad a = share_aad b → a = b.
Proof. unfold share_aad. intros H%app_inv_head. by rewrite <- (str_of_bytes_of a), H, str_of_bytes_of. Qed.
Lemma share_file_not_tmp id : is_tmp (share_file id) = false.
Proof.
  unfold share_file. change (format _ _) with ("share-" +:+ (sha256_hex (bytes_of id) +:+ ".bin")).
  rewrite <- string_app_assoc. by apply not_tmp_suffix.
Qed.
Lemma share_file_inj a b : share_file a = share_file b → sha256_hex (bytes_of a) = sha256_hex (bytes_of b).
Proof.
  unfold share_file. generalize (sha256_hex (bytes_of a)) (sha256_hex (bytes_of b)). intros x y. exact (name_mid_inj "share-" x y ".bin").
Qed.

(** Opening what was sealed: the plaintext under its own share id, nothing else under another. *)
Lemma open_sealed st e id pt b : put_env_wf e → seal_share st e id pt = Ok b → open_share st id b = Ok pt ∧
  ∀ id' v, open_share st id' b = Ok v → v = pt.
Proof.
  intros [Hs Hn] H. unfold seal_share in H. apply bind_ok in H as (key & Hk & H). apply bind_ok in H as (c & Hc & H).
  apply ok_or_ok in Hc. injection H as <-. unfold open_share.
  assert (len (pe_salt e ++ pe_nonce e ++ c) = 44 + len pt) as Hlen.
  { rewrite !len_app, (chacha_len _ _ _ _ _ Hc). unfold len. rewrite Hs, Hn. lia. }
  rewrite Hlen. destruct (_ <? _) eqn:E; [nlia|]. clear E.
  rewrite (take_app_length' _ _ 16 (eq_sym Hs)), (drop_app_length' _ _ 16 (eq_sym Hs)), (take_app_length' _ _ 12 (eq_sym Hn)).
  change 28%nat with (16 + 12)%nat. rewrite <- drop_drop, (drop_app_length' _ _ 16 (eq_sym Hs)), (drop_app_length' _ _ 12 (eq_sym Hn)).
  unfold mbind, result_bind. rewrite Hk. split.
  - by rewrite (chacha_round _ _ _ _ _ Hc).
  - intros id' v Hv. apply ok_or_ok in Hv. by eapply chacha_message.
Qed.

(** The operations as those of a sealed store without gates. *)
Definition aead_sealed (st : AeadDiskShareStore) : SealedStore :=
  mk_sealed_store (as_root st) (Ok tt) (Ok tt) "mkdir: {}" "read share: {}" share_file (seal_share st) (open_share st).
Lemma aead_is_sealed st : (∀ e id pt s, aead_put st e id pt s = sealed_put (aead_sealed st) e id pt s) ∧
  (∀ fails id s, aead_get st fails id s = sealed_get (aead_sealed st) fails id s).
Proof. by split. Qed.
#[export] Instance aead_laws st : SealedLaws (aead_sealed st).
Proof.
  split; simpl; [intros e id pt b He Hs|intros e id pt b id' v He Hs|apply share_file_not_tmp];
    destruct (open_sealed st e id pt b He Hs) as [? ?]; eauto.
Qed.

End store.
#[global] Arguments share_file : simpl never.
