(* ===== verification/ShareTee.v ===== *)
(** * The TEE share store ([adapters/share_tee.rs])

    The sealed envelope and its three backends. The build's features are an argument,
    as are the random bytes of a call and its failures; the attestation adapter is the
    port it is used through. *)
From S2P Require Import Prelude RustStr RustParse Errors Identity HybridEnvelope ConfigEnv Frost.
From S2P Require Import DurableFs SealedStore TeeAttestation.
Local Open Scope N_scope.

Definition SEAL_MAGIC : bytes := bytes_of "KVSEAL01".
Definition ENVELOPE_VERSION : N := 1.
Definition MODE_STAGING_STUB : N := 1.
Definition MODE_HW_SEV : N := 2.
Definition MODE_HW_SGX : N := 3.

(** [AttestationPort]. *)
Record AttestationPort := mk_att_port {
  ap_issue_quote : Measurement → res AttestationQuote;
  ap_verify_quote : AttestationQuote → res unit }.
Inductive SealBackend := FailClosed | StagingStub (passphrase : string) | Hw (platform : AttestationMode).
Record TeeSealAdapter := mk_tee_seal {
  tl_root : string; tl_backend : SealBackend; tl_measurement : Measurement; tl_attestation : option AttestationPort }.

(** [Sha256::digest], its 32 bytes. *)
Class Sha256Raw := sha256_raw : bytes → bytes.

Section tee.
Context `{SH : Sha256, SR : Sha256Raw, SL : SealLib, NL : SnpLib}.

Definition fail_closed (measurement : Measurement) : TeeSealAdapter := mk_tee_seal "/dev/null" FailClosed measurement None.
(** Not compiled with the feature [production]. *)
Definition staging_stub (root passphrase : string) (measurement : Measurement) : TeeSealAdapter :=
  mk_tee_seal root (StagingStub passphrase) measurement None.
(** Compiled with the feature [tee_hw]. *)
Definition tee_hw_store (root : string) (platform : AttestationMode) (measurement : Measurement) (att : AttestationPort) : res TeeSealAdapter :=
  if negb (attestation_is_tee platform) then Err (TeeRequired "tee_hw seal requires ATTESTATION_MODE=sev|sgx")
  else Ok (mk_tee_seal root (Hw platform) measurement (Some att)).
Definition with_attestation (att : AttestationPort) (t : TeeSealAdapter) : TeeSealAdapter :=
  mk_tee_seal (tl_root t) (tl_backend t) (tl_measurement t) (Some att).
Definition tee_seal_new : TeeSealAdapter := fail_closed (measurement_from_bytes (bytes_of "kerosene-vault-tee-unconfigured")).

Definition tee_file (share_id : string) : string := format "tee-share-{}.seal" [sha256_hex (bytes_of share_id)].

(** A live quote issued and verified. *)
Definition require_attestation_ok (t : TeeSealAdapter) : res unit :=
  match tl_attestation t with
  | None => Err (TeeRequired "attestation required before TEE unseal")
  | Some att => quote ← ap_issue_quote att (tl_measurement t); ap_verify_quote att quote
  end.

Definition derive_stub_key (t : TeeSealAdapter) (passphrase : string) (salt : bytes) : res bytes :=
  map_err (λ e, ShareStoreForbidden (format "argon2: {}" [e]))
    (argon2_32 19456 2 1 (bytes_of passphrase ++ bytes_of (as_hex (tl_measurement t))) salt).
Definition mix_seal_key (root salt : bytes) (measurement : Measurement) : bytes :=
  sha256_raw (bytes_of "KVSEAL01/v1/seal-key" ++ root ++ salt ++ bytes_of (as_hex measurement)).
(** The root key of the module [hw]. *)
Definition sev_snp_derived_root : res bytes :=
  if negb snp_device then Err (TeeRequired "SEV-SNP seal unavailable: /dev/sev-guest missing (fail-closed without HW)")
  else map_err (λ e, TeeRequired (format "SEV-SNP derived key failed: {}" [e])) snp_derived_key.
Definition sgx_seal_root : res bytes :=
  Err (TeeRequired "SGX seal unavailable on host path (enclave sgx_seal_data SDK required; fail-closed)").
Definition derive_hw_root (platform : AttestationMode) : res bytes :=
  match platform with
  | AttSev => sev_snp_derived_root
  | AttSgx => sgx_seal_root
  | _ => Err (TeeRequired "software/sim attestation cannot derive HW seal keys")
  end.

Definition tee_encrypt (key nonce plaintext : bytes) : res bytes :=
  ok_or (chacha_encrypt key nonce [] plaintext) (ShareStoreForbidden "tee encrypt failed").
Definition tee_decrypt (key nonce ciphertext : bytes) : res bytes :=
  ok_or (chacha_decrypt key nonce [] ciphertext) (ShareStoreForbidden "tee decrypt failed").

(* ------------------------------------------------------------------ *)
(** ** The envelope *)

Definition pack_envelope (mode : N) (salt nonce ciphertext : bytes) : bytes :=
  SEAL_MAGIC ++ [byte_of ENVELOPE_VERSION; byte_of mode] ++ salt ++ nonce ++ ciphertext.
Record Parsed := mk_parsed { pa_mode : N; pa_salt : bytes; pa_nonce : bytes; pa_ciphertext : bytes }.
Definition parse_envelope (blob : bytes) : res Parsed :=
  if len blob <? 8 + 1 + 1 + 16 + 12 + 16 then Err (ShareStoreForbidden "tee seal envelope too short")
  else if negb (bool_decide (take 8 blob = SEAL_MAGIC)) then Err (ShareStoreForbidden "tee seal magic mismatch")
  else if negb (nth_byte 8 blob =? ENVELOPE_VERSION) then
    Err (ShareStoreForbidden (format "unsupported tee seal version {}" [show (nth_byte 8 blob)]))
  else Ok (mk_parsed (nth_byte 9 blob) (take 16 (drop 10 blob)) (take 12 (drop 26 blob)) (drop 38 blob)).

Definition no_seal_path {A} : res A :=
  Err (TeeRequired "TEE seal path not available; host disk AEAD is lab-only (production fail-closed)").
Definition hw_mode (platform : AttestationMode) : res N :=
  match platform with
  | AttSev => Ok MODE_HW_SEV
  | AttSgx => Ok MODE_HW_SGX
  | _ => Err (TeeRequired "software/sim cannot produce HW seal envelopes")
  end.
Definition seal_envelope (t : TeeSealAdapter) (e : PutEnv) (plaintext : bytes) : res bytes :=
  match tl_backend t with
  | FailClosed => no_seal_path
  | StagingStub passphrase =>
      key ← derive_stub_key t passphrase (pe_salt e);
      ct ← tee_encrypt key (pe_nonce e) plaintext;
      Ok (pack_envelope MODE_STAGING_STUB (pe_salt e) (pe_nonce e) ct)
  | Hw platform =>
      root ← derive_hw_root platform;
      let key := mix_seal_key root (pe_salt e) (tl_measurement t) in
      mode ← hw_mode platform;
      ct ← tee_encrypt key (pe_nonce e) plaintext;
      Ok (pack_envelope mode (pe_salt e) (pe_nonce e) ct)
  end.
Definition unseal_envelope (ft : Features) (t : TeeSealAdapter) (blob : bytes) : res bytes :=
  p ← parse_envelope blob;
  if pa_mode p =? MODE_STAGING_STUB then
    if ft_production ft then Err (TeeRequired "staging-stub envelope refused under production feature")
    else
      match tl_backend t with
      | StagingStub passphrase => key ← derive_stub_key t passphrase (pa_salt p); tee_decrypt key (pa_nonce p) (pa_ciphertext p)
      | _ => Err (TeeRequired "staging-stub envelope refused without ATTESTATION_STAGING_STUB")
      end
  else if (pa_mode p =? MODE_HW_SEV) || (pa_mode p =? MODE_HW_SGX) then
    if negb (ft_tee_hw ft) then Err (TeeRequired "HW TEE unseal requires --features tee_hw")
    else
      match tl_backend t with
      | Hw platform =>
          let expected := if pa_mode p =? MODE_HW_SEV then AttSev else AttSgx in
          if negb (bool_decide (platform = expected)) then
            Err (ShareStoreForbidden (format "tee seal mode {} does not match platform {}" [show (pa_mode p); attestation_mode_str platform]))
          else
            root ← derive_hw_root platform;
            tee_decrypt (mix_seal_key root (pa_salt p) (tl_measurement t)) (pa_nonce p) (pa_ciphertext p)
      | _ => Err (TeeRequired "HW TEE envelope refused without tee_hw HW backend")
      end
  else Err (ShareStoreForbidden (format "unknown tee seal mode {}" [show (pa_mode p)])).

(* ------------------------------------------------------------------ *)
(** ** [ShareStorePort] *)

Definition tee_store_kind (t : TeeSealAdapter) : string :=
  match tl_backend t with
  | FailClosed => "tee_seal"
  | StagingStub _ => "tee_seal_staging_stub"
  | Hw AttSev => "tee_seal_hw_sev"
  | Hw AttSgx => "tee_seal_hw_sgx"
  | Hw _ => "tee_seal"
  end.
Definition tee_put (t : TeeSealAdapter) (e : PutEnv) (share_id : string) (plaintext : bytes) : dcmd Fs unit :=
  _ ← lift (match tl_backend t with
            | FailClosed => no_seal_path
            | StagingStub _ => if bool_decide (is_Some (tl_attestation t)) then require_attestation_ok t else Ok tt
            | Hw _ => require_attestation_ok t
            end);
  _ ← fs_check (pe_mkdir e) "tee seal mkdir: {}" [];
  _ ← update fs_mkdir;
  sealed ← lift (seal_envelope t e plaintext);
  atomic_write_fsync (tl_root t) (tee_file share_id) (pe_fs e) sealed.
Definition tee_get (ft : Features) (t : TeeSealAdapter) (fails : option string) (share_id : string) : dcmd Fs bytes :=
  match tl_backend t with
  | FailClosed => fail (TeeRequired "TEE unseal path not available; host disk AEAD is lab-only (production fail-closed)")
  | _ =>
      _ ← lift (require_attestation_ok t);
      blob ← read_file "tee seal read: {}" fails (tee_file share_id);
      lift (unseal_envelope ft t blob)
  end.

(* ------------------------------------------------------------------ *)
(** ** Envelopes are read back *)

Context `{SP : !SealSpec}.

Lemma parse_pack mode salt nonce ct : mode < 256 → length salt = 16%nat → length nonce = 12%nat → 16 ≤ len ct →
  parse_envelope (pack_envelope mode salt nonce ct) = Ok (mk_parsed mode salt nonce ct).
Proof.
  intros Hm Hs Hn Hc. set (b := pack_envelope mode salt nonce ct).
  assert (b = SEAL_MAGIC ++ [byte_of ENVELOPE_VERSION; byte_of mode] ++ salt ++ nonce ++ ct) as Hb by done.
  assert (len b = 38 + len ct) as Hl.
  { rewrite Hb, !len_app. change (len SEAL_MAGIC) with 8. change (len [byte_of ENVELOPE_VERSION; byte_of mode]) with 2.
    unfold len. rewrite Hs, Hn. lia. }
  unfold parse_envelope. rewrite Hl. destruct (_ <? _) eqn:E; [nlia|]. clear E.
  change (take 8 b) with SEAL_MAGIC. rewrite bool_decide_true by done. change (nth_byte 8 b =? ENVELOPE_VERSION) with true. cbn [negb].
  assert (nth_byte 9 b = mode) as -> by (change (nth_byte 9 b) with (byte_n (byte_of mode)); by apply byte_n_ascii).
  change (drop 10 b) with (salt ++ nonce ++ ct). change (drop 26 b) with (drop 16 (salt ++ nonce ++ ct)).
  change (drop 38 b) with (drop 28 (salt ++ nonce ++ ct)). change 28%nat with (16 + 12)%nat.
  rewrite <- drop_drop, (drop_app_length' _ _ 16 (eq_sym Hs)), (drop_app_length' _ _ 12 (eq_sym Hn)).
  by rewrite (take_app_length' _ _ 16 (eq_sym Hs)), (take_app_length' _ _ 12 (eq_sym Hn)).
Qed.

(** What the build compiles: no stub in production, no hardware backend without its feature. *)
Definition backend_built (ft : Features) (t : TeeSealAdapter) : Prop :=
  match tl_backend t with FailClosed => True | StagingStub _ => ft_production ft = false | Hw _ => ft_tee_hw ft = true end.

Lemma unseal_sealed ft t e pt b : backend_built ft t → put_env_wf e → seal_envelope t e pt = Ok b → unseal_envelope ft t b = Ok pt.
Proof.
  intros Hb [Hs Hn] H. unfold seal_envelope in H. unfold backend_built in Hb.
  assert (∀ key ct, tee_encrypt key (pe_nonce e) pt = Ok ct → 16 ≤ len ct ∧ tee_decrypt key (pe_nonce e) ct = Ok pt) as Hct.
  { intros key ct Hc. apply ok_or_ok in Hc. rewrite (chacha_len _ _ _ _ _ Hc). split; [lia|].
    unfold tee_decrypt. by rewrite (chacha_round _ _ _ _ _ Hc). }
  destruct (tl_backend t) as [|pass|platform] eqn:E; [done|..].
  - apply bind_ok in H as (key & Hk & H). apply bind_ok in H as (ct & Hc & [= <-]). destruct (Hct key ct Hc) as [Hl Hd].
    unfold unseal_envelope. rewrite parse_pack by done. unfold mbind, result_bind. cbn [pa_mode pa_salt pa_nonce pa_ciphertext].
    change (MODE_STAGING_STUB =? MODE_STAGING_STUB) with true. by rewrite Hb, E, Hk.
  - apply bind_ok in H as (root & Hr & H). cbv zeta in H. apply bind_ok in H as (mode & Hm & H).
    apply bind_ok in H as (ct & Hc & [= <-]). destruct (Hct _ ct Hc) as [Hl Hd].
    assert (platform = AttSev) as -> by (by destruct platform). injection Hm as <-.
    unfold unseal_envelope. rewrite parse_pack by done. unfold mbind, result_bind. cbn [pa_mode pa_salt pa_nonce pa_ciphertext].
    change (MODE_HW_SEV =? MODE_STAGING_STUB) with false. change ((MODE_HW_SEV =? MODE_HW_SEV) || (MODE_HW_SEV =? MODE_HW_SGX)) with true.
    rewrite Hb, E. cbn [negb]. change (MODE_HW_SEV =? MODE_HW_SEV) with true. cbv iota zeta. rewrite bool_decide_true by done.
    cbn [negb]. by rewrite Hr.
Qed.

(** The operations as those of a sealed store, gated by attestation. *)
Definition tee_sealed (ft : Features) (t : TeeSealAdapter) : SealedStore :=
  mk_sealed_store (tl_root t)
    (match tl_backend t with
     | FailClosed => no_seal_path
     | StagingStub _ => if bool_decide (is_Some (tl_attestation t)) then require_attestation_ok t else Ok tt
     | Hw _ => require_attestation_ok t
     end)
    (match tl_backend t with
     | FailClosed => Err (TeeRequired "TEE unseal path not available; host disk AEAD is lab-only (production fail-closed)")
     | _ => require_attestation_ok t
     end)
    "tee seal mkdir: {}" "tee seal read: {}" tee_file (λ e _ pt, seal_envelope t e pt) (λ _ b, unseal_envelope ft t b).
Lemma tee_is_sealed ft t : (∀ e id pt s, tee_put t e id pt s = sealed_put (tee_sealed ft t) e id pt s) ∧
  (∀ fails id s, tee_get ft t fails id s = sealed_get (tee_sealed ft t) fails id s).
Proof.
  split; [done|]. intros fails id s. unfold tee_get, sealed_get, tee_sealed. simpl. by destruct (tl_backend t).
Qed.
Lemma tee_file_not_tmp id : is_tmp (tee_file id) = false.
Proof.
  unfold tee_file. set (h := sha256_hex (bytes_of id)).
  change (format _ _) with ("tee-share-" +:+ (h +:+ ("." +:+ "seal"))). rewrite <- !string_app_assoc. by apply not_tmp_suffix.
Qed.
Lemma tee_file_inj a b : tee_file a = tee_file b → sha256_hex (bytes_of a) = sha256_hex (bytes_of b).
Proof. unfold tee_file. generalize (sha256_hex (bytes_of a)) (sha256_hex (bytes_of b)). intros x y. exact (name_mid_inj "tee-share-" x y ".seal"). Qed.

(** What opens does so by the key of the salt it carries. *)
Lemma unseal_only ft t e pt b v : backend_built ft t → put_env_wf e → seal_envelope t e pt = Ok b → unseal_envelope ft t b = Ok v → v = pt.
Proof. intros Hb He Hs Hu. rewrite (unseal_sealed ft t e pt b Hb He Hs) in Hu. by injection Hu. Qed.
Lemma tee_laws ft t : backend_built ft t → SealedLaws (tee_sealed ft t).
Proof.
  intros Hb. split; simpl; [intros e _ pt b|intros e _ pt b _ v|apply tee_file_not_tmp];
    [by apply unseal_sealed|by eapply unseal_only].
Qed.

(** The attestation adapter as the port. *)
Context `{HC : HexCodec}.
Definition tee_port (ft : Features) (a : TeeAttestationAdapter) : AttestationPort :=
  mk_att_port (tee_issue_quote ft a) (tee_verify_quote ft a).

Lemma issue_attests ft a m q : tee_issue_quote ft a m = Ok q →
  m = ta_pinned_measurement a ∧ (ta_allowlisted_hbs a = [] ∨ ∃ hb, hb ∈ ta_allowlisted_hbs a ∧ ch_str hb = as_hex m) ∧
  (stub_path_allowed a = true ∨ (ta_refuse_stub a = true ∧ ta_mode a = AttSev ∧ ft_tee_hw ft = true ∧ snp_device = true)).
Proof.
  unfold tee_issue_quote. intros H. apply bind_ok in H as ([] & He & H). apply enforce_ok in He as [Hm Hh].
  split; [done|]. split; [done|]. destruct (stub_path_allowed a); [by left|]. destruct (ta_refuse_stub a); [|done]. right. split; [done|].
  unfold issue_hw_quote in H. apply bind_ok in H as (r & Hr & _). destruct (ta_mode a); [done..| |].
  - unfold sev_issue_report in Hr. destruct (ft_tee_hw ft); [|done]. by destruct snp_device.
  - unfold sgx_issue_report in Hr. by destruct (ft_tee_hw ft).
Qed.

(** C13 (safety). The TEE store gives out a share only behind attestation. Let it use the
    TEE attestation adapter, and from an empty directory run any puts, each with any
    failure, and crashes. A share is read only if the store has a backend, its measurement
    is the adapter's pinned one and allowlisted when there is an allowlist, and the quote
    it just had issued verified: a staging stub's, never when stubs are refused, or an
    SEV-SNP guest's in a build with hardware support. The share is then, whole, one that
    was to be stored in that very file. And a put that succeeded in a durable directory
    reads back exactly while attestation goes through, whatever else is put and however
    often the machine crashes. *)
Theorem tee_shares_attested ft t mode staging refuse root pin hbs a (Stored : string → bytes → Prop) exists_ s :
  tee_with_policy mode staging refuse root pin hbs = Ok a → tl_attestation t = Some (tee_port ft a) →
  backend_built ft t → tl_root t ≠ "" → steps (sealed_step (tee_sealed ft t) Stored) (mk_fs exists_ ∅ [] ∅) s →
  (∀ fails id v s', tee_get ft t fails id s = (s', Ok v) →
     tl_backend t ≠ FailClosed ∧ tl_measurement t = pin ∧ (hbs = [] ∨ ∃ hb, hb ∈ hbs ∧ ch_str hb = as_hex pin) ∧
     ((staging = true ∧ refuse = false) ∨ (refuse = true ∧ mode = AttSev ∧ ft_tee_hw ft = true ∧ snp_device = true)) ∧
     (∃ q, tee_issue_quote ft a pin = Ok q ∧ tee_verify_quote ft a q = Ok tt) ∧
     ∃ id', sha256_hex (bytes_of id') = sha256_hex (bytes_of id) ∧ Stored id' v) ∧
  (∀ e id pt s1 s2, put_env_wf e → Stored id pt → fs_root s = Some true → require_attestation_ok t = Ok tt →
     tee_put t e id pt s = (s1, Ok tt) → steps (sealed_other_step (tee_sealed ft t) Stored id) s1 s2 →
     tee_get ft t None id s2 = (s2, Ok pt)).
Proof.
  intros Ha Hatt Hb Hroot Hs. destruct (tee_is_sealed ft t) as [_ Hget]. pose proof (tee_laws ft t Hb) as Hlaws.
  destruct (sealed_survives (tee_sealed ft t) Stored exists_ s Hroot Hs) as [H1 H2].
  unfold tee_with_policy in Ha. destruct (negb (attestation_is_tee mode)); [done|].
  destruct (refuse && staging) eqn:Hrs; [done|]. injection Ha as <-. split.
  - intros fails id v s' H. rewrite Hget in H. destruct (H1 fails id v s' H) as (id' & Hf & Hv).
    apply sealed_get_ok in H as (_ & Hg & _). simpl in Hg.
    assert (tl_backend t ≠ FailClosed ∧ require_attestation_ok t = Ok tt) as [Hnf Hreq] by (by destruct (tl_backend t)).
    unfold require_attestation_ok in Hreq. rewrite Hatt in Hreq. apply bind_ok in Hreq as (q & Hi & Hver). simpl in Hi, Hver.
    destruct (issue_attests _ _ _ _ Hi) as (Hm & Hh & Hway). simpl in Hm, Hh, Hway. rewrite Hm in *.
    split; [done|]. split; [done|]. split; [done|]. split; [|split; [by exists q|]].
    + destruct Hway as [Hst|Hhw]; [left|by right]. unfold stub_path_allowed in Hst. simpl in Hst.
      by apply andb_true_iff in Hst as [? ?%negb_true_iff].
    + exists id'. split; [by apply tee_file_inj|done].
  - intros e id pt s1 s2 He Hp Hr Hreq Hput Hst. rewrite Hget. apply (H2 e id pt s1 s2); [done..| |exact Hput|exact Hst].
    simpl. destruct (tl_backend t) eqn:E; [|done..]. unfold tee_put in Hput. by rewrite E in Hput.
Qed.

(** The envelope does not name the share: a file copied onto another share's opens there. *)
Lemma tee_blob_opens_anywhere ft t e id id' pt b s : backend_built ft t → put_env_wf e → require_attestation_ok t = Ok tt →
  seal_envelope t e pt = Ok b → fs_read s (tee_file id) = Some b → fs_read s (tee_file id') = Some b →
  tee_get ft t None id' s = (s, Ok pt).
Proof.
  intros Hb He Hreq Hs _ Hr. rewrite (proj2 (tee_is_sealed ft t)). apply sealed_get_ok. split; [done|]. split.
  - simpl. destruct (tl_backend t) eqn:E; [|done..]. unfold seal_envelope in Hs. by rewrite E in Hs.
  - split; [done|]. exists b. split; [done|]. by eapply unseal_sealed.
Qed.
(** A stub store stores without any attestation, and never gives back what it stored. *)
Lemma stub_puts_unattested ft t fails id s s' v : tl_attestation t = None → tee_get ft t fails id s ≠ (s', Ok v).
Proof.
  intros Ha. rewrite (proj2 (tee_is_sealed ft t)). intros H. apply sealed_get_ok in H as (_ & Hg & _). simpl in Hg.
  unfold require_attestation_ok in Hg. rewrite Ha in Hg. by destruct (tl_backend t).
Qed.
End tee.
#[global] Arguments tee_file : simpl never.
