(* ===== verification/ShareTpm.v ===== *)
(** * The TPM-sealed passphrase ([adapters/share_tpm.rs], [adapters/share_tpm_tss.rs])

    The sealing port and its backends, the passphrase kept in a sealed envelope, the
    rollback counter. Random bytes, the device and the outcomes of the file calls
    are arguments. *)
From S2P Require Import Prelude RustStr RustParse Errors HybridEnvelope KeyIdentity ConfigEnv.
From S2P Require Import DurableFs SealedStore TeeAttestation ShareTee.
Local Open Scope N_scope.

Definition TPM_MAGIC : bytes := bytes_of "KVTPM001".
Definition TPM_VERSION : N := 1.
Definition MOCK : N := 1.
Definition HW : N := 2.
Definition HEADER_LEN : N := 8 + 1 + 1 + 16 + 12.
Definition tpm_required {A} (reason : string) : res A := Err (TpmRequired reason).

(* ------------------------------------------------------------------ *)
(** ** The TSS adapter: a stub of every call, which fails *)

Definition TSS_MAGIC : bytes := bytes_of "KVTPM001".
Definition TSS_MODE_HW : N := 2.
Record TpmTssSealAdapter := mk_tss { ts_tcti_path : option string }.
Definition tss_new : TpmTssSealAdapter := mk_tss None.
Definition with_tcti (tcti : string) (t : TpmTssSealAdapter) : TpmTssSealAdapter := mk_tss (Some tcti).
Definition tcti (t : TpmTssSealAdapter) : string := default "device:/dev/tpmrm0" (ts_tcti_path t).
Definition tss_not_linked {A} : res A :=
  tpm_required "TPM TSS seal/unseal not linked: rebuild with --features tpm and install libtss2-esys + libtss2-tcti-device. See docs/ops/TPM_SETUP.md for details.".
Definition seal_error (context e : string) : DomainError := TpmRequired (format "TPM TSS {}: {}" [context; e]).
Definition tss_seal (t : TpmTssSealAdapter) (plaintext pcr_policy_digest auth_passphrase aad : bytes) : res bytes := tss_not_linked.
Definition tss_unseal (t : TpmTssSealAdapter) (sealed pcr_policy_digest auth_passphrase : bytes) : res bytes := tss_not_linked.
Definition tss_quote (t : TpmTssSealAdapter) (nonce : bytes) : res bytes := tss_not_linked.
Definition tss_verify_quote (t : TpmTssSealAdapter) (quote expected_pcr_digest : bytes) : res unit := tss_not_linked.
Definition tss_read_counter (t : TpmTssSealAdapter) : res N := tss_not_linked.
Definition tss_increment_counter (t : TpmTssSealAdapter) : res unit := tss_not_linked.
(** Of the port; [tpm_feature]: built with the feature, [rm0] and [tpm0]: the device nodes. *)
Definition tss_available (tpm_feature rm0 tpm0 : bool) (t : TpmTssSealAdapter) : bool := tpm_feature && (rm0 || tpm0).
Definition tss_port_seal (tpm_feature : bool) (t : TpmTssSealAdapter) (plaintext policy_digest : bytes) : res bytes :=
  if tpm_feature then
    tpm_required "TPM TSS seal compiled (features tpm) but tss-esapi not linked — install libtss2-esys + libtss2-tcti-device"
  else tpm_required "TPM TSS seal not compiled: rebuild with --features tpm".
Definition tss_port_unseal (tpm_feature : bool) (t : TpmTssSealAdapter) (sealed policy_digest : bytes) : res bytes :=
  if tpm_feature then
    tpm_required "TPM TSS unseal compiled (features tpm) but tss-esapi not linked — install libtss2-esys + libtss2-tcti-device"
  else tpm_required "TPM TSS unseal not compiled: rebuild with --features tpm".
Definition VAULT_PCR_BASE : list N := [0; 1; 2; 3; 4; 5; 6; 7].
Definition pcr_composite_digest (pcr_values : list bytes) : bytes := replicate 32 "000"%char.
Definition build_seal_aad (share_id node_id : string) : bytes := bytes_of "seal-aad:" ++ bytes_of share_id ++ bytes_of "|" ++ bytes_of node_id.

(* ------------------------------------------------------------------ *)
(** ** The port and its backends *)

Inductive TpmSealAdapter := TpmFailClosed | TpmMock | TpmHwProbe | TpmTss (tss : TpmTssSealAdapter).
(** [TpmSealPort]; a seal draws a salt and a nonce. *)
Record TpmSealPort := mk_tpm_port {
  tp_backend_kind : string;
  tp_available : bool;
  tp_seal : bytes → bytes → bytes → bytes → res bytes;     (** salt, nonce, plaintext, policy digest *)
  tp_unseal : bytes → bytes → res bytes }.

Section tpm.
Context `{SR : Sha256Raw, SL : SealLib}.

Definition mock_key (policy salt : bytes) : bytes := sha256_raw (bytes_of "kerosene-vault-tpm-mock-v1" ++ policy ++ salt).
Definition mock_seal (salt nonce plaintext policy : bytes) : res bytes :=
  let envelope := TPM_MAGIC ++ [byte_of TPM_VERSION; byte_of MOCK] ++ salt ++ nonce in
  ciphertext ← ok_or (chacha_encrypt (mock_key policy salt) nonce envelope plaintext) (TpmRequired "TPM mock seal failed");
  Ok (envelope ++ ciphertext).
Definition mock_unseal (sealed policy : bytes) : res bytes :=
  if len sealed <? HEADER_LEN + 16 then tpm_required "TPM sealed envelope is too short"
  else if negb (bool_decide (take 8 sealed = TPM_MAGIC)) || negb (nth_byte 8 sealed =? TPM_VERSION) || negb (nth_byte 9 sealed =? MOCK) then
    tpm_required "TPM sealed envelope is invalid"
  else
    let salt := take 16 (drop 10 sealed) in
    ok_or (chacha_decrypt (mock_key policy salt) (take 12 (drop 26 sealed)) (take 38 sealed) (drop 38 sealed))
      (TpmRequired "TPM unseal rejected by policy or ciphertext").

Definition no_device {A} : res A := tpm_required "no TPM 2.0 device is available".
Definition tpm_backend_kind (a : TpmSealAdapter) : string :=
  match a with TpmFailClosed => "fail_closed" | TpmMock => "mock" | TpmHwProbe => "hw_probe" | TpmTss _ => "tss" end.
Definition tpm_available (a : TpmSealAdapter) : bool := match a with TpmFailClosed => false | _ => true end.
Definition tpm_seal (tpm_feature : bool) (a : TpmSealAdapter) (salt nonce plaintext policy : bytes) : res bytes :=
  match a with
  | TpmMock => mock_seal salt nonce plaintext policy
  | TpmFailClosed => no_device
  | TpmHwProbe => tpm_required "TPM device detected but TSS seal support is not implemented"
  | TpmTss tss => tss_port_seal tpm_feature tss plaintext policy
  end.
Definition tpm_unseal (tpm_feature : bool) (a : TpmSealAdapter) (sealed policy : bytes) : res bytes :=
  match a with
  | TpmMock => mock_unseal sealed policy
  | TpmFailClosed => no_device
  | TpmHwProbe =>
      tpm_required (if bool_decide (byte_n <$> sealed !! 9%nat = Some HW) then "TPM hardware envelope requires unimplemented TSS support"
                    else "TPM device detected but TSS unseal support is not implemented")
  | TpmTss tss => tss_port_unseal tpm_feature tss sealed policy
  end.
Definition tpm_port (tpm_feature : bool) (a : TpmSealAdapter) : TpmSealPort :=
  mk_tpm_port (tpm_backend_kind a) (tpm_available a) (tpm_seal tpm_feature a) (tpm_unseal tpm_feature a).

Definition tpm_device_present (rm0 tpm0 : bool) : bool := rm0 || tpm0.
Definition build_tpm_seal_port (ft : Features) (tpm_feature rm0 tpm0 enabled stub refuse_stub : bool) : res (option TpmSealAdapter) :=
  if negb enabled then Ok None
  else if stub then
    if refuse_stub || ft_production ft then Err (LabFlagForbidden "VAULT_SHARE_TPM_STUB") else Ok (Some TpmMock)
  else Ok (Some (if tpm_device_present rm0 tpm0 then (if tpm_feature then TpmTss tss_new else TpmHwProbe) else TpmFailClosed)).

(* ------------------------------------------------------------------ *)
(** ** The passphrase's envelope *)

Record ResolvedPassphrase := mk_resolved { rp_passphrase : string; rp_tpm_backend : string; rp_used_clear_fallback : bool }.
Definition sealed_passphrase_name : string := "tpm-passphrase.sealed".
Definition policy (data_root : string) : bytes :=
  sha256_raw (bytes_of "kerosene-vault-tpm-passphrase-policy-v1|" ++ bytes_of data_root).
Definition clear (value : option string) : res string :=
  match value with
  | Some v => if String.eqb v "" then Err (ShareStoreForbidden "VAULT_SHARE_PASSPHRASE is required to bootstrap TPM-sealed AEAD storage") else Ok v
  | None => Err (ShareStoreForbidden "VAULT_SHARE_PASSPHRASE is required to bootstrap TPM-sealed AEAD storage")
  end.

(** What a call draws and what fails in it; the write is not synced. *)
Record TpmEnv := mk_tpm_env {
  te_salt : bytes; te_nonce : bytes; te_read : option string;
  te_mkdir : option string; te_write : option (string * nat); te_rename : option string }.
Definition write_envelope (e : TpmEnv) (name : string) (data : bytes) : dcmd Fs unit :=
  _ ← fs_check (te_mkdir e) "mkdir TPM passphrase root: {}" [];
  _ ← update fs_mkdir;
  let tmp := with_extension "tmp" name in
  s ← get;
  let '(f, s1) := fs_open tmp s in
  _ ← put s1;
  _ ← update (fs_write f (match te_write e with Some (_, n) => take n data | None => data end));
  _ ← fs_check (fst <$> te_write e) "write TPM envelope: {}" [];
  _ ← fs_check (te_rename e) "rename TPM envelope: {}" [];
  update (fs_rename tmp name).

(** A [Result] kept as a value. *)
Definition attempt {S A} (c : dcmd S A) : dcmd S (res A) := λ s, let '(s', r) := c s in (s', Ok r).
(** The two ways to a passphrase: unseal the envelope, or seal a new one. *)
Definition reload_passphrase (e : TpmEnv) (digest : bytes) (tpm : TpmSealPort) : dcmd Fs string :=
  blob ← read_file "read TPM envelope: {}" (te_read e) sealed_passphrase_name;
  bytes ← lift (tp_unseal tpm blob digest);
  lift (ok_or (from_utf8 bytes) (ShareStoreForbidden "TPM-unsealed passphrase is not UTF-8")).
Definition bootstrap_passphrase (e : TpmEnv) (digest : bytes) (tpm : TpmSealPort) (value : string) : dcmd Fs string :=
  blob ← lift (tp_seal tpm (te_salt e) (te_nonce e) (bytes_of value) digest);
  _ ← write_envelope e sealed_passphrase_name blob;
  mret value.
Definition resolve_aead_passphrase (e : TpmEnv) (data_root : string) (clear_passphrase : option string) (tpm : TpmSealPort)
    (clear_fallback : bool) : dcmd Fs ResolvedPassphrase :=
  let digest := policy data_root in
  s ← get;
  resolved ← (if bool_decide (is_Some (fs_read s sealed_passphrase_name)) then attempt (reload_passphrase e digest tpm)
              else value ← lift (clear clear_passphrase);
                   attempt (bootstrap_passphrase e digest tpm value));
  match resolved with
  | Ok passphrase => mret (mk_resolved passphrase (tp_backend_kind tpm) false)
  | Err error =>
      if clear_fallback then passphrase ← lift (clear clear_passphrase); mret (mk_resolved passphrase (tp_backend_kind tpm) true)
      else fail error
  end.

(* ------------------------------------------------------------------ *)
(** ** The rollback counter *)

Record CounterSealedBlob := mk_counter_blob { cb_counter : N; cb_sealed_blob : bytes }.
Definition counter_encode (c : CounterSealedBlob) : bytes := rev (le_bytes 8 (cb_counter c)) ++ cb_sealed_blob c.
Definition counter_decode (b : bytes) : res CounterSealedBlob :=
  if len b <? 8 then tpm_required "counter sealed blob too short"
  else Ok (mk_counter_blob (from_le (rev (take 8 b))) (drop 8 b)).
Definition validate_tpm_counter (stored_counter current_counter : N) : res unit :=
  if current_counter <? stored_counter then
    tpm_required (format "TPM counter rollback detected: stored={} current={} (possible TPM state restoration or clone attack)"
      [show stored_counter; show current_counter])
  else Ok tt.

(* ------------------------------------------------------------------ *)
(** ** What is proved *)

Lemma counter_round_trip c : cb_counter c ≤ u64_max → counter_decode (counter_encode c) = Ok c.
Proof.
  intros Hc. unfold counter_decode, counter_encode. assert (length (rev (le_bytes 8 (cb_counter c))) = 8%nat) as Hl
    by (rewrite length_rev; apply length_le_bytes).
  rewrite len_app. unfold len at 1. rewrite Hl. destruct (_ <? _) eqn:E; [nlia|].
  rewrite (take_app_length' _ _ 8 (eq_sym Hl)), (drop_app_length' _ _ 8 (eq_sym Hl)), rev_involutive, from_le_bytes; [by destruct c|].
  unfold u64_max in Hc. change (256 ^ N.of_nat 8) with 18446744073709551616. lia.
Qed.
Lemma validate_tpm_counter_ok stored current : validate_tpm_counter stored current = Ok tt ↔ stored ≤ current.
Proof. unfold validate_tpm_counter. destruct (_ <? _) eqn:E; split; intros H; try done; nlia. Qed.

Context `{SP : !SealSpec}.

Lemma mock_round salt nonce p pol c : length salt = 16%nat → length nonce = 12%nat →
  mock_seal salt nonce p pol = Ok c → mock_unseal c pol = Ok p.
Proof.
  intros Hs Hn H. unfold mock_seal in H. cbv zeta in H. apply bind_ok in H as (ct & Hc & H). apply ok_or_ok in Hc. rewrite Ok_inj_iff in H. subst c.
  set (envelope := TPM_MAGIC ++ [byte_of TPM_VERSION; byte_of MOCK] ++ salt ++ nonce) in *.
  assert (length envelope = 38%nat) as He by (unfold envelope; rewrite !length_app; simpl; rewrite Hs, Hn; done).
  unfold mock_unseal. rewrite len_app, (chacha_len _ _ _ _ _ Hc). unfold len at 1. rewrite He.
  destruct (_ <? _) eqn:E; [unfold HEADER_LEN in E; nlia|]. clear E.
  rewrite (take_app_length' _ _ 38 (eq_sym He)), (drop_app_length' _ _ 38 (eq_sym He)).
  change (take 8 (envelope ++ ct)) with TPM_MAGIC. rewrite bool_decide_true by done.
  change (nth_byte 8 (envelope ++ ct) =? TPM_VERSION) with true. change (nth_byte 9 (envelope ++ ct) =? MOCK) with true. cbn [negb orb].
  assert (envelope ++ ct = (TPM_MAGIC ++ [byte_of TPM_VERSION; byte_of MOCK]) ++ salt ++ nonce ++ ct) as -> by (unfold envelope; by rewrite <- !app_assoc).
  set (hd := TPM_MAGIC ++ _). assert (length hd = 10%nat) as Hh by done.
  change 26%nat with (10 + 16)%nat. rewrite <- drop_drop, (drop_app_length' hd _ 10 (eq_sym Hh)).
  rewrite (take_app_length' salt _ 16 (eq_sym Hs)), (drop_app_length' salt _ 16 (eq_sym Hs)), (take_app_length' nonce _ 12 (eq_sym Hn)).
  by rewrite (chacha_round _ _ _ _ _ Hc).
Qed.

(** What a port promises of the draws [te_salt] and [te_nonce]: sealed is unsealed. *)
Class PortLaw (tpm : TpmSealPort) : Prop := {
  port_round salt nonce p pol c : length salt = 16%nat → length nonce = 12%nat →
    tp_seal tpm salt nonce p pol = Ok c → tp_unseal tpm c pol = Ok p }.
#[export] Instance tpm_port_law feature a : PortLaw (tpm_port feature a).
Proof. split; intros salt nonce p pol c Hs Hn. destruct a; simpl; [done|by apply mock_round|done|by destruct feature]. Qed.

Lemma clear_ok o v : clear o = Ok v ↔ o = Some v ∧ v ≠ "".
Proof. unfold clear. destruct o as [x|]; [|naive_solver]. destruct (String.eqb_spec x ""); naive_solver. Qed.

(** A write that succeeded is read. *)
Lemma write_envelope_read e name data s s' : fs_sane s → write_envelope e name data s = (s', Ok tt) → fs_read s' name = Some data.
Proof.
  intros H Hw. unfold write_envelope in Hw. erewrite bind_run in Hw by apply fs_check_run. destruct (te_mkdir e); [done|].
  erewrite bind_run in Hw by reflexivity. cbv beta iota zeta in Hw. erewrite bind_run in Hw by reflexivity. cbv beta iota in Hw.
  destruct (fs_open _ (fs_mkdir s)) as [f s1] eqn:Ho.
  destruct (fs_open_handle _ _ _ _ (fs_sane_mkdir s H) Ho) as (Hf & c & Hc).
  do 2 (erewrite bind_run in Hw by reflexivity; cbv beta iota in Hw). erewrite bind_run in Hw by apply fs_check_run.
  destruct (te_write e) as [[x n]|]; [done|]. cbn [fmap option_fmap option_map] in Hw. cbv beta iota in Hw.
  erewrite bind_run in Hw by apply fs_check_run. destruct (te_rename e); [done|].
  unfold update in Hw. injection Hw as <-. rewrite (fs_write_set _ _ _ _ Hc). unfold fs_rename. simpl. rewrite Hf. simpl.
  unfold fs_read. simpl. rewrite lookup_insert_eq. simpl. by rewrite lookup_insert_eq.
Qed.

Lemma reload_ok e digest tpm s s' p : reload_passphrase e digest tpm s = (s', Ok p) →
  s' = s ∧ ∃ blob, fs_read s sealed_passphrase_name = Some blob ∧ tp_unseal tpm blob digest = Ok (bytes_of p).
Proof.
  unfold reload_passphrase. rewrite cmd_bind_ok. intros (s1 & blob & H & Hu). unfold read_file in H.
  apply cmd_bind_ok in H as (s2 & x & [= <- <-] & H). destruct (te_read e); [done|]. apply lift_ok in H as [-> H]. apply ok_or_ok in H.
  apply cmd_bind_ok in Hu as (s3 & b & Hu & Hp). apply lift_ok in Hu as [-> Hu]. apply lift_ok in Hp as [-> Hp]. apply ok_or_ok in Hp.
  split; [done|]. exists blob. split; [done|]. unfold from_utf8 in Hp. destruct (valid_utf8 b); [|done]. injection Hp as <-.
  by rewrite bytes_of_str_of.
Qed.
Lemma bootstrap_ok tpm `{!PortLaw tpm} e digest value s s' p : fs_sane s → length (te_salt e) = 16%nat → length (te_nonce e) = 12%nat →
  bootstrap_passphrase e digest tpm value s = (s', Ok p) →
  p = value ∧ ∃ blob, fs_read s' sealed_passphrase_name = Some blob ∧ tp_unseal tpm blob digest = Ok (bytes_of p).
Proof.
  intros H Hs Hn Hb. unfold bootstrap_passphrase in Hb. apply cmd_bind_ok in Hb as (s1 & blob & Hl & Hb). apply lift_ok in Hl as [-> Hl].
  apply cmd_bind_ok in Hb as (s2 & [] & Hw & Hb). apply mret_ok in Hb as [-> <-]. split; [done|].
  exists blob. split; [by eapply write_envelope_read|]. by eapply port_round.
Qed.

(** C15 (safety). The passphrase that opens the shares comes out of the sealed envelope, or is
    the clear one by leave of the lab fallback. When no fallback was used, the directory afterwards holds an envelope that the
    port unseals, under the policy of this data root, to exactly the passphrase returned, so
    the next start returns it again without the clear one; when the fallback was used,
    it was allowed and the passphrase is the clear one given, not empty. Without the
    fallback a backend other than the software mock never yields a passphrase. *)
Theorem tpm_passphrase_sealed e root given feature a fallback s s' r :
  fs_sane s → length (te_salt e) = 16%nat → length (te_nonce e) = 12%nat →
  resolve_aead_passphrase e root given (tpm_port feature a) fallback s = (s', Ok r) →
  (if rp_used_clear_fallback r then fallback = true ∧ given = Some (rp_passphrase r) ∧ rp_passphrase r ≠ ""
   else a = TpmMock ∧
     (∃ blob, fs_read s' sealed_passphrase_name = Some blob ∧ tpm_unseal feature a blob (policy root) = Ok (bytes_of (rp_passphrase r))) ∧
     ∀ e' other, te_read e' = None → valid_utf8 (bytes_of (rp_passphrase r)) = true →
       resolve_aead_passphrase e' root other (tpm_port feature a) false s' = (s', Ok r)).
Proof.
  intros H Hs Hn Hr. unfold resolve_aead_passphrase in Hr. apply cmd_bind_ok in Hr as (s0 & x & [= <- <-] & Hr).
  apply cmd_bind_ok in Hr as (s1 & resolved & H1 & H2). destruct resolved as [p|x].
  - apply mret_ok in H2 as [-> <-]. cbn [rp_used_clear_fallback rp_passphrase].
    assert (∃ blob, fs_read s1 sealed_passphrase_name = Some blob ∧ tpm_unseal feature a blob (policy root) = Ok (bytes_of p))
      as (blob & Hb & Hu).
    { case_bool_decide.
      - unfold attempt in H1. destruct (reload_passphrase _ _ _ s) as [s2 r2] eqn:E. injection H1 as -> ->.
        by apply reload_ok in E as [-> ?].
      - apply cmd_bind_ok in H1 as (s2 & v & Hc & H1). apply lift_ok in Hc as [-> Hc].
        unfold attempt in H1. destruct (bootstrap_passphrase _ _ _ _ s) as [s3 r3] eqn:E. injection H1 as -> ->.
        by apply bootstrap_ok in E as [_ ?]; [|apply _|..]. }
    split; [by destruct a, feature|]. split; [by exists blob|].
    intros e' other He Hv. unfold resolve_aead_passphrase. erewrite bind_run by reflexivity. cbv beta iota.
    rewrite bool_decide_true by (rewrite Hb; by eexists).
    assert (reload_passphrase e' (policy root) (tpm_port feature a) s1 = (s1, Ok p)) as Hre.
    { unfold reload_passphrase. apply cmd_bind_ok. exists s1, blob. split.
      - unfold read_file. apply cmd_bind_ok. exists s1, s1. split; [done|]. rewrite He. apply lift_ok. by rewrite Hb.
      - apply cmd_bind_ok. exists s1, (bytes_of p). split; [by apply lift_ok|]. apply lift_ok. split; [done|].
        unfold from_utf8. by rewrite Hv, str_of_bytes_of. }
    erewrite bind_run; [|unfold attempt; rewrite Hre; reflexivity]. reflexivity.
  - destruct fallback; [|done]. apply cmd_bind_ok in H2 as (s2 & v & Hc & H2). apply lift_ok in Hc as [-> Hc].
    apply clear_ok in Hc as [Hg Hv]. apply mret_ok in H2 as [-> <-]. cbn [rp_used_clear_fallback rp_passphrase]. done.
Qed.

(* ------------------------------------------------------------------ *)
(** ** What it does not ensure *)

(** The TSS backend calls itself available where its own port does not. *)
Lemma tss_availability_differs : tpm_available (TpmTss tss_new) = true ∧ ∀ rm0 tpm0, tss_available false rm0 tpm0 tss_new = false.
Proof. by split. Qed.
(** No boot measurement enters the composite digest. *)
Lemma pcr_digest_constant a b : pcr_composite_digest a = pcr_composite_digest b.
Proof. done. Qed.
(** With a device the backend built seals nothing: only the mock does. *)
Lemma device_seals_nothing ft feature rm0 tpm0 a salt nonce p pol :
  build_tpm_seal_port ft feature rm0 tpm0 true false true = Ok (Some a) → ∀ c, tpm_seal feature a salt nonce p pol ≠ Ok c.
Proof.
  unfold build_tpm_seal_port. cbn [negb]. intros [= <-] c. destruct (tpm_device_present rm0 tpm0); [|done]. destruct feature; done.
Qed.
End tpm.
