(* ===== verification/Lifecycle.v ===== *)
(** * Key lifecycle and share migration
    ([application/key_lifecycle.rs], [application/share_migration.rs]) *)
From S2P Require Import Prelude RustStr Errors DayEpoch.
Local Open Scope N_scope.

(* ------------------------------------------------------------------ *)
(** ** Key lifecycle *)

Inductive KeyDomain := KdIdentity | KdTransport | KdAudit.
Definition key_domain_str (d : KeyDomain) : string :=
  match d with KdIdentity => "identity" | KdTransport => "transport" | KdAudit => "audit" end.
Inductive KeyLifecycleEvent :=
| KeyCreated (key_id : string) (key_domain : KeyDomain) (at_epoch : DayEpoch)
| KeyRotated (old_key_id new_key_id : string) (key_domain : KeyDomain) (at_epoch : DayEpoch)
| KeyExpired (key_id : string) (at_epoch : DayEpoch)
| KeyRevoked (key_id reason : string) (at_epoch : DayEpoch).
Record KeyMetadata := mk_key_metadata {
  km_key_id : string; km_key_domain : KeyDomain; km_created_at : DayEpoch;
  km_expires_at : option DayEpoch; km_revoked_at : option DayEpoch; km_parent_key_id : option string }.

(** [current_epoch > exp]. *)
Definition km_is_active (current_epoch : DayEpoch) (k : KeyMetadata) : bool :=
  match km_revoked_at k with
  | Some _ => false
  | None => match km_expires_at k with Some exp => if day_lt exp current_epoch then false else true | None => true end
  end.
Definition km_is_revoked (k : KeyMetadata) : bool := match km_revoked_at k with Some _ => true | None => false end.
Definition km_is_expired (current_epoch : DayEpoch) (k : KeyMetadata) : bool :=
  match km_expires_at k with Some exp => day_lt exp current_epoch | None => false end.

Record KeyLifecycle := mk_key_lifecycle {
  kl_identity_classical : option KeyMetadata; kl_identity_pq : option KeyMetadata;
  kl_transport_classical : option KeyMetadata; kl_transport_pq : option KeyMetadata;
  kl_audit_classical : option KeyMetadata; kl_audit_pq : option KeyMetadata }.
Definition key_lifecycle_new : KeyLifecycle := mk_key_lifecycle None None None None None None.
Definition validate_identity_active (epoch : DayEpoch) (l : KeyLifecycle) : res unit :=
  match kl_identity_classical l, kl_identity_pq l with
  | Some c, Some p =>
      if negb (km_is_active epoch c) then Err (InvalidIntent "classical identity key expired or revoked")
      else if negb (km_is_active epoch p) then Err (InvalidIntent "PQ identity key expired or revoked")
      else Ok tt
  | _, _ => Err (InvalidIntent "identity keys not yet generated (genesis required)")
  end.
Definition validate_transport_active (epoch : DayEpoch) (l : KeyLifecycle) : res unit :=
  match kl_transport_classical l, kl_transport_pq l with
  | Some c, Some p =>
      if negb (km_is_active epoch c) || negb (km_is_active epoch p) then Err (InvalidIntent "transport keys expired or revoked")
      else Ok tt
  | _, _ => Err (InvalidIntent "transport keys not yet generated (genesis required)")
  end.

Lemma km_is_active_iff e k : km_is_active e k = negb (km_is_revoked k) && negb (km_is_expired e k).
Proof. unfold km_is_active, km_is_revoked, km_is_expired. destruct (km_revoked_at k); [done|]. by destruct (km_expires_at k); [destruct (day_lt _ _)|]. Qed.
(** Both keys of a kind, or none: what is valid has its classical and its post-quantum key, neither
    revoked nor past its day. *)
Lemma validate_identity_active_ok e l : validate_identity_active e l = Ok tt ↔
  ∃ c p, kl_identity_classical l = Some c ∧ kl_identity_pq l = Some p ∧ km_is_active e c = true ∧ km_is_active e p = true.
Proof.
  unfold validate_identity_active. destruct (kl_identity_classical l) as [c|], (kl_identity_pq l) as [p|]; [|naive_solver..].
  rewrite !guard_ok. nbool. naive_solver.
Qed.
Lemma validate_transport_active_ok e l : validate_transport_active e l = Ok tt ↔
  ∃ c p, kl_transport_classical l = Some c ∧ kl_transport_pq l = Some p ∧ km_is_active e c = true ∧ km_is_active e p = true.
Proof.
  unfold validate_transport_active. destruct (kl_transport_classical l) as [c|], (kl_transport_pq l) as [p|]; [|naive_solver..].
  rewrite !guard_ok. nbool. naive_solver.
Qed.

(* ------------------------------------------------------------------ *)
(** ** Share migration *)

(** [ShareMigrationPort]: its required methods, on a store [T]. *)
Class ShareMigration (T : Type) := {
  detect_stale_shares : string → dcmd T (list string);
  unseal_old : string → string → dcmd T bytes;
  reseal_new : string → bytes → string → dcmd T unit;
  delete_old : string → string → dcmd T unit;
}.
(** What the methods are documented to do; [held s id suite] is what is sealed for a
    share under a suite. A method that fails may leave its own entry in any state. *)
Class MigrationSpec (T : Type) `{!ShareMigration T} := {
  held : T → string → string → option bytes;
  detect_spec s suite : (detect_stale_shares suite s).1 = s ∧
    ∀ l, (detect_stale_shares suite s).2 = Ok l → NoDup l ∧ ∀ id, id ∈ l ↔ is_Some (held s id suite);
  unseal_spec s id suite : (unseal_old id suite s).1 = s ∧ ∀ b, (unseal_old id suite s).2 = Ok b → held s id suite = Some b;
  reseal_spec s id b suite : (∀ i x, (i, x) ≠ (id, suite) → held (reseal_new id b suite s).1 i x = held s i x) ∧
    ((reseal_new id b suite s).2 = Ok tt → held (reseal_new id b suite s).1 id suite = Some b);
  delete_spec s id suite : (∀ i x, (i, x) ≠ (id, suite) → held (delete_old id suite s).1 i x = held s i x) ∧
    ((delete_old id suite s).2 = Ok tt → held (delete_old id suite s).1 id suite = None);
}.

Section migration.
Context {T : Type} `{SM : !ShareMigration T}.

Definition migrate_one (share_id old_suite_id new_suite_id : string) : dcmd T unit :=
  plaintext ← unseal_old share_id old_suite_id;
  _ ← reseal_new share_id plaintext new_suite_id;
  verified ← unseal_old share_id new_suite_id;
  if negb (bool_decide (verified = plaintext)) then
    fail (ShareStoreForbidden (format "migration verify failed for {}: plaintext mismatch" [share_id]))
  else delete_old share_id old_suite_id.
Fixpoint migrate_list (old_suite_id new_suite_id : string) (l : list string) : dcmd T unit :=
  match l with
  | [] => mret tt
  | share_id :: rest => _ ← migrate_one share_id old_suite_id new_suite_id; migrate_list old_suite_id new_suite_id rest
  end.
Definition migrate_all_stale (old_suite_id new_suite_id : string) : dcmd T N :=
  stale ← detect_stale_shares old_suite_id;
  match stale with
  | [] => mret 0
  | _ => _ ← migrate_list old_suite_id new_suite_id stale; mret (len stale)
  end.

Context `{MS : !MigrationSpec T}.

(** Between [s] and [s'] no share was lost: what was under the old suite is under the old or the new
    one, and apart from the shares [ids] nothing moved. *)
Record kept (old new : string) (ids : list string) (s s' : T) : Prop := {
  kept_value id b : held s id old = Some b → held s' id old = Some b ∨ held s' id new = Some b;
  kept_suites id x : x ≠ old → x ≠ new → held s' id x = held s id x;
  kept_others id x : id ∉ ids → held s' id x = held s id x;
}.
Lemma kept_refl old new ids s : kept old new ids s s.
Proof. split; auto. Qed.

Lemma migrate_one_keeps old new id s : old ≠ new →
  kept old new [id] s (migrate_one id old new s).1 ∧
  ((migrate_one id old new s).2 = Ok tt → held (migrate_one id old new s).1 id old = None ∧
     ∃ b, held s id old = Some b ∧ held (migrate_one id old new s).1 id new = Some b).
Proof.
  intros Hne. unfold migrate_one, mbind, cmd_bind. destruct (unseal_spec s id old) as [Hu1 Hu2].
  destruct (unseal_old id old s) as [s1 [b|e]]; simpl in Hu1; subst s1; [|split; [apply kept_refl|done]]. specialize (Hu2 b eq_refl).
  destruct (reseal_spec s id b new) as [Hr1 Hr2]. destruct (reseal_new id b new s) as [s1 r]. simpl in Hr1, Hr2.
  assert (kept old new [id] s s1) as Hk1.
  { split; [intros i c Hi; left; rewrite Hr1; [done|congruence]|intros i x Hx Hn; apply Hr1; congruence|].
    intros i x Hi. apply Hr1. intros [= -> ->]. apply Hi. by left. }
  destruct r as [[]|e]; [|by split]. specialize (Hr2 eq_refl).
  destruct (unseal_spec s1 id new) as [Hv1 Hv2]. destruct (unseal_old id new s1) as [s2 [v|e]]; simpl in Hv1; subst s2; [|by split].
  specialize (Hv2 v eq_refl). assert (v = b) as -> by congruence. rewrite bool_decide_true by done. cbn [negb].
  destruct (delete_spec s1 id old) as [Hd1 Hd2]. destruct (delete_old id old s1) as [s2 r]. simpl in *.
  assert (held s2 id new = Some b) as Hnew by (rewrite Hd1 by congruence; done). split.
  - split.
    + intros i c Hi. destruct (decide (i = id)) as [->|Hi']; [right; congruence|left]. by rewrite Hd1, Hr1 by congruence.
    + intros i x Hx Hn. by rewrite Hd1, Hr1 by congruence.
    + intros i x Hi. assert (i ≠ id) by (intros ->; apply Hi; by left). by rewrite Hd1, Hr1 by congruence.
  - intros ->. split; [by apply Hd2|]. by exists b.
Qed.

Lemma migrate_list_keeps old new l s : old ≠ new → NoDup l →
  kept old new l s (migrate_list old new l s).1 ∧
  ((migrate_list old new l s).2 = Ok tt → ∀ id, id ∈ l → held (migrate_list old new l s).1 id old = None ∧
     ∃ b, held s id old = Some b ∧ held (migrate_list old new l s).1 id new = Some b).
Proof.
  intros Hne. revert s. induction l as [|id l IH]; intros s Hnd; cbn [migrate_list].
  { split; [apply kept_refl|by intros _ ? ?%elem_of_nil]. }
  apply NoDup_cons in Hnd as [Hid Hnd]. unfold mbind, cmd_bind.
  destruct (migrate_one_keeps old new id s Hne) as [[V1 S1 O1] M1]. destruct (migrate_one id old new s) as [s1 [[]|e]]; cbn [fst snd] in *.
  2: { split; [|done]. split; [done|done|]. intros i x Hi. apply O1. set_solver. }
  specialize (M1 eq_refl) as (Mo & b & Mb & Mn). destruct (IH s1 Hnd) as [[V2 S2 O2] M2].
  destruct (migrate_list old new l s1) as [s2 r]; cbn [fst snd] in *. split.
  - split.
    + intros i c Hi. destruct (decide (i = id)) as [->|Hne'].
      * right. rewrite O2 by done. congruence.
      * apply V2. rewrite O1; [done|]. set_solver.
    + intros i x Hx Hn. by rewrite S2, S1 by done.
    + intros i x Hi. rewrite O2, O1 by set_solver. done.
  - intros Hr i [-> | Hi]%elem_of_cons.
    + rewrite !O2 by done. split; [done|]. by exists b.
    + destruct (M2 Hr i Hi) as (Ho & c & Hc & Hn). split; [done|]. exists c. split; [|done].
      rewrite <- Hc. symmetry. apply O1. intros ->%list_elem_of_singleton. done.
Qed.

(** Migration to another suite loses no share: whatever fails, and wherever,
    every share sealed under the old suite afterwards still holds its plaintext, under the
    old suite or the new one, and no other suite's shares move. When the batch succeeds it
    reports the number of shares the old suite held, each is sealed under the new one
    with the plaintext it had, and none is left under the old one. *)
Theorem migration_loses_nothing old new s :
  old ≠ new →
  kept old new (match (detect_stale_shares old s).2 with Ok l => l | Err _ => [] end) s (migrate_all_stale old new s).1 ∧
  (∀ n, (migrate_all_stale old new s).2 = Ok n →
     (∃ l, NoDup l ∧ len l = n ∧ ∀ id, id ∈ l ↔ is_Some (held s id old)) ∧
     ∀ id, held (migrate_all_stale old new s).1 id old = None ∧
       ∀ b, held s id old = Some b → held (migrate_all_stale old new s).1 id new = Some b).
Proof.
  intros Hne. destruct (detect_spec s old) as [Hs Hl]. unfold migrate_all_stale, mbind, cmd_bind.
  destruct (detect_stale_shares old s) as [s0 [l|e]]; cbn [fst snd] in *; subst s0; [|by split; [apply kept_refl|]].
  specialize (Hl l eq_refl) as [Hnd Hl].
  assert (∀ id, id ∉ l → held s id old = None) as Hout.
  { intros id Hid. destruct (held s id old) eqn:E; [|done]. destruct Hid. apply Hl. by rewrite E. }
  destruct l as [|x l].
  - split; [apply kept_refl|]. intros n [= <-]. split; [by exists []|]. intros id. cbn [fst mret cmd_ret].
    assert (held s id old = None) as -> by (apply Hout; by intros ?%elem_of_nil). done.
  - destruct (migrate_list_keeps old new (x :: l) s Hne Hnd) as [Hk Hm].
    destruct (migrate_list old new (x :: l) s) as [s1 [[]|e]]; cbn [fst snd] in *; [|done].
    split; [done|]. intros n [= <-]. split; [by exists (x :: l)|]. intros id. cbn [fst mret cmd_ret].
    destruct (decide (id ∈ x :: l)) as [Hin|Hout'].
    + destruct (Hm eq_refl id Hin) as (Ho & b & Hb & Hn). split; [done|]. intros b' Hb'. congruence.
    + destruct Hk as [_ _ HO]. rewrite HO by done. pose proof (Hout id Hout') as Hnone. rewrite Hnone. by split.
Qed.

(** A migration to the same suite verifies the copy it then deletes. *)
Lemma same_suite_deletes id suite s : (migrate_one id suite suite s).2 = Ok tt → held (migrate_one id suite suite s).1 id suite = None.
Proof.
  unfold migrate_one, mbind, cmd_bind. destruct (unseal_old id suite s) as [s1 [b|e]]; [|done].
  destruct (reseal_new id b suite s1) as [s2 [[]|e]]; [|done]. destruct (unseal_old id suite s2) as [s3 [v|e]]; [|done].
  destruct (negb _); [done|]. apply delete_spec.
Qed.
End migration.

(** [NoopShareMigration]. *)
Definition noop_forbidden {A} (t share_id : string) : dcmd unit A := fail (ShareStoreForbidden (format t [share_id])).
#[export] Instance NoopShareMigration : ShareMigration unit := {|
  detect_stale_shares old_suite_id := mret [];
  unseal_old share_id old_suite_id := noop_forbidden "noop migration cannot unseal {}" share_id;
  reseal_new share_id plaintext new_suite_id := noop_forbidden "noop migration cannot reseal {}" share_id;
  delete_old share_id old_suite_id := noop_forbidden "noop migration cannot delete {}" share_id |}.
#[export] Instance noop_spec : MigrationSpec unit.
Proof.
  refine {| held _ _ _ := None |}; try by split.
  intros s suite. split; [done|]. intros l [= <-]. split; [apply NoDup_nil_2|].
  intros id. split; [by intros ?%elem_of_nil|by intros []].
Defined.

(** A store of entries by share and suite, for a concrete run; deleting fails when [frozen]. *)
Record ToyShares := mk_toy_shares { toy_entries : gmap (string * string) bytes; toy_frozen : bool }.
#[local] Instance toy_migration : ShareMigration ToyShares := {|
  detect_stale_shares suite := λ s, (s, Ok ((λ p, p.1.1) <$> filter (λ p, p.1.2 = suite) (map_to_list (toy_entries s))));
  unseal_old id suite := λ s, (s, ok_or (toy_entries s !! (id, suite)) (ShareStoreForbidden "absent"));
  reseal_new id b suite := λ s, (mk_toy_shares (<[(id, suite) := b]> (toy_entries s)) (toy_frozen s), Ok tt);
  delete_old id suite := λ s, if toy_frozen s then (s, Err (ShareStoreForbidden "frozen"))
                              else (mk_toy_shares (delete (id, suite) (toy_entries s)) false, Ok tt) |}.
#[local] Instance toy_migration_spec : MigrationSpec ToyShares.
Proof.
  refine {| held s id suite := toy_entries s !! (id, suite) |}.
  - intros s suite. split; [done|]. intros l [= <-]. split.
    + assert (∀ k, NoDup k.*1 → NoDup ((λ p : (string * string) * bytes, p.1.1) <$> filter (λ p, p.1.2 = suite) k)) as Hnd; [|apply Hnd, NoDup_fst_map_to_list].
      intros k. induction k as [|[[i x] b] k IH]; simpl; intros Hk; [apply NoDup_nil_2|]. apply NoDup_cons in Hk as [Hn Hk].
      rewrite filter_cons. simpl. destruct (decide (x = suite)) as [->|]; [|by apply IH]. simpl. apply NoDup_cons. split; [|by apply IH].
      intros ([[j y] c] & E & Hin)%list_elem_of_fmap. apply list_elem_of_filter in Hin as [Hy Hin]. simpl in *. subst. apply Hn.
      apply list_elem_of_fmap. by exists ((j, suite), c).
    + intros id. rewrite list_elem_of_fmap. split.
      * intros ([[j y] c] & -> & Hin). apply list_elem_of_filter in Hin as [Hy Hin]. simpl in *. subst.
        apply elem_of_map_to_list in Hin. by exists c.
      * intros [b Hb]. exists ((id, suite), b). split; [done|]. apply list_elem_of_filter. split; [done|]. by apply elem_of_map_to_list.
  - intros s id suite. split; [done|]. intros b H. by apply ok_or_ok in H.
  - intros s id b suite. split; [intros i x Hne; simpl; by rewrite lookup_insert_ne by congruence|intros _; simpl; by rewrite lookup_insert_eq].
  - intros s id suite. simpl. destruct (toy_frozen s); [done|]. split; [intros i x Hne; simpl; by rewrite lookup_delete_ne by congruence|].
    intros _. simpl. by rewrite lookup_delete_eq.
Defined.

Lemma migration_loses_nothing_witness :
  let s := mk_toy_shares {[("a", "classic") := bytes_of "1"]} false in
  "classic" ≠ "hybrid" ∧ held (migrate_all_stale "classic" "hybrid" s).1 "a" "hybrid" = Some (bytes_of "1").
Proof.
  intros s. assert ("classic" ≠ "hybrid") as Hne by discriminate. split; [exact Hne|].
  assert ((migrate_all_stale "classic" "hybrid" s).2 = Ok 1) as Hok by (vm_compute; reflexivity).
  destruct (migration_loses_nothing "classic" "hybrid" s Hne) as [_ H].
  destruct (H 1 Hok) as [_ H']. apply (H' "a"). vm_compute. reflexivity.
Defined.
