(* ===== verification/Wiring.v ===== *)
(** * What a node is made of ([bootstrap/wiring.rs])

    [VaultRuntime::build]: the components a configuration selects and what each is opened with.
    Fields of the runtime that only hold ports again are left out. The data directory is the
    state of the build; the share store, the files of the release mesh and the random bytes are
    arguments, as are the outcomes of opening the two logs. *)
From S2P Require Import Prelude RustStr RustParse Errors Identity DayEpoch Bucket Psbt BucketLedger PersistedLedger Constitution AntiNonce Ledger NodeTier Economy.
From S2P Require Import Release DailyRotation LabField Threshold Frost HybridEnvelope WireDkg WireHub AuthIdentity FrostShares ShareReshare FrostSign Cosign TrSign.
From S2P Require Import DkgLocal HttpPeer PeerTrust ConfigEnv Config HttpRoute Health KeyIdentity SeedStore TeeAttestation DurableFs Json PeerFanout ReleaseStore.
From S2P Require Import EconomyStore SealedStore ShareAead ShareTee ShareTpm PeerLink.
Local Open Scope N_scope.

(* ------------------------------------------------------------------ *)
(** ** Choices of the configuration alone *)

Section choices.
Context (config : VaultConfig).
Definition lab_ceremony : bool := bool_decide (cfg_ceremony_mode config = CmLab).
Definition wants_mtls : bool := bool_decide (cfg_auth_mode config = MutualTls).

(** Dealer key generation outside the laboratory is refused before anything else is built. *)
Definition refuse_dealer : res unit :=
  if negb lab_ceremony && cfg_dealer_requested config
  then Err (DealerForbidden "dealer DKG refused in staging/production") else Ok tt.

Fixpoint peer_directory (l : list (string * string)) (peers : gmap string PeerInfo) : res (gmap string PeerInfo) :=
  match l with
  | [] => Ok peers
  | (id, addr) :: rest =>
      node ← node_id_new id;
      peer_directory rest (upsert_peer {| peer_id := node; endpoint := {| address := addr |} |} peers)
  end.

Definition genesis_roster : res (list NodeId) :=
  active_set ← seat_genesis config;
  if bool_decide (cfg_node_id config ∈ active_set) then Ok active_set
  else Err (ThresholdError (format "local node {} not seated in genesis roster (SEV/SGX peers filled VAULT_GENESIS_N seats; this node is waiting-set only)"
    [node_str (cfg_node_id config)])).

Section hashed.
Context `{SH : Sha256}.
Definition genesis_constitution (n : N) : res Constitution :=
  c ← (if cfg_open_economy config then v1_open n else v1_lab n);
  c ← match cfg_measurement_pin_hex config with
      | Some hex => pin ← measurement_from_hex hex; Ok (with_measurement_pin pin c)
      | None => Ok (ensure_measurement_pin c)
      end;
  Ok (with_payout_frequency (cfg_miner_payout_frequency config) c).
(** The day advances by the mesh's quorum; alone, by its own vote. *)
Definition rotation_quorum (n t : N) : N :=
  if len (cfg_seed_peers config) =? 0 then 1 else N.max (quorum_two_thirds (N.max n 1)) t.
Definition dkg_entropy (roster : list NodeId) : string :=
  format "genesis|{}|{}" [cfg_lab_root config; join "," (node_str <$> roster)].
Definition lab_threshold (roster : list NodeId) (t : N) : res TState :=
  '(group, shares) ← run_dkg roster (N.to_nat t) (bytes_of (dkg_entropy roster));
  local_share ← ok_or (find (λ s, bool_decide (sh_node_id s = cfg_node_id config)) shares)
    (ThresholdError "local share missing after DKG");
  Ok (threshold_new group local_share shares).
End hashed.

(** [Arc<dyn AttestationPort>]. *)
Inductive NodeAttestation := SimAtt (a : SimAttestationAdapter) | TeeAtt (a : TeeAttestationAdapter).
Definition att_mode (a : NodeAttestation) : AttestationMode := match a with SimAtt a => sa_mode a | TeeAtt a => ta_mode a end.
Definition build_attestation (ft : Features) (measurement : Measurement) : res NodeAttestation :=
  let root := bytes_of (cfg_lab_root config) in
  match cfg_attestation_mode config with
  | Sim => Ok (SimAtt (sim_with_mode Sim root))
  | Software => Ok (SimAtt (sim_with_mode Software root))
  | mode =>
      let refuse_stub := production_ceremony config || ft_production ft in
      a ← tee_with_policy mode (cfg_attestation_staging_stub config) refuse_stub root measurement [];
      Ok (TeeAtt a)
  end.

Definition release_policy (n : N) : ReleasePolicy :=
  let p := release_lab_default n in
  {| council_n := N.max (cfg_lab_council_n config) 2; min_rebuilds := N.max (cfg_lab_min_rebuilds config) 1;
     vault_n := vault_n p; timelock_secs := timelock_secs p; lab_timelock_scale := effective_lab_timelock_scale config |}.

Definition admit_configured (kind : BucketKind) (dests : list string) : dcmd PState unit :=
  if bool_decide (dests = []) then mret tt
  else zoom mem (λ m p, set_mem (λ _, m) p) (mem_admit_destinations kind dests).
Definition local_buckets (file : option bytes) (c : Constitution) : res PState :=
  let '(p, r) := (_ ← admit_configured Users (cfg_users_destination_allowlist config);
                  admit_configured Miners (cfg_miners_destination_allowlist config))
                 (persisted_open file (max_withdraw_per_tx_sats c) (max_withdraw_per_day_sats c)) in
  _ ← r; Ok p.

(** Where the peers are called. *)
Definition peer_bases : list (string * string) :=
  (λ p, (p.1, peer_base_url p.2 wants_mtls)) <$> cfg_seed_peers config.
Definition wire_token : string := default "kerosene-vault-lab-only" (effective_vault_token config).
Definition peer_auth_token : option string :=
  match cfg_auth_mode config with StaticToken => Some wire_token | MutualTls => None end.
(** A [StaticOnlineCount] counts what [lab_static] does. *)
Definition online_status (n : N) (peers : gmap string PeerInfo) : ProbedOnlineCount :=
  if cfg_online_static config || (lab_ceremony && (len peer_bases =? 0))
  then lab_static (default n (cfg_online_count config))
  else mk_probed peers ((λ p, p.2 +:+ "/v1/health") <$> peer_bases) (cfg_online_count config) None.

Definition reshare_hook (node : NodeId) : PolicyReshareHook :=
  mk_hook (cfg_reshare_policy config) node (Some (node, governance_reward_config config))
    (bool_decide (cfg_dkg_mode config = DealerLab) && lab_ceremony && negb (cfg_hardened config)).

(** The ceremonies run among the seated peers. *)
Definition seated_addrs (roster : list NodeId) : gmap string string :=
  foldl (λ m p, if bool_decide (p.1 ∈ node_str <$> roster) then <[p.1 := p.2]> m else m) ∅ (cfg_seed_peers config).
Definition wire_peer_auth : res WireDkgPeerAuth :=
  match cfg_auth_mode config with
  | StaticToken => Ok (WireStaticToken wire_token)
  | MutualTls =>
      '(cert, key, ca) ← require_mtls_client_identity config;
      Ok (WireMutualTls cert key ca (cfg_tls_verify_policy config))
  end.
End choices.

(* ------------------------------------------------------------------ *)
(** ** The share store *)

(** [Arc<dyn ShareStorePort>]. *)
Inductive NodeShareStore := AeadStore (st : AeadDiskShareStore) | TeeStore (st : TeeSealAdapter).

Section share_store.
Context `{SH : Sha256, SR : Sha256Raw, SL : SealLib, NL : SnpLib, HX : HexCodec}.
(** [tpm_feature], [rm0], [tpm0]: the feature [tpm] and the two devices. *)
Context (ft : Features) (tpm_feature rm0 tpm0 : bool) (env : TpmEnv) (config : VaultConfig).

Definition attestation_port (a : NodeAttestation) : AttestationPort :=
  match a with
  | SimAtt a => mk_att_port (issue_quote a) (verify_quote a)
  | TeeAtt a => mk_att_port (tee_issue_quote ft a) (tee_verify_quote ft a)
  end.
Definition tee_hw_or_closed (root : string) (measurement : Measurement) (att : AttestationPort) : res TeeSealAdapter :=
  if ft_tee_hw ft && attestation_is_tee (cfg_attestation_mode config)
  then tee_hw_store root (cfg_attestation_mode config) measurement att
  else Ok (fail_closed measurement).
Definition tee_share_store (measurement : Measurement) (att : AttestationPort) : res TeeSealAdapter :=
  let root := path_join (effective_data_dir config) "tee-shares" in
  if ft_production ft then tee_hw_or_closed root measurement att
  else if cfg_attestation_staging_stub config && negb (production_ceremony config) then
    pass ← ok_or (effective_share_passphrase config)
      (ShareStoreForbidden "VAULT_DATA_PASSPHRASE required for tee staging stub outside lab");
    Ok (with_attestation att (staging_stub root pass measurement))
  else tee_hw_or_closed root measurement att.

(** The seal port asked for is always there ([build_tpm_seal_port_some]). *)
Definition aead_share_store : dcmd Fs AeadDiskShareStore :=
  let data_root := effective_data_dir config in
  let root := path_join data_root "shares" in
  if cfg_share_tpm_seal config then
    let refuse_stub := cfg_hardened config || negb (lab_ceremony config) || ft_production ft in
    tpm ← lift (build_tpm_seal_port ft tpm_feature rm0 tpm0 true (cfg_share_tpm_stub config) refuse_stub);
    match tpm with
    | Some a =>
        resolved ← resolve_aead_passphrase env data_root (effective_share_passphrase config) (tpm_port tpm_feature a)
          (cfg_share_tpm_clear_fallback config);
        mret (mk_aead_store root (rp_passphrase resolved) (negb (rp_used_clear_fallback resolved)))
    | None => fail (TpmRequired "TPM seal port when VAULT_SHARE_TPM_SEAL=1")
    end
  else
    pass ← lift (ok_or (effective_share_passphrase config)
      (ShareStoreForbidden "VAULT_DATA_PASSPHRASE required outside lab (no default passphrase)"));
    mret (aead_new root pass).
Lemma build_tpm_seal_port_some stub refuse p : build_tpm_seal_port ft tpm_feature rm0 tpm0 true stub refuse = Ok p → is_Some p.
Proof.
  unfold build_tpm_seal_port. cbn. destruct stub; [destruct (refuse || ft_production ft); [done|]|]; intros [= <-]; by eexists.
Qed.
Definition share_store (measurement : Measurement) (att : AttestationPort) : dcmd Fs NodeShareStore :=
  match cfg_share_store_mode config with
  | AeadDisk => st ← aead_share_store; mret (AeadStore st)
  | TeeSeal => st ← lift (tee_share_store measurement att); mret (TeeStore st)
  end.
End share_store.

(* ------------------------------------------------------------------ *)
(** ** The key material *)

Section keys.
(** The two frost crates, and what each call draws. *)
Context (FP FT : Frost) {DP : @FrostDealer FP} {DT : @FrostDealer FT} {FS : @FrostStorage FT} {EY : @EvenY FT}.
Context `{HX : HexCodec} {T : Type} `{ST : !ShareStore T}.
Record KeyDraws := mk_key_draws {
  kd_dealer : @Rng FP; kd_tr : @Rng FT; kd_tr_channels : @Rng FT; kd_dkg : @Identifier FP → @Rng FP }.
(** [dkg], [frost], [frost_tr] and [frost_tr_channels]; an orchestrator is there when its slot is filled. *)
Record KeyMaterial := mk_key_material {
  km_dkg : DkgAdapter;
  km_frost : option (@FrostTrShareState FP);
  km_frost_tr : option (@FrostTrBitcoinOrchestrator FT);
  km_frost_tr_channels : option (@FrostTrBitcoinOrchestrator FT);
}.

Context (ft : Features) (config : VaultConfig) (n t : N) (draws : KeyDraws).

Definition orchestrator (in_process : bool) (shares : @FrostTrShareState FT) : @FrostTrBitcoinOrchestrator FT :=
  mk_orchestrator (Some shares) (cfg_bitcoin_network config) in_process (node_str (cfg_node_id config)) true (cfg_psbt_policy config).
(** [max] and [min] signers, as [u16]s of at least two. *)
Definition signer_bounds : N * N :=
  let max := N.max (N.min n 65535) 2 in (max, N.min (N.max (N.min t 65535) 2) max).
(** [match load() { Ok(x) => Some(x), Err(_) => None }]. *)
Definition try_load {A} (c : dcmd T A) : dcmd T (option A) := λ s,
  let '(s', r) := c s in (s', Ok (match r with Ok a => Some a | Err _ => None end)).

(** The one share this node keeps of a keyset of the mesh. *)
Definition local_keyset (refusal : string) (load : dcmd T (@FrostTrShareState FT)) : dcmd T (option (@FrostTrBitcoinOrchestrator FT)) :=
  existing ← try_load load;
  match existing with
  | Some existing =>
      if 1 <? N.of_nat (size (key_packages existing)) then fail (ThresholdError refusal)
      else mret (Some (orchestrator false existing))
  | None => mret None
  end.
Definition wire_keys : dcmd T KeyMaterial :=
  frost_tr ← local_keyset "distributed_wire refuses sealed multi-share TR material; install local share only" load_tr_shares;
  channels ← local_keyset "distributed_wire refuses sealed multi-share CHANNELS TR material" load_tr_channels_shares;
  mret (mk_key_material DistributedWireDkgPort None frost_tr channels).

Definition wire_distributed_dkg : dcmd T KeyMaterial :=
  let '(max, min) := signer_bounds in
  bundle ← lift (run_in_process (FR := FP) (kd_dkg draws) max min);
  _ ← persist_dkg_shares bundle;
  mret (mk_key_material DistributedDkgAdapter
    (Some (mk_share_state (FR := FP) (fb_key_packages bundle) (fb_pubkey_package bundle) min)) None None).

(** A stored keyset, or one from the dealer that is then stored. *)
Definition dealt_keyset (rng : @Rng FT) (load : dcmd T (@FrostTrShareState FT)) (persist : @FrostTrShareState FT → dcmd T unit) :
    dcmd T (@FrostTrShareState FT) :=
  existing ← try_load load;
  match existing with
  | Some existing => mret existing
  | None =>
      let '(max, min) := signer_bounds in
      fresh ← lift (generate_tr_dealer (FR := FT) rng max min);
      _ ← persist fresh;
      mret fresh
  end.
Definition dealer_keys : dcmd T KeyMaterial :=
  let '(max, min) := signer_bounds in
  bundle ← lift (dealer_generate (FR := FP) (kd_dealer draws) max min);
  _ ← match id_iter (db_key_packages bundle) with
      | (id, _) :: _ => ignore (put_share (node_str (cfg_node_id config)) (bytes_of (format "frost-lab-share:{}" [id_debug id])))
      | [] => mret tt
      end;
  tr ← dealt_keyset (kd_tr draws) load_tr_shares persist_tr_shares;
  channels ← dealt_keyset (kd_tr_channels draws) load_tr_channels_shares persist_tr_channels_shares;
  mret (mk_key_material DealerLabAdapter
    (Some (mk_share_state (FR := FP) (db_key_packages bundle) (db_pubkey_package bundle) t))
    (Some (orchestrator true tr)) (Some (orchestrator true channels))).

Definition key_material : dcmd T KeyMaterial :=
  if ft_dealer_lab ft then
    if cfg_dealer_requested config && lab_ceremony config && negb (cfg_hardened config) then dealer_keys
    else match cfg_dkg_mode config with
         | DistributedWire => wire_keys
         | Distributed => wire_distributed_dkg
         | DealerLab => mret (mk_key_material DistributedDkgAdapter None None None)
         end
  else if cfg_dealer_requested config || bool_decide (cfg_dkg_mode config = DealerLab) then
    fail (DealerForbidden "dealer DKG not compiled (build without dealer_lab)")
  else match cfg_dkg_mode config with DistributedWire => wire_keys | _ => wire_distributed_dkg end.
End keys.

(* ------------------------------------------------------------------ *)
(** ** [VaultRuntime::build] *)

(** What the build meets outside the data directory: random bytes, clocks, failures. *)
Record BootEnv {FP FT : Frost} := mk_boot {
  be_draw : GenesisDraw; be_created_at : N; be_today : N;
  be_release_mkdir : option string; be_release_fails : option string; be_release_root : Fs; be_release_blobs : Fs;
  be_economy_fails : option string; be_economy : FsEnv; be_tpm : TpmEnv;
  be_buckets_open : res unit; be_sessions_open : res unit;
  be_votes : option (gmap string string);
  be_keys : KeyDraws FP FT;
}.
#[global] Arguments BootEnv : clear implicits.

Section build.
Context (FP FT : Frost) {DP : @FrostDealer FP} {DT : @FrostDealer FT} {FS : @FrostStorage FT} {EY : @EvenY FT}.
Context `{HX : HexCodec, SH : Sha256, SR : Sha256Raw, SL : SealLib, NL : SnpLib, JR : !JsonRead}.
Context `{EL : Ed25519Lib, ML : MlDsaLib, XL : X25519Lib, TL : TlsLib}.
(** The share store on what it finds on disk. *)
Context {T : Type} `{ST : !ShareStore T} (open_store : NodeShareStore → T).

Record VaultRuntime := mk_runtime {
  rt_config : VaultConfig;
  rt_genesis_roster : list NodeId;
  rt_hybrid_identity : option HybridIdentity;
  rt_get_health : GetHealth;
  rt_peers : gmap string PeerInfo;
  rt_ledger : LedgerState;
  rt_threshold : TState;
  rt_online : ProbedOnlineCount;
  rt_attestation : NodeAttestation;
  rt_release_mesh : PersistedReleaseMesh;
  rt_economy : EconomyState;
  rt_auth : VaultAuth;
  rt_buckets : PState * PeerTransport string * N;
  rt_share_store : NodeShareStore * T;
  rt_anti_nonce : AntiNonce * PeerTransport string * N;
  rt_daily_rotation : Rotation * option (PeerTransport (string * string));
  rt_reshare_hook : PolicyReshareHook;
  rt_keys : KeyMaterial FP FT;
  rt_wire_dkg : @WireDkgHub FP * HubLink * HttpClient;
  rt_tr_wire_dkg : @WireDkgHub FT * HubLink * HttpClient;
  rt_tr_cosign : option HttpTrCosignTransport;  (** [None]: [NoopTrCosignTransport] *)
}.

Context (ft : Features) (vars : string → option string) (tpm_feature rm0 tpm0 : bool).
Context (read : string → result string bytes) (proxy : string → result string unit) (client : result string unit).
Context (env : BootEnv FP FT).

(** The transports of the session claims, the intent claims and the day's votes. *)
Definition node_transport {P} (config : VaultConfig) (peers : list P) : res (PeerTransport P) :=
  match cfg_auth_mode config with
  | StaticToken => Ok (with_peer_http peers (peer_auth_token config) (cfg_peer_http config))
  | MutualTls =>
      '(cert, key, ca) ← require_mtls_client_identity config;
      with_mtls (_ ← build_mtls_rustls_client_config read cert key ca (cfg_tls_verify_policy config); Ok tt)
        peers (cfg_peer_http config)
  end.
Definition day_vote_transport (config : VaultConfig) : res (option (PeerTransport (string * string))) :=
  if len (peer_bases config) =? 0 then Ok None
  else t ← node_transport config ((λ p, (p.1, p.2 +:+ "/v1/day/vote")) <$> peer_bases config); Ok (Some t).
Definition tr_cosign_transport (config : VaultConfig) : res (option HttpTrCosignTransport) :=
  if bool_decide (peer_bases config = []) then Ok None
  else match cfg_auth_mode config with
       | StaticToken => Ok (Some (cosign_with_peer_http (peer_bases config) (peer_auth_token config) (cfg_peer_http config)))
       | MutualTls =>
           '(cert, key, ca) ← require_mtls_client_identity config;
           t ← cosign_with_mtls read (peer_bases config) (cfg_peer_http config) cert key ca (cfg_tls_verify_policy config);
           Ok (Some t)
       end.
Definition node_health (config : VaultConfig) (peers : gmap string PeerInfo) (att : NodeAttestation) (c : Constitution)
    (roster : list NodeId) (online : ProbedOnlineCount) : GetHealth :=
  with_online_status online (with_constitution (signing_n c) (signing_t c)
    (with_peer_probe (negb (cfg_online_static config) && (0 <? len (peer_bases config)))
      (health_with_roster (cfg_node_id config) peers (att_mode att) (cfg_node_tier config)
        (cfg_tee_available config && attestation_is_tee (cfg_attestation_mode config)) (node_str <$> roster)))).

Definition build (config : VaultConfig) : dcmd Fs VaultRuntime :=
  let node := cfg_node_id config in
  let data_root := effective_data_dir config in
  _ ← lift (validate_attestation_policy config);
  _ ← lift (validate_hygiene ft vars config);
  _ ← lift (refuse_dealer config);
  peers ← lift (peer_directory (cfg_seed_peers config) ∅);
  active_set ← lift (genesis_roster config);
  let n := len active_set in
  c ← lift (genesis_constitution config n);
  let measurement := measurement_pin_or_hash c in
  let t := signing_t c in
  ledger ← lift (ledger_genesis c active_set node);
  threshold ← lift (lab_threshold config active_set t);
  attestation ← lift (build_attestation config ft measurement);
  release ← lift (release_open (be_release_mkdir env) (be_release_fails env) (release_policy config n)
                    (be_release_root env) (be_release_blobs env));
  economy ← economy_open data_root "economy.json" (be_economy_fails env) (be_economy env);
  let hybrid_identity := match genesis node (be_draw env) (be_created_at env) with Ok k => Some k | Err _ => None end in
  auth ← lift (build_auth config);
  _ ← lift (be_buckets_open env);
  disk ← get;
  buckets ← lift (local_buckets config (fs_read disk "consumed_intents.log") c);
  store ← share_store ft tpm_feature rm0 tpm0 (be_tpm env) config measurement (attestation_port ft attestation);
  let peer_count := len (peer_bases config) in
  let online := online_status config n peers in
  anti_transport ← lift (node_transport config ((λ p, p.2 +:+ "/v1/anti-nonce/prepare") <$> peer_bases config));
  _ ← lift (be_sessions_open env);
  let anti_nonce := an_open (fs_read disk "used_sessions.log") in
  intent_transport ← lift (node_transport config ((λ p, p.2 +:+ "/v1/intent/consume/prepare") <$> peer_bases config));
  day_transport ← lift (day_vote_transport config);
  let rotation := rotation_open (be_today env) (rotation_quorum config n t) (node_str node) true
                    (raw ← fs_read disk "day_epoch"; from_utf8 raw) (be_votes env) in
  peer_auth ← lift (wire_peer_auth config);
  let link := mk_link (node_str node) (seated_addrs config active_set) peer_auth (cfg_peer_http config) in
  dkg_client ← lift (build_http_client read proxy client peer_auth (cfg_peer_http config));
  tr_client ← lift (build_tr_http_client read proxy client peer_auth (cfg_peer_http config));
  cosign ← lift (tr_cosign_transport config);
  keyed ← lift (let '(files, r) := key_material FP FT ft config n t (be_keys env) (open_store store) in k ← r; Ok (k, files));
  mret {| rt_config := config; rt_genesis_roster := active_set; rt_hybrid_identity := hybrid_identity;
          rt_get_health := node_health config peers attestation c active_set online;
          rt_peers := peers; rt_ledger := ledger; rt_threshold := threshold; rt_online := online;
          rt_attestation := attestation; rt_release_mesh := release; rt_economy := economy; rt_auth := auth;
          rt_buckets := (buckets, intent_transport, peer_count);
          rt_share_store := (store, keyed.2);
          rt_anti_nonce := (anti_nonce, anti_transport, peer_count);
          rt_daily_rotation := (rotation, day_transport);
          rt_reshare_hook := reshare_hook config node;
          rt_keys := keyed.1;
          rt_wire_dkg := (hub_new (FR := FP) (node_str node), link, dkg_client);
          rt_tr_wire_dkg := (hub_new (FR := FT) (node_str node), link, tr_client);
          rt_tr_cosign := cosign |}.

(* ------------------------------------------------------------------ *)
(** ** What a node was built from *)

Record built (config : VaultConfig) (rt : VaultRuntime) : Prop := mk_built {
  bu_config : rt_config rt = config;
  bu_hygiene : validate_hygiene ft vars config = Ok tt;
  bu_roster : genesis_roster config = Ok (rt_genesis_roster rt);
  bu_ledger : ∃ c, genesis_constitution config (len (rt_genesis_roster rt)) = Ok c ∧
    ledger_genesis c (rt_genesis_roster rt) (cfg_node_id config) = Ok (rt_ledger rt) ∧
    lab_threshold config (rt_genesis_roster rt) (signing_t c) = Ok (rt_threshold rt) ∧
    build_attestation config ft (measurement_pin_or_hash c) = Ok (rt_attestation rt) ∧
    quorum_t (rt_daily_rotation rt).1 = N.max (rotation_quorum config (len (rt_genesis_roster rt)) (signing_t c)) 1;
  bu_auth : build_auth config = Ok (rt_auth rt);
  bu_store : ∃ m a d d', share_store ft tpm_feature rm0 tpm0 (be_tpm env) config m a d = (d', Ok (rt_share_store rt).1);
  bu_anti : node_transport config ((λ p, p.2 +:+ "/v1/anti-nonce/prepare") <$> peer_bases config) = Ok (rt_anti_nonce rt).1.2;
  bu_intent : node_transport config ((λ p, p.2 +:+ "/v1/intent/consume/prepare") <$> peer_bases config) = Ok (rt_buckets rt).1.2;
  bu_day : day_vote_transport config = Ok (rt_daily_rotation rt).2;
  bu_hook : rt_reshare_hook rt = reshare_hook config (cfg_node_id config);
  bu_links : ∃ auth, wire_peer_auth config = Ok auth ∧
    (rt_wire_dkg rt).1.2 = mk_link (node_str (cfg_node_id config)) (seated_addrs config (rt_genesis_roster rt)) auth (cfg_peer_http config) ∧
    (rt_tr_wire_dkg rt).1.2 = (rt_wire_dkg rt).1.2 ∧
    build_http_client read proxy client auth (cfg_peer_http config) = Ok (rt_wire_dkg rt).2 ∧
    build_tr_http_client read proxy client auth (cfg_peer_http config) = Ok (rt_tr_wire_dkg rt).2;
  bu_cosign : tr_cosign_transport config = Ok (rt_tr_cosign rt);
  bu_keys : ∃ t files files', key_material FP FT ft config (len (rt_genesis_roster rt)) t (be_keys env) files = (files', Ok (rt_keys rt));
}.

Ltac unbind H := repeat (apply cmd_bind_ok in H as (? & ? & ? & H);
  try match goal with K : lift _ _ = (_, Ok _) |- _ => apply lift_ok in K as [-> K] end).

Lemma build_parts config s s' rt : build config s = (s', Ok rt) → built config rt.
Proof.
  unfold build. intros H. unbind H. injection H as <- <-. repeat match goal with u : unit |- _ => destruct u end.
  match goal with K : (let '(_, _) := key_material _ _ _ _ _ _ _ ?f in _) = Ok ?k |- _ => 
    destruct (key_material FP FT _ _ _ _ _ f) as [files r] eqn:Ek; apply bind_ok in K as (k' & -> & [= <-]) end.
  constructor; cbn; eauto 10.
Qed.

(** A transport that keeps to TLS and sends no token. *)
Definition over_tls {P} (url : P → string) (t : PeerTransport P) : Prop :=
  pt_tls _ t = true ∧ pt_auth_token t = None ∧ Forall (λ p, starts_with "https://" (url p) = true) (pt_peers t).
Lemma node_transport_mtls {P} config (peers : list P) (url : P → string) t : cfg_auth_mode config = MutualTls →
  node_transport config peers = Ok t → Forall (λ p, starts_with "https://" (url p) = true) peers → over_tls url t.
Proof.
  unfold node_transport, with_mtls. intros -> H Hp. apply bind_ok in H as ([[cert key] ca] & _ & H).
  apply bind_ok in H as ([] & _ & [= <-]). done.
Qed.
Lemma peer_bases_https config path : cfg_auth_mode config = MutualTls →
  Forall (λ u, starts_with "https://" u = true) ((λ p, p.2 +:+ path) <$> peer_bases config).
Proof.
  intros Ha. unfold peer_bases, wants_mtls. rewrite Ha. rewrite <- list_fmap_compose. apply Forall_fmap, Forall_true.
  intros p. cbn. apply starts_with_extend, peer_base_https.
Qed.

(** One share at most, and no signing in process. *)
Definition holds_one_share (o : option (@FrostTrBitcoinOrchestrator FT)) : Prop :=
  ∀ o', o = Some o' → o_allow_local_multisign o' = false ∧
    ∃ st, o_shares o' = Some st ∧ (size (key_packages st) ≤ 1)%nat.
Lemma local_keyset_one config refusal (load : dcmd T (@FrostTrShareState FT)) (s s' : T) o : local_keyset FT config refusal load s = (s', Ok o) → holds_one_share o.
Proof.
  unfold local_keyset. intros H. apply cmd_bind_ok in H as (s1 & e & _ & H). destruct e as [st|]; [|by injection H as <- <-].
  destruct (1 <? N.of_nat (size (key_packages st))) eqn:E; [done|]. injection H as <- <-. intros o' [= <-].
  split; [done|]. exists st. split; [done|]. nbool. lia.
Qed.
Lemma wire_keys_one config (s s' : T) k : wire_keys FP FT config s = (s', Ok k) →
  km_dkg _ _ k = DistributedWireDkgPort ∧ km_frost _ _ k = None ∧ holds_one_share (km_frost_tr _ _ k) ∧
  holds_one_share (km_frost_tr_channels _ _ k).
Proof.
  unfold wire_keys. intros H. apply cmd_bind_ok in H as (s1 & a & Ha & H). apply cmd_bind_ok in H as (s2 & b & Hb & H).
  injection H as <- <-. cbn. split_and!; [done..| |]; by eapply local_keyset_one.
Qed.

(** The settings of a production ceremony that the build depends on. *)
Record production_settings (config : VaultConfig) : Prop := mk_production {
  ps_not_sim : cfg_attestation_mode config ≠ Sim;
  ps_no_stub : cfg_attestation_staging_stub config = false;
  ps_mtls : cfg_auth_mode config = MutualTls;
  ps_wire : cfg_dkg_mode config = DistributedWire;
  ps_no_dealer : cfg_dealer_requested config = false;
  ps_proxy : default "" (ph_socks_proxy (cfg_peer_http config)) ≠ "";
  ps_policy : cfg_tls_verify_policy config ≠ Hostname;
  ps_passphrase : cfg_share_store_mode config = AeadDisk →
    ∃ p, cfg_share_passphrase config = Some p ∧ p ≠ lab_passphrase;
}.
Lemma production_config config : validate_hygiene ft vars config = Ok tt → cfg_ceremony_mode config = CmProduction →
  production_settings config.
Proof.
  intros Hh Hm. destruct (production_not_lab config Hm) as [Hp Hl].
  apply hygiene_parts in Hh as (_ & _ & H1 & H2 & _ & _ & _ & Htr & _ & Hpass & _).
  destruct (H1 Hp) as [Hstub _]. destruct (H2 Hl) as [Hsim Hcer].
  unfold validate_ceremony in Hcer. rewrite !unit_bind_ok, !refuse_ok, require_ok in Hcer.
  destruct Hcer as (Hdeal & Hdkg & _). rewrite bool_decide_eq_true in Hdkg.
  unfold validate_transport_hygiene in Htr. rewrite Hp, Hl, !unit_bind_ok, if_ok, !unit_bind_ok, !refuse_ok, !require_ok in Htr.
  destruct Htr as (Htor & Ht & Hmtls & _). destruct (Htor Ht) as (Hsocks & _ & _ & Hpol). rewrite bool_decide_eq_true in Hmtls.
  constructor; try done.
  - unfold is_lab_only in Hsim. by rewrite bool_decide_eq_false in Hsim.
  - by destruct (String.eqb_spec (default "" (ph_socks_proxy (cfg_peer_http config))) "").
  - intros E. by rewrite Hmtls, E in Hpol.
  - intros Ha. unfold validate_lab_passphrase_defaults in Hpass. rewrite Hl, bool_decide_true, unit_bind_ok, !refuse_ok in Hpass by done.
    destruct Hpass as [Hpass _]. rewrite !andb_true_r in Hpass. destruct (cfg_share_passphrase config) as [p|]; [|done].
    exists p. split; [done|]. by destruct (String.eqb_spec p lab_passphrase).
Qed.

Definition attests_honestly (a : NodeAttestation) : Prop :=
  match a with SimAtt a => sa_mode a = Software | TeeAtt a => stub_path_allowed a = false end.
Lemma attestation_honest config m a : build_attestation config ft m = Ok a → cfg_attestation_mode config ≠ Sim →
  cfg_attestation_staging_stub config = false → attests_honestly a.
Proof.
  unfold build_attestation, tee_with_policy. intros H Hs Hstub. rewrite Hstub, !andb_false_r in H.
  destruct (cfg_attestation_mode config); [done|by injection H as <-|..]; cbn in H; by injection H as <-.
Qed.
(** No stub behind the shares, and no passphrase known from the source. *)
Definition sealed_honestly (config : VaultConfig) (st : NodeShareStore) : Prop :=
  match st with
  | AeadStore st => cfg_share_tpm_seal config = false → as_passphrase st ≠ lab_passphrase
  | TeeStore t => ∀ p, tl_backend t ≠ StagingStub p
  end.
Lemma tee_hw_or_closed_honest config root m att t : tee_hw_or_closed ft config root m att = Ok t →
  ∀ p, tl_backend t ≠ StagingStub p.
Proof.
  unfold tee_hw_or_closed, tee_hw_store. destruct (ft_tee_hw ft && _); [|by intros [= <-]]. rewrite guard_ok. by intros [_ [= <-]].
Qed.
Lemma share_store_honest config m att d d' st : share_store ft tpm_feature rm0 tpm0 (be_tpm env) config m att d = (d', Ok st) →
  production_settings config → sealed_honestly config st.
Proof.
  intros H Hp. unfold share_store in H. destruct (cfg_share_store_mode config) eqn:Hm.
  - destruct (ps_passphrase _ Hp Hm) as (p & Hpass & Hne). apply cmd_bind_ok in H as (d1 & st' & Ha & [= <- <-]).
    intros Ht. unfold aead_share_store in Ha. rewrite Ht in Ha. apply cmd_bind_ok in Ha as (d2 & p' & Hl & [= <- <-]).
    apply lift_ok in Hl as [-> Hl%ok_or_ok]. unfold effective_share_passphrase in Hl. rewrite Hpass in Hl. by injection Hl as <-.
  - apply cmd_bind_ok in H as (d1 & t & Ha & [= <- <-]). apply lift_ok in Ha as [-> Ha]. unfold tee_share_store in Ha.
    rewrite (ps_no_stub _ Hp) in Ha. destruct (ft_production ft); cbn in Ha; exact (tee_hw_or_closed_honest _ _ _ _ _ Ha).
Qed.
Lemma key_material_wire config n t (s s' : T) k : production_settings config → key_material FP FT ft config n t (be_keys env) s = (s', Ok k) →
  wire_keys FP FT config s = (s', Ok k).
Proof.
  intros Hp. unfold key_material. rewrite (ps_no_dealer _ Hp), (ps_wire _ Hp). cbn. by destruct (ft_dealer_lab ft).
Qed.
Lemma wire_auth_mtls config auth : cfg_auth_mode config = MutualTls → wire_peer_auth config = Ok auth →
  ∃ cert key ca, require_mtls_client_identity config = Ok (cert, key, ca) ∧
    auth = WireMutualTls cert key ca (cfg_tls_verify_policy config).
Proof. unfold wire_peer_auth. intros ->. rewrite bind_ok. intros ([[cert key] ca] & H & [= <-]). eauto. Qed.

(** A client behind the proxy that trusts the authorities of the configured file, by the configured names. *)
Definition pinned_client (config : VaultConfig) (cl : HttpClient) : Prop := ∃ cert key ca v c,
  require_mtls_client_identity config = Ok (cert, key, ca) ∧ default "" (cb_proxy (hc_builder cl)) ≠ "" ∧
  hc_tls cl = Some c ∧ roots_in read ca (cc_roots c) ∧ cc_verifier c = Some v ∧
  vf_allowed_spiffe v = allowed_spiffe (cfg_tls_verify_policy config).
Lemma policy_verifier_names p v : policy_verifier p = Ok v → p ≠ Hostname → ∃ v', v = Some v' ∧ vf_allowed_spiffe v' = allowed_spiffe p.
Proof.
  destruct p as [|a|a]; cbn; [done|..]; intros H _; apply bind_ok in H as (w & Hw & [= <-]); unfold verifier_new in Hw;
    rewrite guard_ok in Hw; destruct Hw as [_ [= <-]]; by eexists.
Qed.
Lemma client_pinned config cert key ca cl : production_settings config → require_mtls_client_identity config = Ok (cert, key, ca) →
  cb_proxy (hc_builder cl) = ph_socks_proxy (cfg_peer_http config) ∧
  tls_for read (WireMutualTls cert key ca (cfg_tls_verify_policy config)) (hc_tls cl) → pinned_client config cl.
Proof.
  intros Hp Hid (Hpr & c & Hc & Hr & _ & Hv). apply policy_verifier_names in Hv as (v & Hv & Hn); [|apply Hp].
  exists cert, key, ca, v, c. rewrite Hpr. by split_and!; [|apply Hp|..].
Qed.
Lemma cosign_over_tls config o t : production_settings config → tr_cosign_transport config = Ok o → o = Some t →
  ht_auth_token t = None ∧ is_Some (ht_tls t) ∧ Forall (λ p, starts_with "https://" p.2 = true) (ht_peers t).
Proof.
  intros Hp H ->. unfold tr_cosign_transport in H. rewrite (ps_mtls _ Hp) in H. case_bool_decide; [done|].
  apply bind_ok in H as ([[cert key] ca] & _ & H). apply bind_ok in H as (t' & Hn & [= <-]). unfold cosign_with_mtls in Hn.
  apply bind_ok in Hn as (tls & _ & [= <-]). cbn. split_and!; [done|by eexists|]. unfold peer_bases, wants_mtls.
  rewrite (ps_mtls _ Hp), Forall_fmap. apply Forall_true. intros p. cbn. apply peer_base_https.
Qed.


Lemma genesis_constitution_quorum config n c : genesis_constitution config n = Ok c →
  signing_n c = n ∧ signing_t c = quorum_two_thirds n.
Proof.
  unfold genesis_constitution. intros H. apply bind_ok in H as (c0 & H0 & H). apply bind_ok in H as (c1 & H1 & [= <-]).
  assert (signing_n c0 = n ∧ signing_t c0 = quorum_two_thirds n) as [<- <-].
  { destruct (cfg_open_economy config).
    - unfold v1_open in H0. rewrite guard_ok in H0. destruct H0 as [_ H0]. by apply bind_ok in H0 as (sp & _ & [= <-]).
    - unfold v1_lab in H0. rewrite guard_ok in H0. destruct H0 as [_ H0]. by apply bind_ok in H0 as (sp & _ & [= <-]). }
  destruct (cfg_measurement_pin_hex config); [by apply bind_ok in H1 as (pin & _ & [= <-])|].
  injection H1 as <-. unfold ensure_measurement_pin. by case_bool_decide.
Qed.
Lemma seated_addrs_seated config roster id addr : seated_addrs config roster !! id = Some addr →
  id ∈ node_str <$> roster ∧ (id, addr) ∈ cfg_seed_peers config.
Proof.
  unfold seated_addrs.
  assert (∀ (l : list (string * string)) (m : gmap string string), (∀ i a, m !! i = Some a → i ∈ node_str <$> roster ∧ (i, a) ∈ cfg_seed_peers config) → l ⊆ cfg_seed_peers config →
    ∀ i a, foldl (λ m p, if bool_decide (p.1 ∈ node_str <$> roster) then <[p.1 := p.2]> m else m) m l !! i = Some a →
    i ∈ node_str <$> roster ∧ (i, a) ∈ cfg_seed_peers config) as K.
  { intros l. induction l as [|[i0 a0] l IH]; cbn; [auto|]. intros m Hm Hl. apply IH; [|set_solver].
    case_bool_decide as Hi; [|done]. intros i a [[<- <-]|[_ ?]]%lookup_insert_Some; [|by apply Hm]. split; [done|set_solver]. }
  apply K; [intros i a Hi; by rewrite lookup_empty in Hi|done].
Qed.

(** One roster through the whole node: the ledger's members, the lab group, the ceremonies' peers and the
    quorums all come from the seated genesis set, which has this node in it and no one twice. *)
Theorem runtime_one_roster config s s' rt : build config s = (s', Ok rt) →
  let roster := rt_genesis_roster rt in
  NoDup roster ∧ cfg_node_id config ∈ roster ∧
  active_set (Ledger.epoch (rt_ledger rt)) = roster ∧
  signing_n (Ledger.constitution (rt_ledger rt)) = len roster ∧ signing_t (Ledger.constitution (rt_ledger rt)) = quorum_two_thirds (len roster) ∧
  gk_n (group (rt_threshold rt)) = length roster ∧ N.of_nat (gk_t (group (rt_threshold rt))) = quorum_two_thirds (len roster) ∧
  sh_node_id (local_share (rt_threshold rt)) = cfg_node_id config ∧
  (cfg_seed_peers config ≠ [] → quorum_two_thirds (len roster) ≤ quorum_t (rt_daily_rotation rt).1) ∧
  (∀ id addr, lk_peer_addrs (rt_wire_dkg rt).1.2 !! id = Some addr → id ∈ node_str <$> roster ∧ (id, addr) ∈ cfg_seed_peers config).
Proof.
  intros [_ _ Hr (c & Hc & Hl & Ht & _ & Hq) _ _ _ _ _ _ (auth & _ & Hlk & _) _ _]%build_parts. cbv zeta.
  apply genesis_constitution_quorum in Hc as [Hn Htt]. apply genesis_inv in Hl as (_ & _ & Hcn & Ha & Hlen).
  unfold genesis_roster in Hr. apply bind_ok in Hr as (act & Hs & Hr). case_bool_decide as Hin; [|done]. injection Hr as ->.
  unfold seat_genesis in Hs. apply bind_ok in Hs as (c1 & _ & Hs). apply bind_ok in Hs as (c2 & _ & [= Hs]).
  unfold lab_threshold in Ht. apply bind_ok in Ht as ([g shs] & Hg & Ht). apply bind_ok in Ht as (sh & Hsh%ok_or_ok & [= <-]).
  apply run_dkg_ok in Hg as (Hact & _ & Hgn & Hgt & _). apply find_some in Hsh as [_ Hsh].
  split_and!; [|done|done|by rewrite Hcn|by rewrite Hcn|done|cbn; rewrite Hgt; lia|by nbool| |].
  - rewrite <- Hs. apply seating_prefers_tiers.
  - intros Hne. rewrite Hq. unfold rotation_quorum.
    destruct (N.eqb_spec (len (cfg_seed_peers config)) 0) as [E|_]; [destruct (cfg_seed_peers config); [done|by rewrite len_cons in E; lia]|].
    rewrite (N.max_l (len _) 1) by (unfold len; lia). lia.
  - intros id addr. rewrite Hlk. apply seated_addrs_seated.
Qed.
End build.
