(* ===== verification/Admin.v ===== *)
(** * The administration socket ([application/admin.rs], [adapters/admin_api.rs], [src/src/main.rs])

    The read-only service over a built node, its router with the token check, and how [main]
    puts it on a Unix socket. The contract types are records of the fields the service fills;
    their JSON text is serde's. *)
From S2P Require Import Prelude RustStr RustParse Errors Identity DayEpoch Bucket BucketLedger PersistedLedger Constitution AntiNonce Ledger NodeTier Economy Release DailyRotation.
From S2P Require Import LabField Threshold Frost HybridEnvelope WireDkg AuthIdentity FrostShares ShareReshare FrostSign Cosign TrSign DkgLocal HttpPeer PeerTrust.
From S2P Require Import ConfigEnv Config HttpRoute Health KeyIdentity Json PeerLink Wiring.
Local Open Scope N_scope.

(* ------------------------------------------------------------------ *)
(** ** Request ids, errors, time *)

(** [now]: nanoseconds since the epoch, zero when the clock is before it. *)
Definition fallback_request_id (now : N) : string := format "vault-admin-{}" [show_hex now].
Definition resolve_request_id (now : N) (header_value : option string) : string :=
  match header_value with
  | Some v =>
      let trimmed := trim v in
      if negb (String.eqb trimmed "") && (str_len trimmed <=? 128) then trimmed else fallback_request_id now
  | None => fallback_request_id now
  end.

(** Four bytes of a clock reading, the lowest first. *)
Definition rand_byte_prefix (now : N) : string := hex_of_bytes (take 4 (le_bytes 16 now)).
Definition iso_timestamp (now : N) : string :=
  let secs := now / 1000000000 in
  let nanos := now mod 1000000000 in
  let days := secs / 86400 in
  let remaining := secs mod 86400 in
  let '(year, month, day) := days_to_date days in
  format "{}-{}-{}T{}:{}:{}.{}Z"
    [show_pad 4 year; show_pad 2 month; show_pad 2 day; show_pad 2 (remaining / 3600); show_pad 2 (remaining mod 3600 / 60);
     show_pad 2 (remaining mod 60); show_pad 3 (nanos / 1000000)].

(** [ADMIN_CONTRACT_VERSION] of the contracts crate. *)
Class AdminContracts := ADMIN_CONTRACT_VERSION : string.

Record AdminErrorEnvelopeV1 := mk_admin_error {
  ae_contract_version : string; ae_code : string; ae_message : string; ae_request_id : string; ae_details : Value }.
Record VaultAdminStatusV1 := mk_vault_status {
  va_contract_version : string; va_request_id : string; va_local_ready : bool; va_financial_ready : bool;
  va_node_id : string; va_ceremony_mode : string; va_bitcoin_network : string }.
Record NodeAdminStatusV1 := mk_node_status {
  na_contract_version : string; na_request_id : string; na_network_id : string; na_plane : string; na_local_ready : bool;
  na_member_ready : bool; na_quorum_ready : bool; na_financial_ready : bool; na_live_members : N; na_threshold : N }.
Record AuditReferenceV1 := mk_audit_reference { ar_event_id : string; ar_request_id : string; ar_occurred_at : string }.

Section errors.
Context `{AC : AdminContracts}.
Definition admin_error (request_id code message : string) : AdminErrorEnvelopeV1 :=
  mk_admin_error ADMIN_CONTRACT_VERSION code message request_id JNull.
Definition admin_error_status (e : AdminErrorEnvelopeV1) : N :=
  let says c := String.eqb (ae_code e) c in
  if says "UNAUTHORIZED" then 401 else if says "FORBIDDEN" then 403 else if says "NOT_FOUND" then 404
  else if says "TOO_LARGE" then 413 else if says "TOO_MANY_REQUESTS" then 429 else if says "SERVICE_UNAVAILABLE" then 503 else 500.
(** The error [check_dealer_lab_gate] and [validate_admin_request_path] return; nothing calls them. *)
Definition check_dealer_lab_gate (ft : Features) (request_id : string) : result AdminErrorEnvelopeV1 unit :=
  if ft_production ft && ft_dealer_lab ft
  then Err (admin_error request_id "FORBIDDEN" "dealer_lab is not permitted in production builds") else Ok tt.
Definition validate_admin_request_path (path request_id : string) : result AdminErrorEnvelopeV1 unit :=
  if 256 <? str_len path then
    Err (admin_error request_id "TOO_LARGE" (format "request path too long ({} bytes)" [show (str_len path)]))
  else if contains_str ".." path then Err (admin_error request_id "FORBIDDEN" "path traversal detected")
  else if contains_char "000"%char path then Err (admin_error request_id "FORBIDDEN" "null byte in request path")
  else Ok tt.
End errors.

(* ------------------------------------------------------------------ *)
(** ** [AdminService] *)

Section service.
Context {FP FT : Frost} `{TL : TlsLib, AC : AdminContracts} {T : Type}.
(** [ft], [hybrid], [tpm]: the features of the build; the network's answers to probes. *)
Context (ft : Features) (hybrid tpm : bool) (dials probe_url : string → bool).
Context (runtime : VaultRuntime FP FT (T := T)).

Definition config := rt_config _ _ runtime.
Definition node_name : string := node_str (cfg_node_id config).
Definition group_t : N := N.of_nat (gk_t (group (rt_threshold _ _ runtime))).
Definition group_n : N := N.of_nat (gk_n (group (rt_threshold _ _ runtime))).
Definition online : N := online_count dials probe_url (rt_online _ _ runtime).

Definition admin_status (request_id : string) : VaultAdminStatusV1 :=
  mk_vault_status ADMIN_CONTRACT_VERSION request_id true (group_t <=? online) node_name
    (ceremony_str (cfg_ceremony_mode config)) (network_str (cfg_bitcoin_network config)).
Definition admin_health (request_id : string) : NodeAdminStatusV1 :=
  mk_node_status ADMIN_CONTRACT_VERSION request_id node_name "Vault" true (0 <? online) (group_t <=? online)
    (group_t <=? online) (wrap64 online) (group_t mod 65536).
Definition admin_roster (request_id : string) : Value :=
  JObj [("contract_version", JStr ADMIN_CONTRACT_VERSION); ("request_id", JStr request_id); ("node_id", JStr node_name);
        ("genesis_roster", JArr ((λ n, JStr (node_str n)) <$> rt_genesis_roster _ _ runtime));
        ("n", JNum group_n); ("t", JNum group_t); ("online", JNum online);
        ("peer_count", JNum (len (list_peers (rt_peers _ _ runtime)))); ("threshold_met", JBool (group_t <=? online))].
Definition installed {A} (o : option A) : Value := JBool (bool_decide (is_Some o)).
Definition admin_ceremony (request_id : string) : Value :=
  JObj [("contract_version", JStr ADMIN_CONTRACT_VERSION); ("request_id", JStr request_id);
        ("ceremony_mode", JStr (ceremony_str (cfg_ceremony_mode config))); ("dkg_mode", JStr (dkg_mode_str (cfg_dkg_mode config)));
        ("attestation_mode", JStr (attestation_mode_str (cfg_attestation_mode config)));
        ("tee_available", JBool (cfg_tee_available config)); ("node_tier", JStr (tier_str (cfg_node_tier config)));
        ("n", JNum group_n); ("t", JNum group_t); ("online", JNum online);
        ("genesis_members", JNum (len (rt_genesis_roster _ _ runtime)));
        ("frost_installed", installed (km_frost _ _ (rt_keys _ _ runtime)));
        ("frost_tr_installed", installed (km_frost_tr _ _ (rt_keys _ _ runtime)));
        ("frost_tr_channels_installed", installed (km_frost_tr_channels _ _ (rt_keys _ _ runtime)));
        ("bitcoin_network", JStr (network_str (cfg_bitcoin_network config))); ("auth_mode", JStr (auth_str (cfg_auth_mode config)));
        ("share_store_mode", JStr (share_store_str (cfg_share_store_mode config))); ("hardened", JBool (cfg_hardened config));
        ("open_economy", JBool (cfg_open_economy config))].
Definition build_feature_list : list string :=
  (if ft_production ft then ["production"] else []) ++ (if ft_dealer_lab ft then ["dealer_lab"] else []) ++
  (if hybrid then ["hybrid"] else []) ++ (if ft_tee_hw ft then ["tee_hw"] else []) ++ (if tpm then ["tpm"] else []).
Definition admin_compatibility (request_id : string) : Value :=
  JObj [("contract_version", JStr ADMIN_CONTRACT_VERSION); ("request_id", JStr request_id); ("admin_api_version", JStr "0.1.0");
        ("node_id", JStr node_name); ("ceremony_mode", JStr (ceremony_str (cfg_ceremony_mode config)));
        ("node_tier", JStr (tier_str (cfg_node_tier config)));
        ("attestation_mode", JStr (attestation_mode_str (cfg_attestation_mode config)));
        ("dkg_mode", JStr (dkg_mode_str (cfg_dkg_mode config))); ("signing_scheme", JStr "frost-secp256k1");
        ("bitcoin_network", JStr (network_str (cfg_bitcoin_network config))); ("features", JArr (JStr <$> build_feature_list));
        ("transport", JStr (transport_str (cfg_transport config)))].
(** The three clock readings of a call, in nanoseconds. *)
Definition audit_reference (now now' now'' : N) (request_id : string) : AuditReferenceV1 :=
  mk_audit_reference (format "vault-admin-{}-{}" [show_hex (now / 1000000); rand_byte_prefix now']) request_id (iso_timestamp now'').

(* ------------------------------------------------------------------ *)
(** ** The router *)

Inductive AdminBody :=
| BStatus (s : VaultAdminStatusV1) | BHealth (h : NodeAdminStatusV1) | BValue (v : Value) | BAudit (a : AuditReferenceV1) | BEmpty.
Record AdminReply := mk_admin_reply { ad_status : N; ad_headers : list (string * string); ad_body : AdminBody }.
(** [clock]: the readings of the request, the id's first. *)
Record AdminRequest := mk_admin_request {
  aq_method : Method; aq_path : string; aq_token : option string; aq_request_id : option string; aq_clock : nat → N }.

(** Its state is the token; without one there is no router, and the construction panics. *)
Definition build_admin_router : option string := effective_vault_token config.
Definition require_admin_auth (auth_token : string) (header : option string) : bool :=
  bool_decide (header = Some auth_token).
Definition admin_routes : list (string * (string → (nat → N) → AdminBody)) :=
  [("/admin/status", λ id _, BStatus (admin_status id)); ("/admin/health", λ id _, BHealth (admin_health id));
   ("/admin/roster", λ id _, BValue (admin_roster id)); ("/admin/ceremony", λ id _, BValue (admin_ceremony id));
   ("/admin/compatibility", λ id _, BValue (admin_compatibility id));
   ("/admin/audit-reference", λ id clock, BAudit (audit_reference (clock 1%nat) (clock 2%nat) (clock 3%nat) id))].
(** Laid over every reply; none of the routes sets a header of these names. *)
Definition admin_security_headers : list (string * string) :=
  [("x-content-type-options", "nosniff"); ("cache-control", "no-store"); ("x-frame-options", "DENY")].
Definition unauthorized_body : Value := JObj [("error", JStr "unauthorized: valid X-Vault-Token header required")].
(** A route's layer answers before its methods are looked at; GET is the only one. *)
Definition admin_handle (auth_token : string) (r : AdminRequest) : AdminReply :=
  match find (λ p, String.eqb p.1 (aq_path r)) admin_routes with
  | None => mk_admin_reply 404 admin_security_headers BEmpty
  | Some (_, handler) =>
      if negb (require_admin_auth auth_token (aq_token r)) then mk_admin_reply 401 admin_security_headers (BValue unauthorized_body)
      else match aq_method r with
           | GET => mk_admin_reply 200 admin_security_headers (handler (resolve_request_id (aq_clock r 0%nat) (aq_request_id r)) (aq_clock r))
           | POST => mk_admin_reply 405 admin_security_headers BEmpty
           end
  end.
End service.

(* ------------------------------------------------------------------ *)
(** ** What answers may say *)

Section answers.
Context {FP FT : Frost} `{TL : TlsLib, AC : AdminContracts} {T : Type}.
Context (ft : Features) (hybrid tpm : bool) (dials probe_url : string → bool).
Local Notation Runtime := (VaultRuntime FP FT (T := T)).

(** Only the configured token gets an answer, and only from the six routes; every reply is marked. *)
Theorem admin_needs_token (rt : Runtime) token r :
  let reply := admin_handle ft hybrid tpm dials probe_url rt token r in
  ad_headers reply = admin_security_headers ∧
  (ad_status reply = 200 → aq_method r = GET ∧ aq_token r = Some token ∧
     aq_path r ∈ ["/admin/status"; "/admin/health"; "/admin/roster"; "/admin/ceremony"; "/admin/compatibility"; "/admin/audit-reference"]) ∧
  (ad_status reply ≠ 200 → ad_body reply = BEmpty ∨ ad_body reply = BValue unauthorized_body).
Proof.
  cbv zeta. unfold admin_handle, require_admin_auth. destruct (find _ _) as [[p h]|] eqn:E; cbn; [|naive_solver].
  case_bool_decide; cbn; [|naive_solver]. destruct (aq_method r) eqn:Em; cbn; [|naive_solver]. split; [done|]. split; [|done].
  intros _. split; [done|]. split; [done|]. apply find_some in E as [Hin Hp]. apply String.eqb_eq in Hp. cbn in Hp. subst p.
  apply list_elem_of_In in Hin. apply (list_elem_of_fmap_2 fst) in Hin. exact Hin.
Qed.

(** What the service reads of a node. Its shares, keysets, tokens, passphrases, seeds and stores are not in it. *)
Record AdminView := mk_admin_view {
  vw_node : NodeId; vw_ceremony : CeremonyMode; vw_dkg : DkgMode; vw_attestation : AttestationMode; vw_tee : bool;
  vw_tier : VaultNodeTier; vw_network : BitcoinNetwork; vw_auth : AuthMode; vw_store : ShareStoreMode; vw_hardened : bool;
  vw_open_economy : bool; vw_transport : VaultTransport; vw_n : nat; vw_t : nat; vw_roster : list NodeId; vw_peers : N;
  vw_online : N; vw_frost : bool; vw_frost_tr : bool; vw_channels : bool }.
Definition admin_view (rt : Runtime) : AdminView :=
  let c := rt_config _ _ rt in
  {| vw_node := cfg_node_id c; vw_ceremony := cfg_ceremony_mode c; vw_dkg := cfg_dkg_mode c; vw_attestation := cfg_attestation_mode c;
     vw_tee := cfg_tee_available c; vw_tier := cfg_node_tier c; vw_network := cfg_bitcoin_network c; vw_auth := cfg_auth_mode c;
     vw_store := cfg_share_store_mode c; vw_hardened := cfg_hardened c; vw_open_economy := cfg_open_economy c;
     vw_transport := cfg_transport c; vw_n := gk_n (group (rt_threshold _ _ rt)); vw_t := gk_t (group (rt_threshold _ _ rt));
     vw_roster := rt_genesis_roster _ _ rt; vw_peers := len (list_peers (rt_peers _ _ rt));
     vw_online := online_count dials probe_url (rt_online _ _ rt);
     vw_frost := bool_decide (is_Some (km_frost _ _ (rt_keys _ _ rt))); vw_frost_tr := bool_decide (is_Some (km_frost_tr _ _ (rt_keys _ _ rt)));
     vw_channels := bool_decide (is_Some (km_frost_tr_channels _ _ (rt_keys _ _ rt))) |}.
(** No reply tells apart two nodes of the same view, whatever their secrets are. *)
Theorem admin_tells_no_secret (rt rt' : Runtime) token r : admin_view rt = admin_view rt' →
  admin_handle ft hybrid tpm dials probe_url rt token r = admin_handle ft hybrid tpm dials probe_url rt' token r.
Proof.
  intros [= H1 H2 H3 H4 H5 H6 H7 H8 H9 H10 H11 H12 H13 H14 H15 H16 H17 H18 H19 H20].
  unfold admin_handle, admin_routes, admin_status, admin_health, admin_roster, admin_ceremony, admin_compatibility, installed,
    node_name, group_n, group_t, online, config.
  by rewrite H1, H2, H3, H4, H5, H6, H7, H8, H9, H10, H11, H12, H13, H14, H15, H16, H17, H18, H19, H20.
Qed.
End answers.

(** The id of a reply is the header's when that is one, trimmed. *)
Lemma resolve_request_id_cases now h : (∃ v, h = Some v ∧ resolve_request_id now h = trim v ∧ trim v ≠ "" ∧ str_len (trim v) ≤ 128) ∨
  resolve_request_id now h = fallback_request_id now.
Proof.
  destruct h as [v|]; [|by right]. unfold resolve_request_id. cbv zeta. destruct (String.eqb_spec (trim v) "") as [|Hne]; [by right|].
  cbn [negb andb]. destruct (N.leb_spec (str_len (trim v)) 128); [left; by exists v|by right].
Qed.
Example iso_timestamp_known : (iso_timestamp 1785400000123456789, show_hex 255, show_hex 0) = ("2026-07-30T08:26:40.123Z", "ff", "0").
Proof. vm_compute. reflexivity. Qed.

(* ------------------------------------------------------------------ *)
(** ** The socket *)

(** What is at a path: a listener's socket with its permissions, or something else. *)
Inductive SocketNode := UnixSocket (listener : N) (mode : N) | OtherFile.
Notation SocketFs := (gmap string SocketNode).
(** Why the system calls of a start fail, if they do, the permissions a socket is created with, and how the parent
    of the path prints. *)
Record SocketEnv := mk_socket_env {
  so_remove : option string; so_mkdir : option string; so_bind : option string; so_chmod : option string; so_umask_mode : N; so_parent : string }.
Definition scmd : Type → Type := cmd string SocketFs.
Definition sys (fails : option string) (t : string) (args : list string) : scmd unit :=
  match fails with Some e => fail (format t (args ++ [e])) | None => mret tt end.
(** [UnixListener::bind]: an address in use is refused. *)
Definition socket_bind (e : SocketEnv) (t : string) (args : list string) (path : string) (listener : N) : scmd unit :=
  _ ← sys (so_bind e) t args;
  s ← get;
  if bool_decide (is_Some (s !! path)) then fail (format t (args ++ ["Address already in use (os error 98)"]))
  else update <[path := UnixSocket listener (so_umask_mode e)]>.
Definition socket_chmod (path : string) (mode : N) : scmd unit :=
  update (alter (λ f, match f with UnixSocket l _ => UnixSocket l mode | OtherFile => OtherFile end) path).
(** [0o600] and [0o660]. *)
Definition owner_only : N := 384.
Definition owner_and_group : N := 432.

(** [spawn_admin_unix_socket] of [admin_api.rs], up to building the router; [listener] names its socket. *)
Definition spawn_admin_unix_socket (e : SocketEnv) (listener : N) (path : string) : scmd unit :=
  s ← get;
  _ ← (if bool_decide (is_Some (s !! path)) then
         _ ← sys (so_remove e) "failed to remove stale socket {}: {}" [path]; update (delete path)
       else mret tt);
  _ ← sys (so_mkdir e) "failed to create socket directory {}: {}" [so_parent e];
  _ ← socket_bind e "failed to bind Unix socket {}: {}" [path] path listener;
  _ ← sys (so_chmod e) "failed to set socket permissions on {}: {}" [path];
  socket_chmod path owner_only.
(** [remove_stale_admin_socket] and [serve_admin_socket] of [main.rs]. *)
Definition remove_stale_admin_socket (e : SocketEnv) (path : string) : scmd unit :=
  s ← get;
  match s !! path with
  | Some OtherFile => fail (format "refusing to replace non-socket admin path {}" [path])
  | Some (UnixSocket _ _) => _ ← sys (so_remove e) "{}" []; update (delete path)
  | None => mret tt
  end.
Definition serve_admin_socket (e : SocketEnv) (listener : N) (path : string) : scmd unit :=
  _ ← remove_stale_admin_socket e path;
  _ ← sys (so_mkdir e) "{}" [];
  _ ← socket_bind e "{}" [] path listener;
  _ ← sys (so_chmod e) "{}" [];
  socket_chmod path owner_and_group.
Definition admin_socket_path (vars : string → option string) : option string :=
  v ← vars "VAULT_ADMIN_UNIX_SOCKET"; if String.eqb v "" then None else Some v.

(** How [main]'s start of the administration interface ends. *)
Inductive AdminStart := AdminRunning | AdminExit (e : string) | AdminPanic.
Definition admin_start (e e' : SocketEnv) (config : VaultConfig) (vars : string → option string) (s : SocketFs) : SocketFs * AdminStart :=
  let serve s :=
    match admin_socket_path vars with
    | Some path => match serve_admin_socket e' 2 path s with
                   | (s', Ok _) => (s', if effective_vault_token config then AdminRunning else AdminPanic)
                   | (s', Err err) => (s', AdminExit err)
                   end
    | None => (s, AdminRunning)
    end in
  match cfg_admin_unix_socket_path config with
  | Some path =>
      match spawn_admin_unix_socket e 1 path s with
      | (s', Ok _) => match effective_vault_token config with Some _ => serve s' | None => (s', AdminPanic) end
      | (s', Err err) => (s', AdminExit err)
      end
  | None => serve s
  end.

Lemma socket_bind_free e t args path l s : so_bind e = None → s !! path = None →
  socket_bind e t args path l s = (<[path := UnixSocket l (so_umask_mode e)]> s, Ok tt).
Proof.
  intros Hb Hs. unfold socket_bind, sys, mbind, cmd_bind, get, update, mret, cmd_ret. by rewrite Hb, Hs, bool_decide_eq_false_2 by (by intros [? ?]).
Qed.
Lemma socket_chmod_own path l m m' (s : SocketFs) :
  socket_chmod path m' (<[path := UnixSocket l m]> s) = (<[path := UnixSocket l m']> s, Ok tt).
Proof. unfold socket_chmod, update. by rewrite alter_insert_eq. Qed.
Definition no_failure (e : SocketEnv) : Prop := so_remove e = None ∧ so_mkdir e = None ∧ so_bind e = None ∧ so_chmod e = None.
(** The first listener takes whatever is at the path with it, a socket or not. *)
Lemma spawn_takes_path e l path s : no_failure e →
  spawn_admin_unix_socket e l path s = (<[path := UnixSocket l owner_only]> s, Ok tt).
Proof.
  intros (Hr & Hm & Hb & Hc). unfold spawn_admin_unix_socket, sys. rewrite Hr, Hm, Hc.
  unfold mbind at 1, cmd_bind at 1, get at 1. case_bool_decide as Hs.
  - unfold mbind, cmd_bind, mret, cmd_ret, update at 1. rewrite socket_bind_free by (done || apply lookup_delete_eq).
    by rewrite socket_chmod_own, insert_delete_eq.
  - unfold mbind, cmd_bind, mret, cmd_ret. rewrite socket_bind_free by (done || (apply eq_None_not_Some; done)).
    by rewrite socket_chmod_own.
Qed.
Lemma serve_takes_socket e l l' m path s : no_failure e → s !! path = Some (UnixSocket l' m) →
  serve_admin_socket e l path s = (<[path := UnixSocket l owner_and_group]> s, Ok tt).
Proof.
  intros (Hr & Hm & Hb & Hc) Hs. unfold serve_admin_socket, remove_stale_admin_socket, sys. rewrite Hr, Hm, Hc.
  unfold mbind, cmd_bind, get. rewrite Hs. cbn. rewrite socket_bind_free by (done || apply lookup_delete_eq).
  by rewrite socket_chmod_own, insert_delete_eq.
Qed.

(** Finding: with the variable set, both interfaces start on the one path. The first deletes what is there, be it
    another file, which the second was written to refuse; the second then takes the socket over, so that what answers
    at the path is the group-writable one and the owner-only listener is unreachable. *)
Theorem admin_socket_shadowed e e' config vars path token s : no_failure e → no_failure e' →
  vars "VAULT_ADMIN_UNIX_SOCKET" = Some path → path ≠ "" → cfg_admin_unix_socket_path config = Some path →
  effective_vault_token config = Some token →
  admin_start e e' config vars s = (<[path := UnixSocket 2 owner_and_group]> s, AdminRunning).
Proof.
  intros He He' Hv Hp Hc Ht. unfold admin_start, admin_socket_path. rewrite Hc, Hv, Ht, spawn_takes_path by done. cbn.
  destruct (String.eqb_spec path "") as [|_]; [done|]. erewrite serve_takes_socket by (done || apply lookup_insert_eq).
  by rewrite insert_insert_eq.
Qed.
(** Finding: a production node has no token unless one is configured, which mTLS does not need, and then the
    interface takes the process down. *)
Theorem admin_panics_without_token e e' config vars path s : no_failure e → cfg_admin_unix_socket_path config = Some path →
  cfg_vault_token config = None → lab_defaults_apply config = false →
  (admin_start e e' config vars s).2 = AdminPanic.
Proof.
  intros He Hc Ht Hl. unfold admin_start. rewrite Hc, spawn_takes_path by done. unfold effective_vault_token. by rewrite Ht, Hl.
Qed.
