(* ===== verification/WireToy.v ===== *)
(** * Concrete externals for witnesses

    A hex codec, key generation of a sum of numbers, and a share store that is a
    map: instances of the classes of Frost.v for which their laws hold. *)
From S2P Require Import Prelude RustStr RustParse Errors Identity Frost HybridEnvelope WireDkg FrostShares ShareReshare FrostSign.
Local Open Scope N_scope.

(** A digit's value. *)
Definition hex_val (a : ascii) : option N :=
  let n := byte_n a in
  if (48 <=? n) && (n <=? 57) then Some (n - 48) else if (97 <=? n) && (n <=? 102) then Some (n - 87) else None.
Fixpoint unhex (s : string) : result string bytes :=
  match s with
  | EmptyString => Ok []
  | String.String a (String.String b r) =>
      match hex_val a, hex_val b with
      | Some x, Some y => l ← unhex r; Ok (Ascii.ascii_of_N (16 * x + y) :: l)
      | _, _ => Err "invalid character"
      end
  | _ => Err "odd length"
  end.

Fixpoint toy_hex_encode (l : bytes) : string :=
  match l with [] => EmptyString | a :: r => String.String (hex_digit (byte_n a / 16)) (String.String (hex_digit (byte_n a mod 16)) (toy_hex_encode r)) end.

#[local] Instance toy_hex : HexCodec := {| hex_encode := toy_hex_encode; hex_decode := unhex |}.

Lemma hex_val_digit n : n < 16 → hex_val (hex_digit n) = Some n.
Proof.
  intros Hn. assert (∀ k, (k < 16)%nat → hex_val (hex_digit (N.of_nat k)) = Some (N.of_nat k)) as H.
  { intros k Hk. do 16 (destruct k as [|k]; [reflexivity|]). lia. }
  rewrite <- (N2Nat.id n). apply H. lia.
Qed.

#[local] Instance toy_hex_spec : HexSpec.
Proof.
  split; intros b; simpl.
  - induction b as [|a b IH]; [done|]. cbn -[hex_digit is_lower_hexdigit N.div N.modulo byte_n].
    assert (byte_n a < 256) by apply Ascii.N_ascii_bounded.
    rewrite !hex_digit_lower; [done|apply N.mod_lt; lia|apply N.Div0.div_lt_upper_bound; lia].
  - induction b as [|a b IH]; [done|]. rewrite len_cons. unfold str_len in *. simpl. lia.
  - induction b as [|a b IH]; [done|]. cbn [toy_hex_encode unhex].
    assert (byte_n a < 256) by apply Ascii.N_ascii_bounded.
    rewrite !hex_val_digit; [|apply N.mod_lt; lia|apply N.Div0.div_lt_upper_bound; lia].
    rewrite <- N.div_mod by lia. rewrite IH. simpl. unfold byte_n. by rewrite Ascii.ascii_N_embedding.
Qed.

(* ------------------------------------------------------------------ *)
(** ** Key generation of a sum *)

Definition letters (c : ascii) (n : N) : bytes := replicate (N.to_nat n) c.
Definition unary : N → bytes := letters "x"%char.
Definition count (c : ascii) (l : bytes) : N := len (filter (λ a, a = c) l).
Definition toy_total (m : gmap N N) : N := map_fold (λ _ v acc, v + acc) 0 m.

#[local] Instance toy_frost : Frost := {|
  Identifier := N;
  id_leb := N.leb;
  id_try_from v := if v =? 0 then Err "Malformed identifier is unserializable." else Ok v;
  id_serialize i := unary (i + 1);
  id_debug := λ v, show v;
  Rng := N;
  Round1Secret := N * N * N;
  Round1Package := N;
  Round2Secret := N * N * N;
  Round2Package := N;
  KeyPackage := N * N;
  PublicKeyPackage := N * N * N;
  VerifyingKey := N;
  r1_serialize p := Ok (unary p);
  r1_deserialize b := Ok (len b);
  r2_serialize p := Ok (unary p);
  r2_deserialize b := Ok (len b);
  kp_serialize k := Ok (letters "a"%char k.1 ++ letters "b"%char k.2);
  pk_serialize k := Ok (letters "a"%char k.1.1 ++ letters "b"%char k.1.2 ++ letters "c"%char k.2);
  kp_min_signers k := k.1;
  pk_min_signers k := Some k.1.1;
  pk_max_signers k := k.1.2;
  verifying_key k := k.2;
  vk_serialize v := Ok (unary v);
  part1 i n t r := if (2 <=? t) && (t <=? n) then Ok ((n, t, r), r) else Err "bad parameters";
  part2 s m := Ok (s, (λ _, s.2) <$> m);
  part3 s r1 r2 := Ok ((s.1.2, s.2), (s.1.2, s.1.1, s.2 + toy_total r1));
|}.

Lemma len_unary n : len (unary n) = n.
Proof. unfold len, unary, letters. rewrite length_replicate. lia. Qed.

#[local] Instance toy_frost_codec : FrostCodec.
Proof.
  split; simpl; try by (intros; eexists; rewrite ?len_unary; eauto).
  - intros v Hv. exists v. destruct (N.eqb_spec v 0); [lia|done].
  - intros v w i _ _. destruct (v =? 0), (w =? 0); try done. congruence.
Qed.

Lemma toy_total_delete (m : gmap N N) i v : m !! i = Some v → toy_total m = v + toy_total (delete i m).
Proof.
  intros Hm. unfold toy_total. apply (map_fold_delete_L (λ _ (v acc : N), v + acc)); [|done]. intros. lia.
Qed.

#[local] Instance toy_frost_dkg : FrostDkg.
Proof.
  split; simpl.
  - intros i n t r Hn. rewrite (proj2 (N.leb_le 2 t)), (proj2 (N.leb_le t n)) by lia. by eexists.
  - intros n t own Hn Hsz Hown.
    assert (∀ i sp, own !! i = Some sp → sp = ((n, t, sp.2), sp.2)) as Hsp.
    { intros i sp Hi. destruct (Hown i sp Hi) as [r Hr]. destruct (_ && _); [|done]. by injection Hr as <-. }
    exists (map_imap (λ i sp, Some (sp.1, (λ _, sp.1.2) <$> delete i (snd <$> own))) own), (t, n, toy_total (snd <$> own)).
    split_and!; [| | |by left|done].
    + apply set_eq. intros i. rewrite !elem_of_dom, map_lookup_imap. destruct (own !! i); simpl; [by eauto|].
      split; by intros [? ?].
    + intros i sp so Hi Ho. rewrite map_lookup_imap, Hi in Ho. simpl in Ho. injection Ho as <-.
      split; [done|]. simpl. rewrite dom_fmap_L, dom_delete_L, dom_fmap_L. done.
    + intros i so Ho. rewrite map_lookup_imap in Ho. destruct (own !! i) as [sp|] eqn:Hi; [|done].
      simpl in Ho. injection Ho as <-. simpl. exists (t, sp.2). split; [|done].
      rewrite (Hsp i sp Hi) at 1 2 3 4 5. simpl. do 3 f_equal. symmetry. apply toy_total_delete. by rewrite lookup_fmap, Hi.
Qed.

Lemma count_app c l k : count c (l ++ k) = count c l + count c k.
Proof. unfold count. by rewrite filter_app, len_app. Qed.
Lemma count_letters c d n : count c (letters d n) = if decide (d = c) then n else 0.
Proof.
  unfold count, letters. case_decide as Hd.
  - subst. rewrite <- (N2Nat.id n) at 2. generalize (N.to_nat n) as k. induction k as [|k IH]; [done|].
    simpl replicate. rewrite filter_cons_True by done. rewrite len_cons, IH. lia.
  - generalize (N.to_nat n) as k. induction k as [|k IH]; [done|]. simpl replicate. by rewrite filter_cons_False.
Qed.

#[local] Instance toy_storage : FrostStorage := {|
  id_deserialize b := Ok (len b - 1);
  kp_deserialize b := Ok (count "a"%char b, count "b"%char b);
  pk_deserialize b := Ok (count "a"%char b, count "b"%char b, count "c"%char b);
|}.
#[local] Instance toy_storage_spec : FrostStorageSpec.
Proof.
  split; simpl.
  - intros i. unfold unary, letters. rewrite N.add_1_r, N2Nat.inj_succ. done.
  - intros i. rewrite len_unary. f_equal. lia.
  - intros [a b]. eexists. split; [done|]. simpl. rewrite !count_app, !count_letters. simpl. do 2 f_equal; lia.
  - intros [[a b] c]. eexists. split; [done|]. simpl. rewrite !count_app, !count_letters. simpl. do 3 f_equal; lia.
Qed.
(** Negation and tweak do nothing to a sum. *)
#[local] Instance toy_even_y : EvenY := {|
  kp_even_y k := k; pk_even_y k := k; kp_tweak k := k; pk_tweak k := k;
|}.

(** A refresh that adds one to each share. *)
#[local] Instance toy_refresh : FrostRefresh toy_frost.
Proof.
  exact {| refresh_dkg_part1 i n t r := Ok ((n, t, r), r) : result string (@Round1Secret toy_frost * @Round1Package toy_frost);
           refresh_dkg_part2 s m := Ok (s, (λ _, s.2) <$> m);
           refresh_dkg_shares s r1 r2 pk kp := Ok ((kp.1, kp.2 + 1), pk) |}.
Defined.

(* ------------------------------------------------------------------ *)
(** ** Signatures that name their message *)

Fixpoint bits (p : positive) : bytes :=
  match p with xH => [] | xO p => "0"%char :: bits p | xI p => "1"%char :: bits p end.
Fixpoint unbits (l : bytes) : positive :=
  match l with [] => xH | a :: r => if Ascii.eqb a "0" then xO (unbits r) else xI (unbits r) end.
Lemma unbits_bits p : unbits (bits p) = p.
Proof. induction p as [p IH|p IH|]; simpl; by rewrite ?IH. Qed.

#[local] Instance toy_sign : FrostSign := {|
  SigningNonces := N;
  SigningCommitments := N;
  SigningPackage := gmap N N * bytes;
  SignatureShare := N;
  Signature := bytes;
  round1_commit kp r := (r, r);
  sc_serialize c := Ok (unary c);
  sc_deserialize b := Ok (len b);
  sp_new c m := (c, m);
  sp_commitments p := p.1;
  sp_message p := p.2;
  sp_serialize p := Ok (bits (encode p));
  sp_deserialize b := match decode (unbits b) with Some p => Ok p | None => Err "malformed package" end;
  round2_sign p n kp := Ok n;
  ss_serialize s := unary s;
  ss_deserialize b := Ok (len b);
  aggregate p shares pk := if bool_decide (dom shares = dom p.1) then Ok p.2 else Err "unknown signer";
  sig_serialize s := Ok s;
  vk_verify vk m s := if bool_decide (s = m) then Ok tt else Err "invalid signature";
|}.
#[local] Instance toy_sign_spec : FrostSignSpec.
Proof.
  refine {| keyset := λ kps pk t, pk.1.1 = t |}; try done.
  - intros c. eexists. split; [done|]. simpl. by rewrite len_unary.
  - intros p. eexists. split; [done|]. simpl. by rewrite unbits_bits, decode_encode.
  - intros s. simpl. by rewrite len_unary.
  - intros s. by eexists.
  - intros kps pk t own m _ _ _. exists (fst <$> own), m. simpl. rewrite !dom_fmap_L. split; [done|]. split.
    + intros i nc kp Hi _. exists nc.1. split; [done|]. by rewrite lookup_fmap, Hi.
    + by rewrite !bool_decide_true.
Defined.

(* ------------------------------------------------------------------ *)
(** ** A store that always works *)

#[local] Instance toy_store : ShareStore (gmap string bytes) := {|
  put_share id b := update <[id := b]>;
  get_share id := λ s, (s, ok_or (s !! id) (ThresholdError (format "no share {}" [id])));
|}.
#[local] Instance toy_store_spec : ShareStoreSpec (gmap string bytes).
Proof.
  refine {| working := λ _, True; share_at := λ s id, s !! id |}.
  - intros s id b _. eexists. split; [done|]. split; [done|]. intros i. simpl.
    destruct (decide (i = id)) as [->|]; [by rewrite lookup_insert_eq|by rewrite lookup_insert_ne].
  - intros s id b Hs. simpl. by rewrite Hs.
Defined.
