(* ===== verification/KeyExamples.v ===== *)
(** * Runs of the key ceremonies and of the share refreshes on concrete externals *)
From S2P Require Import Prelude RustStr RustParse Errors Identity DayEpoch Bucket Constitution Ledger Economy Frost HybridEnvelope WireDkg WireRoster.
From S2P Require Import WireHub AuthIdentity FrostShares WireDkgMesh WireDkgRun TrWire ShareReshare ReshareWire WireToy.
Local Open Scope N_scope.

(* ------------------------------------------------------------------ *)
(** ** Runs of the over-wire ceremony on concrete externals

    Witnesses of the theorems about [adapters/dkg_wire.rs], and three behaviours
    they leave room for: a start that races another, rosters a comma makes alike, a
    session that is stuck once [part2] failed. *)

#[local] Existing Instance toy_sha256.
#[local] Existing Instance toy_hex.
#[local] Existing Instance toy_hex_spec.
#[local] Existing Instance toy_frost.
#[local] Existing Instance toy_frost_codec.
#[local] Existing Instance toy_frost_dkg.
#[local] Existing Instance toy_storage.
#[local] Existing Instance toy_storage_spec.
#[local] Existing Instance toy_even_y.
#[local] Existing Instance toy_store.
#[local] Existing Instance toy_store_spec.

Definition start_request (nodes : list string) : DkgStartRequest := mk_start "s" (len nodes) 2 nodes.

Lemma transcript_freezes_constitution_witness : ∃ R R' t,
  start_check plain_suite (start_request ["b"; "a"; "c"]) = Ok (R, t) ∧
  start_check plain_suite (start_request [" a "; "b"; "c"]) = Ok (R', t) ∧
  ((3 = 3 ∧ 2 = 2 ∧ R = R') ∨ sha256_clash (λ b,
     b = bytes_of (request_text plain_suite (start_request ["b"; "a"; "c"]) R) ∨
     b = bytes_of (request_text plain_suite (start_request [" a "; "b"; "c"]) R'))).
Proof.
  assert (match start_check plain_suite (start_request ["b"; "a"; "c"]), start_check plain_suite (start_request [" a "; "b"; "c"]) with
    | Ok (R, t), Ok (R', t') => bool_decide (t' = t) && bool_decide (bt_keys R = ["a"; "b"; "c"])
    | _, _ => false end = true) as Hc by (vm_compute; reflexivity).
  destruct (start_check plain_suite (start_request ["b"; "a"; "c"])) as [[R t]|e] eqn:E; [|done].
  destruct (start_check plain_suite (start_request [" a "; "b"; "c"])) as [[R' t']|e] eqn:E'; [|done].
  nbool. destruct Hc as [-> Hk].
  exists R, R', t. split; [done|]. split; [done|].
  destruct (transcript_freezes_constitution plain_suite (start_request ["b"; "a"; "c"]) (start_request [" a "; "b"; "c"])
    R R' t E E' eq_refl) as [H _]; [|exact H].
  intros node Hn%elem_of_bt_keys. rewrite Hk in Hn. unfold comma_free, no_char.
  repeat (apply elem_of_cons in Hn as [->|Hn]; [by vm_compute|]). by apply elem_of_nil in Hn.
Defined.

(* ------------------------------------------------------------------ *)
(** ** A hub's session over some calls *)

Definition pair_request : DkgStartRequest := start_request ["a"; "b"].
Definition toy_hub (x : string) : WireDkgHub * gmap string bytes := (hub_new x, ∅).

Lemma hub_never_drifts_witness :
  let p := (on_hub (start plain_suite pair_request 5) (toy_hub "a")).1 in
  let q := (on_hub (take_round2_outbound plain_suite "s") p).1 in
  ∃ s s', sessions p.1 !! "s" = Some s ∧ sessions q.1 !! "s" = Some s' ∧
    min_signers s = 2 ∧ constitution s' = constitution s.
Proof.
  intros p q. assert (min_signers <$> sessions p.1 !! "s" = Some 2) as Hm by (vm_compute; reflexivity).
  destruct (sessions p.1 !! "s") as [s|] eqn:E; [|discriminate Hm]. injection Hm as Hm.
  destruct (hub_never_drifts plain_suite plain_sink (λ k, k) (λ k, k) plain_sink_form p q "s" s) as (s' & Hs' & Hc & _);
    [apply steps_one, HC_take|exact E|].
  exists s, s'. split; [reflexivity|]. split; [exact Hs'|]. split; [exact Hm|exact Hc].
Defined.

(* ------------------------------------------------------------------ *)
(** ** A mesh of two vaults *)

Notation toy_mesh := (Mesh (T := gmap string bytes)).

Definition act_start (x : string) (r : N) (m : toy_mesh) : toy_mesh :=
  match nodes m !! x with
  | Some n => let r := on_hub (start plain_suite pair_request r) n in say1 r.2 (set_node x r.1 m)
  | None => m
  end.
Definition act_round1 (x : string) (i : nat) (m : toy_mesh) : toy_mesh :=
  match nodes m !! x, sent1 m !! i with
  | Some n, Some msg => set_node x (on_hub (ingest_round1 plain_suite msg) n).1 m
  | _, _ => m
  end.
Definition act_round2 (x : string) (i : nat) (m : toy_mesh) : toy_mesh :=
  match nodes m !! x, sent2 m !! i with
  | Some n, Some msg => set_node x (on_hub (ingest_round2 plain_suite msg) n).1 m
  | _, _ => m
  end.
Definition act_take (x : string) (m : toy_mesh) : toy_mesh :=
  match nodes m !! x with
  | Some n => let r := on_hub (take_round2_outbound plain_suite "s") n in say2 r.2 (set_node x r.1 m)
  | None => m
  end.
Definition act_finalize (x : string) (m : toy_mesh) : toy_mesh :=
  match nodes m !! x with Some n => set_node x (finalize_round3 plain_suite "s" n).1 m | None => m end.

Ltac mesh_act := intros; unfold act_start, act_round1, act_round2, act_take, act_finalize; repeat case_match;
  try apply steps_refl; apply steps_one.
Lemma act_start_steps x r m : steps (mesh_step plain_suite plain_sink) m (act_start x r m).
Proof. mesh_act. by apply M_start. Qed.
Lemma act_round1_steps x i m : steps (mesh_step plain_suite plain_sink) m (act_round1 x i m).
Proof. mesh_act. apply M_round1; [done|left; by eapply list_elem_of_lookup_2]. Qed.
Lemma act_round2_steps x i m : steps (mesh_step plain_suite plain_sink) m (act_round2 x i m).
Proof. mesh_act. apply M_round2; [done|left; by eapply list_elem_of_lookup_2]. Qed.
Lemma act_take_steps x m : steps (mesh_step plain_suite plain_sink) m (act_take x m).
Proof. mesh_act. by apply M_take. Qed.
Lemma act_finalize_steps x m : steps (mesh_step plain_suite plain_sink) m (act_finalize x m).
Proof. mesh_act. by apply M_finalize. Qed.

(** Both start, announce, exchange their packages and finalize. *)
Definition mesh0 : toy_mesh := mk_mesh {["a" := toy_hub "a"; "b" := toy_hub "b"]} [] [].
Definition mesh_run (m : toy_mesh) : toy_mesh :=
  act_finalize "b" (act_finalize "a" (act_round2 "a" 0 (act_round2 "b" 1 (act_take "b" (act_take "a"
    (act_round1 "b" 1 (act_round1 "a" 0 (act_start "b" 7 (act_start "a" 5 m))))))))).
Lemma mesh_run_steps m : steps (mesh_step plain_suite plain_sink) m (mesh_run m).
Proof.
  eapply steps_trans; [|apply act_finalize_steps]. eapply steps_trans; [|apply act_finalize_steps].
  eapply steps_trans; [|apply act_round2_steps]. eapply steps_trans; [|apply act_round2_steps].
  eapply steps_trans; [|apply act_take_steps]. eapply steps_trans; [|apply act_take_steps].
  eapply steps_trans; [|apply act_round1_steps]. eapply steps_trans; [|apply act_round1_steps].
  eapply steps_trans; [apply act_start_steps|apply act_start_steps].
Qed.

Definition complete_at (m : toy_mesh) (x : string) : bool :=
  match nodes m !! x with
  | Some n => match sessions n.1 !! "s" with
              | Some s => bool_decide (phase s = Complete) && bool_decide (bt_keys (roster s) = ["a"; "b"])
              | None => false
              end
  | None => false
  end.
Lemma complete_at_spec m x : complete_at m x = true → ∃ n s, nodes m !! x = Some n ∧
  sessions n.1 !! "s" = Some s ∧ phase s = Complete ∧ bt_keys (roster s) = ["a"; "b"].
Proof.
  unfold complete_at. destruct (nodes m !! x) as [n|]; [|done]. destruct (sessions n.1 !! "s") as [s|] eqn:Es; [|done].
  intros H. nbool. destruct_and?. nbool. by exists n, s.
Qed.
Lemma mesh_run_complete : complete_at (mesh_run mesh0) "a" = true ∧ complete_at (mesh_run mesh0) "b" = true.
Proof. split; vm_compute; reflexivity. Qed.


(* ------------------------------------------------------------------ *)
(** ** A run of one vault of three *)


Lemma tr_ceremony_loads_witness : ∃ R tr (msg1 : string → option Round1WireMessage) (pk : PublicKeyPackage),
  start_check tr_suite (start_request ["a"; "b"]) = Ok (R, tr) ∧
  ∀ x id, R !! x = Some id → ∃ h st0 msg,
    tr_start (start_request ["a"; "b"]) (str_len x) (hub_new x) = (h, Ok (st0, msg)) ∧ msg1 x = Some msg.
Proof.
  assert (is_ok (start_check tr_suite (start_request ["a"; "b"])) = true) as Hc by (vm_compute; reflexivity).
  destruct (start_check tr_suite (start_request ["a"; "b"])) as [[R tr]|e] eqn:E; [|done].
  destruct (tr_ceremony_loads (T := gmap string bytes) (start_request ["a"; "b"]) R tr str_len E)
    as (msg1 & out2 & pk & Hall).
  exists R, tr, msg1, pk. split; [reflexivity|]. intros x id Hx.
  destruct (Hall x id Hx) as (h & st0 & msg & Hs & Hm & _). exists h, st0, msg. split; assumption.
Defined.

(** Two keysets in one store. *)
Definition toy_keyset (a b : N) : FrostTrShareState :=
  mk_share_state {[1 := (2, a); 2 := (2, b)]} (2, 2, a + b) 2.
Lemma tr_shares_round_trip_witness : ∃ s1 s2,
  persist_tr_shares (toy_keyset 3 4) (∅ : gmap string bytes) = (s1, Ok tt) ∧
  persist_tr_channels_shares (toy_keyset 5 6) s1 = (s2, Ok tt) ∧
  load_tr_shares s2 = (s2, Ok (toy_keyset 3 4)) ∧ load_tr_channels_shares s2 = (s2, Ok (toy_keyset 5 6)).
Proof.
  destruct (tr_shares_round_trip (toy_keyset 3 4) (toy_keyset 5 6) (∅ : gmap string bytes))
    as (s1 & s2 & H1 & H2 & H3 & H4 & _);
    [exact Logic.I|apply insert_non_empty|apply insert_non_empty|by vm_compute|by vm_compute|].
  exists s1, s2. split; [exact H1|]. split; [exact H2|]. split; [exact H3|exact H4].
Defined.

(* ------------------------------------------------------------------ *)
(** ** What the hub does not exclude *)

(** Two starts that both find no session: the second insert replaces the first session,
    whose announcement was already handed out. *)
Definition raced_start (r1 r2 : N) (h : WireDkgHub) : WireDkgHub * option (Round1WireMessage * Round1WireMessage) :=
  match start_plan plain_suite pair_request r1 h, start_plan plain_suite pair_request r2 h with
  | Ok p1, Ok p2 =>
      let o1 := start_commit "s" p1 h in
      let o2 := start_commit "s" p2 o1.1 in
      (o2.1, match o1.2, o2.2 with Ok (_, m1), Ok (_, m2) => Some (m1, m2) | _, _ => None end)
  | _, _ => (h, None)
  end.
Example start_race_loses_announcement :
  let r := raced_start 5 7 (hub_new "a") in
  (λ s, round1_packages s !! local_identifier s) <$> sessions r.1 !! "s" = Some (Some 7) ∧
  (λ m, (r1_deserialize <$> hex_decode (r1m_package_hex m.1), r1_deserialize <$> hex_decode (r1m_package_hex m.2))) <$> r.2
    = Some (Ok (Ok 5), Ok (Ok 7)).
Proof. split; vm_compute; reflexivity. Qed.

(** Names with commas: two different rosters, one transcript. *)
Example comma_rosters_share_transcript :
  match start_check plain_suite (start_request ["a,b"; "c"]), start_check plain_suite (start_request ["a"; "b,c"]) with
  | Ok (R, t), Ok (R', t') => bool_decide (t = t') && negb (bool_decide (bt_keys R = bt_keys R'))
  | _, _ => false
  end = true.
Proof. vm_compute. reflexivity. Qed.

(* ------------------------------------------------------------------ *)
(** ** Runs of the share refreshes on concrete externals: witnesses of ShareReshare.v and
    ReshareWire.v. *)

#[local] Existing Instance toy_sha256.
#[local] Existing Instance toy_hex.
#[local] Existing Instance toy_hex_spec.
#[local] Existing Instance toy_frost.
#[local] Existing Instance toy_frost_codec.
#[local] Existing Instance toy_storage.
#[local] Existing Instance toy_storage_spec.
#[local] Existing Instance toy_refresh.
#[local] Existing Instance toy_store.
#[local] Existing Instance toy_store_spec.
#[local] Instance toy_sha3 : Sha3 := toy_sha256.

Definition lab_keyset (a b : N) : FrostTrShareState := mk_share_state {[1 := (2, a); 2 := (2, b)]} (2, 2, a + b) 2.
Definition lab_hook : PolicyReshareHook := mk_hook Daily (lab_node "a") None true.
Definition lab_rng : HookRng toy_frost toy_frost := mk_hook_rng toy_frost toy_frost (λ i, i) (λ i, i) (λ i, i).
Definition lab_hook_state (l : LedgerState) : HookState toy_frost toy_frost (T := gmap string bytes) :=
  mk_hook_state toy_frost toy_frost (Some (lab_keyset 3 4)) (Some (lab_keyset 5 6)) None (Some ∅)
    {| eco := demo_economy; led := l |}.

Lemma reshare_keeps_groups_witness : ∃ c l,
  v1_open 3 = Ok c ∧ ledger_genesis c lab_nodes (lab_node "a") = Ok l ∧
  let r := trigger_manual toy_frost toy_frost lab_hook lab_rng "ops" (lab_hook_state l) in
  is_ok r.2 = true ∧ slot_kept same_group (Some (lab_keyset 5 6)) (hs_tr _ _ r.1).
Proof.
  eexists _, _. split; [vm_compute; reflexivity|]. split; [vm_compute; reflexivity|]. intros r.
  split; [vm_compute; reflexivity|].
  pose proof (reshare_keeps_groups toy_frost toy_frost lab_hook _ _
    (steps_one _ _ _ (HK_manual toy_frost toy_frost lab_hook lab_rng "ops" _ : hook_call _ _ _ (lab_hook_state _) r.1))) as H.
  destruct H as (_ & H & _). exact H.
Defined.

(* ------------------------------------------------------------------ *)
(** ** A wire refresh whose peer numbers its messages as the roster does *)

Definition lab_reshare : ReshareStartRequest := mk_reshare_start "r" 2 2 ["a"; "b"] "2026-01-01" "c".
Definition reshare_node := (WireReshareHub * gmap string bytes)%type.
Definition reshare0 : reshare_node := (reshare_hub_new "a", ∅).
Definition session_transcript_of (p : reshare_node) : string :=
  match rh_sessions p.1 !! "r" with Some s => rs_transcript_hex s | None => "" end.
Definition reshare_p : reshare_node := ((reshare_start lab_reshare (2, 2, 12) (Some (2, 5)) 8 reshare0.1).1, ∅).
Definition reshare_q : reshare_node :=
  let tr := session_transcript_of reshare_p in
  let h1 := (reshare_ingest_round1 (mk_rr1 "r" "b" 2 2 2 "2026-01-01" tr (hex_encode (unary 9)) None) reshare_p.1).1 in
  let h2 := (reshare_ingest_round2 (mk_rr2 "r" "b" 2 "a" 1 tr (hex_encode (unary 9)) None) h1).1 in
  (reshare_finalize "r" (h2, reshare_p.2)).1.

Lemma reshare_q_steps : steps reshare_call reshare_p reshare_q.
Proof.
  unfold reshare_q. destruct reshare_p as [h t].
  eapply steps_trans; [|apply steps_one, RC_finalize]. eapply steps_trans; [|apply steps_one, RC_round2].
  apply steps_one, RC_round1.
Qed.

Lemma wire_reshare_keeps_key_witness : ∃ s', rh_sessions reshare_q.1 !! "r" = Some s' ∧
  rs_phase s' = ReshareComplete ∧ ∃ pk, rs_new_pubkey_package s' = Some pk ∧ verifying_key pk = 12.
Proof.
  assert (match rh_sessions reshare_p.1 !! "r" with Some s => bool_decide (verifying_key (rs_old_pubkey_package s) = 12) | None => false end = true) as Hp
    by (vm_compute; reflexivity).
  assert (match rh_sessions reshare_q.1 !! "r" with Some s => bool_decide (rs_phase s = ReshareComplete) | None => false end = true) as Hq
    by (vm_compute; reflexivity).
  destruct (rh_sessions reshare_p.1 !! "r") as [s|] eqn:Es; [|discriminate Hp]. apply bool_decide_eq_true in Hp.
  destruct (wire_reshare_keeps_key "a" ∅ reshare_p reshare_q "r" s (steps_one _ _ _ (RC_start _ _ _ _ _ _)) reshare_q_steps Es)
    as (s' & Hs' & _ & Hc). exists s'. split; [exact Hs'|]. rewrite Hs' in Hq. apply bool_decide_eq_true in Hq. split; [exact Hq|].
  destruct (Hc Hq) as (kp & pk & _ & H2 & _ & H4). exists pk. split; [exact H2|]. rewrite H4. exact Hp.
Defined.
