(* ===== verification/SignExamples.v ===== *)
(** * Runs of the co-signing and of Taproot signing on concrete externals *)
From S2P Require Import Prelude RustStr RustParse Errors Identity DayEpoch Bucket Psbt PersistedLedger AntiNonce DailyRotation Frost HybridEnvelope WireDkg.
From S2P Require Import WireRoster FrostShares ShareReshare FrostSign Cosign CosignMesh TrSign WireToy.
Local Open Scope N_scope.

(* ------------------------------------------------------------------ *)
(** ** Concrete runs of the co-signing *)

Existing Instances toy_hex toy_hex_spec toy_frost toy_frost_codec toy_storage toy_storage_spec toy_even_y toy_sign toy_sign_spec.

Definition toy_pk : @PublicKeyPackage toy_frost := (2, 3, 6).
Definition share_at_vault (i : N) : FrostTrShareState := mk_share_state {[i := (2, i)]} toy_pk 2.
Definition ids (x : string) : N := if decide (x = "v1") then 1 else if decide (x = "v2") then 2 else 3.
Definition toy_msg : bytes := bytes_of "sighash".
Definition peer2 : TrCosignPeerState (A:=AntiNonce) := cosign_peer_new "v2" (Some (share_at_vault 2)).
Definition open_disk : Io * N * N := (IoOk, 0, 0).

(** A session is opened twice and asked for a share three times: the second opening replaces the
    first, and only one share is given out. *)
Definition toy_package : string := hex_encode (bits (encode (({[2 := 8; 1 := 5]} : gmap N N), toy_msg))).
Definition peer_calls : list (peer_call (Env:=Io * N * N)) :=
  [CallCommit 7 (mk_commit_request "s" (hex_encode toy_msg) "v1"); CallCommit 8 (mk_commit_request "s" (hex_encode toy_msg) "v1");
   CallSignShare open_disk (mk_share_request "s" toy_package ["v2"]);
   CallSignShare open_disk (mk_share_request "s" toy_package ["v2"]);
   CallSignShare open_disk (mk_share_request "s" toy_package [])].

Lemma nonces_sign_once_witness : ∃ s' opened answered,
  peer_run peer_calls peer2 = (s', opened, answered) ∧ length opened = 2%nat ∧ length answered = 1%nat ∧
  answered.*1 ⊆+ opened.*2.
Proof.
  destruct (peer_run peer_calls peer2) as [[s' opened] answered] eqn:E. exists s', opened, answered.
  assert ((length (peer_run peer_calls peer2).1.2, length (peer_run peer_calls peer2).2) = (2%nat, 1%nat)) as H
    by (vm_compute; reflexivity).
  rewrite E in H. cbn [fst snd] in H. injection H as H1 H2.
  split; [reflexivity|]. split; [assumption|]. split; [assumption|].
  exact (proj1 (nonces_sign_once peer_calls peer2 s' opened answered eq_refl E)).
Defined.

Definition net3 : MeshNet (Env:=Io * N * N) := {|
  mn_peers := ["v2"; "v3"]; mn_rngs := λ x, 10 + ids x; mn_envs := λ _, open_disk;
  mn_http_error := λ _ e, e; mn_no_answer := λ x, ThresholdError x |}.
Definition peer3 : TrCosignPeerState (A:=AntiNonce) := cosign_peer_new "v3" (Some (share_at_vault 3)).
Definition peers3 : gmap string (TrCosignPeerState (A:=AntiNonce)) :=
  {["v2" := peer2; "v3" := peer3]}.

Lemma wire_quorum_signs_witness : ∃ m' a,
  sign_raw_wire_attributed (TP:=http_transport net3) (Some (share_at_vault 1)) 4 "v1" "s" toy_msg peers3 = (m', Ok a) ∧
  aw_participant_node_ids a = ["v1"; "v2"].
Proof.
  destruct (wire_quorum_signs (FR:=toy_frost) (A:=AntiNonce) net3 "v1" ids (λ x, (2, ids x)) 4
    {[1 := (2, 1); 2 := (2, 2); 3 := (2, 3)]} toy_pk 2) with
    (slot := Some (share_at_vault 1)) (sid := "s") (msg := toy_msg) (m := peers3) as (m' & a & H & _).
  - apply (bool_decide_unpack _). vm_compute. exact I.
  - intros x y Hx Hy. repeat (apply elem_of_cons in Hx as [->|Hx]); [..|by apply elem_of_nil in Hx];
      repeat (apply elem_of_cons in Hy as [->|Hy]); try (by apply elem_of_nil in Hy); vm_compute; congruence.
  - intros x Hx. repeat (apply elem_of_cons in Hx as [->|Hx]); [reflexivity..|by apply elem_of_nil in Hx].
  - reflexivity.
  - lia.
  - vm_compute. discriminate.
  - reflexivity.
  - intros x Hx. repeat (apply elem_of_cons in Hx as [->|Hx]); [exists peer2|exists peer3|by apply elem_of_nil in Hx];
      (split; [reflexivity|]); (split; [reflexivity|split; reflexivity]).
  - exists m', a. split; [exact H|].
    assert (match (sign_raw_wire_attributed (TP:=http_transport net3) (Some (share_at_vault 1)) 4 "v1" "s" toy_msg peers3).2 with
            | Ok a => bool_decide (aw_participant_node_ids a = ["v1"; "v2"]) | Err _ => false end = true) as Hb
      by (vm_compute; reflexivity).
    rewrite H in Hb. cbn [snd] in Hb. exact (bool_decide_eq_true_1 _ Hb).
Defined.

(* ------------------------------------------------------------------ *)
(** ** A concrete Taproot signature

    Three vaults of a 2-of-3 keyset sign a PSBT with one deposit input, an intent
    output and change. *)

Existing Instances toy_hex toy_hex_spec toy_frost toy_frost_codec toy_storage toy_storage_spec toy_even_y toy_sign toy_sign_spec.
Existing Instances toy_sha256 toy_addresses example_weight.

Definition tr_pk : @PublicKeyPackage toy_frost := (2, 3, 32).
Definition tr_share (i : N) : FrostTrShareState := mk_share_state {[i := (2, i)]} tr_pk 2.
Definition deposit_script : bytes := "P"%char :: unary 32.

Definition deposit_psbt : Psbt := {|
  psbt_ins := [{| prev_vout := 0; sequence := 4294967293;
                  witness_utxo := Some {| value := 10000; out_script := deposit_script |};
                  non_witness_utxo := None; tap_key_sig := None |}];
  psbt_outs := [{| value := 9000; out_script := bytes_of "tb1ptest" |}; {| value := 500; out_script := deposit_script |}];
  lock_time := 0;
|}.
#[local] Instance toy_taproot : TaprootLib := {|
  XOnly := bytes;
  xonly_from_slice := Ok;
  xonly_serialize x := x;
  tap_tweak x := x;
  p2tr_script x := "P"%char :: x;
  is_p2tr s := match s with a :: _ => Ascii.eqb a "P" | [] => false end;
  p2tr_address x n := str_of x;
  psbt_parse s := if String.eqb s "psbt" then Ok deposit_psbt else Err "bad magic";
  psbt_text p := join "," (map (λ p, str_of (default [] (tap_key_sig p))) (psbt_ins p));
  taproot_sighash p i prev := Ok (unary (N.of_nat i + 7));
  schnorr_from_slice := Ok;
|}.

Definition tr_peer (x : string) (i : N) : TrCosignPeerState (A:=AntiNonce) := cosign_peer_new x (Some (tr_share i)).
Definition tr_net : MeshNet (Env:=Io * N * N) := {|
  mn_peers := ["v2"; "v3"]; mn_rngs := λ _, 1; mn_envs := λ _, (IoOk, 0, 0);
  mn_http_error := λ _ e, e; mn_no_answer := λ x, ThresholdError x |}.
Definition tr_orchestrator : FrostTrBitcoinOrchestrator :=
  mk_orchestrator (Some (tr_share 1)) Testnet3 false "v1" true psbt_lab_defaults.
Definition tr_env : SignEnv (AEnv:=Io * N * N) := mk_sign_env (IoOk, 0, 0) 0 0 (λ _, 1) (λ _ _, 1).
Definition tr_node : SignNode (A:=AntiNonce) (M:=gmap string (TrCosignPeerState (A:=AntiNonce))) :=
  mk_sign_node (an_open None) (rotation_open 0 1 "v1" false None None) {["v2" := tr_peer "v2" 2; "v3" := tr_peer "v3" 3]}.
Definition tr_sign (s : SignNode) := sign_psbt (TP:=http_transport tr_net) tr_orchestrator tr_env "i:1" " psbt " "tb1ptest" 9000 s.

Lemma signed_psbt_pays_intent_witness : ∃ r, (tr_sign tr_node).2 = Ok r ∧ payments (bytes_of "tb1ptest") (outs_of deposit_psbt) =
  [(bytes_of "tb1ptest", 9000)] ∧ length (sp_signatures r) = 1%nat.
Proof.
  destruct (tr_sign tr_node) as [s' r] eqn:E.
  assert (match (tr_sign tr_node).2 with Ok r => length (sp_signatures r) =? 1 | Err _ => false end%nat = true) as Hb
    by (vm_compute; reflexivity).
  rewrite E in Hb. cbn [snd] in Hb. destruct r as [r|]; [|discriminate Hb]. exists r.
  destruct (signed_psbt_pays_intent tr_orchestrator tr_env "i:1" " psbt " "tb1ptest" 9000 tr_node s' r E)
    as (snap & our & psbt & spk & prevouts & ins & _ & _ & Hp & Hd & _ & (_ & Hpay & _) & _).
  assert (psbt_parse (trim " psbt ") = Ok deposit_psbt) as Hp2 by (vm_compute; reflexivity).
  assert (destination_script_pubkey (o_network tr_orchestrator) "tb1ptest" = Ok (bytes_of "tb1ptest")) as Hd2
    by (vm_compute; reflexivity).
  rewrite Hp2 in Hp. injection Hp as <-. rewrite Hd2 in Hd. injection Hd as <-.
  split; [reflexivity|]. split; [exact Hpay|]. exact (proj1 (Nat.eqb_eq _ _) Hb).
Defined.

(** The same session id twice: the second call is refused. *)
Lemma session_signs_once_witness : ∃ s' ids,
  sign_run (TP:=http_transport tr_net) tr_orchestrator
    [CallSignPsbt tr_env "i:1" "psbt" "tb1ptest" 9000; CallSignPsbt tr_env "i:1" "psbt" "tb1ptest" 9000;
     CallSignSighash tr_env "i:2" (unary 32)] tr_node = (s', ids) ∧ ids = ["i:1"; "i:2"] ∧ NoDup ids.
Proof.
  match goal with |- ∃ s' ids, ?run = _ ∧ _ => destruct run as [s' ids] eqn:E; exists s', ids;
    assert (bool_decide (run.2 = ["i:1"; "i:2"]) = true) as Hb by (vm_compute; reflexivity) end.
  rewrite E in Hb. cbn [snd] in Hb. split; [reflexivity|]. split; [exact (bool_decide_eq_true_1 _ Hb)|].
  exact (proj1 (session_signs_once _ _ _ _ _ E)).
Defined.
