(* ===== verification/HttpExamples.v ===== *)
(** * Concrete configurations, and requests to the HTTP surface *)
From S2P Require Import Prelude RustStr RustParse Errors Identity DayEpoch Bucket Psbt BucketLedger PersistedLedger Constitution AntiNonce Ledger NodeTier.
From S2P Require Import Economy Gate Release DailyRotation LabField Threshold Frost HybridEnvelope WireDkg WireRoster WireHub AuthIdentity FrostShares RateLimit ShareReshare.
From S2P Require Import FrostSign Cosign CosignMesh TrSign HttpPeer PeerTrust ConfigEnv Config HttpRoute HttpTreasury HttpSettle Health HttpMesh HttpDkg.
From S2P Require Import HttpLegacy PeerFanout PeerLink WireToy SignExamples.
Local Open Scope N_scope.

(* ------------------------------------------------------------------ *)
(** ** Concrete configurations: a production ceremony that starts, and one that is not hardened *)

(** No node directory: the peers come from the environment. *)
#[local] Instance no_directory : NodeDirectory := {|
  node_membership := λ _ _ _, Ok None; node_not_found := "404"; Url := unit; url_parse := λ _, None;
  url_scheme := λ _, ""; url_host := λ _, None; url_username := λ _, ""; url_password := λ _, None;
  url_query := λ _, None; url_fragment := λ _, None; url_root_at := λ _ _, None |}.

Definition env_of (l : list (string * string)) (name : string) : option string :=
  snd <$> find (λ p, String.eqb p.1 name) l.
Definition release_build : Features := mk_features false false false.
Definition no_file (path : string) : result string bytes := Err "not found".

(** The settings of a production ceremony between two onion vaults. *)
Definition ceremony_env : list (string * string) :=
  [("VAULT_CEREMONY_MODE", "production"); ("VAULT_NODE_ID", "vault-1"); ("VAULT_DKG_MODE", "distributed_wire");
   ("VAULT_AUTH_MODE", "mtls"); ("VAULT_MEASUREMENT_PIN", "ab"); ("VAULT_AUDIT_PUBKEY_ALLOWLIST", "aa11");
   ("VAULT_SOCKS_PROXY", "127.0.0.1:9050"); ("VAULT_SEED_PEERS", "vault-2=https://abc.onion:7701");
   ("VAULT_TLS_CERT_PATH", "s.pem"); ("VAULT_TLS_KEY_PATH", "s.key"); ("VAULT_TLS_CLIENT_CA_PATH", "ca.pem");
   ("VAULT_TLS_CLIENT_CERT_PATH", "c.pem"); ("VAULT_TLS_CLIENT_KEY_PATH", "c.key");
   ("LAB_ATTESTATION_ROOT", "/srv/vault"); ("VAULT_DATA_PASSPHRASE", "correct horse")].
Definition hardened_ceremony_env := ("KEROSENE_ENV", "production") :: ceremony_env.

Definition boot (l : list (string * string)) : res VaultConfig :=
  from_env release_build (env_of l) (λ _, false) no_file.

Lemma boot_ok l : is_ok (boot l) = true → ∃ c, boot l = Ok c.
Proof. destruct (boot l); [eauto|done]. Qed.

Lemma production_ceremony_locked_witness : ∃ c,
  boot hardened_ceremony_env = Ok c ∧ cfg_ceremony_mode c = CmProduction ∧ cfg_transport c = Tor ∧ cfg_auth_mode c = MutualTls.
Proof.
  destruct (boot hardened_ceremony_env) as [c|] eqn:E.
  - assert (match boot hardened_ceremony_env with Ok c => bool_decide (cfg_ceremony_mode c = CmProduction) | Err _ => false end
      = true) as H by (vm_compute; reflexivity).
    rewrite E in H. apply bool_decide_eq_true in H. exists c.
    destruct (production_ceremony_locked _ _ _ _ c E H) as (_ & _ & (Ha & _) & _ & (Ht & _) & _). repeat split; assumption.
  - exfalso. assert (is_ok (boot hardened_ceremony_env) = true) as H by (vm_compute; reflexivity). rewrite E in H. discriminate.
Defined.

(** The same settings without [KEROSENE_ENV]: the ceremony is a production ceremony, but the
    vault is not hardened, so the lab endpoints answer and the release timelock has scale 0. *)
Lemma production_ceremony_unhardened :
  match boot ceremony_env with
  | Ok c => cfg_ceremony_mode c = CmProduction ∧ cfg_hardened c = false ∧ lab_endpoints_enabled c = true
            ∧ effective_lab_timelock_scale c = 0
  | Err _ => False
  end.
Proof. vm_compute. repeat split. Qed.
(** [KEROSENE_ENV=prod] is a production ceremony to [CeremonyMode::parse] and a lab to the hardening flag. *)
Lemma prod_is_not_production :
  ceremony_parse "prod" = Some CmProduction ∧ hardened_env release_build (env_of [("KEROSENE_ENV", "prod")]) = false.
Proof. split; vm_compute; reflexivity. Qed.

(* ------------------------------------------------------------------ *)
(** ** Concrete requests to the HTTP surface *)

Existing Instances toy_hex toy_hex_spec toy_frost toy_frost_codec toy_storage toy_storage_spec toy_even_y toy_sign toy_sign_spec.
Existing Instances toy_store toy_sha256 toy_addresses example_weight toy_taproot.

#[local] Instance toy_json : SerdeJson := {|
  js_string s := quoted s;
  js_object l := "{" +:+ join "," ((λ p : string * string, quoted p.1 +:+ ":" +:+ p.2) <$> l) +:+ "}";
  js_array l := "[" +:+ join "," l +:+ "]";
|}.
#[local] Instance toy_sha384 : Sha384 := λ _, replicate 48 "x"%char.

(** The first pattern that is the path, else the first catch-all whose prefix it has. *)
Definition covers_b (pattern path : string) : bool :=
  match catch_all_prefix pattern with Some prefix => starts_with prefix path | None => String.eqb path pattern end.
#[local] Instance toy_router : AxumRouter := {| matched_path pats path := find (λ p, covers_b p path) pats |}.
#[local] Instance toy_router_spec : AxumRouterSpec.
Proof.
  split. intros pats path p [Hin Hc]%find_some. split; [by apply list_elem_of_In|].
  unfold covers, covers_b in *. destruct (catch_all_prefix p); [done|]. by apply String.eqb_eq.
Qed.

(** A PSBT request of the exchange with its certificate. *)
Definition kfe_request : HttpRequest :=
  mk_request POST "/v1/bitcoin/sign-psbt" None None None (Some (Ok (["spiffe://kerosene.lab/kfe"], []))).

Lemma handlers_guarded_witness : ∃ c auth p l',
  boot hardened_ceremony_env = Ok c ∧ build_auth c = Ok auth ∧
  admit_request c auth 0 kfe_request auth_defaults = (l', Ok (Some (HBitcoinSignPsbt, p))) ∧ role p = Kfe.
Proof.
  assert (match boot hardened_ceremony_env with
          | Ok c => match build_auth c with
                    | Ok auth => match (admit_request c auth 0 kfe_request auth_defaults).2 with
                                 | Ok (Some (h, _)) => bool_decide (h = HBitcoinSignPsbt)
                                                       && bool_decide (cfg_auth_mode c = MutualTls)
                                 | _ => false end
                    | Err _ => false end
          | Err _ => false end = true) as H by (vm_compute; reflexivity).
  destruct (boot hardened_ceremony_env) as [c|]; [|discriminate]. destruct (build_auth c) as [auth|] eqn:Ha; [|discriminate].
  destruct (admit_request c auth 0 kfe_request auth_defaults) as [l' [[[h p]|]|]] eqn:Hr; try discriminate.
  cbn [snd] in H. apply andb_true_iff in H as [->%bool_decide_eq_true Hm%bool_decide_eq_true].
  exists c, auth, p, l'. split; [reflexivity|]. split; [exact Ha|]. split; [exact Hr|].
  pose proof (handlers_guarded c auth 0 kfe_request auth_defaults l' HBitcoinSignPsbt p Ha Hr) as Hg.
  rewrite Hm in Hg. destruct Hg as (_ & _ & Hk & _). exact (Hk eq_refl).
Defined.

(* ------------------------------------------------------------------ *)
(** ** Money *)

Definition http_env : HttpEnv (FR:=toy_frost) (AEnv:=Io * N * N) (Env:=N * N) :=
  mk_http_env (10, 10) (11, 11) tr_env 3 2 1.
Definition http_ledgers : option (VaultConfig * LedgerState) :=
  match boot hardened_ceremony_env, (c ← v1_open 3; ledger_genesis c lab_nodes (lab_node "a")) with
  | Ok c, Ok l => Some (c, l)
  | _, _ => None
  end.
Definition http_rt (c : VaultConfig) : HttpRuntime := mk_http_runtime c (MtlsAuth false) (Some tr_orchestrator) None.
Definition open_buckets : BucketState :=
  (mem_admit_destinations Users ["tb1ptest"] (from_constitution_caps 10000 50000)).1.
Definition http_node (l : LedgerState) :=
  mk_treasury {| buckets := open_buckets; node := {| eco := demo_economy; led := l |} |} tr_node.

Definition psbt_body (session : string) (intent : option string) (commit : bool) : BitcoinPsbtBody :=
  mk_psbt_body session "psbt" intent None (Some "tb1ptest") (Some 9000) commit.
Definition intent_body (id : string) (amount : N) : IntentBody :=
  mk_intent_body id "USERS" "tb1ptest" amount (Some (hex_encode (replicate 64 "s"%char))) (Some "ab") None None.
Definition http_psbt (c : VaultConfig) (body : BitcoinPsbtBody) :=
  handle (v1_bitcoin_sign_psbt (TP:=http_transport tr_net) (http_rt c) http_env (Ok body)).

Lemma open_buckets_caps (k : BucketKind) (p : BucketPolicy) : policies open_buckets !! k = Some p → max_per_day_sats p < u64_max.
Proof.
  intros H. assert (match policies open_buckets !! k with Some p => max_per_day_sats p <=? 50000 | None => true end = true) as Hb
    by (destruct k; vm_compute; reflexivity).
  rewrite H in Hb. apply N.leb_le in Hb. eapply N.le_lt_trans; [exact Hb|reflexivity].
Qed.


(** One intent settled by a PSBT, offered again under another session and as a reservation; a
    second one executed. *)
Definition money_calls : list (money_call (A:=AntiNonce) (M:=gmap string (TrCosignPeerState (A:=AntiNonce)))) :=
  [MSignPsbt http_env (Ok (psbt_body "i:1" None true)); MSignPsbt http_env (Ok (psbt_body "i:2" (Some "i:1") true));
   MReserve http_env (Ok (intent_body "i:1" 500)); MIntent http_env (Ok (intent_body "x:1" 500));
   MIntent http_env (Ok (intent_body "x:1" 500))].

(** A hold of 5 satoshis lets two transactions of 9000 be signed: with [commit_intent = false] the
    held bucket, destination and amount are not compared, and the hold stays. *)
Lemma reservation_signs_anything : match http_ledgers with
  | Some (c, l) =>
      let held := (handle (v1_intent_reserve (http_rt c) http_env (Ok (intent_body "h:1" 5))) (http_node l)).1 in
      let once := http_psbt c (psbt_body "i:1" (Some "h:1") false) held in
      let again := http_psbt c (psbt_body "i:2" (Some "h:1") false) once.1 in
      match once.2, again.2 with Replied (a, _), Replied (b, _) => a = OK ∧ b = OK | _, _ => False end
  | None => False
  end.
Proof. vm_compute. split; reflexivity. Qed.

(** A signature of fewer than 64 bytes panics the handler. *)
Lemma short_signature_panics : match http_ledgers with
  | Some (c, l) => (handle (v1_intent (M:=gmap string (TrCosignPeerState (A:=AntiNonce))) (A:=AntiNonce) (http_rt c) http_env
      (Ok (mk_intent_body "x:1" "USERS" "tb1ptest" 500 (Some "abab") (Some "ab") None None))) (http_node l)).2 = Panicked
  | None => False
  end.
Proof. vm_compute. reflexivity. Qed.

(* ------------------------------------------------------------------ *)
(** ** Key generation *)

#[local] Instance toy_mesh_json : MeshJson := {| js_status _ := "status"; js_round1 _ := "round1"; js_round2 _ := "round2"; debug_strings _ := "names" |}.
Definition seated_pair : list string := ["vault-1"; "vault-2"].
Definition pair_transcript : string :=
  match build_roster plain_suite seated_pair with Ok R => session_transcript plain_suite "s" 2 2 R | Err _ => "" end.
Definition start_body : Round1Body := mk_round1_body "s" None None None false None None None None.
Definition package_body : Round1Body :=
  mk_round1_body "s" None (Some 2) (Some 2) false (Some "vault-2") (Some 2) (Some pair_transcript) (Some (hex_encode (unary 7))).
Definition package2_body : Round2Body :=
  mk_round2_body "s" false false (Some "vault-2") (Some 2) (Some "vault-1") (Some 1) (Some pair_transcript) (Some (hex_encode (unary 9))).
(** The empty body starts the session, any other carries a package of vault-2. *)
#[local] Instance toy_bodies : DkgBodies := {|
  parse_round1 b := Ok (if len b =? 0 then start_body else package_body);
  parse_round2 _ := Ok package2_body; parse_round3 _ := Err "expected value" |}.
Definition vault_request (cert : string) (body : bytes) : DkgRequest :=
  mk_dkg_request (mk_request POST "/v1/dkg/round1" None None None (Some (Ok (["spiffe://kerosene.lab/vault/" +:+ cert], []))))
    body None 0 (Ok tt).
(** A stranger's package is turned away before vault-2's is taken. *)
Definition dkg_requests : list (@Rng toy_frost * DkgRequest) :=
  [(5, vault_request "vault-2" []); (6, vault_request "vault-3" (unary 1)); (6, vault_request "vault-1" (unary 1));
   (7, vault_request "vault-2" (unary 1))].
Definition dkg_node : Limited (DkgNode (T:=gmap string bytes)) :=
  (auth_defaults, mk_dkg_node (hub_new "vault-1") (hub_new "vault-1") ∅).
Definition dkg_result (c : VaultConfig) := serve_all c (MtlsAuth false) seated_pair dkg_requests dkg_node.

Lemma dkg_inputs_authenticated_witness : match boot hardened_ceremony_env with
  | Ok c => ∃ x, sessions (hub_at false (dkg_result c).2) !! "s" = Some x ∧ round1_packages x !! (2 : N) = Some (7 : N) ∧
              posted (posts1 c false "s") r1_deserialize x dkg_requests (2 : N) (7 : N)
  | Err _ => False
  end.
Proof.
  assert (match boot hardened_ceremony_env with
          | Ok c => bool_decide (cfg_auth_mode c = MutualTls) && not_lab c &&
                    match sessions (hub_at false (dkg_result c).2) !! "s" with
                    | Some x => bool_decide (round1_packages x !! (2 : N) = Some (7 : N)) && negb (bool_decide ((2 : N) = local_identifier x))
                    | None => false end
          | Err _ => false end = true) as H by (vm_compute; reflexivity).
  destruct (boot hardened_ceremony_env) as [c|]; [|discriminate].
  destruct (sessions (hub_at false (dkg_result c).2) !! "s") as [x|] eqn:Hx; [|by rewrite andb_false_r in H].
  apply andb_true_iff in H as [[Hm Hl]%andb_true_iff [Hp Hi]%andb_true_iff].
  apply bool_decide_eq_true in Hm, Hp. apply negb_true_iff, bool_decide_eq_false in Hi.
  exists x. split; [reflexivity|]. split; [exact Hp|].
  destruct (dkg_inputs_authenticated c (MtlsAuth false) seated_pair Hm Hl dkg_requests dkg_node false "s" x) as (_ & H1 & _).
  - intros [|]; reflexivity.
  - exact Hx.
  - exact (H1 _ _ Hp Hi).
Defined.

(** The link of vault-2 to vault-1, over a network that loses the first request and the second answer; a package
    of each round arrives all the same. *)
#[local] Instance status_digits : StatusText := λ n, show n.
Definition link_two : HubLink := mk_link "vault-2" {["vault-1" := "https://abc.onion:7701"]}
  (WireMutualTls "c.pem" "c.key" "ca.pem" (Spiffe ["spiffe://kerosene.lab/vault/vault-1"])) tor_defaults.
Definition as_vault_two (path : string) : HttpRequest :=
  mk_request POST path None None None (Some (Ok (["spiffe://kerosene.lab/vault/vault-2"], []))).
Definition heard_by_one (req : PeerRequest) : option (string * HttpRequest * bytes) :=
  if bool_decide (pr_url req = "https://abc.onion:7701/v1/dkg/round1") then Some ("vault-1", as_vault_two "/v1/dkg/round1", bytes_of (pr_body req))
  else if bool_decide (pr_url req = "https://abc.onion:7701/v1/dkg/round2") then Some ("vault-1", as_vault_two "/v1/dkg/round2", bytes_of (pr_body req))
  else None.
Definition storm (t : N) : Weather :=
  if t =? 0 then mk_weather [("vault-1", (5, vault_request "vault-2" []))] None false
  else mk_weather [] (Some (7, 0, Ok tt)) (negb (t =? 1)).
Local Notation posted_to c := (dkg_send (λ _, c) (λ _, MtlsAuth false) (λ _, seated_pair) heard_by_one storm (λ _, SendFailed "")).
Local Notation at_start := ({["vault-1" := dkg_node]}, 0).
Local Notation first_fanout c := (fanout_round1 (posted_to c) (routes_of false) link_two "package" at_start).
Local Notation second_fanout c w := (fanout_round2 (posted_to c) (routes_of false) link_two [("vault-1", "package")] w).

(* ------------------------------------------------------------------ *)
(** ** The old routes *)

Definition legacy_seats : list NodeId := [mk_node_id "vault-1"; mk_node_id "vault-2"; mk_node_id "vault-3"].
Definition legacy_start : res (VaultConfig * LedgerState * TState) :=
  c ← boot hardened_ceremony_env;
  k ← v1_open 3;
  l ← ledger_genesis k legacy_seats (mk_node_id "vault-1");
  '(g, shares) ← run_dkg legacy_seats 2 (bytes_of "e");
  share ← ok_or (head shares) InvalidNodeId;
  Ok (c, l, threshold_new g share shares).
Definition legacy_rt (c : VaultConfig) : LegacyRuntime :=
  mk_legacy_runtime c (MtlsAuth false) (health_with_roster (cfg_node_id c) ∅ Software Domestic false []).
Definition legacy_node (l : LedgerState) (t : TState) : LegacyNode (St:=BucketState) :=
  mk_legacy {| buckets := open_buckets; node := {| eco := demo_economy; led := l |} |} (release_mesh_new (release_lab_default 3)) t.
Definition legacy_env : LegacyEnv (Env:=N * N) := mk_legacy_env 100 101 (10, 10) 2 (λ _, false) (λ _, false).
Definition legacy_requests : list (LegacyEnv (Env:=N * N) * string * string) :=
  [(legacy_env, "POST", "/epoch/propose/p1"); (legacy_env, "POST", "/release/propose/r1/source/a,b,c,d,e");
   (legacy_env, "GET", "/ledger"); (legacy_env, "POST", "/sign/s1/m1"); (legacy_env, "DELETE", "/ledger");
   (legacy_env, "POST", "/economy/accrue/1000"); (legacy_env, "POST", "/release/propose/../r1")].

Lemma legacy_surface_safe_witness : match legacy_start with
  | Ok (c, l, t) =>
      let s' := legacy_run (legacy_rt c) legacy_requests (legacy_node l t) in
      is_Some (proposals (led (node (lg_gate s'))) !! "p1") ∧ is_Some (candidates (lg_mesh s') !! "r1") ∧
      rel_inv (release_lab_default 3) (hash (Ledger.constitution l)) (releases_of s') ∧ ledger_inv (led (node (lg_gate s')))
  | Err _ => False
  end.
Proof.
  assert (match legacy_start with
          | Ok (c, l, t) =>
              let s' := legacy_run (legacy_rt c) legacy_requests (legacy_node l t) in
              bool_decide (is_Some (proposals (led (node (lg_gate s'))) !! "p1"))
              && bool_decide (is_Some (candidates (lg_mesh s') !! "r1"))
          | Err _ => false end = true) as H by (vm_compute; reflexivity).
  destruct legacy_start as [[[c l] t]|] eqn:E; [|discriminate]. cbv zeta in *.
  apply andb_true_iff in H as [H1%bool_decide_eq_true H2%bool_decide_eq_true].
  assert (ledger_inv l) as Hl.
  { unfold legacy_start in E. apply bind_ok in E as (c0 & _ & E). apply bind_ok in E as (k & _ & E).
    apply bind_ok in E as (l0 & Hg & E). apply bind_ok in E as ([g shares] & _ & E).
    apply bind_ok in E as (sh & _ & E). injection E as _ <- _. by apply genesis_inv in Hg as (? & _). }
  split; [exact H1|]. split; [exact H2|].
  destruct (proj2 (legacy_surface_safe (legacy_rt c)) legacy_requests (release_lab_default 3) (hash (Ledger.constitution l)) (legacy_node l t))
    as (Hr & Hi & _); [exact (rel_inv_new (release_lab_default 3) {| eco := demo_economy; led := l |})|exact Hl|]. split; [exact Hr|exact Hi].
Defined.
