(* ===== verification/ShareExamples.v ===== *)
(** * Runs of the sealed stores on concrete externals

    Witnesses of the theorems about [adapters/share_aead.rs], [adapters/share_tee.rs],
    [adapters/share_tpm.rs] and [adapters/attestation_tee], and what the passphrase's
    envelope leaves to a crash. *)
From S2P Require Import Prelude RustStr RustParse Errors Identity HybridEnvelope ConfigEnv Frost WireToy.
From S2P Require Import DurableFs SealedStore ShareAead TeeAttestation ShareTee ShareTpm.
Local Open Scope N_scope.

#[local] Existing Instance toy_sha256.
#[local] Existing Instance toy_sha256_spec.
#[local] Existing Instance toy_hex.
#[local] Existing Instance toy_hex_spec.

(** A cipher that appends a tag of its key, nonce and additional data. *)
Definition toy_pad (n : nat) (b : bytes) : bytes := take n (b ++ replicate n "0"%char).
Definition toy_tag (k n a : bytes) : bytes := toy_pad 16 (a ++ n ++ k).
#[local] Instance toy_seal : SealLib := {|
  argon2_32 _ _ _ pass salt := Ok (toy_pad 32 (salt ++ pass));
  chacha_encrypt k n a m := Some (m ++ toy_tag k n a);
  chacha_decrypt k n a c :=
    if bool_decide (drop (length c - 16) c = toy_tag k n a) then Some (take (length c - 16) c) else None |}.
Lemma length_toy_pad n b : length (toy_pad n b) = n.
Proof. unfold toy_pad. rewrite length_take, length_app, length_replicate. lia. Qed.
#[local] Instance toy_seal_spec : SealSpec.
Proof.
  assert (∀ k n a (m : bytes), length (m ++ toy_tag k n a) - 16 = length m)%nat as Hl.
  { intros k n a m. rewrite length_app. unfold toy_tag. rewrite length_toy_pad. lia. }
  split; unfold chacha_encrypt, chacha_decrypt, toy_seal.
  - intros k n a m c [= <-]. rewrite Hl, drop_app_length, take_app_length. by rewrite bool_decide_true.
  - intros k n a m c [= <-]. rewrite len_app. unfold len at 2, toy_tag. by rewrite length_toy_pad.
  - intros k n a a' m m' c [= <-]. rewrite Hl, drop_app_length, take_app_length. case_bool_decide; congruence.
Qed.
#[local] Instance toy_raw : Sha256Raw := toy_pad 32.

(** A guest whose report is its report data, marked. *)
#[local] Instance toy_snp : SnpLib := {|
  SnpReport := bytes;
  snp_device := true;
  snp_request_raw d := if len d <? 1000 then Ok ("R"%char :: d) else Err "too long";
  snp_from_reader r := match r with x :: d => if Ascii.eqb x "R" then Ok d else Err "no report" | [] => Err "empty" end;
  snp_report_data d := d;
  snp_verify _ := Ok true;
  snp_derived_key := Ok (replicate 32 "k"%char) |}.
#[local] Instance toy_snp_spec : SnpSpec.
Proof.
  split. intros d r. unfold snp_request_raw, toy_snp. destruct (len d <? 1000) eqn:E; [|done]. intros [= <-]. nbool.
  split; [done|]. split; [rewrite len_cons; lia|]. by exists d.
Qed.

Definition toy_pin : Measurement := measurement_from_bytes (bytes_of "pin").
Definition hw_build : Features := mk_features true false true.
(** A production adapter on SEV hardware. *)
Definition toy_tee : TeeAttestationAdapter := mk_tee AttSev false true (bytes_of "root") toy_pin [].

Lemma tee_quotes_bound_witness : ∃ q env, tee_issue_quote hw_build toy_tee toy_pin = Ok q ∧ tee_verify_quote hw_build toy_tee q = Ok tt
  ∧ quote_measurement q = toy_pin ∧ hw_decode (quote_blob q) = Ok env ∧ report_bound toy_pin (he_report env).
Proof.
  assert (is_ok (tee_issue_quote hw_build toy_tee toy_pin) = true) as Hi by (vm_compute; reflexivity).
  destruct (tee_issue_quote hw_build toy_tee toy_pin) as [q|] eqn:E; [|discriminate]. exists q.
  destruct (tee_quotes_bound hw_build AttSev false true (bytes_of "root") toy_pin [] toy_tee q) as [Hv Hown];
    [reflexivity|reflexivity|vm_compute; reflexivity|].
  specialize (Hown toy_pin E). destruct (Hv Hown) as (_ & Hm & _ & [(H & _)|(_ & _ & env & Hd & _ & _ & Hr)]); [discriminate|].
  exists env. split; [reflexivity|]. by split; [|split; [|split]].
Defined.

(* ------------------------------------------------------------------ *)
(** ** Stores *)

Definition toy_put : PutEnv := mk_put_env None (replicate 16 "s"%char) (replicate 12 "n"%char) fs_works.
Lemma toy_put_wf : put_env_wf toy_put.
Proof. by split. Qed.
(** A put whose rename fails. *)
Definition failing_put : PutEnv := mk_put_env None (replicate 16 "t"%char) (replicate 12 "n"%char) (mk_fs_env None None None None (Some "no") None None).
Definition toy_stored (id : string) (b : bytes) : Prop := (id, b) = ("a", bytes_of "1") ∨ (id, b) = ("a", bytes_of "2") ∨ (id, b) = ("b", bytes_of "3").

(** One share put, put again in vain, then another share. *)
Definition toy_run (S : SealedStore) : Fs :=
  (sealed_put S failing_put "a" (bytes_of "2") (sealed_put S toy_put "a" (bytes_of "1") toy_dir).1).1.
Lemma toy_run_steps S : steps (sealed_step S toy_stored) toy_dir (toy_run S).
Proof.
  eapply steps_cons; [apply (sealed_put_step S toy_stored toy_dir toy_put "a" (bytes_of "1")); [by split|by left]|].
  apply steps_one, (sealed_put_step S toy_stored _ failing_put "a" (bytes_of "2")); [by split|by right; left].
Qed.
Lemma toy_crash S s : sealed_other_step S toy_stored "b" s (power_cut (fs_dir s) s).
Proof. apply sealed_other_crash, crash_power_cut. by left. Qed.

Definition toy_aead : AeadDiskShareStore := aead_new "d" "pass".
Definition toy_aead_run : Fs := toy_run (aead_sealed toy_aead).


Definition toy_tee_store : TeeSealAdapter := mk_tee_seal "d" (Hw AttSev) toy_pin (Some (tee_port hw_build toy_tee)).
Definition toy_tee_run : Fs := toy_run (tee_sealed hw_build toy_tee_store).

Lemma tee_shares_attested_witness : ∃ s1,
  tee_get hw_build toy_tee_store None "a" toy_tee_run = (toy_tee_run, Ok (bytes_of "1")) ∧ tl_measurement toy_tee_store = toy_pin ∧
  tee_put toy_tee_store toy_put "b" (bytes_of "3") toy_tee_run = (s1, Ok tt) ∧
  tee_get hw_build toy_tee_store None "b" (power_cut (fs_dir s1) s1) = (power_cut (fs_dir s1) s1, Ok (bytes_of "3")).
Proof.
  set (s1 := (tee_put toy_tee_store toy_put "b" (bytes_of "3") toy_tee_run).1). exists s1.
  assert (tl_root toy_tee_store ≠ "") as Hr by discriminate.
  destruct (tee_shares_attested hw_build toy_tee_store AttSev false true (bytes_of "root") toy_pin [] toy_tee toy_stored (Some true) toy_tee_run
    eq_refl eq_refl eq_refl Hr (toy_run_steps _)) as [H1 H2].
  assert (tee_get hw_build toy_tee_store None "a" toy_tee_run = (toy_tee_run, Ok (bytes_of "1"))) as Hg by (vm_compute; reflexivity).
  assert (tee_put toy_tee_store toy_put "b" (bytes_of "3") toy_tee_run = (s1, Ok tt)) as Hp by (vm_compute; reflexivity).
  split; [exact Hg|]. split; [exact (proj1 (proj2 (H1 _ _ _ _ Hg)))|]. split; [exact Hp|].
  refine (H2 toy_put "b" (bytes_of "3") s1 _ toy_put_wf _ _ _ Hp (steps_one _ _ _ (toy_crash _ s1))).
  - right. right. reflexivity.
  - vm_compute. reflexivity.
  - vm_compute. reflexivity.
Defined.

(* ------------------------------------------------------------------ *)
(** ** The passphrase *)

Definition toy_tpm_env : TpmEnv := mk_tpm_env (replicate 16 "s"%char) (replicate 12 "n"%char) None None None None.
Definition toy_boot : Fs := (resolve_aead_passphrase toy_tpm_env "d" (Some "secret") (tpm_port false TpmMock) false toy_dir).1.

Lemma tpm_passphrase_sealed_witness :
  resolve_aead_passphrase toy_tpm_env "d" (Some "secret") (tpm_port false TpmMock) false toy_dir = (toy_boot, Ok (mk_resolved "secret" "mock" false)) ∧
  resolve_aead_passphrase toy_tpm_env "d" None (tpm_port false TpmMock) false toy_boot = (toy_boot, Ok (mk_resolved "secret" "mock" false)).
Proof.
  assert (resolve_aead_passphrase toy_tpm_env "d" (Some "secret") (tpm_port false TpmMock) false toy_dir
    = (toy_boot, Ok (mk_resolved "secret" "mock" false))) as Hb by (vm_compute; reflexivity).
  split; [exact Hb|]. assert (fs_sane toy_dir) as Hs by (intros name i Hi; simpl in Hi; rewrite lookup_empty in Hi; discriminate).
  refine (proj2 (proj2 (tpm_passphrase_sealed toy_tpm_env "d" (Some "secret") false TpmMock false toy_dir toy_boot _ Hs eq_refl eq_refl Hb)) toy_tpm_env None _ _).
  - reflexivity.
  - vm_compute. reflexivity.
Defined.

(** The envelope is not synced: the first start returns, the machine crashes, and the envelope is
    there and empty; every later start without the clear passphrase is refused. *)
Lemma envelope_may_be_lost : ∃ s, crash toy_boot s ∧ fs_read s sealed_passphrase_name = Some [] ∧
  ∃ s' x, resolve_aead_passphrase toy_tpm_env "d" (Some "secret") (tpm_port false TpmMock) false s = (s', Err (TpmRequired x)).
Proof.
  eexists. split; [|split].
  - apply (crash_to toy_boot (fs_dir toy_boot) (λ _, [])); [by left|].
    assert (bool_decide (map_Forall (λ (_ : N) x, [] ∈ cached x :: earlier x) (fs_data toy_boot)) = true) as Hall by (vm_compute; reflexivity).
    exact (proj1 (bool_decide_eq_true _) Hall).
  - vm_compute. reflexivity.
  - eexists _, _. vm_compute. reflexivity.
Qed.
