(* ===== verification/StoreExamples.v ===== *)
(** * The durable stores and the claims over HTTP at concrete inputs *)
From S2P Require Import Prelude RustStr RustParse Errors Identity DayEpoch Bucket BucketLedger PersistedLedger QuorumClaim AntiNonce IntentConsume Economy Release.
From S2P Require Import DailyRotation AuthIdentity HttpPeer ConfigEnv Config HttpRoute HttpMesh DurableFs Json PeerFanout ReleaseStore EconomyStore.
Local Open Scope N_scope.

(* ------------------------------------------------------------------ *)
(** ** The durable economy and release mesh at concrete inputs

    The restart theorems applied with the parser of [Json], and what a control character in
    a text does to the next start. *)

#[local] Existing Instances toy_json toy_json_spec.
Definition durable_dir : Fs := mk_fs (Some true) ∅ [] ∅.
Lemma power_cut_now s : crash s (power_cut (fs_dir s) s).
Proof. apply crash_power_cut. by left. Qed.

Definition lab_policy : ReleasePolicy := release_lab_default 4.
Definition hex64 (c : string) : string := join "" (replicate 64 c).
Definition candidate (id : string) : ReleaseCandidate :=
  {| rel_id := id; hs := mk_content_hash (hex64 "a"); hb := mk_content_hash (hex64 "b"); rel_constitution_hash := "c0";
     council_sigs := {["alice"; "bob"]}; rebuilds := {["n1" := mk_content_hash (hex64 "b")]}; cosigns := {["n1"]};
     created_at_secs := 1700000000; phase := RelCosigning; reject_reason := Some (q "said `no`") |}.
Lemma candidate_ok id : plain_str id → (str_len (trim id) =? 0) = false → candidate_wf (candidate id).
Proof.
  intros H1 H2. split; [done|done|reflexivity|reflexivity|by apply plain_const| | | |by vm_compute|].
  - split; [by vm_compute|]. intros s Hs. cbn [council_sigs candidate] in Hs. apply elem_of_union in Hs as [Hs|Hs]; apply elem_of_singleton in Hs; subst s; by apply plain_const.
  - intros s Hs. cbn [cosigns candidate] in Hs. apply elem_of_singleton in Hs. subst s. by apply plain_const.
  - intros k h Hk. cbn [rebuilds candidate] in Hk. apply lookup_singleton_Some in Hk as [<- <-]. split; [by apply plain_const|reflexivity].
  - intros r [= <-]. by apply plain_const.
Qed.
Definition opened (p : res PersistedReleaseMesh) : PersistedReleaseMesh := default (mk_persisted_mesh (release_mesh_new lab_policy) durable_dir durable_dir) (match p with Ok p => Some p | Err _ => None end).
Definition mesh0 : PersistedReleaseMesh := opened (release_open None None lab_policy durable_dir durable_dir).
Definition mesh1 : PersistedReleaseMesh := (op_run "r" fs_works (OpPut (candidate "v1")) mesh0).1.

Lemma release_survives_restart_witness :
  let r := power_cut (fs_dir (pm_root mesh1)) (pm_root mesh1) in
  ∃ p', release_open None None lab_policy r durable_dir = Ok p' ∧
    mesh_data (pm_inner p') = mesh_data (pm_inner mesh1) ∧ rel_policy (pm_inner p') = lab_policy.
Proof.
  assert (policy_wf lab_policy) as Hp by (repeat apply Forall_cons_2; try apply Forall_nil_2; apply N.leb_le; reflexivity).
  assert ("r" ≠ "") as Hr by discriminate.
  refine (proj2 (release_survives_restart "r" lab_policy (Some true) durable_dir mesh0 mesh0 Hr Hp _ (steps_refl _ _) lab_policy Hp)
    fs_works (OpPut (candidate "v1")) mesh1 _ _ _ _ _ (power_cut_now _)).
  - reflexivity.
  - apply candidate_ok; [by apply plain_const|reflexivity].
  - vm_compute. reflexivity.
  - reflexivity.
Defined.

Definition miner (destination : string) : MinerOperator :=
  {| op_node_id := mk_node_id "miner-a"; payout_destination := destination; uptime_bps_30d := 9900; attestation_streak_days := 3;
     bond_sats := 0; waiting := false |}.
Definition eco_up (r : Fs * res EconomyState) : PersistedEconomy :=
  mk_persisted_economy (default economy_new_open (match r.2 with Ok s => Some s | Err _ => None end)) r.1.
Definition eco0 : PersistedEconomy := eco_up (economy_open "r" "economy.json" None fs_works durable_dir).
Definition eco1 : PersistedEconomy := (persisted_op "r" "economy.json" fs_works (eco_op_cmd (OpUpsert (miner "bc1q-miner-a"))) eco0).1.
Definition eco2 : PersistedEconomy := (persisted_op "r" "economy.json" fs_works (eco_op_cmd (OpProfit 1000000 100)) eco1).1.

Lemma miner_ok destination : plain_str destination → eco_op_wf (OpUpsert (miner destination)).
Proof.
  intros H. split; [split; [reflexivity|by split; vm_compute]|]. split; [by apply plain_const|]. split; [done|].
  split_and!; apply N.leb_le; reflexivity.
Qed.

(* ------------------------------------------------------------------ *)
(** ** Control characters

    Only backslashes and double quotes are escaped, so a line feed reaches the snapshot as it is. *)

Definition line_feed : string := String.String (Ascii.ascii_of_N 10) "".
(** A release id with a line feed inside is proposed and stored, and the snapshot cannot be read at the next start. *)
Definition bad_mesh : PersistedReleaseMesh := (op_run "r" fs_works (OpPut (candidate ("v" +:+ line_feed +:+ "1"))) mesh0).1.
Lemma line_feed_stops_release :
  (op_run "r" fs_works (OpPut (candidate ("v" +:+ line_feed +:+ "1"))) mesh0).2 = Ok tt ∧
  release_open None None lab_policy (pm_root bad_mesh) durable_dir = Err (ThresholdError "release meta json: not read").
Proof. split; vm_compute; reflexivity. Qed.
(** The same of a miner's payout destination. *)
Definition bad_eco : PersistedEconomy := (persisted_op "r" "economy.json" fs_works (eco_op_cmd (OpUpsert (miner ("bc1q" +:+ line_feed)))) eco0).1.
Lemma line_feed_stops_economy :
  (persisted_op "r" "economy.json" fs_works (eco_op_cmd (OpUpsert (miner ("bc1q" +:+ line_feed)))) eco0).2 = Ok tt ∧
  (economy_open "r" "economy.json" None fs_works (eco_dir bad_eco)).2 = Err (ThresholdError "economy json: not read").
Proof. split; vm_compute; reflexivity. Qed.

(* ------------------------------------------------------------------ *)
(** ** Claims over HTTP at concrete inputs

    A mesh of two vaults with a toy JSON codec: a claim that wins and its repeat, a claim that loses
    to its own lost answer, and a peer that echoes a day. *)

#[local] Existing Instances toy_json.
#[local] Instance toy_peer_json : PeerJson := {|
  json_text := print_json;
  prep_resp s := match json_from_str s with Ok v => as_bool (at_key "already_seen" v) | Err _ => None end;
  vote_resp s := match json_from_str s with
                 | Ok v => Some (as_str (at_key "self_day_epoch" v), as_str (at_key "day_epoch" v))
                 | Err _ => None
                 end |}.
#[local] Instance toy_peer_spec : PeerJsonSpec.
Proof. split. intros []; vm_compute; reflexivity. Qed.

Definition url_of (p : string) : string := p.
Definition sessions : Stores AntiNonce := {[ "a" := an_open None; "b" := an_open None ]}.
Definition intents : Stores PState := {[ "a" := persisted_open None 10 10; "b" := persisted_open None 10 10 ]}.
Definition arrives : string → N → Fate := λ _ _, Handled IoOk None.
Definition claim_at (node : string) (fates : string → N → Fate) : HttpClaim := mk_http_claim node "s1" IoOk fates None tor_defaults (Ok tt, Ok tt).
Definition both : list HttpClaim := [claim_at "a" arrives; claim_at "b" arrives].

Lemma both_run : (run_claims (http_claim_session Mesh.two_nodes Mesh.other_node url_of id) both sessions).2
  = [Ok tt; Err (NonceReuse "session_id already used: s1")].
Proof. vm_compute. reflexivity. Qed.
Lemma http_claims_single_use_witness :
  (run_claims (http_claim_session Mesh.two_nodes Mesh.other_node url_of id) both sessions).2 !! 0%nat = Some (Ok tt) ∧ (0 = 0)%nat.
Proof.
  assert ((run_claims (http_claim_session Mesh.two_nodes Mesh.other_node url_of id) both sessions).2 !! 0%nat = Some (Ok tt)) as H0 by (rewrite both_run; reflexivity).
  split; [exact H0|].
  refine (proj1 (http_claims_single_use Mesh.two_nodes Mesh.other_node url_of id (λ p, eq_refl) sessions intents both Mesh.two_nodes_mesh _ _ _
    0 0 (claim_at "a" arrives) (claim_at "a" arrives) eq_refl eq_refl eq_refl) H0 H0).
  - vm_compute. split; [discriminate|reflexivity].
  - intros p Hp. unfold Mesh.two_nodes in Hp. apply elem_of_union in Hp as [Hp|Hp]; apply elem_of_singleton in Hp; subst p; split; by eexists.
  - repeat apply Forall_cons_2; try apply Forall_nil_2; (split; [by intros p i status body|]); unfold Mesh.two_nodes; cbn [hc_node claim_at];
      apply elem_of_union; [left|right]; by apply elem_of_singleton.
Defined.

(* ------------------------------------------------------------------ *)
(** ** A lost answer

    The first request is handled and its answer lost; the repeat finds the id burned by the first. *)

Definition answer_lost : string → N → Fate := λ _ i, Handled IoOk (if i =? 0 then Some "timeout" else None).
Lemma lost_answer_burns_session :
  (http_claim_session Mesh.two_nodes Mesh.other_node url_of id (claim_at "a" answer_lost) sessions).2
  = Err (NonceReuse "session_id seen on ≥1 peer: s1").
Proof. vm_compute. reflexivity. Qed.
Lemma lost_answer_burns_intent :
  (http_claim_consume Mesh.two_nodes Mesh.other_node url_of id (claim_at "a" answer_lost) intents).2
  = Err (IntentReplay "intent seen on ≥1 peer: s1").
Proof. vm_compute. reflexivity. Qed.

(* ------------------------------------------------------------------ *)
(** ** The day a peer reports as its own is the day it was asked about *)

Lemma day_vote_echoes {JS : SerdeJson} config wv req principal body s s' status text :
  v1_day_vote config wv req principal (Ok body) s = (s', Ok (status, text)) →
  ∃ voter, text = format (q "{{`ok`:true,`voter`:`{}`,`self_voter`:`{}`,`self_day_epoch`:`{}`}}") [voter; node_str (cfg_node_id config); vb_day_epoch body].
Proof.
  unfold v1_day_vote, body_or_reply, or_reply. cbv [mbind cmd_bind lift mret cmd_ret map_err].
  unfold day_epoch_parse. destruct (day_epoch_shape (vb_day_epoch body)); [|done].
  destruct (resolve_mesh_caller_identity_with_principal _ _ _ _ _ _) as [voter|]; [|done].
  destruct (record_vote wv voter _ s) as [s1 [[]|]]; [|done]. intros [= _ _ <-]. by exists voter.
Qed.
