(* ===== verification/DaemonExamples.v ===== *)
(** * The signing daemon, key material, the identity daemon and its endpoints on concrete externals *)
From S2P Require Import Prelude RustStr RustParse Errors Identity Frost HybridEnvelope FrostSign SignerIpc SignerDaemon KeyIdentity IdentityDaemon IdentityServer SeedStore.
From S2P Require Import WireToy.
Local Open Scope N_scope.

(* ------------------------------------------------------------------ *)
(** ** The signing daemon on concrete externals

    JSON as the bits of a number, and the FROST calls of WireToy.v's scheme. *)

#[local] Existing Instances toy_hex toy_hex_spec toy_frost toy_sign.

(** A request as a sum of its arguments. *)
Definition req_code (r : SignerRequest (N * N)) :
    (string * list bytes * N) + (N * N) + (string * (N * N)) + (string * (N * N)) + string + string + unit :=
  match r with
  | CreateSession m p t => inl (inl (inl (inl (inl (inl (m, p, t))))))
  | InstallKeyPackages k => inl (inl (inl (inl (inl (inr k)))))
  | SubmitCommitments i c => inl (inl (inl (inl (inr (i, c)))))
  | SubmitSignatureShare i c => inl (inl (inl (inr (i, c))))
  | GetSignature i => inl (inl (inr i))
  | SessionStatus i => inl (inr i)
  | Health => inr tt
  end.
Definition req_uncode (c : (string * list bytes * N) + (N * N) + (string * (N * N)) + (string * (N * N)) + string + string + unit) :
    SignerRequest (N * N) :=
  match c with
  | inl (inl (inl (inl (inl (inl (m, p, t)))))) => CreateSession m p t
  | inl (inl (inl (inl (inl (inr k))))) => InstallKeyPackages k
  | inl (inl (inl (inl (inr (i, c))))) => SubmitCommitments i c
  | inl (inl (inl (inr (i, c)))) => SubmitSignatureShare i c
  | inl (inl (inr i)) => GetSignature i
  | inl (inr i) => SessionStatus i
  | inr tt => Health
  end.
Definition resp_code (r : SignerResponse) : string + unit + unit + unit + bytes + (string * N * N * N) + (string * N) + string :=
  match r with
  | SessionCreated i => inl (inl (inl (inl (inl (inl (inl i))))))
  | CommitmentsAccepted => inl (inl (inl (inl (inl (inl (inr tt))))))
  | KeyPackagesInstalled => inl (inl (inl (inl (inl (inr tt)))))
  | SignatureShareAccepted => inl (inl (inl (inl (inr tt))))
  | SignatureReady b => inl (inl (inl (inr b)))
  | SessionStatusIs s c h t => inl (inl (inr (s, c, h, t)))
  | HealthIs s n => inl (inr (s, n))
  | ErrorResponse m => inr m
  end.
Definition resp_uncode (c : string + unit + unit + unit + bytes + (string * N * N * N) + (string * N) + string) : SignerResponse :=
  match c with
  | inl (inl (inl (inl (inl (inl (inl i)))))) => SessionCreated i
  | inl (inl (inl (inl (inl (inl (inr _)))))) => CommitmentsAccepted
  | inl (inl (inl (inl (inl (inr _))))) => KeyPackagesInstalled
  | inl (inl (inl (inl (inr _)))) => SignatureShareAccepted
  | inl (inl (inl (inr b))) => SignatureReady b
  | inl (inl (inr (s, c, h, t))) => SessionStatusIs s c h t
  | inl (inr (s, n)) => HealthIs s n
  | inr m => ErrorResponse m
  end.

#[local] Instance toy_ipc_json : IpcJson := {|
  Json := N * N;
  request_to_vec r := Ok ("{"%char :: bits (encode (req_code r)));
  request_from_slice b := match decode (unbits (tail b)) with Some c => Ok (req_uncode c) | None => Err "expected value" end;
  response_to_vec r := Ok ("{"%char :: bits (encode (resp_code r)));
  response_from_slice b := match decode (unbits (tail b)) with Some c => Ok (resp_uncode c) | None => Err "expected value" end;
|}.
#[local] Instance toy_ipc_json_spec : IpcJsonSpec.
Proof.
  split; intros r b [= <-]; try done; cbn -[encode decode req_code resp_code req_uncode resp_uncode];
    rewrite unbits_bits, decode_encode; [by destruct r as [? ? ?| | | | | |]|by destruct r as [| | | | |? ? ? ?| |]].
Qed.

#[local] Instance toy_signer_frost : SignerFrost := {|
  frost_commit kp r := (r, r);
  frost_round2_sign kp n c m := Ok n;
  frost_aggregate c s pk m := aggregate (sp_new c m) s pk;
  group_verify pk m s := is_ok (vk_verify (verifying_key pk) m s);
  kp_identifier kp := kp.1;
  json_pubkey j := Ok (j.1, j.2, 0);
  json_commitments j := Ok [j];
  json_share j := Ok j;
  pubkey_text pk := Ok "pk";
  pubkey_from_text s := Err "expected value";
  signature_json s := Ok s;
|}.

Definition quiet : Outside := mk_outside (mk_now 10 11 12) None None.
Definition run (l : list (SignerRequest (N * N))) (d : Daemon) : Daemon :=
  foldl (λ d r, (handle_request quiet r d).1) d l.
Lemma run_steps l d : steps daemon_step d (run l d).
Proof. revert d. induction l as [|r l IH]; intros d; [apply steps_refl|]. eapply steps_cons; [constructor|apply IH]. Qed.

(** A two-signer session to its signature. *)
Definition two_signers : list (SignerRequest (N * N)) :=
  let id := session_id_new (out_now quiet) in
  [InstallKeyPackages (2, 3); CreateSession "6869" [["001"%char]; ["002"%char]] 2; SubmitCommitments id (1, 7);
   SubmitCommitments id (2, 8); SubmitSignatureShare id (1, 7); SubmitSignatureShare id (2, 8)].
Example two_signers_sign :
  (handle_request quiet (GetSignature (session_id_new (out_now quiet))) (run two_signers (daemon_start quiet None))).2 =
  Ok (SignatureReady (bytes_of "hi")).
Proof. vm_compute. reflexivity. Qed.
(** A participant of no bytes takes the process down. *)
Example empty_participant_panics :
  is_ok (handle_request quiet (CreateSession "6869" [[]] 1) (daemon_start quiet None)).2 = false.
Proof. vm_compute. reflexivity. Qed.
(** A share of an identifier that made no commitment completes the session, which then never signs. *)
Example stray_share_spoils :
  let id := session_id_new (out_now quiet) in
  (handle_request quiet (GetSignature id) (run [InstallKeyPackages (2, 3); CreateSession "6869" [["001"%char]] 1;
     SubmitCommitments id (1, 7); SubmitSignatureShare id (9, 7)] (daemon_start quiet None))).2 =
  Ok (ErrorResponse "aggregation failed: round error: aggregate: unknown signer").
Proof. vm_compute. reflexivity. Qed.

Lemma signing_sessions_witness :
  let d := run two_signers (daemon_start quiet None) in
  active_count (dm_sessions d) ≤ 64 ∧
  ∃ s pk sg, sm_sessions (dm_sessions d) !! session_id_new (out_now quiet) = Some s ∧ ss_state s = Complete ∧
    frost_aggregate (ss_commitments s) (ss_shares s) pk (ss_message s) = Ok sg ∧ signature_json sg = Ok (bytes_of "hi").
Proof.
  intros d. destruct (signing_sessions_sound quiet None d (run_steps _ _)) as (H1 & _ & H3 & _).
  split; [exact H1|]. destruct (H3 quiet (session_id_new (out_now quiet)) (bytes_of "hi") two_signers_sign)
    as (s & pk & sg & Hs & Hc & _ & _ & _ & Ha & Hj).
  exact (ex_intro _ s (ex_intro _ pk (ex_intro _ sg (conj Hs (conj Hc (conj Ha Hj)))))).
Defined.

Lemma ipc_exchange_witness :
  let d := daemon_start quiet None in
  send_request (served (handle_request quiet)) None Health d = (d, Ok (HealthIs "ok" 0)).
Proof.
  intros d.
  assert (is_ok (encode_request Health) = true) as Hb by (vm_compute; reflexivity).
  assert (is_ok (encode_message (HealthIs "ok" 0)) = true) as He by (vm_compute; reflexivity).
  destruct (encode_request Health) as [b|] eqn:Eb; [|discriminate].
  destruct (encode_message (HealthIs "ok" 0)) as [eb|] eqn:Ee; [|discriminate].
  exact (proj1 (ipc_exchange (handle_request quiet) Health d d (HealthIs "ok" 0) b eb Eb eq_refl Ee)).
Defined.

(* ------------------------------------------------------------------ *)
(** ** Key material, the identity daemon and its endpoints on concrete externals *)

#[local] Existing Instances toy_sha256 toy_hex toy_store toy_store_spec.

(** Verifying keys of 32 bytes, equal to their seed; a signature is the message. *)
Definition pad_32 (b : bytes) : bytes := take 32 (b ++ replicate 32 "0"%char).
Definition Vk32 : Type := { b : bytes | bool_decide (length b = 32%nat) }.
Program Definition vk_32 (b : bytes) : Vk32 := pad_32 b.
Next Obligation. intros b. apply bool_decide_pack. unfold pad_32. rewrite length_take, length_app, length_replicate. lia. Defined.
Lemma vk_32_round (v : Vk32) : vk_32 (proj1_sig v) = v.
Proof.
  destruct v as [b Hb]. apply (sig_eq_pi _). simpl. unfold pad_32.
  pose proof (bool_decide_unpack _ Hb) as Hl. by rewrite take_app_le, take_ge by lia.
Qed.
#[local] Instance toy_ed : Ed25519Lib := {|
  EdVk := Vk32;
  EdSig := bytes;
  ed_vk_of_seed := vk_32;
  ed_vk_from b := if len b =? 32 then Ok (vk_32 b) else Err "wrong length";
  ed_vk_bytes := @proj1_sig _ _;
  ed_sig_from b := Ok b;
  ed_sign s m := m;
  ed_verify v m sg := bool_decide (sg = m);
|}.
#[local] Instance toy_ed_spec : Ed25519Spec.
Proof.
  split.
  - intros [b Hb]. simpl. pose proof (bool_decide_unpack _ Hb). unfold len. lia.
  - intros v. simpl. destruct v as [b Hb] eqn:E. simpl. pose proof (bool_decide_unpack _ Hb) as Hl.
    assert (len b =? 32 = true) as -> by (unfold len; nlia). f_equal. apply (vk_32_round (b ↾ Hb)).
  - intros s m. exists m. split; [done|]. simpl. by rewrite bool_decide_true.
Qed.
#[local] Instance toy_ml : MlDsaLib := {|
  MlSk := bytes; MlVk := bytes; MlSig := bytes;
  ml_keygen e := Ok (replicate 4032 "s"%char, replicate 1952 "p"%char);
  ml_sk_from b := b;
  ml_vk_of_sk b := replicate 1952 "p"%char;
  ml_vk_from b := b;
  ml_try_sign k m := Ok m;
  ml_sig_from b := Some b;
  ml_verify_internal v m s := bool_decide (s = m);
|}.
#[local] Instance toy_ml_spec : MlDsaSpec.
Proof. split. intros e s p [= <- <-]. split; vm_compute; reflexivity. Qed.

(** Plaintext and a tag made of the key. *)
Definition toy_tag (k : bytes) : bytes := take 16 (k ++ replicate 16 "0"%char).
#[local] Instance toy_aead : AeadLib := {|
  argon2id m t p pass salt := Ok (pass ++ salt);
  gcm_encrypt k n a m := Some (toy_tag k ++ m);
  gcm_decrypt k n a c := if bool_decide (take 16 c = toy_tag k) then Some (drop 16 c) else None;
|}.
#[local] Instance toy_aead_spec : AeadSpec.
Proof.
  assert (∀ k, length (toy_tag k) = 16%nat) as Hl.
  { intros k. unfold toy_tag. rewrite length_take, length_app, length_replicate. lia. }
  split; intros k n a m c; simpl; intros [= <-].
  - rewrite take_app_le, take_ge, drop_app_ge, (Hl k), Nat.sub_diag, drop_0 by (rewrite (Hl k); lia).
    by rewrite bool_decide_true.
  - rewrite len_app. unfold len at 1. rewrite (Hl k). lia.
Qed.

Definition vault_1 : IdentityDaemon := mk_daemon "vault-1" "00ff" "secret".
Definition env_at (now : N) : IdEnv :=
  mk_id_env now (replicate 16 "a"%char) (replicate 12 "b"%char) (mk_entropy (replicate 32 "e"%char) [] now)
    None None None None None None true [].
Lemma env_at_wf now : now ≤ u64_max → env_wf (env_at now).
Proof. intros H. by repeat split. Qed.
Lemma vault_1_wf : node_wf vault_1.
Proof. split; vm_compute; [reflexivity|discriminate]. Qed.

Definition born : IdState := (load_or_generate_identity vault_1 (env_at 100) (mk_id_state ∅ None)).1.
Lemma born_ok : is_ok (load_or_generate_identity vault_1 (env_at 100) (mk_id_state ∅ None)).2 = true.
Proof. vm_compute. reflexivity. Qed.
Lemma born_steps : steps (id_step vault_1) (mk_id_state ∅ None) born.
Proof. apply steps_one. constructor. by apply env_at_wf. Qed.

Lemma identity_file_whole_witness :
  ∃ k, ∀ e, ie_read e = None → (load_or_generate_identity vault_1 e (mk_id_state (is_disk born) None)).2 = Ok k.
Proof.
  destruct (identity_file_whole vault_1 ∅ born vault_1_wf (lookup_empty _) (lookup_empty _) born_steps) as [H _].
  assert (bool_decide (is_Some (is_disk born !! identity_path vault_1)) = true) as Hf by (vm_compute; reflexivity).
  apply bool_decide_eq_true in Hf as [f Hf]. destruct (H f Hf) as [_ (k & _ & Hk)]. exists k. exact Hk.
Defined.

(** A signing request of a caller with the token. *)
Definition toy_parse (b : bytes) : result (N * string) SignEndpointBody :=
  Ok (mk_sign_body "6869" "audit" None (Some "core") "0011223344556677" 120).
Definition sign_request (token : string) : Request := mk_request "POST" "/v1/identities/sign" (Some token) [].
Definition signed_reply (rep : Reply) : option SignEndpointResponse := match rp_body rep with BSigned r => Some r | _ => None end.
(** Without the token, nothing. *)
Example sign_refused :
  serve (mk_server vault_1 "token") toy_parse (env_at 110) (sign_request "guess") born = (born, Ok unauthorized).
Proof. reflexivity. Qed.
(** An archive's name is not one the cleanup looks for. *)
Example archive_not_cleaned : is_archive "identity-00ff.old.100" = false.
Proof. reflexivity. Qed.
(** Traversal in a node id is refused. *)
Example node_ids : (is_ok (sanitize_node_id "../etc"), is_ok (sanitize_node_id "a/b"), is_ok (sanitize_node_id " vault-1 ")) = (false, false, true).
Proof. vm_compute. reflexivity. Qed.
