(* ===== verification/WiringExamples.v ===== *)
(** * A node built from a concrete configuration *)
From S2P Require Import Prelude RustStr RustParse Errors Identity DayEpoch Bucket BucketLedger PersistedLedger Constitution AntiNonce Ledger NodeTier Economy Release DailyRotation.
From S2P Require Import LabField Threshold Frost HybridEnvelope WireDkg WireHub AuthIdentity FrostShares ShareReshare FrostSign Cosign TrSign DkgLocal HttpPeer PeerTrust.
From S2P Require Import ConfigEnv Config HttpRoute Health KeyIdentity SeedStore TeeAttestation DurableFs Json PeerFanout ReleaseStore EconomyStore SealedStore.
From S2P Require Import ShareAead ShareTee ShareTpm PeerLink Wiring WireToy HttpExamples ShareExamples DaemonExamples StoreExamples.
Local Open Scope N_scope.

#[local] Existing Instances toy_sha256 toy_hex toy_frost toy_storage toy_even_y toy_store toy_seal toy_raw toy_snp toy_ed toy_ml Json.toy_json no_directory.
#[local] Instance toy_x25519 : X25519Lib := λ b, b.
(** Every file is one certificate, or the key of that name. *)
#[local] Instance toy_tls : TlsLib := {|
  Certificate := string; PrivateKey := string;
  pem_certs b := [Ok (str_of b)]; pem_private_key b := Ok (Some (str_of b));
  root_add _ := Ok tt; server_verifier_build _ := Ok tt; client_verifier_build _ := Ok tt;
  single_cert _ _ := Ok tt; client_auth_cert _ _ := Ok tt; alt_names _ := Ok None |}.
Definition every_file (path : string) : result string bytes := Ok (bytes_of path).
(** A dealer of the sums of [toy_frost]: everyone's share is the secret. *)
#[local] Instance toy_dealer : @FrostDealer toy_frost := {|
  SecretShare := @KeyPackage toy_frost;
  generate_with_dealer n t r := Ok (list_to_map ((λ i, (i, (t, r))) <$> upto n), (t, n, r));
  kp_try_from s := Ok s |}.

Definition boot_env : BootEnv toy_frost toy_frost := {|
  be_draw := mk_draw [] [] [] [] [] []; be_created_at := 0; be_today := 1785400000;
  be_release_mkdir := None; be_release_fails := None; be_release_root := durable_dir; be_release_blobs := durable_dir;
  be_economy_fails := None; be_economy := fs_works; be_tpm := mk_tpm_env [] [] None None None None;
  be_buckets_open := Ok tt; be_sessions_open := Ok tt; be_votes := None;
  be_keys := mk_key_draws toy_frost toy_frost 11 12 13 id |}.
Local Notation node_of ft vars files config := (build toy_frost toy_frost (λ _, files : gmap string bytes) ft (env_of vars)
  false false false every_file (λ _, Ok tt) (Ok tt) boot_env config durable_dir).

(** The production ceremony of [HttpExamples] with a pin of full length. *)
Definition pinned_env := ("VAULT_MEASUREMENT_PIN", hex64 "a") :: hardened_ceremony_env.

(** A mesh of two seats and two peers: the ceremonies run with the seated peer, the co-signatures are asked of the
    waiting one too, whose refusal ends them. *)
Definition waiting_env := ("VAULT_GENESIS_N", "2") ::
  ("VAULT_SEED_PEERS", "vault-2=https://abc.onion:7701,vault-3=https://def.onion:7701") :: pinned_env.
Definition peers_of (rt : VaultRuntime toy_frost toy_frost (T := gmap string bytes)) : list string * list string * list string :=
  (node_str <$> rt_genesis_roster _ _ rt, bt_keys (lk_peer_addrs (rt_wire_dkg _ _ rt).1.2),
   from_option (λ t, (ht_peers t).*1) [] (rt_tr_cosign _ _ rt)).
Lemma cosign_asks_waiting :
  match boot waiting_env with
  | Ok c => match (node_of release_build waiting_env ∅ c).2 with
            | Ok rt => peers_of rt = (["vault-1"; "vault-2"], ["vault-2"], ["vault-2"; "vault-3"])
            | Err _ => False
            end
  | Err _ => False
  end.
Proof. vm_compute. reflexivity. Qed.

(** A laboratory node of a build with the dealer: it holds every share and may sign alone. *)
Definition dealer_build : Features := mk_features false true false.
Definition lab_env : list (string * string) :=
  [("VAULT_NODE_ID", "vault-1"); ("VAULT_DKG_MODE", "dealer_lab"); ("VAULT_GENESIS_N", "3")].
Lemma lab_dealer_node :
  match from_env dealer_build (env_of lab_env) (λ _, false) no_file with
  | Ok c => match (node_of dealer_build lab_env ∅ c).2 with
            | Ok rt => km_dkg _ _ (rt_keys _ _ rt) = DealerLabAdapter ∧
                from_option (λ o, (o_allow_local_multisign o, size <$> (key_packages <$> o_shares o))) (false, None)
                  (km_frost_tr _ _ (rt_keys _ _ rt)) = (true, Some 3%nat)
            | Err _ => False
            end
  | Err _ => False
  end.
Proof. vm_compute. split; reflexivity. Qed.
